(* ===== verification/_CoqProject ===== *)
-Q . S2P
Prelude.v
GoStd.v
Utf8.v
Packages.v
Bytes.v
Json.v
Jcs.v
ClientJcs.v
GoTime.v
Encoding.v
Privacy.v
Tutoring.v
LearningSpace.v
LearningDomain.v
Offline.v
ActiveTime.v
Goals.v
Planning.v
Reducer.v
Assessment.v
Projection.v
GoRegexp.v
Ignore.v
MemoryDomain.v
Outbox.v
AgentMessages.v
ContextPlan.v
AgentTools.v
AgentRunner.v
ModelStream.v
Identity.v
Canonical.v
Retrieval.v
PatchMatch.v
PatchParse.v
PatchApply.v
Companion.v
Permits.v
ErasureGrants.v
SignerChain.v
OfflineTrust.v
