(* ===== verification/Prelude.v ===== *)
(** * edu-agent: a verification library

    The library models the core of edu-agent, a teaching assistant with a Go server
    ([server/internal]), shared agent packages ([packages/agentcore]) and a
    command-line client ([clients/cli-go]). Definitions keep the names of the code;
    a method [T.M] becomes [M], or [T_M] where the name is taken.

    ** How the code is modelled

    - A Go function that returns an error is a function into [result E T]; a loop
      with early returns is [each] or [fold_result]; [panic]s of out-of-range slices
      are error values. A pointer is an [option], a [time.Time] an instant in
      nanoseconds ([GoStd.time]), an [int] an integer with [wrap64] where the code
      can overflow.
    - A call that holds a mutex or a transaction is one step of a state; histories of
      calls are lists of steps or inductive reachability, so that theorems speak of
      every interleaving.
    - The clock, fresh identifiers and random bytes are arguments. One call reads the
      clock once.
    - Third-party packages and interfaces of the program are classes or records of
      operations, instantiated by concrete functions in the witnesses: [UUIDPackage],
      [UUIDHash], [TextPackage], [LetterTables] (Packages.v), [Goldmark] and [YAML]
      (Canonical.v), [TimeZoneDatabase] (GoTime.v), [UnicodeTables] (GoStd.v),
      [PathTables] (PatchParse.v), [PayloadCodec] (Projection.v: the JSON decoding of
      event payloads), [Postgres] and [Store] (Outbox.v), the token estimator and its
      calibration (ContextPlan.v), the model, the tools and the cancellation of a
      context (AgentTools.v, AgentRunner.v), the decoding of an exchange
      (Companion.v), [KnowledgeStore] and [Selector] (Retrieval.v), the generator of
      identifiers (ErasureGrants.v), [Ed25519] (SignerChain.v), [Activities]
      (OfflineTrust.v), the file system (Ignore.v), the connections of
      the model client and [StreamCodec], its JSON decoding (ModelStream.v). [NegativeZero] (Jcs.v)
      is the one point where the two copies of the canonical JSON code differ.

    ** Foundations

    - Prelude.v: results, stable sorting, 64-bit integers, automation.
    - GoStd.v, Utf8.v, Bytes.v, Json.v, GoTime.v, Encoding.v: what the code uses of the
      standard library (time, strings, unicode/utf8, bytes, crypto/sha256, crypto/hmac,
      encoding/json, encoding/hex, encoding/base64), all executable. Utf8.v proves
      that UTF-8 is read back; Encoding.v reads JSON into structs and RFC 3339 times,
      and proves that what [json.Marshal] writes is read back.
    - Jcs.v ([learning/jcs.go]): canonical JSON. Two texts have one canonical form
      exactly when they stand for one value, and canonical texts are fixed points.
    - ClientJcs.v ([clients/cli-go/internal/offline/jcs.go]): the copy of the client. The
      two sides agree on canonical texts.
    - GoRegexp.v: the regular expressions of the memory classifier, with a matcher.
    - Packages.v: the third-party packages.

    ** The teaching service

    - Tutoring.v ([tutoring/state.go]): the session state machine. [Apply] refines an
      abstract machine of states and focus frames; a focus frame that is opened and
      closed restores the session.
    - LearningSpace.v ([learningspace/domain.go]), LearningDomain.v
      ([learning/domain.go]): scopes, records, envelopes and validators.
    - ActiveTime.v ([learning/time.go]), Reducer.v ([learning/reducer.go]),
      Assessment.v ([learning/assessment.go]), Projection.v ([learning/event.go]): the
      estimate of active time, the mastery and review schedule of a node, the
      acceptance of an assessment only with evidence quoted from its sources, and the
      projection of the event log, whose cached node states and active times are
      always complete and those of a full recomputation, and whose replay is
      incremental.
    - Goals.v ([learning/goals.go], [createGoal]) and Planning.v
      ([learning/planning.go]): the life of a goal as an invariant of its revisions,
      and planning drafts: validation against a specification, and suggestions of a
      model that cannot harm a draft.
    - Offline.v ([learning/offline.go], the limits of [learning/offline_protocol.go]):
      operations that a device recorded offline, from the wire to the hash that
      identifies them. What is accepted is well formed, has a hash, and the hashed
      text binds every field of the request.

    - SignerChain.v ([learning/offline_protocol.go]): the signer of offline packs and the
      chain of its manifests. A signer that was made has a valid chain, and signs with the
      key at its end.
    - OfflineTrust.v ([clients/cli-go/internal/command/offline_verify.go]): the other side. A
      paired client follows the chain of its server to the end, and what it accepts is what
      the server signed, for this device and request.

    ** Memory and delivery

    - MemoryDomain.v ([memory/domain.go]): lifecycles, validators, the classifier of
      sensitive content, the admission policy and the delivery gate.
    - Outbox.v ([platform/outbox]): the table of messages as a step relation with the
      constraints of its migrations, leases, privacy redaction, and the worker over
      the interface [Store]: it settles every message it claims the way the consumer
      of the message answers.

    ** Privacy

    - Privacy.v ([privacy/domain.go], [ports.go], [challenge.go], [backup.go],
      [disabled.go]): owners and stores, state machines of an erasure, validators, the
      hash that identifies an erasure, the challenges of offline devices.
    - Permits.v ([privacy/permit.go]): the read permits as a step relation of concurrent
      calls. After [CloseAndDrain] nothing of its owners is read or written to a
      response until they are opened again, and the calls do not block each other.
    - ErasureGrants.v ([privacy/grant.go], [privacy/postgresstore/grant.go]): the tokens
      that authorise an erasure, once, within a bounded number of guesses.

    ** Knowledge

    - Identity.v ([knowledge/identity.go]): paths, tokens, similarity.
    - Canonical.v ([knowledge/canonical.go]): the identity envelope and node markers of
      a Markdown document, and the index, which builds the tree of its headings.
    - Retrieval.v ([knowledge/retrieval.go]): the traversal of that tree under limits
      with an untrusted selector. It always returns, stays within its limits, its
      hits are sections of nodes of the revision, and a result that is not marked is
      complete.

    ** The agent core and its client

    - AgentMessages.v, ContextPlan.v, AgentTools.v, AgentRunner.v
      ([packages/agentcore]): messages and limits, the context planner, the tool set
      and the run loop. Tool calls run at most once, requests fit the window, and the
      transcript follows the protocol.
    - ModelStream.v ([packages/agentcore/modelclient]): the streaming client of a model:
      server-sent events are read back as they were written, [Stream] returns, and the
      text it showed is the content of the response it gives, over all attempts.
    - Companion.v ([packages/agentcore/companion]): the broker between a conversation
      and a paired browser, with its message authentication codes, leases and
      receipts.
    - PatchMatch.v, PatchParse.v, PatchApply.v ([clients/cli-go/internal/workspace]):
      the patch language of the client, its search for hunks (Knuth-Morris-Pratt,
      equal to the naive search) and the assembly of a candidate text.
    - Ignore.v ([clients/cli-go/internal/workspace/ignore.go]): the ignore files of a
      workspace. A rule matches what its pattern means, the innermost last rule decides,
      and reading rules fails closed and stays within its budgets.

    ** Bounds and fuel

    Recursion that is not structural takes fuel, and a theorem or a definition says
    why it suffices: the fall of the search table is at most the length of the
    prefix; the patch parser and the front matter consume input at each step; the
    runner's fuel exceeds its round budget ([Run_terminates]); the ancestors of a
    node have smaller indices ([path_titles_fuel]); the retrieval spends candidates
    or pops the queue ([Retrieve_returns]); the readers of JSON consume a byte every two
    calls ([CanonicalizeJCS_fuel], [json_first_fuel]); every event of a stream takes bytes
    of it, and the attempts are at most two ([Stream_returns]). Theorems about permits hold while
    fewer than [2 ^ 64] were issued, where the code's counter does not wrap around.

    ** Not modelled

    PostgreSQL stores other than those of the outbox and of the grants, HTTP and MCP transports, integrations,
    the terminal interface and the file-backed stores of the client: their logic is
    input and output. The JSON decoding of event payloads, Markdown and YAML parsing and
    Unicode tables are parameters. The texts of decoding errors are not modelled. Of
    modelled files, the parts left out are listed in the header of the file that models the rest: among them the floating-point
    calibration of token estimates, the transaction of the planning service, the
    rendering of diffs and [BindOfflineAuthorization]. The order in which
    PostgreSQL returns rows of a [RETURNING] clause is the order of the claim. *)
From stdpp Require Export base gmap strings list fin_maps sorting.
From Stdlib Require Export ZArith Lia Ascii.

#[global] Open Scope Z_scope.

(** ** Results of fallible Go functions

    A Go function returning [(T, error)] becomes a function into
    [result E T]. The instances give stdpp's [x ← c; k] notation. *)
Inductive result (E A : Type) : Type :=
| Ok (a : A)
| Err (e : E).
Arguments Ok {E A} a.
Arguments Err {E A} e.

#[export] Instance result_ret {E} : MRet (result E) := fun A a => Ok a.
#[export] Instance result_bind {E} : MBind (result E) :=
  fun A B k c => match c with Ok a => k a | Err e => Err e end.
#[export] Instance result_fmap {E} : FMap (result E) :=
  fun A B f c => match c with Ok a => Ok (f a) | Err e => Err e end.

(** [err != nil] *)
Definition is_Err {E A} (c : result E A) : bool := match c with Ok _ => false | Err _ => true end.

(** [if b { return e }] *)
Definition fail_if {E} (b : bool) (e : E) : result E unit :=
  if b then Err e else Ok tt.

(** [for _, x := range l { if err := f(x); err != nil { return err } }] *)
Fixpoint each {E A} (f : A → result E unit) (l : list A) : result E unit :=
  match l with
  | [] => Ok tt
  | x :: l => _ ← f x; each f l
  end.

(** A loop that threads an accumulator and may return early with an error. *)
Fixpoint fold_result {E A B} (f : B → A → result E B) (acc : B) (l : list A)
  : result E B :=
  match l with
  | [] => Ok acc
  | x :: l => acc' ← f acc x; fold_result f acc' l
  end.

Section ResultFacts.
Context {E : Type}.

Lemma bind_Ok {A B} (c : result E A) (k : A → result E B) b :
  (c ≫= k) = Ok b ↔ ∃ a, c = Ok a ∧ k a = Ok b.
Proof. destruct c; simpl; naive_solver. Qed.

Lemma bind_Err {A B} (c : result E A) (k : A → result E B) e :
  (c ≫= k) = Err e ↔ c = Err e ∨ ∃ a, c = Ok a ∧ k a = Err e.
Proof. destruct c; simpl; naive_solver. Qed.

Lemma fail_if_Ok b (e : E) u : fail_if b e = Ok u ↔ b = false.
Proof. destruct b, u; simpl; naive_solver. Qed.

Lemma fail_if_Err b (e e' : E) : fail_if b e = Err e' ↔ b = true ∧ e = e'.
Proof. destruct b; simpl; naive_solver. Qed.

(** A guard in front of [k]. *)
Lemma guard_Ok {B} (b : bool) (e : E) (k : result E B) x :
  (_ ← fail_if b e; k) = Ok x ↔ b = false ∧ k = Ok x.
Proof. destruct b; simpl; naive_solver. Qed.

Lemma guard_Err {B} (b : bool) (e e' : E) (k : result E B) :
  (_ ← fail_if b e; k) = Err e' ↔ (b = true ∧ e' = e) ∨ (b = false ∧ k = Err e').
Proof. destruct b; simpl; naive_solver. Qed.

Lemma bind_eq_Ok {A B} (a : A) (k : A → result E B) : (Ok a ≫= k) = k a.
Proof. done. Qed.

Lemma each_Ok {A} (f : A → result E unit) l u :
  each f l = Ok u ↔ Forall (fun x => f x = Ok tt) l.
Proof.
  destruct u. induction l as [|x l IH]; simpl; [done|]. rewrite Forall_cons.
  destruct (f x) as [[]|e]; simpl; [rewrite IH|]; naive_solver.
Qed.

Lemma fold_result_app {A B} (f : B → A → result E B) acc l1 l2 :
  fold_result f acc (l1 ++ l2)
  = (fold_result f acc l1 ≫= fun acc' => fold_result f acc' l2).
Proof.
  revert acc. induction l1 as [|x l1 IH]; intros acc; simpl; [done|].
  destruct (f acc x); simpl; [apply IH | done].
Qed.

(** An invariant of the body is an invariant of the loop. *)
Lemma fold_result_invariant {A B} (P : B → Prop) (f : B → A → result E B) l :
  (∀ acc x acc', x ∈ l → P acc → f acc x = Ok acc' → P acc') →
  ∀ acc acc', P acc → fold_result f acc l = Ok acc' → P acc'.
Proof.
  induction l as [|x l IH]; simpl; intros Hf acc acc' HP Heq; [naive_solver|].
  apply bind_Ok in Heq as (acc1 & H1 & H2).
  apply IH with acc1; [|eapply Hf, H1; [set_solver | done] | done].
  intros a y a' Hy. apply Hf. set_solver.
Qed.
End ResultFacts.

(** Result-inversion automation: split a chain of binds known to succeed. *)
Create HintDb go_result.
#[export] Hint Rewrite @bind_Ok @fail_if_Ok : go_result.

Ltac inv_result :=
  repeat match goal with
  | H : Ok _ = Ok _ |- _ => injection H as H; try subst
  | H : Err _ = Ok _ |- _ => discriminate H
  | H : Ok _ = Err _ |- _ => discriminate H
  | H : Err _ = Err _ |- _ => injection H as H; try subst
  | H : mret _ = Ok _ |- _ => injection H as H; try subst
  | H : (_ ≫= _) = Ok _ |- _ =>
      apply bind_Ok in H; let x := fresh "x" in let H1 := fresh "Hc" in
      destruct H as (x & H1 & H)
  | H : fail_if _ _ = Ok ?u |- _ => apply fail_if_Ok in H; try clear u
  | H : fail_if _ _ = Err _ |- _ => apply fail_if_Err in H; destruct H as [H ?]
  end.

(** Turn boolean guards into propositions. *)
Ltac bool_prop :=
  repeat match goal with
  | H : bool_decide _ = true |- _ => apply bool_decide_eq_true in H
  | H : bool_decide _ = false |- _ => apply bool_decide_eq_false in H
  | H : (_ || _) = false |- _ => apply orb_false_iff in H; destruct H
  | H : (_ && _) = true |- _ => apply andb_true_iff in H; destruct H
  | H : negb _ = true |- _ => apply negb_true_iff in H
  | H : negb _ = false |- _ => apply negb_false_iff in H
  | H : (_ =? _) = true |- _ => apply Z.eqb_eq in H
  | H : (_ =? _) = false |- _ => apply Z.eqb_neq in H
  | H : (_ <? _) = true |- _ => apply Z.ltb_lt in H
  | H : (_ <? _) = false |- _ => apply Z.ltb_ge in H
  | H : (_ <=? _) = true |- _ => apply Z.leb_le in H
  | H : (_ <=? _) = false |- _ => apply Z.leb_gt in H
  end.

(** ** Machine integers of the Go code *)
Definition int64_min : Z := - 2 ^ 63.
Definition int64_max : Z := 2 ^ 63 - 1.
Definition in_int64 (z : Z) : bool := (int64_min <=? z) && (z <=? int64_max).
(** Two's-complement wrap-around of a 64-bit [int]/[int64] operation. *)
Definition wrap64 (z : Z) : Z := (z + 2 ^ 63) mod 2 ^ 64 - 2 ^ 63.

Lemma wrap64_id z : in_int64 z = true → wrap64 z = z.
Proof.
  unfold in_int64, wrap64, int64_min, int64_max. intros H. bool_prop.
  rewrite Z.mod_small; lia.
Qed.

Lemma wrap64_range z : in_int64 (wrap64 z) = true.
Proof.
  unfold in_int64, wrap64, int64_min, int64_max.
  pose proof (Z.mod_pos_bound (z + 2 ^ 63) (2 ^ 64) ltac:(lia)).
  apply andb_true_iff. rewrite !Z.leb_le. lia.
Qed.

(** ** Stable sorting, as [sort.SliceStable] does it

    [ltb x y] is the Go [less(i, j)]. The result is the unique stable
    rearrangement of the list when [ltb] is a strict weak order. *)
Section Sorting.
Context {A : Type} (ltb : A → A → bool).

Fixpoint insert_by (x : A) (l : list A) : list A :=
  match l with
  | [] => [x]
  | y :: l' => if ltb y x then y :: insert_by x l' else x :: y :: l'
  end.

Definition sort_by (l : list A) : list A := foldr insert_by [] l.

(** [x] may stand before [y]. *)
Definition le_by (x y : A) : Prop := ltb y x = false.

Lemma insert_by_Permutation x l : insert_by x l ≡ₚ x :: l.
Proof.
  induction l as [|y l IH]; simpl; [done|].
  destruct (ltb y x); [|done]. rewrite IH. apply Permutation_swap.
Qed.

Lemma sort_by_Permutation l : sort_by l ≡ₚ l.
Proof.
  induction l as [|x l IH]; simpl; [done|].
  by rewrite insert_by_Permutation, IH.
Qed.

Lemma elem_of_sort_by x l : x ∈ sort_by l ↔ x ∈ l.
Proof. by rewrite sort_by_Permutation. Qed.

Lemma length_sort_by l : length (sort_by l) = length l.
Proof. by rewrite sort_by_Permutation. Qed.

(** A list that is already in order is left alone. *)
Lemma sort_by_id l : StronglySorted le_by l → sort_by l = l.
Proof.
  induction 1 as [|x l Hs IH Hx]; simpl; [done|]. rewrite IH.
  destruct l as [|y l]; simpl; [done|].
  apply Forall_cons in Hx as [Hx _]. by rewrite Hx.
Qed.

Hypothesis le_trans : ∀ x y z, le_by x y → le_by y z → le_by x z.
Hypothesis lt_asym : ∀ x y, ltb x y = true → ltb y x = false.

Lemma insert_by_sorted x l :
  StronglySorted le_by l → StronglySorted le_by (insert_by x l).
Proof.
  induction 1 as [|y l Hs IH Hy]; simpl; [repeat constructor|].
  destruct (ltb y x) eqn:Hyx.
  - constructor; [done|]. rewrite insert_by_Permutation.
    constructor; [by apply lt_asym | done].
  - constructor; [by constructor|]. constructor; [done|].
    eapply Forall_impl; [exact Hy|]. intros z Hz. by eapply le_trans.
Qed.

Lemma sort_by_sorted l : StronglySorted le_by (sort_by l).
Proof. induction l; simpl; [constructor | by apply insert_by_sorted]. Qed.

(** Two ordered rearrangements of the same elements are equal when ties
    only happen between equal elements. *)
Lemma sorted_unique l1 l2 :
  (∀ x y, x ∈ l1 → y ∈ l1 → le_by x y → le_by y x → x = y) →
  StronglySorted le_by l1 → StronglySorted le_by l2 → l1 ≡ₚ l2 → l1 = l2.
Proof using Type.
  clear le_trans lt_asym. intros Hanti H1. revert l2 Hanti.
  induction H1 as [|x l1 H1 IH Hx]; intros l2 Hanti H2 Hp.
  - by apply Permutation_nil_l in Hp.
  - destruct H2 as [|y l2 H2 Hy]; [by apply Permutation_nil_r in Hp|].
    rewrite Forall_forall in Hx, Hy.
    assert (x = y) as ->.
    { assert (x ∈ y :: l2) as Hx2 by (rewrite <- Hp; set_solver).
      assert (y ∈ x :: l1) as Hy1 by (rewrite Hp; set_solver).
      apply elem_of_cons in Hx2 as [->|Hx2]; [done|].
      apply elem_of_cons in Hy1 as [->|Hy1]; [done|].
      apply Hanti; [set_solver.. | by apply Hx | by apply Hy]. }
    f_equal. apply IH; [|done|by apply Permutation_cons_inv in Hp].
    intros a b Ha Hb. apply Hanti; set_solver.
Qed.

(** Sorting forgets the order in which elements were collected. *)
Lemma sort_by_Permutation_eq l1 l2 :
  (∀ x y, x ∈ l1 → y ∈ l1 → le_by x y → le_by y x → x = y) →
  l1 ≡ₚ l2 → sort_by l1 = sort_by l2.
Proof.
  intros Hanti Hp. apply sorted_unique; [|apply sort_by_sorted..|].
  - intros x y Hx Hy. rewrite elem_of_sort_by in Hx, Hy. by apply Hanti.
  - by rewrite !sort_by_Permutation.
Qed.
End Sorting.

(** ** Lists *)
Lemma StronglySorted_filter {A} (R : A → A → Prop) (P : A → Prop)
    `{∀ x, Decision (P x)} l :
  StronglySorted R l → StronglySorted R (filter P l).
Proof.
  induction 1 as [|x l Hs IH Hx]; simpl; [constructor|].
  rewrite filter_cons. case_decide; [|done]. constructor; [done|].
  rewrite Forall_forall in *. intros y Hy. apply list_elem_of_filter in Hy as [_ Hy].
  by apply Hx.
Qed.

Lemma StronglySorted_weaken {A} (R S : A → A → Prop) l :
  (∀ x y, R x y → S x y) → StronglySorted R l → StronglySorted S l.
Proof.
  intros HRS. induction 1 as [|x l Hs IH Hx]; constructor; [done|].
  eapply Forall_impl; [exact Hx | auto].
Qed.

Definition is_nil {A} (l : list A) : bool := match l with [] => true | _ => false end.

Lemma is_nil_true {A} (l : list A) : is_nil l = true ↔ l = [].
Proof. destruct l; naive_solver. Qed.
Lemma is_nil_false {A} (l : list A) : is_nil l = false ↔ l ≠ [].
Proof. destruct l; naive_solver. Qed.
