(* ===== verification/GoStd.v ===== *)
(** * The parts of Go and its standard library that the program uses

    Instants and durations of package [time], UTF-8 text of packages
    [unicode/utf8] and [strings], the hexadecimal SHA-256 of packages
    [crypto/sha256] and [encoding/hex]. Go strings are byte sequences and are
    represented by [string]; a rune is a [Z]. The Unicode case tables are data
    of the Go distribution and are a parameter ([UnicodeTables]). *)
From S2P Require Import Prelude.

(** ** Package time: an instant is a count of nanoseconds since the Unix
    epoch, a [time.Duration] an int64 count of nanoseconds. *)
Notation time := Z (only parsing).
Notation duration := Z (only parsing).

#[global] Open Scope Z_scope.
Definition nanosecond : duration := 1.
Definition second : duration := 1000000000.
Definition minute : duration := 60 * second.
Definition hour : duration := 60 * minute.

(** [time.Time{}], January 1 of year 1. *)
Definition time_zero : time := -62135596800 * second.
Definition time_is_zero (t : time) : bool := t =? time_zero.
(** [t.Sub(u)] saturates at the bounds of [time.Duration]. *)
Definition time_sub (t u : time) : duration :=
  Z.max int64_min (Z.min int64_max (t - u)).
Definition time_add (t : time) (d : duration) : time := t + d.
Definition time_before (t u : time) : bool := t <? u.
Definition time_after (t u : time) : bool := u <? t.

Lemma time_sub_ge t u d :
  0 <= d <= int64_max → (d <=? time_sub t u) = (u + d <=? t).
Proof. unfold time_sub, int64_min, int64_max. intros. lia. Qed.

(** ** The byte order on strings, [a < b] *)
Definition str_ltb (a b : string) : bool := negb (String.leb b a).

Lemma str_ltb_irrefl a : str_ltb a a = false.
Proof.
  unfold str_ltb. apply negb_false_iff. apply Is_true_true.
  apply (reflexivity (R := String.le)).
Qed.

Lemma str_ltb_false a b : str_ltb a b = false ↔ String.le b a.
Proof. unfold str_ltb, String.le. rewrite negb_false_iff. symmetry. apply Is_true_true. Qed.

Lemma str_ltb_asym a b : str_ltb a b = true → str_ltb b a = false.
Proof.
  intros H. apply str_ltb_false.
  destruct (total String.le a b) as [?|Hba]; [done|].
  apply str_ltb_false in Hba. congruence.
Qed.

Lemma str_ltb_le_trans a b c :
  str_ltb b a = false → str_ltb c b = false → str_ltb c a = false.
Proof. rewrite !str_ltb_false. intros. by transitivity b. Qed.

Lemma str_ltb_antisym a b : str_ltb a b = false → str_ltb b a = false → a = b.
Proof. rewrite !str_ltb_false. intros. by apply (anti_symm String.le). Qed.

(** [sort.Strings] *)
Definition sort_strings : list string → list string := sort_by str_ltb.

Lemma sort_strings_sorted l : StronglySorted (le_by str_ltb) (sort_strings l).
Proof.
  apply sort_by_sorted; [|apply str_ltb_asym].
  intros x y z. unfold le_by. intros. by eapply str_ltb_le_trans.
Qed.

Lemma sort_strings_Permutation l1 l2 : l1 ≡ₚ l2 → sort_strings l1 = sort_strings l2.
Proof.
  apply sort_by_Permutation_eq; [|apply str_ltb_asym|].
  - intros x y z. unfold le_by. intros. by eapply str_ltb_le_trans.
  - intros x y _ _ H1 H2. by apply str_ltb_antisym.
Qed.

(** ** Bytes and UTF-8 *)
Definition byte_of (a : ascii) : Z := Z.of_N (Ascii.N_of_ascii a).
Definition ascii_of_byte (b : Z) : ascii := Ascii.ascii_of_N (Z.to_N b).
Definition bytes_of (s : string) : list Z := byte_of <$> String.list_ascii_of_string s.
Definition string_of_bytes (l : list Z) : string :=
  String.string_of_list_ascii (ascii_of_byte <$> l).

(** [len(s)] *)
Definition str_len (s : string) : Z := Z.of_nat (String.length s).
(** [s[i:j]] for bounds already checked by the caller *)
Definition str_slice (s : string) (i j : Z) : string :=
  String.substring (Z.to_nat i) (Z.to_nat (j - i)) s.

Definition rune_error : Z := 65533.
Definition in_range (lo b hi : Z) : bool := (lo <=? b) && (b <=? hi).
Definition cont_byte (b : Z) : bool := in_range 128 b 191.

(** Ranges of the second byte that [utf8] accepts for a three- or four-byte
    lead byte (no overlong forms, no surrogates, nothing above U+10FFFF). *)
Definition second3 (b0 b1 : Z) : bool :=
  if b0 =? 224 then in_range 160 b1 191
  else if b0 =? 237 then in_range 128 b1 159 else cont_byte b1.
Definition second4 (b0 b1 : Z) : bool :=
  if b0 =? 240 then in_range 144 b1 191
  else if b0 =? 244 then in_range 128 b1 143 else cont_byte b1.

(** The (rune, bytes) segments a [for _, r := range s] loop visits; an
    invalid byte is one segment with rune U+FFFD. *)
Fixpoint decode_runes (l : list Z) : list (Z * list Z) :=
  match l with
  | [] => []
  | b0 :: l1 =>
    let bad (_ : unit) := (rune_error, [b0]) :: decode_runes l1 in
    if b0 <? 128 then (b0, [b0]) :: decode_runes l1
    else if in_range 194 b0 223 then
      match l1 with
      | b1 :: l2 =>
        if cont_byte b1
        then ((b0 - 192) * 64 + (b1 - 128), [b0; b1]) :: decode_runes l2 else bad tt
      | [] => bad tt
      end
    else if in_range 224 b0 239 then
      match l1 with
      | b1 :: b2 :: l3 =>
        if second3 b0 b1 && cont_byte b2
        then ((b0 - 224) * 4096 + (b1 - 128) * 64 + (b2 - 128), [b0; b1; b2])
               :: decode_runes l3
        else bad tt
      | _ => bad tt
      end
    else if in_range 240 b0 244 then
      match l1 with
      | b1 :: b2 :: b3 :: l4 =>
        if second4 b0 b1 && cont_byte b2 && cont_byte b3
        then ((b0 - 240) * 262144 + (b1 - 128) * 4096 + (b2 - 128) * 64 + (b3 - 128),
               [b0; b1; b2; b3]) :: decode_runes l4
        else bad tt
      | _ => bad tt
      end
    else bad tt
  end.

(** [utf8.AppendRune] *)
Definition encode_rune (r : Z) : list Z :=
  if in_range 0 r 127 then [r]
  else if in_range 128 r 2047 then [192 + r / 64; 128 + r mod 64]
  else if negb (in_range 0 r 1114111) || in_range 55296 r 57343 then [239; 191; 189]
  else if r <? 65536 then [224 + r / 4096; 128 + (r / 64) mod 64; 128 + r mod 64]
  else [240 + r / 262144; 128 + (r / 4096) mod 64; 128 + (r / 64) mod 64; 128 + r mod 64].

Definition runes (s : string) : list (Z * list Z) := decode_runes (bytes_of s).

(** [utf8.ValidString] *)
Definition valid_utf8 (s : string) : bool :=
  forallb (fun p => negb ((p.1 =? rune_error) && (length p.2 =? 1)%nat)) (runes s).

(** [utf8.RuneCountInString] *)
Definition rune_count (s : string) : Z := Z.of_nat (length (runes s)).

(** [unicode.IsSpace] *)
Definition is_space (r : Z) : bool :=
  in_range 9 r 13 || (r =? 32) || (r =? 133) || (r =? 160) || (r =? 5760)
  || in_range 8192 r 8202 || (r =? 8232) || (r =? 8233) || (r =? 8239)
  || (r =? 8287) || (r =? 12288).

Fixpoint drop_spaces (l : list (Z * list Z)) : list (Z * list Z) :=
  match l with
  | p :: l' => if is_space p.1 then drop_spaces l' else l
  | [] => []
  end.

(** [strings.TrimSpace] *)
Definition trim_space (s : string) : string :=
  string_of_bytes (concat (snd <$> rev (drop_spaces (rev (drop_spaces (runes s)))))).

Fixpoint split_fields (cur : list Z) (l : list (Z * list Z)) : list (list Z) :=
  match l with
  | [] => if is_nil cur then [] else [cur]
  | p :: l =>
    if is_space p.1
    then (if is_nil cur then split_fields [] l else cur :: split_fields [] l)
    else split_fields (cur ++ p.2) l
  end.

(** [strings.Fields] *)
Definition fields (s : string) : list string :=
  string_of_bytes <$> split_fields [] (runes s).

(** [strings.Join] *)
Fixpoint join (sep : string) (l : list string) : string :=
  match l with
  | [] => EmptyString
  | [s] => s
  | s :: l => String.append s (String.append sep (join sep l))
  end.

(** The Unicode tables behind [unicode.ToLower] and the canonical element of
    a rune's [unicode.SimpleFold] orbit. *)
Class UnicodeTables := {
  lower_rune : Z → Z;
  fold_rune : Z → Z;
}.

(** The tables restricted to ASCII, for running the model on ASCII text. *)
Definition ascii_lower (r : Z) : Z := if in_range 65 r 90 then r + 32 else r.
Definition ascii_tables : UnicodeTables :=
  {| lower_rune := ascii_lower; fold_rune := ascii_lower |}.

Section Unicode.
Context `{UnicodeTables}.
(** [strings.ToLower] *)
Definition to_lower (s : string) : string :=
  string_of_bytes (concat ((fun p => encode_rune (lower_rune p.1)) <$> runes s)).
(** [strings.EqualFold] *)
Definition equal_fold (s t : string) : bool :=
  bool_decide ((fun p => fold_rune p.1) <$> runes s = (fun p => fold_rune p.1) <$> runes t).

Lemma equal_fold_refl s : equal_fold s s = true.
Proof. by apply bool_decide_eq_true. Qed.
End Unicode.

(** ** The value of an [any] holding decoded JSON *)
Inductive any : Type :=
| AnyNil
| AnyBool (b : bool)
| AnyNumber (text : string)
| AnyString (s : string)
| AnyArray (l : list any)
| AnyObject (l : list (string * any)).

(** ** Package crypto/sha256 *)
Section Sha256.
Definition w32 (z : Z) : Z := z mod 2 ^ 32.
Definition rotr (n x : Z) : Z := Z.lor (Z.shiftr x n) (w32 (Z.shiftl x (32 - n))).
Definition not32 (x : Z) : Z := Z.lxor x (2 ^ 32 - 1).

(** FIPS 180-4 takes its constants from the fractional parts of the cube and
    square roots of the first primes. *)
Definition is_prime (n : Z) : bool := forallb (fun d => negb (n mod d =? 0)) (seqZ 2 (n - 2)).
Definition sha_primes : list Z := take 64 (filter (fun n => is_prime n = true) (seqZ 2 400)).

(** The integer [e]-th root of [n], below [2 ^ bits]. *)
Fixpoint int_root (e : Z) (bits : nat) (acc n : Z) : Z :=
  match bits with
  | O => acc
  | S b => let r := acc + 2 ^ Z.of_nat b in int_root e b (if r ^ e <=? n then r else acc) n
  end.

Definition sha_k : list Z :=
  Eval vm_compute in (fun p => w32 (int_root 3 36 0 (p * 2 ^ 96))) <$> sha_primes.
Definition sha_init : list Z :=
  Eval vm_compute in (fun p => w32 (int_root 2 37 0 (p * 2 ^ 64))) <$> take 8 sha_primes.

(** Message schedule, newest word first. *)
Definition sha_next (w : list Z) : Z :=
  let g n := nth n w 0 in
  let s0 := Z.lxor (Z.lxor (rotr 7 (g 14%nat)) (rotr 18 (g 14%nat))) (Z.shiftr (g 14%nat) 3) in
  let s1 := Z.lxor (Z.lxor (rotr 17 (g 1%nat)) (rotr 19 (g 1%nat))) (Z.shiftr (g 1%nat) 10) in
  w32 (g 15%nat + s0 + g 6%nat + s1).
Fixpoint sha_schedule (n : nat) (w : list Z) : list Z :=
  match n with O => w | S n => sha_schedule n (sha_next w :: w) end.

Definition sha_round (st : list Z) (kw : Z * Z) : list Z :=
  match st with
  | [a; b; c; d; e; f; g; h] =>
    let s1 := Z.lxor (Z.lxor (rotr 6 e) (rotr 11 e)) (rotr 25 e) in
    let ch := Z.lxor (Z.land e f) (Z.land (not32 e) g) in
    let t1 := w32 (h + s1 + ch + kw.1 + kw.2) in
    let s0 := Z.lxor (Z.lxor (rotr 2 a) (rotr 13 a)) (rotr 22 a) in
    let maj := Z.lxor (Z.lxor (Z.land a b) (Z.land a c)) (Z.land b c) in
    [w32 (t1 + s0 + maj); a; b; c; w32 (d + t1); e; f; g]
  | _ => st
  end.

Definition sha_block (st : list Z) (block : list Z) : list Z :=
  let w := rev (sha_schedule 48 (rev block)) in
  zip_with (fun x y => w32 (x + y)) st (foldl sha_round st (zip sha_k w)).

Fixpoint words_of (l : list Z) : list Z :=
  match l with
  | a :: b :: c :: d :: l => (a * 2 ^ 24 + b * 2 ^ 16 + c * 2 ^ 8 + d) :: words_of l
  | _ => []
  end.
Fixpoint sha_blocks (n : nat) (st : list Z) (w : list Z) : list Z :=
  match n with O => st | S n => sha_blocks n (sha_block st (take 16 w)) (drop 16 w) end.
Definition be_bytes (n : nat) (x : Z) : list Z :=
  (fun i => Z.shiftr x (8 * Z.of_nat i) mod 256) <$> rev (seq 0 n).

Definition sha_pad (l : list Z) : list Z :=
  let n := Z.of_nat (length l) in
  l ++ 128 :: replicate (Z.to_nat ((55 - n) mod 64)) 0 ++ be_bytes 8 (8 * n).

Definition sha256_bytes (l : list Z) : list Z :=
  let w := words_of (sha_pad l) in
  concat (be_bytes 4 <$> sha_blocks (length w / 16) sha_init w).
End Sha256.

(** [hex.EncodeToString] *)
Definition hex_digit (n : Z) : ascii := ascii_of_byte (if n <? 10 then 48 + n else 87 + n).
Definition hex_encode (l : list Z) : string :=
  String.string_of_list_ascii (l ≫= fun b => [hex_digit (b / 16); hex_digit (b mod 16)]).

(** The hexadecimal digest of a string, [SHA256([]byte(s))] of the program. *)
Definition SHA256 (s : string) : string := hex_encode (sha256_bytes (bytes_of s)).

Example SHA256_empty :
  SHA256 "" = "e3b0c44298fc1c149afbf4c8996fb92427ae41e4649b934ca495991b7852b855".
Proof. vm_compute. reflexivity. Qed.
Example SHA256_abc :
  SHA256 "abc" = "ba7816bf8f01cfea414140de5dae2223b00361a396177a9cb410ff61f20015ad".
Proof. vm_compute. reflexivity. Qed.

Lemma str_len_nonneg s : 0 <= str_len s.
Proof. unfold str_len. lia. Qed.

(** ** Package encoding/json: the syntax check [json.Valid]

    One recursive-descent pass over the bytes, with the grammar and the
    nesting limit (10000) of the Go scanner; strings are not checked to be
    UTF-8. See [json_valid] for the fuel. *)
Section Json.
Definition json_space (b : Z) : bool := (b =? 32) || (b =? 9) || (b =? 10) || (b =? 13).
Definition digit (b : Z) : bool := in_range 48 b 57.
Definition hex_byte (b : Z) : bool :=
  digit b || in_range 65 b 70 || in_range 97 b 102.

Fixpoint skip_space (l : list Z) : list Z :=
  match l with
  | b :: l' => if json_space b then skip_space l' else l
  | [] => []
  end.
Fixpoint skip_digits (l : list Z) : list Z :=
  match l with
  | b :: l' => if digit b then skip_digits l' else l
  | [] => []
  end.
(** After the opening quote, up to and including the closing one. *)
Fixpoint skip_string (l : list Z) : option (list Z) :=
  match l with
  | 34 :: l => Some l
  | 92 :: 117 :: a :: b :: c :: d :: l =>
    if hex_byte a && hex_byte b && hex_byte c && hex_byte d then skip_string l else None
  | 92 :: b :: l =>
    if existsb (Z.eqb b) [34; 92; 47; 98; 102; 110; 114; 116] then skip_string l else None
  | b :: l => if (b <? 32) || (b =? 92) then None else skip_string l
  | [] => None
  end.
Definition skip_digits1 (l : list Z) : option (list Z) :=
  match l with
  | b :: l => if digit b then Some (skip_digits l) else None
  | [] => None
  end.
Definition skip_number (l : list Z) : option (list Z) :=
  let l := match l with 45 :: l => l | _ => l end in
  l ← match l with
      | 48 :: l => Some l
      | _ => skip_digits1 l
      end;
  l ← match l with 46 :: l => skip_digits1 l | _ => Some l end;
  match l with
  | b :: l' =>
    if (b =? 101) || (b =? 69)
    then match l' with
         | s :: l'' => if (s =? 43) || (s =? 45) then skip_digits1 l'' else skip_digits1 l'
         | [] => None
         end
    else Some l
  | [] => Some l
  end.
Fixpoint skip_literal (lit l : list Z) : option (list Z) :=
  match lit, l with
  | [], l => Some l
  | a :: lit, b :: l => if a =? b then skip_literal lit l else None
  | _ :: _, [] => None
  end.

Fixpoint skip_value (fuel : nat) (depth : Z) (l : list Z) : option (list Z) :=
  match fuel with
  | O => None
  | S fuel =>
    match skip_space l with
    | 34 :: l => skip_string l
    | 123 :: l => (* object *)
      if 10000 <=? depth then None else
      match skip_space l with
      | 125 :: l => Some l
      | l => skip_members fuel (depth + 1) l
      end
    | 91 :: l => (* array *)
      if 10000 <=? depth then None else
      match skip_space l with
      | 93 :: l => Some l
      | l => skip_elements fuel (depth + 1) l
      end
    | 116 :: l => skip_literal [114; 117; 101] l
    | 102 :: l => skip_literal [97; 108; 115; 101] l
    | 110 :: l => skip_literal [117; 108; 108] l
    | l => skip_number l
    end
  end
with skip_members (fuel : nat) (depth : Z) (l : list Z) : option (list Z) :=
  match fuel with
  | O => None
  | S fuel =>
    match skip_space l with
    | 34 :: l =>
      l ← skip_string l;
      match skip_space l with
      | 58 :: l =>
        l ← skip_value fuel depth l;
        match skip_space l with
        | 44 :: l => skip_members fuel depth l
        | 125 :: l => Some l
        | _ => None
        end
      | _ => None
      end
    | _ => None
    end
  end
with skip_elements (fuel : nat) (depth : Z) (l : list Z) : option (list Z) :=
  match fuel with
  | O => None
  | S fuel =>
    l ← skip_value fuel depth l;
    match skip_space l with
    | 44 :: l => skip_elements fuel depth l
    | 93 :: l => Some l
    | _ => None
    end
  end.

(** [json.Valid]. An element list may call [skip_value] without consuming a
    byte first, hence the factor two. *)
Definition json_valid (s : string) : bool :=
  let l := bytes_of s in
  match skip_value (2 * length l + 2) 0 l with
  | Some l => is_nil (skip_space l)
  | None => false
  end.
End Json.

Example json_valid_object : json_valid "{}" = true.
Proof. reflexivity. Qed.
Example json_valid_nested : json_valid "[1, -2.5e+3, [true, null], {}]" = true.
Proof. reflexivity. Qed.
Example json_invalid_trailing : json_valid "[1,]" = false.
Proof. reflexivity. Qed.
Example json_invalid_leading_zero : json_valid "01" = false.
Proof. reflexivity. Qed.
Example json_invalid_empty : json_valid "" = false.
Proof. reflexivity. Qed.

(** ** Package encoding/json: what [json.Marshal] writes *)
Definition quote : string := String (ascii_of_byte 34) "".
Definition backslash : string := String (ascii_of_byte 92) "".

(** One segment of a string, with the escapes of [json.Marshal]. *)
Definition json_escape (segment : Z * list Z) : string :=
  let '(r, bytes) := segment in
  if (r =? rune_error) && (length bytes =? 1)%nat then backslash +:+ "ufffd"
  else if r =? 34 then backslash +:+ quote
  else if r =? 92 then backslash +:+ backslash
  else if r =? 8 then backslash +:+ "b"
  else if r =? 12 then backslash +:+ "f"
  else if r =? 10 then backslash +:+ "n"
  else if r =? 13 then backslash +:+ "r"
  else if r =? 9 then backslash +:+ "t"
  else if (r <? 32) || (r =? 60) || (r =? 62) || (r =? 38)
  then backslash +:+ "u00" +:+ hex_encode [r]
  else if r =? 8232 then backslash +:+ "u2028"
  else if r =? 8233 then backslash +:+ "u2029"
  else string_of_bytes bytes.

Definition json_string (s : string) : string := quote +:+ join "" (json_escape <$> runes s) +:+ quote.
Definition json_field (name value : string) : string := quote +:+ name +:+ quote +:+ ":" +:+ value.

(** A [json.RawMessage] is written without the white space outside its strings and
    with the same characters escaped in them; [state] says whether the next byte is
    inside a string, and escaped there. *)
Fixpoint compact_json (in_string escaped : bool) (l : list Z) : list Z :=
  match l with
  | [] => []
  | b :: rest =>
    if negb in_string && json_space b then compact_json in_string escaped rest
    else if (b =? 60) || (b =? 62) || (b =? 38) then
      bytes_of ("\u00" +:+ hex_encode [b]) ++ compact_json in_string false rest
    else
      match b, rest with
      | 226, 128 :: 168 :: rest => bytes_of "\u2028" ++ compact_json in_string false rest
      | 226, 128 :: 169 :: rest => bytes_of "\u2029" ++ compact_json in_string false rest
      | _, _ =>
        let quoted := (b =? 34) && negb escaped in
        b :: compact_json (xorb in_string quoted) (in_string && (b =? 92) && negb escaped) rest
      end
  end.

(** [json.RawMessage.MarshalJSON]: nil is [null]. *)
Definition json_raw (raw : string) : string :=
  if decide (raw = "") then "null" else string_of_bytes (compact_json false false (bytes_of raw)).

Example json_raw_compact : json_raw "{ } " = "{}".
Proof. reflexivity. Qed.

(** ** Package crypto/hmac with SHA-256 *)
Definition hmac_pad (mask : Z) (key : list Z) : list Z :=
  let key := if (64 <? length key)%nat then sha256_bytes key else key in
  (fun b => Z.lxor b mask) <$> key ++ replicate (64 - length key) 0.

Definition hmac_sha256 (key message : string) : list Z :=
  let key := bytes_of key in
  sha256_bytes (hmac_pad 92 key ++ sha256_bytes (hmac_pad 54 key ++ bytes_of message)).

Example hmac_jefe :
  hex_encode (hmac_sha256 "Jefe" "what do ya want for nothing?")
  = "5bdcc146bf60754e6a042426089575c75a003f089d2739839dec58b964ec3843".
Proof. vm_compute. reflexivity. Qed.
