(* ===== verification/Utf8.v ===== *)
(** * Facts on UTF-8

    [decode_runes] and [encode_rune] of GoStd.v are inverse on the encodings of
    Unicode scalar values, and a valid text is a sequence of such encodings. *)
From S2P Require Import Prelude GoStd.

(** A Unicode scalar value: what [encode_rune] writes as it is. *)
Definition scalar (r : Z) : Prop := (0 <= r < 55296) ∨ (57344 <= r <= 1114111).

Definition encode_runes (rs : list Z) : list Z := concat (encode_rune <$> rs).

(** The bytes of a valid text. *)
Definition valid_text (l : list Z) : Prop := ∃ rs, Forall scalar rs ∧ l = encode_runes rs.

Lemma encode_runes_app rs1 rs2 : encode_runes (rs1 ++ rs2) = encode_runes rs1 ++ encode_runes rs2.
Proof. unfold encode_runes. by rewrite fmap_app, concat_app. Qed.

Lemma encode_runes_cons r rs : encode_runes (r :: rs) = encode_rune r ++ encode_runes rs.
Proof. done. Qed.

Ltac range_cases :=
  repeat match goal with
  | |- context [in_range ?a ?b ?c] =>
    let H := fresh "Hrange" in destruct (in_range a b c) eqn:H;
    unfold in_range in H; [apply andb_true_iff in H as [?%Z.leb_le ?%Z.leb_le]|apply andb_false_iff in H]
  | H : _ ∨ _ |- _ => destruct H
  | H : (_ <=? _) = false |- _ => apply Z.leb_gt in H
  end.

(** The four shapes of an encoding. *)
Lemma encode_rune_cases r :
  scalar r →
  (0 <= r < 128 ∧ encode_rune r = [r])
  ∨ (128 <= r < 2048 ∧ encode_rune r = [192 + r / 64; 128 + r mod 64])
  ∨ (2048 <= r < 65536 ∧ encode_rune r = [224 + r / 4096; 128 + (r / 64) mod 64; 128 + r mod 64])
  ∨ (65536 <= r <= 1114111
     ∧ encode_rune r = [240 + r / 262144; 128 + (r / 4096) mod 64; 128 + (r / 64) mod 64; 128 + r mod 64]).
Proof.
  intros Hr. unfold encode_rune, in_range.
  destruct (Z.leb_spec 0 r), (Z.leb_spec r 127); cbn [andb]; [left; split; [lia|done]| |destruct Hr; lia..].
  destruct (Z.leb_spec 128 r), (Z.leb_spec r 2047); cbn [andb]; [right; left; split; [lia|done]| |destruct Hr; lia..].
  destruct (Z.leb_spec r 1114111); [|destruct Hr; lia]. cbn [andb negb orb].
  destruct (Z.leb_spec 55296 r), (Z.leb_spec r 57343); cbn [andb]; try (destruct Hr; lia);
    destruct (Z.ltb_spec r 65536); try lia; right; right;
    first [left; split; [lia|done]|right; split; [lia|done]].
Qed.

Ltac div_lia := Z.to_euclidean_division_equations; lia.

Ltac decide_range :=
  repeat match goal with
  | |- context [?a <? ?b] => first [replace (a <? b) with true by (symmetry; apply Z.ltb_lt; div_lia)
                                   |replace (a <? b) with false by (symmetry; apply Z.ltb_ge; div_lia)]
  | |- context [?a <=? ?b] => first [replace (a <=? b) with true by (symmetry; apply Z.leb_le; div_lia)
                                    |replace (a <=? b) with false by (symmetry; apply Z.leb_gt; div_lia)]
  end; cbn [andb orb negb].

Lemma cont_byte_rest r : cont_byte (128 + r mod 64) = true.
Proof. unfold cont_byte, in_range. apply andb_true_iff. rewrite !Z.leb_le. div_lia. Qed.

Lemma second3_encode r :
  scalar r → 2048 <= r < 65536 → second3 (224 + r / 4096) (128 + (r / 64) mod 64) = true.
Proof.
  intros Hr Hb. unfold second3. destruct (Z.eqb_spec (224 + r / 4096) 224) as [He|Hn].
  - unfold in_range. apply andb_true_iff. rewrite !Z.leb_le. div_lia.
  - destruct (Z.eqb_spec (224 + r / 4096) 237) as [He|Hn']; [|apply cont_byte_rest].
    unfold in_range. apply andb_true_iff. rewrite !Z.leb_le. destruct Hr; div_lia.
Qed.

Lemma second4_encode r :
  65536 <= r <= 1114111 → second4 (240 + r / 262144) (128 + (r / 4096) mod 64) = true.
Proof.
  intros Hb. unfold second4. destruct (Z.eqb_spec (240 + r / 262144) 240) as [He|Hn].
  - unfold in_range. apply andb_true_iff. rewrite !Z.leb_le. div_lia.
  - destruct (Z.eqb_spec (240 + r / 262144) 244) as [He|Hn']; [|apply cont_byte_rest].
    unfold in_range. apply andb_true_iff. rewrite !Z.leb_le. div_lia.
Qed.

(** Decoding reads back what was encoded. *)
Lemma decode_encode_rune r l :
  scalar r → decode_runes (encode_rune r ++ l) = (r, encode_rune r) :: decode_runes l.
Proof.
  intros Hr. destruct (encode_rune_cases r Hr) as [[Hb ->]|[[Hb ->]|[[Hb ->]|[Hb ->]]]]; cbn [app decode_runes].
  - by replace (r <? 128) with true by (symmetry; apply Z.ltb_lt; lia).
  - unfold in_range. decide_range. rewrite cont_byte_rest. do 2 f_equal. div_lia.
  - unfold in_range. decide_range. rewrite second3_encode, cont_byte_rest by done. cbn [andb]. do 2 f_equal. div_lia.
  - unfold in_range. decide_range. rewrite second4_encode, !cont_byte_rest by done. cbn [andb]. do 2 f_equal. div_lia.
Qed.

Lemma decode_encode_runes rs :
  Forall scalar rs → decode_runes (encode_runes rs) = (fun r => (r, encode_rune r)) <$> rs.
Proof.
  induction 1 as [|r rs Hr _ IH]; [done|]. by rewrite encode_runes_cons, decode_encode_rune, IH.
Qed.

Lemma decoded_runes rs : Forall scalar rs → (decode_runes (encode_runes rs)).*1 = rs.
Proof.
  intros Hrs. rewrite decode_encode_runes by done. rewrite <- list_fmap_compose. unfold compose. cbn. by rewrite list_fmap_id.
Qed.

Definition byte_ok (b : Z) : Prop := 0 <= b < 256.

Lemma bytes_ok s : Forall byte_ok (bytes_of s).
Proof.
  unfold bytes_of. apply Forall_fmap, Forall_forall. intros a _. unfold byte_ok, byte_of. cbn.
  pose proof (Ascii.N_ascii_bounded a). lia.
Qed.

(** A string is its bytes. *)
Lemma string_of_bytes_of s : string_of_bytes (bytes_of s) = s.
Proof.
  unfold string_of_bytes, bytes_of. rewrite <- list_fmap_compose.
  replace (ascii_of_byte ∘ byte_of <$> String.list_ascii_of_string s) with (String.list_ascii_of_string s);
    [apply String.string_of_list_ascii_of_string|].
  induction (String.list_ascii_of_string s) as [|a l IH]; [done|]. cbn. rewrite <- IH. f_equal.
  unfold ascii_of_byte, byte_of. by rewrite N2Z.id, Ascii.ascii_N_embedding.
Qed.

Lemma bytes_of_string l : Forall byte_ok l → bytes_of (string_of_bytes l) = l.
Proof.
  unfold string_of_bytes, bytes_of. rewrite String.list_ascii_of_string_of_list_ascii, <- list_fmap_compose.
  induction 1 as [|b l Hb _ IH]; [done|]. cbn. rewrite IH. f_equal. unfold byte_of, ascii_of_byte, byte_ok in *.
  rewrite Ascii.N_ascii_embedding by lia. lia.
Qed.

Ltac split_bools :=
  repeat match goal with
  | H : _ && _ = true |- _ => apply andb_true_iff in H as [? ?]
  | H : in_range _ _ _ = true |- _ => unfold in_range in H
  | H : cont_byte _ = true |- _ => unfold cont_byte in H
  | H : (_ <=? _) = true |- _ => apply Z.leb_le in H
  | H : (_ <? _) = true |- _ => apply Z.ltb_lt in H
  | H : (_ <? _) = false |- _ => apply Z.ltb_ge in H
  end.

(** Every segment is an encoding or one bad byte. *)
Definition segment_ok (p : Z * list Z) : Prop :=
  (scalar p.1 ∧ p.2 = encode_rune p.1) ∨ (p.1 = rune_error ∧ length p.2 = 1%nat).

Lemma encode_two b0 b1 : 194 <= b0 <= 223 → 128 <= b1 <= 191 →
  let r := (b0 - 192) * 64 + (b1 - 128) in scalar r ∧ [b0; b1] = encode_rune r.
Proof.
  intros H0 H1 r. assert (scalar r) as Hr by (left; unfold r; lia). split; [done|].
  destruct (encode_rune_cases r Hr) as [[Hb ->]|[[Hb ->]|[[Hb ->]|[Hb ->]]]]; unfold r in *; try lia.
  repeat f_equal; div_lia.
Qed.

Lemma encode_three b0 b1 b2 : 224 <= b0 <= 239 → second3 b0 b1 = true → 128 <= b2 <= 191 →
  let r := (b0 - 224) * 4096 + (b1 - 128) * 64 + (b2 - 128) in scalar r ∧ [b0; b1; b2] = encode_rune r.
Proof.
  intros H0 H1 H2 r. unfold second3 in H1.
  assert (128 <= b1 <= 191 ∧ (b0 = 224 → 160 <= b1) ∧ (b0 = 237 → b1 <= 159)) as (Hb1 & Hlow & Hhigh).
  { destruct (Z.eqb_spec b0 224); [split_bools; lia|]. destruct (Z.eqb_spec b0 237); split_bools; lia. }
  assert (scalar r) as Hr.
  { unfold scalar, r. destruct (Z.eq_dec b0 237); [left; lia|]. destruct (Z.le_gt_cases b0 236); [left; lia|right; lia]. }
  split; [done|]. destruct (encode_rune_cases r Hr) as [[Hb ->]|[[Hb ->]|[[Hb ->]|[Hb ->]]]]; unfold r in *;
    try (destruct (Z.eq_dec b0 224); lia).
  repeat f_equal; div_lia.
Qed.

Lemma encode_four b0 b1 b2 b3 : 240 <= b0 <= 244 → second4 b0 b1 = true → 128 <= b2 <= 191 → 128 <= b3 <= 191 →
  let r := (b0 - 240) * 262144 + (b1 - 128) * 4096 + (b2 - 128) * 64 + (b3 - 128) in
  scalar r ∧ [b0; b1; b2; b3] = encode_rune r.
Proof.
  intros H0 H1 H2 H3 r. unfold second4 in H1.
  assert (128 <= b1 <= 191 ∧ (b0 = 240 → 144 <= b1) ∧ (b0 = 244 → b1 <= 143)) as (Hb1 & Hlow & Hhigh).
  { destruct (Z.eqb_spec b0 240); [split_bools; lia|]. destruct (Z.eqb_spec b0 244); split_bools; lia. }
  assert (65536 <= r <= 1114111) as Hrange.
  { unfold r. destruct (Z.eq_dec b0 240), (Z.eq_dec b0 244); lia. }
  assert (scalar r) as Hr by (right; lia). split; [done|].
  destruct (encode_rune_cases r Hr) as [[Hb ->]|[[Hb ->]|[[Hb ->]|[Hb ->]]]]; try lia. unfold r. repeat f_equal; div_lia.
Qed.

Lemma decode_segments l :
  Forall byte_ok l → Forall segment_ok (decode_runes l) ∧ concat ((decode_runes l).*2) = l.
Proof.
  induction l as [l IH] using (induction_ltof1 _ length). unfold ltof in IH.
  destruct l as [|b0 l1]; [by split|]. intros [H0 Hl]%Forall_cons.
  assert (∀ p l', Forall byte_ok l' → (length l' < S (length l1))%nat → segment_ok p → p.2 ++ l' = b0 :: l1 →
            Forall segment_ok (p :: decode_runes l') ∧ concat ((p :: decode_runes l').*2) = b0 :: l1) as Hstep.
  { intros p l' Hok Hlen Hp Heq. destruct (IH l') as [I1 I2]; [done..|]. split; [by constructor|]. cbn. by rewrite I2. }
  assert (Forall segment_ok ((rune_error, [b0]) :: decode_runes l1) ∧ concat (((rune_error, [b0]) :: decode_runes l1).*2) = b0 :: l1)
    as Hbad by (apply Hstep; [done|lia|by right|done]).
  cbn [decode_runes]. destruct (b0 <? 128) eqn:Hascii.
  { apply Hstep; [done|lia| |done]. left. unfold byte_ok in H0. split_bools. split; [left; cbn; lia|].
    cbn. unfold encode_rune, in_range. by decide_range. }
  destruct (in_range 194 b0 223) eqn:H2.
  { destruct l1 as [|b1 l2]; [done|]. destruct (cont_byte b1) eqn:Hb1; [|done]. split_bools. apply Forall_cons in Hl as [_ Hl].
    apply Hstep; [done|cbn; lia| |done]. left. by apply encode_two. }
  destruct (in_range 224 b0 239) eqn:H3.
  { destruct l1 as [|b1 [|b2 l3]]; [done..|]. destruct (second3 b0 b1 && cont_byte b2) eqn:Hb1; [|done]. split_bools.
    do 2 apply Forall_cons in Hl as [_ Hl]. apply Hstep; [done|cbn; lia| |done]. left. by apply encode_three. }
  destruct (in_range 240 b0 244) eqn:H4; [|done].
  destruct l1 as [|b1 [|b2 [|b3 l4]]]; [done..|]. destruct (second4 b0 b1 && _ && _) eqn:Hb1; [|done]. split_bools.
  do 3 apply Forall_cons in Hl as [_ Hl]. apply Hstep; [done|cbn; lia| |done]. left. by apply encode_four.
Qed.

(** [utf8.Valid] *)
Definition valid_bytes (l : list Z) : bool :=
  forallb (fun p => negb ((p.1 =? rune_error) && (length p.2 =? 1)%nat)) (decode_runes l).

Lemma scalar_error : scalar rune_error.
Proof. right. unfold rune_error. lia. Qed.

Lemma valid_bytes_text l : Forall byte_ok l → valid_bytes l = true ↔ valid_text l.
Proof.
  intros Hl. destruct (decode_segments l Hl) as [Hok Hconcat]. unfold valid_bytes, valid_text. split.
  - intros Hv. exists ((decode_runes l).*1). rewrite forallb_forall in Hv. rewrite Forall_forall in Hok.
    assert (∀ p, p ∈ decode_runes l → scalar p.1 ∧ p.2 = encode_rune p.1) as Hall.
    { intros p Hp. destruct (Hok p Hp) as [?|[He Hlen]]; [done|]. specialize (Hv p ltac:(by apply list_elem_of_In)).
      rewrite He, Hlen in Hv. done. }
    split.
    + apply Forall_fmap, Forall_forall. intros p Hp. by apply Hall.
    + transitivity (concat ((decode_runes l).*2)); [done|]. unfold encode_runes. f_equal. rewrite <- list_fmap_compose. apply list_fmap_ext. intros i p Hp.
      apply Hall. by eapply list_elem_of_lookup_2.
  - intros (rs & Hrs & ->). rewrite decode_encode_runes by done. apply forallb_forall. intros p Hp.
    apply list_elem_of_In, list_elem_of_fmap in Hp as (r & -> & Hr). rewrite Forall_forall in Hrs. specialize (Hrs r Hr). cbn.
    destruct (Z.eqb_spec r rune_error) as [->|]; [done|done].
Qed.

Lemma encode_rune_ok r : Forall byte_ok (encode_rune r).
Proof.
  unfold encode_rune, in_range, byte_ok.
  destruct (Z.leb_spec 0 r), (Z.leb_spec r 127); cbn [andb]; [repeat constructor; lia|..];
    destruct (Z.leb_spec 128 r), (Z.leb_spec r 2047); cbn [andb]; try (repeat constructor; div_lia);
    destruct (Z.leb_spec r 1114111); cbn [andb negb orb]; try (repeat constructor; lia);
    destruct (Z.leb_spec 55296 r), (Z.leb_spec r 57343); cbn [andb]; try (repeat constructor; lia);
    destruct (Z.ltb_spec r 65536); repeat constructor; div_lia.
Qed.

Lemma encode_runes_ok rs : Forall byte_ok (encode_runes rs).
Proof.
  induction rs as [|r rs IH]; [constructor|]. rewrite encode_runes_cons. apply Forall_app. split; [apply encode_rune_ok|done].
Qed.

Lemma valid_text_ok l : valid_text l → Forall byte_ok l.
Proof. intros (rs & _ & ->). apply encode_runes_ok. Qed.

Lemma valid_text_app l1 l2 : valid_text l1 → valid_text l2 → valid_text (l1 ++ l2).
Proof.
  intros (rs1 & H1 & ->) (rs2 & H2 & ->). exists (rs1 ++ rs2). rewrite encode_runes_app. split; [by apply Forall_app|done].
Qed.

Lemma valid_text_ascii l : Forall (fun b => 0 <= b < 128) l → valid_text l.
Proof.
  intros Hl. exists l. split; [eapply Forall_impl; [exact Hl|]; cbv beta; intros b Hb; left; lia|].
  induction Hl as [|b l Hb _ IH]; [done|]. rewrite encode_runes_cons, <- IH. unfold encode_rune, in_range. by decide_range.
Qed.

Lemma valid_text_nil : valid_text [].
Proof. by exists []. Qed.

(** The runes of a valid text determine it. *)
Lemma valid_text_runes l : valid_text l → Forall scalar ((decode_runes l).*1) ∧ l = encode_runes ((decode_runes l).*1).
Proof.
  intros (rs & Hrs & ->). by rewrite decoded_runes.
Qed.
