(* ===== verification/Packages.v ===== *)
(** * Third-party packages

    What the modelled code uses of packages outside the repository, as classes:
    the definitions that call a package take its class as an argument, and the
    witnesses instantiate it with a concrete function. *)
From S2P Require Import Prelude GoStd.

(** [github.com/google/uuid]: [uuid.Parse(s)], giving the canonical text
    [u.String()] of the identifier, or nothing for an error. *)
Class UUIDPackage := uuid_Parse : string → option string.

(** [uuid.Validate(s) == nil] *)
Class UUIDValidation := uuid_Validate : string → bool.

(** [uuid.Nil.String()] *)
Definition uuid_Nil : string := "00000000-0000-0000-0000-000000000000".

(** [uuid.NewSHA1(namespace, data).String()] *)
Class UUIDHash := uuid_NewSHA1 : string → string → string.

(** [golang.org/x/text]: the normal forms of [unicode/norm] and the case folding
    of [cases.Fold()], on strings. *)
Class TextPackage := {
  norm_NFC : string → string;
  norm_NFKC : string → string;
  cases_Fold : string → string;
}.

(** The Unicode tables of [unicode.IsLetter], [unicode.IsDigit], and of the Han,
    Hiragana, Katakana and Hangul scripts. *)
Class LetterTables := {
  letter_rune : Z → bool;
  digit_rune : Z → bool;
  cjk_rune : Z → bool;
}.
