(* ===== verification/Bytes.v ===== *)
(** * Byte strings as lists

    Packages bytes and strings on [list ascii], for the code that indexes and
    cuts its text; GoStd.v has the functions on [string]. *)
From S2P Require Import Prelude GoStd.

(** ** Bytes *)
Notation bytes := (list ascii).

Definition to_bytes : string → bytes := String.list_ascii_of_string.
Definition LF : ascii := ascii_of_byte 10.
Definition CR : ascii := ascii_of_byte 13.

(** [strings.HasSuffix] and [strings.TrimSuffix] for a suffix of one byte. *)
Definition ends_with (b : ascii) (text : bytes) : bool := bool_decide (last text = Some b).
Definition trim_last (b : ascii) (text : bytes) : bytes := if ends_with b text then removelast text else text.

(** [strings.ReplaceAll(text, CRLF, LF)] *)
Fixpoint replace_crlf (text : bytes) : bytes :=
  match text with
  | [] => []
  | b :: rest =>
    match rest with
    | c :: rest' => if bool_decide (b = CR) && bool_decide (c = LF) then LF :: replace_crlf rest' else b :: replace_crlf rest
    | [] => [b]
    end
  end.

(** [strings.Split] at a byte. *)
Fixpoint split_at (sep : ascii) (text : bytes) : list bytes :=
  match text with
  | [] => [[]]
  | b :: text =>
    if bool_decide (b = sep) then [] :: split_at sep text
    else match split_at sep text with [] => [[b]] | l :: ls => (b :: l) :: ls end
  end.

(** [strings.CutPrefix] *)
Definition cut_prefix (prefix l : bytes) : option bytes :=
  if decide (take (length prefix) l = prefix) then Some (drop (length prefix) l) else None.
Definition has_prefix (prefix l : bytes) : bool :=
  match cut_prefix prefix l with Some _ => true | None => false end.

Definition str : bytes → string := String.string_of_list_ascii.

Lemma cut_prefix_Some p l rest : cut_prefix p l = Some rest ↔ l = p ++ rest.
Proof.
  unfold cut_prefix. case_decide as Hp; split.
  - intros [= <-]. rewrite <- Hp at 1. by rewrite take_drop.
  - intros ->. by rewrite drop_app_length.
  - done.
  - intros ->. by rewrite take_app_length in Hp.
Qed.

Lemma replace_crlf_plain text : CR ∉ text → replace_crlf text = text.
Proof.
  induction text as [|b text IH]; intros Ht; [done|]. apply not_elem_of_cons in Ht as [Hb Ht]. cbn [replace_crlf].
  destruct text as [|c text]; [done|]. rewrite bool_decide_eq_false_2 by congruence. cbn [andb]. by rewrite IH.
Qed.

Lemma split_at_elem c text l : l ∈ split_at LF text → c ∈ l → c ∈ text ∧ c ≠ LF.
Proof.
  revert l. induction text as [|b text IH]; intros l; cbn [split_at].
  { rewrite list_elem_of_singleton. intros ->. by rewrite elem_of_nil. }
  assert (Hrec : ∀ l, l ∈ split_at LF text → c ∈ l → c ∈ b :: text ∧ c ≠ LF).
  { intros l' Hl Hc. destruct (IH l' Hl Hc). split; [by right|done]. }
  case_bool_decide as Hb.
  - rewrite elem_of_cons. intros [->|Hl]; [by rewrite elem_of_nil|by apply Hrec].
  - destruct (split_at LF text) as [|l1 ls] eqn:Hs.
    + rewrite list_elem_of_singleton. intros ->. rewrite list_elem_of_singleton. intros ->. split; [by left|done].
    + rewrite elem_of_cons. intros [->|Hl]; [|apply Hrec; by right].
      rewrite elem_of_cons. intros [->|Hc]; [split; [by left|done]|apply (Hrec l1); [by left|done]].
Qed.

Lemma trim_last_snoc b x : trim_last b (x ++ [b]) = x.
Proof.
  unfold trim_last, ends_with. rewrite last_snoc, bool_decide_eq_true_2 by done. apply removelast_last.
Qed.

Lemma trim_last_other b x : last x ≠ Some b → trim_last b x = x.
Proof. intros Hx. unfold trim_last, ends_with. by rewrite bool_decide_eq_false_2. Qed.

(** ** Searching *)

(** [bytes.IndexByte] and [bytes.LastIndexByte] *)
Fixpoint index_byte (b : ascii) (text : bytes) : option nat :=
  match text with
  | [] => None
  | c :: text => if bool_decide (c = b) then Some O else S <$> index_byte b text
  end.
Fixpoint last_index_byte (b : ascii) (text : bytes) : option nat :=
  match text with
  | [] => None
  | c :: text =>
    match last_index_byte b text with
    | Some i => Some (S i)
    | None => if bool_decide (c = b) then Some O else None
    end
  end.

(** [strings.Contains] *)
Fixpoint contains_bytes (part text : bytes) : bool :=
  has_prefix part text || match text with [] => false | _ :: text => contains_bytes part text end.

(** [strings.SplitAfter] at a line feed. *)
Fixpoint split_after (text : bytes) : list bytes :=
  match text with
  | [] => [[]]
  | b :: text =>
    if bool_decide (b = LF) then [b] :: split_after text
    else match split_after text with [] => [[b]] | l :: ls => (b :: l) :: ls end
  end.

(** [bytes.TrimLeft(text, cutset)] *)
Fixpoint trim_left (cutset : list ascii) (text : bytes) : bytes :=
  match text with
  | b :: text' => if bool_decide (b ∈ cutset) then trim_left cutset text' else text
  | [] => []
  end.

(** [strings.TrimSpace] on the bytes of a text. *)
Definition trim_bytes (text : bytes) : bytes := to_bytes (trim_space (str text)).

(** The bytes from [i] to [j]. *)
Definition slice (text : bytes) (i j : nat) : bytes := take (j - i) (drop i text).
