(* ===== verification/Json.v ===== *)
(** * JSON strings, read

    The reader of [encoding/json] for one quoted string: escapes, surrogate pairs
    and the replacement of invalid UTF-8. GoStd.v has the syntax check of whole
    values and the writer. *)
From S2P Require Import Prelude GoStd.

Definition hex_value (b : Z) : Z :=
  if in_range 48 b 57 then b - 48 else if in_range 65 b 70 then b - 55 else if in_range 97 b 102 then b - 87 else -1.

(** Four hexadecimal digits, as [getu4]. *)
Definition hex4 (a b c d : Z) : option Z :=
  if hex_byte a && hex_byte b && hex_byte c && hex_byte d
  then Some (((hex_value a * 16 + hex_value b) * 16 + hex_value c) * 16 + hex_value d) else None.

Definition surrogate (r : Z) : bool := in_range 55296 r 57343.
(** [utf16.DecodeRune] *)
Definition decode_surrogates (r1 r2 : Z) : option Z :=
  if in_range 55296 r1 56319 && in_range 56320 r2 57343
  then Some ((r1 - 55296) * 1024 + (r2 - 56320) + 65536) else None.

Definition simple_escape (e : Z) : option Z :=
  match e with
  | 34 => Some 34 | 92 => Some 92 | 47 => Some 47 | 98 => Some 8 | 102 => Some 12
  | 110 => Some 10 | 114 => Some 13 | 116 => Some 9 | _ => None
  end.

(** The bytes written before the rest of the string. *)
Definition replacing (out : list Z) (rest : option (list Z * list Z)) : option (list Z * list Z) :=
  prod_map (app out) id <$> rest.

(** After the opening quote: the bytes the string stands for and the text after the
    closing quote. A surrogate without its partner is the replacement character. *)
Fixpoint unquote_bytes (l : list Z) : option (list Z * list Z) :=
  match l with
  | [] => None
  | b :: rest =>
    if b =? 34 then Some ([], rest)
    else if b =? 92 then
      match rest with
      | [] => None
      | e :: rest1 =>
        if e =? 117 then
          match rest1 with
          | a :: b :: c :: d :: rest4 =>
            match hex4 a b c d with
            | None => None
            | Some r =>
              if surrogate r then
                let alone := replacing (encode_rune rune_error) (unquote_bytes rest4) in
                match rest4 with
                | b1 :: b2 :: e :: f :: g :: h :: rest10 =>
                  if (b1 =? 92) && (b2 =? 117) then
                    match hex4 e f g h with
                    | Some r2 =>
                      match decode_surrogates r r2 with
                      | Some joined => replacing (encode_rune joined) (unquote_bytes rest10)
                      | None => alone
                      end
                    | None => alone
                    end
                  else alone
                | _ => alone
                end
              else replacing (encode_rune r) (unquote_bytes rest4)
            end
          | _ => None
          end
        else c ← simple_escape e; replacing [c] (unquote_bytes rest1)
      end
    else if b <? 32 then None
    else replacing [b] (unquote_bytes rest)
  end.

(** Every byte that is not part of a valid encoding becomes the replacement
    character; an escape never completes an encoding begun before it, so this can
    be done at the end. *)
Definition to_valid_utf8 (l : list Z) : list Z := concat ((fun p => encode_rune p.1) <$> decode_runes l).

Definition json_unquote (l : list Z) : option (string * list Z) :=
  prod_map (fun out => string_of_bytes (to_valid_utf8 out)) id <$> unquote_bytes l.

Example unquote_pair : json_unquote (bytes_of "\ud83d\ude00\n!" ++ [34; 44]) = Some (string_of_bytes [240; 159; 152; 128; 10; 33], [44]).
Proof. vm_compute. reflexivity. Qed.
Example unquote_alone : json_unquote (bytes_of "\ud83dx" ++ [34]) = Some (string_of_bytes [239; 191; 189; 120], []).
Proof. vm_compute. reflexivity. Qed.
