(* ===== verification/Jcs.v ===== *)
(** * Canonical JSON

    [server/internal/learning/jcs.go]: the repository's profile of RFC 8785, the text
    that offline operations and authorisations are hashed and signed over. Bytes and
    Go strings are lists of bytes here. The tokens of [json.Decoder] are read by
    recursive descent: [More] and [Token] accept a comma exactly between two members,
    and a number ends where its grammar does. *)
From S2P Require Import Prelude GoStd Utf8 Json.

Abbreviation text := (list Z).

(** ** Values: what [decodeJCSValue] returns *)
Inductive jcs : Type :=
| JNull
| JBool (b : bool)
| JString (s : text)
| JNumber (s : text)
| JArray (items : list jcs)
| JObject (entries : list (text * jcs)).

Inductive jcs_error : Type := Malformed | OutOfFuel (** never returned, see [CanonicalizeJCS_fuel] *).

(** ** Integers in decimal *)
Definition MaxUint63 : Z := 2 ^ 63 - 1.

(** Zero, or digits of which the first is not zero, to the end of the text. *)
Definition canonical_natural (s : text) : bool :=
  match s with
  | [] => false
  | b :: rest => if b =? 48 then is_nil rest else forallb digit s
  end.
(** [canonicalInteger] *)
Definition canonicalInteger (s : text) : bool :=
  match s with
  | [] => false
  | b :: rest => if b =? 45 then canonical_natural rest else canonical_natural s
  end.

Definition decimal (s : text) : Z := foldl (fun n b => n * 10 + (b - 48)) 0 s.
Definition integer_value (s : text) : Z :=
  match s with
  | [] => 0
  | b :: rest => if b =? 45 then - decimal rest else decimal s
  end.

Definition ParseUint63Decimal (value : text) : option Z :=
  if canonical_natural value && (decimal value <=? MaxUint63) then Some (decimal value) else None.

(** [strconv.FormatUint(value, 10)] *)
Fixpoint format_digits (fuel : nat) (value : Z) (buffer : text) : text :=
  match fuel with
  | O => buffer
  | S fuel => if value <=? 0 then buffer else format_digits fuel (value / 10) (48 + value mod 10 :: buffer)
  end.
Definition FormatUint63Decimal (value : Z) : option text :=
  if MaxUint63 <? value then None else Some (if value =? 0 then [48] else format_digits 20 value []).

(** ** Escapes of surrogates *)
Definition parseHex16 (input : text) : option Z :=
  match input with a :: b :: c :: d :: _ => hex4 a b c d | _ => None end.

(** [validateJCSUnicodeEscapes]: what is left of the input is scanned. *)
Fixpoint valid_escapes (inString : bool) (input : text) : bool :=
  match input with
  | [] => true
  | b :: rest =>
    if b =? 34 then valid_escapes (negb inString) rest
    else if (b =? 92) && inString then
      match rest with
      | [] => true
      | e :: rest1 =>
        if negb (e =? 117) then valid_escapes inString rest1
        else
          match rest1 with
          | a :: b :: c :: d :: rest4 =>
            match hex4 a b c d with
            | None => valid_escapes inString rest
            | Some value =>
              if in_range 55296 value 56319 then
                match rest4 with
                | b1 :: b2 :: e :: f :: g :: h :: rest10 =>
                  if (b1 =? 92) && (b2 =? 117) then
                    match hex4 e f g h with
                    | Some low => if in_range 56320 low 57343 then valid_escapes inString rest10 else false
                    | None => false
                    end
                  else false
                | _ => false
                end
              else if in_range 56320 value 57343 then false
              else valid_escapes inString rest4
            end
          | _ => valid_escapes inString rest
          end
      end
    else valid_escapes inString rest
  end.

(** ** Reading *)

(** The string after its opening quote, as [Decoder.Token] reads it. *)
Definition read_string (l : text) : result jcs_error (text * text) :=
  match unquote_bytes l with
  | Some (s, rest) => Ok (to_valid_utf8 s, rest)
  | None => Err Malformed
  end.

Definition read_literal (lit : text) (v : jcs) (l : text) : result jcs_error (jcs * text) :=
  match skip_literal lit l with Some rest => Ok (v, rest) | None => Err Malformed end.

(** The server reads [-0] as the number 0; the client, which shares this code, rejects
    it (ClientJcs.v). *)
Class NegativeZero := accept_negative_zero : bool.

Section Profile.
Context {P : NegativeZero}.

Definition read_number (l : text) : result jcs_error (jcs * text) :=
  match skip_number l with
  | None => Err Malformed
  | Some rest =>
    let s := take (length l - length rest) l in
    _ ← fail_if (negb (canonicalInteger s)) Malformed;
    _ ← fail_if (bool_decide (s = [45; 48]) && negb accept_negative_zero) Malformed;
    let s := if decide (s = [45; 48]) then [48] else s in
    _ ← fail_if (negb (in_int64 (integer_value s))) Malformed;
    Ok (JNumber s, rest)
  end.

(** The next byte that is not a space. *)
Definition expect (b : Z) (l : text) : result jcs_error text :=
  match skip_space l with
  | c :: l' => if c =? b then Ok l' else Err Malformed
  | [] => Err Malformed
  end.

(** [decoder.More()] and the comma [Token] skips: the text after the closing
    delimiter, or the text of the next part. *)
Definition next_part (close : Z) (first : bool) (l : text) : result jcs_error (text + text) :=
  match skip_space l with
  | [] => Err Malformed
  | b :: l' =>
    if b =? close then Ok (inl l')
    else if first then Ok (inr (b :: l'))
    else if b =? 44 then Ok (inr l') else Err Malformed
  end.

(** [decodeJCSValue], with the loops over members and items; [first] is whether the
    loop has read nothing yet. *)
Fixpoint decode_value (fuel : nat) (l : text) : result jcs_error (jcs * text) :=
  match fuel with
  | O => Err OutOfFuel
  | S fuel =>
    match skip_space l with
    | [] => Err Malformed
    | b :: l' =>
      if b =? 123 then '(entries, rest) ← decode_members fuel true ∅ l'; Ok (JObject entries, rest)
      else if b =? 91 then '(items, rest) ← decode_items fuel true l'; Ok (JArray items, rest)
      else if b =? 34 then '(s, rest) ← read_string l'; Ok (JString s, rest)
      else if b =? 116 then read_literal [114; 117; 101] (JBool true) l'
      else if b =? 102 then read_literal [97; 108; 115; 101] (JBool false) l'
      else if b =? 110 then read_literal [117; 108; 108] JNull l'
      else read_number (b :: l')
    end
  end
with decode_members (fuel : nat) (first : bool) (seen : gset text) (l : text) : result jcs_error (list (text * jcs) * text) :=
  match fuel with
  | O => Err OutOfFuel
  | S fuel =>
    part ← next_part 125 first l;
    match part with
    | inl rest => Ok ([], rest)
    | inr l =>
      l ← expect 34 l;
      '(key, l) ← read_string l;
      _ ← fail_if (bool_decide (key ∈ seen)) Malformed;
      l ← expect 58 l;
      '(item, l) ← decode_value fuel l;
      '(entries, l) ← decode_members fuel false ({[key]} ∪ seen) l;
      Ok ((key, item) :: entries, l)
    end
  end
with decode_items (fuel : nat) (first : bool) (l : text) : result jcs_error (list jcs * text) :=
  match fuel with
  | O => Err OutOfFuel
  | S fuel =>
    part ← next_part 93 first l;
    match part with
    | inl rest => Ok ([], rest)
    | inr l =>
      '(item, l) ← decode_value fuel l;
      '(items, l) ← decode_items fuel false l;
      Ok (item :: items, l)
    end
  end.

End Profile.

(** ** Writing *)

(** [utf16.Encode] of one rune. *)
Definition utf16_units (r : Z) : list Z :=
  if r <? 65536 then [r] else [55296 + (r - 65536) / 1024; 56320 + (r - 65536) mod 1024].
Definition utf16_encode (s : text) : list Z := (decode_runes s).*1 ≫= utf16_units.

Fixpoint units_less (l r : list Z) : bool :=
  match l, r with
  | a :: l, b :: r => if a =? b then units_less l r else a <? b
  | [], _ :: _ => true
  | _, [] => false
  end.
Definition utf16Less (left right : text) : bool := units_less (utf16_encode left) (utf16_encode right).

Definition hex_char (n : Z) : Z := if n <? 10 then 48 + n else 87 + n.

Definition escape_rune (r : Z) : text :=
  if r =? 34 then [92; 34]
  else if r =? 92 then [92; 92]
  else if r =? 8 then [92; 98]
  else if r =? 9 then [92; 116]
  else if r =? 10 then [92; 110]
  else if r =? 12 then [92; 102]
  else if r =? 13 then [92; 114]
  else if r <? 32 then [92; 117; 48; 48; hex_char (r / 16); hex_char (r mod 16)]
  else encode_rune r.

Definition appendJCSString (value : text) : text := 34 :: concat (escape_rune <$> (decode_runes value).*1) ++ [34].

Fixpoint separated (parts : list text) : text :=
  match parts with
  | [] => []
  | [part] => part
  | part :: parts => part ++ 44 :: separated parts
  end.

Definition key_less {A} (a b : text * A) : bool := utf16Less a.1 b.1.
Definition append_entry (e : text * text) : text := appendJCSString e.1 ++ 58 :: e.2.

(** [appendJCSValue]: the entries are sorted by their keys only, so that the values
    may be written first. *)
Fixpoint appendJCSValue (v : jcs) : text :=
  match v with
  | JNull => [110; 117; 108; 108]
  | JBool true => [116; 114; 117; 101]
  | JBool false => [102; 97; 108; 115; 101]
  | JString s => appendJCSString s
  | JNumber s => s
  | JArray items => 91 :: separated (map appendJCSValue items) ++ [93]
  | JObject entries =>
    123 :: separated (map append_entry (sort_by key_less (map (fun e => (e.1, appendJCSValue e.2)) entries))) ++ [125]
  end.

(** ** [CanonicalizeJCS] *)

Section Canonicalize.
Context {P : NegativeZero}.

(** The whole input as one value. *)
Definition read_jcs (input : text) : result jcs_error jcs :=
  _ ← fail_if (negb (valid_bytes input)) Malformed;
  _ ← fail_if (negb (valid_escapes false input)) Malformed;
  '(value, rest) ← decode_value (2 * length input + 1) input;
  _ ← fail_if (negb (is_nil (skip_space rest))) Malformed;
  Ok value.

Definition CanonicalizeJCS (input : text) : result jcs_error text :=
  value ← read_jcs input; Ok (appendJCSValue value).

Definition JCSSHA256 (input : text) : result jcs_error string :=
  canonical ← CanonicalizeJCS input; Ok (hex_encode (sha256_bytes canonical)).

End Canonicalize.

(** The profile of the server. *)
#[export] Instance server_profile : NegativeZero := true.

Module Samples.
(** A text with single quotes for double ones. *)
Definition quoted (s : string) : text := (fun b => if b =? 39 then 34 else b) <$> bytes_of s.

Example canonical_order :
  CanonicalizeJCS (quoted "{ 'b' : [1, -0, true],'a':{}, '\u0041':'\u000f\/' } ")
  = Ok (quoted "{'A':'\u000f/','a':{},'b':[1,0,true]}").
Proof. vm_compute. reflexivity. Qed.
Example duplicate_key : CanonicalizeJCS (quoted "{'a':1,'\u0061':1}") = Err Malformed.
Proof. vm_compute. reflexivity. Qed.
Example lone_surrogate : CanonicalizeJCS (quoted "'\ud83d'") = Err Malformed.
Proof. vm_compute. reflexivity. Qed.
End Samples.

(** ** Strings, written and read *)
Lemma hex4_low r : 0 <= r < 128 → hex4 48 48 (hex_char (r / 16)) (hex_char (r mod 16)) = Some r.
Proof.
  intros Hr.
  assert (forallb (fun r => bool_decide (hex4 48 48 (hex_char (r / 16)) (hex_char (r mod 16)) = Some r)) (seqZ 0 128) = true)
    as Hall by (vm_compute; reflexivity).
  rewrite forallb_forall in Hall. assert (In r (seqZ 0 128)) as Hin by (apply list_elem_of_In, elem_of_seqZ; lia).
  exact (bool_decide_eq_true_1 _ (Hall r Hin)).
Qed.

(** The bytes of an unescaped rune are neither quotes, backslashes nor controls. *)
Definition plain (b : Z) : Prop := 32 <= b ∧ b ≠ 34 ∧ b ≠ 92.

Lemma encode_rune_plain r : scalar r → 32 <= r → r ≠ 34 → r ≠ 92 → Forall plain (encode_rune r).
Proof.
  intros Hr H32 H34 H92. unfold plain.
  destruct (encode_rune_cases r Hr) as [[Hb ->]|[[Hb ->]|[[Hb ->]|[Hb ->]]]]; repeat constructor; div_lia.
Qed.

Lemma unquote_plain b l : plain b → unquote_bytes (b :: l) = replacing [b] (unquote_bytes l).
Proof.
  intros (H1 & H2 & H3). cbn [unquote_bytes].
  rewrite (proj2 (Z.eqb_neq b 34)), (proj2 (Z.eqb_neq b 92)), (proj2 (Z.ltb_ge b 32)) by done. done.
Qed.

Lemma replacing_app a b o : replacing a (replacing b o) = replacing (a ++ b) o.
Proof. unfold replacing. destruct o as [[x y]|]; cbn; [by rewrite app_assoc|done]. Qed.

Lemma unquote_plains bs l : Forall plain bs → unquote_bytes (bs ++ l) = replacing bs (unquote_bytes l).
Proof.
  induction 1 as [|b bs Hb _ IH]; [cbn; by destruct (unquote_bytes l) as [[]|]|].
  cbn [app]. by rewrite unquote_plain, IH, replacing_app.
Qed.

(** The ways to write a rune in a string. *)
Inductive escaped (r : Z) : text → Prop :=
| escaped_simple e : e ≠ 117 → simple_escape e = Some r → encode_rune r = [r] → escaped r [92; e]
| escaped_hex a b c d : hex4 a b c d = Some r → escaped r [92; 117; a; b; c; d]
| escaped_plain : Forall plain (encode_rune r) → escaped r (encode_rune r).

Lemma escape_rune_escaped r : scalar r → escaped r (escape_rune r).
Proof.
  intros Hr. unfold escape_rune.
  repeat match goal with
  | |- context [r =? ?c] => destruct (Z.eqb_spec r c) as [->|?]; [by apply escaped_simple|]
  end.
  destruct (Z.ltb_spec r 32); [apply escaped_hex, hex4_low; destruct Hr; lia|]. apply escaped_plain. by apply encode_rune_plain.
Qed.

Lemma scalar_units r : scalar r → surrogate r = false ∧ in_range 55296 r 56319 = false ∧ in_range 56320 r 57343 = false.
Proof. unfold surrogate, in_range. intros [Hr|Hr]; repeat split; apply andb_false_iff; rewrite !Z.leb_gt; lia. Qed.

Lemma unquote_escaped r t l : scalar r → escaped r t → unquote_bytes (t ++ l) = replacing (encode_rune r) (unquote_bytes l).
Proof.
  intros Hr [e He Hs Henc|a b c d Hhex|Hp].
  - rewrite Henc. cbn [app unquote_bytes]. change (92 =? 34) with false. change (92 =? 92) with true. cbn [negb].
    rewrite (proj2 (Z.eqb_neq e 117) He), Hs. done.
  - cbn [app unquote_bytes]. change (92 =? 34) with false. change (92 =? 92) with true. change (117 =? 117) with true. cbn iota.
    destruct (scalar_units r Hr) as (Hsur & _). by rewrite Hhex, Hsur.
  - by apply unquote_plains.
Qed.

Lemma to_valid_utf8_runes rs : Forall scalar rs → to_valid_utf8 (encode_runes rs) = encode_runes rs.
Proof.
  intros Hrs. unfold to_valid_utf8. rewrite decode_encode_runes by done. by rewrite <- list_fmap_compose.
Qed.

(** Whatever was read is a valid text. *)
Lemma to_valid_utf8_valid l : valid_text (to_valid_utf8 l).
Proof.
  unfold to_valid_utf8. generalize (decode_runes l) as ps. induction ps as [|p ps IH]; [apply valid_text_nil|].
  cbn [fmap list_fmap concat]. apply valid_text_app; [|done].
  assert (∃ r, scalar r ∧ encode_rune p.1 = encode_rune r) as (r & Hr & ->).
  { destruct (decide (0 <= p.1 < 55296 ∨ 57344 <= p.1 <= 1114111)) as [Hs|Hs]; [by exists p.1|].
    exists rune_error. split; [apply scalar_error|]. unfold encode_rune at 1. unfold in_range.
    destruct (Z.leb_spec 0 p.1); destruct (Z.leb_spec p.1 127); cbn [andb]; try lia;
      destruct (Z.leb_spec 128 p.1); destruct (Z.leb_spec p.1 2047); cbn [andb]; try lia;
      destruct (Z.leb_spec p.1 1114111); cbn [andb orb negb]; try done;
      destruct (Z.leb_spec 55296 p.1); destruct (Z.leb_spec p.1 57343); cbn [andb]; try done; lia. }
  exists [r]. split; [by constructor|]. unfold encode_runes. cbn. by rewrite app_nil_r.
Qed.

(** *** The check of the escapes passes over a written string. *)
Lemma valid_escapes_plain inString b l : b ≠ 34 → b ≠ 92 → valid_escapes inString (b :: l) = valid_escapes inString l.
Proof. intros H1 H2. cbn [valid_escapes]. by rewrite (proj2 (Z.eqb_neq b 34)), (proj2 (Z.eqb_neq b 92)) by done. Qed.

Lemma valid_escapes_plains inString bs l :
  Forall (fun b => b ≠ 34 ∧ b ≠ 92) bs → valid_escapes inString (bs ++ l) = valid_escapes inString l.
Proof. induction 1 as [|b bs [] _ IH]; [done|]. cbn [app]. by rewrite valid_escapes_plain. Qed.

Lemma valid_escapes_escaped r t l : scalar r → escaped r t → valid_escapes true (t ++ l) = valid_escapes true l.
Proof.
  intros Hr [e He Hs Henc|a b c d Hhex|Hp].
  - cbn [app valid_escapes]. change (92 =? 34) with false. change (92 =? 92) with true. cbn [andb].
    by rewrite (proj2 (Z.eqb_neq e 117) He).
  - cbn [app valid_escapes]. change (92 =? 34) with false. change (92 =? 92) with true. change (117 =? 117) with true. cbn [andb negb].
    destruct (scalar_units r Hr) as (_ & H1 & H2). by rewrite Hhex, H1, H2.
  - apply valid_escapes_plains. eapply Forall_impl; [exact Hp|]. by intros b (_ & ? & ?).
Qed.

Lemma hex_byte_ascii b : hex_byte b = true → 0 <= b < 128.
Proof.
  unfold hex_byte, digit, in_range. intros Hb.
  repeat (apply orb_true_iff in Hb as [Hb|Hb]); apply andb_true_iff in Hb; rewrite !Z.leb_le in Hb; lia.
Qed.

Lemma escaped_text r t : scalar r → escaped r t → valid_text t.
Proof.
  intros Hr [e He Hs Henc|a b c d Hhex|Hp].
  - apply valid_text_ascii. assert (0 <= e < 128); [|repeat constructor; lia].
    unfold simple_escape in Hs. destruct e as [|p|p]; [lia| |done]. do 7 (destruct p as [p|p|]; try done; try lia).
  - apply valid_text_ascii. unfold hex4 in Hhex. destruct (_ && _) eqn:Hb; [|done]. split_bools.
    do 2 (constructor; [lia|]). repeat constructor; by apply hex_byte_ascii.
  - exists [r]. split; [by constructor|]. unfold encode_runes. cbn. by rewrite app_nil_r.
Qed.

(** *** Writers

    What is needed of the way a writer escapes the runes of its strings, for its
    texts to be read back. *)
Record escapes (esc : Z → text) : Prop := {
  escapes_unquote : ∀ r l, scalar r → unquote_bytes (esc r ++ l) = replacing (encode_rune r) (unquote_bytes l);
  escapes_valid : ∀ r l, scalar r → valid_escapes true (esc r ++ l) = valid_escapes true l;
  escapes_text : ∀ r, scalar r → valid_text (esc r);
}.

Lemma escaped_escapes esc : (∀ r, scalar r → escaped r (esc r)) → escapes esc.
Proof.
  intros He. constructor; intros r; intros; [apply unquote_escaped|apply valid_escapes_escaped with r|apply escaped_text with r]; auto.
Qed.

Lemma escape_rune_escapes : escapes escape_rune.
Proof. apply escaped_escapes, escape_rune_escaped. Qed.

Definition write_string (esc : Z → text) (value : text) : text := 34 :: concat (esc <$> (decode_runes value).*1) ++ [34].

(** The entries of objects in the order they have. *)
Fixpoint write (esc : Z → text) (v : jcs) : text :=
  match v with
  | JNull => [110; 117; 108; 108]
  | JBool true => [116; 114; 117; 101]
  | JBool false => [102; 97; 108; 115; 101]
  | JString s => write_string esc s
  | JNumber s => s
  | JArray items => 91 :: separated (map (write esc) items) ++ [93]
  | JObject entries => 123 :: separated (map (fun e => write_string esc e.1 ++ 58 :: write esc e.2) entries) ++ [125]
  end.

Section Strings.
Context (esc : Z → text) (Hesc : escapes esc).

Lemma read_write_string s l :
  valid_text s → ∃ tail, write_string esc s ++ l = 34 :: tail ∧ read_string tail = Ok (s, l).
Proof using Hesc.
  intros [Hrs Hs]%valid_text_runes. exists (concat (esc <$> (decode_runes s).*1) ++ 34 :: l).
  split; [unfold write_string; cbn; by rewrite <- app_assoc|]. unfold read_string.
  assert (unquote_bytes (concat (esc <$> (decode_runes s).*1) ++ 34 :: l) = Some (encode_runes ((decode_runes s).*1), l)) as ->.
  { clear Hs. induction Hrs as [|r rs Hr _ IH]; [done|]. cbn [fmap list_fmap concat].
    by rewrite <- app_assoc, (escapes_unquote _ Hesc), IH. }
  by rewrite to_valid_utf8_runes, <- Hs.
Qed.

Lemma valid_escapes_string s l : valid_text s → valid_escapes false (write_string esc s ++ l) = valid_escapes false l.
Proof using Hesc.
  intros [Hrs _]%valid_text_runes. unfold write_string. cbn [app valid_escapes]. change (34 =? 34) with true. cbn [negb].
  rewrite <- app_assoc. induction Hrs as [|r rs Hr _ IH]; [done|]. cbn [fmap list_fmap concat].
  by rewrite <- app_assoc, (escapes_valid _ Hesc).
Qed.

Lemma write_string_text s : valid_text s → valid_text (write_string esc s).
Proof using Hesc.
  intros [Hrs _]%valid_text_runes. unfold write_string. change (34 :: ?l) with ([34] ++ l).
  apply valid_text_app; [apply valid_text_ascii; repeat constructor; lia|].
  apply valid_text_app; [|apply valid_text_ascii; repeat constructor; lia].
  induction Hrs as [|r rs Hr _ IH]; [apply valid_text_nil|]. cbn. apply valid_text_app; [by apply (escapes_text _ Hesc)|done].
Qed.
End Strings.

(** ** Numbers *)
Definition number_ok (s : text) : Prop :=
  canonicalInteger s = true ∧ s ≠ [45; 48] ∧ in_int64 (integer_value s) = true.

(** A number ends before these bytes, or at the end of the text. *)
Definition stops (rest : text) : Prop :=
  match rest with [] => True | b :: _ => b = 44 ∨ b = 93 ∨ b = 125 end.

Lemma digit_cases b : digit b = true → b ∈ seqZ 48 10.
Proof. unfold digit. intros H. split_bools. apply elem_of_seqZ. lia. Qed.

Lemma skip_digits_stops ds rest : forallb digit ds = true → stops rest → skip_digits (ds ++ rest) = rest.
Proof.
  intros Hds Hstop. induction ds as [|d ds IH]; cbn in *.
  - destruct rest as [|b rest]; [done|]. by destruct Hstop as [->|[->| ->]].
  - apply andb_true_iff in Hds as [Hd Hds]. rewrite Hd. by apply IH.
Qed.

(** No fraction and no exponent. *)
Lemma integer_stops rest :
  stops rest →
  (l ← (match rest with 46 :: l => skip_digits1 l | _ => Some rest end);
   match l with
   | b :: l' =>
     if (b =? 101) || (b =? 69)
     then match l' with
          | s :: l'' => if (s =? 43) || (s =? 45) then skip_digits1 l'' else skip_digits1 l'
          | [] => None
          end
     else Some l
   | [] => Some l
   end) = Some rest.
Proof. intros Hstop. destruct rest as [|b rest]; [done|]. by destruct Hstop as [->|[->| ->]]. Qed.

Lemma skip_natural s rest :
  canonical_natural s = true → stops rest →
  (l ← (match s ++ rest with 48 :: l => Some l | _ => skip_digits1 (s ++ rest) end);
   l ← (match l with 46 :: l => skip_digits1 l | _ => Some l end);
   match l with
   | b :: l' =>
     if (b =? 101) || (b =? 69)
     then match l' with
          | s :: l'' => if (s =? 43) || (s =? 45) then skip_digits1 l'' else skip_digits1 l'
          | [] => None
          end
     else Some l
   | [] => Some l
   end) = Some rest.
Proof.
  destruct s as [|b s]; [done|]. cbn [canonical_natural app]. intros Hs Hstop.
  destruct (Z.eqb_spec b 48) as [->|Hne].
  - apply is_nil_true in Hs as ->. by apply integer_stops.
  - cbn [forallb] in Hs. apply andb_true_iff in Hs as [Hb Hs].
    assert (skip_digits1 (b :: s ++ rest) = Some rest) as Hskip by (cbn; by rewrite Hb, skip_digits_stops).
    assert (match b :: s ++ rest with 48 :: l => Some l | _ => skip_digits1 (b :: s ++ rest) end = Some rest) as ->;
      [|by apply integer_stops].
    rewrite <- Hskip. apply digit_cases in Hb. clear -Hb Hne.
    cbv in Hb. repeat (apply elem_of_cons in Hb as [->|Hb]; [done|]). by apply not_elem_of_nil in Hb.
Qed.

Lemma skip_number_integer s rest : canonicalInteger s = true → stops rest → skip_number (s ++ rest) = Some rest.
Proof.
  intros Hs Hstop. unfold skip_number. destruct s as [|b s]; [done|]. cbn [canonicalInteger] in Hs.
  destruct (Z.eqb_spec b 45) as [->|Hne]; [by apply skip_natural|].
  assert (∀ A (x y : A), match b :: s ++ rest with 45 :: _ => x | _ => y end = y) as Hhead.
  { intros A x y. cbn [canonical_natural forallb] in Hs.
    assert (digit b = true) as Hb by (destruct (Z.eqb_spec b 48) as [->|]; [done|by apply andb_true_iff in Hs as [? _]]).
    apply digit_cases in Hb. cbv in Hb. repeat (apply elem_of_cons in Hb as [->|Hb]; [done|]). by apply not_elem_of_nil in Hb. }
  rewrite <- (skip_natural (b :: s) rest Hs Hstop). cbn [app]. f_equal.
  assert (∀ x y : text, match b with 45 => x | _ => y end = y) as Hb by (intros x y; apply (Hhead _ x y)).
  cbv zeta. rewrite Hb. done.
Qed.

Lemma read_number_integer `{P : NegativeZero} s rest : number_ok s → stops rest → read_number (s ++ rest) = Ok (JNumber s, rest).
Proof.
  intros (Hs & Hzero & Hrange) Hstop. unfold read_number. rewrite skip_number_integer by done.
  replace (length (s ++ rest) - length rest)%nat with (length s) by (rewrite length_app; lia).
  rewrite take_app_length, Hs. cbn [negb fail_if]. rewrite (bind_eq_Ok tt), bool_decide_eq_false_2, decide_False by done. cbn [andb fail_if].
  rewrite (bind_eq_Ok tt). by rewrite Hrange.
Qed.

Lemma read_number_ok `{P : NegativeZero} l v rest : read_number l = Ok (v, rest) → ∃ s, v = JNumber s ∧ number_ok s.
Proof.
  unfold read_number. destruct (skip_number l) as [rest'|]; [|done]. set (s := take _ l).
  intros [Hs [_ [Hrange [= <- _]]%guard_Ok]%guard_Ok]%guard_Ok. apply negb_false_iff in Hs, Hrange.
  eexists. split; [done|]. case_decide as Hz; [by vm_compute|done].
Qed.

(** The first byte of a number. *)
Lemma integer_head s : canonicalInteger s = true → ∃ b s', s = b :: s' ∧ (b = 45 ∨ digit b = true).
Proof.
  destruct s as [|b s]; [done|]. cbn. intros Hs. exists b, s. split; [done|].
  destruct (Z.eqb_spec b 45); [by left|right]. destruct (Z.eqb_spec b 48) as [->|]; [done|]. by apply andb_true_iff in Hs as [? _].
Qed.

Lemma integer_bytes s : canonicalInteger s = true → Forall (fun b => b = 45 ∨ 48 <= b <= 57) s.
Proof.
  assert (∀ s, canonical_natural s = true → Forall (fun b => b = 45 ∨ 48 <= b <= 57) s) as Hnat.
  { intros [|b s']; [done|]. cbn [canonical_natural]. destruct (Z.eqb_spec b 48) as [->|].
    - intros ->%is_nil_true. repeat constructor; lia.
    - intros Hall. apply Forall_forall. intros c Hc. right. rewrite forallb_forall in Hall.
      specialize (Hall c ltac:(by apply list_elem_of_In)). unfold digit in Hall. split_bools. lia. }
  destruct s as [|b s']; [done|]. cbn [canonicalInteger]. destruct (Z.eqb_spec b 45) as [->|]; [|by apply Hnat].
  intros H. constructor; [by left|by apply Hnat].
Qed.

(** *** 63-bit decimals *)
Lemma decimal_app s b : decimal (s ++ [b]) = decimal s * 10 + (b - 48).
Proof. unfold decimal. by rewrite foldl_app. Qed.

Lemma format_digits_spec fuel value buffer :
  0 <= value < 10 ^ Z.of_nat fuel →
  ∃ s, format_digits fuel value buffer = s ++ buffer ∧ forallb digit s = true ∧ decimal s = value
    ∧ match s with [] => value = 0 | b :: _ => 0 < value ∧ b ≠ 48 end.
Proof.
  revert value buffer. induction fuel as [|fuel IH]; intros value buffer Hv.
  { cbn in Hv. exists []. split_and!; [done|done|cbn; lia|lia]. }
  cbn [format_digits]. destruct (Z.leb_spec value 0) as [Hz|Hpos].
  { exists []. split_and!; [done|done|cbn; lia|lia]. }
  destruct (IH (value / 10) (48 + value mod 10 :: buffer)) as (s & -> & Hd & Hval & Hhead).
  { rewrite Nat2Z.inj_succ, Z.pow_succ_r in Hv by lia. div_lia. }
  exists (s ++ [48 + value mod 10]). split_and!.
  - by rewrite <- app_assoc.
  - rewrite forallb_app, Hd. cbn. unfold digit, in_range. by decide_range.
  - rewrite decimal_app, Hval. div_lia.
  - destruct s as [|b s]; cbn; split; [lia|div_lia|lia|by destruct Hhead].
Qed.

Lemma format_canonical value :
  0 < value <= MaxUint63 → canonical_natural (format_digits 20 value []) = true ∧ decimal (format_digits 20 value []) = value.
Proof.
  intros [H0 Hle]. destruct (format_digits_spec 20 value []) as (s & -> & Hd & Hval & Hhead).
  { unfold MaxUint63 in Hle. split; [lia|]. eapply Z.le_lt_trans; [exact Hle|]. by vm_compute. }
  rewrite app_nil_r. split; [|done]. destruct s as [|b s]; [subst value; done|]. cbn [canonical_natural].
  destruct Hhead as [_ Hb]. by rewrite (proj2 (Z.eqb_neq b 48) Hb).
Qed.

#[local] Opaque format_digits.

Lemma FormatUint63Decimal_spec value s :
  0 <= value → FormatUint63Decimal value = Some s → canonical_natural s = true ∧ decimal s = value ∧ value <= MaxUint63.
Proof.
  intros H0. unfold FormatUint63Decimal. destruct (Z.ltb_spec MaxUint63 value) as [|Hle]; [done|].
  destruct (Z.eqb_spec value 0) as [->|Hne]; intros [= <-]; [done|].
  destruct (format_canonical value) as [? ?]; [lia|done].
Qed.

Lemma decimal_zero ds : forallb digit ds = true → 0 <= decimal ds.
Proof.
  induction ds as [|d ds IH] using rev_ind; [done|]. rewrite forallb_app, decimal_app. cbn.
  intros [Hds Hd]%andb_true_iff. rewrite andb_true_r in Hd. unfold digit in Hd. split_bools. specialize (IH Hds). lia.
Qed.

(** Canonical decimals of one value are equal. *)
Lemma decimal_inj s1 s2 :
  forallb digit s1 = true → forallb digit s2 = true → head s1 ≠ Some 48 → head s2 ≠ Some 48 → decimal s1 = decimal s2 → s1 = s2.
Proof.
  assert (∀ s, forallb digit s = true → head s ≠ Some 48 → s ≠ [] → 0 < decimal s) as Hpos.
  { intros s. induction s as [|d s IH] using rev_ind; [done|]. rewrite forallb_app, decimal_app. cbn.
    intros [Hds Hd]%andb_true_iff Hh _. rewrite andb_true_r in Hd. unfold digit in Hd. split_bools.
    destruct s as [|c s]; [cbn in *; destruct (Z.eq_dec d 48) as [->|]; [done|lia]|].
    specialize (IH Hds ltac:(cbn in *; done) ltac:(done)). lia. }
  revert s2. induction s1 as [|d1 s1 IH] using rev_ind; intros s2 H1 H2 Hh1 Hh2 Heq.
  - destruct s2 as [|c s2]; [done|]. specialize (Hpos _ H2 Hh2 ltac:(done)). change (decimal []) with 0 in Heq. lia.
  - destruct s2 as [|d2 s2 _] using rev_ind.
    { specialize (Hpos _ H1 Hh1 ltac:(by destruct s1)). change (decimal []) with 0 in Heq. lia. }
    rewrite !decimal_app in Heq. rewrite forallb_app in H1, H2. apply andb_true_iff in H1 as [H1 Hd1], H2 as [H2 Hd2].
    cbn in Hd1, Hd2. rewrite andb_true_r in Hd1, Hd2. unfold digit in Hd1, Hd2. split_bools.
    assert (decimal s1 = decimal s2 ∧ d1 = d2) as [He ->] by lia. f_equal. apply IH; try done.
    + by destruct s1.
    + by destruct s2.
Qed.

Lemma canonical_digits s : canonical_natural s = true → s = [48] ∨ (s ≠ [] ∧ forallb digit s = true ∧ head s ≠ Some 48).
Proof.
  destruct s as [|b s]; [done|]. cbn [canonical_natural]. destruct (Z.eqb_spec b 48) as [->|Hne].
  - intros ->%is_nil_true. by left.
  - right. cbn. split_and!; [done|done|congruence].
Qed.

Lemma decimal_positive s : s ≠ [] → forallb digit s = true → head s ≠ Some 48 → 0 < decimal s.
Proof.
  intros Hne Hd Hh. destruct (Z.eq_dec (decimal s) (decimal [])) as [He|Hn].
  - apply decimal_inj in He as ->; done.
  - pose proof (decimal_zero s Hd). cbn in Hn. lia.
Qed.

Lemma canonical_nonneg s : canonical_natural s = true → 0 <= decimal s.
Proof. intros [->|(_ & Hd & _)]%canonical_digits; [done|by apply decimal_zero]. Qed.

Lemma canonical_inj s1 s2 : canonical_natural s1 = true → canonical_natural s2 = true → decimal s1 = decimal s2 → s1 = s2.
Proof.
  intros [->|(Hn1 & Hd1 & Hh1)]%canonical_digits [->|(Hn2 & Hd2 & Hh2)]%canonical_digits He; [done|..|by apply decimal_inj].
  - pose proof (decimal_positive _ Hn2 Hd2 Hh2). cbn in He. lia.
  - pose proof (decimal_positive _ Hn1 Hd1 Hh1). cbn in He. lia.
Qed.

(** The wire form of 63-bit integers is one to one. *)
Theorem uint63_roundtrip s value :
  0 <= value → ParseUint63Decimal s = Some value ↔ FormatUint63Decimal value = Some s.
Proof.
  intros H0. unfold ParseUint63Decimal. split.
  - destruct (canonical_natural s) eqn:Hs; [|done]. destruct (Z.leb_spec (decimal s) MaxUint63) as [Hle|]; [|done].
    intros [= Hval]. unfold FormatUint63Decimal. rewrite (proj2 (Z.ltb_ge _ _)) by lia. f_equal.
    destruct (Z.eqb_spec value 0) as [->|Hne]; [by apply canonical_inj|].
    destruct (format_canonical value) as [? ?]; [lia|]. apply canonical_inj; [done..|lia].
  - intros (Hs & Hval & Hle)%FormatUint63Decimal_spec; [|done]. rewrite Hs, Hval, (proj2 (Z.leb_le _ _)) by done. done.
Qed.

(** ** Values *)
Section Induction.
Variable P : jcs → Prop.
Hypothesis case_null : P JNull.
Hypothesis case_bool : ∀ b, P (JBool b).
Hypothesis case_string : ∀ s, P (JString s).
Hypothesis case_number : ∀ s, P (JNumber s).
Hypothesis case_array : ∀ items, Forall P items → P (JArray items).
Hypothesis case_object : ∀ entries, Forall (fun e => P e.2) entries → P (JObject entries).

Fixpoint jcs_nested (v : jcs) : P v :=
  match v with
  | JNull => case_null
  | JBool b => case_bool b
  | JString s => case_string s
  | JNumber s => case_number s
  | JArray items => case_array items ((fix all l : Forall P l :=
      match l with [] => Forall_nil_2 P | v :: l => Forall_cons_2 P v l (jcs_nested v) (all l) end) items)
  | JObject entries => case_object entries ((fix all l : Forall (fun e => P e.2) l :=
      match l with [] => Forall_nil_2 _ | e :: l => Forall_cons_2 (fun e => P e.2) e l (jcs_nested e.2) (all l) end) entries)
  end.
End Induction.

(** What is read: UTF-8 strings, canonical 64-bit integers, distinct keys. *)
Inductive wf : jcs → Prop :=
| wf_null : wf JNull
| wf_bool b : wf (JBool b)
| wf_string s : valid_text s → wf (JString s)
| wf_number s : number_ok s → wf (JNumber s)
| wf_array items : Forall wf items → wf (JArray items)
| wf_object entries :
    Forall (fun e => valid_text e.1) entries → NoDup entries.*1 → Forall (fun e => wf e.2) entries → wf (JObject entries).

(** The value with the entries of its objects in the order they are written. *)
Fixpoint normalize (v : jcs) : jcs :=
  match v with
  | JArray items => JArray (map normalize items)
  | JObject entries => JObject (sort_by key_less (map (fun e => (e.1, normalize e.2)) entries))
  | v => v
  end.

(** *** The order of keys *)
Lemma units_less_asym l r : units_less l r = true → units_less r l = false.
Proof.
  revert r. induction l as [|a l IH]; intros [|b r]; try done. cbn. destruct (Z.eqb_spec a b) as [->|Hne].
  - rewrite Z.eqb_refl. apply IH.
  - rewrite (proj2 (Z.eqb_neq b a)) by done. intros H%Z.ltb_lt. apply Z.ltb_ge. lia.
Qed.

Lemma units_less_trans l m r : units_less m l = false → units_less r m = false → units_less r l = false.
Proof.
  revert m r. induction l as [|a l IH]; intros [|b m] [|c r]; try done. cbn.
  destruct (Z.eqb_spec b a) as [->|H1], (Z.eqb_spec c a) as [->|H2].
  - apply IH.
  - done.
  - rewrite (proj2 (Z.eqb_neq a b)) by done. intros Hba Hab. apply Z.ltb_ge in Hba, Hab. lia.
  - destruct (Z.eqb_spec c b) as [->|]; [done|]. intros Hba Hcb. apply Z.ltb_ge in Hba, Hcb. apply Z.ltb_ge. lia.
Qed.

Lemma units_less_total l r : units_less l r = false → units_less r l = false → l = r.
Proof.
  revert r. induction l as [|a l IH]; intros [|b r]; try done. cbn. destruct (Z.eqb_spec a b) as [->|Hne].
  - rewrite Z.eqb_refl. intros. f_equal. by apply IH.
  - rewrite (proj2 (Z.eqb_neq b a)) by done. intros H1%Z.ltb_ge H2%Z.ltb_ge. lia.
Qed.

Lemma utf16_inj rs1 rs2 :
  Forall scalar rs1 → Forall scalar rs2 → rs1 ≫= utf16_units = rs2 ≫= utf16_units → rs1 = rs2.
Proof.
  intros H1. revert rs2. induction H1 as [|r1 rs1 Hr1 _ IH]; intros rs2 H2 Heq.
  - destruct H2 as [|r2 rs2 Hr2]; [done|]. cbn in Heq. unfold utf16_units in Heq. by destruct (r2 <? 65536).
  - destruct H2 as [|r2 rs2 Hr2 H2]; cbn in Heq; unfold utf16_units in Heq at 1.
    + by destruct (r1 <? 65536).
    + unfold utf16_units in Heq at 2. destruct (Z.ltb_spec r1 65536), (Z.ltb_spec r2 65536); cbn in Heq;
        try (injection Heq as Ha Heq; exfalso; destruct Hr1, Hr2; div_lia).
      * injection Heq as -> Heq. f_equal. by apply IH.
      * injection Heq as Ha Hb Heq. f_equal; [destruct Hr1, Hr2; div_lia|by apply IH].
Qed.

Lemma key_less_trans {A} (x y z : text * A) : le_by key_less x y → le_by key_less y z → le_by key_less x z.
Proof. unfold le_by, key_less, utf16Less. apply units_less_trans. Qed.
Lemma key_less_asym {A} (x y : text * A) : key_less x y = true → key_less y x = false.
Proof. unfold key_less, utf16Less. apply units_less_asym. Qed.

(** Valid keys that may stand in both orders are equal. *)
Lemma key_less_antisym {A} (x y : text * A) :
  valid_text x.1 → valid_text y.1 → le_by key_less x y → le_by key_less y x → x.1 = y.1.
Proof.
  unfold le_by, key_less, utf16Less. intros [H1 ->]%valid_text_runes [H2 ->]%valid_text_runes Ha Hb.
  pose proof (units_less_total _ _ Hb Ha) as Heq. unfold utf16_encode in Heq.
  rewrite !decoded_runes in Heq by done. apply utf16_inj in Heq; [by rewrite Heq|done..].
Qed.

Section SortMap.
Context {A B : Type} (ltb : A → A → bool) (ltb' : B → B → bool) (f : A → B).
Hypothesis same_order : ∀ x y, ltb' (f x) (f y) = ltb x y.

Lemma insert_by_map x l : map f (insert_by ltb x l) = insert_by ltb' (f x) (map f l).
Proof using Type*. induction l as [|y l IH]; [done|]. cbn. rewrite same_order. destruct (ltb y x); cbn; [by rewrite IH|done]. Qed.

Lemma sort_by_map l : map f (sort_by ltb l) = sort_by ltb' (map f l).
Proof using Type*. induction l as [|x l IH]; [done|]. cbn [map sort_by foldr]. rewrite insert_by_map. by unfold sort_by in IH |- *; rewrite IH. Qed.
End SortMap.

(** Keys stay where they are when the values change. *)
Definition on_value {A B} (f : A → B) (e : text * A) : text * B := (e.1, f e.2).

Lemma sort_on_value {A B} (f : A → B) l : map (on_value f) (sort_by key_less l) = sort_by key_less (map (on_value f) l).
Proof. by apply sort_by_map. Qed.

Lemma sort_by_twice {A} (l : list (text * A)) : sort_by key_less (sort_by key_less l) = sort_by key_less l.
Proof. apply sort_by_id, sort_by_sorted; [apply key_less_trans|apply key_less_asym]. Qed.

Lemma keys_on_value {A B} (f : A → B) l : (map (on_value f) l).*1 = l.*1.
Proof. rewrite <- list_fmap_compose. by apply list_fmap_ext. Qed.

Lemma map_Forall_ext {A B} (f g : A → B) l : Forall (fun x => f x = g x) l → map f l = map g l.
Proof. induction 1 as [|x l Hx _ IH]; [done|]. cbn. by rewrite Hx, IH. Qed.

(** A value and its normal form are written alike. *)
Lemma append_normalize v : appendJCSValue (normalize v) = appendJCSValue v.
Proof.
  induction v as [| | | |items IH|entries IH] using jcs_nested; try done.
  - cbn. do 3 f_equal. rewrite map_map. by apply map_Forall_ext.
  - cbn. do 4 f_equal. fold (@on_value jcs jcs normalize) (@on_value jcs text appendJCSValue).
    change (map (λ e : text * jcs, (e.1, appendJCSValue e.2)) ?l) with (map (on_value appendJCSValue) l).
    change (map (λ e : text * jcs, (e.1, normalize e.2)) ?l) with (map (on_value normalize) l).
    rewrite sort_on_value, sort_by_twice. f_equal. rewrite map_map. apply map_Forall_ext.
    eapply Forall_impl; [exact IH|]. intros e He. unfold on_value. cbn. by rewrite He.
Qed.

Lemma normalize_wf v : wf v → wf (normalize v).
Proof.
  induction v as [| | | |items IH|entries IH] using jcs_nested; intros Hwf; try done.
  - inversion_clear Hwf as [| | | |? Hitems|]. constructor. apply Forall_map. rewrite Forall_forall in *. intros v Hv. by apply IH, Hitems.
  - inversion_clear Hwf as [| | | | |? Hkeys Hdup Hvals]. cbn [normalize]. change (map _ entries) with (map (on_value normalize) entries).
    assert (∀ P : text * jcs → Prop, Forall (fun e => P (on_value normalize e)) entries →
      Forall P (sort_by key_less (map (on_value normalize) entries))) as Hall.
    { intros P HP. apply Forall_forall. intros e He%elem_of_sort_by. revert e He. apply Forall_forall. by apply Forall_map. }
    constructor.
    + by apply Hall.
    + rewrite sort_by_Permutation, keys_on_value. done.
    + apply Hall. rewrite Forall_forall in *. intros e He. by apply IH, Hvals.
Qed.

(** The canonical text is the plain text of the normal form. *)
Lemma append_write v : appendJCSValue v = write escape_rune (normalize v).
Proof.
  induction v as [| | | |items IH|entries IH] using jcs_nested; try done.
  - cbn [appendJCSValue write normalize]. rewrite map_map. by rewrite (map_Forall_ext _ _ _ IH).
  - cbn [appendJCSValue write normalize]. change (map (λ e : text * jcs, (e.1, appendJCSValue e.2)) ?l) with (map (on_value appendJCSValue) l).
    change (map (λ e : text * jcs, (e.1, normalize e.2)) ?l) with (map (on_value normalize) l).
    rewrite <- !sort_on_value, !map_map. do 3 f_equal. apply map_Forall_ext. rewrite Forall_forall in *. intros e He%elem_of_sort_by.
    unfold append_entry, on_value. cbn. by rewrite <- IH.
Qed.

(** ** Progress and fuel *)
Lemma replacing_Some out o s rest : replacing out o = Some (s, rest) → ∃ s', o = Some (s', rest) ∧ s = out ++ s'.
Proof. destruct o as [[s' r']|]; [|done]. cbn. intros [= <- <-]. by exists s'. Qed.


Lemma unquote_progress l s rest : unquote_bytes l = Some (s, rest) → (length rest < length l)%nat.
Proof.
  revert s rest. induction l as [l IH] using (induction_ltof1 _ length). unfold ltof in IH. intros s rest H.
  assert (∀ l' out, (length l' < length l)%nat → replacing out (unquote_bytes l') = Some (s, rest) → (length rest < length l)%nat)
    as Hrec.
  { intros l' out Hlen (s' & Hs' & _)%replacing_Some. specialize (IH l' Hlen _ _ Hs'). lia. }
  clear IH. destruct l as [|b l]; [done|]. cbn [unquote_bytes] in H.
  destruct (b =? 34); [injection H as _ <-; cbn; lia|].
  destruct (b =? 92); [|destruct (b <? 32); [done|]; refine (Hrec _ _ _ H); cbn; lia].
  destruct l as [|e l]; [done|]. destruct (e =? 117).
  - destruct l as [|x1 [|x2 [|x3 [|x4 l]]]]; try done. destruct (hex4 x1 x2 x3 x4) as [r|]; [|done].
    assert (replacing (encode_rune rune_error) (unquote_bytes l) = Some (s, rest) →
      (length rest < length (b :: e :: x1 :: x2 :: x3 :: x4 :: l))%nat) as Halone by (apply Hrec; cbn; lia).
    destruct (surrogate r); [|refine (Hrec _ _ _ H); cbn; lia]. cbv zeta in H.
    destruct l as [|y1 [|y2 [|y3 [|y4 [|y5 [|y6 l]]]]]]; try by apply Halone.
    destruct (_ && _); [|by apply Halone]. destruct (hex4 y3 y4 y5 y6); [|by apply Halone].
    destruct (decode_surrogates _ _); [|by apply Halone]. refine (Hrec _ _ _ H). cbn. lia.
  - destruct (simple_escape e); [|done]. refine (Hrec _ _ _ H). cbn. lia.
Qed.

Lemma skip_space_le l : (length (skip_space l) <= length l)%nat.
Proof. induction l as [|b l IH]; [done|]. cbn. destruct (json_space b); cbn; lia. Qed.
Lemma skip_digits_le l : (length (skip_digits l) <= length l)%nat.
Proof. induction l as [|b l IH]; [done|]. cbn. destruct (digit b); cbn; lia. Qed.
Lemma skip_digits1_lt l rest : skip_digits1 l = Some rest → (length rest < length l)%nat.
Proof. destruct l as [|b l]; [done|]. cbn. destruct (digit b); [|done]. intros [= <-]. pose proof (skip_digits_le l). lia. Qed.

Lemma skip_literal_le lit l rest : skip_literal lit l = Some rest → (length rest <= length l)%nat.
Proof.
  revert l. induction lit as [|a lit IH]; intros l; cbn; [by intros [= <-]|].
  destruct l as [|b l]; [done|]. destruct (a =? b); [|done]. intros H%IH. cbn. lia.
Qed.

Lemma option_bind_Some {A B} (o : option A) (k : A → option B) b : (o ≫= k) = Some b → ∃ a, o = Some a ∧ k a = Some b.
Proof. destruct o; [|done]. cbn. eauto. Qed.


Lemma skip_number_lt l rest : skip_number l = Some rest → (length rest < length l)%nat.
Proof.
  unfold skip_number. set (l1 := match l with 45 :: l => l | _ => l end).
  assert (length l1 <= length l)%nat as H1.
  { unfold l1. destruct l as [|b l]; [done|]. destruct b as [|p|p]; [done| |done]. do 6 (destruct p as [p|p|]; try done; try (cbn; lia)). }
  clearbody l1. intros (l2 & H2 & H)%option_bind_Some.
  assert (length l2 < length l1)%nat as Hl2.
  { destruct l1 as [|b l1]; [by apply skip_digits1_lt in H2|].
    destruct (Z.eq_dec b 48) as [->|Hne]; [injection H2 as <-; cbn; lia|].
    apply skip_digits1_lt. rewrite <- H2. destruct b as [|p|p]; [done| |done]. do 6 (destruct p as [p|p|]; try done). }
  clear H2. apply option_bind_Some in H as (l3 & H3 & H).
  assert (length l3 <= length l2)%nat as Hl3.
  { destruct l2 as [|b l2]; [by injection H3 as <-|].
    assert (Some (b :: l2) = Some l3 ∨ skip_digits1 l2 = Some l3) as [[= <-]|Hd%skip_digits1_lt]; [|done|cbn; lia].
    destruct b as [|p|p]; [by left| |by left]. do 6 (destruct p as [p|p|]; try (by left); try (by right)). }
  clear H3. enough (length rest <= length l3)%nat by lia.
  destruct l3 as [|b l3]; [by injection H as <-|]. destruct (_ || _); [|by injection H as <-].
  destruct l3 as [|s l3]; [done|]. destruct (_ || _); apply skip_digits1_lt in H; cbn in *; lia.
Qed.

(** Whether a reader of texts of length [n] only fails, or makes progress. *)
Definition proceeds {A} (n : nat) (r : result jcs_error (A * text)) : Prop :=
  match r with Ok (_, rest) => (length rest < n)%nat | Err e => e = Malformed end.

Lemma read_string_proceeds l : proceeds (length l) (read_string l).
Proof.
  unfold read_string. destruct (unquote_bytes l) as [[s rest]|] eqn:H; [|done]. by apply unquote_progress in H.
Qed.

Lemma proceeds_guard {A} n b (k : result jcs_error (A * text)) :
  proceeds n k → proceeds n (_ ← fail_if b Malformed; k).
Proof. by destruct b. Qed.

Lemma read_number_proceeds `{P : NegativeZero} l : proceeds (length l) (read_number l).
Proof.
  unfold read_number. destruct (skip_number l) as [rest|] eqn:H; [|done]. apply skip_number_lt in H. by do 3 apply proceeds_guard.
Qed.

Lemma read_literal_proceeds lit v l : proceeds (S (length l)) (read_literal lit v l).
Proof. unfold read_literal. destruct (skip_literal lit l) eqn:H; [|done]. apply skip_literal_le in H. cbn. lia. Qed.

Lemma expect_proceeds b l : match expect b l with Ok rest => (length rest < length l)%nat | Err e => e = Malformed end.
Proof.
  unfold expect. pose proof (skip_space_le l). destruct (skip_space l) as [|c l']; [done|]. cbn in *. destruct (c =? b); [lia|done].
Qed.

Lemma next_part_proceeds close first l :
  match next_part close first l with
  | Ok (inl rest) => (length rest < length l)%nat
  | Ok (inr l') => (length l' <= length l)%nat ∧ (first = false → (length l' < length l)%nat)
  | Err e => e = Malformed
  end.
Proof.
  unfold next_part. pose proof (skip_space_le l). destruct (skip_space l) as [|c l']; [done|]. cbn in *.
  destruct (c =? close); [lia|]. destruct first; [split; [done|done]|]. destruct (c =? 44); [split; lia|done].
Qed.

Lemma proceeds_bind {A B} n m (r : result jcs_error (A * text)) (k : A * text → result jcs_error (B * text)) :
  proceeds n r → (∀ a rest, r = Ok (a, rest) → (length rest < n)%nat → proceeds m (k (a, rest))) → proceeds m (r ≫= k).
Proof. intros Hr Hk. destruct r as [[a rest]|e]; [by apply Hk|done]. Qed.

Lemma decode_proceeds `{P : NegativeZero} fuel :
  (∀ l, (2 * length l + 1 <= fuel)%nat → proceeds (length l) (decode_value fuel l))
  ∧ (∀ first seen l, (2 * length l + 2 <= fuel)%nat → proceeds (length l) (decode_members fuel first seen l))
  ∧ (∀ first l, (2 * length l + 2 <= fuel)%nat → proceeds (length l) (decode_items fuel first l)).
Proof.
  assert (∀ A n m (r : result jcs_error (A * text)), proceeds n r → (n <= m)%nat → proceeds m r) as Hle.
  { intros A n m [[a rest]|e]; cbn; [lia|done]. }
  induction fuel as [|fuel (IHv & IHm & IHi)]; [split_and!; intros; lia|]. split_and!.
  - intros l Hf. cbn [decode_value]. pose proof (skip_space_le l) as Hs. destruct (skip_space l) as [|b l']; [done|]. cbn in Hs.
    destruct (b =? 123); [apply (proceeds_bind (length l')); [apply IHm; lia|cbn; intros; lia]|].
    destruct (b =? 91); [apply (proceeds_bind (length l')); [apply IHi; lia|cbn; intros; lia]|].
    destruct (b =? 34); [apply (proceeds_bind (length l')); [apply read_string_proceeds|cbn; intros; lia]|].
    destruct (b =? 116); [eapply Hle; [apply read_literal_proceeds|done]|].
    destruct (b =? 102); [eapply Hle; [apply read_literal_proceeds|done]|].
    destruct (b =? 110); [eapply Hle; [apply read_literal_proceeds|done]|].
    eapply Hle; [apply read_number_proceeds|cbn; lia].
  - intros first seen l Hf. cbn [decode_members]. pose proof (next_part_proceeds 125 first l) as Hp.
    destruct (next_part 125 first l) as [[rest|l1]|e]; [done| |by subst]. destruct Hp as [Hp _]. rewrite bind_eq_Ok.
    pose proof (expect_proceeds 34 l1) as He. destruct (expect 34 l1) as [l2|e]; [|by subst]. rewrite bind_eq_Ok.
    apply (proceeds_bind (length l2)); [apply read_string_proceeds|]. intros key l3 _ H3. cbn beta iota.
    apply proceeds_guard.
    pose proof (expect_proceeds 58 l3) as He'. destruct (expect 58 l3) as [l4|e]; [|by subst]. rewrite bind_eq_Ok.
    apply (proceeds_bind (length l4)); [apply IHv; lia|]. intros item l5 _ H5. cbn beta iota.
    apply (proceeds_bind (length l5)); [apply IHm; lia|]. intros entries l6 _ H6. cbn. lia.
  - intros first l Hf. cbn [decode_items]. pose proof (next_part_proceeds 93 first l) as Hp.
    destruct (next_part 93 first l) as [[rest|l1]|e]; [done| |by subst]. destruct Hp as [Hp _]. rewrite bind_eq_Ok.
    apply (proceeds_bind (length l1)); [apply IHv; lia|]. intros item l2 _ H2. cbn beta iota.
    apply (proceeds_bind (length l2)); [apply IHi; lia|]. intros items l3 _ H3. cbn. lia.
Qed.

(** The recursion is deep enough for every input. *)
Theorem CanonicalizeJCS_fuel `{P : NegativeZero} input : CanonicalizeJCS input ≠ Err OutOfFuel.
Proof.
  unfold CanonicalizeJCS, read_jcs. intros [H|(v & _ & H)]%bind_Err; [|done].
  apply guard_Err in H as [[_ ?]|[_ H]]; [done|]. apply guard_Err in H as [[_ ?]|[_ H]]; [done|].
  pose proof (proj1 (decode_proceeds (2 * length input + 1)) input ltac:(lia)) as Hp.
  apply bind_Err in H as [H|([v rest] & _ & H)]; [rewrite H in Hp; done|]. by apply guard_Err in H as [[_ ?]|[_ H]].
Qed.

(** ** What is read is well formed *)
Lemma read_string_valid l s rest : read_string l = Ok (s, rest) → valid_text s.
Proof. unfold read_string. destruct (unquote_bytes l) as [[s' r']|]; [|done]. intros [= <- _]. apply to_valid_utf8_valid. Qed.

Lemma decode_wf `{P : NegativeZero} fuel :
  (∀ l v rest, decode_value fuel l = Ok (v, rest) → wf v)
  ∧ (∀ first seen l entries rest, decode_members fuel first seen l = Ok (entries, rest) →
       Forall (fun e => valid_text e.1 ∧ e.1 ∉ seen) entries ∧ NoDup entries.*1 ∧ Forall (fun e => wf e.2) entries)
  ∧ (∀ first l items rest, decode_items fuel first l = Ok (items, rest) → Forall wf items).
Proof.
  induction fuel as [|fuel (IHv & IHm & IHi)]; [done|]. split_and!.
  - intros l v rest. cbn [decode_value]. destruct (skip_space l) as [|b l']; [done|].
    assert (∀ lit w, wf w → read_literal lit w l' = Ok (v, rest) → wf v) as Hlit.
    { intros lit w Hw. unfold read_literal. destruct (skip_literal lit l'); [|done]. by intros [= <- _]. }
    destruct (b =? 123); [intros ([es r] & (H1 & H2 & H3)%IHm & [= <- _])%bind_Ok; constructor; [|done..]; eapply Forall_impl;
      [exact H1|naive_solver]|].
    destruct (b =? 91); [intros ([its r] & H1%IHi & [= <- _])%bind_Ok; by constructor|].
    destruct (b =? 34); [intros ([s r] & H1%read_string_valid & [= <- _])%bind_Ok; by constructor|].
    destruct (b =? 116); [apply Hlit; constructor|]. destruct (b =? 102); [apply Hlit; constructor|].
    destruct (b =? 110); [apply Hlit; constructor|]. intros (s & -> & Hs)%read_number_ok. by constructor.
  - intros first seen l entries rest. cbn [decode_members]. intros ([r1|l1] & _ & H)%bind_Ok; [injection H as <- _; repeat constructor|].
    apply bind_Ok in H as (l2 & _ & H). apply bind_Ok in H as ([key l3] & Hkey%read_string_valid & H).
    apply guard_Ok in H as [Hnew%bool_decide_eq_false_1 H]. apply bind_Ok in H as (l4 & _ & H).
    apply bind_Ok in H as ([item l5] & Hitem%IHv & H). apply bind_Ok in H as ([es l6] & (H1 & H2 & H3)%IHm & [= <- _]).
    split_and!; [|rewrite fmap_cons; constructor; [|done]|by constructor].
    + constructor; [done|]. eapply Forall_impl; [exact H1|]. set_solver.
    + rewrite list_elem_of_fmap. intros (e & He & Hin). rewrite Forall_forall in H1. destruct (H1 e Hin) as [_ Hn].
      cbn in He. subst key. set_solver.
  - intros first l items rest. cbn [decode_items]. intros ([r1|l1] & _ & H)%bind_Ok; [injection H as <- _; constructor|].
    apply bind_Ok in H as ([item l2] & Hitem%IHv & H). apply bind_Ok in H as ([its l3] & Hits%IHi & [= <- _]). by constructor.
Qed.

(** ** Reading what was written *)
Definition tail (parts : list text) : text := concat (cons 44 <$> parts).

Lemma separated_cons part parts : separated (part :: parts) = part ++ tail parts.
Proof.
  revert part. induction parts as [|q parts IH]; intros part; [cbn; by rewrite app_nil_r|].
  change (part ++ 44 :: separated (q :: parts) = part ++ 44 :: q ++ tail parts). by rewrite IH.
Qed.

(** The first byte tells what follows. *)
Definition opening (b : Z) : Prop := json_space b = false ∧ b ≠ 44 ∧ b ≠ 93 ∧ b ≠ 125.

Lemma digit_opening b : b = 45 ∨ digit b = true → opening b ∧ b ≠ 123 ∧ b ≠ 91 ∧ b ≠ 34 ∧ b ≠ 116 ∧ b ≠ 102 ∧ b ≠ 110.
Proof.
  intros [->|[H1 H2]%andb_true_iff]; [done|]. apply Z.leb_le in H1, H2. unfold opening. split_and!; try lia.
  unfold json_space. repeat (rewrite (proj2 (Z.eqb_neq _ _)) by lia). done.
Qed.

Section Reading.
Context {P : NegativeZero} (esc : Z → text) (Hesc : escapes esc).

Lemma write_head v : wf v → ∃ b l, write esc v = b :: l ∧ opening b.
Proof.
  destruct 1 as [|[]|s Hs|s (Hs & _ & _)|items|entries]; try (eexists _, _; split; [reflexivity|done]).
  destruct (integer_head s Hs) as (b & l & -> & Hb%digit_opening). exists b, l. split; [done|apply Hb].
Qed.

Lemma skip_opening b l : opening b → skip_space (b :: l) = b :: l.
Proof. intros (H & _). cbn. by rewrite H. Qed.

Lemma skip_head v l : wf v → skip_space (write esc v ++ l) = write esc v ++ l.
Proof. intros (b & l' & -> & Hb)%write_head. by apply skip_opening. Qed.

(** [v] is read back from its text, in any place. *)
Definition readable (v : jcs) : Prop :=
  ∀ fuel rest, (2 * length (write esc v) <= fuel)%nat → stops rest → decode_value fuel (write esc v ++ rest) = Ok (v, rest).

Lemma write_length v : wf v → (1 <= length (write esc v))%nat.
Proof. intros (b & l & -> & _)%write_head. cbn. lia. Qed.

Lemma next_first close v l :
  wf v → (close = 93 ∨ close = 125) → next_part close true (write esc v ++ l) = Ok (inr (write esc v ++ l)).
Proof.
  intros Hv Hc. unfold next_part. rewrite skip_head by done. destruct (write_head v Hv) as (b & l' & -> & _ & _ & H1 & H2).
  cbn. rewrite (proj2 (Z.eqb_neq b close)) by (destruct Hc; by subst). done.
Qed.

Lemma next_comma close l : close = 93 ∨ close = 125 → next_part close false (44 :: l) = Ok (inr l).
Proof. by intros [->| ->]. Qed.

Lemma decode_items_tail items rest :
  Forall (fun v => wf v ∧ readable v) items → ∀ fuel,
  (2 * length (tail (map (write esc) items)) + 1 <= fuel)%nat →
  decode_items fuel false (tail (map (write esc) items) ++ 93 :: rest) = Ok (items, rest).
Proof.
  induction 1 as [|v items [Hv IHv] _ IH]; intros fuel Hf; (destruct fuel as [|fuel]; [lia|]); [done|].
  cbn [map tail fmap list_fmap concat] in Hf |- *. fold (tail (map (write esc) items)) in Hf |- *.
  rewrite length_app in Hf. cbn [length] in Hf. pose proof (write_length v Hv).
  cbn [decode_items app]. rewrite next_comma, bind_eq_Ok, <- app_assoc by auto.
  rewrite IHv by (lia || by destruct items; [right; left|left]). rewrite bind_eq_Ok. cbn beta iota.
  rewrite IH by lia. done.
Qed.

Lemma decode_items_written items rest fuel :
  Forall (fun v => wf v ∧ readable v) items →
  (2 * length (separated (map (write esc) items)) + 1 <= fuel)%nat →
  decode_items fuel true (separated (map (write esc) items) ++ 93 :: rest) = Ok (items, rest).
Proof.
  intros Hitems Hf. destruct fuel as [|fuel]; [lia|]. destruct Hitems as [|v items [Hv IHv] Hitems]; [done|].
  cbn [map] in Hf |- *. rewrite separated_cons, length_app in Hf. rewrite separated_cons, <- app_assoc. pose proof (write_length v Hv).
  cbn [decode_items]. rewrite next_first, bind_eq_Ok by auto.
  rewrite IHv by (lia || by destruct items; [right; left|left]). rewrite bind_eq_Ok. cbn beta iota.
  rewrite decode_items_tail by (done || lia). done.
Qed.

Definition written (e : text * jcs) : text := write_string esc e.1 ++ 58 :: write esc e.2.

Lemma written_text e l : written e ++ l = write_string esc e.1 ++ 58 :: write esc e.2 ++ l.
Proof. unfold written. by rewrite <- app_assoc. Qed.

(** An entry is read where its key is due. *)
Lemma decode_entry fuel seen first e l rest entries :
  valid_text e.1 → wf e.2 → readable e.2 → e.1 ∉ seen → stops l →
  (2 * length (write esc e.2) <= fuel)%nat →
  decode_members fuel false ({[e.1]} ∪ seen) l = Ok (entries, rest) →
  decode_members (S fuel) first seen ((if first then [] else [44]) ++ written e ++ l)
  = Ok (e :: entries, rest).
Proof.
  intros Hk Hv Hread Hnew Hl Hf Hrest. cbn [decode_members]. rewrite written_text.
  destruct (read_write_string esc Hesc e.1 (58 :: write esc e.2 ++ l) Hk) as (keytext & Hhead & Hkey).
  assert (next_part 125 first ((if first then [] else [44]) ++ write_string esc e.1 ++ 58 :: write esc e.2 ++ l)
    = Ok (inr (34 :: keytext))) as ->.
  { rewrite Hhead. destruct first; [done|]. cbn [app]. apply next_comma. auto. }
  rewrite bind_eq_Ok. cbn [expect]. change (expect 34 (34 :: keytext)) with (Ok (E := jcs_error) keytext).
  rewrite bind_eq_Ok, Hkey, bind_eq_Ok, bool_decide_eq_false_2 by done. cbn [fail_if]. rewrite (bind_eq_Ok tt).
  change (expect 58 (58 :: ?x)) with (Ok (E := jcs_error) x). rewrite bind_eq_Ok, Hread, bind_eq_Ok by done. cbn beta iota.
  rewrite Hrest, bind_eq_Ok. by destruct e.
Qed.

Definition entry_ok (e : text * jcs) : Prop := valid_text e.1 ∧ wf e.2 ∧ readable e.2.

Lemma written_length e : valid_text e.1 → (length (write esc e.2) + 2 <= length (written e))%nat.
Proof. intros _. unfold written, write_string. cbn. rewrite !length_app. cbn. lia. Qed.

Lemma decode_members_tail entries rest :
  Forall entry_ok entries → NoDup entries.*1 → ∀ fuel seen,
  Forall (fun e => e.1 ∉ seen) entries →
  (2 * length (tail (map written entries)) + 1 <= fuel)%nat →
  decode_members fuel false seen (tail (map written entries) ++ 125 :: rest) = Ok (entries, rest).
Proof.
  induction 1 as [|e entries (Hk & Hv & Hread) _ IH]; intros Hdup fuel seen Hseen Hf; (destruct fuel as [|fuel]; [lia|]); [done|].
  apply NoDup_cons in Hdup as [Hnew Hdup]. apply Forall_cons in Hseen as [Hns Hseen].
  cbn [map tail fmap list_fmap concat] in Hf |- *. fold (tail (map written entries)) in Hf |- *.
  rewrite length_app in Hf. cbn [length] in Hf. pose proof (written_length e Hk).
  rewrite <- app_assoc. apply (decode_entry fuel seen false e); try done.
  - destruct entries; [by right; right|by left].
  - lia.
  - apply IH; [done| |lia]. rewrite Forall_forall in Hseen |- *. intros e' He'. specialize (Hseen e' He').
    rewrite not_elem_of_union, not_elem_of_singleton. split; [|done]. intros Heq. apply Hnew. rewrite <- Heq.
    apply list_elem_of_fmap. by exists e'.
Qed.

Lemma decode_members_written entries rest fuel :
  Forall entry_ok entries → NoDup entries.*1 →
  (2 * length (separated (map written entries)) + 1 <= fuel)%nat →
  decode_members fuel true ∅ (separated (map written entries) ++ 125 :: rest) = Ok (entries, rest).
Proof.
  intros Hok Hdup Hf. destruct fuel as [|fuel]; [lia|]. destruct Hok as [|e entries (Hk & Hv & Hread) Hok]; [done|].
  cbn [map] in Hf |- *. rewrite separated_cons, length_app in Hf. rewrite separated_cons, <- app_assoc. pose proof (written_length e Hk).
  apply NoDup_cons in Hdup as [Hnew Hdup].
  apply (decode_entry fuel ∅ true e); [done..|set_solver| |lia|].
  - destruct entries; [by right; right|by left].
  - apply decode_members_tail; [done..| |lia]. apply Forall_forall. intros e' He'.
    rewrite not_elem_of_union, not_elem_of_singleton. split; [|set_solver]. intros Heq. apply Hnew. rewrite <- Heq.
    apply list_elem_of_fmap. by exists e'.
Qed.

(** Every well-formed value is read back. *)
Lemma wf_readable v : wf v → readable v.
Proof.
  induction v as [|b|s|s|items IH|entries IH] using jcs_nested; intros Hwf fuel rest Hf Hstop;
    (destruct fuel as [|fuel]; [pose proof (write_length _ Hwf); lia|]).
  - done.
  - by destruct b.
  - inversion_clear Hwf as [| |? Hs| | |]. destruct (read_write_string esc Hesc s rest Hs) as (l & Hl & Hread).
    cbn [write]. rewrite Hl. cbn [decode_value]. change (skip_space (34 :: l)) with (34 :: l). cbn iota. 
    change (34 =? 123) with false. change (34 =? 91) with false. change (34 =? 34) with true. cbn iota. by rewrite Hread.
  - inversion_clear Hwf as [| | |? Hs| |]. pose proof Hs as (Hint & _ & _). cbn [write decode_value].
    pose proof (read_number_integer s rest Hs Hstop) as Hread. destruct (integer_head s Hint) as (b & l & -> & Hb%digit_opening).
    destruct Hb as (Hb & H1 & H2 & H3 & H4 & H5 & H6). cbn [app] in *. rewrite skip_opening by done.
    rewrite !(proj2 (Z.eqb_neq b _)) by done. done.
  - inversion_clear Hwf as [| | | |? Hitems|]. cbn [write] in *. cbn [length] in Hf. rewrite length_app in Hf.
    cbn [app decode_value]. change (skip_space (91 :: ?l)) with (91 :: l). cbn iota.
    change (91 =? 123) with false. change (91 =? 91) with true. cbn iota. rewrite <- app_assoc. cbn [app].
    rewrite decode_items_written; [done| |cbn in Hf; lia]. rewrite Forall_forall in *. intros v Hv. split; [by apply Hitems|by apply IH, Hitems].
  - inversion_clear Hwf as [| | | | |? Hkeys Hdup Hvals]. cbn [write] in *. cbn [length] in Hf. rewrite length_app in Hf.
    cbn [app decode_value]. change (skip_space (123 :: ?l)) with (123 :: l). cbn iota.
    change (123 =? 123) with true. cbn iota. rewrite <- app_assoc. cbn [app].
    fold written. change (map _ entries) with (map written entries) in *. rewrite decode_members_written; [|..|cbn in Hf; lia].
    + done.
    + rewrite Forall_forall in *. intros e He. split_and!; [by apply Hkeys|by apply Hvals|by apply IH, Hvals].
    + done.
Qed.

(** *** The whole text passes the checks made first. *)
Lemma valid_escapes_value v : wf v → ∀ l, valid_escapes false (write esc v ++ l) = valid_escapes false l.
Proof.
  assert (∀ b l, b ≠ 34 → b ≠ 92 → valid_escapes false (b :: l) = valid_escapes false l) as Hbyte
    by (intros; by apply valid_escapes_plain).
  assert (∀ parts l, Forall (fun p => ∀ l, valid_escapes false (p ++ l) = valid_escapes false l) parts →
    valid_escapes false (separated parts ++ l) = valid_escapes false l) as Hsep.
  { intros parts l Hparts. destruct Hparts as [|p parts Hp Hparts]; [done|]. rewrite separated_cons, <- app_assoc, Hp.
    induction Hparts as [|q parts Hq _ IH]; [done|]. cbn [tail fmap list_fmap concat app]. rewrite Hbyte, <- app_assoc, Hq by done. exact IH. }
  induction v as [|b|s|s|items IH|entries IH] using jcs_nested; intros Hwf l.
  - done.
  - by destruct b.
  - inversion_clear Hwf as [| |? Hs| | |]. by apply valid_escapes_string.
  - inversion_clear Hwf as [| | |? Hs| |]. destruct Hs as (Hs%integer_bytes & _ & _). apply valid_escapes_plains.
    eapply Forall_impl; [exact Hs|]. cbv beta. intros b Hb. lia.
  - inversion_clear Hwf as [| | | |? Hitems|]. cbn [write app]. rewrite Hbyte by done. rewrite <- app_assoc, Hsep; [by apply Hbyte|].
    apply Forall_map. rewrite Forall_forall in *. intros v Hv. by apply IH, Hitems.
  - inversion_clear Hwf as [| | | | |? Hkeys Hdup Hvals]. cbn [write app]. change (map _ entries) with (map written entries). rewrite Hbyte by done. rewrite <- app_assoc, Hsep; [by apply Hbyte|].
    apply Forall_map. rewrite Forall_forall in *. intros e He l'.
    rewrite written_text, valid_escapes_string by (done || by apply Hkeys). rewrite Hbyte by done. by apply IH, Hvals.
Qed.

Lemma write_valid v : wf v → valid_text (write esc v).
Proof.
  assert (∀ b, 0 <= b < 128 → valid_text [b]) as Hbyte by (intros; apply valid_text_ascii; repeat constructor; lia).
  assert (∀ b l, 0 <= b < 128 → valid_text l → valid_text (b :: l)) as Hcons.
  { intros b l Hb Hl. change (b :: l) with ([b] ++ l). by apply valid_text_app; [apply Hbyte|]. }
  assert (∀ parts, Forall valid_text parts → valid_text (separated parts)) as Hsep.
  { intros parts Hparts. destruct Hparts as [|p parts Hp Hparts]; [apply valid_text_nil|]. rewrite separated_cons. apply valid_text_app; [done|].
    induction Hparts as [|q parts Hq _ IH]; [apply valid_text_nil|]. cbn. apply Hcons; [lia|]. by apply valid_text_app. }
  induction v as [|b|s|s|items IH|entries IH] using jcs_nested; intros Hwf.
  - apply valid_text_ascii. repeat constructor; lia.
  - destruct b; apply valid_text_ascii; repeat constructor; lia.
  - inversion_clear Hwf as [| |? Hs| | |]. by apply write_string_text.
  - inversion_clear Hwf as [| | |? Hs| |]. destruct Hs as (Hs%integer_bytes & _ & _). apply valid_text_ascii.
    eapply Forall_impl; [exact Hs|]. cbv beta. intros b Hb. lia.
  - inversion_clear Hwf as [| | | |? Hitems|]. cbn [write]. apply Hcons, valid_text_app; [lia| |apply Hbyte; lia].
    apply Hsep, Forall_map. rewrite Forall_forall in *. intros v Hv. by apply IH, Hitems.
  - inversion_clear Hwf as [| | | | |? Hkeys Hdup Hvals]. cbn [write]. change (map _ entries) with (map written entries). apply Hcons, valid_text_app; [lia| |apply Hbyte; lia].
    apply Hsep, Forall_map. rewrite Forall_forall in *. intros e He. unfold written.
    apply valid_text_app; [by apply write_string_text, Hkeys|]. apply Hcons; [lia|]. by apply IH, Hvals.
Qed.

Lemma read_jcs_write v : wf v → read_jcs (write esc v) = Ok v.
Proof using Hesc.
  intros Hwf. pose proof (write_valid v Hwf) as Htext. unfold read_jcs.
  rewrite (proj2 (valid_bytes_text _ (valid_text_ok _ Htext)) Htext). cbn [negb fail_if]. rewrite (bind_eq_Ok tt).
  pose proof (valid_escapes_value v Hwf []) as Hvalid. rewrite app_nil_r in Hvalid. rewrite Hvalid. cbn [negb fail_if valid_escapes].
  rewrite (bind_eq_Ok tt). pose proof (wf_readable v Hwf (2 * length (write esc v) + 1)%nat [] ltac:(lia) I) as Hread.
  rewrite app_nil_r in Hread. rewrite Hread. done.
Qed.
End Reading.

Lemma read_jcs_append `{P : NegativeZero} v : wf v → read_jcs (appendJCSValue v) = Ok (normalize v).
Proof. intros Hwf. rewrite append_write. apply read_jcs_write; [apply escape_rune_escapes|by apply normalize_wf]. Qed.

Lemma append_valid v : wf v → valid_text (appendJCSValue v).
Proof. intros Hwf. rewrite append_write. apply write_valid; [apply escape_rune_escapes|by apply normalize_wf]. Qed.

(** ** What canonical texts are *)
Lemma read_jcs_wf `{P : NegativeZero} input v : read_jcs input = Ok v → wf v.
Proof.
  unfold read_jcs. intros [_ H]%guard_Ok. apply guard_Ok in H as [_ H]. apply bind_Ok in H as ([w rest] & Hv & H).
  apply guard_Ok in H as [_ [= <-]]. by eapply decode_wf.
Qed.

(** The same value up to the order of the entries of objects. *)
Inductive same : jcs → jcs → Prop :=
| same_null : same JNull JNull
| same_bool b : same (JBool b) (JBool b)
| same_string s : same (JString s) (JString s)
| same_number s : same (JNumber s) (JNumber s)
| same_array items1 items2 : Forall2 same items1 items2 → same (JArray items1) (JArray items2)
| same_object entries1 entries entries2 :
    Forall2 (fun e1 e2 => e1.1 = e2.1 ∧ same e1.2 e2.2) entries1 entries → entries ≡ₚ entries2 →
    same (JObject entries1) (JObject entries2).

Lemma sort_entries_Permutation {A} (l1 l2 : list (text * A)) :
  Forall (fun e => valid_text e.1) l1 → NoDup l1.*1 → l1 ≡ₚ l2 → sort_by key_less l1 = sort_by key_less l2.
Proof.
  intros Hkeys Hdup. apply sort_by_Permutation_eq; [apply key_less_trans|apply key_less_asym|].
  rewrite Forall_forall in Hkeys. intros x y Hx Hy H1 H2. pose proof (key_less_antisym x y (Hkeys x Hx) (Hkeys y Hy) H1 H2) as Hk.
  apply list_elem_of_split in Hx as (la & lb & ->). rewrite fmap_app, fmap_cons in Hdup.
  apply NoDup_app in Hdup as (_ & Hla & Hlb%NoDup_cons). destruct Hlb as [Hlb _].
  assert (x.1 ∉ la.*1) as Hla' by (intros Hin; apply (Hla _ Hin); set_solver).
  apply elem_of_app in Hy as [Hy|[->|Hy]%elem_of_cons]; [|done|].
  - exfalso. apply Hla'. rewrite Hk. by apply list_elem_of_fmap_2.
  - exfalso. apply Hlb. rewrite Hk. by apply list_elem_of_fmap_2.
Qed.

Lemma same_normalize a : ∀ b, wf a → same a b → normalize a = normalize b.
Proof.
  induction a as [| | | |items IH|entries IH] using jcs_nested; intros other Hwf Hsame; inversion Hsame as [| | | |? items2 Hitems|? es entries2 Hes Hperm];
    subst; try done.
  - cbn [normalize]. f_equal. inversion_clear Hwf as [| | | |? Hwfs|]. clear Hsame.
    induction Hitems as [|x y l l' Hxy _ IHl]; [done|]. apply Forall_cons in IH as [Hx IH]. apply Forall_cons in Hwfs as [Hwx Hwfs].
    cbn. f_equal; [by apply Hx|by apply IHl].
  - cbn [normalize]. f_equal. inversion_clear Hwf as [| | | | |? Hkeys Hdup Hvals].
    change (sort_by key_less (map (on_value normalize) entries) = sort_by key_less (map (on_value normalize) entries2)).
    assert (map (on_value normalize) entries = map (on_value normalize) es) as Hmap.
    { clear Hperm Hsame Hkeys Hdup. induction Hes as [|x y l l' [Hk Hxy] _ IHl]; [done|]. apply Forall_cons in IH as [Hx IH].
      apply Forall_cons in Hvals as [Hwx Hvals]. cbn. f_equal; [|by apply IHl]. unfold on_value. f_equal; [done|by apply Hx]. }
    rewrite Hmap. apply sort_entries_Permutation.
    + rewrite <- Hmap. by apply Forall_map.
    + rewrite <- Hmap, keys_on_value. done.
    + by apply Permutation_map.
Qed.

Lemma normalize_same a : ∀ b, normalize a = normalize b → same a b.
Proof.
  induction a as [| | | |items IH|entries IH] using jcs_nested; intros [| | | |items2|entries2] Heq; try discriminate Heq;
    try solve [constructor|cbn in Heq; injection Heq as <-; constructor].
  - injection Heq as Heq. constructor. revert items2 Heq. induction IH as [|x l Hx _ IHl]; intros [|y items2]; try done.
    cbn. intros [= Hxy Heq]. constructor; [by apply Hx|by apply IHl].
  - injection Heq as Heq. change (sort_by key_less (map (on_value normalize) entries) = sort_by key_less (map (on_value normalize) entries2)) in Heq.
    assert (map (on_value normalize) entries ≡ₚ map (on_value normalize) entries2) as Hp
      by (rewrite <- (sort_by_Permutation key_less), Heq; apply sort_by_Permutation).
    apply Permutation_map_inv in Hp as (es & Hes & Hp). apply (same_object entries es); [|by symmetry].
    clear Heq Hp entries2. revert es Hes. induction IH as [|x l Hx _ IHl]; intros [|y es]; try done.
    cbn. intros [= Hk Hxy Heq]. constructor; [split; [done|by apply Hx]|by apply IHl].
Qed.

(** C1: what [CanonicalizeJCS] reads is well typed: strings and keys are UTF-8,
    numbers are canonical 64-bit integers, no object has a key twice, and what it
    writes is UTF-8 again. *)
Theorem canonical_values_are_typed `{P : NegativeZero} input out :
  CanonicalizeJCS input = Ok out → ∃ value, read_jcs input = Ok value ∧ wf value ∧ out = appendJCSValue value ∧ valid_text out.
Proof.
  intros (v & Hv & [= <-])%bind_Ok. pose proof (read_jcs_wf input v Hv) as Hwf. exists v. split_and!; [done..|by apply append_valid].
Qed.

(** C1: canonical texts are fixed points. *)
Theorem CanonicalizeJCS_idempotent `{P : NegativeZero} input out : CanonicalizeJCS input = Ok out → CanonicalizeJCS out = Ok out.
Proof.
  intros (v & Hv & [= <-])%bind_Ok. apply read_jcs_wf in Hv. unfold CanonicalizeJCS.
  by rewrite read_jcs_append, bind_eq_Ok, append_normalize.
Qed.

(** C31. C1: two texts have one canonical form exactly when they stand for the same value
    up to the order of the entries of its objects. *)
Theorem canonical_iff_same `{P : NegativeZero} a b va vb :
  read_jcs a = Ok va → read_jcs b = Ok vb → CanonicalizeJCS a = CanonicalizeJCS b ↔ same va vb.
Proof.
  intros Ha Hb. unfold CanonicalizeJCS. rewrite Ha, Hb, !bind_eq_Ok. apply read_jcs_wf in Ha, Hb. split.
  - intros [= Heq]. apply normalize_same.
    pose proof (read_jcs_append va Ha) as H1. rewrite Heq, read_jcs_append in H1 by done. by injection H1.
  - intros Hsame%same_normalize; [|done]. by rewrite <- append_normalize, Hsame, append_normalize.
Qed.

Lemma uint63_roundtrip_witness : ParseUint63Decimal (bytes_of "9223372036854775807") = Some MaxUint63.
Proof. apply uint63_roundtrip; [by vm_compute|]. vm_compute. reflexivity. Defined.

Lemma canonical_values_are_typed_witness :
  ∃ value, read_jcs (Samples.quoted "[{'b':-1,'a':null}]") = Ok value ∧ wf value
    ∧ Samples.quoted "[{'a':null,'b':-1}]" = appendJCSValue value ∧ valid_text (Samples.quoted "[{'a':null,'b':-1}]").
Proof. apply canonical_values_are_typed. vm_compute. reflexivity. Defined.

Lemma CanonicalizeJCS_idempotent_witness :
  CanonicalizeJCS (Samples.quoted "{'A':'\u000f/','a':{},'b':[1,0,true]}") = Ok (Samples.quoted "{'A':'\u000f/','a':{},'b':[1,0,true]}").
Proof. refine (CanonicalizeJCS_idempotent _ _ Samples.canonical_order). Defined.

Lemma canonical_iff_same_witness :
  same (JObject [([97], JNull); ([98], JArray [])]) (JObject [([98], JArray []); ([97], JNull)]).
Proof.
  apply (canonical_iff_same (Samples.quoted "{'a':null,'b':[]}") (Samples.quoted "{ 'b':[],'a':null}")); vm_compute; reflexivity.
Defined.
