(* ===== verification/ClientJcs.v ===== *)
(** * Canonical JSON of the client

    [clients/cli-go/internal/offline/jcs.go]: the client has its own copy of the
    server's canonicalisation (Jcs.v, [server/internal/learning/jcs.go]). The functions
    are the same but for the number [-0], which this copy rejects; the definitions are
    those of Jcs.v with the profile [client]. What one side writes has to be what the
    other side signs and hashes: the two agree wherever the client accepts, and the
    client accepts all that the server writes. *)
From S2P Require Import Prelude GoStd Utf8 Json Jcs.

Definition client : NegativeZero := false.
Definition server : NegativeZero := true.

Definition decodeJCSValue (fuel : nat) (l : text) : result jcs_error (jcs * text) := decode_value (P := client) fuel l.
Definition CanonicalizeJCS (input : text) : result jcs_error text := Jcs.CanonicalizeJCS (P := client) input.

Definition requireCanonicalObject (input : text) : result jcs_error text :=
  canonical ← CanonicalizeJCS input;
  _ ← fail_if ((length canonical <? 2)%nat || negb (match canonical with b :: _ => b =? 123 | [] => false end)
               || negb (bool_decide (canonical = input))) Malformed;
  Ok canonical.

(** [encoded] is what [json.Marshal] returned. *)
Definition marshalCanonical (encoded : option text) : result jcs_error text :=
  match encoded with Some encoded => CanonicalizeJCS encoded | None => Err Malformed end.

(** [decode] reads the object into the target, without unknown fields. Nothing follows
    the object of a canonical text. *)
Definition decodeClosed {A} (decode : text → option A) (input : text) : result jcs_error A :=
  canonical ← requireCanonicalObject input;
  match decode canonical with Some target => Ok target | None => Err Malformed end.

(** ** The two sides agree *)

(** Where the client reads a value, the server reads the same. *)
Definition refines {A} (c s : result jcs_error A) : Prop := ∀ a, c = Ok a → s = Ok a.

Lemma refines_refl {A} (c : result jcs_error A) : refines c c.
Proof. by intros a. Qed.

Lemma refines_bind {A B} (c s : result jcs_error A) (k k' : A → result jcs_error B) :
  refines c s → (∀ a, refines (k a) (k' a)) → refines (c ≫= k) (s ≫= k').
Proof. intros Hc Hk b (a & Ha & Hb)%bind_Ok. apply bind_Ok. exists a. split; [by apply Hc|by apply Hk]. Qed.

#[local] Hint Resolve refines_refl : core.

Lemma read_number_refines l : refines (read_number (P := client) l) (read_number (P := server) l).
Proof.
  unfold read_number. destruct (skip_number l) as [rest|]; [|done]. intros a [Hs [Hz H]%guard_Ok]%guard_Ok. cbn [accept_negative_zero client negb] in Hz.
  rewrite Hs. cbn [fail_if]. rewrite (bind_eq_Ok tt). cbn [accept_negative_zero server negb]. rewrite andb_false_r. exact H.
Qed.

Lemma decode_refines fuel :
  (∀ l, refines (decode_value (P := client) fuel l) (decode_value (P := server) fuel l))
  ∧ (∀ first seen l, refines (decode_members (P := client) fuel first seen l) (decode_members (P := server) fuel first seen l))
  ∧ (∀ first l, refines (decode_items (P := client) fuel first l) (decode_items (P := server) fuel first l)).
Proof.
  induction fuel as [|fuel (IHv & IHm & IHi)]; [done|]. split_and!.
  - intros l. cbn [decode_value]. destruct (skip_space l) as [|b l']; [done|].
    destruct (b =? 123); [by apply refines_bind; [|intros []]|]. destruct (b =? 91); [by apply refines_bind; [|intros []]|].
    destruct (b =? 34); [done|]. destruct (b =? 116); [done|]. destruct (b =? 102); [done|]. destruct (b =? 110); [done|]. apply read_number_refines.
  - intros first seen l. cbn [decode_members]. apply refines_bind; [done|]. intros [rest|l1]; [done|].
    apply refines_bind; [done|]. intros l2. apply refines_bind; [done|]. intros [key l3]. apply refines_bind; [done|]. intros [].
    apply refines_bind; [done|]. intros l4. apply refines_bind; [done|]. intros [item l5]. apply refines_bind; [done|]. by intros [].
  - intros first l. cbn [decode_items]. apply refines_bind; [done|]. intros [rest|l1]; [done|].
    apply refines_bind; [done|]. intros [item l2]. apply refines_bind; [done|]. by intros [].
Qed.

Lemma read_jcs_refines input : refines (read_jcs (P := client) input) (read_jcs (P := server) input).
Proof.
  unfold read_jcs. apply refines_bind; [done|]. intros []. apply refines_bind; [done|]. intros [].
  apply refines_bind; [apply decode_refines|]. by intros [].
Qed.

(** What the server wrote is what the client writes. *)
Lemma client_keeps_canonical input out : Jcs.CanonicalizeJCS (P := server) input = Ok out → CanonicalizeJCS out = Ok out.
Proof.
  unfold CanonicalizeJCS, Jcs.CanonicalizeJCS. intros (v & Hv%read_jcs_wf & [= <-])%bind_Ok.
  by rewrite read_jcs_append, bind_eq_Ok, append_normalize.
Qed.

Lemma client_refines input : refines (CanonicalizeJCS input) (Jcs.CanonicalizeJCS (P := server) input).
Proof. unfold CanonicalizeJCS, Jcs.CanonicalizeJCS. apply refines_bind; [apply read_jcs_refines|done]. Qed.

(** The client and the server agree on canonical texts: where the client accepts a
    text, the server has the same canonical form, and the client accepts whatever the
    server wrote, unchanged. *)
Theorem sides_agree input out :
  (CanonicalizeJCS input = Ok out → Jcs.CanonicalizeJCS (P := server) input = Ok out)
  ∧ (Jcs.CanonicalizeJCS (P := server) input = Ok out → CanonicalizeJCS out = Ok out).
Proof. split; [apply client_refines|apply client_keeps_canonical]. Qed.

(** The texts the client requires are the objects as the server writes them. *)
Theorem required_objects_are_canonical input :
  requireCanonicalObject input = Ok input ↔ ∃ entries, wf (JObject entries) ∧ Jcs.CanonicalizeJCS (P := server) input = Ok input ∧ input = appendJCSValue (JObject entries).
Proof.
  unfold requireCanonicalObject. split.
  - intros (canonical & Hcanon & [Hguard [= ->]]%guard_Ok)%bind_Ok. apply orb_false_iff in Hguard as [Hguard _].
    apply orb_false_iff in Hguard as [_ Hhead%negb_false_iff]. pose proof (client_refines input input Hcanon) as Hserver.
    unfold CanonicalizeJCS, Jcs.CanonicalizeJCS in Hcanon. apply bind_Ok in Hcanon as (v & Hv%read_jcs_wf & [= Hinput]).
    rewrite <- Hinput in Hhead. destruct Hv as [|[]|s Hs|s (Hs & _ & _)|items Hitems|entries H1 H2 H3]; try done.
    + destruct (integer_head s Hs) as (b & l & -> & [->|Hb%andb_true_iff]); [done|]. cbn in Hhead. rewrite !Z.leb_le in Hb. apply Z.eqb_eq in Hhead. lia.
    + exists entries. split_and!; [by constructor|done|done].
  - intros (entries & Hwf & Hserver & ->). rewrite (client_keeps_canonical _ _ Hserver), bind_eq_Ok, (bool_decide_eq_true_2 _ eq_refl).
    cbn [appendJCSValue length]. rewrite length_app. cbn [length]. rewrite (proj2 (Nat.ltb_ge _ _)) by lia. reflexivity.
Qed.

Example negative_zero_differs :
  CanonicalizeJCS (Jcs.Samples.quoted "[-0]") = Err Malformed ∧ Jcs.CanonicalizeJCS (P := server) (Jcs.Samples.quoted "[-0]") = Ok (Jcs.Samples.quoted "[0]").
Proof. split; vm_compute; reflexivity. Qed.

Lemma sides_agree_witness : Jcs.CanonicalizeJCS (P := server) (Jcs.Samples.quoted "{'b':1,'a':[ ]}") = Ok (Jcs.Samples.quoted "{'a':[],'b':1}").
Proof. apply (proj1 (sides_agree _ _)). vm_compute. reflexivity. Defined.

Lemma required_objects_are_canonical_witness : requireCanonicalObject (Jcs.Samples.quoted "{'a':[],'b':1}") = Ok (Jcs.Samples.quoted "{'a':[],'b':1}").
Proof.
  apply (proj2 (required_objects_are_canonical _)). exists [([97], JArray []); ([98], JNumber [49])]. split_and!.
  - apply (read_jcs_wf (P := server) (Jcs.Samples.quoted "{'a':[],'b':1}")). vm_compute. reflexivity.
  - vm_compute. reflexivity.
  - vm_compute. reflexivity.
Defined.
