(* ===== verification/GoTime.v ===== *)
(** * Package time: instants with a zone, and their JSON text

    A [time.Time] whose location matters is its instant (nanoseconds since the
    Unix epoch) with the offset, in seconds east of UTC, that its location has
    at that instant. [time.LoadLocation] reads the time zone database of the
    host: the class [TimeZoneDatabase] gives, for the name of a zone, the
    offset at each instant. *)
From stdpp Require Import pretty.
From S2P Require Import Prelude GoStd.

Record GoTime := mkGoTime {
  GoTime_instant : time;
  GoTime_offset : Z;
}.
#[export] Instance GoTime_eq_dec : EqDecision GoTime.
Proof. solve_decision. Defined.

(** [t.IsZero()] *)
Definition GoTime_IsZero (t : GoTime) : bool := time_is_zero (GoTime_instant t).

Class TimeZoneDatabase := LoadLocation : string → option (time → Z).

(** ** The proleptic Gregorian calendar *)

(** Year, month and day of a number of days since 1970-01-01; the year starts
    in March, so that a leap day is the last day of a year. *)
Definition civil_of_days (days : Z) : Z * Z * Z :=
  let z := days + 719468 in
  let era := z / 146097 in
  let doe := z mod 146097 in
  let yoe := (doe - doe / 1460 + doe / 36524 - doe / 146096) / 365 in
  let doy := doe - (365 * yoe + yoe / 4 - yoe / 100) in
  let mp := (5 * doy + 2) / 153 in
  let month := if mp <? 10 then mp + 3 else mp - 9 in
  (yoe + era * 400 + (if month <=? 2 then 1 else 0), month, doy - (153 * mp + 2) / 5 + 1).

(** [n] decimal digits of a natural number. *)
Fixpoint digits (n : nat) (z : Z) : string :=
  match n with
  | O => ""
  | S n => digits n (z / 10) +:+ String (ascii_of_byte (48 + z mod 10)) ""
  end.

(** Nine fractional digits without the trailing zeros. *)
Fixpoint fraction (n : nat) (z : Z) : string :=
  match n with
  | O => ""
  | S n => if z mod 10 =? 0 then fraction n (z / 10) else digits (S n) z
  end.

(** [t.MarshalJSON()], the strict RFC 3339 text: an error outside the years 0 to
    9999 and for an offset of a day or more. *)
Definition MarshalTime (t : GoTime) : option string :=
  let local := GoTime_instant t + GoTime_offset t * second in
  let days := local / (24 * hour) in
  let clock := local mod (24 * hour) in
  let '(year, month, day) := civil_of_days days in
  let minutes := Z.quot (GoTime_offset t) 60 in
  let nanos := clock mod second in
  if (year <? 0) || (9999 <? year) || (24 * 60 <=? Z.abs minutes) then None
  else Some (json_string (
    digits 4 year +:+ "-" +:+ digits 2 month +:+ "-" +:+ digits 2 day +:+ "T"
    +:+ digits 2 (clock / hour) +:+ ":" +:+ digits 2 (clock / minute mod 60) +:+ ":"
    +:+ digits 2 (clock / second mod 60)
    +:+ (if nanos =? 0 then "" else "." +:+ fraction 9 nanos)
    +:+ (if GoTime_offset t =? 0 then "Z"
         else (if minutes <? 0 then "-" else "+") +:+ digits 2 (Z.abs minutes / 60) +:+ ":"
              +:+ digits 2 (Z.abs minutes mod 60)))).

(** A pointer is [null] or the value. *)
Definition MarshalTimePointer (t : option GoTime) : option string :=
  match t with None => Some "null" | Some t => MarshalTime t end.

Definition MarshalIntPointer (n : option Z) : string :=
  match n with None => "null" | Some n => pretty n end.

Example MarshalTime_leap :
  MarshalTime (mkGoTime (1709213696 * second + 120000000) (8 * 3600))
  = Some (json_string "2024-02-29T21:34:56.12+08:00").
Proof. vm_compute. reflexivity. Qed.

Example MarshalTime_zero : MarshalTime (mkGoTime time_zero 0) = Some (json_string "0001-01-01T00:00:00Z").
Proof. vm_compute. reflexivity. Qed.
