(* ===== verification/Encoding.v ===== *)
(** * Package encoding: base64, hex, RFC 3339 times and JSON into structs

    [base64.RawURLEncoding], [hex.DecodeString], [Time.UnmarshalJSON], and how
    [encoding/json] fills a struct: keys match field names up to case, [null] leaves
    a string or an integer alone, and any mismatch is an error. Texts are lists of
    bytes. *)
From S2P Require Import Prelude GoStd Utf8 Json Jcs GoTime.

(** ** Package encoding/hex *)
Fixpoint hex_decode (l : text) : option text :=
  match l with
  | [] => Some []
  | a :: b :: l =>
    if hex_byte a && hex_byte b then cons (hex_value a * 16 + hex_value b) <$> hex_decode l else None
  | [_] => None
  end.
(** [hex.DecodeString] *)
Definition hex_DecodeString (s : string) : option text := hex_decode (bytes_of s).

(** ** Package encoding/base64: [RawURLEncoding] *)
Definition base64_char (n : Z) : Z :=
  if n <? 26 then 65 + n else if n <? 52 then 71 + n else if n <? 62 then n - 4 else if n =? 62 then 45 else 95.
Definition base64_value (b : Z) : option Z :=
  if in_range 65 b 90 then Some (b - 65) else if in_range 97 b 122 then Some (b - 71)
  else if in_range 48 b 57 then Some (b + 4) else if b =? 45 then Some 62 else if b =? 95 then Some 63 else None.

Fixpoint base64_encode (l : text) : text :=
  match l with
  | [] => []
  | [a] => [base64_char (a / 4); base64_char (a mod 4 * 16)]
  | [a; b] => [base64_char (a / 4); base64_char (a mod 4 * 16 + b / 16); base64_char (b mod 16 * 4)]
  | a :: b :: c :: l =>
    base64_char (a / 4) :: base64_char (a mod 4 * 16 + b / 16) :: base64_char (b mod 16 * 4 + c / 64) :: base64_char (c mod 64)
      :: base64_encode l
  end.

(** The bits beyond the last byte are not looked at. *)
Fixpoint base64_join (l : text) : option text :=
  match l with
  | [] => Some []
  | [_] => None
  | [a; b] => Some [a * 4 + b / 16]
  | [a; b; c] => Some [a * 4 + b / 16; b mod 16 * 16 + c / 4]
  | a :: b :: c :: d :: l =>
    app [a * 4 + b / 16; b mod 16 * 16 + c / 4; c mod 4 * 64 + d] <$> base64_join l
  end.

(** Line ends are skipped wherever they stand. *)
Definition base64_decode (l : text) : option text :=
  values ← mapM base64_value (filter (fun b => b ≠ 10 ∧ b ≠ 13) l); base64_join values.

Definition base64_EncodeToString (l : text) : string := string_of_bytes (base64_encode l).
Definition base64_DecodeString (s : string) : option text := base64_decode (bytes_of s).

Example base64_sample : base64_EncodeToString (bytes_of "foob>?") = "Zm9vYj4_".
Proof. reflexivity. Qed.
Example base64_lenient : base64_DecodeString "Zm8" = base64_DecodeString "Zm9".
Proof. reflexivity. Qed.

(** ** Times *)

(** [getnum]: one or two digits. *)
Definition getnum (fixed : bool) (l : text) : option (Z * text) :=
  match l with
  | a :: l' =>
    if negb (digit a) then None
    else match l' with
         | b :: l'' => if digit b then Some ((a - 48) * 10 + (b - 48), l'') else if fixed then None else Some (a - 48, l')
         | [] => if fixed then None else Some (a - 48, [])
         end
  | [] => None
  end.

Definition skip_byte (b : Z) (l : text) : option text :=
  match l with c :: l' => if c =? b then Some l' else None | [] => None end.

Definition option_guard (b : bool) : option unit := if b then Some tt else None.

Definition leap_year (year : Z) : bool := (year mod 4 =? 0) && (negb (year mod 100 =? 0) || (year mod 400 =? 0)).
Definition days_in (month year : Z) : Z :=
  if month =? 2 then (if leap_year year then 29 else 28)
  else if (month =? 4) || (month =? 6) || (month =? 9) || (month =? 11) then 30 else 31.

(** Days from 1970-01-01; the year starts in March. *)
Definition days_of_civil (year month day : Z) : Z :=
  let y := if month <=? 2 then year - 1 else year in
  let yoe := y mod 400 in
  let mp := if month <=? 2 then month + 9 else month - 3 in
  y / 400 * 146097 + yoe * 365 + yoe / 4 - yoe / 100 + (153 * mp + 2) / 5 + day - 1 - 719468.

Definition digits_of (l : text) : text * text := (take (length l - length (skip_digits l)) l, skip_digits l).

(** A fraction of a second, of which nine digits count. *)
Definition parse_fraction (l : text) : Z * text :=
  match l with
  | p :: d :: _ =>
    if ((p =? 46) || (p =? 44)) && digit d
    then let '(ds, rest) := digits_of (tl l) in
         let ds := take 9 ds in (decimal ds * 10 ^ (9 - Z.of_nat (length ds)), rest)
    else (0, l)
  | _ => (0, l)
  end.

(** The offset of the zone, in seconds, at the end of the text. *)
Definition parse_zone (l : text) : option Z :=
  match l with
  | [90] => Some 0
  | [sign; h1; h2; colon; m1; m2] =>
    _ ← option_guard (colon =? 58);
    '(hr, _) ← getnum true [h1; h2];
    '(mm, _) ← getnum true [m1; m2];
    _ ← option_guard ((hr <=? 24) && (mm <=? 60));
    let offset := (hr * 60 + mm) * 60 in
    if sign =? 43 then Some offset else if sign =? 45 then Some (- offset) else None
  | _ => None
  end.

(** [time.Parse(time.RFC3339, s)], the superset [UnmarshalJSON] accepts: an hour of
    one digit and a comma before the fraction pass. *)
Definition parse_rfc3339 (l : text) : option GoTime :=
  match l with
  | y1 :: y2 :: y3 :: y4 :: l =>
    _ ← option_guard (forallb digit [y1; y2; y3; y4]);
    l ← skip_byte 45 l; '(month, l) ← getnum true l; _ ← option_guard (in_range 1 month 12);
    l ← skip_byte 45 l; '(day, l) ← getnum true l;
    l ← skip_byte 84 l; '(hour_, l) ← getnum false l; _ ← option_guard (hour_ <? 24);
    l ← skip_byte 58 l; '(min, l) ← getnum true l; _ ← option_guard (min <? 60);
    l ← skip_byte 58 l; '(sec, l) ← getnum true l; _ ← option_guard (sec <? 60);
    let '(nanos, l) := parse_fraction l in
    offset ← parse_zone l;
    let year := decimal [y1; y2; y3; y4] in
    _ ← option_guard (in_range 1 day (days_in month year));
    Some (mkGoTime ((days_of_civil year month day * 86400 + hour_ * 3600 + min * 60 + sec - offset) * second + nanos) offset)
  | _ => None
  end.

Example parse_rfc3339_leap :
  (t ← parse_rfc3339 (bytes_of "2024-02-29T21:34:56.12+08:00"); MarshalTime t) = Some (json_string "2024-02-29T21:34:56.12+08:00").
Proof. vm_compute. reflexivity. Qed.
Example parse_rfc3339_day : parse_rfc3339 (bytes_of "2023-02-29T00:00:00Z") = None.
Proof. reflexivity. Qed.

(** ** Values of [encoding/json] *)

(** The raw text of a value, and of every member, is kept with it. *)
Inductive json : Type :=
| Null
| Bool (b : bool)
| Str (s : text)
| Num (s : text)
| Arr (items : list (text * json))
| Obj (members : list (text * (text * json))).

Definition consumed (before after : text) : text := take (length before - length after) before.

(** One value; [depth] is that of the enclosing one. *)
Fixpoint json_value (fuel : nat) (depth : Z) (l : text) : option ((text * json) * text) :=
  match fuel with
  | O => None
  | S fuel =>
    let l := skip_space l in
    '(v, rest) ←
      match l with
      | [] => None
      | b :: l' =>
        if b =? 123 then _ ← option_guard (depth <? 10000); '(ms, rest) ← json_members fuel (depth + 1) true l'; Some (Obj ms, rest)
        else if b =? 91 then _ ← option_guard (depth <? 10000); '(vs, rest) ← json_items fuel (depth + 1) true l'; Some (Arr vs, rest)
        else if b =? 34 then '(s, rest) ← unquote_bytes l'; Some (Str (to_valid_utf8 s), rest)
        else if b =? 116 then rest ← skip_literal [114; 117; 101] l'; Some (Bool true, rest)
        else if b =? 102 then rest ← skip_literal [97; 108; 115; 101] l'; Some (Bool false, rest)
        else if b =? 110 then rest ← skip_literal [117; 108; 108] l'; Some (Null, rest)
        else rest ← skip_number l; Some (Num (consumed l rest), rest)
      end;
    Some ((consumed l rest, v), rest)
  end
with json_members (fuel : nat) (depth : Z) (first : bool) (l : text) : option (list (text * (text * json)) * text) :=
  match fuel with
  | O => None
  | S fuel =>
    match next_part 125 first l with
    | Err _ => None
    | Ok (inl rest) => Some ([], rest)
    | Ok (inr l) =>
      l ← skip_byte 34 (skip_space l);
      '(key, l) ← unquote_bytes l;
      l ← skip_byte 58 (skip_space l);
      '(v, l) ← json_value fuel depth l;
      '(ms, l) ← json_members fuel depth false l;
      Some ((to_valid_utf8 key, v) :: ms, l)
    end
  end
with json_items (fuel : nat) (depth : Z) (first : bool) (l : text) : option (list (text * json) * text) :=
  match fuel with
  | O => None
  | S fuel =>
    match next_part 93 first l with
    | Err _ => None
    | Ok (inl rest) => Some ([], rest)
    | Ok (inr l) =>
      '(v, l) ← json_value fuel depth l;
      '(vs, l) ← json_items fuel depth false l;
      Some (v :: vs, l)
    end
  end.

(** The first value of a text, as [Decoder.Decode] reads it. *)
Definition json_first (l : text) : option ((text * json) * text) := json_value (2 * length l + 1) 0 l.

(** [json.Unmarshal] into a map of [json.RawMessage]. *)
Definition json_fields (l : text) : option (list (text * (text * json))) :=
  '((_, v), rest) ← json_first l;
  _ ← option_guard (is_nil (skip_space rest));
  match v with Obj ms => Some ms | Null => Some [] | _ => None end.

(** ** Structs *)

(** [foldName], as far as names in ASCII can be equal to it: the Kelvin sign and the
    long s fold to letters. *)
Definition fold_name_rune (r : Z) : Z :=
  if in_range 97 r 122 then r - 32 else if r =? 383 then 83 else if r =? 8490 then 75 else r.
Definition fold_name (key : text) : list Z := fold_name_rune <$> (decode_runes key).*1.
Definition names_field (name : string) (key : text) : bool := bool_decide (fold_name key = fold_name (bytes_of name)).

Definition members : Type := list (text * (text * json)).

(** The field [name]: each of its members is read over the value so far. *)
Definition read_field {A} (read : A → text * json → option A) (zero : A) (name : string) (ms : members) : option A :=
  foldl (fun current m => a ← current; if names_field name m.1 then read a m.2 else Some a) (Some zero) ms.

(** [DisallowUnknownFields] *)
Definition known_fields (names : list string) (ms : members) : bool :=
  forallb (fun m : text * (text * json) => existsb (fun name => names_field name m.1) names) ms.

Definition read_string_field (current : string) (v : text * json) : option string :=
  match v.2 with Str s => Some (string_of_bytes s) | Null => Some current | _ => None end.
Definition read_int_field (current : Z) (v : text * json) : option Z :=
  match v.2 with
  | Num s => if canonicalInteger s && in_int64 (integer_value s) then Some (integer_value s) else None
  | Null => Some current
  | _ => None
  end.
(** A [json.RawMessage]: [null] is a message too. *)
Definition read_raw_field (_ : text) (v : text * json) : option text := Some v.1.
(** [Time.UnmarshalJSON] on the text between the quotes *)
Definition unmarshal_time (raw : text) : option GoTime :=
  match raw with b :: rest => _ ← option_guard ((b =? 34) && bool_decide (last rest = Some 34)); parse_rfc3339 (removelast rest) | [] => None end.
(** A pointer to a time. *)
Definition read_time_pointer (_ : option GoTime) (v : text * json) : option (option GoTime) :=
  match v.2 with Null => Some None | _ => Some <$> unmarshal_time v.1 end.
Definition read_time_field (current : GoTime) (v : text * json) : option GoTime :=
  match v.2 with Null => Some current | _ => unmarshal_time v.1 end.

Example json_first_sample :
  (ms ← json_fields (bytes_of "{ } "); Some (length ms)) = Some 0%nat.
Proof. reflexivity. Qed.
Example names_field_kelvin : names_field "kind" ([226; 132; 170] ++ bytes_of "IND") = true.
Proof. reflexivity. Qed.

(** ** What [json.Marshal] writes is read back *)
Lemma bytes_of_app s t : bytes_of (s +:+ t) = bytes_of s ++ bytes_of t.
Proof. induction s as [|a s IH]; [done|]. change (byte_of a :: bytes_of (s +:+ t) = byte_of a :: bytes_of s ++ bytes_of t). by rewrite IH. Qed.

Lemma bytes_of_concat l : bytes_of (join "" l) = concat (bytes_of <$> l).
Proof.
  induction l as [|s l IH]; [done|]. destruct l as [|t l]; [cbn; by rewrite app_nil_r|].
  change (join "" (s :: t :: l)) with (s +:+ "" +:+ join "" (t :: l)). rewrite !bytes_of_app, IH. done.
Qed.

Lemma bytes_of_separated l : bytes_of (join "," l) = separated (bytes_of <$> l).
Proof.
  induction l as [|s l IH]; [done|]. destruct l as [|t l]; [done|].
  change (join "," (s :: t :: l)) with (s +:+ "," +:+ join "," (t :: l)). rewrite !bytes_of_app, IH. done.
Qed.

(** A rune as [json.Marshal] writes it. *)
Definition html_rune (r : Z) : text := bytes_of (json_escape (r, encode_rune r)).

(** One of the three shapes, checked. *)
Definition escaped_shape (r : Z) (t : text) : bool :=
  match t with
  | [92; e] => negb (e =? 117) && bool_decide (simple_escape e = Some r) && bool_decide (encode_rune r = [r])
  | [92; 117; a; b; c; d] => bool_decide (hex4 a b c d = Some r)
  | _ => bool_decide (t = encode_rune r) && forallb (fun b => (32 <=? b) && negb (b =? 34) && negb (b =? 92)) t
  end.

Lemma escaped_shape_spec r t : escaped_shape r t = true → escaped r t.
Proof.
  assert (bool_decide (t = encode_rune r) && forallb (fun b => (32 <=? b) && negb (b =? 34) && negb (b =? 92)) t = true → escaped r t) as Hplain.
  { intros [->%bool_decide_eq_true Ht]%andb_true_iff. apply escaped_plain. apply Forall_forall. intros b Hb.
    rewrite forallb_forall in Ht. specialize (Ht b ltac:(by apply list_elem_of_In)). bool_prop. done. }
  unfold escaped_shape. destruct t as [|b t]; [exact Hplain|].
  destruct b as [|p|p]; [exact Hplain| |exact Hplain]. do 7 (destruct p as [p|p|]; try exact Hplain).
  destruct t as [|e t]; [exact Hplain|]. destruct t as [|a t].
  - clear Hplain. intros H. assert (negb (e =? 117) && bool_decide (simple_escape e = Some r) && bool_decide (encode_rune r = [r]) = true) as He.
    { destruct e as [|p|p]; [done| |done]. do 7 (destruct p as [p|p|]; try exact H). }
    clear H. bool_prop. by apply escaped_simple.
  - destruct e as [|p|p]; [exact Hplain| |exact Hplain]. do 7 (destruct p as [p|p|]; try exact Hplain).
    destruct t as [|b [|c [|d [|x t]]]]; try exact Hplain. intros H%bool_decide_eq_true. by apply escaped_hex.
Qed.

Lemma ascii_cases (P : Z → bool) r : forallb P (seqZ 0 128) = true → 0 <= r < 128 → P r = true.
Proof. rewrite forallb_forall. intros Hall Hr. apply Hall, list_elem_of_In, elem_of_seqZ. lia. Qed.

(** Beyond ASCII only the two line separators are escaped. *)
Lemma html_rune_high r : scalar r → 128 <= r → r ≠ 8232 → r ≠ 8233 → html_rune r = encode_rune r.
Proof.
  intros Hr Hhigh H1 H2. unfold html_rune, json_escape.
  assert ((r =? rune_error) && (length (encode_rune r) =? 1)%nat = false) as ->.
  { destruct (Z.eqb_spec r rune_error) as [->|]; done. }
  repeat (rewrite (proj2 (Z.eqb_neq r _)) by lia). rewrite (proj2 (Z.ltb_ge r 32)) by lia. cbn [orb].
  apply bytes_of_string, encode_rune_ok.
Qed.

Lemma html_rune_escaped r : scalar r → escaped r (html_rune r).
Proof.
  intros Hr. destruct (Z.lt_ge_cases r 128) as [Hlow|Hhigh].
  - apply escaped_shape_spec. refine (ascii_cases (fun r => escaped_shape r (html_rune r)) r _ _); [vm_compute; reflexivity|destruct Hr; lia].
  - destruct (Z.eq_dec r 8232) as [->|H1]; [by apply escaped_shape_spec|]. destruct (Z.eq_dec r 8233) as [->|H2]; [by apply escaped_shape_spec|].
    rewrite html_rune_high by done. apply escaped_plain, encode_rune_plain; [done|lia..].
Qed.

Lemma html_escapes : escapes html_rune.
Proof. apply escaped_escapes, html_rune_escaped. Qed.

(** A string is marshalled as a written string. *)
Lemma json_string_bytes s : valid_text (bytes_of s) → bytes_of (json_string s) = write_string html_rune (bytes_of s).
Proof.
  intros (rs & Hrs & Hs). unfold json_string, write_string, runes. rewrite !bytes_of_app, bytes_of_concat, Hs.
  rewrite decoded_runes, decode_encode_runes by done. rewrite <- !list_fmap_compose. done.
Qed.

(** *** [json.Compact] of a canonical text *)
Lemma compact_plain in_string escaped b l :
  b ≠ 60 → b ≠ 62 → b ≠ 38 → b ≠ 226 → (in_string = false → json_space b = false) →
  compact_json in_string escaped (b :: l)
  = b :: compact_json (xorb in_string ((b =? 34) && negb escaped)) (in_string && (b =? 92) && negb escaped) l.
Proof.
  intros H1 H2 H3 H4 Hspace. cbn [compact_json]. assert (negb in_string && json_space b = false) as -> by (destruct in_string; auto).
  rewrite !(proj2 (Z.eqb_neq b _)) by done. cbn [orb].
  destruct b as [|p|p]; [done| |done]. do 8 (destruct p as [p|p|]; try done).
Qed.

Lemma compact_226 b1 b2 l :
  ¬ (b1 = 128 ∧ (b2 = 168 ∨ b2 = 169)) →
  compact_json true false (226 :: b1 :: b2 :: l) = 226 :: compact_json true false (b1 :: b2 :: l).
Proof.
  intros Hne. destruct (Z.eq_dec b1 128) as [->|H1].
  - destruct b2 as [|p|p]; [done| |done]. do 8 (destruct p as [p|p|]; try reflexivity); exfalso; naive_solver.
  - destruct b1 as [|p|p]; [done| |done]. do 8 (destruct p as [p|p|]; try reflexivity). done.
Qed.

Lemma compact_high b l : 128 <= b → b ≠ 226 → compact_json true false (b :: l) = b :: compact_json true false l.
Proof.
  intros Hb Hne. rewrite compact_plain by (done || lia). rewrite (proj2 (Z.eqb_neq b 34)), (proj2 (Z.eqb_neq b 92)) by lia. done.
Qed.

Lemma compact_rune r l : scalar r → compact_json true false (escape_rune r ++ l) = html_rune r ++ compact_json true false l.
Proof.
  intros Hr. destruct (Z.lt_ge_cases r 128) as [Hlow|Hhigh].
  - assert (In r (seqZ 0 128)) as Hin by (apply list_elem_of_In, elem_of_seqZ; destruct Hr; lia).
    clear Hr Hlow. revert l. cbv in Hin. repeat (destruct Hin as [<-|Hin]; [intros l; reflexivity|]). done.
  - assert (escape_rune r = encode_rune r) as ->.
    { unfold escape_rune. repeat (rewrite (proj2 (Z.eqb_neq r _)) by lia). by rewrite (proj2 (Z.ltb_ge r 32)) by lia. }
    destruct (Z.eq_dec r 8232) as [->|H1]; [reflexivity|]. destruct (Z.eq_dec r 8233) as [->|H2]; [reflexivity|].
    rewrite html_rune_high by done. destruct (encode_rune_cases r Hr) as [[Hb ->]|[[Hb ->]|[[Hb ->]|[Hb ->]]]]; [lia|..]; cbn [app].
    + rewrite !compact_high by div_lia. done.
    + destruct (Z.eq_dec (224 + r / 4096) 226) as [Heq|Hne].
      * rewrite Heq, compact_226 by div_lia. rewrite !compact_high by div_lia. done.
      * rewrite !compact_high by div_lia. done.
    + rewrite !compact_high by div_lia. done.
Qed.

Lemma compact_byte b l : b ≠ 60 → b ≠ 62 → b ≠ 38 → b ≠ 226 → b ≠ 34 → json_space b = false →
  compact_json false false (b :: l) = b :: compact_json false false l.
Proof. intros. rewrite compact_plain by done. by rewrite (proj2 (Z.eqb_neq b 34)). Qed.

Lemma compact_string s l :
  valid_text s → compact_json false false (write_string escape_rune s ++ l) = write_string html_rune s ++ compact_json false false l.
Proof.
  intros [Hrs _]%valid_text_runes. unfold write_string. cbn [app]. rewrite compact_plain by done. f_equal. cbn [xorb Z.eqb Pos.eqb negb andb].
  rewrite <- !app_assoc. cbn [app]. induction Hrs as [|r rs Hr _ IH]; cbn [fmap list_fmap concat app].
  - rewrite compact_plain by done. done.
  - by rewrite <- !app_assoc, compact_rune, IH.
Qed.

(** A canonical text only changes in its strings. *)
Lemma compact_value v : wf v → ∀ l, compact_json false false (write escape_rune v ++ l) = write html_rune v ++ compact_json false false l.
Proof.
  assert (∀ (A : Type) (f g : A → text) xs l, Forall (fun x => ∀ l, compact_json false false (f x ++ l) = g x ++ compact_json false false l) xs →
    compact_json false false (separated (map f xs) ++ l) = separated (map g xs) ++ compact_json false false l) as Hsep.
  { intros A f g xs l Hxs. destruct Hxs as [|x xs Hx Hxs]; [done|]. cbn [map]. rewrite !separated_cons, <- !app_assoc, Hx. f_equal.
    induction Hxs as [|y xs Hy _ IH]; [done|]. cbn [map tail fmap list_fmap concat app]. rewrite compact_byte by done.
    rewrite <- !app_assoc, Hy. do 2 f_equal. exact IH. }
  induction v as [|b|s|s|items IH|entries IH] using jcs_nested; intros Hwf l.
  - done.
  - by destruct b.
  - inversion_clear Hwf as [| |? Hs| | |]. by apply compact_string.
  - inversion_clear Hwf as [| | |? Hs| |]. destruct Hs as (Hs%integer_bytes & _ & _). cbn [write].
    induction Hs as [|b s Hb _ IHs]; [done|]. cbn [app]. rewrite compact_byte; [by rewrite IHs|lia..|].
    unfold json_space. repeat (rewrite (proj2 (Z.eqb_neq b _)) by lia). done.
  - inversion_clear Hwf as [| | | |? Hitems|]. cbn [write app]. rewrite compact_byte, <- !app_assoc by done. f_equal.
    rewrite (Hsep _ (write escape_rune) (write html_rune)); [cbn [app]; by rewrite compact_byte|]. rewrite Forall_forall in *. intros v Hv. by apply IH, Hitems.
  - inversion_clear Hwf as [| | | | |? Hkeys Hdup Hvals]. cbn [write app]. rewrite compact_byte, <- !app_assoc by done. f_equal.
    erewrite Hsep; [cbn [app]; by rewrite compact_byte|]. rewrite Forall_forall in *. intros e He l'. rewrite <- !app_assoc, compact_string by by apply Hkeys.
    cbn [app]. rewrite compact_byte by done. f_equal. f_equal. by apply IH, Hvals.
Qed.

(** A canonical text, marshalled as a [json.RawMessage]. *)
Lemma json_raw_bytes v : wf v → bytes_of (json_raw (string_of_bytes (appendJCSValue v))) = write html_rune (normalize v).
Proof.
  intros Hwf. pose proof (valid_text_ok _ (append_valid v Hwf)) as Hok. unfold json_raw. rewrite decide_False.
  2:{ intros He%(f_equal bytes_of). rewrite bytes_of_string in He by done. rewrite append_write in He.
      destruct (write_head escape_rune _ (normalize_wf v Hwf)) as (b & l & Hw & _). by rewrite Hw in He. }
  rewrite (bytes_of_string (appendJCSValue v)) by done. pose proof (compact_value (normalize v) (normalize_wf v Hwf) []) as Hc.
  rewrite !app_nil_r in Hc. rewrite append_write, Hc. apply bytes_of_string, valid_text_ok, write_valid; [apply html_escapes|by apply normalize_wf].
Qed.

(** *** Text in ASCII *)
Definition ascii_text (l : text) : Prop := Forall (fun b => 0 <= b < 128) l.

Lemma ascii_app l1 l2 : ascii_text l1 → ascii_text l2 → ascii_text (l1 ++ l2).
Proof. intros. by apply Forall_app. Qed.

Lemma ascii_bytes_app s t : ascii_text (bytes_of s) → ascii_text (bytes_of t) → ascii_text (bytes_of (s +:+ t)).
Proof. rewrite bytes_of_app. apply ascii_app. Qed.

Lemma ascii_check l : forallb (fun b => (0 <=? b) && (b <? 128)) l = true → ascii_text l.
Proof.
  rewrite forallb_forall. intros H. apply Forall_forall. intros b Hb. specialize (H b ltac:(by apply list_elem_of_In)). bool_prop. lia.
Qed.

Lemma digits_ascii n z : ascii_text (bytes_of (digits n z)).
Proof.
  revert z. induction n as [|n IH]; intros z; [constructor|]. cbn [digits]. apply ascii_bytes_app; [apply IH|].
  unfold bytes_of. cbn. constructor; [|constructor]. unfold byte_of, ascii_of_byte. rewrite Ascii.N_ascii_embedding; div_lia.
Qed.

Lemma fraction_ascii n z : ascii_text (bytes_of (fraction n z)).
Proof. revert z. induction n as [|n IH]; intros z; [constructor|]. cbn [fraction]. destruct (_ =? 0); [apply IH|apply digits_ascii]. Qed.

#[local] Opaque digits fraction.

(** A time is marshalled as a string. *)
Lemma MarshalTime_string t s : MarshalTime t = Some s → ∃ u, s = json_string u ∧ ascii_text (bytes_of u).
Proof.
  unfold MarshalTime. destruct (civil_of_days _) as [[year month] day]. destruct (_ || _); [done|]. intros [= <-]. eexists. split; [done|].
  repeat first [apply digits_ascii|apply fraction_ascii|apply ascii_check; reflexivity|apply ascii_bytes_app
    |match goal with |- context [if ?b then _ else _] => destruct b end].
Qed.

Lemma ascii_valid l : ascii_text l → valid_text l.
Proof. apply valid_text_ascii. Qed.

(** *** Base64 *)
Fixpoint sextets (l : text) : text :=
  match l with
  | [] => []
  | [a] => [a / 4; a mod 4 * 16]
  | [a; b] => [a / 4; a mod 4 * 16 + b / 16; b mod 16 * 4]
  | a :: b :: c :: l => a / 4 :: a mod 4 * 16 + b / 16 :: b mod 16 * 4 + c / 64 :: c mod 64 :: sextets l
  end.

Lemma sextets_spec l : Forall byte_ok l →
  base64_encode l = base64_char <$> sextets l ∧ Forall (fun n => 0 <= n < 64) (sextets l) ∧ base64_join (sextets l) = Some l.
Proof.
  induction l as [l IH] using (induction_ltof1 _ length). unfold ltof, byte_ok in *.
  destruct l as [|a [|b [|c l]]]; intros Hl; rewrite ?Forall_cons in Hl.
  - done.
  - destruct Hl as [Ha _]. split_and!; [done|repeat constructor; div_lia|]. cbn. do 2 f_equal. div_lia.
  - destruct Hl as (Ha & Hb & _). split_and!; [done|repeat constructor; div_lia|]. cbn. do 2 f_equal; [|f_equal]; div_lia.
  - destruct Hl as (Ha & Hb & Hc & Hl). destruct (IH l ltac:(cbn; lia) Hl) as (IH1 & IH2 & IH3). split_and!.
    + cbn [base64_encode sextets fmap list_fmap]. by rewrite IH1.
    + cbn [sextets]. do 4 (constructor; [div_lia|]). done.
    + cbn [sextets base64_join]. destruct (sextets l) as [|x xs] eqn:Hx; [destruct l as [|? [|? [|? ?]]]; [|done..]|]; rewrite IH3; cbn;
        do 2 f_equal; try div_lia; f_equal; try div_lia; f_equal; div_lia.
Qed.

Lemma base64_char_value n : 0 <= n < 64 →
  base64_value (base64_char n) = Some n ∧ 0 <= base64_char n < 128 ∧ base64_char n ≠ 10 ∧ base64_char n ≠ 13.
Proof.
  intros Hn. assert (forallb (fun n => bool_decide (base64_value (base64_char n) = Some n) && (0 <=? base64_char n) && (base64_char n <? 128)
    && negb (base64_char n =? 10) && negb (base64_char n =? 13)) (seqZ 0 64) = true) as Hall by (vm_compute; reflexivity).
  rewrite forallb_forall in Hall. specialize (Hall n ltac:(apply list_elem_of_In, elem_of_seqZ; lia)). bool_prop. done.
Qed.

Lemma base64_roundtrip l : Forall byte_ok l → base64_decode (base64_encode l) = Some l.
Proof.
  intros (-> & Hrange & Hjoin)%sextets_spec. unfold base64_decode.
  assert (filter (fun b => b ≠ 10 ∧ b ≠ 13) (base64_char <$> sextets l) = base64_char <$> sextets l) as ->.
  { clear Hjoin. induction Hrange as [|n ns Hn _ IH]; [done|]. rewrite fmap_cons, filter_cons_True, IH; [done|]. apply base64_char_value. done. }
  assert (mapM base64_value (base64_char <$> sextets l) = Some (sextets l)) as ->; [|done].
  clear Hjoin. induction Hrange as [|n ns Hn _ IH]; [done|]. rewrite fmap_cons. cbn. rewrite (proj1 (base64_char_value n Hn)). cbn.
  by rewrite IH.
Qed.

Lemma base64_ascii l : Forall byte_ok l → ascii_text (base64_encode l).
Proof.
  intros (-> & Hrange & _)%sextets_spec. induction Hrange as [|n ns Hn _ IH]; [constructor|]. rewrite fmap_cons.
  constructor; [by apply base64_char_value|done].
Qed.

Lemma ascii_bytes_ok l : ascii_text l → Forall byte_ok l.
Proof. intros H. eapply Forall_impl; [exact H|]. unfold byte_ok. intros; lia. Qed.

(** *** A time that was read in UTC can be written *)
Lemma days_of_civil_bounds year month day :
  0 <= year <= 9999 → 1 <= month <= 12 → 1 <= day <= 31 → -719528 <= days_of_civil year month day <= 2932896.
Proof.
  intros Hy Hm Hd. unfold days_of_civil. cbv zeta. destruct (Z.leb_spec month 2) as [Hle|Hgt].
  - assert (-1 <= year - 1 <= 9998) as Hy1 by lia. clear Hy. revert Hy1. generalize (year - 1) as y. intros y Hy.
    assert (306 <= (153 * (month + 9) + 2) / 5 <= 337) by div_lia. revert H. generalize ((153 * (month + 9) + 2) / 5). intros k Hk. div_lia.
  - assert (0 <= (153 * (month - 3) + 2) / 5 <= 275) by div_lia. revert H. generalize ((153 * (month - 3) + 2) / 5). intros k Hk. div_lia.
Qed.

Lemma year_of_era doe : 0 <= doe < 146097 → 0 <= (doe - doe / 1460 + doe / 36524 - doe / 146096) / 365 <= 399.
Proof. intros. div_lia. Qed.

(** The years that start after the end of February, at the ends of the range. *)
Lemma last_year_of_era doe yoe :
  0 <= doe < 146097 → yoe = (doe - doe / 1460 + doe / 36524 - doe / 146096) / 365 →
  (146037 <= doe → yoe = 399) ∧
  (yoe = 399 → doe - (365 * yoe + yoe / 4 - yoe / 100) = doe - 145731 ∧ 145731 <= doe).
Proof. intros Hd ->. split; [intros; div_lia|]. intros Heq. rewrite Heq. split; [reflexivity|]. revert Heq. div_lia. Qed.

Lemma civil_of_days_bounds days : -719528 <= days <= 2932896 → 0 <= (civil_of_days days).1.1 <= 9999.
Proof.
  intros Hd. unfold civil_of_days. cbv zeta. cbn [fst].
  assert (-60 <= days + 719468 <= 3652364) as Hz by lia. revert Hz. generalize (days + 719468). clear Hd days. intros z Hz.
  pose proof (Z.mod_pos_bound z 146097 ltac:(lia)) as Hdoe. pose proof (Z.div_mod z 146097 ltac:(lia)) as Hdiv.
  revert Hdoe Hdiv. generalize (z mod 146097), (z / 146097). intros doe era Hdoe Hdiv.
  pose proof (year_of_era doe Hdoe) as Hyoe. destruct (last_year_of_era doe _ Hdoe eq_refl) as [Hlast Hdoy].
  revert Hyoe Hlast Hdoy. generalize ((doe - doe / 1460 + doe / 36524 - doe / 146096) / 365). intros yoe Hyoe Hlast Hdoy.
  assert (-1 <= era <= 24) as Hera by lia.
  assert (era = -1 ∨ 0 <= era <= 23 ∨ era = 24) as [->|[He| ->]] by lia.
  - specialize (Hlast ltac:(lia)) as ->. destruct (Hdoy eq_refl) as [-> Hstart]. clear Hdoy Hyoe.
    assert (10 <= (5 * (doe - 145731) + 2) / 153 <= 11) as Hmp by div_lia. revert Hmp. generalize ((5 * (doe - 145731) + 2) / 153).
    intros mp Hmp. destruct (Z.ltb_spec mp 10); [lia|]. destruct (Z.leb_spec (mp - 9) 2); lia.
  - destruct (_ <=? 2); lia.
  - destruct (Z.eq_dec yoe 399) as [->|Hne]; [|destruct (_ <=? 2); lia]. destruct (Hdoy eq_refl) as [-> Hstart]. clear Hdoy Hyoe.
    assert (0 <= (5 * (doe - 145731) + 2) / 153 <= 9) as Hmp by div_lia. revert Hmp. generalize ((5 * (doe - 145731) + 2) / 153).
    intros mp Hmp. destruct (Z.ltb_spec mp 10); [|lia]. destruct (Z.leb_spec (mp + 3) 2); lia.
Qed.

Lemma getnum_range fixed l n rest : getnum fixed l = Some (n, rest) → 0 <= n <= 99.
Proof.
  unfold getnum, digit, in_range. destruct l as [|a l]; [done|]. destruct ((48 <=? a) && (a <=? 57)) eqn:Ha; [|done].
  destruct l as [|b l]; [destruct fixed; [done|]; intros [= <- _]; bool_prop; lia|].
  destruct ((48 <=? b) && (b <=? 57)) eqn:Hb; [intros [= <- _]; bool_prop; lia|].
  destruct fixed; [done|]. intros [= <- _]. bool_prop. lia.
Qed.

Lemma decimal_bound ds : forallb digit ds = true → 0 <= decimal ds < 10 ^ Z.of_nat (length ds).
Proof.
  induction ds as [|d ds IH] using rev_ind; [done|]. rewrite forallb_app, decimal_app, length_app. cbn.
  intros [Hds Hd]%andb_true_iff. rewrite andb_true_r in Hd. unfold digit in Hd. split_bools. specialize (IH Hds).
  rewrite Nat2Z.inj_add, Z.pow_add_r by lia. change (10 ^ Z.of_nat 1) with 10. lia.
Qed.

Lemma digits_of_digits l : forallb digit (digits_of l).1 = true.
Proof.
  unfold digits_of. cbn [fst]. induction l as [|b l IH]; [done|]. cbn [skip_digits]. destruct (digit b) eqn:Hb.
  - pose proof (skip_digits_le l). cbn [length]. rewrite Nat.sub_succ_l by done. cbn [take forallb]. by rewrite Hb.
  - by rewrite Nat.sub_diag.
Qed.

Lemma forallb_take {A} (f : A → bool) n l : forallb f l = true → forallb f (take n l) = true.
Proof. revert n. induction l as [|x l IH]; intros [|n]; cbn; try done. intros [-> H]%andb_true_iff. by apply IH. Qed.

Lemma parse_fraction_range l nanos rest : parse_fraction l = (nanos, rest) → 0 <= nanos < second.
Proof.
  assert (0 <= 0 < second) as Hzero by done. unfold parse_fraction. destruct l as [|p [|d l]]; [by intros [= <- _]..|].
  destruct (_ && _); [|by intros [= <- _]]. pose proof (digits_of_digits (tl (p :: d :: l))) as Hds.
  destruct (digits_of _) as [ds r]. cbn [fst] in Hds. intros [= <- _].
  pose proof (decimal_bound _ (forallb_take _ 9 _ Hds)) as Hbound.
  assert (length (take 9 ds) <= 9)%nat as Hlen by (rewrite length_take; lia). revert Hbound Hlen.
  generalize (decimal (take 9 ds)), (length (take 9 ds)). intros v n Hv Hn.
  assert (10 ^ Z.of_nat n * 10 ^ (9 - Z.of_nat n) = second) as Hpow.
  { rewrite <- Z.pow_add_r by lia. replace (Z.of_nat n + (9 - Z.of_nat n)) with 9 by lia. done. }
  pose proof (Z.pow_pos_nonneg 10 (9 - Z.of_nat n) ltac:(lia) ltac:(lia)). nia.
Qed.


Lemma option_guard_Some b u : option_guard b = Some u ↔ b = true.
Proof. destruct b, u; naive_solver. Qed.

Lemma days_in_31 month year : days_in month year <= 31.
Proof. unfold days_in. repeat case_match; lia. Qed.

(** What was read from an RFC 3339 text in UTC, field by field. *)
Lemma parse_rfc3339_range l t : parse_rfc3339 l = Some t → GoTime_offset t = 0 →
  ∃ days clock, -719528 <= days <= 2932896 ∧ 0 <= clock < 24 * hour ∧ GoTime_instant t = days * (24 * hour) + clock.
Proof.
  unfold parse_rfc3339. destruct l as [|y1 [|y2 [|y3 [|y4 l]]]]; try done. intros H1 H0.
  repeat match goal with
  | H : (_ ≫= _) = Some _ |- _ => apply option_bind_Some in H as (? & ? & H)
  | p : (Z * text)%type |- _ => destruct p
  | H : option_guard _ = Some _ |- _ => apply option_guard_Some in H
  | H : getnum _ _ = Some _ |- _ => apply getnum_range in H
  | H : context [parse_fraction ?l] |- _ => let Hf := fresh "Hf" in destruct (parse_fraction l) eqn:Hf; apply parse_fraction_range in Hf
  end.
  unfold in_range in *. split_bools. injection H1 as <-. cbn [GoTime_offset GoTime_instant] in *. subst.
  match goal with H : forallb digit ?ds = true |- _ =>
    pose proof (decimal_bound ds H) as Hy; change (10 ^ Z.of_nat (length ds)) with 10000 in Hy end.
  lazymatch goal with
  | Hd : ?d <= days_in ?m ?y, Hm1 : 1 <= ?m, Hm2 : ?m <= 12, Hd1 : 1 <= ?d, Hy : 0 <= ?y < _ |- _ =>
    assert (d <= 31) by (pose proof (days_in_31 m y); lia);
    pose proof (days_of_civil_bounds y m d ltac:(lia) ltac:(lia) ltac:(lia)) as Hdays;
    revert Hdays; generalize (days_of_civil y m d); intros days Hdays
  end.
  match goal with Hf : 0 <= ?f < second |- context [?days * 86400 + ?h * 3600 + ?m * 60 + ?s] =>
    exists days, ((h * 3600 + m * 60 + s) * second + f) end.
  unfold hour, minute, second in *. split_and!; lia.
Qed.

Lemma parsed_time_marshals l t : parse_rfc3339 l = Some t → GoTime_offset t = 0 → is_Some (MarshalTime t).
Proof.
  intros Hp Hu. destruct (parse_rfc3339_range l t Hp Hu) as (days & clock & Hdays & Hclock & Heq).
  unfold MarshalTime. rewrite Hu, Heq, Z.mul_0_l, Z.add_0_r.
  replace ((days * (24 * hour) + clock) / (24 * hour)) with days by (rewrite Z.div_add_l, Z.div_small; unfold hour, minute, second in *; lia).
  pose proof (civil_of_days_bounds days Hdays) as Hyear. destruct (civil_of_days days) as [[year month] day]. cbn [fst] in Hyear.
  rewrite (proj2 (Z.ltb_ge year 0)), (proj2 (Z.ltb_ge 9999 year)) by lia. by eexists.
Qed.

(** ** The fuel of [json_first] *)

(** A reader of the text [l] that does not depend on its fuel and consumes. *)
Definition settled {A} (n : nat) (r r' : option (A * text)) : Prop :=
  r = r' ∧ (∀ a rest, r = Some (a, rest) → (length rest < n)%nat).

Lemma settled_bind {A B} n m (r r' : option (A * text)) (k k' : A * text → option (B * text)) :
  settled n r r' → (∀ a rest, (length rest < n)%nat → settled m (k (a, rest)) (k' (a, rest))) → settled m (r ≫= k) (r' ≫= k').
Proof.
  intros [<- Hr] Hk. destruct r as [[a rest]|]; [by apply Hk, (Hr a)|]. split; [done|]. intros ? ? Hn. discriminate Hn.
Qed.

Lemma settled_same {A} n (r : option (A * text)) : (∀ a rest, r = Some (a, rest) → (length rest < n)%nat) → settled n r r.
Proof. by split. Qed.

Lemma settled_guard {A} n b (k k' : option (A * text)) : settled n k k' → settled n (_ ← option_guard b; k) (_ ← option_guard b; k').
Proof. destruct b; [done|]. intros _. split; [done|]. intros ? ? Hn. discriminate Hn. Qed.

Lemma settled_skip {A} n b l (k k' : text → option (A * text)) :
  (∀ rest, (length rest < length l)%nat → settled n (k rest) (k' rest)) → settled n (skip_byte b l ≫= k) (skip_byte b l ≫= k').
Proof.
  intros Hk. unfold skip_byte. destruct l as [|c l]; [|destruct (c =? b)]; [|apply Hk; cbn; lia|]; (split; [done|]; intros ? ? Hn; discriminate Hn).
Qed.

Lemma settled_le {A} n m (r r' : option (A * text)) : (n <= m)%nat → settled n r r' → settled m r r'.
Proof. intros Hle [-> Hr]. split; [done|]. intros a rest Hs. specialize (Hr a rest Hs). lia. Qed.

Lemma json_settled fuel :
  (∀ fuel' d l, (2 * length l + 1 <= fuel)%nat → (2 * length l + 1 <= fuel')%nat → settled (length l) (json_value fuel d l) (json_value fuel' d l))
  ∧ (∀ fuel' d first l, (2 * length l + 2 <= fuel)%nat → (2 * length l + 2 <= fuel')%nat →
       settled (length l) (json_members fuel d first l) (json_members fuel' d first l))
  ∧ (∀ fuel' d first l, (2 * length l + 2 <= fuel)%nat → (2 * length l + 2 <= fuel')%nat →
       settled (length l) (json_items fuel d first l) (json_items fuel' d first l)).
Proof.
  induction fuel as [|fuel (IHv & IHm & IHi)]; [split_and!; intros; lia|].
  split_and!; intros fuel' d; [intros l|intros first l|intros first l]; intros Hf Hf'; (destruct fuel' as [|fuel']; [lia|]).
  - cbn [json_value]. pose proof (skip_space_le l) as Hs. destruct (skip_space l) as [|b l']; cbn [length] in Hs; [by split|].
    apply (settled_bind (length l)); [|intros v rest Hrest; apply settled_same; by intros ? ? [= _ <-]].
    assert (∀ lit w, settled (length l) (rest ← skip_literal lit l'; Some (w, rest)) (rest ← skip_literal lit l'; Some (w : json, rest))) as Hlit.
    { intros lit w. apply settled_same. intros a rest (r & Hr%skip_literal_le & [= _ <-])%option_bind_Some. lia. }
    destruct (b =? 123); [apply settled_guard, (settled_bind (length l')); [apply IHm; lia|intros; apply settled_same; intros ? ? [= _ <-]; lia]|].
    destruct (b =? 91); [apply settled_guard, (settled_bind (length l')); [apply IHi; lia|intros; apply settled_same; intros ? ? [= _ <-]; lia]|].
    destruct (b =? 34); [apply settled_same; intros a rest ([s r] & Hr%unquote_progress & [= _ <-])%option_bind_Some; lia|].
    destruct (b =? 116); [apply Hlit|]. destruct (b =? 102); [apply Hlit|]. destruct (b =? 110); [apply Hlit|].
    apply settled_same. intros a rest (r & Hr%skip_number_lt & [= _ <-])%option_bind_Some. cbn in Hr. lia.
  - cbn [json_members]. pose proof (next_part_proceeds 125 first l) as Hp. destruct (next_part 125 first l) as [[rest|l1]|e]; [|destruct Hp as [Hp _]|by split].
    { apply settled_same. by intros ? ? [= _ <-]. }
    pose proof (skip_space_le l1). apply settled_skip. intros l2 H2.
    apply (settled_bind (length l2)); [apply settled_same; intros ? ? Hu; by apply unquote_progress in Hu|]. intros key l3 H3.
    pose proof (skip_space_le l3). apply settled_skip. intros l4 H4.
    apply (settled_bind (length l4)); [apply IHv; lia|]. intros v l5 H5.
    apply (settled_bind (length l5)); [apply IHm; lia|]. intros ms l6 H6. apply settled_same. intros ? ? [= _ <-]. lia.
  - cbn [json_items]. pose proof (next_part_proceeds 93 first l) as Hp. destruct (next_part 93 first l) as [[rest|l1]|e]; [|destruct Hp as [Hp _]|by split].
    { apply settled_same. by intros ? ? [= _ <-]. }
    apply (settled_bind (length l1)); [apply IHv; lia|]. intros v l2 H2.
    apply (settled_bind (length l2)); [apply IHi; lia|]. intros vs l3 H3. apply settled_same. intros ? ? [= _ <-]. lia.
Qed.

(** More fuel than [json_first] gives reads nothing else. *)
Lemma json_first_fuel fuel l : (2 * length l + 1 <= fuel)%nat → json_value fuel 0 l = json_first l.
Proof. intros Hf. unfold json_first. by apply json_settled. Qed.

(** *** Digests in hexadecimal *)
Definition hex_text (bs : text) : text := bs ≫= fun b => [hex_char (b / 16); hex_char (b mod 16)].

Lemma hex_encode_text bs : hex_encode bs = string_of_bytes (hex_text bs).
Proof.
  unfold hex_encode, string_of_bytes, hex_text. f_equal. induction bs as [|b bs IH]; [done|]. cbn. by rewrite IH.
Qed.

Definition upper (b : Z) : Prop := 65 <= b <= 90.

Lemma hex_value_range b : hex_byte b = true → 0 <= hex_value b < 16 ∧ 48 <= b < 128 ∧ (¬ upper b → hex_char (hex_value b) = b).
Proof.
  intros Hb. assert (In b (seqZ 48 55)) as Hin.
  { apply list_elem_of_In, elem_of_seqZ. unfold hex_byte, digit, in_range in Hb.
    repeat (apply orb_true_iff in Hb as [Hb|Hb]); apply andb_true_iff in Hb; rewrite !Z.leb_le in Hb; lia. }
  assert (forallb (fun b => implb (hex_byte b) ((0 <=? hex_value b) && (hex_value b <? 16) && (48 <=? b) && (b <? 128)
    && ((65 <=? b) && (b <=? 90) || (hex_char (hex_value b) =? b)))) (seqZ 48 55) = true) as Hall by (vm_compute; reflexivity).
  rewrite forallb_forall in Hall. specialize (Hall b Hin). rewrite Hb in Hall. cbn [implb] in Hall.
  apply andb_true_iff in Hall as [H1 H2]. split_bools. split_and!; try lia. unfold upper. intros Hu.
  apply orb_true_iff in H2 as [H2|H2%Z.eqb_eq]; [apply andb_true_iff in H2; rewrite !Z.leb_le in H2; lia|done].
Qed.

Lemma hex_decode_bytes l bs : hex_decode l = Some bs → Forall (fun b => 48 <= b < 128) l ∧ (Forall (fun b => ¬ upper b) l → l = hex_text bs).
Proof.
  revert bs. induction l as [l IH] using (induction_ltof1 _ length). unfold ltof in IH. intros bs.
  destruct l as [|a [|b l]]; [by intros [= <-]|done|]. cbn [hex_decode].
  destruct (hex_byte a && hex_byte b) eqn:Hab; [|done]. apply andb_true_iff in Hab as [Ha Hb].
  destruct (hex_decode l) as [bs'|] eqn:Hl; [|done]. intros [= <-]. destruct (IH l ltac:(cbn; lia) bs' Hl) as [H1 H2].
  destruct (hex_value_range a Ha) as (Ra & Aa & Ca), (hex_value_range b Hb) as (Rb & Ab & Cb). split; [do 2 (apply Forall_cons; split; [done|]); done|].
  intros [Na [Nb Nl]%Forall_cons]%Forall_cons. unfold hex_text. cbn.
  replace ((hex_value a * 16 + hex_value b) / 16) with (hex_value a) by div_lia.
  replace ((hex_value a * 16 + hex_value b) mod 16) with (hex_value b) by div_lia. rewrite Ca, Cb by done. do 2 f_equal. by apply H2.
Qed.

Lemma be_bytes_ok n z : Forall byte_ok (be_bytes n z).
Proof.
  unfold be_bytes. apply Forall_fmap, Forall_forall. intros i _. unfold byte_ok, compose. apply Z.mod_pos_bound. lia.
Qed.

Lemma sha256_bytes_ok l : Forall byte_ok (sha256_bytes l).
Proof.
  unfold sha256_bytes. cbv zeta. generalize (sha_blocks (length (words_of (sha_pad l)) / 16) sha_init (words_of (sha_pad l))) as ws.
  induction ws as [|w ws IH]; [constructor|]. rewrite fmap_cons. apply Forall_app. split; [apply be_bytes_ok|done].
Qed.

Lemma sha_round_length st kw : length st = 8%nat → length (sha_round st kw) = 8%nat.
Proof. destruct st as [|a [|b [|c [|d [|e [|f [|g [|h [|? ?]]]]]]]]]; done. Qed.

Lemma sha_blocks_length n st w : length st = 8%nat → length (sha_blocks n st w) = 8%nat.
Proof.
  revert st w. induction n as [|n IH]; intros st w Hst; [done|]. cbn [sha_blocks]. apply IH. unfold sha_block. cbv zeta.
  rewrite length_zip_with, Hst. apply Nat.min_l. revert st Hst. generalize (zip sha_k (rev (sha_schedule 48 (rev (take 16 w))))).
  intros l. induction l as [|kw l IHl]; intros st Hst; cbn [foldl]; [lia|]. by apply IHl, sha_round_length.
Qed.

Lemma sha256_length l : length (sha256_bytes l) = 32%nat.
Proof.
  unfold sha256_bytes. cbv zeta. pose proof (sha_blocks_length (length (words_of (sha_pad l)) / 16) sha_init (words_of (sha_pad l)) eq_refl) as Hlen.
  revert Hlen. generalize (sha_blocks (length (words_of (sha_pad l)) / 16) sha_init (words_of (sha_pad l))). intros ws Hws.
  destruct ws as [|? [|? [|? [|? [|? [|? [|? [|? [|? ?]]]]]]]]]; done.
Qed.

Lemma hex_encode_decoded bs bs' : Forall byte_ok bs → hex_DecodeString (hex_encode bs) = Some bs' → hex_encode bs' = hex_encode bs.
Proof.
  intros Hbs Hdec. unfold hex_DecodeString in Hdec. rewrite !hex_encode_text in *. f_equal.
  assert (∀ n, 0 <= n < 16 → ¬ upper (hex_char n) ∧ byte_ok (hex_char n)) as Hchar.
  { intros n Hn. unfold hex_char, upper, byte_ok. destruct (Z.ltb_spec n 10); lia. }
  assert (Forall (fun b => ¬ upper b ∧ byte_ok b) (hex_text bs)) as Hall.
  { clear Hdec. induction Hbs as [|b bs Hb _ IH]; [constructor|]. unfold byte_ok in Hb. unfold hex_text. cbn.
    constructor; [apply Hchar; div_lia|]. constructor; [apply Hchar; div_lia|]. apply IH. }
  rewrite bytes_of_string in Hdec by (eapply Forall_impl; [exact Hall|]; naive_solver).
  apply hex_decode_bytes in Hdec as [_ Hdec]. symmetry. apply Hdec. eapply Forall_impl; [exact Hall|]. naive_solver.
Qed.

Lemma hex_text_ok bs : Forall byte_ok bs → Forall byte_ok (hex_text bs) ∧ hex_decode (hex_text bs) = Some bs.
Proof.
  induction 1 as [|b bs Hb _ [IH1 IH2]]; [done|]. unfold byte_ok in Hb.
  assert (∀ n, 0 <= n < 16 → byte_ok (hex_char n) ∧ hex_byte (hex_char n) = true ∧ hex_value (hex_char n) = n) as Hchar.
  { intros n Hn. assert (In n (seqZ 0 16)) as Hin by (apply list_elem_of_In, elem_of_seqZ; lia). cbv in Hin.
    repeat (destruct Hin as [<-|Hin]; [done|]). done. }
  destruct (Hchar (b / 16)) as (A1 & A2 & A3); [div_lia|]. destruct (Hchar (b mod 16)) as (B1 & B2 & B3); [div_lia|].
  change (hex_text (b :: bs)) with (hex_char (b / 16) :: hex_char (b mod 16) :: hex_text bs). split; [do 2 (apply Forall_cons; split; [done|]); done|].
  cbn [hex_decode]. rewrite A2, B2, IH2, A3, B3. cbn. do 2 f_equal. div_lia.
Qed.

(** *** Objects of [json.Marshal] *)
Definition json_object (fields : list string) : string := "{" +:+ join "," fields +:+ "}".

Lemma json_field_written name s v :
  bytes_of s = write html_rune v → write_string html_rune (bytes_of name) = 34 :: bytes_of name ++ [34] →
  bytes_of (json_field name s) = write_string html_rune (bytes_of name) ++ 58 :: write html_rune v.
Proof.
  intros Hs Hname. unfold json_field. rewrite !bytes_of_app, Hs, Hname. cbn. by rewrite <- app_assoc.
Qed.

Lemma json_object_written fields : bytes_of (json_object fields) = 123 :: separated (bytes_of <$> fields) ++ [125].
Proof. unfold json_object. by rewrite !bytes_of_app, bytes_of_separated. Qed.

Lemma append_inj v1 v2 : wf v1 → wf v2 → appendJCSValue v1 = appendJCSValue v2 → normalize v1 = normalize v2.
Proof.
  intros H1 H2 Heq. pose proof (read_jcs_append v1 H1) as Hr. rewrite Heq, read_jcs_append in Hr by done. by injection Hr.
Qed.

Lemma bytes_of_inj s t : bytes_of s = bytes_of t → s = t.
Proof. intros Heq. by rewrite <- (string_of_bytes_of s), Heq, string_of_bytes_of. Qed.

(** [strconv.FormatUint(value, 10)] of a 63-bit value, which is also how [json.Marshal] writes it *)
Definition decimal_text (value : Z) : string := from_option string_of_bytes "" (FormatUint63Decimal value).


Lemma decimal_text_spec value : 0 <= value <= MaxUint63 → ascii_text (bytes_of (decimal_text value)) ∧ decimal (bytes_of (decimal_text value)) = value.
Proof.
  intros [Hpos Hle]. unfold decimal_text. destruct (FormatUint63Decimal value) as [s|] eqn:Hs.
  - destruct (FormatUint63Decimal_spec value s Hpos Hs) as (Hnat & Hval & _). cbn [from_option].
    assert (ascii_text s) as Hascii.
    { assert (canonicalInteger s = true) as Hint%integer_bytes.
      { destruct s as [|b s]; [done|]. cbn [canonicalInteger]. destruct (Z.eqb_spec b 45) as [->|]; [|done]. done. }
      eapply Forall_impl; [exact Hint|]. cbv beta. intros b Hb. lia. }
    rewrite bytes_of_string by by apply ascii_bytes_ok. done.
  - unfold FormatUint63Decimal in Hs. rewrite (proj2 (Z.ltb_ge MaxUint63 value)) in Hs by done. done.
Qed.
