(* ===== verification/Privacy.v ===== *)
(** * The erasure of a learner's data

    [server/internal/privacy]: the domain of privacy erasures ([domain.go]): owners
    and stores of data, the lifecycles of an erasure, of its steps and of a device,
    requests and acknowledgments with their validation, the hash a request is
    identified by, and receipts; the challenges a device answers ([challenge.go]);
    the requests of the ports ([ports.go], [backup.go]); and the verifier for
    deployments without a remote memory ([disabled.go]). The permits of readers are
    in Permits.v, the grants that authorise an erasure in ErasureGrants.v. *)
From stdpp Require Import pretty.
From S2P Require Import Prelude GoStd Packages Utf8 Json Jcs GoTime Encoding.

Definition PolicyVersion := "privacy-erasure-v1".
Definition ManagedBackupPolicyVersion := "managed-backup-key-destruction-v1".

Definition CodeInvalidRequest := "invalid_request".
Definition CodeContentRedacted := "content_redacted".
Definition CodeOfflineChallengeUnavailable := "offline_challenge_unavailable".

(** The type [Error] and the error values of the package; [ErrorOther] stands for the
    errors of other packages that are passed on. *)
Inductive error : Type :=
| Error (Code Reason : string)
| ErrErasureGrantInvalid
| ErrErasureGrantDeviceUnavailable
| ErrErasureGrantStoreUnavailable
| ErrManagedBackupInvalid
| ErrorOther (s : string).

Definition invalid (reason : string) : error := Error CodeInvalidRequest reason.

Definition ErrorCode (e : error) : string := match e with Error code _ => code | _ => "" end.

(** ** Owners and stores *)
Abbreviation OwnerKind := string.

Definition OwnerIdentity : OwnerKind := "identity".
Definition OwnerKnowledge : OwnerKind := "knowledge".
Definition OwnerLearning : OwnerKind := "learning".
Definition OwnerTutoring : OwnerKind := "tutoring".
Definition OwnerMemory : OwnerKind := "memory".
Definition OwnerOutbox : OwnerKind := "outbox".

Definition AllOwners : list OwnerKind :=
  [OwnerIdentity; OwnerKnowledge; OwnerLearning; OwnerTutoring; OwnerMemory; OwnerOutbox].

Definition OwnerKind_Valid (o : OwnerKind) : bool := existsb (fun candidate => bool_decide (candidate = o)) AllOwners.

Inductive StoreKind : Type :=
| StoreIdentityMetadata
| StoreKnowledgeContent
| StoreKnowledgeIndex
| StoreKnowledgeArtifacts
| StoreLearningEventPayload
| StoreLearningTypedPayload
| StoreTutoringPayload
| StoreInboxOutbox
| StoreProjectionGenerations
| StoreMemoryCandidateDelivery
| StoreProcessCache
| StoreNocturnePaths
| StoreNocturneOrphanHistory
| StoreNocturneSnapshotChangeset
| StoreManagedBackup
| StoreExternalProvider
| StoreOfflineDeviceCache
| StoreOther (s : string).
#[export] Instance StoreKind_eq_dec : EqDecision StoreKind.
Proof. solve_decision. Defined.

Definition ReceiptSlots : list StoreKind := [
  StoreIdentityMetadata; StoreKnowledgeContent; StoreKnowledgeIndex; StoreKnowledgeArtifacts;
  StoreLearningEventPayload; StoreLearningTypedPayload; StoreTutoringPayload; StoreInboxOutbox;
  StoreProjectionGenerations; StoreMemoryCandidateDelivery; StoreProcessCache; StoreNocturnePaths;
  StoreNocturneOrphanHistory; StoreNocturneSnapshotChangeset; StoreManagedBackup; StoreExternalProvider;
  StoreOfflineDeviceCache].

Definition LocalManagedSlots : list StoreKind := [
  StoreIdentityMetadata; StoreKnowledgeContent; StoreKnowledgeIndex; StoreKnowledgeArtifacts;
  StoreLearningEventPayload; StoreLearningTypedPayload; StoreTutoringPayload; StoreInboxOutbox;
  StoreProjectionGenerations; StoreMemoryCandidateDelivery; StoreProcessCache].

Definition StoreKind_Valid (s : StoreKind) : bool := existsb (fun candidate => bool_decide (candidate = s)) ReceiptSlots.

Definition OwnerForStore (store : StoreKind) : option OwnerKind :=
  match store with
  | StoreIdentityMetadata => Some OwnerIdentity
  | StoreKnowledgeContent | StoreKnowledgeIndex | StoreKnowledgeArtifacts => Some OwnerKnowledge
  | StoreLearningEventPayload | StoreLearningTypedPayload | StoreProjectionGenerations => Some OwnerLearning
  | StoreTutoringPayload => Some OwnerTutoring
  | StoreInboxOutbox => Some OwnerOutbox
  | StoreMemoryCandidateDelivery => Some OwnerMemory
  | _ => None
  end.

Definition StoresForOwner (owner : OwnerKind) : list StoreKind :=
  filter (fun store => OwnerForStore store = Some owner) LocalManagedSlots.

(** ** Lifecycles *)
Inductive ErasureStatus : Type :=
| StatusBarrierCommitted
| StatusLocalScrubbed
| StatusRemoteDraining
| StatusRemotePurged
| StatusVerified
| StatusPartial
| StatusBlocked
| StatusOther (s : string).
#[export] Instance ErasureStatus_eq_dec : EqDecision ErasureStatus.
Proof. solve_decision. Defined.

Definition CanTransitionErasure (from to : ErasureStatus) : bool :=
  match from, to with
  | StatusBarrierCommitted, (StatusLocalScrubbed | StatusPartial | StatusBlocked) => true
  | StatusLocalScrubbed, (StatusRemoteDraining | StatusRemotePurged | StatusPartial | StatusBlocked) => true
  | StatusRemoteDraining, (StatusRemotePurged | StatusPartial | StatusBlocked) => true
  | StatusRemotePurged, (StatusVerified | StatusPartial | StatusBlocked) => true
  | StatusPartial, (StatusLocalScrubbed | StatusRemoteDraining | StatusRemotePurged | StatusVerified | StatusBlocked) => true
  | StatusBlocked, StatusPartial => true
  | _, _ => false
  end.

Inductive StepStatus : Type :=
| StepPending
| StepSucceeded
| StepPartial
| StepFailed
| StepUnknown
| StepNotApplicable
| StepUnsupported
| StepOther (s : string).
#[export] Instance StepStatus_eq_dec : EqDecision StepStatus.
Proof. solve_decision. Defined.

Definition CanTransitionStep (from to : StepStatus) : bool :=
  match from, to with
  | StepPending, (StepSucceeded | StepPartial | StepFailed | StepUnknown | StepNotApplicable | StepUnsupported) => true
  | (StepPartial | StepFailed | StepUnknown), (StepSucceeded | StepPartial | StepFailed | StepUnknown | StepNotApplicable) => true
  | _, _ => false
  end.

Inductive OfflineDeviceChildStatus : Type :=
| OfflineDeviceChildPending
| OfflineDeviceChildSucceeded
| OfflineDeviceChildUnknown
| OfflineDeviceChildFailed
| OfflineDeviceChildOther (s : string).

Definition CanTransitionOfflineDeviceChild (from to : OfflineDeviceChildStatus) : bool :=
  match from, to with
  | OfflineDeviceChildPending, (OfflineDeviceChildSucceeded | OfflineDeviceChildUnknown | OfflineDeviceChildFailed) => true
  | (OfflineDeviceChildUnknown | OfflineDeviceChildFailed), OfflineDeviceChildPending => true
  | _, _ => false
  end.

(** ** Requests *)
Definition ReasonLearnerRequest := "learner_request".
Definition ReasonAccountClosure := "account_closure".
Definition ReasonOperatorRequest := "operator_request".

Definition ValidReasonCode (value : string) : bool :=
  bool_decide (value = ReasonLearnerRequest) || bool_decide (value = ReasonAccountClosure) || bool_decide (value = ReasonOperatorRequest).

Record ErasureRequest := mkErasureRequest {
  ErasureRequest_DeviceID : string;
  ErasureRequest_OperationID : string;
  ErasureRequest_ReasonCode : string;
  ErasureRequest_ActorDeviceID : string;
  ErasureRequest_RequestedAt : time;
  ErasureRequest_ManagedBackupUnrecoverableAfter : time;
  ErasureRequest_ExpectedCurrentLearnerGeneration : Z;
}.

Definition backup_period : duration := 30 * 24 * hour.

Record MigrationLeaseRequest := mkMigrationLeaseRequest {
  MigrationLeaseRequest_OperationID : string;
  MigrationLeaseRequest_BackupIdentity : string;
}.

Record RedactionPayload := mkRedactionPayload {
  RedactionPayload_ErasureID : string;
  RedactionPayload_Generation : Z;
  RedactionPayload_RedactedThroughEventSeq : Z;
  RedactionPayload_PolicyVersion : string;
  RedactionPayload_ReasonCode : string;
}.

Record LocalRedactionRequest := mkLocalRedactionRequest {
  LocalRedactionRequest_ErasureID : string;
  LocalRedactionRequest_Store : StoreKind;
  LocalRedactionRequest_ReceiptID : string;
  LocalRedactionRequest_LearnerGeneration : Z;
  LocalRedactionRequest_RedactedThroughEvent : Z;
}.

Record GenerationTransition := mkGenerationTransition {
  GenerationTransition_ErasureID : string;
  GenerationTransition_FromGeneration : Z;
  GenerationTransition_TargetGeneration : Z;
  GenerationTransition_ReceiptID : string;
  GenerationTransition_At : time;
}.

Record RedactionEventAppendRequest := mkRedactionEventAppendRequest {
  RedactionEventAppendRequest_ErasureID : string;
  RedactionEventAppendRequest_LearnerGeneration : Z;
  RedactionEventAppendRequest_ReasonCode : string;
  RedactionEventAppendRequest_ActorDeviceID : string;
  RedactionEventAppendRequest_OperationID : string;
  RedactionEventAppendRequest_At : time;
}.

Record BackupKeyDestroyRequest := mkBackupKeyDestroyRequest {
  BackupKeyDestroyRequest_ErasureID : string;
  BackupKeyDestroyRequest_LearnerGeneration : Z;
  BackupKeyDestroyRequest_RequestedAt : time;
  BackupKeyDestroyRequest_Deadline : time;
  BackupKeyDestroyRequest_At : time;
}.

Record ManagedBackupVerificationRequest := mkManagedBackupVerificationRequest {
  ManagedBackupVerificationRequest_ErasureID : string;
  ManagedBackupVerificationRequest_LearnerGeneration : Z;
}.

(** [CreatedAt_UTC]: the location of [CreatedAt] is [time.UTC]. *)
Record ManagedBackupArtifact := mkManagedBackupArtifact {
  ManagedBackupArtifact_Path : string;
  ManagedBackupArtifact_CreatedAt : time;
  ManagedBackupArtifact_CreatedAt_UTC : bool;
  ManagedBackupArtifact_Size : Z;
  ManagedBackupArtifact_SHA256 : string;
  ManagedBackupArtifact_LearnerGeneration : Z;
  ManagedBackupArtifact_WrappedKeyID : string;
}.

(** The ranges of [value] are its runes; the excluded characters are ASCII. *)
Definition validManagedBackupPath (value : string) : bool :=
  negb (bool_decide (value ∈ [""; "managed-inventory.json"; ".edu-agent-backup.lock"; "."; ".."])
        || existsb (fun b => (b =? 47) || (b =? 92) || (b =? 0)) (bytes_of value))
  && forallb (fun character => negb ((character <? 32) || (character =? 127))) (runes value).*1.

Section Requests.
Context `{UnicodeTables} `{UUIDPackage} `{UUIDValidation}.

Definition invalid_uuid (id : string) : bool := negb (uuid_Validate id).

Definition ErasureRequest_Validate (r : ErasureRequest) : result error unit :=
  let requested := ErasureRequest_RequestedAt r in
  let deadline := ErasureRequest_ManagedBackupUnrecoverableAfter r in
  _ ← fail_if (invalid_uuid (ErasureRequest_DeviceID r) || invalid_uuid (ErasureRequest_OperationID r) || invalid_uuid (ErasureRequest_ActorDeviceID r))
        (invalid "invalid_operation_identity");
  _ ← fail_if (negb (ValidReasonCode (ErasureRequest_ReasonCode r))) (invalid "invalid_reason_code");
  _ ← fail_if (time_is_zero requested || time_is_zero deadline || time_before deadline requested
               || time_after deadline (time_add requested backup_period)) (invalid "invalid_backup_deadline");
  fail_if (ErasureRequest_ExpectedCurrentLearnerGeneration r <? 0) (invalid "invalid_expected_generation").

(** What the hash of a request is computed of: [json.Marshal] of the anonymous struct. *)
Definition operation_text (r : ErasureRequest) : string :=
  json_object [
    json_field "actor_device_id" (json_string (ErasureRequest_ActorDeviceID r));
    json_field "backup_policy_version" (json_string ManagedBackupPolicyVersion);
    json_field "device_id" (json_string (ErasureRequest_DeviceID r));
    json_field "expected_current_learner_generation" (decimal_text (ErasureRequest_ExpectedCurrentLearnerGeneration r));
    json_field "operation_id" (json_string (ErasureRequest_OperationID r));
    json_field "policy_version" (json_string PolicyVersion);
    json_field "reason_code" (json_string (trim_space (ErasureRequest_ReasonCode r)))].

Definition ErasureRequest_OperationHash (r : ErasureRequest) : result error string :=
  _ ← ErasureRequest_Validate r;
  Ok (hex_encode (sha256_bytes (bytes_of (operation_text r)))).

Definition RedactionPayload_Validate (p : RedactionPayload) : result error unit :=
  fail_if (invalid_uuid (RedactionPayload_ErasureID p) || (RedactionPayload_Generation p <? 2)
           || (RedactionPayload_RedactedThroughEventSeq p <? 0) || bool_decide (RedactionPayload_PolicyVersion p = "")
           || bool_decide (RedactionPayload_ReasonCode p = ""))
    (invalid "invalid_redaction_payload").

Definition hex_sha256 (s : string) : bool :=
  match hex_DecodeString s with Some digest => (length digest =? 32)%nat | None => false end.

Definition MigrationLeaseRequest_Validate (r : MigrationLeaseRequest) : result error unit :=
  let identity := MigrationLeaseRequest_BackupIdentity r in
  _ ← fail_if (invalid_uuid (MigrationLeaseRequest_OperationID r) || negb (str_len identity =? 64)
               || negb (bool_decide (identity = to_lower identity))) (invalid "invalid_migration_lease_request");
  fail_if (negb (hex_sha256 identity)) (invalid "invalid_migration_backup_identity").

Definition LocalRedactionRequest_Validate (r : LocalRedactionRequest) (owner : OwnerKind) : result error unit :=
  fail_if (bool_decide (LocalRedactionRequest_ErasureID r = "") || bool_decide (LocalRedactionRequest_ReceiptID r = "")
           || (LocalRedactionRequest_LearnerGeneration r <? 2) || (LocalRedactionRequest_RedactedThroughEvent r <? 0)
           || negb (bool_decide (OwnerForStore (LocalRedactionRequest_Store r) = Some owner)))
    (invalid "invalid_local_redaction_request").

(** [t.FromGeneration+1] is an addition of [int64]. *)
Definition GenerationTransition_Validate (t : GenerationTransition) (opening : bool) : result error unit :=
  let from := GenerationTransition_FromGeneration t in
  let target := GenerationTransition_TargetGeneration t in
  let receipt := GenerationTransition_ReceiptID t in
  _ ← fail_if (bool_decide (GenerationTransition_ErasureID t = "") || (target <? 2) || time_is_zero (GenerationTransition_At t))
        (invalid "invalid_generation_transition");
  if opening then
    fail_if (bool_decide (receipt = "") || negb (from =? target)) (invalid "invalid_generation_open")
  else
    fail_if (negb (bool_decide (receipt = "")) || (from <? 1) || negb (target =? wrap64 (from + 1))) (invalid "invalid_generation_close").

Definition RedactionEventAppendRequest_Validate (r : RedactionEventAppendRequest) : result error unit :=
  fail_if (invalid_uuid (RedactionEventAppendRequest_ErasureID r) || (RedactionEventAppendRequest_LearnerGeneration r <? 2)
           || negb (ValidReasonCode (RedactionEventAppendRequest_ReasonCode r)) || invalid_uuid (RedactionEventAppendRequest_ActorDeviceID r)
           || invalid_uuid (RedactionEventAppendRequest_OperationID r) || time_is_zero (RedactionEventAppendRequest_At r))
    (invalid "invalid_redaction_event_append").

Definition BackupKeyDestroyRequest_Validate (r : BackupKeyDestroyRequest) : result error unit :=
  let requested := BackupKeyDestroyRequest_RequestedAt r in
  let deadline := BackupKeyDestroyRequest_Deadline r in
  let at_ := BackupKeyDestroyRequest_At r in
  fail_if (invalid_uuid (BackupKeyDestroyRequest_ErasureID r) || (BackupKeyDestroyRequest_LearnerGeneration r <? 2)
           || time_is_zero requested || time_is_zero deadline || time_is_zero at_ || time_before deadline requested
           || time_after deadline (time_add requested backup_period) || time_after at_ deadline)
    (invalid "invalid_backup_key_destroy_request").

Definition ManagedBackupVerificationRequest_Validate (r : ManagedBackupVerificationRequest) : result error unit :=
  fail_if (invalid_uuid (ManagedBackupVerificationRequest_ErasureID r) || (ManagedBackupVerificationRequest_LearnerGeneration r <? 2))
    ErrManagedBackupInvalid.

Definition ManagedBackupArtifact_Validate (a : ManagedBackupArtifact) : result error unit :=
  let key := ManagedBackupArtifact_WrappedKeyID a in
  let digest := ManagedBackupArtifact_SHA256 a in
  _ ← fail_if (negb (validManagedBackupPath (ManagedBackupArtifact_Path a)) || time_is_zero (ManagedBackupArtifact_CreatedAt a)
               || negb (ManagedBackupArtifact_CreatedAt_UTC a) || (ManagedBackupArtifact_Size a <? 0)
               || (ManagedBackupArtifact_LearnerGeneration a <? 1) || invalid_uuid key) ErrManagedBackupInvalid;
  _ ← fail_if (negb (bool_decide (uuid_Parse key = Some key))) ErrManagedBackupInvalid;
  _ ← fail_if (negb (str_len digest =? 64) || negb (bool_decide (to_lower digest = digest))) ErrManagedBackupInvalid;
  fail_if (negb (hex_sha256 digest)) ErrManagedBackupInvalid.
End Requests.

(** ** Acknowledgments of a device *)
Inductive OfflinePurgeOutcome : Type :=
| OfflinePurgeOutcomeSucceeded
| OfflinePurgeOutcomeFailed
| OfflinePurgeOutcomeOther (s : string).

Inductive OfflinePurgeFailureCode : Type :=
| OfflinePurgeFailureProfileBusy
| OfflinePurgeFailureKeyDelete
| OfflinePurgeFailurePathDelete
| OfflinePurgeFailureVerification
| OfflinePurgeFailureOther (s : string).
#[export] Instance OfflinePurgeFailureCode_eq_dec : EqDecision OfflinePurgeFailureCode.
Proof. solve_decision. Defined.

Definition OfflinePurgeFailureCode_Valid (c : OfflinePurgeFailureCode) : bool :=
  match c with OfflinePurgeFailureOther _ => false | _ => true end.

Record OfflineDevicePurgeAcknowledgment := mkOfflineDevicePurgeAcknowledgment {
  Acknowledgment_ChallengeRevision : Z;
  Acknowledgment_Challenge : string;
  Acknowledgment_Outcome : OfflinePurgeOutcome;
  Acknowledgment_ManagedObjectsAbsent : option bool;
  Acknowledgment_FailureCode : OfflinePurgeFailureCode;
}.

(** Unpadded base64 of 32 bytes, as [base64.RawURLEncoding] writes it. *)
Definition canonical_base64 (s : string) : bool :=
  match base64_DecodeString s with
  | Some decoded => (length decoded =? 32)%nat && bool_decide (base64_EncodeToString decoded = s)
  | None => false
  end.

Definition OfflineDevicePurgeAcknowledgment_Validate (a : OfflineDevicePurgeAcknowledgment) : result error unit :=
  let challenge := Acknowledgment_Challenge a in
  let failure := Acknowledgment_FailureCode a in
  _ ← fail_if ((Acknowledgment_ChallengeRevision a <=? 0) || negb (str_len challenge =? 43)) (invalid "invalid_offline_device_purge_acknowledgment");
  _ ← fail_if (negb (canonical_base64 challenge)) (invalid "invalid_offline_device_purge_challenge");
  match Acknowledgment_Outcome a with
  | OfflinePurgeOutcomeSucceeded =>
    fail_if (negb (bool_decide (Acknowledgment_ManagedObjectsAbsent a = Some true)) || negb (bool_decide (failure = OfflinePurgeFailureOther "")))
      (invalid "invalid_offline_device_purge_success")
  | OfflinePurgeOutcomeFailed =>
    fail_if (negb (bool_decide (Acknowledgment_ManagedObjectsAbsent a = None)) || negb (OfflinePurgeFailureCode_Valid failure))
      (invalid "invalid_offline_device_purge_failure")
  | OfflinePurgeOutcomeOther _ => Err (invalid "invalid_offline_device_purge_outcome")
  end.

(** ** Challenges *)
Definition offlinePurgeChallengeDomain := "edu-agent-offline-purge-v1".

(** Keys are strings of bytes. *)
Record OfflineChallengeKeyring := mkOfflineChallengeKeyring {
  Keyring_current : Z;
  Keyring_keys : gmap Z string;
}.

Definition key_valid (entry : Z * string) : bool := (0 <? entry.1) && (str_len entry.2 =? 32).

(** The current version is the largest: the last of the sorted versions. *)
Definition NewOfflineChallengeKeyring (keys : gmap Z string) : result error OfflineChallengeKeyring :=
  let entries := map_to_list keys in
  _ ← fail_if (is_nil entries) (ErrorOther "offline purge challenge keyring is empty");
  _ ← fail_if (negb (forallb key_valid entries)) (ErrorOther "offline purge challenge keys require positive versions and 32-byte keys");
  Ok (mkOfflineChallengeKeyring (default 0 (last (sort_by Z.ltb entries.*1))) keys).

(** A keyring may be absent. *)
Definition CurrentVersion (k : option OfflineChallengeKeyring) : Z := from_option Keyring_current 0 k.

Definition LF : string := String (ascii_of_byte 10) "".

Definition challenge_message (erasureID deviceID : string) (sourceGeneration targetGeneration revision : Z) : string :=
  join LF [offlinePurgeChallengeDomain; erasureID; deviceID; pretty sourceGeneration; pretty targetGeneration; pretty revision].

Definition Challenge (k : option OfflineChallengeKeyring) (version : Z) (erasureID deviceID : string)
    (sourceGeneration targetGeneration revision : Z) : result error string :=
  match k with
  | None => Err (Error CodeOfflineChallengeUnavailable "offline_purge_challenge_keyring_unavailable")
  | Some k =>
    match Keyring_keys k !! version with
    | None => Err (Error CodeOfflineChallengeUnavailable "offline_purge_challenge_key_version_unavailable")
    | Some key => Ok (base64_EncodeToString (hmac_sha256 key (challenge_message erasureID deviceID sourceGeneration targetGeneration revision)))
    end
  end.

(** Texts of one length are compared in constant time. *)
Definition Verify (k : option OfflineChallengeKeyring) (version : Z) (erasureID deviceID : string)
    (sourceGeneration targetGeneration revision : Z) (challenge : string) : bool :=
  match Challenge k version erasureID deviceID sourceGeneration targetGeneration revision with
  | Ok expected => if negb (str_len expected =? str_len challenge) then false else bool_decide (expected = challenge)
  | Err _ => false
  end.

(** ** Receipts *)
Record OfflineDeviceCounts := mkOfflineDeviceCounts {
  Counts_Pending : Z;
  Counts_Succeeded : Z;
  Counts_Unknown : Z;
  Counts_Failed : Z;
}.

Record StepReceipt := mkStepReceipt {
  StepReceipt_ID : string;
  StepReceipt_Store : StoreKind;
  StepReceipt_Version : Z;
  StepReceipt_Status : StepStatus;
  StepReceipt_StableReason : string;
  StepReceipt_VerificationMethod : string;
  StepReceipt_StartedAt : time;
  StepReceipt_CompletedAt : option time;
  StepReceipt_EvidenceDigest : string;
  StepReceipt_DeviceCounts : option OfflineDeviceCounts;
  StepReceipt_ChildrenTruncated : option bool;
  StepReceipt_NextCursor : string;
}.

(** [order[store]]: a store outside of the slots has the zero value. *)
Definition slot_order (store : StoreKind) : nat :=
  match list_find (eq store) ReceiptSlots with Some (index, _) => index | None => 0%nat end.

Definition step_less (i j : StepReceipt) : bool := (slot_order (StepReceipt_Store i) <? slot_order (StepReceipt_Store j))%nat.

(** [SortSteps] on the steps of a receipt. [sort.Slice] leaves the order of equal
    elements open; [SortSteps_unique] says when there is only one. *)
Definition SortSteps (steps : list StepReceipt) : list StepReceipt := sort_by step_less steps.

(** ** Deployments without a remote memory *)
Definition disabledNocturneEvidenceFormat := "disabled-nocturne-storage-evidence-v1".

Record DisabledNocturneEvidence := mkDisabledNocturneEvidence {
  Evidence_PendingReconciliations : Z;
  Evidence_ReconciliationConflicts : Z;
  Evidence_CompletedReconciliations : Z;
  Evidence_RemoteReferences : Z;
  Evidence_ManagedBackups : Z;
  Evidence_LiveGenerationKeys : Z;
}.

Definition evidence_counts (e : DisabledNocturneEvidence) : list Z := [
  Evidence_PendingReconciliations e; Evidence_ReconciliationConflicts e; Evidence_CompletedReconciliations e;
  Evidence_RemoteReferences e; Evidence_ManagedBackups e; Evidence_LiveGenerationKeys e].

Definition DisabledNocturneEvidence_Validate (e : DisabledNocturneEvidence) : result error unit :=
  fail_if (existsb (fun count => count <? 0) (evidence_counts e)) (invalid "invalid_disabled_nocturne_evidence").

Definition HasRemoteHistory (e : DisabledNocturneEvidence) : bool := existsb (fun count => negb (count =? 0)) (evidence_counts e).

(** The result of the verifiers for remote and for managed data. *)
Record VerifierResult := mkVerifierResult {
  VerifierResult_Status : StepStatus;
  VerifierResult_StableReason : string;
  VerifierResult_EvidenceDigest : string;
  VerifierResult_CompletedAt : time;
}.

Section Disabled.
Context `{UUIDValidation}.
(** [reader.ReadDisabledNocturneEvidence], and one reading of the clock. *)
Context (ReadDisabledNocturneEvidence : string → Z → result error DisabledNocturneEvidence) (now : time).

Definition evidence_text (erasureID : string) (generation : Z) (e : DisabledNocturneEvidence) : string :=
  json_object [
    json_field "format" (json_string disabledNocturneEvidenceFormat);
    json_field "erasure_id" (json_string erasureID);
    json_field "learner_generation" (decimal_text generation);
    json_field "evidence" (json_object [
      json_field "pending_reconciliations" (decimal_text (Evidence_PendingReconciliations e));
      json_field "reconciliation_conflicts" (decimal_text (Evidence_ReconciliationConflicts e));
      json_field "completed_reconciliations" (decimal_text (Evidence_CompletedReconciliations e));
      json_field "remote_references" (decimal_text (Evidence_RemoteReferences e));
      json_field "managed_backups" (decimal_text (Evidence_ManagedBackups e));
      json_field "live_generation_keys" (decimal_text (Evidence_LiveGenerationKeys e))])].

Definition readEvidence (erasureID : string) (generation : Z) : result error (DisabledNocturneEvidence * string) :=
  _ ← fail_if (negb (uuid_Validate erasureID) || (generation <? 2)) (invalid "invalid_disabled_nocturne_evidence_request");
  evidence ← ReadDisabledNocturneEvidence erasureID generation;
  _ ← DisabledNocturneEvidence_Validate evidence;
  Ok (evidence, hex_encode (sha256_bytes (bytes_of (evidence_text erasureID generation evidence)))).

Definition verify_with (erasureID : string) (generation : Z) (absent unresolved : string) : result error VerifierResult :=
  '(evidence, digest) ← readEvidence erasureID generation;
  Ok (if HasRemoteHistory evidence then mkVerifierResult StepUnknown unresolved digest now
      else mkVerifierResult StepNotApplicable absent digest now).

(** [Erase]: of the receipt, its identifier and store are used. *)
Definition Disabled_Erase (erasureID : string) (generation : Z) (receiptID : string) (store : StoreKind) : result error VerifierResult :=
  _ ← fail_if (bool_decide (receiptID = "") || negb (bool_decide (store = StoreNocturnePaths))) (invalid "invalid_disabled_nocturne_remote_request");
  verify_with erasureID generation "no_nocturne_or_managed_remote_history" "disabled_nocturne_remote_history_unresolved".

Definition Disabled_VerifyManagedBackups (erasureID : string) (generation : Z) : result error VerifierResult :=
  _ ← ManagedBackupVerificationRequest_Validate (mkManagedBackupVerificationRequest erasureID generation);
  verify_with erasureID generation "no_pre_barrier_managed_backup_or_remote_history" "disabled_managed_backup_or_remote_history_unresolved".
End Disabled.

(** ** Properties *)

(** *** Owners and stores *)
Lemma OwnerKind_Valid_spec o : OwnerKind_Valid o = true ↔ o ∈ AllOwners.
Proof.
  unfold OwnerKind_Valid. rewrite existsb_exists. setoid_rewrite bool_decide_eq_true. setoid_rewrite <- list_elem_of_In. naive_solver.
Qed.

Lemma StoreKind_Valid_spec s : StoreKind_Valid s = true ↔ s ∈ ReceiptSlots.
Proof.
  unfold StoreKind_Valid. rewrite existsb_exists. setoid_rewrite bool_decide_eq_true. setoid_rewrite <- list_elem_of_In. naive_solver.
Qed.

Lemma StoresForOwner_spec owner store : store ∈ StoresForOwner owner ↔ OwnerForStore store = Some owner.
Proof.
  unfold StoresForOwner. rewrite list_elem_of_filter. split; [by intros [? _]|]. intros Howner. split; [done|].
  apply (bool_decide_unpack _). by destruct store.
Qed.

(** The owners share out the managed stores but the cache of the process, each store to one owner. *)
Theorem owners_partition_stores :
  (AllOwners ≫= StoresForOwner) ≡ₚ filter (fun store => store ≠ StoreProcessCache) LocalManagedSlots
  ∧ ∀ owner1 owner2 store, store ∈ StoresForOwner owner1 → store ∈ StoresForOwner owner2 → owner1 = owner2.
Proof.
  split; [apply NoDup_Permutation; try (apply (bool_decide_unpack _); by vm_compute)|].
  - intros store. rewrite list_elem_of_bind, list_elem_of_filter. setoid_rewrite StoresForOwner_spec. split.
    + intros (owner & Howner & _). split; [by intros ->|]. apply (bool_decide_unpack _). by destruct store.
    + intros [Hne Hin]. unfold LocalManagedSlots in Hin. rewrite !elem_of_cons in Hin.
      destruct Hin as [->|[->|[->|[->|[->|[->|[->|[->|[->|[->|[->|Hin]]]]]]]]]]]; try done; [..|by apply not_elem_of_nil in Hin];
        eexists; (split; [reflexivity|]); apply (bool_decide_unpack _); reflexivity.
  - intros owner1 owner2 store. rewrite !StoresForOwner_spec. naive_solver.
Qed.

(** *** Receipts *)
Lemma slot_order_inj s1 s2 : StoreKind_Valid s1 = true → StoreKind_Valid s2 = true → slot_order s1 = slot_order s2 → s1 = s2.
Proof. destruct s1, s2; try done; cbn; intros _ _ [=]. Qed.

Definition stores_of (steps : list StepReceipt) : list StoreKind := StepReceipt_Store <$> steps.

Definition slots_sorted (steps : list StepReceipt) : Prop :=
  StronglySorted (fun i j => (slot_order (StepReceipt_Store i) <= slot_order (StepReceipt_Store j))%nat) steps.

Lemma le_step_less i j : le_by step_less i j ↔ (slot_order (StepReceipt_Store i) <= slot_order (StepReceipt_Store j))%nat.
Proof. unfold le_by, step_less. apply Nat.ltb_ge. Qed.

Lemma SortSteps_sorted steps : SortSteps steps ≡ₚ steps ∧ slots_sorted (SortSteps steps).
Proof.
  split; [apply sort_by_Permutation|]. eapply StronglySorted_weaken; [|apply sort_by_sorted].
  - intros i j. apply le_step_less.
  - intros i j k. rewrite !le_step_less. lia.
  - intros i j. unfold step_less. rewrite Nat.ltb_lt, Nat.ltb_ge. lia.
Qed.

(** For the receipt of an erasure, which has one step per store, there is one order. *)
Theorem SortSteps_unique steps l :
  Forall (fun store => StoreKind_Valid store = true) (stores_of steps) → NoDup (stores_of steps) →
  l ≡ₚ steps → slots_sorted l → l = SortSteps steps.
Proof.
  intros Hvalid Hnodup Hperm Hsorted. destruct (SortSteps_sorted steps) as [Hperm' Hsorted'].
  apply (sorted_unique step_less); [|eapply StronglySorted_weaken; [intros i j; apply le_step_less|done]..|by rewrite Hperm'].
  intros i j Hi Hj. rewrite !le_step_less. intros H1 H2. rewrite Hperm in Hi, Hj.
  assert (StepReceipt_Store i = StepReceipt_Store j) as Hstore.
  { unfold stores_of in Hvalid. rewrite Forall_fmap, Forall_forall in Hvalid. apply slot_order_inj; [by apply Hvalid..|lia]. }
  apply list_elem_of_lookup in Hi as [n Hi], Hj as [m Hj]. assert (n = m) as ->; [|naive_solver].
  apply (NoDup_lookup (stores_of steps) n m (StepReceipt_Store i)); [done|..]; unfold stores_of; rewrite list_lookup_fmap, ?Hi, ?Hj; cbn; congruence.
Qed.

Lemma stores_sorted steps : slots_sorted steps → StronglySorted (le_by (fun s t => (slot_order s <? slot_order t)%nat)) (stores_of steps).
Proof.
  unfold stores_of. induction 1 as [|i l _ IH Hi]; [constructor|]. rewrite fmap_cons. constructor; [done|]. apply Forall_fmap.
  eapply Forall_impl; [exact Hi|]. cbn. intros j Hj. by apply Nat.ltb_ge.
Qed.

(** A complete set of steps is listed slot by slot. *)
Lemma SortSteps_complete steps : stores_of steps ≡ₚ ReceiptSlots → stores_of (SortSteps steps) = ReceiptSlots.
Proof.
  intros Hall. destruct (SortSteps_sorted steps) as [Hperm Hsorted].
  apply (sorted_unique (fun s t => (slot_order s <? slot_order t)%nat)).
  - intros s t Hs Ht H1%Nat.ltb_ge H2%Nat.ltb_ge. unfold stores_of in Hs, Ht. rewrite Hperm in Hs, Ht. change (StepReceipt_Store <$> steps) with (stores_of steps) in *. rewrite Hall in Hs, Ht.
    apply slot_order_inj; [by apply StoreKind_Valid_spec..|lia].
  - by apply stores_sorted.
  - unfold ReceiptSlots. repeat constructor.
  - unfold stores_of. by rewrite Hperm.
Qed.

(** *** Lifecycles *)
(** A history of an erasure, from its first status to its last. *)
Inductive erasure_history : ErasureStatus → list ErasureStatus → ErasureStatus → Prop :=
| history_start s : erasure_history s [s] s
| history_step s t l last : CanTransitionErasure s t = true → erasure_history t l last → erasure_history s (s :: l) last.

Lemma history_head s l last : erasure_history s l last → ∃ l', l = s :: l'.
Proof. intros []; by eexists. Qed.

Lemma history_stuck s l last : (∀ t, CanTransitionErasure s t = false) → erasure_history s l last → l = [s] ∧ last = s.
Proof. intros Hstuck Hh. destruct Hh as [|s t l last Hst]; [done|]. by rewrite Hstuck in Hst. Qed.

(** An erasure that is verified without a partial failure went through every phase in order. *)
Theorem verified_follows_phases l :
  erasure_history StatusBarrierCommitted l StatusVerified → StatusPartial ∉ l →
  l = [StatusBarrierCommitted; StatusLocalScrubbed; StatusRemotePurged; StatusVerified]
  ∨ l = [StatusBarrierCommitted; StatusLocalScrubbed; StatusRemoteDraining; StatusRemotePurged; StatusVerified].
Proof.
  assert (∀ l last, erasure_history StatusBlocked l last → StatusPartial ∉ l → last = StatusBlocked) as Hblocked.
  { intros m last Hh Hm. inversion Hh as [|? t l' ? Ht Hh']; subst; [done|]. destruct t; try done.
    destruct (history_head _ _ _ Hh') as [l'' ->]. set_solver. }
  assert (∀ m, erasure_history StatusRemotePurged m StatusVerified → StatusPartial ∉ m → m = [StatusRemotePurged; StatusVerified]) as Hpurged.
  { intros m Hh Hm. inversion Hh as [|? t l' ? Ht Hh']; subst. destruct t; try done.
    - by destruct (history_stuck StatusVerified l' StatusVerified ltac:(done) Hh') as [-> _].
    - destruct (history_head _ _ _ Hh') as [l'' ->]. set_solver.
    - apply Hblocked in Hh'; [done|set_solver]. }
  intros Hh Hl. inversion Hh as [|? t l' ? Ht Hh']; subst. destruct t; try done;
    [|destruct (history_head _ _ _ Hh') as [l'' ->]; set_solver|apply Hblocked in Hh'; [done|set_solver]].
  inversion Hh' as [|? t l'' ? Ht' Hh'']; subst. destruct t; try done;
    [| |destruct (history_head _ _ _ Hh'') as [? ->]; set_solver|apply Hblocked in Hh''; [done|set_solver]].
  - right. inversion Hh'' as [|? t l ? Ht'' Hh3]; subst. destruct t; try done;
      [|destruct (history_head _ _ _ Hh3) as [? ->]; set_solver|apply Hblocked in Hh3; [done|set_solver]].
    rewrite (Hpurged l); [done|done|set_solver].
  - left. rewrite (Hpurged l''); [done|done|set_solver].
Qed.

(** *** The hash of a request *)
Definition valid_reason r := ValidReasonCode (ErasureRequest_ReasonCode r).

Lemma ValidReasonCode_text reason : ValidReasonCode reason = true → trim_space reason = reason ∧ ascii_text (bytes_of reason).
Proof.
  unfold ValidReasonCode. rewrite !orb_true_iff, !bool_decide_eq_true.
  intros [[->| ->]| ->]; (split; [reflexivity|apply ascii_check; reflexivity]).
Qed.

Lemma decimal_text_number value : 0 <= value <= MaxUint63 → number_ok (bytes_of (decimal_text value)).
Proof.
  intros [Hpos Hle]. unfold decimal_text. destruct (FormatUint63Decimal value) as [s|] eqn:Hs.
  - destruct (FormatUint63Decimal_spec value s Hpos Hs) as (Hnat & Hval & _). cbn [from_option].
    assert (canonicalInteger s = true ∧ integer_value s = value) as [Hint Hiv].
    { destruct s as [|b s]; [done|]. cbn [canonicalInteger integer_value]. destruct (Z.eqb_spec b 45) as [->|]; done. }
    rewrite bytes_of_string; [|eapply Forall_impl; [exact (integer_bytes s Hint)|]; cbv beta; unfold byte_ok; intros; lia].
    unfold number_ok, in_int64, int64_min, int64_max. unfold MaxUint63 in Hle. rewrite Hiv. split_and!; [done| |].
    + destruct s as [|b s]; [done|]. cbn [canonical_natural] in Hnat. intros [= -> ->]. done.
    + apply andb_true_iff. rewrite !Z.leb_le. lia.
  - unfold FormatUint63Decimal in Hs. by rewrite (proj2 (Z.ltb_ge MaxUint63 value)) in Hs by done.
Qed.

Section Hash.
Context `{UUIDValidation}.
(** An identifier that [uuid.Validate] accepts is ASCII. *)
Context (uuid_ascii : ∀ s, uuid_Validate s = true → ascii_text (bytes_of s)).

Lemma ErasureRequest_Validate_Ok r : ErasureRequest_Validate r = Ok tt →
  Forall (fun id => uuid_Validate id = true) [ErasureRequest_DeviceID r; ErasureRequest_OperationID r; ErasureRequest_ActorDeviceID r]
  ∧ ValidReasonCode (ErasureRequest_ReasonCode r) = true
  ∧ ErasureRequest_RequestedAt r <= ErasureRequest_ManagedBackupUnrecoverableAfter r <= ErasureRequest_RequestedAt r + backup_period
  ∧ 0 <= ErasureRequest_ExpectedCurrentLearnerGeneration r.
Proof using Type.
  clear uuid_ascii. unfold ErasureRequest_Validate, invalid_uuid. cbv zeta.
  intros (_ & Hids%fail_if_Ok & (_ & Hreason%fail_if_Ok & (_ & Hdeadline%fail_if_Ok & Hgen%fail_if_Ok)%bind_Ok)%bind_Ok)%bind_Ok.
  apply negb_false_iff in Hreason. rewrite !orb_false_iff in Hids, Hdeadline. rewrite !negb_false_iff in Hids.
  destruct Hids as [[? ?] ?], Hdeadline as [[_ Hb] Ha]. unfold time_before, time_after, time_add in Hb, Ha.
  apply Z.ltb_ge in Hb, Ha, Hgen. rewrite !Forall_cons. split_and!; done.
Qed.

Definition operation_entries (r : ErasureRequest) : list (text * jcs) := [
  (bytes_of "actor_device_id", JString (bytes_of (ErasureRequest_ActorDeviceID r)));
  (bytes_of "backup_policy_version", JString (bytes_of ManagedBackupPolicyVersion));
  (bytes_of "device_id", JString (bytes_of (ErasureRequest_DeviceID r)));
  (bytes_of "expected_current_learner_generation", JNumber (bytes_of (decimal_text (ErasureRequest_ExpectedCurrentLearnerGeneration r))));
  (bytes_of "operation_id", JString (bytes_of (ErasureRequest_OperationID r)));
  (bytes_of "policy_version", JString (bytes_of PolicyVersion));
  (bytes_of "reason_code", JString (bytes_of (ErasureRequest_ReasonCode r)))].

Definition hashable (r : ErasureRequest) : Prop :=
  ErasureRequest_Validate r = Ok tt ∧ ErasureRequest_ExpectedCurrentLearnerGeneration r <= MaxUint63.

Lemma operation_written r : hashable r →
  wf (JObject (operation_entries r)) ∧ bytes_of (operation_text r) = write html_rune (JObject (operation_entries r)).
Proof using uuid_ascii.
  intros [(Hids & [Htrim Hreason]%ValidReasonCode_text & _ & Hgen)%ErasureRequest_Validate_Ok Hmax].
  rewrite !Forall_cons in Hids. destruct Hids as (Hid1%uuid_ascii & Hid2%uuid_ascii & Hid3%uuid_ascii & _).
  pose proof (decimal_text_number _ (conj Hgen Hmax)) as Hnum. split.
  - constructor.
    + repeat (constructor; [apply ascii_valid, ascii_check; reflexivity|]). constructor.
    + apply (bool_decide_unpack _). vm_compute. exact I.
    + unfold operation_entries. rewrite !Forall_cons. cbn [snd].
      split_and!; first [by constructor; apply ascii_valid|constructor; apply ascii_valid, ascii_check; reflexivity|by constructor|constructor].
  - unfold operation_text. rewrite json_object_written. cbn [write]. do 3 f_equal. rewrite Htrim.
    cbn [map fmap list_fmap operation_entries fst snd].
    repeat (apply (f_equal2 cons); [apply json_field_written; [first [apply json_string_bytes; first [by apply ascii_valid
      |apply ascii_valid, ascii_check; reflexivity]|reflexivity]|reflexivity]|]). reflexivity.
Qed.

(** The fields an operation is identified by: not the times. *)
Record same_operation (r1 r2 : ErasureRequest) : Prop := {
  same_actor : ErasureRequest_ActorDeviceID r1 = ErasureRequest_ActorDeviceID r2;
  same_device : ErasureRequest_DeviceID r1 = ErasureRequest_DeviceID r2;
  same_generation : ErasureRequest_ExpectedCurrentLearnerGeneration r1 = ErasureRequest_ExpectedCurrentLearnerGeneration r2;
  same_id : ErasureRequest_OperationID r1 = ErasureRequest_OperationID r2;
  same_reason : ErasureRequest_ReasonCode r1 = ErasureRequest_ReasonCode r2;
}.

(** The text that is hashed binds the fields of a request, and nothing else: two
    valid requests have the same text exactly when they are the same operation. *)
Theorem erasure_hash_binds r1 r2 h1 h2 :
  ErasureRequest_OperationHash r1 = Ok h1 → ErasureRequest_OperationHash r2 = Ok h2 →
  ErasureRequest_ExpectedCurrentLearnerGeneration r1 <= MaxUint63 → ErasureRequest_ExpectedCurrentLearnerGeneration r2 <= MaxUint63 →
  h1 = hex_encode (sha256_bytes (bytes_of (operation_text r1))) ∧ h2 = hex_encode (sha256_bytes (bytes_of (operation_text r2)))
  ∧ (operation_text r1 = operation_text r2 ↔ same_operation r1 r2).
Proof using uuid_ascii.
  unfold ErasureRequest_OperationHash. intros ([] & Hv1 & [= <-])%bind_Ok ([] & Hv2 & [= <-])%bind_Ok Hm1 Hm2. do 2 (split; [done|]). split.
  2: { intros [H1 H2 H3 H4 H5]. unfold operation_text. by rewrite H1, H2, H3, H4, H5. }
  - intros Heq. destruct (operation_written r1 (conj Hv1 Hm1)) as [Hwf1 Ht1], (operation_written r2 (conj Hv2 Hm2)) as [Hwf2 Ht2].
    apply ErasureRequest_Validate_Ok in Hv1 as (_ & _ & _ & Hg1), Hv2 as (_ & _ & _ & Hg2).
    pose proof (read_jcs_write html_rune html_escapes _ Hwf1) as Hr. rewrite <- Ht1, Heq, Ht2, read_jcs_write in Hr by (apply html_escapes || done).
    injection Hr as Ha Hd Hn Ho Hre. apply bytes_of_inj in Ha, Hd, Ho, Hre. split; try done.
    destruct (decimal_text_spec _ (conj Hg1 Hm1)) as [_ <-], (decimal_text_spec _ (conj Hg2 Hm2)) as [_ <-]. by rewrite Hn.
Qed.
End Hash.

(** *** Challenges *)
Lemma str_length_bytes s : String.length s = length (bytes_of s).
Proof. unfold bytes_of. rewrite length_fmap. induction s as [|a s IH]; [done|]. cbn. by rewrite IH. Qed.

Lemma digest_base64 l : canonical_base64 (base64_EncodeToString (sha256_bytes l)) = true ∧ str_len (base64_EncodeToString (sha256_bytes l)) = 43.
Proof.
  pose proof (sha256_bytes_ok l) as Hok. pose proof (sha256_length l) as Hlen. revert Hok Hlen.
  generalize (sha256_bytes l). clear l. intros l Hok Hlen.
  assert (bytes_of (base64_EncodeToString l) = base64_encode l) as Hbytes.
  { unfold base64_EncodeToString. apply bytes_of_string, ascii_bytes_ok. by apply base64_ascii. }
  split.
  - unfold canonical_base64, base64_DecodeString. rewrite Hbytes, base64_roundtrip, Hlen by done. by apply bool_decide_eq_true.
  - unfold str_len. rewrite str_length_bytes, Hbytes.
    do 32 (destruct l as [|? l]; [done|]). by destruct l.
Qed.

Lemma last_sorted {A} (R : A → A → Prop) l x y : StronglySorted R l → last l = Some x → y ∈ l → y = x ∨ R y x.
Proof.
  induction 1 as [|z l _ IH Hz]; [done|]. rewrite elem_of_cons. destruct l as [|w l].
  - intros [= ->] [->|Hy]; [by left|by apply not_elem_of_nil in Hy].
  - intros Hlast [->|Hy]; [|by apply IH]. right. rewrite Forall_forall in Hz. apply Hz. by apply last_Some_elem_of.
Qed.

Lemma keyring_current keys k : NewOfflineChallengeKeyring keys = Ok k →
  Keyring_keys k = keys ∧ is_Some (keys !! Keyring_current k) ∧ ∀ version key, keys !! version = Some key → version <= Keyring_current k.
Proof.
  unfold NewOfflineChallengeKeyring. cbv zeta. intros (_ & Hne%fail_if_Ok & (_ & _ & [= <-])%bind_Ok)%bind_Ok. cbn [Keyring_keys Keyring_current].
  split; [done|]. destruct (last (sort_by Z.ltb (map_to_list keys).*1)) as [current|] eqn:Hlast; cycle 1.
  { apply last_None in Hlast. apply is_nil_false in Hne. destruct Hne. apply (f_equal length) in Hlast.
    rewrite length_sort_by, length_fmap in Hlast. by apply length_zero_iff_nil. }
  cbn [default]. split.
  - apply last_Some_elem_of in Hlast. rewrite elem_of_sort_by in Hlast. apply list_elem_of_fmap in Hlast as ([v key] & -> & Hin).
    apply elem_of_map_to_list in Hin. by exists key.
  - intros version key Hkey. assert (version ∈ sort_by Z.ltb (map_to_list keys).*1) as Hin.
    { rewrite elem_of_sort_by. apply list_elem_of_fmap. exists (version, key). split; [done|]. by apply elem_of_map_to_list. }
    assert (StronglySorted (le_by Z.ltb) (sort_by Z.ltb (map_to_list keys).*1)) as Hsorted.
    { apply sort_by_sorted; unfold le_by; [intros a b c H1%Z.ltb_ge H2%Z.ltb_ge; apply Z.ltb_ge|intros a b H1%Z.ltb_lt; apply Z.ltb_ge]; lia. }
    destruct (last_sorted _ _ _ _ Hsorted Hlast Hin) as [->|Hle]; cbn; [lia|]. by apply Z.ltb_ge in Hle.
Qed.

(** A keyring that was accepted issues a challenge under its newest key; the
    challenge is the only text that verifies, and a device that echoes it with a
    consistent outcome is not rejected. *)
Theorem issued_challenges_are_accepted keys k erasureID deviceID source target revision :
  NewOfflineChallengeKeyring keys = Ok k → 0 < revision →
  (∀ version key, keys !! version = Some key → version <= CurrentVersion (Some k))
  ∧ ∃ c, Challenge (Some k) (CurrentVersion (Some k)) erasureID deviceID source target revision = Ok c
    ∧ (∀ c', Verify (Some k) (CurrentVersion (Some k)) erasureID deviceID source target revision c' = true ↔ c' = c)
    ∧ OfflineDevicePurgeAcknowledgment_Validate
        (mkOfflineDevicePurgeAcknowledgment revision c OfflinePurgeOutcomeSucceeded (Some true) (OfflinePurgeFailureOther "")) = Ok tt
    ∧ ∀ failure, OfflinePurgeFailureCode_Valid failure = true →
        OfflineDevicePurgeAcknowledgment_Validate
          (mkOfflineDevicePurgeAcknowledgment revision c OfflinePurgeOutcomeFailed None failure) = Ok tt.
Proof.
  intros (Hkeys & [key Hkey] & Hmax)%keyring_current Hrev. split; [done|].
  set (message := challenge_message erasureID deviceID source target revision).
  assert (Challenge (Some k) (CurrentVersion (Some k)) erasureID deviceID source target revision
    = Ok (base64_EncodeToString (hmac_sha256 key message))) as Hc by (cbn; by rewrite Hkeys, Hkey).
  assert (∃ l, hmac_sha256 key message = sha256_bytes l) as [l Hl] by by eexists. rewrite Hl in Hc.
  destruct (digest_base64 l) as [Hcanon Hlen]. eexists. split; [exact Hc|]. split_and!.
  - intros c'. unfold Verify. rewrite Hc. split.
    + destruct (negb _); [done|]. by intros ->%bool_decide_eq_true.
    + intros ->. rewrite Z.eqb_refl. cbn [negb]. by apply bool_decide_eq_true.
  - unfold OfflineDevicePurgeAcknowledgment_Validate. cbv zeta.
    cbn [Acknowledgment_Challenge Acknowledgment_FailureCode Acknowledgment_ChallengeRevision Acknowledgment_Outcome Acknowledgment_ManagedObjectsAbsent].
    rewrite Hlen, Hcanon, (proj2 (Z.leb_gt revision 0)) by done. reflexivity.
  - intros failure Hf. unfold OfflineDevicePurgeAcknowledgment_Validate. cbv zeta.
    cbn [Acknowledgment_Challenge Acknowledgment_FailureCode Acknowledgment_ChallengeRevision Acknowledgment_Outcome Acknowledgment_ManagedObjectsAbsent].
   
    rewrite Hlen, Hcanon, Hf, (proj2 (Z.leb_gt revision 0)) by done. reflexivity.
Qed.

(** *** Without a remote memory *)
(** A step is reported as not applicable only when the storage has no trace of
    remote data: every count is zero. *)
Theorem not_applicable_is_affirmed `{UUIDValidation} read now erasureID generation absent unresolved v :
  verify_with read now erasureID generation absent unresolved = Ok v →
  (VerifierResult_Status v = StepNotApplicable ∨ VerifierResult_Status v = StepUnknown)
  ∧ ∃ e, read erasureID generation = Ok e ∧ Forall (fun count => 0 <= count) (evidence_counts e)
      ∧ (VerifierResult_Status v = StepNotApplicable ↔ Forall (fun count => count = 0) (evidence_counts e)).
Proof.
  unfold verify_with, readEvidence. intros ([e digest] & (_ & _ & (e' & Hread & (_ & Hvalid%fail_if_Ok & [= <- <-])%bind_Ok)%bind_Ok)%bind_Ok & [= <-])%bind_Ok.
  assert (Forall (fun count => 0 <= count) (evidence_counts e')) as Hcounts.
  { apply Forall_forall. intros count Hin. destruct (Z.leb_spec 0 count) as [|Hlt]; [done|].
    rewrite <- not_true_iff_false, existsb_exists in Hvalid. destruct Hvalid. exists count. split; [by apply list_elem_of_In|by apply Z.ltb_lt]. }
  assert (HasRemoteHistory e' = false ↔ Forall (fun count => count = 0) (evidence_counts e')) as Hhist.
  { unfold HasRemoteHistory. rewrite <- not_true_iff_false, existsb_exists, Forall_forall. split.
    - intros Hno count Hin. destruct (Z.eqb_spec count 0) as [|Hne]; [done|]. destruct Hno. exists count.
      split; [by apply list_elem_of_In|]. by apply negb_true_iff, Z.eqb_neq.
    - intros Hall (count & Hin%list_elem_of_In & Hne). by rewrite (Hall count Hin) in Hne. }
  destruct (HasRemoteHistory e') eqn:Hr; cbn; (split; [tauto|]); exists e'; (split_and!; [done..|]); rewrite <- Hhist; split; done.
Qed.

(** ** Witnesses *)
Module Samples.
#[export] Instance sample_validation : UUIDValidation := fun s => (str_len s =? 36) && forallb (fun b => (0 <=? b) && (b <? 128)) (bytes_of s).

Lemma sample_ascii s : uuid_Validate s = true → ascii_text (bytes_of s).
Proof. intros [_ H]%andb_true_iff. by apply ascii_check. Qed.

Definition id (n : string) : string := "00000000-0000-4000-8000-00000000000" +:+ n.

Definition request (generation deadline : Z) : ErasureRequest :=
  mkErasureRequest (id "1") (id "2") ReasonLearnerRequest (id "3") 0 deadline generation.

Definition step (n : string) (store : StoreKind) : StepReceipt :=
  mkStepReceipt (id n) store 1 StepPending "" "" 0 None "" None None "".

Definition keyring_keys : gmap Z string := {[1 := str_slice (SHA256 "a") 0 32; 2 := str_slice (SHA256 "b") 0 32]}.
Definition keyring : OfflineChallengeKeyring := mkOfflineChallengeKeyring 2 keyring_keys.

Example keyring_built : NewOfflineChallengeKeyring keyring_keys = Ok keyring.
Proof. vm_compute. reflexivity. Qed.
Example short_key : is_Err (NewOfflineChallengeKeyring {[1 := ""]}) = true.
Proof. vm_compute. reflexivity. Qed.

Definition evidence (remote : Z) : DisabledNocturneEvidence := mkDisabledNocturneEvidence 0 0 0 remote 0 0.

Example remote_history : fmap VerifierResult_Status (Disabled_Erase (fun _ _ => Ok (evidence 2)) 7 (id "1") 2 (id "4") StoreNocturnePaths) = Ok StepUnknown.
Proof. vm_compute. reflexivity. Qed.
End Samples.
#[local] Existing Instance Samples.sample_validation.

Lemma owners_partition_stores_witness : StoreKnowledgeIndex ∈ StoresForOwner OwnerKnowledge ∧ OwnerKnowledge = OwnerKnowledge.
Proof.
  split; [apply (bool_decide_unpack _); by vm_compute|].
  apply (proj2 owners_partition_stores OwnerKnowledge OwnerKnowledge StoreKnowledgeIndex); apply (bool_decide_unpack _); by vm_compute.
Defined.

Lemma SortSteps_unique_witness :
  [Samples.step "1" StoreKnowledgeIndex; Samples.step "2" StoreManagedBackup]
  = SortSteps [Samples.step "2" StoreManagedBackup; Samples.step "1" StoreKnowledgeIndex].
Proof.
  apply SortSteps_unique; [repeat constructor|apply (bool_decide_unpack _); by vm_compute|apply Permutation_swap|].
  repeat constructor.
Defined.

Lemma verified_follows_phases_witness :
  [StatusBarrierCommitted; StatusLocalScrubbed; StatusRemotePurged; StatusVerified]
    = [StatusBarrierCommitted; StatusLocalScrubbed; StatusRemotePurged; StatusVerified]
  ∨ [StatusBarrierCommitted; StatusLocalScrubbed; StatusRemotePurged; StatusVerified]
    = [StatusBarrierCommitted; StatusLocalScrubbed; StatusRemoteDraining; StatusRemotePurged; StatusVerified].
Proof.
  apply verified_follows_phases; [|apply (bool_decide_unpack _); by vm_compute].
  apply (history_step _ StatusLocalScrubbed); [done|]. apply (history_step _ StatusRemotePurged); [done|].
  apply (history_step _ StatusVerified); [done|]. constructor.
Defined.

Lemma erasure_hash_binds_witness :
  operation_text (Samples.request 3 5) = operation_text (Samples.request 3 9)
  ↔ same_operation (Samples.request 3 5) (Samples.request 3 9).
Proof.
  refine (proj2 (proj2 (erasure_hash_binds Samples.sample_ascii (Samples.request 3 5) (Samples.request 3 9) _ _ eq_refl eq_refl _ _))); by vm_compute.
Defined.

Lemma issued_challenges_are_accepted_witness :
  ∃ c, Challenge (Some Samples.keyring) 2 (Samples.id "1") (Samples.id "2") 1 2 7 = Ok c.
Proof.
  destruct (issued_challenges_are_accepted Samples.keyring_keys Samples.keyring (Samples.id "1") (Samples.id "2") 1 2 7 Samples.keyring_built eq_refl)
    as (_ & c & Hc & _). exists c. exact Hc.
Defined.

Lemma not_applicable_is_affirmed_witness :
  StepUnknown = StepNotApplicable ∨ StepUnknown = StepUnknown.
Proof.
  refine (proj1 (not_applicable_is_affirmed (fun _ _ => Ok (Samples.evidence 2)) 7 (Samples.id "1") 2 "absent" "unresolved"
    (mkVerifierResult StepUnknown "unresolved" _ 7) _)); reflexivity.
Defined.
