(* ===== verification/Tutoring.v ===== *)
(** * The tutoring session state machine

    [server/internal/tutoring/state.go]: the pure function [Apply] that moves
    a tutoring session between its states, saves and restores a focus frame
    around free questions, and names the learning events each move records.
    A pointer that the code only reads or replaces by a fresh copy is an
    [option]; [Apply] never writes through a pointer of its input. *)
From S2P Require Import Prelude.

Module Tutoring.

(** ** Data *)
Inductive State : Type :=
| StateIdle | StateGoalReady | StateDiagnostic | StateRouteActive
| StateActivityIssued | StateAwaitingResponse | StateEvaluating | StateFeedback
| StateAdvanceOrReview | StateCompleted | StateFocusSuspended
| StateFreeQuestion | StateFreeAnswer | StateFocusResumed
| StateOther (s : string) (* any other string, "" included *).

Inductive Action : Type :=
| ActionCreateSession | ActionStartDiagnostic | ActionApplyRoute
| ActionIssueActivity | ActionPresentActivity | ActionSubmitAttempt
| ActionRecordAssessment | ActionAcknowledgeFeedback | ActionPresentReview
| ActionRecordExposure | ActionAskFreeQuestion | ActionRecordFreeAnswer
| ActionConvertFreeAnswerToQuiz | ActionResumeFocus | ActionEndActivity
| ActionSwitchGoal | ActionCompleteSession
| ActionOther (s : string).

#[export] Instance State_eq_dec : EqDecision State.
Proof. solve_decision. Defined.
#[export] Instance Action_eq_dec : EqDecision Action.
Proof. solve_decision. Defined.

Definition State_string (s : State) : string :=
  match s with
  | StateIdle => "Idle" | StateGoalReady => "GoalReady"
  | StateDiagnostic => "Diagnostic" | StateRouteActive => "RouteActive"
  | StateActivityIssued => "ActivityIssued"
  | StateAwaitingResponse => "AwaitingResponse"
  | StateEvaluating => "Evaluating" | StateFeedback => "Feedback"
  | StateAdvanceOrReview => "AdvanceOrReview" | StateCompleted => "Completed"
  | StateFocusSuspended => "FocusSuspended"
  | StateFreeQuestion => "FreeQuestion" | StateFreeAnswer => "FreeAnswer"
  | StateFocusResumed => "FocusResumed" | StateOther s => s
  end.

Inductive TutoringError : Type :=
| ErrInvalidTransition (action : Action) (state : State)
| ErrFocusFrameInvalid
| ErrFocusFrameExists
| ErrSessionOwnership.

Record FocusContext := mkFocusContext {
  ctx_GoalRevisionID : string;
  ctx_RouteRevisionID : string;
  ctx_RouteStepID : string;
  ctx_KnowledgeRevisionID : string;
  ctx_FocusNodeRevisionID : string;
  ctx_ActivityID : option string;
  ctx_AttemptID : option string;
}.

Record FocusFrame := mkFocusFrame {
  frame_ID : string;
  frame_SessionID : string;
  frame_SavedState : State;
  frame_Context : FocusContext;
  frame_SavedAggregateVersion : Z;
  frame_CreatedEventSequence : Z;
  frame_Invalidated : bool;
  frame_InvalidationReason : string;
}.

Record Session := mkSession {
  ses_ID : string;
  ses_State : State;
  ses_AggregateVer : Z;
  ses_Context : FocusContext;
  ses_ActiveFrame : option FocusFrame;
  ses_FocusFrameInvalidated : bool;
  ses_AttachedQuiz : bool;
  ses_CompletedRoute : bool;
}.

Record Command := mkCommand {
  cmd_Action : Action;
  cmd_SessionID : string;
  cmd_FrameID : string;
  cmd_CreatedEventSequence : Z;
  cmd_Complete : bool;
  cmd_Context : option FocusContext;
}.

Record Transition := mkTransition {
  tr_Before : State;
  tr_Intermediate : list State;
  tr_After : State;
  tr_Events : list string;
  tr_Session : Session;
}.

#[export] Instance FocusContext_eq_dec : EqDecision FocusContext.
Proof. solve_decision. Defined.
#[export] Instance FocusFrame_eq_dec : EqDecision FocusFrame.
Proof. solve_decision. Defined.
#[export] Instance Session_eq_dec : EqDecision Session.
Proof. solve_decision. Defined.

(** ** Field assignments *)
Definition set_State (st : State) (s : Session) : Session :=
  mkSession (ses_ID s) st (ses_AggregateVer s) (ses_Context s) (ses_ActiveFrame s)
    (ses_FocusFrameInvalidated s) (ses_AttachedQuiz s) (ses_CompletedRoute s).
Definition set_Context (c : FocusContext) (s : Session) : Session :=
  mkSession (ses_ID s) (ses_State s) (ses_AggregateVer s) c (ses_ActiveFrame s)
    (ses_FocusFrameInvalidated s) (ses_AttachedQuiz s) (ses_CompletedRoute s).
Definition set_ActiveFrame (f : option FocusFrame) (s : Session) : Session :=
  mkSession (ses_ID s) (ses_State s) (ses_AggregateVer s) (ses_Context s) f
    (ses_FocusFrameInvalidated s) (ses_AttachedQuiz s) (ses_CompletedRoute s).
Definition set_AttachedQuiz (b : bool) (s : Session) : Session :=
  mkSession (ses_ID s) (ses_State s) (ses_AggregateVer s) (ses_Context s)
    (ses_ActiveFrame s) (ses_FocusFrameInvalidated s) b (ses_CompletedRoute s).

(** ** Helpers of state.go *)

(** Strings are immutable, so a clone of a pointer to one is the value. *)
Definition cloneString (value : option string) : option string :=
  match value with None => None | Some copy => Some copy end.

Definition cloneContext (value : FocusContext) : FocusContext :=
  mkFocusContext (ctx_GoalRevisionID value) (ctx_RouteRevisionID value)
    (ctx_RouteStepID value) (ctx_KnowledgeRevisionID value)
    (ctx_FocusNodeRevisionID value) (cloneString (ctx_ActivityID value))
    (cloneString (ctx_AttemptID value)).

Definition clearActivity (c : FocusContext) : FocusContext :=
  mkFocusContext (ctx_GoalRevisionID c) (ctx_RouteRevisionID c)
    (ctx_RouteStepID c) (ctx_KnowledgeRevisionID c)
    (ctx_FocusNodeRevisionID c) None None.

Definition invalidateFrame (session : Session) (reason : string) : Session :=
  match ses_ActiveFrame session with
  | None => session
  | Some f =>
    set_ActiveFrame (Some (mkFocusFrame (frame_ID f) (frame_SessionID f)
      (frame_SavedState f) (frame_Context f) (frame_SavedAggregateVersion f)
      (frame_CreatedEventSequence f) true reason)) session
  end.

(** The session holds a frame that has not been invalidated. *)
Definition live_frame (session : Session) : bool :=
  match ses_ActiveFrame session with
  | Some f => negb (frame_Invalidated f)
  | None => false
  end.

Definition HasAdaptiveFocus (session : Session) : bool :=
  match ses_ActiveFrame session with
  | None => false
  | Some f =>
    negb (frame_Invalidated f) && negb (ses_AttachedQuiz session)
    && negb (bool_decide (ctx_RouteRevisionID (frame_Context f)
                          = ctx_RouteRevisionID (ses_Context session)))
  end.

(** [command.Context], when given, replaces the session's context. *)
Definition override_Context (c : option FocusContext) (s : Session) : Session :=
  match c with Some c => set_Context (cloneContext c) s | None => s end.

(** ** The transition function *)
Definition Apply (input0 : Session) (command : Command)
  : result TutoringError Transition :=
  let input :=
    if decide (ses_State input0 = StateOther "") then set_State StateIdle input0
    else input0 in
  if decide (cmd_SessionID command ≠ "" ∧ ses_ID input ≠ ""
             ∧ cmd_SessionID command ≠ ses_ID input)
  then Err ErrSessionOwnership else
  let before := ses_State input in
  (* [set] closes over the transition built so far: its session and
     intermediate states. *)
  let set (session : Session) (intermediate : list State) (after : State)
          (events : list string) : result TutoringError Transition :=
    Ok (mkTransition before intermediate after events
          (override_Context (cmd_Context command) (set_State after session))) in
  let invalid : result TutoringError Transition :=
    Err (ErrInvalidTransition (cmd_Action command) before) in
  match cmd_Action command with
  | ActionCreateSession =>
    if decide (before ≠ StateIdle) then invalid
    else set input [] StateGoalReady ["LearningSessionStarted"; "TutoringStateChanged"]
  | ActionStartDiagnostic =>
    if decide (before ≠ StateGoalReady) then invalid
    else set input [] StateDiagnostic ["TutoringStateChanged"]
  | ActionApplyRoute =>
    if decide (before ≠ StateGoalReady ∧ before ≠ StateDiagnostic
               ∧ before ≠ StateRouteActive) then invalid
    else set input [] StateRouteActive ["RouteRevisionCreated"; "TutoringStateChanged"]
  | ActionIssueActivity =>
    if decide (before ≠ StateRouteActive) then invalid
    else set (set_AttachedQuiz false input) [] StateActivityIssued
           ["ActivityIssued"; "TutoringStateChanged"]
  | ActionPresentReview =>
    if decide (before ≠ StateRouteActive) then invalid
    else set (set_AttachedQuiz false input) [] StateActivityIssued
           ["ReviewPresented"; "ActivityIssued"; "TutoringStateChanged"]
  | ActionPresentActivity =>
    if decide (before ≠ StateActivityIssued) then invalid
    else set input [] StateAwaitingResponse ["ActivityPresented"; "TutoringStateChanged"]
  | ActionSubmitAttempt =>
    if decide (before ≠ StateAwaitingResponse) then invalid
    else set input [] StateEvaluating ["AttemptSubmitted"; "TutoringStateChanged"]
  | ActionRecordAssessment =>
    if decide (before ≠ StateEvaluating) then invalid
    else set input [] StateFeedback ["AssessmentRecorded"; "TutoringStateChanged"]
  | ActionAcknowledgeFeedback =>
    if decide (before ≠ StateFeedback) then invalid else
    let intermediate := [StateAdvanceOrReview] in
    match ses_ActiveFrame input with
    | Some f =>
      if ses_AttachedQuiz input && negb (frame_Invalidated f)
      then set (set_Context (cloneContext (frame_Context f)) (set_AttachedQuiz false input))
             intermediate StateFreeAnswer ["TutoringStateChanged"; "TutoringStateChanged"]
      else if cmd_Complete command || ses_CompletedRoute input
      then set input intermediate StateCompleted
             ["TutoringStateChanged"; "TutoringStateChanged"; "LearningCompleted"]
      else set input intermediate StateRouteActive
             ["TutoringStateChanged"; "RouteAdvanced"; "TutoringStateChanged"]
    | None =>
      if cmd_Complete command || ses_CompletedRoute input
      then set input intermediate StateCompleted
             ["TutoringStateChanged"; "TutoringStateChanged"; "LearningCompleted"]
      else set input intermediate StateRouteActive
             ["TutoringStateChanged"; "RouteAdvanced"; "TutoringStateChanged"]
    end
  | ActionRecordExposure =>
    if decide (before ≠ StateRouteActive) then invalid
    else set input [] StateRouteActive ["ExposureRecorded"]
  | ActionAskFreeQuestion =>
    if decide (before = StateFreeAnswer) then
      if negb (live_frame input) then Err ErrFocusFrameInvalid
      else set input [] StateFreeQuestion ["FreeQuestionAsked"; "TutoringStateChanged"]
    else if decide (before ≠ StateRouteActive ∧ before ≠ StateActivityIssued
                    ∧ before ≠ StateAwaitingResponse) then invalid
    else if live_frame input then Err ErrFocusFrameExists
    else
      let frame := mkFocusFrame (cmd_FrameID command) (ses_ID input) before
        (cloneContext (ses_Context input)) (ses_AggregateVer input)
        (cmd_CreatedEventSequence command) false "" in
      set (set_ActiveFrame (Some frame) input) [StateFocusSuspended] StateFreeQuestion
        ["FocusSuspended"; "FreeQuestionAsked"; "TutoringStateChanged"]
  | ActionRecordFreeAnswer =>
    if decide (before ≠ StateFreeQuestion) then invalid
    else set input [] StateFreeAnswer
           ["FreeAnswerRecorded"; "ExposureRecorded"; "TutoringStateChanged"]
  | ActionResumeFocus =>
    if ses_FocusFrameInvalidated input
       || from_option frame_Invalidated false (ses_ActiveFrame input)
    then Err ErrFocusFrameInvalid
    else if decide (before ≠ StateFreeQuestion ∧ before ≠ StateFreeAnswer) then invalid
    else
      match ses_ActiveFrame input with
      | None => Err ErrFocusFrameInvalid
      | Some frame =>
        Ok (mkTransition before [StateFocusResumed] (frame_SavedState frame)
              ["FocusResumed"; "TutoringStateChanged"]
              (set_State (frame_SavedState frame)
                 (set_ActiveFrame None
                    (set_Context (cloneContext (frame_Context frame)) input))))
      end
  | ActionConvertFreeAnswerToQuiz =>
    if decide (before ≠ StateFreeAnswer) then invalid
    else if negb (live_frame input) then invalid
    else set (set_AttachedQuiz true input) [] StateActivityIssued
           ["ActivityIssued"; "TutoringStateChanged"]
  | ActionEndActivity =>
    if decide (before ≠ StateActivityIssued ∧ before ≠ StateAwaitingResponse
               ∧ before ≠ StateEvaluating ∧ before ≠ StateFeedback) then invalid
    else
      let session := if HasAdaptiveFocus input then input
                     else invalidateFrame input "end_activity" in
      let session := set_AttachedQuiz false session in
      let session := set_Context (clearActivity (ses_Context session)) session in
      set session [] StateRouteActive ["ActivityEnded"; "TutoringStateChanged"]
  | ActionSwitchGoal =>
    if decide (before = StateCompleted) then invalid
    else
      let session := set_AttachedQuiz false (invalidateFrame input "switch_goal") in
      let session := set_Context (clearActivity (ses_Context session)) session in
      set session [] StateGoalReady ["TutoringStateChanged"]
  | ActionCompleteSession =>
    if decide (before ≠ StateRouteActive ∧ before ≠ StateAdvanceOrReview) then invalid
    else
      let session := if HasAdaptiveFocus input then input
                     else invalidateFrame input "complete_session" in
      set session [] StateCompleted ["LearningCompleted"; "TutoringStateChanged"]
  | ActionOther _ => invalid
  end.

(** ** Specification

    [edge st a st'] is the published matrix of the machine: action [a] leads
    from [st] to [st']. Resuming leads to the saved state of the frame, which
    the matrix leaves open. *)
Inductive edge : State → Action → State → Prop :=
| edge_create : edge StateIdle ActionCreateSession StateGoalReady
| edge_diagnostic : edge StateGoalReady ActionStartDiagnostic StateDiagnostic
| edge_route st : st ∈ [StateGoalReady; StateDiagnostic; StateRouteActive] →
    edge st ActionApplyRoute StateRouteActive
| edge_issue : edge StateRouteActive ActionIssueActivity StateActivityIssued
| edge_review : edge StateRouteActive ActionPresentReview StateActivityIssued
| edge_present : edge StateActivityIssued ActionPresentActivity StateAwaitingResponse
| edge_submit : edge StateAwaitingResponse ActionSubmitAttempt StateEvaluating
| edge_record : edge StateEvaluating ActionRecordAssessment StateFeedback
| edge_ack st : st ∈ [StateFreeAnswer; StateCompleted; StateRouteActive] →
    edge StateFeedback ActionAcknowledgeFeedback st
| edge_exposure : edge StateRouteActive ActionRecordExposure StateRouteActive
| edge_ask st : st ∈ [StateRouteActive; StateActivityIssued; StateAwaitingResponse;
                      StateFreeAnswer] →
    edge st ActionAskFreeQuestion StateFreeQuestion
| edge_answer : edge StateFreeQuestion ActionRecordFreeAnswer StateFreeAnswer
| edge_quiz : edge StateFreeAnswer ActionConvertFreeAnswerToQuiz StateActivityIssued
| edge_resume st saved : st ∈ [StateFreeQuestion; StateFreeAnswer] →
    edge st ActionResumeFocus saved
| edge_end st : st ∈ [StateActivityIssued; StateAwaitingResponse; StateEvaluating;
                      StateFeedback] →
    edge st ActionEndActivity StateRouteActive
| edge_switch st : st ≠ StateCompleted → edge st ActionSwitchGoal StateGoalReady
| edge_complete st : st ∈ [StateRouteActive; StateAdvanceOrReview] →
    edge st ActionCompleteSession StateCompleted.

(** The state the machine reads: an unset state counts as [Idle]. *)
Definition start_state (s : Session) : State :=
  if decide (ses_State s = StateOther "") then StateIdle else ses_State s.

(** The command names no session, or this one. *)
Definition owns (s : Session) (c : Command) : Prop :=
  cmd_SessionID c = "" ∨ ses_ID s = "" ∨ cmd_SessionID c = ses_ID s.

(** What an action demands of the focus frame, on top of the matrix. *)
Definition frame_ready (s : Session) (a : Action) : Prop :=
  match a with
  | ActionAskFreeQuestion =>
      if decide (start_state s = StateFreeAnswer) then live_frame s = true
      else live_frame s = false
  | ActionResumeFocus => live_frame s = true ∧ ses_FocusFrameInvalidated s = false
  | ActionConvertFreeAnswerToQuiz => live_frame s = true
  | _ => True
  end.

(** Invert a successful [Apply] guard by guard. *)
Ltac invert_apply H :=
  repeat match type of H with
  | Err _ = Ok _ => discriminate H
  | Ok _ = Ok _ => injection H as <-
  | context [decide ?P] => destruct (decide P) as [?|?]
  | context [match ?x with _ => _ end] =>
      lazymatch x with decide _ => fail | _ => destruct x eqn:? end
  end; simpl in *.

(** A session of which the machine has read the state. *)
Lemma Apply_start s c :
  Apply s c = Apply (set_State (start_state s) s) c.
Proof.
  unfold Apply, start_state. destruct s as [id st ver ctx fr inv quiz comp]; simpl.
  destruct (decide (st = StateOther "")) as [->|Hst]; simpl; [done|].
  by destruct (decide (st = StateOther "")).
Qed.

Lemma start_state_ne s : start_state s ≠ StateOther "".
Proof. unfold start_state. case_decide; congruence. Qed.

Lemma start_state_id s : ses_State s ≠ StateOther "" → start_state s = ses_State s.
Proof. intros. unfold start_state. by case_decide. Qed.

Lemma override_fields cc s :
  ses_ID (override_Context cc s) = ses_ID s
  ∧ ses_State (override_Context cc s) = ses_State s
  ∧ ses_AggregateVer (override_Context cc s) = ses_AggregateVer s
  ∧ ses_ActiveFrame (override_Context cc s) = ses_ActiveFrame s
  ∧ ses_FocusFrameInvalidated (override_Context cc s) = ses_FocusFrameInvalidated s
  ∧ ses_AttachedQuiz (override_Context cc s) = ses_AttachedQuiz s
  ∧ ses_CompletedRoute (override_Context cc s) = ses_CompletedRoute s.
Proof. by destruct cc. Qed.

Lemma invalidate_fields s reason :
  ses_ID (invalidateFrame s reason) = ses_ID s
  ∧ ses_State (invalidateFrame s reason) = ses_State s
  ∧ ses_AggregateVer (invalidateFrame s reason) = ses_AggregateVer s
  ∧ ses_FocusFrameInvalidated (invalidateFrame s reason) = ses_FocusFrameInvalidated s
  ∧ ses_AttachedQuiz (invalidateFrame s reason) = ses_AttachedQuiz s
  ∧ ses_CompletedRoute (invalidateFrame s reason) = ses_CompletedRoute s.
Proof. unfold invalidateFrame. by destruct (ses_ActiveFrame s). Qed.

(** *** The abstract machine

    A [View] keeps of a session what decides its future: the state, the saved
    state of a live focus frame, whether the current activity is a quiz
    attached to a free answer, whether focus recovery is barred, and whether
    the route is done. *)
Record View := mkView {
  v_state : State;
  v_saved : option State;
  v_quiz : bool;
  v_barred : bool;
  v_done : bool;
}.

Definition live_saved (s : Session) : option State :=
  match ses_ActiveFrame s with
  | Some f => if frame_Invalidated f then None else Some (frame_SavedState f)
  | None => None
  end.

Definition view (s : Session) : View :=
  mkView (start_state s) (live_saved s) (ses_AttachedQuiz s)
    (ses_FocusFrameInvalidated s) (ses_CompletedRoute s).

(** [adaptive] says that the live frame belongs to another route, so that
    ending the activity or the session keeps it. *)
Inductive vstep (adaptive : bool) : View → Action → View → Prop :=
| vs_create f q b d :
    vstep adaptive (mkView StateIdle f q b d) ActionCreateSession
      (mkView StateGoalReady f q b d)
| vs_diagnostic f q b d :
    vstep adaptive (mkView StateGoalReady f q b d) ActionStartDiagnostic
      (mkView StateDiagnostic f q b d)
| vs_route st f q b d :
    st ∈ [StateGoalReady; StateDiagnostic; StateRouteActive] →
    vstep adaptive (mkView st f q b d) ActionApplyRoute
      (mkView StateRouteActive f q b d)
| vs_issue a f q b d :
    a ∈ [ActionIssueActivity; ActionPresentReview] →
    vstep adaptive (mkView StateRouteActive f q b d) a
      (mkView StateActivityIssued f false b d)
| vs_present f q b d :
    vstep adaptive (mkView StateActivityIssued f q b d) ActionPresentActivity
      (mkView StateAwaitingResponse f q b d)
| vs_submit f q b d :
    vstep adaptive (mkView StateAwaitingResponse f q b d) ActionSubmitAttempt
      (mkView StateEvaluating f q b d)
| vs_record f q b d :
    vstep adaptive (mkView StateEvaluating f q b d) ActionRecordAssessment
      (mkView StateFeedback f q b d)
| vs_ack_quiz saved b d :
    vstep adaptive (mkView StateFeedback (Some saved) true b d)
      ActionAcknowledgeFeedback (mkView StateFreeAnswer (Some saved) false b d)
| vs_ack_complete f q b d :
    q && bool_decide (is_Some f) = false →
    vstep adaptive (mkView StateFeedback f q b d) ActionAcknowledgeFeedback
      (mkView StateCompleted f q b d)
| vs_ack_advance f q b :
    q && bool_decide (is_Some f) = false →
    vstep adaptive (mkView StateFeedback f q b false) ActionAcknowledgeFeedback
      (mkView StateRouteActive f q b false)
| vs_exposure f q b d :
    vstep adaptive (mkView StateRouteActive f q b d) ActionRecordExposure
      (mkView StateRouteActive f q b d)
| vs_follow_up saved q b d :
    vstep adaptive (mkView StateFreeAnswer (Some saved) q b d) ActionAskFreeQuestion
      (mkView StateFreeQuestion (Some saved) q b d)
| vs_suspend st q b d :
    st ∈ [StateRouteActive; StateActivityIssued; StateAwaitingResponse] →
    vstep adaptive (mkView st None q b d) ActionAskFreeQuestion
      (mkView StateFreeQuestion (Some st) q b d)
| vs_answer f q b d :
    vstep adaptive (mkView StateFreeQuestion f q b d) ActionRecordFreeAnswer
      (mkView StateFreeAnswer f q b d)
| vs_quiz saved q b d :
    vstep adaptive (mkView StateFreeAnswer (Some saved) q b d)
      ActionConvertFreeAnswerToQuiz (mkView StateActivityIssued (Some saved) true b d)
| vs_resume st saved q d :
    st ∈ [StateFreeQuestion; StateFreeAnswer] →
    vstep adaptive (mkView st (Some saved) q false d) ActionResumeFocus
      (mkView (if decide (saved = StateOther "") then StateIdle else saved) None q false d)
| vs_end st f q b d :
    st ∈ [StateActivityIssued; StateAwaitingResponse; StateEvaluating; StateFeedback] →
    vstep adaptive (mkView st f q b d) ActionEndActivity
      (mkView StateRouteActive (if adaptive then f else None) false b d)
| vs_switch st f q b d :
    st ≠ StateCompleted →
    vstep adaptive (mkView st f q b d) ActionSwitchGoal
      (mkView StateGoalReady None false b d)
| vs_complete st f q b d :
    st ∈ [StateRouteActive; StateAdvanceOrReview] →
    vstep adaptive (mkView st f q b d) ActionCompleteSession
      (mkView StateCompleted (if adaptive then f else None) q b d).
#[export] Hint Constructors vstep edge : tutoring.

Lemma live_frame_saved s : live_frame s = bool_decide (is_Some (live_saved s)).
Proof.
  unfold live_frame, live_saved.
  destruct (ses_ActiveFrame s) as [f|]; [destruct (frame_Invalidated f)|]; done.
Qed.

Lemma start_state_idem s : start_state (set_State (start_state s) s) = start_state s.
Proof. unfold start_state; simpl. by repeat case_decide. Qed.

Lemma view_start s : view (set_State (start_state s) s) = view s.
Proof. unfold view. by rewrite start_state_idem. Qed.

Lemma live_saved_invalidate s reason : live_saved (invalidateFrame s reason) = None.
Proof.
  unfold invalidateFrame, live_saved. destruct (ses_ActiveFrame s) eqn:E; simpl; [done|].
  by rewrite E.
Qed.

(** The view of a finished transition. *)
Lemma view_finish cc st s :
  st ≠ StateOther "" →
  view (override_Context cc (set_State st s))
  = mkView st (live_saved s) (ses_AttachedQuiz s) (ses_FocusFrameInvalidated s)
      (ses_CompletedRoute s).
Proof.
  intros. unfold view, start_state, live_saved.
  pose proof (override_fields cc (set_State st s)) as (_ & -> & _ & -> & -> & -> & ->).
  simpl. by case_decide.
Qed.

Lemma view_id s : ses_State s ≠ StateOther "" →
  view s = mkView (ses_State s) (live_saved s) (ses_AttachedQuiz s)
             (ses_FocusFrameInvalidated s) (ses_CompletedRoute s).
Proof. intros. unfold view. by rewrite start_state_id. Qed.

(** Reading the guards of [Apply] as facts about the state. *)
Ltac state_facts :=
  repeat match goal with
  | H : ¬ (_ ≠ _) |- _ => apply dec_stable in H
  | H : ¬ (_ ∧ _) |- _ => apply not_and_l in H
  | H : _ ∨ _ |- _ => destruct H
  end.

(** Ending keeps exactly the frames of another route. *)
Lemma kept_fields s reason :
  let s' := if HasAdaptiveFocus s then s else invalidateFrame s reason in
  live_saved s' = (if HasAdaptiveFocus s then live_saved s else None)
  ∧ ses_AttachedQuiz s' = ses_AttachedQuiz s
  ∧ ses_FocusFrameInvalidated s' = ses_FocusFrameInvalidated s
  ∧ ses_CompletedRoute s' = ses_CompletedRoute s.
Proof.
  simpl. pose proof (invalidate_fields s reason) as (_ & _ & _ & H1 & H2 & H3).
  destruct (HasAdaptiveFocus s); rewrite ?live_saved_invalidate; auto.
Qed.

(** The frame-dependent branches, one frame status at a time. *)
Ltac frame_cases s :=
  let f := fresh "f" in let Ef := fresh "Ef" in let Ei := fresh "Ei" in
  unfold live_frame, live_saved in *; simpl in *;
  destruct (ses_ActiveFrame s) as [f|] eqn:Ef; simpl in *;
  [destruct (frame_Invalidated f) eqn:Ei; simpl in *|]; try discriminate.

Lemma Apply_sound_started s c t :
  ses_State s ≠ StateOther "" →
  Apply s c = Ok t →
  vstep (HasAdaptiveFocus s) (view s) (cmd_Action c) (view (tr_Session t)).
Proof.
  intros Hne H. rewrite view_id by done. unfold Apply in H.
  rewrite (decide_False (P := ses_State s = StateOther "")) in H by done.
  destruct (decide _) as [?|_]; [discriminate H|].
  destruct (cmd_Action c) eqn:Ea; cbv beta zeta in H.
  all: repeat match type of H with
    | Err _ = Ok _ => discriminate H
    | (if decide ?P then _ else _) = _ => destruct (decide P) as [?|?]
    end; state_facts.
  all: try (injection H as <-; simpl; rewrite view_finish by done; simpl).
  all: rewrite ?live_saved_invalidate.
  all: try match goal with
    | |- context [if HasAdaptiveFocus ?s then ?s else invalidateFrame ?s ?r] =>
        pose proof (kept_fields s r) as (H1 & H2 & H3 & H4); cbv zeta in H1, H2, H3, H4
    end.
  all: repeat match goal with E : ses_State _ = _ |- _ => rewrite E in *; clear E end.
  all: try (constructor; set_solver).
  all: try (unfold live_saved in *; simpl in *; rewrite ?H1, ?H2, ?H3, ?H4;
    constructor; set_solver).
  - (* acknowledge *)
    frame_cases s;
      destruct (ses_AttachedQuiz s) eqn:Eq, (ses_CompletedRoute s) eqn:Ec,
        (cmd_Complete c); simpl in *; injection H as <-; simpl;
      rewrite view_finish by done; unfold live_saved; simpl;
      rewrite ?Ef, ?Ei, ?Eq, ?Ec; constructor; done.
  - frame_cases s. injection H as <-. simpl. rewrite view_finish by done.
    unfold live_saved. rewrite Ef, Ei. constructor.
  - frame_cases s; injection H as <-; simpl; rewrite view_finish by done;
      constructor; set_solver.
  - frame_cases s; injection H as <-; simpl; rewrite view_finish by done;
      constructor; set_solver.
  - frame_cases s; injection H as <-; simpl; rewrite view_finish by done;
      constructor; set_solver.
  - frame_cases s. injection H as <-. simpl. rewrite view_finish by done.
    unfold live_saved. simpl. rewrite Ef, Ei. constructor.
  - destruct (ses_FocusFrameInvalidated s) eqn:Eb; simpl in H; [discriminate|].
    frame_cases s; destruct (decide _) as [?|?]; try discriminate; state_facts;
      injection H as <-; unfold view, live_saved, start_state; simpl; rewrite Eb;
      constructor; set_solver.
- pose proof (live_saved_invalidate s "switch_goal") as Hl.
    pose proof (invalidate_fields s "switch_goal") as (_ & _ & _ & -> & _ & ->).
    unfold live_saved in *; simpl in *. rewrite Hl. by constructor.
Qed.

(** Every concrete move is a move of the abstract machine. *)
Lemma Apply_sound s c t :
  Apply s c = Ok t →
  vstep (HasAdaptiveFocus s) (view s) (cmd_Action c) (view (tr_Session t)).
Proof.
  rewrite Apply_start, <- (view_start s). intros H.
  apply Apply_sound_started in H; [exact H|]. simpl. apply start_state_ne.
Qed.

(** The command that drives an abstract move: it completes the route when the
    target is [Completed]. *)
Definition drive (a : Action) (target : View) : Command :=
  mkCommand a "" "" 0 (bool_decide (v_state target = StateCompleted)) None.

Lemma vstep_det ad v a v1 v2 :
  vstep ad v a v1 → vstep ad v a v2 →
  (a = ActionAcknowledgeFeedback → v_state v1 = v_state v2) → v1 = v2.
Proof.
  intros H1 H2 Hack. inversion H1; subst; inversion H2; subst; simpl in *;
    try done; try (specialize (Hack eq_refl)); try discriminate; try set_solver.
Qed.

Lemma Apply_complete_started s a v :
  ses_State s ≠ StateOther "" →
  vstep (HasAdaptiveFocus s) (view s) a v →
  ∃ t, Apply s (drive a v) = Ok t
       ∧ (a = ActionAcknowledgeFeedback → v_state (view (tr_Session t)) = v_state v).
Proof.
  intros Hne. rewrite view_id by done. intros H.
  unfold Apply. rewrite (decide_False (P := ses_State s = StateOther "")) by done.
  rewrite decide_False by (simpl; tauto). simpl.
  inversion H; subst; simpl; set_unfold; destruct_or?; subst; simpl.
  all: try match goal with E : ses_State _ = _ |- _ => rewrite E end.
  all: repeat match goal with
    | |- context [decide ?P] =>
        first [rewrite (decide_False (P := P)) by set_solver
              |rewrite (decide_True (P := P)) by set_solver]
    end; eauto.
  all: clear H; frame_cases s; simplify_eq; simpl in *;
    repeat match goal with
    | E : _ = ses_AttachedQuiz _ |- _ => rewrite <- E in *; clear E
    | E : _ = ses_CompletedRoute _ |- _ => rewrite <- E in *; clear E
    | E : _ = ses_FocusFrameInvalidated _ |- _ => rewrite <- E in *; clear E
    end; simpl in *; try (destruct (ses_AttachedQuiz s); simpl in *; try discriminate);
    eauto.
Qed.

(** Every move of the abstract machine is a move of the program. *)
Lemma Apply_complete s a v :
  vstep (HasAdaptiveFocus s) (view s) a v →
  ∃ t, Apply s (drive a v) = Ok t ∧ view (tr_Session t) = v.
Proof.
  rewrite Apply_start, <- (view_start s). intros H.
  destruct (Apply_complete_started (set_State (start_state s) s) a v) as (t & Ht & Hack);
    [apply start_state_ne | exact H |].
  exists t. split; [exact Ht|].
  apply Apply_sound_started in Ht; [|apply start_state_ne].
  eapply vstep_det; [exact Ht | exact H | exact Hack].
Qed.

Lemma Apply_owns s c t : Apply s c = Ok t → owns s c.
Proof.
  rewrite Apply_start. unfold Apply, owns.
  rewrite (decide_False (P := ses_State _ = StateOther "")) by apply start_state_ne.
  intros H. destruct (decide _) as [|Hn]; [discriminate|]. simpl in Hn. clear H.
  destruct (decide (cmd_SessionID c = "")), (decide (ses_ID s = "")),
    (decide (cmd_SessionID c = ses_ID s)); naive_solver.
Qed.

(** *** Invariant of reachable sessions *)

(** States in which a session can rest between two commands. *)
Definition resting_states : list State :=
  [StateIdle; StateGoalReady; StateDiagnostic; StateRouteActive; StateActivityIssued;
   StateAwaitingResponse; StateEvaluating; StateFeedback; StateCompleted;
   StateFreeQuestion; StateFreeAnswer].
Definition free_states : list State := [StateFreeQuestion; StateFreeAnswer].
Definition quiz_states : list State :=
  [StateActivityIssued; StateAwaitingResponse; StateEvaluating; StateFeedback].
Definition suspendable_states : list State :=
  [StateRouteActive; StateActivityIssued; StateAwaitingResponse].

Definition one_of (l : list State) (st : State) : bool :=
  existsb (fun x => bool_decide (x = st)) l.

Definition view_ok (v : View) : bool :=
  one_of resting_states (v_state v)
  (* a frame is live exactly during a free question or its attached quiz *)
  && Bool.eqb (bool_decide (is_Some (v_saved v))) (one_of free_states (v_state v) || v_quiz v)
  && implb (v_quiz v) (one_of quiz_states (v_state v))
  && match v_saved v with Some st => one_of suspendable_states st | None => true end.

(** Sessions a service can hold: a new session moved by successful commands;
    between two commands the store sets the version, the completed-route mark
    and the barred mark as it finds them. *)
Inductive reachable : Session → Prop :=
| reach_new id ver ctx barred completed st :
    st = StateIdle ∨ st = StateOther "" →
    reachable (mkSession id st ver ctx None barred false completed)
| reach_apply s c t :
    reachable s → Apply s c = Ok t → reachable (tr_Session t)
| reach_load s ver barred completed :
    reachable s →
    reachable (mkSession (ses_ID s) (ses_State s) ver (ses_Context s) (ses_ActiveFrame s)
                 barred (ses_AttachedQuiz s) completed).

Lemma one_of_elem l st : one_of l st = true ↔ st ∈ l.
Proof.
  unfold one_of. rewrite existsb_exists. setoid_rewrite bool_decide_eq_true.
  setoid_rewrite <- list_elem_of_In. naive_solver.
Qed.

Lemma vstep_ok ad v a v' :
  (ad = true → is_Some (v_saved v) ∧ v_quiz v = false) →
  view_ok v = true → vstep ad v a v' → view_ok v' = true.
Proof.
  intros Had Hok Hs. unfold view_ok in *.
  destruct Hs; simpl v_state in *; simpl v_saved in *; simpl v_quiz in *;
    try (match goal with H : _ ∈ _ |- _ => set_unfold in H; destruct_or? end; subst).
  all: try (destruct f as [sv|]); try (destruct q); destruct ad;
    try (destruct Had as [[] ?]; [done|]); try discriminate; try done.
  all: apply one_of_elem in Hok; unfold suspendable_states in Hok; set_unfold in Hok;
    destruct_or?; subst; done.
Qed.

Lemma reachable_view_ok s : reachable s → view_ok (view s) = true.
Proof.
  induction 1 as [id ver ctx barred completed st Hst|s c t _ IH Ht|s ver barred completed _ IH].
  - unfold view, start_state, live_saved; simpl.
    assert ((if decide (st = StateOther "") then StateIdle else st) = StateIdle) as ->
      by (case_decide; naive_solver). done.
  - eapply vstep_ok, Apply_sound, Ht; [|exact IH].
    unfold HasAdaptiveFocus, view, live_saved; simpl.
    destruct (ses_ActiveFrame s) as [f|]; [|done].
    destruct (frame_Invalidated f), (ses_AttachedQuiz s); simpl; naive_solver.
  - exact IH.
Qed.

(** *** Running a list of commands *)
Definition step (s : Session) (c : Command) : result TutoringError Session :=
  t ← Apply s c; Ok (tr_Session t).

(** One round of a conversation: a (follow-up) question and its answer. *)
Definition round_of (s : Session) (r : Command * Command) : Prop :=
  cmd_Action r.1 = ActionAskFreeQuestion ∧ owns s r.1
  ∧ cmd_Action r.2 = ActionRecordFreeAnswer ∧ owns s r.2.

Definition conversation (rounds : list (Command * Command)) : list Command :=
  rounds ≫= fun r => [r.1; r.2].

(** [t] is the conversation about [s] that the frame [f] can end. *)
Definition suspended (s : Session) (f : FocusFrame) (t : Session) : Prop :=
  ses_State t = StateFreeAnswer ∧ ses_ActiveFrame t = Some f
  ∧ frame_Invalidated f = false ∧ frame_SavedState f = ses_State s
  ∧ frame_Context f = ses_Context s
  ∧ ses_ID t = ses_ID s ∧ ses_AggregateVer t = ses_AggregateVer s
  ∧ ses_FocusFrameInvalidated t = ses_FocusFrameInvalidated s
  ∧ ses_AttachedQuiz t = ses_AttachedQuiz s
  ∧ ses_CompletedRoute t = ses_CompletedRoute s.

Lemma cloneContext_id c : cloneContext c = c.
Proof. by destruct c as [? ? ? ? ? [] []]. Qed.

Lemma owns_guard s c :
  owns s c →
  ¬ (cmd_SessionID c ≠ "" ∧ ses_ID s ≠ "" ∧ cmd_SessionID c ≠ ses_ID s).
Proof. unfold owns. naive_solver. Qed.

Lemma owns_proper s s' c : ses_ID s = ses_ID s' → owns s c → owns s' c.
Proof. unfold owns. by intros ->. Qed.

(** Evaluate [Apply] at a known state. *)
Ltac run_apply Hst :=
  unfold step, Apply; rewrite ?Hst;
  repeat match goal with
  | |- context [decide ?P] =>
      first [rewrite (decide_False (P := P)) by (simpl; first [by apply owns_guard | intuition congruence])
            |rewrite (decide_True (P := P)) by (simpl; intuition congruence)]
  end; simpl.

Lemma answer_suspended s f t c :
  ses_State t = StateFreeQuestion → cmd_Action c = ActionRecordFreeAnswer → owns t c →
  suspended s f (set_State StateFreeAnswer t) →
  ∃ t', step t c = Ok t' ∧ suspended s f t'.
Proof.
  intros Hst Ha Hown Hs. run_apply Hst. rewrite Ha. run_apply Hst.
  eexists; split; [done|]. unfold suspended in *.
  pose proof (override_fields (cmd_Context c) (set_State StateFreeAnswer t))
    as (-> & -> & -> & -> & -> & -> & ->). exact Hs.
Qed.

Lemma ask_suspends s c :
  ses_State s ∈ suspendable_states → live_frame s = false →
  cmd_Action c = ActionAskFreeQuestion → owns s c →
  ∃ t f, step s c = Ok t ∧ ses_State t = StateFreeQuestion
         ∧ suspended s f (set_State StateFreeAnswer t).
Proof.
  intros Hst Hlive Ha Hown. unfold suspendable_states in Hst. set_unfold in Hst.
  destruct_or!; run_apply Hst; rewrite Ha; run_apply Hst; rewrite Hlive; simpl;
    (eexists _, _; split; [done|]); unfold suspended;
    match goal with |- context [override_Context ?cc ?x] =>
      pose proof (override_fields cc x) as (E1 & E2 & E3 & E4 & E5 & E6 & E7) end;
    simpl in *; rewrite E1, E2, E3, E4, E5, E6, E7; simpl;
    rewrite ?cloneContext_id, ?Hst; eauto 15.
Qed.

Lemma follow_up_suspended s f t c :
  suspended s f t → cmd_Action c = ActionAskFreeQuestion → owns t c →
  ∃ t', step t c = Ok t' ∧ ses_State t' = StateFreeQuestion
        ∧ suspended s f (set_State StateFreeAnswer t').
Proof.
  intros (Hst & Hf & Hi & Hrest) Ha Hown. run_apply Hst. rewrite Ha. run_apply Hst.
  unfold live_frame. rewrite Hf, Hi. simpl. eexists; split; [done|].
  unfold suspended.
  pose proof (override_fields (cmd_Context c) (set_State StateFreeQuestion t))
    as (E1 & E2 & E3 & E4 & E5 & E6 & E7).
  simpl in *. rewrite E1, E2, E3, E4, E5, E6, E7. auto.
Qed.

Lemma rounds_suspended s f t rounds :
  suspended s f t → Forall (round_of s) rounds →
  ∃ t', fold_result step t (conversation rounds) = Ok t' ∧ suspended s f t'.
Proof.
  intros Hs Hr. revert t Hs.
  induction Hr as [|[q a] rounds (Hq & Hoq & Ha & Hoa) _ IH]; intros t Hs; [by eexists|].
  simpl in *. destruct Hs as (Hst & Hf & Hi & H1 & H2 & Hid & Hrest).
  destruct (follow_up_suspended s f t q) as (t1 & -> & Hst1 & Hs1);
    [by unfold suspended; auto 15 | done | by eapply owns_proper |].
  destruct (answer_suspended s f t1 a) as (t2 & Ht2 & Hs2);
    [done | done | eapply owns_proper, Hoa; symmetry; apply Hs1 | done |].
  simpl. rewrite Ht2. simpl. by apply IH.
Qed.

Lemma resume_suspended s f t c :
  suspended s f t → ses_FocusFrameInvalidated s = false →
  cmd_Action c = ActionResumeFocus → owns t c →
  step t c = Ok (set_ActiveFrame None s).
Proof.
  intros (Hst & Hf & Hi & H1 & H2 & Hid & Hver & Hb & Hq & Hd) Hbar Ha Hown.
  run_apply Hst. rewrite Ha. rewrite Hb, Hbar, Hf. simpl. rewrite Hi. run_apply Hst.
  unfold set_State, set_ActiveFrame, set_Context. simpl.
  rewrite cloneContext_id, H1, H2, Hid, Hver, Hb, Hq, Hd. done.
Qed.

(** ** Theorems *)

(** C1. The program's transition function and the abstract machine of focus
    frames and attached quizzes make the same moves: an action takes a session
    to a view for some command exactly when the abstract machine takes that
    step. *)
Theorem Apply_refines_machine s a v :
  (∃ c t, cmd_Action c = a ∧ Apply s c = Ok t ∧ view (tr_Session t) = v)
  ↔ vstep (HasAdaptiveFocus s) (view s) a v.
Proof.
  split.
  - intros (c & t & <- & Ht & <-). by apply Apply_sound.
  - intros H. apply Apply_complete in H as (t & Ht & Hv).
    by exists (drive a v), t.
Qed.

(** In every reachable session the state is one a session can rest in, a
    focus frame is live exactly while a free question or the quiz attached to
    it is going on, an attached quiz is in one of the four activity states, and
    a live frame saves a state that was suspendable. *)
Theorem reachable_invariant s :
  reachable s →
  start_state s ∈ resting_states
  ∧ (live_frame s = true ↔ start_state s ∈ free_states ∨ ses_AttachedQuiz s = true)
  ∧ (ses_AttachedQuiz s = true → start_state s ∈ quiz_states)
  ∧ (∀ f, ses_ActiveFrame s = Some f → frame_Invalidated f = false →
          frame_SavedState f ∈ suspendable_states).
Proof.
  intros H. apply reachable_view_ok in H.
  unfold view_ok, view in H. cbn [v_state v_saved v_quiz] in H.
  apply andb_true_iff in H as [H H4]. apply andb_true_iff in H as [H H3].
  apply andb_true_iff in H as [H1 H2]. apply eqb_prop in H2.
  rewrite live_frame_saved, H2, orb_true_iff, one_of_elem.
  split; [by apply one_of_elem|]. split; [done|]. split.
  - intros Hq. rewrite Hq in H3. by apply one_of_elem.
  - intros f Hf Hi. unfold live_saved in H4. rewrite Hf, Hi in H4. by apply one_of_elem.
Qed.

Definition sample_context : FocusContext :=
  mkFocusContext "goal-1" "route-1" "step-1" "knowledge-1" "node-1" (Some "activity-1") None.
Definition sample_command (a : Action) : Command := mkCommand a "" "frame-1" 10 false None.
Definition sample_session (st : State) (f : option FocusFrame) : Session :=
  mkSession "session-1" st 7 sample_context f false false false.

Definition sample_asked : Transition :=
  Eval vm_compute in
  match Apply (sample_session StateIdle None) (sample_command ActionSwitchGoal) with
  | Ok t => t
  | Err _ => mkTransition StateIdle [] StateIdle [] (sample_session StateIdle None)
  end.

Lemma reachable_invariant_witness :
  reachable (tr_Session sample_asked)
  ∧ start_state (tr_Session sample_asked) ∈ resting_states.
Proof.
  assert (reachable (tr_Session sample_asked)) as H.
  { eapply (reach_apply (sample_session StateIdle None) (sample_command ActionSwitchGoal));
      [apply reach_new; by left | vm_compute; reflexivity]. }
  split; [exact H|]. exact (proj1 (reachable_invariant _ H)).
Defined.

(** A completed session is terminal: every command on it is refused and
    no action can be driven through it. *)
Theorem completed_is_terminal s c :
  ses_State s = StateCompleted → ∃ e, Apply s c = Err e.
Proof.
  intros Hst. destruct (Apply s c) as [t|e] eqn:Ht; [exfalso|by eexists].
  apply Apply_sound in Ht. rewrite view_id in Ht by congruence.
  rewrite Hst in Ht. inversion Ht; set_solver.
Qed.

Lemma completed_is_terminal_witness :
  ses_State (sample_session StateCompleted None) = StateCompleted
  ∧ ∃ e, Apply (sample_session StateCompleted None) (sample_command ActionSwitchGoal) = Err e.
Proof. split; [reflexivity | by apply completed_is_terminal]. Defined.

(** A conversation restores the session: whatever contexts the commands in
    between carry, a first question and answer, any number of follow-up rounds
    and a resume bring back exactly the session that was suspended, without a
    frame. *)
Theorem focus_round_trip s q a rounds r :
  ses_State s ∈ suspendable_states → live_frame s = false →
  ses_FocusFrameInvalidated s = false →
  round_of s (q, a) → Forall (round_of s) rounds →
  cmd_Action r = ActionResumeFocus → owns s r →
  fold_result step s (conversation ((q, a) :: rounds) ++ [r])
  = Ok (set_ActiveFrame None s).
Proof.
  intros Hst Hlive Hbar (Hq & Hoq & Ha & Hoa) Hrounds Hr Hor. simpl in *.
  change (mbind _ rounds) with (conversation rounds).
  destruct (ask_suspends s q) as (t1 & f & -> & Hst1 & Hs1); [done..|]. simpl.
  destruct (answer_suspended s f t1 a) as (t2 & -> & Hs2);
    [done | done | eapply owns_proper, Hoa; symmetry; apply Hs1 | done |]. simpl.
  destruct (rounds_suspended s f t2 rounds) as (t3 & Ht3 & Hs3); [done..|].
  rewrite fold_result_app, Ht3. simpl.
  rewrite (resume_suspended s f t3 r Hs3 Hbar Hr); [done|].
  eapply owns_proper, Hor. symmetry. apply Hs3.
Qed.

Definition sample_round : Command * Command :=
  (sample_command ActionAskFreeQuestion, sample_command ActionRecordFreeAnswer).

Lemma focus_round_trip_witness :
  fold_result step (sample_session StateAwaitingResponse None)
    (conversation [sample_round; sample_round; sample_round]
     ++ [sample_command ActionResumeFocus])
  = Ok (set_ActiveFrame None (sample_session StateAwaitingResponse None)).
Proof.
  apply (focus_round_trip _ sample_round.1 sample_round.2 [sample_round; sample_round]
           (sample_command ActionResumeFocus)).
  - apply one_of_elem. reflexivity.
  - reflexivity.
  - reflexivity.
  - unfold round_of, owns. simpl. auto 10.
  - unfold round_of, owns. repeat constructor; simpl; auto.
  - reflexivity.
  - left. reflexivity.
Defined.

(** A quiz attached to [s] that has reached state [st]. *)
Definition quizzing (s : Session) (f : FocusFrame) (st : State) (t : Session) : Prop :=
  ses_State t = st ∧ ses_ActiveFrame t = Some f ∧ ses_AttachedQuiz t = true
  ∧ ses_ID t = ses_ID s ∧ ses_AggregateVer t = ses_AggregateVer s
  ∧ ses_FocusFrameInvalidated t = ses_FocusFrameInvalidated s
  ∧ ses_CompletedRoute t = ses_CompletedRoute s.

Lemma quizzing_override s f st t cc :
  quizzing s f st t → quizzing s f st (override_Context cc t).
Proof.
  unfold quizzing.
  by pose proof (override_fields cc t) as (-> & -> & -> & -> & -> & -> & ->).
Qed.

(** The three middle moves of an activity. *)
Lemma quizzing_step s f st a st' t c :
  (st, a, st') ∈ [(StateActivityIssued, ActionPresentActivity, StateAwaitingResponse);
                  (StateAwaitingResponse, ActionSubmitAttempt, StateEvaluating);
                  (StateEvaluating, ActionRecordAssessment, StateFeedback)] →
  quizzing s f st t → cmd_Action c = a → owns s c →
  ∃ t', step t c = Ok t' ∧ quizzing s f st' t'.
Proof.
  intros Hin Hq Ha Hown. set_unfold in Hin.
  destruct_or!; injection Hin as -> -> ->; destruct Hq as (Hst & Hf & Hqz & Hid & Hrest);
    assert (owns t c) by (by eapply owns_proper, Hown);
    run_apply Hst; rewrite Ha; run_apply Hst; (eexists; split; [done|]);
    apply quizzing_override; unfold quizzing; simpl; auto 10.
Qed.

Lemma convert_quizzing s f c :
  ses_State s = StateFreeAnswer → ses_ActiveFrame s = Some f →
  frame_Invalidated f = false → cmd_Action c = ActionConvertFreeAnswerToQuiz →
  owns s c → ∃ t, step s c = Ok t ∧ quizzing s f StateActivityIssued t.
Proof.
  intros Hst Hf Hi Ha Hown. run_apply Hst. rewrite Ha. run_apply Hst.
  unfold live_frame. rewrite Hf, Hi. simpl. eexists; split; [done|].
  apply quizzing_override. unfold quizzing; simpl; auto 10.
Qed.

Lemma acknowledge_quizzing s f t c :
  ses_State s = StateFreeAnswer → ses_ActiveFrame s = Some f →
  frame_Invalidated f = false → quizzing s f StateFeedback t →
  cmd_Action c = ActionAcknowledgeFeedback → owns s c → cmd_Context c = None →
  step t c = Ok (set_Context (frame_Context f) (set_AttachedQuiz false s)).
Proof.
  intros Hss Hsf Hi (Hst & Hf & Hqz & Hid & Hver & Hbar & Hdone) Ha Hown Hctx.
  assert (owns t c) by (by eapply owns_proper, Hown).
  run_apply Hst. rewrite Ha. run_apply Hst. rewrite Hf, Hqz, Hi, Hctx. simpl.
  unfold set_Context, set_AttachedQuiz, set_State; simpl.
  by rewrite cloneContext_id, Hf, Hid, Hver, Hbar, Hdone, Hss, Hsf.
Qed.

(** A quiz attached to a free answer comes back to it: converting,
    presenting, submitting, recording and acknowledging return to the free
    answer with the same live frame and the context the frame saved, without
    advancing or completing the route. *)
Theorem attached_quiz_returns s f convert present submit record ack :
  ses_State s = StateFreeAnswer → ses_ActiveFrame s = Some f →
  frame_Invalidated f = false →
  cmd_Action <$> [convert; present; submit; record; ack]
  = [ActionConvertFreeAnswerToQuiz; ActionPresentActivity; ActionSubmitAttempt;
     ActionRecordAssessment; ActionAcknowledgeFeedback] →
  Forall (owns s) [convert; present; submit; record; ack] →
  cmd_Context ack = None →
  fold_result step s [convert; present; submit; record; ack]
  = Ok (set_Context (frame_Context f) (set_AttachedQuiz false s)).
Proof.
  intros Hst Hf Hi Hacts Hown Hctx. simplify_eq/=.
  rewrite !Forall_cons in Hown. destruct Hown as (O1 & O2 & O3 & O4 & O5 & _).
  destruct (convert_quizzing s f convert) as (s1 & E1 & Q1); [done..|].
  destruct (quizzing_step s f StateActivityIssued ActionPresentActivity
              StateAwaitingResponse s1 present) as (s2 & E2 & Q2); [set_solver|done..|].
  destruct (quizzing_step s f StateAwaitingResponse ActionSubmitAttempt
              StateEvaluating s2 submit) as (s3 & E3 & Q3); [set_solver|done..|].
  destruct (quizzing_step s f StateEvaluating ActionRecordAssessment
              StateFeedback s3 record) as (s4 & E4 & Q4); [set_solver|done..|].
  rewrite E1; simpl. rewrite E2; simpl. rewrite E3; simpl. rewrite E4; simpl.
  by rewrite (acknowledge_quizzing s f s4 ack).
Qed.

Definition sample_frame : FocusFrame :=
  mkFocusFrame "frame-1" "session-1" StateRouteActive sample_context 7 10 false "".

Lemma attached_quiz_returns_witness :
  fold_result step (sample_session StateFreeAnswer (Some sample_frame))
    (sample_command <$> [ActionConvertFreeAnswerToQuiz; ActionPresentActivity;
       ActionSubmitAttempt; ActionRecordAssessment; ActionAcknowledgeFeedback])
  = Ok (sample_session StateFreeAnswer (Some sample_frame)).
Proof.
  apply (attached_quiz_returns (sample_session StateFreeAnswer (Some sample_frame))
    sample_frame); try reflexivity.
  repeat constructor; left; reflexivity.
Defined.

(** Which frame errors a command can meet, given that it owns the session. *)
Definition frame_error (s : Session) (a : Action) : option TutoringError :=
  match a with
  | ActionAskFreeQuestion =>
      if one_of suspendable_states (start_state s) && live_frame s
      then Some ErrFocusFrameExists
      else if one_of [StateFreeAnswer] (start_state s) && negb (live_frame s)
      then Some ErrFocusFrameInvalid else None
  | ActionResumeFocus =>
      if ses_FocusFrameInvalidated s
         || from_option frame_Invalidated false (ses_ActiveFrame s)
      then Some ErrFocusFrameInvalid
      else if one_of free_states (start_state s)
              && negb (bool_decide (is_Some (ses_ActiveFrame s)))
      then Some ErrFocusFrameInvalid else None
  | _ => None
  end.

(** The frame errors are reported exactly where they must be: a command
    that owns the session is refused for its focus frame if and only if
    [frame_error] says so, and with that error. *)
Theorem Apply_frame_errors s c e :
  owns s c → e ∈ [ErrFocusFrameExists; ErrFocusFrameInvalid] →
  Apply s c = Err e ↔ frame_error s (cmd_Action c) = Some e.
Proof.
  intros Hown He. rewrite Apply_start.
  pose proof (start_state_ne s) as Hne.
  unfold Apply. rewrite (decide_False (P := ses_State _ = StateOther "")) by done.
  rewrite (decide_False (P := _ ∧ _)) by (by apply owns_guard).
  cbn [ses_State set_State]. unfold frame_error, live_frame.
  cbn [ses_ActiveFrame set_State ses_FocusFrameInvalidated].
  destruct (cmd_Action c) eqn:Ea; cbv beta zeta.
  all: try (split; [intros H|discriminate];
    repeat match type of H with
    | Ok _ = Err _ => discriminate H
    | Err _ = Err _ => injection H as <-; set_unfold in He; destruct_or?; discriminate
    | (if ?b then _ else _) = _ => destruct b
    | match ?o with Some _ => _ | None => _ end = _ => destruct o
    end).
  all: clear Ea; generalize dependent (start_state s); intros st Hne;
    destruct (ses_ActiveFrame s) as [f|]; simpl; try destruct (frame_Invalidated f);
    try destruct (ses_FocusFrameInvalidated s); destruct st; simpl;
    set_unfold in He; destruct_or!; subst; split; intros; simplify_eq; done.
Qed.

Lemma Apply_frame_errors_witness :
  Apply (sample_session StateActivityIssued (Some sample_frame))
    (sample_command ActionAskFreeQuestion) = Err ErrFocusFrameExists.
Proof.
  apply (Apply_frame_errors (sample_session StateActivityIssued (Some sample_frame))
           (sample_command ActionAskFreeQuestion) ErrFocusFrameExists).
  - left. reflexivity.
  - left.
  - reflexivity.
Defined.
End Tutoring.
