(* ===== verification/LearningSpace.v ===== *)
(** * Learning spaces

    [server/internal/learningspace/domain.go]: the scope every business call
    carries in its context, and the validation of the commands on spaces. Goals,
    planning drafts and the retrieval of knowledge share it. *)
From S2P Require Import Prelude GoStd Packages.

(** ** Data *)
Inductive space_error : Type := SpaceError (Code : string).

Definition DefaultID : string := "00000000-0000-4000-8000-000000000001".

Record SpaceCommand := mkSpaceCommand {
  SpaceCommand_Direction : option string;
  SpaceCommand_OperationID : string;
  SpaceCommand_ExpectedVersion : Z;
  SpaceCommand_Name : string;
  SpaceCommand_Description : string;
  SpaceCommand_Status : string;
}.

Definition Invalid : space_error := SpaceError "invalid_learning_space".

(** ** Operations *)
Section LearningSpace.
Context `{UUIDPackage}.

Definition ValidID (id : string) : bool :=
  match uuid_Parse id with
  | Some u => negb (bool_decide (u = uuid_Nil)) && bool_decide (u = id)
  | None => false
  end.

Definition invalid_direction (direction : option string) : bool :=
  match direction with
  | Some d => negb (valid_utf8 d) || bool_decide (trim_space d = "") || (2000 <? rune_count (trim_space d))
  | None => false
  end.

Definition SpaceCommand_Validate (create : bool) (c : SpaceCommand) : result space_error unit :=
  _ ← fail_if (invalid_direction (SpaceCommand_Direction c)) Invalid;
  fail_if (negb (ValidID (SpaceCommand_OperationID c))
           || (create && negb (SpaceCommand_ExpectedVersion c =? 0))
           || (negb create && (SpaceCommand_ExpectedVersion c <? 1))
           || bool_decide (trim_space (SpaceCommand_Name c) = "") || (120 <? rune_count (SpaceCommand_Name c))
           || negb (valid_utf8 (SpaceCommand_Name c))
           || (2000 <? rune_count (SpaceCommand_Description c)) || negb (valid_utf8 (SpaceCommand_Description c))
           || (negb (bool_decide (SpaceCommand_Status c = "active")) && negb (bool_decide (SpaceCommand_Status c = "archived")))
           || (create && negb (bool_decide (SpaceCommand_Status c = "active"))))
    Invalid.

(** The value of [scopeKey] in a context. *)
Definition WithScope (ctx : option string) (id : string) : result space_error (option string) :=
  _ ← fail_if (negb (ValidID id)) Invalid; Ok (Some id).
Definition Scope (ctx : option string) : string := default DefaultID ctx.

Definition RequireLegacyModule (ctx : option string) : result space_error unit :=
  fail_if (negb (bool_decide (Scope ctx = DefaultID))) (SpaceError "learning_space_module_unavailable").
End LearningSpace.
