(* ===== verification/LearningDomain.v ===== *)
(** * The learning domain

    [server/internal/learning/domain.go]: the error type, the immutable records
    of goals, routes, activities, attempts, assessments and evidence, the
    validators of commands and routes, and the canonical order of evidence.
    A string type with named constants is an inductive type with one
    constructor per constant and [XOther] for every other string; a pointer is
    an [option], a [time.Time] an instant. *)
From S2P Require Import Prelude GoStd.

(** ** Errors *)
Inductive error : Type :=
| ErrorNew (message : string)
| LearningError (Code AggregateType AggregateID : string)
    (ExpectedVersion CurrentVersion AsOfEventSequence : Z)
    (CurrentDisposition Reason : string) (Cause : option error)
| ErrorWrap (message : string) (err : error).

(** [errors.As] finds the first [*Error] of the chain. *)
Fixpoint ErrorCode (err : error) : string :=
  match err with
  | ErrorNew _ => ""
  | LearningError Code _ _ _ _ _ _ _ _ => Code
  | ErrorWrap _ err => ErrorCode err
  end.

Definition CodeInvalidRequest := "invalid_request".
Definition CodeNotFound := "not_found".
Definition CodeIdempotencyConflict := "idempotency_conflict".
Definition CodeVersionConflict := "version_conflict".
Definition CodeInvalidTransition := "invalid_transition".
Definition CodeKnowledgeReferenceInvalid := "knowledge_reference_invalid".
Definition CodeStaleProposal := "stale_proposal".
Definition CodeProposalRejected := "proposal_rejected".
Definition CodeAssessmentDispositionConflict := "assessment_disposition_conflict".
Definition CodeFocusFrameInvalidated := "focus_frame_invalidated".
Definition CodeUnsupportedEventSchema := "unsupported_event_schema".
Definition CodeProjectionUnavailable := "projection_unavailable".
Definition CodeModelUnavailable := "model_unavailable".

(** [&Error{Code: c}], [&Error{Code: c, Reason: r}] and
    [&Error{Code: c, Reason: r, Cause: err}] *)
Definition err_code (c : string) : error := LearningError c "" "" 0 0 0 "" "" None.
Definition err_reason (c r : string) : error := LearningError c "" "" 0 0 0 "" r None.
Definition err_cause (c r : string) (cause : error) : error :=
  LearningError c "" "" 0 0 0 "" r (Some cause).

Definition EventSchemaVersion : Z := 1.
Definition EventRedactedSchemaVersion : Z := 2.
Definition ProjectionVersion := "learning-projection-v2".
Definition MasteryReducerVersion := "mastery-reducer-v1".
Definition AssessmentPolicyVersion := "assessment-acceptance-v1".
Definition ReviewPolicyVersion := "fixed-interval-v1".
Definition ActiveTimePolicyVersion := "estimated-active-time-v1".
Definition MaxGoalRunes : Z := 4000.
Definition MaxGoalSourceBytes : Z := 200.

(** ** Data *)
Record SourceRange := mkSourceRange {
  SourceRange_Start : Z;
  SourceRange_End : Z;
}.

Record KnowledgeReference := mkKnowledgeReference {
  KnowledgeReference_KnowledgeRevisionID : string;
  KnowledgeReference_NodeID : string;
  KnowledgeReference_NodeRevisionID : string;
  KnowledgeReference_DocumentRevisionID : string;
  KnowledgeReference_Range : SourceRange;
  KnowledgeReference_Slice : string;
  KnowledgeReference_SliceSHA256 : string;
}.

Record RouteStep := mkRouteStep {
  RouteStep_ID : string;
  RouteStep_Ordinal : Z;
  RouteStep_NodeID : string;
  RouteStep_NodeRevisionID : string;
  RouteStep_TeachingIntent : string;
  RouteStep_CompletionCondition : string;
}.

Record RouteRevision := mkRouteRevision {
  RouteRevision_ID : string;
  RouteRevision_RouteID : string;
  RouteRevision_Revision : Z;
  RouteRevision_GoalRevisionID : string;
  RouteRevision_KnowledgeRevisionID : string;
  RouteRevision_PolicyVersion : string;
  RouteRevision_SourceProposalID : string;
  RouteRevision_Steps : list RouteStep;
  RouteRevision_CreatedAt : time;
}.

Inductive ActivityType : Type :=
| ActivityObjective
| ActivityOpen
| ActivityExplanation
| ActivityTypeOther (s : string).
#[export] Instance ActivityType_eq_dec : EqDecision ActivityType.
Proof. solve_decision. Defined.
Definition ActivityType_string (v : ActivityType) : string :=
  match v with
  | ActivityObjective => "objective"
  | ActivityOpen => "open"
  | ActivityExplanation => "explanation"
  | ActivityTypeOther s => s
  end.

Inductive HelpLevel : Type :=
| HelpNone
| HelpHint
| HelpScaffold
| HelpAnswerRevealed
| HelpLevelOther (s : string).
#[export] Instance HelpLevel_eq_dec : EqDecision HelpLevel.
Proof. solve_decision. Defined.
Definition HelpLevel_string (v : HelpLevel) : string :=
  match v with
  | HelpNone => "none"
  | HelpHint => "hint"
  | HelpScaffold => "scaffold"
  | HelpAnswerRevealed => "answer_revealed"
  | HelpLevelOther s => s
  end.
#[export] Instance HelpLevel_countable : Countable HelpLevel.
Proof.
  refine (inj_countable'
    (fun v => match v with
      | HelpNone => inl 0%nat
      | HelpHint => inl 1%nat
      | HelpScaffold => inl 2%nat
      | HelpAnswerRevealed => inl 3%nat
      | HelpLevelOther s => inr s
      end)
    (fun c => match c with
      | inl 0%nat => HelpNone
      | inl 1%nat => HelpHint
      | inl 2%nat => HelpScaffold
      | inl _ => HelpAnswerRevealed
      | inr s => HelpLevelOther s
      end) _).
  by intros [].
Defined.

Record RubricItem := mkRubricItem {
  RubricItem_ID : string;
  RubricItem_Criterion : string;
  RubricItem_RequiredReferenceIDs : list string;
}.

Record ObjectiveRule := mkObjectiveRule {
  ObjectiveRule_AcceptedAnswers : list string;
  ObjectiveRule_CaseSensitive : bool;
  ObjectiveRule_TrimSpace : bool;
}.

Record Rubric := mkRubric {
  Rubric_Revision : string;
  Rubric_Items : list RubricItem;
  Rubric_ObjectiveRule : option ObjectiveRule;
}.

Record Activity := mkActivity {
  Activity_ID : string;
  Activity_Revision : Z;
  Activity_SessionID : string;
  Activity_GoalRevisionID : string;
  Activity_RouteRevisionID : string;
  Activity_RouteStepID : string;
  Activity_KnowledgeRevisionID : string;
  Activity_TargetNodeID : string;
  Activity_TargetNodeRevisionID : string;
  Activity_References : list KnowledgeReference;
  Activity_Prompt : string;
  Activity_Type : ActivityType;
  Activity_Rubric : Rubric;
  Activity_Difficulty : Z;
  Activity_AllowedHelp : list HelpLevel;
  Activity_ActivityPolicyVersion : string;
  Activity_AssessmentPolicyVersion : string;
  Activity_ReviewPolicyVersion : string;
  Activity_SourceProposalID : string;
  Activity_AttachedFreeQuestionID : string;
  Activity_AttachedFreeAnswerID : string;
  Activity_Review : bool;
  Activity_CreatedAt : time;
}.

Record Attempt := mkAttempt {
  Attempt_ID : string;
  Attempt_SessionID : string;
  Attempt_ActivityID : string;
  Attempt_ActivityRevision : Z;
  Attempt_AnswerPayloadID : string;
  Attempt_Answer : string;
  Attempt_AnswerSHA256 : string;
  Attempt_Help : HelpLevel;
  Attempt_ActorDeviceID : string;
  Attempt_OccurredAt : option time;
  Attempt_ReceivedAt : time;
  Attempt_EvidenceEligibility : bool;
  Attempt_EvidenceIneligibleReason : string;
  Attempt_ArchiveDisposition : string;
  Attempt_OfflineSubmissionID : string;
}.

Inductive Conclusion : Type :=
| ConclusionPass
| ConclusionPartial
| ConclusionFail
| ConclusionUnassessed
| ConclusionOther (s : string).
#[export] Instance Conclusion_eq_dec : EqDecision Conclusion.
Proof. solve_decision. Defined.
Definition Conclusion_string (v : Conclusion) : string :=
  match v with
  | ConclusionPass => "pass"
  | ConclusionPartial => "partial"
  | ConclusionFail => "fail"
  | ConclusionUnassessed => "unassessed"
  | ConclusionOther s => s
  end.

Record AssessmentItem := mkAssessmentItem {
  AssessmentItem_RubricItemID : string;
  AssessmentItem_Conclusion : Conclusion;
  AssessmentItem_AnswerQuote : string;
  AssessmentItem_AnswerRange : SourceRange;
  AssessmentItem_AnswerQuoteSHA256 : string;
  AssessmentItem_KnowledgeReferenceID : string;
  AssessmentItem_KnowledgeQuote : string;
  AssessmentItem_KnowledgeRange : SourceRange;
  AssessmentItem_KnowledgeQuoteSHA256 : string;
  AssessmentItem_MisconceptionCandidate : string;
}.

Inductive RiskFlag : Type :=
| RiskIncompleteRubric
| RiskInsufficientAnswerEvidence
| RiskInsufficientKnowledgeSupport
| RiskConflictingEvidence
| RiskAmbiguousRubric
| RiskUnsafeContent
| RiskSchemaRepaired
| RiskStaleContext
| RiskRetryExhausted
| RiskFlagOther (s : string).
#[export] Instance RiskFlag_eq_dec : EqDecision RiskFlag.
Proof. solve_decision. Defined.
Definition RiskFlag_string (v : RiskFlag) : string :=
  match v with
  | RiskIncompleteRubric => "incomplete_rubric"
  | RiskInsufficientAnswerEvidence => "insufficient_answer_evidence"
  | RiskInsufficientKnowledgeSupport => "insufficient_knowledge_support"
  | RiskConflictingEvidence => "conflicting_evidence"
  | RiskAmbiguousRubric => "ambiguous_rubric"
  | RiskUnsafeContent => "unsafe_content"
  | RiskSchemaRepaired => "schema_repaired"
  | RiskStaleContext => "stale_context"
  | RiskRetryExhausted => "retry_exhausted"
  | RiskFlagOther s => s
  end.

Record AssessmentArtifact := mkAssessmentArtifact {
  AssessmentArtifact_ID : string;
  AssessmentArtifact_SessionID : string;
  AssessmentArtifact_AttemptID : string;
  AssessmentArtifact_ActivityID : string;
  AssessmentArtifact_ActivityRevision : Z;
  AssessmentArtifact_Items : list AssessmentItem;
  AssessmentArtifact_RubricComplete : bool;
  AssessmentArtifact_Confidence : Z;
  AssessmentArtifact_RiskFlags : list RiskFlag;
  AssessmentArtifact_ModelID : string;
  AssessmentArtifact_ModelParameters : gmap string any;
  AssessmentArtifact_PromptRevision : string;
  AssessmentArtifact_ProposalInputHash : string;
  AssessmentArtifact_Attempts : Z;
  AssessmentArtifact_AttemptCategories : list string;
  AssessmentArtifact_CreatedAt : time;
  AssessmentArtifact_EvidenceEligibility : bool;
  AssessmentArtifact_EvidenceIneligibleReason : string;
}.

Inductive Disposition : Type :=
| DispositionProvisional
| DispositionAccepted
| DispositionOverridden
| DispositionVoided
| DispositionOther (s : string).
#[export] Instance Disposition_eq_dec : EqDecision Disposition.
Proof. solve_decision. Defined.
Definition Disposition_string (v : Disposition) : string :=
  match v with
  | DispositionProvisional => "provisional"
  | DispositionAccepted => "accepted"
  | DispositionOverridden => "overridden"
  | DispositionVoided => "voided"
  | DispositionOther s => s
  end.

Record AssessmentDecision := mkAssessmentDecision {
  AssessmentDecision_ID : string;
  AssessmentDecision_AssessmentID : string;
  AssessmentDecision_Version : Z;
  AssessmentDecision_Disposition : Disposition;
  AssessmentDecision_Items : list AssessmentItem;
  AssessmentDecision_Reason : string;
  AssessmentDecision_ActorDeviceID : string;
  AssessmentDecision_CreatedAt : time;
  AssessmentDecision_ReplacesDecisionID : option string;
  AssessmentDecision_ProducedEvidenceID : option string;
}.

Inductive EvidenceKind : Type :=
| EvidencePracticeRecall
| EvidenceReviewRecall
| EvidenceKindOther (s : string).
#[export] Instance EvidenceKind_eq_dec : EqDecision EvidenceKind.
Proof. solve_decision. Defined.
Definition EvidenceKind_string (v : EvidenceKind) : string :=
  match v with
  | EvidencePracticeRecall => "practice_recall"
  | EvidenceReviewRecall => "review_recall"
  | EvidenceKindOther s => s
  end.
#[export] Instance EvidenceKind_countable : Countable EvidenceKind.
Proof.
  refine (inj_countable'
    (fun v => match v with
      | EvidencePracticeRecall => inl 0%nat
      | EvidenceReviewRecall => inl 1%nat
      | EvidenceKindOther s => inr s
      end)
    (fun c => match c with
      | inl 0%nat => EvidencePracticeRecall
      | inl _ => EvidenceReviewRecall
      | inr s => EvidenceKindOther s
      end) _).
  by intros [].
Defined.

Inductive Outcome : Type :=
| OutcomePass
| OutcomePartial
| OutcomeFail
| OutcomeOther (s : string).
#[export] Instance Outcome_eq_dec : EqDecision Outcome.
Proof. solve_decision. Defined.
Definition Outcome_string (v : Outcome) : string :=
  match v with
  | OutcomePass => "pass"
  | OutcomePartial => "partial"
  | OutcomeFail => "fail"
  | OutcomeOther s => s
  end.
#[export] Instance Outcome_countable : Countable Outcome.
Proof.
  refine (inj_countable'
    (fun v => match v with
      | OutcomePass => inl 0%nat
      | OutcomePartial => inl 1%nat
      | OutcomeFail => inl 2%nat
      | OutcomeOther s => inr s
      end)
    (fun c => match c with
      | inl 0%nat => OutcomePass
      | inl 1%nat => OutcomePartial
      | inl _ => OutcomeFail
      | inr s => OutcomeOther s
      end) _).
  by intros [].
Defined.

Record MisconceptionCandidate := mkMisconceptionCandidate {
  MisconceptionCandidate_RubricItemID : string;
  MisconceptionCandidate_Text : string;
}.

Record RubricOutcome := mkRubricOutcome {
  RubricOutcome_RubricItemID : string;
  RubricOutcome_Conclusion : Conclusion;
}.

Record AcceptedEvidence := mkAcceptedEvidence {
  AcceptedEvidence_ID : string;
  AcceptedEvidence_DispositionDecisionID : string;
  AcceptedEvidence_AssessmentID : string;
  AcceptedEvidence_AttemptID : string;
  AcceptedEvidence_ActivityID : string;
  AcceptedEvidence_ActivityRevision : Z;
  AcceptedEvidence_GoalRevisionID : string;
  AcceptedEvidence_RouteRevisionID : string;
  AcceptedEvidence_KnowledgeRevisionID : string;
  AcceptedEvidence_NodeRevisionID : string;
  AcceptedEvidence_RubricRevision : string;
  AcceptedEvidence_Kind : EvidenceKind;
  AcceptedEvidence_ActivityType : ActivityType;
  AcceptedEvidence_Outcome : Outcome;
  AcceptedEvidence_Help : HelpLevel;
  AcceptedEvidence_ReceivedAt : time;
  AcceptedEvidence_AcceptedEventSequence : Z;
  AcceptedEvidence_AcceptancePolicyVersion : string;
  AcceptedEvidence_ReducerPolicyVersion : string;
  AcceptedEvidence_ReviewPolicyVersion : string;
  AcceptedEvidence_Misconceptions : list MisconceptionCandidate;
  AcceptedEvidence_RubricOutcomes : list RubricOutcome;
}.

Record Exposure := mkExposure {
  Exposure_ID : string;
  Exposure_SessionID : string;
  Exposure_Kind : string;
  Exposure_Text : string;
  Exposure_References : list KnowledgeReference;
  Exposure_SourceProposalID : string;
  Exposure_ReceivedAt : time;
}.

Record OperationEnvelope := mkOperationEnvelope {
  OperationEnvelope_OperationID : string;
  OperationEnvelope_PayloadSchemaVersion : Z;
  OperationEnvelope_AggregateType : string;
  OperationEnvelope_AggregateID : string;
  OperationEnvelope_ExpectedVersion : Z;
  OperationEnvelope_OccurredAt : option time;
  OperationEnvelope_Payload : string;
}.

(** ** Validators *)
Definition ValidateGoal (value : string) : result error unit :=
  fail_if (negb (valid_utf8 value) || bool_decide (trim_space value = "")
           || (MaxGoalRunes <? rune_count value))
    (err_code CodeInvalidRequest).

Definition ValidateGoalSource (value : string) : result error unit :=
  fail_if (negb (valid_utf8 value) || bool_decide (trim_space value = "")
           || (MaxGoalSourceBytes <? str_len value))
    (err_code CodeInvalidRequest).

Definition ValidateOperation (operation : OperationEnvelope) : result error unit :=
  fail_if (bool_decide (OperationEnvelope_OperationID operation = "")
           || negb (OperationEnvelope_PayloadSchemaVersion operation =? 1)
           || bool_decide (OperationEnvelope_AggregateType operation = "")
           || bool_decide (OperationEnvelope_AggregateID operation = "")
           || (OperationEnvelope_ExpectedVersion operation <? 0)
           || negb (json_valid (OperationEnvelope_Payload operation)))
    (err_code CodeInvalidRequest).

(** The loop of [StableRouteSteps] from index [i] on. *)
Fixpoint stable_steps_from (seen : gset string) (i : Z) (steps : list RouteStep) : bool :=
  match steps with
  | [] => true
  | step :: steps =>
    if negb (RouteStep_Ordinal step =? i) || bool_decide (RouteStep_ID step = "")
       || bool_decide (RouteStep_NodeID step = "")
       || bool_decide (RouteStep_NodeRevisionID step = "")
       || bool_decide (RouteStep_NodeRevisionID step ∈ seen)
    then false
    else stable_steps_from ({[RouteStep_NodeRevisionID step]} ∪ seen) (i + 1) steps
  end.

Definition StableRouteSteps (steps : list RouteStep) : bool :=
  stable_steps_from ∅ 0 steps && (0 <? Z.of_nat (length steps)).

(** ** The canonical order of evidence *)

(** The [less] function of [SortEvidence]. *)
Definition evidence_less (left right : AcceptedEvidence) : bool :=
  if negb (AcceptedEvidence_AcceptedEventSequence left
           =? AcceptedEvidence_AcceptedEventSequence right) then
    if AcceptedEvidence_AcceptedEventSequence left =? 0 then false
    else if AcceptedEvidence_AcceptedEventSequence right =? 0 then true
    else AcceptedEvidence_AcceptedEventSequence left
         <? AcceptedEvidence_AcceptedEventSequence right
  else if (AcceptedEvidence_AcceptedEventSequence left =? 0)
          && negb (AcceptedEvidence_ReceivedAt left =? AcceptedEvidence_ReceivedAt right)
  then time_before (AcceptedEvidence_ReceivedAt left) (AcceptedEvidence_ReceivedAt right)
  else str_ltb (AcceptedEvidence_ID left) (AcceptedEvidence_ID right).

Definition SortEvidence (values : list AcceptedEvidence) : list AcceptedEvidence :=
  sort_by evidence_less values.

(** ** Facts *)
Ltac evidence_order :=
  unfold le_by, evidence_less, time_before in *;
  repeat match goal with
  | H : (if ?b then _ else _) = _ |- _ => destruct b eqn:?
  | |- (if ?b then _ else _) = _ => destruct b eqn:?
  | H : _ && _ = false |- _ => apply andb_false_iff in H; destruct H
  end; bool_prop; try lia; try congruence.

Lemma evidence_less_asym x y : evidence_less x y = true → evidence_less y x = false.
Proof. intros H. evidence_order; by apply str_ltb_asym. Qed.

Lemma evidence_le_trans x y z :
  le_by evidence_less x y → le_by evidence_less y z → le_by evidence_less x z.
Proof. intros H1 H2. evidence_order; by eapply str_ltb_le_trans. Qed.

(** Ties only happen between records with the same identifier. *)
Lemma evidence_le_antisym x y :
  le_by evidence_less x y → le_by evidence_less y x →
  AcceptedEvidence_ID x = AcceptedEvidence_ID y.
Proof. intros H1 H2. evidence_order; by apply str_ltb_antisym. Qed.

Lemma SortEvidence_sorted values :
  StronglySorted (le_by evidence_less) (SortEvidence values).
Proof. apply sort_by_sorted; [apply evidence_le_trans | apply evidence_less_asym]. Qed.

(** Records are identified by their identifier. *)
Definition evidence_keyed (l : list AcceptedEvidence) : Prop :=
  NoDup (AcceptedEvidence_ID <$> l).

Lemma evidence_keyed_inj l x y :
  evidence_keyed l → x ∈ l → y ∈ l → AcceptedEvidence_ID x = AcceptedEvidence_ID y → x = y.
Proof.
  unfold evidence_keyed. induction l as [|z l IH]; simpl; [set_solver|].
  intros [Hz Hl]%NoDup_cons Hx Hy Heq.
  assert (∀ w, w ∈ l → AcceptedEvidence_ID w ∈ AcceptedEvidence_ID <$> l) as Hin
    by (intros w Hw; by apply list_elem_of_fmap_2).
  set_unfold in Hx. set_unfold in Hy. destruct Hx as [->|Hx], Hy as [->|Hy]; auto.
  - destruct Hz. rewrite Heq. by apply Hin.
  - destruct Hz. rewrite <- Heq. by apply Hin.
Qed.

(** The canonical order does not depend on how the evidence was collected. *)
Lemma SortEvidence_Permutation l1 l2 :
  evidence_keyed l1 → l1 ≡ₚ l2 → SortEvidence l1 = SortEvidence l2.
Proof.
  intros Hk. apply sort_by_Permutation_eq;
    [apply evidence_le_trans | apply evidence_less_asym |].
  intros x y Hx Hy H1 H2. eapply evidence_keyed_inj; eauto using evidence_le_antisym.
Qed.

Lemma stable_steps_from_spec seen i steps :
  stable_steps_from seen i steps = true ↔
  Forall (fun s => RouteStep_ID s ≠ "" ∧ RouteStep_NodeID s ≠ ""
                   ∧ RouteStep_NodeRevisionID s ≠ "" ∧ RouteStep_NodeRevisionID s ∉ seen) steps
  ∧ NoDup (RouteStep_NodeRevisionID <$> steps)
  ∧ (∀ k s, steps !! k = Some s → RouteStep_Ordinal s = i + Z.of_nat k).
Proof.
  revert seen i. induction steps as [|s steps IH]; intros seen i; simpl.
  { split; [intros _|done]. split_and!; [constructor..|]. intros k x H. done. }
  rewrite Forall_cons, NoDup_cons. case_match eqn:Hg.
  - split; [discriminate|]. intros (((? & ? & ? & ?) & _) & _ & Hord).
    specialize (Hord 0%nat s eq_refl).
    repeat (apply orb_true_iff in Hg; destruct Hg as [Hg|Hg]); bool_prop; try done; lia.
  - bool_prop. rewrite IH. split.
    + intros (Hf & Hnd & Hord). rewrite Forall_forall in Hf. split_and!; auto.
      * apply Forall_forall. intros x Hx. set_solver.
      * intros (x & Hx & Hin)%list_elem_of_fmap. specialize (Hf x Hin). set_solver.
      * intros [|k] x; simpl; [intros [= ->]; lia|]. intros Hx. rewrite (Hord k x Hx). lia.
    + intros ((_ & Hf) & (Hn & Hnd) & Hord). rewrite Forall_forall in Hf. split_and!; auto.
      * apply Forall_forall. intros x Hx. specialize (Hf x Hx).
        assert (RouteStep_NodeRevisionID x ∈ RouteStep_NodeRevisionID <$> steps)
          by (by apply list_elem_of_fmap_2). set_solver.
      * intros k x Hx. rewrite (Hord (S k) x Hx). lia.
Qed.
