(* ===== verification/Offline.v ===== *)
(** * Offline operations

    [server/internal/learning/offline.go]: the state machines of offline
    submissions, of the client's local records and of the assessment worker; the
    wire form of an operation, its validation and the hash it is identified by; the
    choice of the winning attempt; and the results that are sent back. Raw JSON is a
    list of bytes, other text a string. The cause wrapped in an error of a reader is
    not modelled: [malformed] stands for it. *)
From stdpp Require Import pretty.
From S2P Require Import Prelude GoStd Packages Utf8 Json Jcs GoTime Encoding LearningDomain.

(** ** State machines *)
Inductive OfflineSubmissionState : Type :=
| OfflineSubmissionReserved
| OfflineSubmissionClaimedSucceeded
| OfflineSubmissionClaimedRejected
| OfflineSubmissionExpired
| OfflineSubmissionRevoked
| OfflineSubmissionOther (s : string).

Definition CanTransitionOfflineSubmission (from to : OfflineSubmissionState) : bool :=
  match from with
  | OfflineSubmissionReserved =>
    match to with
    | OfflineSubmissionClaimedSucceeded | OfflineSubmissionClaimedRejected | OfflineSubmissionExpired | OfflineSubmissionRevoked => true
    | _ => false
    end
  | _ => false
  end.

Inductive OfflineLocalState : Type :=
| OfflineLocalDraft
| OfflineLocalQueued
| OfflineLocalUploading
| OfflineLocalArchivedPendingEvidence
| OfflineLocalTerminal
| OfflineLocalConflict
| OfflineLocalBlocked
| OfflineLocalDiscarded
| OfflineLocalOther (s : string).
#[export] Instance OfflineLocalState_eq_dec : EqDecision OfflineLocalState.
Proof. solve_decision. Defined.

Definition CanTransitionOfflineLocal (from to : OfflineLocalState) (privacyPurge : bool) : bool :=
  if privacyPurge && bool_decide (to = OfflineLocalDiscarded) then true
  else
    match from, to with
    | OfflineLocalDraft, (OfflineLocalQueued | OfflineLocalDiscarded) => true
    | OfflineLocalQueued, (OfflineLocalUploading | OfflineLocalDiscarded) => true
    | OfflineLocalUploading,
      (OfflineLocalQueued | OfflineLocalArchivedPendingEvidence | OfflineLocalTerminal | OfflineLocalConflict | OfflineLocalBlocked) => true
    | OfflineLocalArchivedPendingEvidence, (OfflineLocalTerminal | OfflineLocalBlocked) => true
    | (OfflineLocalTerminal | OfflineLocalConflict | OfflineLocalBlocked), OfflineLocalDiscarded => true
    | _, _ => false
    end.

Inductive OfflineWorkerStatus : Type :=
| OfflineWorkerQueued
| OfflineWorkerProcessing
| OfflineWorkerPendingRetry
| OfflineWorkerCompleted
| OfflineWorkerFailed
| OfflineWorkerOther (s : string).

Definition CanTransitionOfflineWorker (from to : OfflineWorkerStatus) : bool :=
  match from, to with
  | OfflineWorkerQueued, OfflineWorkerProcessing => true
  | OfflineWorkerProcessing, (OfflineWorkerPendingRetry | OfflineWorkerCompleted | OfflineWorkerFailed) => true
  | OfflineWorkerPendingRetry, (OfflineWorkerProcessing | OfflineWorkerCompleted | OfflineWorkerFailed) => true
  | _, _ => false
  end.

(** ** Results *)
Inductive OfflineArchiveStatus : Type :=
| OfflineArchivedSucceeded
| OfflineArchivedRejected
| OfflineNotArchivedRetry
| OfflineNotArchivedBlocked
| OfflineIdempotencyConflict
| OfflineSequenceConflict
| OfflineNotProcessed
| OfflineArchiveOther (s : string).

Inductive OfflineAssessmentStatus : Type :=
| OfflineAssessmentNotRequested
| OfflineAssessmentQueued
| OfflineAssessmentProcessing
| OfflineAssessmentPendingRetry
| OfflineAssessmentCompleted
| OfflineAssessmentFailed
| OfflineAssessmentOther (s : string).
#[export] Instance OfflineAssessmentStatus_eq_dec : EqDecision OfflineAssessmentStatus.
Proof. solve_decision. Defined.

Inductive OfflineEvidenceStatus : Type :=
| OfflineEvidenceAccepted
| OfflineEvidenceProvisional
| OfflineEvidencePendingEvaluation
| OfflineEvidenceNotEligible
| OfflineEvidenceNotApplicable
| OfflineEvidenceUnchanged
| OfflineEvidenceOther (s : string).
#[export] Instance OfflineEvidenceStatus_eq_dec : EqDecision OfflineEvidenceStatus.
Proof. solve_decision. Defined.

Inductive OfflineResultKind : Type :=
| OfflineResultArchived
| OfflineResultRetryable
| OfflineResultBlocked
| OfflineResultConflict
| OfflineResultNotProcessed
| OfflineResultOther (s : string).
#[export] Instance OfflineResultKind_eq_dec : EqDecision OfflineResultKind.
Proof. solve_decision. Defined.

Definition OfflineReasonDuplicateActivity := "duplicate_activity_submission".

Definition invalid (reason : string) : error := err_reason CodeInvalidRequest reason.
(** The error of the reader below, whose text is not modelled. *)
Definition malformed : error := ErrorNew "".
Definition invalid_cause (reason : string) : error := err_cause CodeInvalidRequest reason malformed.

Definition ValidateOfflineResultCombination
    (archive : OfflineArchiveStatus) (assessment : OfflineAssessmentStatus) (evidence : OfflineEvidenceStatus) : result error unit :=
  let valid :=
    match archive with
    | OfflineArchivedRejected =>
      bool_decide (assessment = OfflineAssessmentNotRequested) && bool_decide (evidence = OfflineEvidenceUnchanged)
    | OfflineArchivedSucceeded =>
      match assessment with
      | OfflineAssessmentNotRequested =>
        bool_decide (evidence = OfflineEvidenceProvisional) || bool_decide (evidence = OfflineEvidenceNotEligible)
        || bool_decide (evidence = OfflineEvidenceNotApplicable)
      | OfflineAssessmentQueued => bool_decide (evidence = OfflineEvidencePendingEvaluation)
      | OfflineAssessmentCompleted =>
        bool_decide (evidence = OfflineEvidenceAccepted) || bool_decide (evidence = OfflineEvidenceProvisional)
        || bool_decide (evidence = OfflineEvidenceNotEligible)
      | OfflineAssessmentFailed => bool_decide (evidence = OfflineEvidenceUnchanged)
      | _ => false
      end
    | OfflineNotArchivedRetry | OfflineNotProcessed
    | OfflineNotArchivedBlocked | OfflineIdempotencyConflict | OfflineSequenceConflict =>
      bool_decide (assessment = OfflineAssessmentOther "") && bool_decide (evidence = OfflineEvidenceOther "")
    | OfflineArchiveOther _ => false
    end in
  fail_if (negb valid) (invalid "invalid_offline_result_combination").

(** ** Operations *)
Inductive OfflineOperationType : Type :=
| OfflineAttemptCompleted
| OfflineActivitySkipped
| OfflineOperationOther (s : string).

Definition OfflineOperationType_string (t : OfflineOperationType) : string :=
  match t with
  | OfflineAttemptCompleted => "offline_attempt_completed"
  | OfflineActivitySkipped => "offline_activity_skipped"
  | OfflineOperationOther s => s
  end.
Definition OfflineOperationType_of (s : string) : OfflineOperationType :=
  if decide (s = "offline_attempt_completed") then OfflineAttemptCompleted
  else if decide (s = "offline_activity_skipped") then OfflineActivitySkipped else OfflineOperationOther s.
Definition HelpLevel_of (s : string) : HelpLevel :=
  if decide (s = "none") then HelpNone else if decide (s = "hint") then HelpHint
  else if decide (s = "scaffold") then HelpScaffold else if decide (s = "answer_revealed") then HelpAnswerRevealed
  else HelpLevelOther s.
Definition validHelp (value : HelpLevel) : bool :=
  match value with HelpLevelOther _ => false | _ => true end.

Record OfflineObservation := mkOfflineObservation {
  OfflineObservation_Kind : string;
  OfflineObservation_OccurredAt : option GoTime;
}.

(** A nil slice of observations is [None]. *)
Record OfflineAttemptPayload := mkOfflineAttemptPayload {
  OfflineAttemptPayload_Answer : string;
  OfflineAttemptPayload_AnswerSHA256 : string;
  OfflineAttemptPayload_Help : HelpLevel;
  OfflineAttemptPayload_Observations : option (list OfflineObservation);
}.

Record OfflineSkipPayload := mkOfflineSkipPayload { OfflineSkipPayload_Reason : string }.

Record OfflineOperationWireV1 := mkOfflineOperationWireV1 {
  Wire_OperationID : string;
  Wire_DeviceID : string;
  Wire_DeviceSequence : string;
  Wire_SubmissionID : string;
  Wire_PayloadSchemaVersion : Z;
  Wire_AggregateType : string;
  Wire_AggregateID : string;
  Wire_ExpectedVersion : string;
  Wire_OfflineActivityID : string;
  Wire_ActivityRevision : string;
  Wire_Authorization : text;
  Wire_Signature : string;
  Wire_OccurredAt : option GoTime;
  Wire_OperationType : string;
  Wire_Payload : text;
}.

Record OfflineOperation := mkOfflineOperation {
  OfflineOperation_OperationID : string;
  OfflineOperation_DeviceID : string;
  OfflineOperation_CredentialEpoch : Z;
  OfflineOperation_LearnerGeneration : Z;
  OfflineOperation_DeviceSequence : Z;
  OfflineOperation_SubmissionID : string;
  OfflineOperation_PayloadSchemaVersion : Z;
  OfflineOperation_AggregateType : string;
  OfflineOperation_AggregateID : string;
  OfflineOperation_ExpectedVersion : Z;
  OfflineOperation_OfflineActivityID : string;
  OfflineOperation_ActivityRevision : Z;
  OfflineOperation_AuthorizationHash : string;
  OfflineOperation_Authorization : text;
  OfflineOperation_AuthorizationSig : text;
  OfflineOperation_OccurredAt : option GoTime;
  OfflineOperation_Type : OfflineOperationType;
  OfflineOperation_Payload : text;
  OfflineOperation_Attempt : option OfflineAttemptPayload;
  OfflineOperation_Skip : option OfflineSkipPayload;
}.

Definition with_payload (Attempt : option OfflineAttemptPayload) (Skip : option OfflineSkipPayload) (o : OfflineOperation) : OfflineOperation :=
  mkOfflineOperation (OfflineOperation_OperationID o) (OfflineOperation_DeviceID o) (OfflineOperation_CredentialEpoch o)
    (OfflineOperation_LearnerGeneration o) (OfflineOperation_DeviceSequence o) (OfflineOperation_SubmissionID o)
    (OfflineOperation_PayloadSchemaVersion o) (OfflineOperation_AggregateType o) (OfflineOperation_AggregateID o)
    (OfflineOperation_ExpectedVersion o) (OfflineOperation_OfflineActivityID o) (OfflineOperation_ActivityRevision o)
    (OfflineOperation_AuthorizationHash o) (OfflineOperation_Authorization o) (OfflineOperation_AuthorizationSig o)
    (OfflineOperation_OccurredAt o) (OfflineOperation_Type o) (OfflineOperation_Payload o) Attempt Skip.

(** *** Reading payloads *)

(** An element of a slice is read over what the slice held there before. *)
Definition read_observation (o : OfflineObservation) (v : text * json) : option OfflineObservation :=
  match v.2 with
  | Null => Some o
  | Obj ms =>
    _ ← option_guard (known_fields ["kind"; "occurred_at"] ms);
    kind ← read_field read_string_field (OfflineObservation_Kind o) "kind" ms;
    at_ ← read_field read_time_pointer (OfflineObservation_OccurredAt o) "occurred_at" ms;
    Some (mkOfflineObservation kind at_)
  | _ => None
  end.

Fixpoint read_observations (before : list OfflineObservation) (items : list (text * json)) : option (list OfflineObservation) :=
  match items with
  | [] => Some before
  | v :: items =>
    let '(o, rest) := match before with o :: rest => (o, rest) | [] => (mkOfflineObservation "" None, []) end in
    o ← read_observation o v;
    os ← read_observations rest items;
    Some (o :: os)
  end.

(** The elements written so far and the slice over them. *)
Definition read_observations_field (current : list OfflineObservation * option nat) (v : text * json)
    : option (list OfflineObservation * option nat) :=
  match v.2 with
  | Null => Some ([], None)
  | Arr [] => Some ([], Some 0%nat)
  | Arr items => os ← read_observations current.1 items; Some (os, Some (length items))
  | _ => None
  end.

Definition read_attempt (v : json) : option OfflineAttemptPayload :=
  match v with
  | Null => Some (mkOfflineAttemptPayload "" "" (HelpLevelOther "") None)
  | Obj ms =>
    _ ← option_guard (known_fields ["answer"; "answer_sha256"; "help"; "observations"] ms);
    answer ← read_field read_string_field "" "answer" ms;
    hash ← read_field read_string_field "" "answer_sha256" ms;
    help ← read_field read_string_field "" "help" ms;
    '(os, n) ← read_field read_observations_field ([], None) "observations" ms;
    Some (mkOfflineAttemptPayload answer hash (HelpLevel_of help) ((fun n => take n os) <$> n))
  | _ => None
  end.

Definition read_skip (v : json) : option OfflineSkipPayload :=
  match v with
  | Null => Some (mkOfflineSkipPayload "")
  | Obj ms =>
    _ ← option_guard (known_fields ["reason"] ms);
    reason ← read_field read_string_field "" "reason" ms;
    Some (mkOfflineSkipPayload reason)
  | _ => None
  end.

Definition decodePayload (o : OfflineOperation) : result error OfflineOperation :=
  match OfflineOperation_Type o with
  | OfflineAttemptCompleted =>
    match '((_, v), _) ← json_first (OfflineOperation_Payload o); read_attempt v with
    | Some attempt => Ok (with_payload (Some attempt) None o)
    | None => Err (invalid_cause "invalid_offline_attempt_payload")
    end
  | OfflineActivitySkipped =>
    match '((_, v), _) ← json_first (OfflineOperation_Payload o); read_skip v with
    | Some skip => Ok (with_payload None (Some skip) o)
    | None => Err (invalid_cause "invalid_offline_skip_payload")
    end
  | OfflineOperationOther _ => Err (invalid "invalid_offline_operation_type")
  end.

(** *** Validation *)
Section Operations.
Context `{UnicodeTables} `{UUIDPackage}.

Definition canonicalUUID (value : string) : bool :=
  match uuid_Parse value with Some parsed => bool_decide (parsed = value) | None => false end.

Definition is_object (l : text) : bool := match l with b :: _ => b =? 123 | [] => false end.

Definition validate_envelope (o : OfflineOperation) : result error unit :=
  fail_if (negb (canonicalUUID (OfflineOperation_OperationID o)) || negb (canonicalUUID (OfflineOperation_DeviceID o))
    || negb (canonicalUUID (OfflineOperation_SubmissionID o)) || negb (canonicalUUID (OfflineOperation_AggregateID o))
    || negb (canonicalUUID (OfflineOperation_OfflineActivityID o))
    || (OfflineOperation_DeviceSequence o =? 0) || (MaxUint63 <? OfflineOperation_DeviceSequence o)
    || negb (OfflineOperation_PayloadSchemaVersion o =? 1)
    || negb (bool_decide (OfflineOperation_AggregateType o = "offline_attempt"))
    || negb (bool_decide (OfflineOperation_AggregateID o = OfflineOperation_SubmissionID o))
    || negb (OfflineOperation_ExpectedVersion o =? 0) || negb (OfflineOperation_ActivityRevision o =? 1)
    || negb (str_len (OfflineOperation_AuthorizationHash o) =? 64)) (invalid "invalid_offline_operation_envelope").

(** A digest in lower-case hexadecimal. *)
Definition hex_digest (s : string) : bool :=
  match hex_DecodeString s with Some l => (length l =? 32)%nat && bool_decide (s = to_lower s) | None => false end.

Definition validate_authorization (o : OfflineOperation) : result error unit :=
  _ ← fail_if (negb (hex_digest (OfflineOperation_AuthorizationHash o))) (invalid "invalid_authorization_hash");
  if is_nil (OfflineOperation_Authorization o) then Ok tt
  else
    match CanonicalizeJCS (OfflineOperation_Authorization o) with
    | Ok canonical =>
      _ ← fail_if (negb (is_object canonical)) (invalid "invalid_offline_authorization");
      let actualHash := match JCSSHA256 canonical with Ok h => h | Err _ => "" end in
      fail_if (negb (bool_decide (actualHash = OfflineOperation_AuthorizationHash o))) (invalid "authorization_hash_mismatch")
    | Err _ => Err (invalid "invalid_offline_authorization")
    end.

Definition in_utc (t : option GoTime) : bool := match t with Some t => GoTime_offset t =? 0 | None => true end.

Definition check_observation (observation : OfflineObservation) : result error unit :=
  let kind := OfflineObservation_Kind observation in
  _ ← fail_if (negb (bool_decide (kind = "activity_presented")) && negb (bool_decide (kind = "answer_recorded")))
        (invalid "invalid_offline_observation");
  fail_if (negb (in_utc (OfflineObservation_OccurredAt observation))) (invalid "invalid_offline_observation").

Definition validate_attempt (o : OfflineOperation) : result error unit :=
  match OfflineOperation_Attempt o, OfflineOperation_Skip o with
  | Some attempt, None =>
    let answer := OfflineAttemptPayload_Answer attempt in
    let observations := default [] (OfflineAttemptPayload_Observations attempt) in
    _ ← fail_if (negb (validHelp (OfflineAttemptPayload_Help attempt)) || (str_len answer =? 0) || (262144 <? str_len answer)
          || negb (valid_utf8 answer) || (64 <? Z.of_nat (length observations))) (invalid "invalid_offline_attempt_payload");
    let answerHash := hex_DecodeString (OfflineAttemptPayload_AnswerSHA256 attempt) in
    let actualHash := hex_DecodeString (SHA256 answer) in
    _ ← match answerHash, actualHash with
        | Some answerHash, Some actualHash =>
          fail_if (negb (length answerHash =? 32)%nat || negb (bool_decide (answerHash = actualHash))
            || negb (bool_decide (OfflineAttemptPayload_AnswerSHA256 attempt = to_lower (OfflineAttemptPayload_AnswerSHA256 attempt))))
            (invalid "invalid_offline_attempt_payload")
        | _, _ => Err (invalid "invalid_offline_attempt_payload")
        end;
    each check_observation observations
  | _, _ => Err (invalid "invalid_offline_attempt_payload")
  end.

Definition validate_skip (o : OfflineOperation) : result error unit :=
  match OfflineOperation_Attempt o, OfflineOperation_Skip o with
  | None, Some skip =>
    let reason := OfflineSkipPayload_Reason skip in
    fail_if (negb (bool_decide (reason = "user_skipped")) && negb (bool_decide (reason = "expired_locally"))
      && negb (bool_decide (reason = "unreadable_local_item"))) (invalid "invalid_offline_skip_payload")
  | _, _ => Err (invalid "invalid_offline_skip_payload")
  end.

(** [OfflineOperation.Validate]: an operation whose payload has not been read is
    checked as if it had been. *)
Definition OfflineOperation_Validate (o : OfflineOperation) : result error unit :=
  _ ← validate_envelope o;
  _ ← validate_authorization o;
  _ ← fail_if (negb (in_utc (OfflineOperation_OccurredAt o))) (invalid "occurred_at_not_utc");
  o ← (if negb (is_nil (OfflineOperation_Payload o)) && bool_decide (OfflineOperation_Attempt o = None)
          && bool_decide (OfflineOperation_Skip o = None)
       then decodePayload o else Ok o);
  match OfflineOperation_Type o with
  | OfflineAttemptCompleted => validate_attempt o
  | OfflineActivitySkipped => validate_skip o
  | OfflineOperationOther _ => Err (invalid "invalid_offline_operation_type")
  end.

(** *** The wire form *)
Definition wire_fields : list string :=
  ["operation_id"; "device_id"; "device_seq"; "submission_id"; "payload_schema_version"; "aggregate_type"; "aggregate_id";
   "expected_version"; "offline_activity_id"; "activity_revision"; "authorization"; "signature"; "occurred_at";
   "operation_type"; "payload"].

Definition read_wire (ms : members) : option OfflineOperationWireV1 :=
  _ ← option_guard (known_fields wire_fields ms);
  operation_id ← read_field read_string_field "" "operation_id" ms;
  device_id ← read_field read_string_field "" "device_id" ms;
  device_seq ← read_field read_string_field "" "device_seq" ms;
  submission_id ← read_field read_string_field "" "submission_id" ms;
  version ← read_field read_int_field 0 "payload_schema_version" ms;
  aggregate_type ← read_field read_string_field "" "aggregate_type" ms;
  aggregate_id ← read_field read_string_field "" "aggregate_id" ms;
  expected_version ← read_field read_string_field "" "expected_version" ms;
  activity_id ← read_field read_string_field "" "offline_activity_id" ms;
  revision ← read_field read_string_field "" "activity_revision" ms;
  authorization ← read_field read_raw_field [] "authorization" ms;
  signature ← read_field read_string_field "" "signature" ms;
  occurred_at ← read_field read_time_pointer None "occurred_at" ms;
  operation_type ← read_field read_string_field "" "operation_type" ms;
  payload ← read_field read_raw_field [] "payload" ms;
  Some (mkOfflineOperationWireV1 operation_id device_id device_seq submission_id version aggregate_type aggregate_id
    expected_version activity_id revision authorization signature occurred_at operation_type payload).

(** A failed call, as the error the caller returns instead. *)
Definition or_error {E A} (c : result E A) (e : error) : result error A :=
  match c with Ok a => Ok a | Err _ => Err e end.
Definition some_or {A} (c : option A) (e : error) : result error A :=
  match c with Some a => Ok a | None => Err e end.

Definition DecodeOfflineOperationWire (input : text) : result error OfflineOperation :=
  canonical ← or_error (CanonicalizeJCS input) (invalid_cause "invalid_offline_operation_json");
  fields ← some_or (json_fields canonical) (invalid_cause "invalid_offline_operation_json");
  _ ← fail_if (negb (forallb (fun name => bool_decide (bytes_of name ∈ fields.*1)) wire_fields))
        (invalid "missing_offline_operation_field");
  wire ← some_or (read_wire fields) (invalid_cause "invalid_offline_operation_json");
  deviceSequence ← some_or (ParseUint63Decimal (bytes_of (Wire_DeviceSequence wire))) (invalid "invalid_device_sequence");
  _ ← fail_if (deviceSequence =? 0) (invalid "invalid_device_sequence");
  expectedVersion ← some_or (ParseUint63Decimal (bytes_of (Wire_ExpectedVersion wire))) (invalid "invalid_expected_version");
  activityRevision ← some_or (ParseUint63Decimal (bytes_of (Wire_ActivityRevision wire))) (invalid "invalid_activity_revision");
  authorization ← or_error (CanonicalizeJCS (Wire_Authorization wire)) (invalid "invalid_offline_authorization");
  _ ← fail_if (negb (is_object authorization)) (invalid "invalid_offline_authorization");
  authorizationHash ← or_error (JCSSHA256 authorization) (invalid_cause "invalid_offline_authorization");
  signature ← some_or (base64_DecodeString (Wire_Signature wire)) (invalid "invalid_offline_authorization_signature");
  _ ← fail_if (negb (length signature =? 64)%nat || negb (bool_decide (base64_EncodeToString signature = Wire_Signature wire)))
        (invalid "invalid_offline_authorization_signature");
  payload ← or_error (CanonicalizeJCS (Wire_Payload wire)) (invalid "invalid_offline_operation_payload");
  _ ← fail_if (negb (is_object payload)) (invalid "invalid_offline_operation_payload");
  operation ← decodePayload (mkOfflineOperation (Wire_OperationID wire) (Wire_DeviceID wire) 0 0 deviceSequence
    (Wire_SubmissionID wire) (Wire_PayloadSchemaVersion wire) (Wire_AggregateType wire) (Wire_AggregateID wire) expectedVersion
    (Wire_OfflineActivityID wire) activityRevision authorizationHash authorization signature (Wire_OccurredAt wire)
    (OfflineOperationType_of (Wire_OperationType wire)) payload None None);
  _ ← OfflineOperation_Validate operation;
  Ok operation.

(** *** The hash of an operation *)
Definition marshal_observation (o : OfflineObservation) : option string :=
  at_ ← MarshalTimePointer (OfflineObservation_OccurredAt o);
  Some (json_object [json_field "kind" (json_string (OfflineObservation_Kind o)); json_field "occurred_at" at_]).

Definition marshal_attempt (attempt : OfflineAttemptPayload) : option string :=
  observations ← match OfflineAttemptPayload_Observations attempt with
                 | None => Some "null"
                 | Some os => texts ← mapM marshal_observation os; Some ("[" +:+ join "," texts +:+ "]")
                 end;
  Some (json_object [
    json_field "answer" (json_string (OfflineAttemptPayload_Answer attempt));
    json_field "answer_sha256" (json_string (OfflineAttemptPayload_AnswerSHA256 attempt));
    json_field "help" (json_string (HelpLevel_string (OfflineAttemptPayload_Help attempt)));
    json_field "observations" observations]).

Definition marshal_skip (skip : OfflineSkipPayload) : string :=
  json_object [json_field "reason" (json_string (OfflineSkipPayload_Reason skip))].

Definition canonicalPayload (o : OfflineOperation) : result error text :=
  if negb (is_nil (OfflineOperation_Payload o)) then
    payload ← or_error (CanonicalizeJCS (OfflineOperation_Payload o)) (invalid_cause "invalid_offline_operation_payload");
    _ ← fail_if (negb (is_object payload)) (invalid "invalid_offline_operation_payload");
    Ok payload
  else
    encoded ←
      match OfflineOperation_Type o with
      | OfflineAttemptCompleted =>
        some_or (match OfflineOperation_Attempt o with Some attempt => marshal_attempt attempt | None => Some "null" end) malformed
      | OfflineActivitySkipped =>
        Ok (match OfflineOperation_Skip o with Some skip => marshal_skip skip | None => "null" end)
      | OfflineOperationOther _ => Err (invalid "invalid_offline_operation_type")
      end;
    or_error (CanonicalizeJCS (bytes_of encoded)) malformed.

(** The conversion [uint64(value)] of an [int64]. *)
Definition uint64 (value : Z) : Z := value mod 2 ^ 64.

(** The text that is hashed: every field of the operation but the signature, with the
    authorisation as its digest. *)
Definition hash_payload (o : OfflineOperation) (payload : text) : option string :=
  at_ ← MarshalTimePointer (OfflineOperation_OccurredAt o);
  Some (json_object [
    json_field "protocol_version" "1";
    json_field "operation_id" (json_string (OfflineOperation_OperationID o));
    json_field "device_id" (json_string (OfflineOperation_DeviceID o));
    json_field "device_seq" (json_string (decimal_text (OfflineOperation_DeviceSequence o)));
    json_field "submission_id" (json_string (OfflineOperation_SubmissionID o));
    json_field "payload_schema_version" (pretty (OfflineOperation_PayloadSchemaVersion o));
    json_field "aggregate_type" (json_string (OfflineOperation_AggregateType o));
    json_field "aggregate_id" (json_string (OfflineOperation_AggregateID o));
    json_field "expected_version" (json_string (decimal_text (uint64 (OfflineOperation_ExpectedVersion o))));
    json_field "offline_activity_id" (json_string (OfflineOperation_OfflineActivityID o));
    json_field "activity_revision" (json_string (decimal_text (uint64 (OfflineOperation_ActivityRevision o))));
    json_field "authorization_sha256"
      (json_string (base64_EncodeToString (default [] (hex_DecodeString (OfflineOperation_AuthorizationHash o)))));
    json_field "occurred_at" at_;
    json_field "operation_type" (json_string (OfflineOperationType_string (OfflineOperation_Type o)));
    json_field "payload" (json_raw (string_of_bytes payload))]).

Definition OfflineOperation_CanonicalHash (o : OfflineOperation) : result error string :=
  _ ← OfflineOperation_Validate o;
  payload ← canonicalPayload o;
  encoded ← some_or (hash_payload o payload) malformed;
  or_error (JCSSHA256 (bytes_of encoded)) malformed.
End Operations.

(** ** The winning attempt *)
Record OfflineWinnerDecision := mkOfflineWinnerDecision {
  OfflineWinnerDecision_Winner : bool;
  OfflineWinnerDecision_EvidenceEligibility : bool;
  OfflineWinnerDecision_Reason : string;
}.

Section Winner.
Context `{UUIDValidation}.

Definition DecideOfflineWinner (existingWinningAttemptID contenderAttemptID : string) (otherwiseEligible : bool)
    (ineligibleReason : string) : result error OfflineWinnerDecision :=
  _ ← fail_if (negb (uuid_Validate contenderAttemptID)) (invalid "invalid_contender_attempt");
  _ ← fail_if (negb (bool_decide (existingWinningAttemptID = "")) && negb (uuid_Validate existingWinningAttemptID))
        (invalid "invalid_existing_winner");
  if negb otherwiseEligible then
    _ ← fail_if (bool_decide (ineligibleReason = "")) (invalid "missing_ineligibility_reason");
    Ok (mkOfflineWinnerDecision false false ineligibleReason)
  else if bool_decide (existingWinningAttemptID = "") || bool_decide (existingWinningAttemptID = contenderAttemptID)
  then Ok (mkOfflineWinnerDecision true true "")
  else Ok (mkOfflineWinnerDecision false false OfflineReasonDuplicateActivity).
End Winner.

(** ** Results sent to the device *)
Record OfflineIngestReceipt := mkOfflineIngestReceipt {
  OfflineIngestReceipt_ReceiptID : string;
  OfflineIngestReceipt_ArchivedAt : time;
  OfflineIngestReceipt_AggregateVersion : string;
  OfflineIngestReceipt_FirstEventSequence : string;
  OfflineIngestReceipt_LastEventSequence : string;
  OfflineIngestReceipt_ProjectionAsOf : string;
  OfflineIngestReceipt_ArchiveStatus : OfflineArchiveStatus;
}.

Record OfflineStatusTicket := mkOfflineStatusTicket {
  OfflineStatusTicket_TicketID : string;
  OfflineStatusTicket_OperationID : string;
  OfflineStatusTicket_Revision : string;
  OfflineStatusTicket_UpdatedAt : time;
}.

Record OfflineIngestResult := mkOfflineIngestResult {
  OfflineIngestResult_ResultKind : OfflineResultKind;
  OfflineIngestResult_OperationID : string;
  OfflineIngestResult_DeviceSequence : string;
  OfflineIngestResult_SubmissionID : string;
  OfflineIngestResult_ArchiveStatus : OfflineArchiveStatus;
  OfflineIngestResult_AssessmentStatus : OfflineAssessmentStatus;
  OfflineIngestResult_EvidenceStatus : OfflineEvidenceStatus;
  OfflineIngestResult_ReasonCodes : list string;
  OfflineIngestResult_Replayed : bool;
  OfflineIngestResult_Receipt : option OfflineIngestReceipt;
  OfflineIngestResult_StatusTicket : option OfflineStatusTicket;
  OfflineIngestResult_AssessmentID : string;
  OfflineIngestResult_EvidenceID : string;
}.

Section Results.
Context `{UUIDValidation}.

Definition uint63 (s : string) : option Z := ParseUint63Decimal (bytes_of s).

Definition validate_receipt (receipt : OfflineIngestReceipt) : bool :=
  match uint63 (OfflineIngestReceipt_AggregateVersion receipt), uint63 (OfflineIngestReceipt_FirstEventSequence receipt),
        uint63 (OfflineIngestReceipt_LastEventSequence receipt), uint63 (OfflineIngestReceipt_ProjectionAsOf receipt) with
  | Some aggregateVersion, Some firstSequence, Some lastSequence, Some projectionAsOf =>
    negb ((aggregateVersion <? 1) || (firstSequence <? 1) || (lastSequence <? firstSequence) || (projectionAsOf <? lastSequence))
  | _, _, _, _ => false
  end.

Definition positive_uint63 (s : string) : bool := match uint63 s with Some n => negb (n <? 1) | None => false end.

Definition OfflineIngestResult_Validate (r : OfflineIngestResult) : result error unit :=
  _ ← fail_if (negb (uuid_Validate (OfflineIngestResult_OperationID r)) || negb (uuid_Validate (OfflineIngestResult_SubmissionID r))
        || negb (positive_uint63 (OfflineIngestResult_DeviceSequence r))) (ErrorNew "offline ingest result identity is invalid");
  if bool_decide (OfflineIngestResult_ResultKind r = OfflineResultArchived) then
    _ ← match OfflineIngestResult_Receipt r with
        | None => Err (ErrorNew "archived offline ingest result requires a receipt")
        | Some receipt => fail_if (negb (validate_receipt receipt)) (ErrorNew "archived offline ingest result requires a receipt")
        end;
    _ ← match OfflineIngestResult_StatusTicket r with
        | Some ticket => fail_if (negb (positive_uint63 (OfflineStatusTicket_Revision ticket)))
                           (ErrorNew "offline status ticket revision is invalid")
        | None => Ok tt
        end;
    ValidateOfflineResultCombination (OfflineIngestResult_ArchiveStatus r) (OfflineIngestResult_AssessmentStatus r)
      (OfflineIngestResult_EvidenceStatus r)
  else
    fail_if (bool_decide (is_Some (OfflineIngestResult_Receipt r)) || bool_decide (is_Some (OfflineIngestResult_StatusTicket r))
      || negb (bool_decide (OfflineIngestResult_AssessmentID r = "")) || negb (bool_decide (OfflineIngestResult_EvidenceID r = "")))
      (ErrorNew "non-archived offline ingest result carries an archive receipt").
End Results.

(** ** Requests for offline packs

    The digests and limits of [server/internal/learning/offline_protocol.go]. *)
Definition OfflineDefaultPackCount : Z := 5.
Definition OfflineMaxPackCount : Z := 20.
Definition OfflineDefaultTTL : duration := 72 * hour.
Definition OfflineMinimumTTL : duration := 15 * minute.
Definition OfflineMaximumTTL : duration := 7 * 24 * hour.
Definition OfflineMaxSyncItems : Z := 50.

Definition offlineBase64Digest (value : text) : string := base64_EncodeToString (sha256_bytes value).
Definition OfflineZeroDigest : string := base64_EncodeToString (replicate 32 0).
Definition validOfflineDigest (value : string) : bool :=
  match base64_DecodeString value with
  | Some decoded => (length decoded =? 32)%nat && bool_decide (base64_EncodeToString decoded = value)
  | None => false
  end.
Definition validOfflineSignature (value : string) : bool :=
  match base64_DecodeString value with
  | Some decoded => (length decoded =? 64)%nat && bool_decide (base64_EncodeToString decoded = value)
  | None => false
  end.

Record OfflinePrepareRequest := mkOfflinePrepareRequest {
  OfflinePrepareRequest_SessionID : string;
  OfflinePrepareRequest_OperationID : string;
  OfflinePrepareRequest_PayloadSchemaVersion : Z;
  OfflinePrepareRequest_ExpectedSessionVersion : string;
  OfflinePrepareRequest_TrustedManifestRevision : string;
  OfflinePrepareRequest_TrustedManifestDigest : string;
  OfflinePrepareRequest_RequestedCount : option Z;
  OfflinePrepareRequest_RequestedTTLSeconds : option Z;
}.

Record OfflineSyncRequest := mkOfflineSyncRequest {
  OfflineSyncRequest_SyncRequestID : string;
  OfflineSyncRequest_PayloadSchemaVersion : Z;
  OfflineSyncRequest_Operations : list text;
}.

Section Requests.
Context `{UnicodeTables} `{UUIDValidation}.

Definition OfflinePrepareRequest_Limits (r : OfflinePrepareRequest) : Z * duration :=
  (default OfflineDefaultPackCount (OfflinePrepareRequest_RequestedCount r),
   match OfflinePrepareRequest_RequestedTTLSeconds r with
   | Some seconds => wrap64 (seconds * second)
   | None => OfflineDefaultTTL
   end).

Definition lowercase_uuid (id : string) : bool := uuid_Validate id && bool_decide (to_lower id = id).

Definition OfflinePrepareRequest_Validate (r : OfflinePrepareRequest) : result error unit :=
  _ ← fail_if (negb (bool_decide (OfflinePrepareRequest_SessionID r = "")) && negb (lowercase_uuid (OfflinePrepareRequest_SessionID r)))
        (invalid "invalid_session_id");
  _ ← fail_if (negb (lowercase_uuid (OfflinePrepareRequest_OperationID r)) || negb (OfflinePrepareRequest_PayloadSchemaVersion r =? 1))
        (invalid "invalid_offline_prepare_request");
  _ ← some_or (uint63 (OfflinePrepareRequest_ExpectedSessionVersion r)) (invalid "invalid_expected_session_version");
  _ ← some_or (uint63 (OfflinePrepareRequest_TrustedManifestRevision r)) (invalid "invalid_trusted_manifest");
  _ ← fail_if (negb (validOfflineDigest (OfflinePrepareRequest_TrustedManifestDigest r))) (invalid "invalid_trusted_manifest");
  let '(count, ttl) := OfflinePrepareRequest_Limits r in
  fail_if ((count <? 1) || (OfflineMaxPackCount <? count) || (ttl <? OfflineMinimumTTL) || (OfflineMaximumTTL <? ttl))
    (invalid "invalid_offline_prepare_limits").

Definition OfflineSyncRequest_Validate (r : OfflineSyncRequest) : result error unit :=
  let n := Z.of_nat (length (OfflineSyncRequest_Operations r)) in
  fail_if (negb (lowercase_uuid (OfflineSyncRequest_SyncRequestID r)) || negb (OfflineSyncRequest_PayloadSchemaVersion r =? 1)
    || (n =? 0) || (OfflineMaxSyncItems <? n)) (invalid "invalid_offline_sync_request").

Definition decodeOfflineRequestHash (value : string) : option string :=
  match hex_DecodeString value with
  | Some decoded =>
    if (length decoded =? 32)%nat && bool_decide (to_lower value = value) then Some (base64_EncodeToString decoded) else None
  | None => None
  end.
End Requests.

(** ** Properties *)

Section Facts.
Context `{UnicodeTables} `{UUIDPackage}.
(** On ASCII, lower case is what it is. *)
Context (lower_ascii : ∀ r, 0 <= r < 128 → lower_rune r = ascii_lower r).

Lemma decode_ascii l : Forall (fun b => 48 <= b < 128) l → decode_runes l = (fun b => (b, [b])) <$> l.
Proof using Type. induction 1 as [|b l Hb _ IH]; [done|]. cbn. rewrite (proj2 (Z.ltb_lt b 128)) by lia. by rewrite IH. Qed.

Lemma hex_digest_spec s bs : hex_DecodeString s = Some bs → s = to_lower s → s = hex_encode bs.
Proof using lower_ascii.
  intros [Hascii Htext]%hex_decode_bytes Hlower. rewrite hex_encode_text, <- (string_of_bytes_of s). f_equal. apply Htext.
  apply (f_equal bytes_of) in Hlower. unfold to_lower, runes in Hlower. rewrite bytes_of_string in Hlower.
  2:{ generalize (decode_runes (bytes_of s)) as ps. induction ps as [|p ps IH]; [constructor|]. cbn. apply Forall_app. split; [apply encode_rune_ok|done]. }
  rewrite decode_ascii, <- list_fmap_compose in Hlower by done. clear Htext. revert Hlower. generalize (bytes_of s), Hascii. clear s Hascii.
  intros l Hl. induction Hl as [|b l Hb _ IH]; [constructor|]. cbn. rewrite lower_ascii by lia.
  assert (encode_rune (ascii_lower b) = [ascii_lower b]) as ->.
  { unfold encode_rune, ascii_lower, in_range. destruct ((65 <=? b) && (b <=? 90)) eqn:Hu; [split_bools|]; by decide_range. }
  cbn. intros [= Hb' Hl']. constructor; [|by apply IH]. intros [Hu1 Hu2]. unfold ascii_lower, in_range in Hb'.
  rewrite (proj2 (Z.leb_le _ _) Hu1), (proj2 (Z.leb_le _ _) Hu2) in Hb'. cbn in Hb'. lia.
Qed.
End Facts.

(** *** Accepted operations *)
Section Accepted.
Context `{UnicodeTables} `{UUIDPackage}.

Lemma or_error_Ok {E A} (c : result E A) (e : error) a : or_error c e = Ok a ↔ c = Ok a.
Proof using Type. destruct c; naive_solver. Qed.
Lemma some_or_Ok {A} (c : option A) (e : error) a : some_or c e = Ok a ↔ c = Some a.
Proof using Type. destruct c; naive_solver. Qed.

(** The payload that was read is the one the type asks for. *)
Definition payload_read (o : OfflineOperation) : Prop :=
  match OfflineOperation_Type o with
  | OfflineAttemptCompleted => is_Some (OfflineOperation_Attempt o) ∧ OfflineOperation_Skip o = None
  | OfflineActivitySkipped => OfflineOperation_Attempt o = None ∧ is_Some (OfflineOperation_Skip o)
  | OfflineOperationOther _ => False
  end.

Lemma decodePayload_Ok o o' : decodePayload o = Ok o' → ∃ attempt skip, o' = with_payload attempt skip o ∧ payload_read o'.
Proof using Type.
  unfold decodePayload. destruct (OfflineOperation_Type o) eqn:Ht; [| |done].
  - destruct (_ ≫= _) as [attempt|]; [|done]. intros [= <-]. exists (Some attempt), None. split; [done|].
    unfold payload_read. cbn. rewrite Ht. split; [by eexists|done].
  - destruct (_ ≫= _) as [skip|]; [|done]. intros [= <-]. exists None, (Some skip). split; [done|].
    unfold payload_read. cbn. rewrite Ht. split; [done|by eexists].
Qed.

(** What [Validate] demands of the payload. *)
Definition payload_valid (o : OfflineOperation) : Prop :=
  match OfflineOperation_Type o with
  | OfflineAttemptCompleted =>
    ∃ a, OfflineOperation_Attempt o = Some a ∧ OfflineOperation_Skip o = None
      ∧ OfflineAttemptPayload_AnswerSHA256 a = SHA256 (OfflineAttemptPayload_Answer a)
      ∧ 1 <= str_len (OfflineAttemptPayload_Answer a) <= 262144 ∧ valid_utf8 (OfflineAttemptPayload_Answer a) = true
      ∧ validHelp (OfflineAttemptPayload_Help a) = true
      ∧ (length (default [] (OfflineAttemptPayload_Observations a)) <= 64)%nat
      ∧ Forall (fun ob => OfflineObservation_Kind ob ∈ ["activity_presented"; "answer_recorded"]
          ∧ in_utc (OfflineObservation_OccurredAt ob) = true) (default [] (OfflineAttemptPayload_Observations a))
  | OfflineActivitySkipped =>
    ∃ s, OfflineOperation_Attempt o = None ∧ OfflineOperation_Skip o = Some s
      ∧ OfflineSkipPayload_Reason s ∈ ["user_skipped"; "expired_locally"; "unreadable_local_item"]
  | OfflineOperationOther _ => False
  end.

Record accepted (o : OfflineOperation) : Prop := {
  accepted_ids : Forall (fun id => uuid_Parse id = Some id) [OfflineOperation_OperationID o; OfflineOperation_DeviceID o;
    OfflineOperation_SubmissionID o; OfflineOperation_AggregateID o; OfflineOperation_OfflineActivityID o];
  accepted_sequence : 1 <= OfflineOperation_DeviceSequence o <= MaxUint63;
  accepted_aggregate : OfflineOperation_AggregateType o = "offline_attempt"
    ∧ OfflineOperation_AggregateID o = OfflineOperation_SubmissionID o;
  accepted_versions : OfflineOperation_PayloadSchemaVersion o = 1 ∧ OfflineOperation_ExpectedVersion o = 0
    ∧ OfflineOperation_ActivityRevision o = 1;
  accepted_authorization : CanonicalizeJCS (OfflineOperation_Authorization o) = Ok (OfflineOperation_Authorization o)
    ∧ is_object (OfflineOperation_Authorization o) = true
    ∧ OfflineOperation_AuthorizationHash o = hex_encode (sha256_bytes (OfflineOperation_Authorization o));
  accepted_signature : length (OfflineOperation_AuthorizationSig o) = 64%nat;
  accepted_payload : CanonicalizeJCS (OfflineOperation_Payload o) = Ok (OfflineOperation_Payload o)
    ∧ is_object (OfflineOperation_Payload o) = true;
  accepted_time : in_utc (OfflineOperation_OccurredAt o) = true;
  accepted_content : payload_valid o;
}.

Lemma canonical_again input out : CanonicalizeJCS input = Ok out → CanonicalizeJCS out = Ok out.
Proof using Type.
  intros (v & Hv & [= <-])%bind_Ok. apply read_jcs_wf in Hv. unfold CanonicalizeJCS.
  by rewrite read_jcs_append, bind_eq_Ok, append_normalize.
Qed.

Lemma canonicalUUID_spec value : canonicalUUID value = true ↔ uuid_Parse value = Some value.
Proof using Type.
  unfold canonicalUUID. destruct (uuid_Parse value) as [p|]; [|done]. rewrite bool_decide_eq_true. naive_solver.
Qed.

Context (lower_ascii : ∀ r, 0 <= r < 128 → lower_rune r = ascii_lower r).

Lemma validate_attempt_Ok o :
  OfflineOperation_Type o = OfflineAttemptCompleted → validate_attempt o = Ok tt → payload_valid o.
Proof using lower_ascii.
  intros Ht. unfold validate_attempt, payload_valid. rewrite Ht. destruct (OfflineOperation_Attempt o) as [a|]; [|done].
  destruct (OfflineOperation_Skip o); [done|]. cbv zeta. intros [Hchecks H1]%guard_Ok. apply bind_Ok in H1 as ([] & Hhash & Hobs).
  exists a. repeat (apply orb_false_iff in Hchecks as [Hchecks ?]). bool_prop. unfold str_len in *. split_and!; try done; try lia.
  - destruct (hex_DecodeString (OfflineAttemptPayload_AnswerSHA256 a)) as [answerHash|] eqn:Ha; [|done].
    destruct (hex_DecodeString (SHA256 _)) as [actualHash|] eqn:Hb; [|done]. apply fail_if_Ok in Hhash.
    repeat (apply orb_false_iff in Hhash as [Hhash ?]). bool_prop. subst actualHash.
    rewrite (hex_digest_spec lower_ascii _ _ Ha) by done. unfold SHA256 in *. apply hex_encode_decoded; [apply sha256_bytes_ok|done].
  - apply each_Ok in Hobs. eapply Forall_impl; [exact Hobs|]. intros ob Hob. unfold check_observation in Hob.
    apply guard_Ok in Hob as [Hk Hu]. apply fail_if_Ok, negb_false_iff in Hu. split; [|done].
    apply andb_false_iff in Hk as [Hk|Hk]; bool_prop; set_solver.
Qed.

Lemma validate_skip_Ok o :
  OfflineOperation_Type o = OfflineActivitySkipped → validate_skip o = Ok tt → payload_valid o.
Proof using Type.
  clear lower_ascii. intros Ht. unfold validate_skip, payload_valid. rewrite Ht. destruct (OfflineOperation_Attempt o); [done|].
  destruct (OfflineOperation_Skip o) as [s|]; [|done]. intros Hreason%fail_if_Ok. exists s. split_and!; [done..|].
  apply andb_false_iff in Hreason as [Hr|Hr]; [apply andb_false_iff in Hr as [Hr|Hr]|]; bool_prop; set_solver.
Qed.

Lemma validate_Ok o : payload_read o → OfflineOperation_Validate o = Ok tt →
  validate_envelope o = Ok tt ∧ validate_authorization o = Ok tt ∧ in_utc (OfflineOperation_OccurredAt o) = true ∧ payload_valid o.
Proof using lower_ascii.
  intros Hread H1. unfold OfflineOperation_Validate in H1. apply bind_Ok in H1 as ([] & He & H1). apply bind_Ok in H1 as ([] & Ha & H1).
  apply guard_Ok in H1 as [Hu%negb_false_iff H1]. split_and!; try done.
  assert (bool_decide (OfflineOperation_Attempt o = None) && bool_decide (OfflineOperation_Skip o = None) = false) as Hboth.
  { unfold payload_read in Hread. destruct (OfflineOperation_Type o); [| |done]; destruct Hread as [H2 H3];
      apply andb_false_iff; rewrite !bool_decide_eq_false; [left; destruct H2 as [? ->]; done|right; destruct H3 as [? ->]; done]. }
  rewrite <- andb_assoc, Hboth, andb_false_r, bind_eq_Ok in H1.
  destruct (OfflineOperation_Type o) eqn:Ht; [by apply validate_attempt_Ok|by apply validate_skip_Ok|done].
Qed.

Lemma decode_accepted input o : DecodeOfflineOperationWire input = Ok o → accepted o.
Proof using lower_ascii.
  intros Hd. unfold DecodeOfflineOperationWire in Hd.
  apply bind_Ok in Hd as (canonical & _ & Hd). apply bind_Ok in Hd as (fields & _ & Hd). apply guard_Ok in Hd as [_ Hd].
  apply bind_Ok in Hd as (wire & _ & Hd). apply bind_Ok in Hd as (sequence & Hseq%some_or_Ok & Hd). apply guard_Ok in Hd as [Hzero Hd].
  apply bind_Ok in Hd as (version & _ & Hd). apply bind_Ok in Hd as (revision & _ & Hd).
  apply bind_Ok in Hd as (authorization & Hauth%or_error_Ok%canonical_again & Hd). apply guard_Ok in Hd as [Hobj%negb_false_iff Hd].
  apply bind_Ok in Hd as (hash & Hhash%or_error_Ok & Hd). apply bind_Ok in Hd as (signature & _ & Hd).
  apply guard_Ok in Hd as [[Hsig _]%orb_false_iff Hd].
  apply bind_Ok in Hd as (payload & Hpay%or_error_Ok%canonical_again & Hd). apply guard_Ok in Hd as [Hpobj%negb_false_iff Hd].
  apply bind_Ok in Hd as (o' & (attempt & skip & -> & Hread)%decodePayload_Ok & Hd). apply bind_Ok in Hd as ([] & Hvalid & [= <-]).
  apply validate_Ok in Hvalid as (He & _ & Hu & Hcontent); [|done]. unfold validate_envelope in He. apply fail_if_Ok in He.
  repeat (apply orb_false_iff in He as [He ?]). cbn in *. bool_prop.
  unfold JCSSHA256 in Hhash. rewrite Hauth, bind_eq_Ok in Hhash. injection Hhash as <-. cbn in *.
  constructor; cbn; try done.
  - repeat constructor; by apply canonicalUUID_spec.
  - unfold ParseUint63Decimal in Hseq. destruct (canonical_natural _) eqn:Hnat; [|done]. destruct (Z.leb_spec (decimal (bytes_of (Wire_DeviceSequence wire))) MaxUint63); [|done].
    injection Hseq as <-. pose proof (canonical_nonneg _ Hnat). lia.
  - by apply Nat.eqb_eq.
Qed.

(** C30. C1: an operation that is accepted from the wire names its parts by canonical
    identifiers, has a sequence number between 1 and 2^63-1, carries a canonical
    authorisation whose SHA-256 is the hash it states and a signature of 64 bytes,
    and a payload of its type that passes every check, the hash of the answer
    included. *)
Theorem DecodeOfflineOperationWire_accepts input o : DecodeOfflineOperationWire input = Ok o → accepted o.
Proof using lower_ascii.
  apply decode_accepted.
Qed.
End Accepted.

(** C1: only the value on the wire counts: texts that differ in white space, escapes
    or the order of their members give the same operation or the same error. *)
Theorem DecodeOfflineOperationWire_order `{UnicodeTables} `{UUIDPackage} a b va vb :
  read_jcs a = Ok va → read_jcs b = Ok vb → same va vb → DecodeOfflineOperationWire a = DecodeOfflineOperationWire b.
Proof.
  intros Ha Hb Hsame. unfold DecodeOfflineOperationWire. enough (CanonicalizeJCS a = CanonicalizeJCS b) as -> by done.
  unfold CanonicalizeJCS. rewrite Ha, Hb, !bind_eq_Ok. apply read_jcs_wf in Ha.
  by rewrite <- append_normalize, (same_normalize _ _ Ha Hsame), append_normalize.
Qed.

(** *** The text that is hashed *)
Section Hash.
Context `{UnicodeTables} `{UUIDPackage}.
Context (lower_ascii : ∀ r, 0 <= r < 128 → lower_rune r = ascii_lower r).
(** A canonical identifier is hexadecimal digits and dashes. *)
Context (uuid_ascii : ∀ s u, uuid_Parse s = Some u → ascii_text (bytes_of u)).

Definition hashed_text (o : OfflineOperation) : result error text :=
  payload ← canonicalPayload o;
  encoded ← some_or (hash_payload o payload) malformed;
  or_error (CanonicalizeJCS (bytes_of encoded)) malformed.

Lemma CanonicalHash_text o :
  OfflineOperation_CanonicalHash o = (_ ← OfflineOperation_Validate o; text ← hashed_text o; Ok (hex_encode (sha256_bytes text))).
Proof using Type.
  clear lower_ascii uuid_ascii. unfold OfflineOperation_CanonicalHash, hashed_text. destruct (OfflineOperation_Validate o); [|done]. rewrite !bind_eq_Ok.
  destruct (canonicalPayload o) as [p|]; [|done]. rewrite !bind_eq_Ok. destruct (hash_payload o p) as [t|]; [|done].
  cbn [some_or]. rewrite !bind_eq_Ok. unfold JCSSHA256. by destruct (CanonicalizeJCS (bytes_of t)).
Qed.

(** The same as a value. *)
Definition hash_entries (o : OfflineOperation) (occurred_at payload : jcs) : list (text * jcs) := [
  (bytes_of "protocol_version", JNumber (bytes_of "1"));
  (bytes_of "operation_id", JString (bytes_of (OfflineOperation_OperationID o)));
  (bytes_of "device_id", JString (bytes_of (OfflineOperation_DeviceID o)));
  (bytes_of "device_seq", JString (bytes_of (decimal_text (OfflineOperation_DeviceSequence o))));
  (bytes_of "submission_id", JString (bytes_of (OfflineOperation_SubmissionID o)));
  (bytes_of "payload_schema_version", JNumber (bytes_of "1"));
  (bytes_of "aggregate_type", JString (bytes_of (OfflineOperation_AggregateType o)));
  (bytes_of "aggregate_id", JString (bytes_of (OfflineOperation_AggregateID o)));
  (bytes_of "expected_version", JString (bytes_of "0"));
  (bytes_of "offline_activity_id", JString (bytes_of (OfflineOperation_OfflineActivityID o)));
  (bytes_of "activity_revision", JString (bytes_of "1"));
  (bytes_of "authorization_sha256",
     JString (bytes_of (base64_EncodeToString (default [] (hex_DecodeString (OfflineOperation_AuthorizationHash o))))));
  (bytes_of "occurred_at", occurred_at);
  (bytes_of "operation_type", JString (bytes_of (OfflineOperationType_string (OfflineOperation_Type o))));
  (bytes_of "payload", payload)].

Lemma accepted_hash_bytes o : accepted o →
  hex_DecodeString (OfflineOperation_AuthorizationHash o) = Some (sha256_bytes (OfflineOperation_Authorization o)).
Proof using Type.
  clear lower_ascii uuid_ascii. intros Ho. destruct (accepted_authorization o Ho) as (_ & _ & ->). rewrite hex_encode_text. unfold hex_DecodeString.
  destruct (hex_text_ok _ (sha256_bytes_ok (OfflineOperation_Authorization o))) as [Hok Hdec]. by rewrite bytes_of_string.
Qed.

Lemma accepted_payload_value o : accepted o → ∃ vp, wf vp ∧ OfflineOperation_Payload o = appendJCSValue vp.
Proof using Type.
  clear lower_ascii uuid_ascii. intros Ho. destruct (accepted_payload o Ho) as [(vp & Hvp%read_jcs_wf & [= Heq])%bind_Ok _]. by exists vp.
Qed.

Lemma time_value t s : MarshalTimePointer t = Some s → ∃ v, wf v ∧ normalize v = v ∧ bytes_of s = write html_rune v.
Proof using Type.
  clear lower_ascii uuid_ascii. destruct t as [t|]; [|intros [= <-]; exists JNull; repeat split; constructor].
  intros (u & -> & Hu)%MarshalTime_string. exists (JString (bytes_of u)). split_and!; [constructor; by apply ascii_valid|done|].
  by apply json_string_bytes, ascii_valid.
Qed.

(** What [json.Marshal] writes for an accepted operation. *)
Lemma hash_payload_written o s at_ vp :
  accepted o → MarshalTimePointer (OfflineOperation_OccurredAt o) = Some s → bytes_of s = write html_rune at_ → wf at_ →
  wf vp → OfflineOperation_Payload o = appendJCSValue vp →
  wf (JObject (hash_entries o at_ (normalize vp)))
  ∧ ∃ encoded, hash_payload o (OfflineOperation_Payload o) = Some encoded
      ∧ bytes_of encoded = write html_rune (JObject (hash_entries o at_ (normalize vp))).
Proof using uuid_ascii.
  intros Ho Hs Hat Hwat Hvp Hpay.
  assert (Forall (fun id => valid_text (bytes_of id)) [OfflineOperation_OperationID o; OfflineOperation_DeviceID o;
    OfflineOperation_SubmissionID o; OfflineOperation_AggregateID o; OfflineOperation_OfflineActivityID o]) as Hids.
  { eapply Forall_impl; [exact (accepted_ids o Ho)|]. intros id Hid. apply ascii_valid. exact (uuid_ascii _ _ Hid). }
  rewrite !Forall_cons in Hids. destruct Hids as (Hid1 & Hid2 & Hid3 & Hid4 & Hid5 & _).
  destruct (accepted_aggregate o Ho) as [Hagg _]. destruct (accepted_versions o Ho) as (Hv1 & Hv2 & Hv3).
  destruct (decimal_text_spec (OfflineOperation_DeviceSequence o)) as [Hseq _]; [pose proof (accepted_sequence o Ho); lia|].
  pose proof (accepted_hash_bytes o Ho) as Hhash.
  pose proof (base64_ascii _ (sha256_bytes_ok (OfflineOperation_Authorization o))) as Hb64.
  assert (valid_text (bytes_of (base64_EncodeToString (default [] (hex_DecodeString (OfflineOperation_AuthorizationHash o)))))) as Hauth.
  { rewrite Hhash. cbn [default]. unfold base64_EncodeToString. rewrite bytes_of_string by by apply ascii_bytes_ok. by apply ascii_valid. }
  assert (valid_text (bytes_of (OfflineOperationType_string (OfflineOperation_Type o)))) as Htype.
  { pose proof (accepted_content o Ho) as Hc. unfold payload_valid in Hc. destruct (OfflineOperation_Type o); [| |done];
      apply ascii_valid, ascii_check; reflexivity. }
  assert (valid_text (bytes_of (OfflineOperation_AggregateType o))) as Haggv by (rewrite Hagg; apply ascii_valid, ascii_check; reflexivity).
  split.
  - constructor.
    + repeat (constructor; [apply ascii_valid, ascii_check; reflexivity|]). constructor.
    + apply (bool_decide_unpack _). vm_compute. exact I.
    + unfold hash_entries. rewrite !Forall_cons. cbn [snd].
      split_and!; first [exact Hwat|by apply normalize_wf|constructor; first [done|by apply ascii_valid
        |apply ascii_valid, ascii_check; reflexivity|by vm_compute]|constructor].
  - unfold hash_payload. rewrite Hs. eexists. split; [reflexivity|]. rewrite json_object_written. cbn [write]. do 3 f_equal.
    rewrite Hv1, Hv2, Hv3. cbn [map fmap list_fmap hash_entries fst snd].
    assert (ascii_text (bytes_of (decimal_text 0)) ∧ ascii_text (bytes_of (decimal_text 1))) as [H0v H1v] by (split; apply ascii_check; reflexivity).
    repeat (apply (f_equal2 cons); [apply json_field_written; [first [exact Hat|apply json_string_bytes; first [done|by apply ascii_valid]
      |rewrite Hpay; by apply json_raw_bytes|reflexivity]|reflexivity]|]). reflexivity.
Qed.

Lemma hashed_text_value o s at_ vp :
  accepted o → MarshalTimePointer (OfflineOperation_OccurredAt o) = Some s → bytes_of s = write html_rune at_ → wf at_ →
  wf vp → OfflineOperation_Payload o = appendJCSValue vp →
  wf (JObject (hash_entries o at_ (normalize vp))) ∧ hashed_text o = Ok (appendJCSValue (JObject (hash_entries o at_ (normalize vp)))).
Proof using uuid_ascii.
  intros Ho Hs Hat Hwat Hvp Hpay. destruct (hash_payload_written o s at_ vp) as (Hwf & encoded & Henc & Hbytes); [done..|].
  split; [done|]. unfold hashed_text, canonicalPayload. destruct (accepted_payload o Ho) as [Hcanon Hobj].
  assert (is_nil (OfflineOperation_Payload o) = false) as -> by (by destruct (OfflineOperation_Payload o)).
  cbn [negb]. rewrite Hcanon. cbn [or_error]. rewrite bind_eq_Ok, Hobj. cbn [negb fail_if]. rewrite (bind_eq_Ok tt), bind_eq_Ok, Henc. cbn [some_or].
  rewrite bind_eq_Ok, Hbytes. unfold CanonicalizeJCS. rewrite read_jcs_write by (apply html_escapes || done). done.
Qed.

(** What an operation is hashed by: all but its authorisation, which its hash stands
    for, and the signature. *)
Record same_request (o1 o2 : OfflineOperation) : Prop := {
  same_OperationID : OfflineOperation_OperationID o1 = OfflineOperation_OperationID o2;
  same_DeviceID : OfflineOperation_DeviceID o1 = OfflineOperation_DeviceID o2;
  same_DeviceSequence : OfflineOperation_DeviceSequence o1 = OfflineOperation_DeviceSequence o2;
  same_SubmissionID : OfflineOperation_SubmissionID o1 = OfflineOperation_SubmissionID o2;
  same_OfflineActivityID : OfflineOperation_OfflineActivityID o1 = OfflineOperation_OfflineActivityID o2;
  same_AuthorizationHash : OfflineOperation_AuthorizationHash o1 = OfflineOperation_AuthorizationHash o2;
  same_OccurredAt : MarshalTimePointer (OfflineOperation_OccurredAt o1) = MarshalTimePointer (OfflineOperation_OccurredAt o2);
  same_Type : OfflineOperation_Type o1 = OfflineOperation_Type o2;
  same_Payload : OfflineOperation_Payload o1 = OfflineOperation_Payload o2;
}.

Lemma type_string_inj o1 o2 : accepted o1 → accepted o2 →
  OfflineOperationType_string (OfflineOperation_Type o1) = OfflineOperationType_string (OfflineOperation_Type o2) →
  OfflineOperation_Type o1 = OfflineOperation_Type o2.
Proof using Type.
  clear lower_ascii uuid_ascii. intros H1%accepted_content H2%accepted_content. unfold payload_valid in *.
  by destruct (OfflineOperation_Type o1), (OfflineOperation_Type o2).
Qed.

Lemma authorization_hash_inj o1 o2 : accepted o1 → accepted o2 →
  base64_EncodeToString (default [] (hex_DecodeString (OfflineOperation_AuthorizationHash o1)))
  = base64_EncodeToString (default [] (hex_DecodeString (OfflineOperation_AuthorizationHash o2))) →
  OfflineOperation_AuthorizationHash o1 = OfflineOperation_AuthorizationHash o2.
Proof using Type.
  clear lower_ascii uuid_ascii. intros H1 H2. rewrite !accepted_hash_bytes by done. cbn [default]. unfold base64_EncodeToString.
  intros Heq%(f_equal bytes_of). rewrite !bytes_of_string in Heq by apply ascii_bytes_ok, base64_ascii, sha256_bytes_ok.
  apply (f_equal base64_decode) in Heq. rewrite !base64_roundtrip in Heq by apply sha256_bytes_ok. injection Heq as Heq.
  destruct (accepted_authorization o1 H1) as (_ & _ & ->), (accepted_authorization o2 H2) as (_ & _ & ->). by rewrite Heq.
Qed.

Lemma hashed_text_Ok o t : accepted o → hashed_text o = Ok t → ∃ s at_ vp,
  MarshalTimePointer (OfflineOperation_OccurredAt o) = Some s ∧ bytes_of s = write html_rune at_ ∧ normalize at_ = at_
  ∧ wf vp ∧ OfflineOperation_Payload o = appendJCSValue vp
  ∧ wf (JObject (hash_entries o at_ (normalize vp))) ∧ t = appendJCSValue (JObject (hash_entries o at_ (normalize vp))).
Proof using uuid_ascii.
  intros Ho Ht. destruct (accepted_payload_value o Ho) as (vp & Hvp & Hpay).
  destruct (MarshalTimePointer (OfflineOperation_OccurredAt o)) as [s|] eqn:Hs.
  - destruct (time_value _ _ Hs) as (at_ & Hwat & Hnat & Hat). destruct (hashed_text_value o s at_ vp) as [Hwf Htext]; [done..|].
    rewrite Htext in Ht. injection Ht as <-. by exists s, at_, vp.
  - unfold hashed_text in Ht. apply bind_Ok in Ht as (p & _ & Ht). unfold hash_payload in Ht. rewrite Hs in Ht. done.
Qed.

Lemma hashed_text_same o1 o2 t : accepted o1 → accepted o2 → hashed_text o1 = Ok t → hashed_text o2 = Ok t → same_request o1 o2.
Proof using uuid_ascii.
  intros Ho1 Ho2 H1 H2. destruct (hashed_text_Ok o1 t Ho1 H1) as (s1 & a1 & v1 & Hs1 & Ha1 & Hn1 & Hv1 & Hp1 & Hwf1 & ->).
  destruct (hashed_text_Ok o2 _ Ho2 H2) as (s2 & a2 & v2 & Hs2 & Ha2 & Hn2 & Hv2 & Hp2 & Hwf2 & Heq).
  apply append_inj in Heq; [|done..].
  (* the keys are sorted alike, so that the values are equal one by one *)
  injection Heq as _ _ Eauth Edevice Eseq Eat Eactivity Eoperation Etype Epayload Esubmission.
  rewrite Hn1, Hn2 in Eat. subst a2. apply (f_equal appendJCSValue) in Epayload. rewrite !append_normalize in Epayload.
  constructor.
  - by apply bytes_of_inj.
  - by apply bytes_of_inj.
  - apply (f_equal decimal) in Eseq. pose proof (accepted_sequence o1 Ho1). pose proof (accepted_sequence o2 Ho2).
    by rewrite (proj2 (decimal_text_spec (OfflineOperation_DeviceSequence o1) ltac:(lia))),
      (proj2 (decimal_text_spec (OfflineOperation_DeviceSequence o2) ltac:(lia))) in Eseq.
  - by apply bytes_of_inj.
  - by apply bytes_of_inj.
  - apply authorization_hash_inj; [done..|]. by apply bytes_of_inj.
  - rewrite Hs1, Hs2. f_equal. apply bytes_of_inj. by rewrite Ha1, Ha2.
  - apply type_string_inj; [done..|]. by apply bytes_of_inj.
  - by rewrite Hp1, Hp2.
Qed.

Lemma same_hashed_text o1 o2 t1 t2 :
  accepted o1 → accepted o2 → same_request o1 o2 → hashed_text o1 = Ok t1 → hashed_text o2 = Ok t2 → t1 = t2.
Proof using Type.
  clear lower_ascii uuid_ascii. intros Ho1 Ho2 [E1 E2 E3 E4 E5 E6 E7 E8 E9] H1 H2. enough (hashed_text o1 = hashed_text o2) by congruence. clear H1 H2.
  destruct (accepted_aggregate o1 Ho1) as [A1 B1], (accepted_aggregate o2 Ho2) as [A2 B2].
  destruct (accepted_versions o1 Ho1) as (P1 & Q1 & R1), (accepted_versions o2 Ho2) as (P2 & Q2 & R2).
  assert (canonicalPayload o1 = canonicalPayload o2) as Hpay.
  { unfold canonicalPayload. rewrite <- E9. destruct (accepted_payload o1 Ho1) as [_ Hobj].
    assert (is_nil (OfflineOperation_Payload o1) = false) as -> by (by destruct (OfflineOperation_Payload o1)). done. }
  unfold hashed_text. rewrite Hpay. destruct (canonicalPayload o2) as [p|]; [|done]. rewrite !bind_eq_Ok.
  enough (hash_payload o1 p = hash_payload o2 p) as -> by done.
  unfold hash_payload. by rewrite E7, E1, E2, E3, E4, E5, E6, E8, A1, A2, B1, B2, E4, P1, P2, Q1, Q2, R1, R2.
Qed.

(** *** The time of an accepted operation was read from its text. *)
Lemma read_field_invariant {A} (P : A → Prop) read zero name ms a :
  P zero → (∀ current v b, read current v = Some b → P current → P b) → read_field read zero name ms = Some a → P a.
Proof using Type.
  clear lower_ascii uuid_ascii. intros Hzero Hread. unfold read_field.
  enough (∀ start : option A, (∀ x, start = Some x → P x) →
    foldl (fun current m => a ← current; if names_field name m.1 then read a m.2 else Some a) start ms = Some a → P a) as Hgen
    by (apply Hgen; naive_solver).
  induction ms as [|m ms IH]; intros start Hstart; [apply Hstart|]. cbn [foldl]. apply IH. intros x (y & Hy & Hx)%option_bind_Some.
  destruct (names_field name m.1); [by eapply Hread, Hstart|]. injection Hx as <-. by apply Hstart.
Qed.

Definition time_read (t : option GoTime) : Prop := match t with Some t => ∃ l, parse_rfc3339 l = Some t | None => True end.

Lemma read_wire_time ms wire : read_wire ms = Some wire → time_read (Wire_OccurredAt wire).
Proof using Type.
  clear lower_ascii uuid_ascii. unfold read_wire. intros Hw.
  repeat (apply option_bind_Some in Hw as (? & ? & Hw)). injection Hw as <-. cbn [Wire_OccurredAt].
  match goal with Hr : read_field read_time_pointer _ _ _ = _ |- _ => revert Hr end. apply read_field_invariant; [done|].
  intros current v b Hb _. unfold read_time_pointer in Hb.
  destruct v.2; try (injection Hb as <-; done); apply fmap_Some in Hb as (t & Ht & ->); unfold unmarshal_time in Ht;
    (destruct v.1 as [|c raw]; [done|]; apply option_bind_Some in Ht as (_ & _ & Ht); by eexists).
Qed.

Lemma decoded_time_marshals input o :
  DecodeOfflineOperationWire input = Ok o → ∃ s, MarshalTimePointer (OfflineOperation_OccurredAt o) = Some s.
Proof using lower_ascii.
  intros Hd. pose proof (accepted_time o (decode_accepted lower_ascii input o Hd)) as Hutc. clear uuid_ascii lower_ascii.
  unfold DecodeOfflineOperationWire in Hd.
  apply bind_Ok in Hd as (canonical & _ & Hd). apply bind_Ok in Hd as (fields & _ & Hd). apply guard_Ok in Hd as [_ Hd].
  apply bind_Ok in Hd as (wire & Hwire%some_or_Ok%read_wire_time & Hd). apply bind_Ok in Hd as (sequence & _ & Hd). apply guard_Ok in Hd as [_ Hd].
  apply bind_Ok in Hd as (version & _ & Hd). apply bind_Ok in Hd as (revision & _ & Hd).
  apply bind_Ok in Hd as (authorization & _ & Hd). apply guard_Ok in Hd as [_ Hd].
  apply bind_Ok in Hd as (hash & _ & Hd). apply bind_Ok in Hd as (signature & _ & Hd). apply guard_Ok in Hd as [_ Hd].
  apply bind_Ok in Hd as (payload & _ & Hd). apply guard_Ok in Hd as [_ Hd].
  apply bind_Ok in Hd as (o' & (attempt & skip & -> & _)%decodePayload_Ok & Hd). apply bind_Ok in Hd as ([] & _ & [= <-]).
  cbn [OfflineOperation_OccurredAt with_payload] in *. destruct (Wire_OccurredAt wire) as [t|]; [|by eexists].
  destruct Hwire as [l Hl]. cbn in Hutc. destruct (parsed_time_marshals l t Hl) as [s Hs]; [by apply Z.eqb_eq|]. by exists s.
Qed.

Lemma decoded_validates input o : DecodeOfflineOperationWire input = Ok o → OfflineOperation_Validate o = Ok tt.
Proof using Type.
  clear lower_ascii uuid_ascii. unfold DecodeOfflineOperationWire. intros Hd.
  apply bind_Ok in Hd as (? & _ & Hd). apply bind_Ok in Hd as (? & _ & Hd). apply guard_Ok in Hd as [_ Hd].
  do 2 apply bind_Ok in Hd as (? & _ & Hd). apply guard_Ok in Hd as [_ Hd].
  do 3 apply bind_Ok in Hd as (? & _ & Hd). apply guard_Ok in Hd as [_ Hd].
  do 2 apply bind_Ok in Hd as (? & _ & Hd). apply guard_Ok in Hd as [_ Hd].
  apply bind_Ok in Hd as (? & _ & Hd). apply guard_Ok in Hd as [_ Hd].
  apply bind_Ok in Hd as (? & _ & Hd). by apply bind_Ok in Hd as ([] & Hv & [= <-]).
Qed.

(** C1: every operation that is accepted from the wire has a hash: its payload, its
    identifiers and its time are always written as JSON that is canonicalised. *)
Theorem accepted_operations_have_hash input o :
  DecodeOfflineOperationWire input = Ok o → ∃ hash, OfflineOperation_CanonicalHash o = Ok hash.
Proof using lower_ascii uuid_ascii.
  intros Hd. pose proof (decode_accepted lower_ascii input o Hd) as Ho. destruct (decoded_time_marshals input o Hd) as [s Hs].
  destruct (accepted_payload_value o Ho) as (vp & Hvp & Hpay). destruct (time_value _ _ Hs) as (at_ & Hwat & _ & Hat).
  destruct (hashed_text_value o s at_ vp) as [_ Htext]; [done..|].
  rewrite CanonicalHash_text, (decoded_validates input o Hd), bind_eq_Ok, Htext, bind_eq_Ok. by eexists.
Qed.

(** C29. C1: the hashed text binds the request: two accepted operations are hashed over the
    same text exactly when they agree on every identifier, the sequence number, the
    hash of the authorisation, the written time, the type and the payload. Operations
    that differ in one of them have different hashes unless SHA-256 collides on their
    texts. *)
Theorem hash_binds_request a b o1 o2 h1 h2 :
  DecodeOfflineOperationWire a = Ok o1 → DecodeOfflineOperationWire b = Ok o2 →
  OfflineOperation_CanonicalHash o1 = Ok h1 → OfflineOperation_CanonicalHash o2 = Ok h2 →
  ∃ t1 t2, hashed_text o1 = Ok t1 ∧ h1 = hex_encode (sha256_bytes t1) ∧ hashed_text o2 = Ok t2
    ∧ h2 = hex_encode (sha256_bytes t2) ∧ (t1 = t2 ↔ same_request o1 o2).
Proof using lower_ascii uuid_ascii.
  intros Ha Hb. rewrite !CanonicalHash_text. intros ([] & _ & (t1 & H1 & [= <-])%bind_Ok)%bind_Ok ([] & _ & (t2 & H2 & [= <-])%bind_Ok)%bind_Ok.
  exists t1, t2. split_and!; [done..|].
  pose proof (decode_accepted lower_ascii a o1 Ha) as Ho1. pose proof (decode_accepted lower_ascii b o2 Hb) as Ho2. split.
  - intros <-. by eapply hashed_text_same.
  - intros Hsame. by apply (same_hashed_text o1 o2).
Qed.
End Hash.

(** *** Results and winners *)

(** The winner of an activity never changes: once an attempt has won, only that
    attempt is decided to be the winner. *)
Lemma DecideOfflineWinner_first `{UUIDValidation} existing contender eligible reason d :
  DecideOfflineWinner existing contender eligible reason = Ok d → existing ≠ "" →
  OfflineWinnerDecision_Winner d = true → contender = existing.
Proof.
  unfold DecideOfflineWinner. intros Hd Hne. apply guard_Ok in Hd as [_ Hd]. apply guard_Ok in Hd as [_ Hd].
  destruct eligible; cbn [negb] in Hd; [|apply guard_Ok in Hd as [_ [= <-]]; done].
  rewrite bool_decide_eq_false_2 in Hd by done. cbn [orb] in Hd. case_bool_decide; [done|]. by injection Hd as <-.
Qed.

(** C1: a result that is sent to a device either is an archived one, with a receipt
    whose sequence numbers are in order and a combination of statuses the protocol
    allows, or carries nothing of an archive. *)
Theorem OfflineIngestResult_Validate_spec `{UUIDValidation} r : OfflineIngestResult_Validate r = Ok tt →
  (∃ n, uint63 (OfflineIngestResult_DeviceSequence r) = Some n ∧ 1 <= n) ∧
  match OfflineIngestResult_ResultKind r with
  | OfflineResultArchived =>
    (∃ receipt version first last as_of, OfflineIngestResult_Receipt r = Some receipt
      ∧ uint63 (OfflineIngestReceipt_AggregateVersion receipt) = Some version
      ∧ uint63 (OfflineIngestReceipt_FirstEventSequence receipt) = Some first
      ∧ uint63 (OfflineIngestReceipt_LastEventSequence receipt) = Some last
      ∧ uint63 (OfflineIngestReceipt_ProjectionAsOf receipt) = Some as_of
      ∧ 1 <= version ∧ 1 <= first <= last ∧ last <= as_of)
    ∧ (OfflineIngestResult_EvidenceStatus r = OfflineEvidenceAccepted →
       OfflineIngestResult_ArchiveStatus r = OfflineArchivedSucceeded ∧ OfflineIngestResult_AssessmentStatus r = OfflineAssessmentCompleted)
  | _ => OfflineIngestResult_Receipt r = None ∧ OfflineIngestResult_StatusTicket r = None
      ∧ OfflineIngestResult_AssessmentID r = "" ∧ OfflineIngestResult_EvidenceID r = ""
  end.
Proof.
  unfold OfflineIngestResult_Validate. intros [Hid Hr]%guard_Ok. apply orb_false_iff in Hid as [_ Hseq%negb_false_iff]. split.
  { unfold positive_uint63 in Hseq. destruct (uint63 _) as [n|]; [|done]. exists n. bool_prop. by split. }
  case_bool_decide as Hkind.
  - rewrite Hkind. apply bind_Ok in Hr as ([] & Hreceipt & Hr). apply bind_Ok in Hr as ([] & _ & Hcomb). split.
    + destruct (OfflineIngestResult_Receipt r) as [receipt|]; [|done]. apply fail_if_Ok, negb_false_iff in Hreceipt.
      unfold validate_receipt in Hreceipt. destruct (uint63 (OfflineIngestReceipt_AggregateVersion receipt)) as [v|] eqn:H1; [|done].
      destruct (uint63 (OfflineIngestReceipt_FirstEventSequence receipt)) as [f|] eqn:H2; [|done].
      destruct (uint63 (OfflineIngestReceipt_LastEventSequence receipt)) as [l|] eqn:H3; [|done].
      destruct (uint63 (OfflineIngestReceipt_ProjectionAsOf receipt)) as [a|] eqn:H4; [|done].
      bool_prop. exists receipt, v, f, l, a. split_and!; try done; lia.
    + intros He. rewrite He in Hcomb. unfold ValidateOfflineResultCombination in Hcomb.
      apply fail_if_Ok, negb_false_iff in Hcomb.
      destruct (OfflineIngestResult_ArchiveStatus r), (OfflineIngestResult_AssessmentStatus r); try done; bool_prop; congruence.
  - apply fail_if_Ok in Hr. bool_prop.
    assert (OfflineIngestResult_Receipt r = None ∧ OfflineIngestResult_StatusTicket r = None) by (split; by apply eq_None_not_Some).
    destruct (OfflineIngestResult_ResultKind r); naive_solver.
Qed.

(** The limits of an accepted request, the product of the seconds included. *)
Lemma OfflinePrepareRequest_limits `{UnicodeTables} `{UUIDValidation} r : OfflinePrepareRequest_Validate r = Ok tt →
  1 <= (OfflinePrepareRequest_Limits r).1 <= 20 ∧ 15 * minute <= (OfflinePrepareRequest_Limits r).2 <= 7 * 24 * hour.
Proof.
  unfold OfflinePrepareRequest_Validate. intros [_ Hr]%guard_Ok. apply guard_Ok in Hr as [_ Hr].
  apply bind_Ok in Hr as (_ & _ & Hr). apply bind_Ok in Hr as (_ & _ & Hr). apply guard_Ok in Hr as [_ Hr].
  destruct (OfflinePrepareRequest_Limits r) as [count ttl]. apply fail_if_Ok in Hr. bool_prop.
  unfold OfflineMaxPackCount, OfflineMinimumTTL, OfflineMaximumTTL in *. cbn [fst snd]. lia.
Qed.

Module Samples.
Import Jcs.Samples.
#[export] Instance sample_uuid : UUIDPackage :=
  fun s => if (str_len s =? 36) && forallb (fun b => (0 <=? b) && (b <? 128)) (bytes_of s) then Some s else None.
#[export] Instance sample_validation : UUIDValidation := fun s => str_len s =? 36.
#[export] Instance sample_tables : UnicodeTables := ascii_tables.

Lemma sample_lower r : 0 <= r < 128 → lower_rune r = ascii_lower r.
Proof. done. Qed.
Lemma sample_uuid_ascii s u : uuid_Parse s = Some u → ascii_text (bytes_of u).
Proof.
  unfold uuid_Parse, sample_uuid. destruct (_ =? 36); cbn [andb]; [|done].
  destruct (forallb _ _) eqn:Hall; [|done]. intros [= <-]. by apply ascii_check.
Qed.

Definition id (n : string) : string := "00000000-0000-4000-8000-00000000000" +:+ n.
Definition front (seq : string) : string :=
  "'operation_id':'" +:+ id "1" +:+ "','device_id':'" +:+ id "2" +:+ "','device_seq':'" +:+ seq +:+ "','submission_id':'" +:+ id "3"
  +:+ "','payload_schema_version':1,'aggregate_type':'offline_attempt','aggregate_id':'" +:+ id "3" +:+ "'".
Definition back (type payload : string) : string :=
  "'expected_version':'0','offline_activity_id':'" +:+ id "4"
  +:+ "','activity_revision':'1','authorization':{'format':'offline-authorization-v1'},'signature':'"
  +:+ string_of_bytes (replicate 86 65) +:+ "','occurred_at':'2024-02-29T21:34:56Z','operation_type':'" +:+ type +:+ "','payload':" +:+ payload.
Definition skipped (seq : string) : text :=
  quoted ("{" +:+ front seq +:+ "," +:+ back "offline_activity_skipped" "{'reason':'user_skipped'}" +:+ "}").
Definition skipped_reordered (seq : string) : text :=
  quoted ("{ " +:+ back "offline_activity_skipped" "{'\u0072eason':'user_skipped'}" +:+ ",  " +:+ front seq +:+ "}").
Definition answered : text :=
  quoted ("{" +:+ front "8" +:+ "," +:+ back "offline_attempt_completed"
    ("{'answer':'x < 1','answer_sha256':'" +:+ SHA256 "x < 1"
     +:+ "','help':'hint','observations':[{'kind':'answer_recorded','occurred_at':null}]}") +:+ "}").

Definition decoded (input : text) : OfflineOperation :=
  match DecodeOfflineOperationWire input with
  | Ok o => o
  | Err _ => mkOfflineOperation "" "" 0 0 0 "" 0 "" "" 0 "" 0 "" [] [] None (OfflineOperationOther "") [] None None
  end.
Example decoded_skipped : DecodeOfflineOperationWire (skipped "7") = Ok (decoded (skipped "7")).
Proof. vm_compute. reflexivity. Qed.
Example decoded_answered : DecodeOfflineOperationWire answered = Ok (decoded answered).
Proof. vm_compute. reflexivity. Qed.
Example skipped_hash :
  OfflineOperation_CanonicalHash (decoded (skipped "7")) = Ok "6c62e4fabf156a957daba05e88f6c49878c7afb17bc52251b51fbe644e912667".
Proof. vm_compute. reflexivity. Qed.
Example answered_hash : ∃ hash, OfflineOperation_CanonicalHash (decoded answered) = Ok hash.
Proof. eexists. vm_compute. reflexivity. Qed.
Example duplicate_field : DecodeOfflineOperationWire (quoted ("{" +:+ front "7" +:+ ",'device_id':'x'," +:+ back "" "{}" +:+ "}"))
  = Err (invalid_cause "invalid_offline_operation_json").
Proof. vm_compute. reflexivity. Qed.
(** The field names fold: the long s stands for an s, and the member comes last. *)
Example folded_field :
  (OfflineOperation_DeviceSequence <$> DecodeOfflineOperationWire
    (quoted ("{" +:+ front "7" +:+ ",'device_" +:+ string_of_bytes [197; 191] +:+ "eq':'9'," +:+ back "offline_activity_skipped" "{'reason':'user_skipped'}" +:+ "}")))
  = Ok 9.
Proof. vm_compute. reflexivity. Qed.

(** A span of more than 584 years passes as one of 16 minutes. *)
Example ttl_overflows :
  OfflinePrepareRequest_Validate (mkOfflinePrepareRequest "" (id "1") 1 "0" "0" OfflineZeroDigest None (Some 18446745073)) = Ok tt.
Proof. vm_compute. reflexivity. Qed.
Definition archived : OfflineIngestResult :=
  mkOfflineIngestResult OfflineResultArchived (id "1") "7" (id "3") OfflineArchivedSucceeded OfflineAssessmentCompleted OfflineEvidenceAccepted
    [] false (Some (mkOfflineIngestReceipt (id "5") 0 "1" "10" "12" "12" OfflineArchivedSucceeded)) None "" "".
End Samples.
#[local] Existing Instances Samples.sample_uuid Samples.sample_validation Samples.sample_tables.

Lemma DecodeOfflineOperationWire_accepts_witness : accepted (Samples.decoded Samples.answered).
Proof. refine (DecodeOfflineOperationWire_accepts Samples.sample_lower Samples.answered _ Samples.decoded_answered). Defined.

Definition sample_value (input : text) : jcs := match read_jcs input with Ok v => v | Err _ => JNull end.

Lemma DecodeOfflineOperationWire_order_witness :
  DecodeOfflineOperationWire (Samples.skipped "7") = DecodeOfflineOperationWire (Samples.skipped_reordered "7").
Proof.
  apply (DecodeOfflineOperationWire_order _ _ (sample_value (Samples.skipped "7")) (sample_value (Samples.skipped_reordered "7")));
    [vm_compute; reflexivity|vm_compute; reflexivity|apply normalize_same; vm_compute; reflexivity].
Defined.

Lemma accepted_operations_have_hash_witness :
  ∃ hash, OfflineOperation_CanonicalHash (Samples.decoded (Samples.skipped "7")) = Ok hash.
Proof.
  refine (accepted_operations_have_hash Samples.sample_lower Samples.sample_uuid_ascii _ _ Samples.decoded_skipped).
Defined.

Lemma hash_binds_request_witness :
  ∃ h2 t1 t2, hashed_text (Samples.decoded (Samples.skipped "7")) = Ok t1
    ∧ "6c62e4fabf156a957daba05e88f6c49878c7afb17bc52251b51fbe644e912667" = hex_encode (sha256_bytes t1)
    ∧ hashed_text (Samples.decoded Samples.answered) = Ok t2 ∧ h2 = hex_encode (sha256_bytes t2)
    ∧ (t1 = t2 ↔ same_request (Samples.decoded (Samples.skipped "7")) (Samples.decoded Samples.answered)).
Proof.
  destruct Samples.answered_hash as [h2 Hh2]. exists h2.
  exact (hash_binds_request Samples.sample_lower Samples.sample_uuid_ascii _ _ _ _ _ _ Samples.decoded_skipped Samples.decoded_answered
    Samples.skipped_hash Hh2).
Defined.

Lemma OfflineIngestResult_Validate_spec_witness : ∃ n, uint63 "7" = Some n ∧ 1 <= n.
Proof. refine (proj1 (OfflineIngestResult_Validate_spec Samples.archived _)). vm_compute. reflexivity. Defined.
