(* ===== verification/ActiveTime.v ===== *)
(** * Estimated active time

    [server/internal/learning/time.go]: the active time of a session is the sum
    of the gaps between its user-initiated events, each gap counted up to five
    minutes. The event kinds and the timeline entries it reads are those of
    [event.go]. *)
From S2P Require Import Prelude GoStd LearningDomain.

(** ** Data *)
Inductive EventType : Type :=
| EventGoalRevisionCreated
| EventRouteRevisionCreated
| EventLearningSessionStarted
| EventTutoringStateChanged
| EventActivityIssued
| EventActivityPresented
| EventAttemptSubmitted
| EventAssessmentRecorded
| EventAssessmentMarkedProvisional
| EventAssessmentAccepted
| EventAssessmentOverridden
| EventAssessmentVoided
| EventEvidenceAccepted
| EventEvidenceInvalidated
| EventExposureRecorded
| EventReviewPresented
| EventFocusSuspended
| EventFreeQuestionAsked
| EventFreeAnswerRecorded
| EventFocusResumed
| EventRouteAdvanced
| EventLearningCompleted
| EventMisconceptionHypothesisRevised
| EventOfflineActivityMaterialized
| EventOfflineAttemptSubmitted
| EventOfflineActivitySkipped
| EventOfflineAssessmentQueued
| EventOfflineOperationRejected
| EventEvidenceCarryoverApproved
| EventEvidenceCarryoverRejected
| EventEvidenceCarryoverStaled
| EventRedacted
| EventTypeOther (s : string).
#[export] Instance EventType_eq_dec : EqDecision EventType.
Proof. solve_decision. Defined.

Record TimelineItem := mkTimelineItem {
  TimelineItem_EventSequence : Z;
  TimelineItem_EventID : string;
  TimelineItem_Type : EventType;
  TimelineItem_AggregateID : string;
  TimelineItem_ParentSessionID : string;
  TimelineItem_Source : string;
  TimelineItem_ArchiveDisposition : string;
  TimelineItem_EvidenceDisposition : string;
  TimelineItem_ActorDeviceID : string;
  TimelineItem_ReceivedAt : time;
  TimelineItem_OccurredAt : option time;
  TimelineItem_OccurredAtTrusted : bool;
}.

Record InteractionSample := mkInteractionSample {
  InteractionSample_EventSequence : Z;
  InteractionSample_SessionID : string;
  InteractionSample_ReceivedAt : time;
  InteractionSample_UserInitiated : bool;
}.

Record ActiveTimeEstimate := mkActiveTimeEstimate {
  ActiveTimeEstimate_DurationSeconds : Z;
  ActiveTimeEstimate_Estimated : bool;
  ActiveTimeEstimate_AlgorithmVersion : string;
  ActiveTimeEstimate_SampleCount : Z;
  ActiveTimeEstimate_FirstReceivedAt : option time;
  ActiveTimeEstimate_LastReceivedAt : option time;
}.

(** ** Operations *)
Definition sample_less (x y : InteractionSample) : bool :=
  if InteractionSample_ReceivedAt x =? InteractionSample_ReceivedAt y
  then InteractionSample_EventSequence x <? InteractionSample_EventSequence y
  else time_before (InteractionSample_ReceivedAt x) (InteractionSample_ReceivedAt y).

(** The seconds one gap contributes; a gap that is not positive is skipped. *)
Definition gap_seconds (previous current : time) : Z :=
  let gap := time_sub current previous in
  if gap <=? 0 then 0
  else Z.quot (if 5 * minute <? gap then 5 * minute else gap) second.

(** The loop from index 1 on; [previous] is the sample before. *)
Fixpoint sum_gaps (total : Z) (previous : InteractionSample)
    (l : list InteractionSample) : Z :=
  match l with
  | [] => total
  | current :: l =>
    let gap := time_sub (InteractionSample_ReceivedAt current)
                 (InteractionSample_ReceivedAt previous) in
    sum_gaps (if gap <=? 0 then total
              else wrap64 (total + gap_seconds (InteractionSample_ReceivedAt previous)
                                     (InteractionSample_ReceivedAt current)))
      current l
  end.

Definition EstimateActiveTime (sessionID : string) (samples : list InteractionSample)
  : ActiveTimeEstimate :=
  let filtered := filter (fun sample =>
    InteractionSample_SessionID sample = sessionID
    ∧ InteractionSample_UserInitiated sample = true) samples in
  match sort_by sample_less filtered with
  | [] => mkActiveTimeEstimate 0 true ActiveTimePolicyVersion 0 None None
  | first :: rest =>
    mkActiveTimeEstimate (sum_gaps 0 first rest) true ActiveTimePolicyVersion
      (Z.of_nat (length filtered)) (Some (InteractionSample_ReceivedAt first))
      (Some (InteractionSample_ReceivedAt (List.last rest first)))
  end.

Definition isActiveTimeEvent (eventType : EventType) : bool :=
  match eventType with
  | EventAttemptSubmitted | EventOfflineAttemptSubmitted
  | EventFreeQuestionAsked | EventReviewPresented => true
  | _ => false
  end.

Definition timeline_session (item : TimelineItem) : string :=
  if decide (TimelineItem_Source item = "offline") then TimelineItem_ParentSessionID item
  else TimelineItem_AggregateID item.

Definition estimateActiveTimeFromTimeline (sessionID : string)
    (timeline : list TimelineItem) : ActiveTimeEstimate :=
  EstimateActiveTime sessionID
    ((fun item => mkInteractionSample (TimelineItem_EventSequence item) sessionID
                    (TimelineItem_ReceivedAt item) true)
     <$> filter (fun item => timeline_session item = sessionID
                             ∧ isActiveTimeEvent (TimelineItem_Type item) = true) timeline).

(** ** Facts *)
Lemma gap_seconds_bounds previous current : 0 <= gap_seconds previous current <= 300.
Proof.
  unfold gap_seconds, minute, second. destruct (_ <=? 0) eqn:Hg; [lia|]. bool_prop.
  destruct (_ <? _) eqn:Hm; bool_prop; [done|].
  rewrite Z.quot_div_nonneg by lia. split; [apply Z.div_pos; lia|].
  change 300 with ((60 * 1000000000 * 5) / 1000000000). apply Z.div_le_mono; lia.
Qed.

Lemma gap_seconds_le previous current :
  previous <= current →
  second * gap_seconds previous current <= current - previous.
Proof.
  unfold gap_seconds, minute. intros Hle. destruct (_ <=? 0) eqn:Hg; [lia|]. bool_prop.
  set (g := if _ : bool then _ else _).
  assert (0 <= g <= current - previous) as Hb.
  { unfold g, time_sub, int64_min, int64_max, second in *. destruct (_ <? _) eqn:?; bool_prop; lia. }
  rewrite Z.quot_div_nonneg by (unfold second; lia).
  pose proof (Z.mul_div_le g second ltac:(unfold second; lia)). lia.
Qed.

(** The total as a function of the instants alone. *)
Fixpoint gaps_of (l : list time) : Z :=
  match l with
  | t :: (u :: _) as l' => gap_seconds t u + gaps_of l'
  | _ => 0
  end.

Lemma sum_gaps_ext total p q l m :
  InteractionSample_ReceivedAt <$> (p :: l) = InteractionSample_ReceivedAt <$> (q :: m) →
  sum_gaps total p l = sum_gaps total q m.
Proof.
  revert total p q m. induction l as [|x l IH]; intros total p q [|y m] Heq;
    simplify_eq/=; [done|].
  match goal with H : InteractionSample_ReceivedAt p = _ |- _ => rewrite H end.
  match goal with H : InteractionSample_ReceivedAt x = _ |- _ => rewrite H end.
  apply IH. simpl. congruence.
Qed.

Lemma sum_gaps_eq total p l :
  0 <= total → total + 300 * Z.of_nat (length l) <= int64_max →
  sum_gaps total p l = total + gaps_of (InteractionSample_ReceivedAt <$> (p :: l)).
Proof.
  revert total p. induction l as [|x l IH]; intros total p H0 Hmax; simpl in *; [lia|].
  pose proof (gap_seconds_bounds (InteractionSample_ReceivedAt p)
                (InteractionSample_ReceivedAt x)).
  assert (wrap64 (total + gap_seconds (InteractionSample_ReceivedAt p)
                            (InteractionSample_ReceivedAt x))
          = total + gap_seconds (InteractionSample_ReceivedAt p)
                      (InteractionSample_ReceivedAt x)) as Hw.
  { apply wrap64_id. unfold in_int64, int64_min, int64_max in *.
    apply andb_true_iff. rewrite !Z.leb_le. lia. }
  destruct (_ <=? 0) eqn:Hg.
  - rewrite IH by lia. simpl.
    assert (gap_seconds (InteractionSample_ReceivedAt p) (InteractionSample_ReceivedAt x) = 0)
      as -> by (unfold gap_seconds; by rewrite Hg). lia.
  - rewrite Hw, IH by lia. simpl. lia.
Qed.

Lemma gaps_of_bounds l :
  0 <= gaps_of l <= 300 * Z.max 0 (Z.of_nat (length l) - 1).
Proof.
  induction l as [|t [|u l] IH]; simpl in *; [lia..|].
  pose proof (gap_seconds_bounds t u). lia.
Qed.

Lemma last_cons_default {A} (u t : A) l : List.last (u :: l) t = List.last l u.
Proof.
  revert u t. induction l as [|a l IH]; intros u t; [done|].
  change (List.last (u :: a :: l) t) with (List.last (a :: l) t). by rewrite !(IH a).
Qed.

Lemma gaps_of_le t l :
  StronglySorted Z.le (t :: l) → second * gaps_of (t :: l) <= List.last l t - t.
Proof.
  revert t. induction l as [|u l IH]; intros t Hs; [simpl; lia|].
  apply StronglySorted_inv in Hs as [Hs Ht]. apply Forall_cons in Ht as [Htu _].
  specialize (IH u Hs). pose proof (gap_seconds_le t u Htu).
  rewrite last_cons_default. simpl gaps_of in *. lia.
Qed.

Lemma sample_le_trans x y z :
  le_by sample_less x y → le_by sample_less y z → le_by sample_less x z.
Proof.
  unfold le_by, sample_less, time_before. intros H1 H2.
  repeat case_match; bool_prop; lia.
Qed.

Lemma sample_less_asym x y : sample_less x y = true → sample_less y x = false.
Proof. unfold sample_less, time_before. intros H. repeat case_match; bool_prop; lia. Qed.

Lemma sorted_times l :
  StronglySorted Z.le (InteractionSample_ReceivedAt <$> sort_by sample_less l).
Proof.
  pose proof (sort_by_sorted sample_less sample_le_trans sample_less_asym l) as Hs.
  induction Hs as [|x k Hs IH Hx]; simpl; constructor; [done|].
  apply Forall_fmap. rewrite Forall_forall in *. intros y Hy. specialize (Hx y Hy).
  unfold le_by, sample_less, time_before in Hx. simpl. case_match; bool_prop; lia.
Qed.

Lemma sorted_times_Permutation l1 l2 :
  l1 ≡ₚ l2 →
  InteractionSample_ReceivedAt <$> sort_by sample_less l1
  = InteractionSample_ReceivedAt <$> sort_by sample_less l2.
Proof.
  intros Hp. apply (sorted_unique (fun a b => a <? b)).
  - intros x y _ _ H1 H2. unfold le_by in *. bool_prop. lia.
  - eapply StronglySorted_weaken; [|apply sorted_times]. intros. unfold le_by. lia.
  - eapply StronglySorted_weaken; [|apply sorted_times]. intros. unfold le_by. lia.
  - by rewrite !sort_by_Permutation, Hp.
Qed.

Lemma last_ReceivedAt l x :
  InteractionSample_ReceivedAt (List.last l x)
  = List.last (InteractionSample_ReceivedAt <$> (x :: l)) (InteractionSample_ReceivedAt x).
Proof.
  revert x. induction l as [|y l IH]; intros x; [done|].
  rewrite last_cons_default, IH. simpl fmap. by rewrite !last_cons_default.
Qed.

(** ** Theorems *)

(** The estimate depends only on which samples were recorded, not on the
    order in which they were loaded. *)
Theorem EstimateActiveTime_order_free sessionID l1 l2 :
  l1 ≡ₚ l2 → EstimateActiveTime sessionID l1 = EstimateActiveTime sessionID l2.
Proof.
  intros Hp. unfold EstimateActiveTime.
  set (f1 := filter _ l1). set (f2 := filter _ l2).
  assert (f1 ≡ₚ f2) as Hf by (unfold f1, f2; by rewrite Hp).
  apply sorted_times_Permutation in Hf as Ht. rewrite (Permutation_length Hf).
  destruct (sort_by sample_less f1) as [|x l], (sort_by sample_less f2) as [|y m];
    try discriminate Ht.
  { done. }
  rewrite (sum_gaps_ext 0 x y l m Ht).
  assert (InteractionSample_ReceivedAt x = InteractionSample_ReceivedAt y) as Hx
    by (by injection Ht).
  assert (InteractionSample_ReceivedAt (List.last l x)
          = InteractionSample_ReceivedAt (List.last m y)) as ->; [|by rewrite Hx].
  by rewrite (last_ReceivedAt l x), (last_ReceivedAt m y), Ht, Hx.
Qed.

(** The estimate is bounded: it is never negative, at most five minutes per
    gap between consecutive samples, and never more than the time between the
    first and the last sample, provided the samples are few enough for the sum
    to fit an [int64]. *)
Theorem EstimateActiveTime_bounds sessionID samples e first last :
  300 * Z.of_nat (length samples) <= int64_max →
  EstimateActiveTime sessionID samples = e →
  ActiveTimeEstimate_FirstReceivedAt e = Some first →
  ActiveTimeEstimate_LastReceivedAt e = Some last →
  0 <= ActiveTimeEstimate_DurationSeconds e <= 300 * (ActiveTimeEstimate_SampleCount e - 1)
  ∧ second * ActiveTimeEstimate_DurationSeconds e <= last - first.
Proof.
  intros Hlen <- Hfirst Hlast. unfold EstimateActiveTime in *.
  set (f := filter _ samples) in *.
  assert (length f <= length samples)%nat as Hf by apply length_filter.
  pose proof (length_sort_by sample_less f) as Hls.
  pose proof (sorted_times f) as Hs.
  destruct (sort_by sample_less f) as [|x l]; [discriminate|].
  simpl in Hfirst, Hlast, Hls |- *. simplify_eq.
  rewrite sum_gaps_eq by lia. rewrite Z.add_0_l.
  pose proof (gaps_of_bounds (InteractionSample_ReceivedAt <$> (x :: l))) as Hb.
  rewrite length_fmap in Hb. simpl length in Hb.
  split; [lia|].
  etrans; [apply gaps_of_le; exact Hs|].
  rewrite last_ReceivedAt. cbn [fmap list_fmap]. rewrite last_cons_default. reflexivity.
Qed.

Definition sample_at (seconds seq : Z) : InteractionSample :=
  mkInteractionSample seq "session-1" (seconds * second) true.
Definition sample_log : list InteractionSample :=
  [sample_at 700 3; sample_at 0 1; sample_at 90 2].

Lemma EstimateActiveTime_order_free_witness :
  EstimateActiveTime "session-1" sample_log = EstimateActiveTime "session-1" (rev sample_log).
Proof. apply EstimateActiveTime_order_free. simpl. solve_Permutation. Defined.

Lemma EstimateActiveTime_bounds_witness :
  ActiveTimeEstimate_DurationSeconds (EstimateActiveTime "session-1" sample_log) = 390
  ∧ 0 <= 390 <= 300 * 2 ∧ second * 390 <= 700 * second - 0.
Proof.
  split; [vm_compute; reflexivity|].
  apply (EstimateActiveTime_bounds "session-1" sample_log
           (EstimateActiveTime "session-1" sample_log) 0 (700 * second));
    vm_compute; congruence.
Defined.
