(* ===== verification/Goals.v ===== *)
(** * Learning goals

    [server/internal/learning/goals.go] and [createGoal] of
    [server/internal/learning/command.go]: the validation of a goal, the
    lifecycle of its management record and the creation of its revisions. The
    store's [LoadGoalRevision] is an argument of [createGoal], which returns the
    revision it would commit; the clock and the new identifier are arguments.
    Planning.v builds the planning drafts on top of this file. *)
From S2P Require Import Prelude GoStd Packages GoTime LearningSpace LearningDomain.

(** ** Data *)
Record GoalDetails := mkGoalDetails {
  GoalDetails_Name : string;
  GoalDetails_ExpectedOutcome : string;
  GoalDetails_Scope : string;
  GoalDetails_Exclusions : string;
  GoalDetails_SelfAssessment : string;
  GoalDetails_Purpose : string;
  GoalDetails_CompletionCriteria : string;
  GoalDetails_Priority : string;
  GoalDetails_ScopeSnapshotID : string;
  GoalDetails_Timezone : string;
  GoalDetails_Deadline : option GoTime;
  GoalDetails_WeeklyMinutes : option Z;
}.

Record GoalCompletion := mkGoalCompletion {
  GoalCompletion_Kind : string;
  GoalCompletion_Reason : string;
  GoalCompletion_ActorDeviceID : string;
  GoalCompletion_At : time;
}.

Record GoalManagement := mkGoalManagement {
  GoalManagement_Details : GoalDetails;
  GoalManagement_Status : string;
  GoalManagement_ArchivedFrom : string;
  GoalManagement_Completion : option GoalCompletion;
  GoalManagement_CriteriaVerification : string;
  GoalManagement_ChangedFields : list string;
  GoalManagement_RouteAdjustmentNeeded : bool;
}.

Record GoalRevision := mkGoalRevision {
  GoalRevision_SpaceID : string;
  GoalRevision_Management : option GoalManagement;
  GoalRevision_ID : string;
  GoalRevision_GoalID : string;
  GoalRevision_Revision : Z;
  GoalRevision_Text : string;
  GoalRevision_Source : string;
  GoalRevision_ActorDeviceID : string;
  GoalRevision_CreatedAt : time;
  GoalRevision_PreviousRevisionID : option string;
}.

Record GoalCommand := mkGoalCommand {
  GoalCommand_Details : option GoalDetails;
  GoalCommand_Action : string;
  GoalCommand_CompletionReason : string;
  GoalCommand_Operation : OperationEnvelope;
  GoalCommand_GoalID : string;
  GoalCommand_Text : string;
  GoalCommand_Source : string;
  GoalCommand_PreviousRevisionID : option string;
}.

#[export] Instance GoalDetails_eq_dec : EqDecision GoalDetails.
Proof. solve_decision. Defined.
#[export] Instance GoalCompletion_eq_dec : EqDecision GoalCompletion.
Proof. solve_decision. Defined.
#[export] Instance GoalManagement_eq_dec : EqDecision GoalManagement.
Proof. solve_decision. Defined.

Definition set_Details (d : GoalDetails) (m : GoalManagement) : GoalManagement :=
  mkGoalManagement d (GoalManagement_Status m) (GoalManagement_ArchivedFrom m) (GoalManagement_Completion m)
    (GoalManagement_CriteriaVerification m) (GoalManagement_ChangedFields m) (GoalManagement_RouteAdjustmentNeeded m).
Definition set_Status (status archivedFrom : string) (completion : option GoalCompletion) (m : GoalManagement)
  : GoalManagement :=
  mkGoalManagement (GoalManagement_Details m) status archivedFrom completion
    (GoalManagement_CriteriaVerification m) (GoalManagement_ChangedFields m) (GoalManagement_RouteAdjustmentNeeded m).
(** [m.ChangedFields = append(m.ChangedFields, fields...)], and the adjustment flag when [route]. *)
Definition add_changes (fields : list string) (route : bool) (m : GoalManagement) : GoalManagement :=
  mkGoalManagement (GoalManagement_Details m) (GoalManagement_Status m) (GoalManagement_ArchivedFrom m)
    (GoalManagement_Completion m) (GoalManagement_CriteriaVerification m)
    (GoalManagement_ChangedFields m ++ fields) (GoalManagement_RouteAdjustmentNeeded m || route).
Definition set_Name (name : string) (d : GoalDetails) : GoalDetails :=
  mkGoalDetails name (GoalDetails_ExpectedOutcome d) (GoalDetails_Scope d) (GoalDetails_Exclusions d)
    (GoalDetails_SelfAssessment d) (GoalDetails_Purpose d) (GoalDetails_CompletionCriteria d) (GoalDetails_Priority d)
    (GoalDetails_ScopeSnapshotID d) (GoalDetails_Timezone d) (GoalDetails_Deadline d) (GoalDetails_WeeklyMinutes d).
Definition set_Priority (priority : string) (d : GoalDetails) : GoalDetails :=
  mkGoalDetails (GoalDetails_Name d) (GoalDetails_ExpectedOutcome d) (GoalDetails_Scope d) (GoalDetails_Exclusions d)
    (GoalDetails_SelfAssessment d) (GoalDetails_Purpose d) (GoalDetails_CompletionCriteria d) priority
    (GoalDetails_ScopeSnapshotID d) (GoalDetails_Timezone d) (GoalDetails_Deadline d) (GoalDetails_WeeklyMinutes d).

(** [GoalDetails{Name: name, Priority: "normal"}] *)
Definition named (name : string) : GoalDetails :=
  mkGoalDetails name "" "" "" "" "" "" "normal" "" "" None None.

(** ** Small functions *)

Definition ValidGoalStatus (s : string) : bool :=
  bool_decide (s = "draft") || bool_decide (s = "active") || bool_decide (s = "paused")
  || bool_decide (s = "completed") || bool_decide (s = "archived").

Definition LearningSpaceID (g : GoalRevision) : string :=
  if decide (GoalRevision_SpaceID g = "") then DefaultID else GoalRevision_SpaceID g.

(** [string([]rune(s)[:n])]; a conversion to runes replaces invalid bytes. *)
Definition first_runes (n : nat) (s : string) : string :=
  string_of_bytes (concat ((fun p => encode_rune p.1) <$> take n (runes s))).

Definition GoalRevision_GoalManagement (g : GoalRevision) : GoalManagement :=
  match GoalRevision_Management g with
  | Some m => m
  | None => mkGoalManagement (named (first_runes 120 (GoalRevision_Text g))) "active" "" None "unverified" [] false
  end.

Section Goals.
Context `{UUIDPackage} `{TimeZoneDatabase}.

(** ** [GoalDetails.Validate] *)
Definition invalid_text (s : string) : bool := negb (valid_utf8 s) || (4000 <? rune_count s).

Definition deadline_mismatch (offset : time → Z) (deadline : option GoTime) : bool :=
  match deadline with
  | None => false
  | Some t => negb (GoTime_offset t =? offset (GoTime_instant t)) || GoTime_IsZero t
  end.

Definition GoalDetails_Validate (d : GoalDetails) : result error unit :=
  _ ← fail_if (bool_decide (trim_space (GoalDetails_Name d) = "") || (120 <? rune_count (GoalDetails_Name d)))
        (err_reason CodeInvalidRequest "invalid_goal_name");
  _ ← fail_if (existsb invalid_text
                 [GoalDetails_Name d; GoalDetails_ExpectedOutcome d; GoalDetails_Scope d; GoalDetails_Exclusions d;
                  GoalDetails_SelfAssessment d; GoalDetails_Purpose d; GoalDetails_CompletionCriteria d])
        (err_reason CodeInvalidRequest "invalid_goal_details");
  _ ← fail_if (negb (bool_decide (GoalDetails_Priority d ∈ [""; "low"; "normal"; "high"])))
        (err_reason CodeInvalidRequest "invalid_goal_priority");
  _ ← fail_if (negb (bool_decide (GoalDetails_ScopeSnapshotID d = "")) && negb (ValidID (GoalDetails_ScopeSnapshotID d)))
        (err_code CodeKnowledgeReferenceInvalid);
  _ ← fail_if (match GoalDetails_WeeklyMinutes d with Some n => (n <? 1) || (10080 <? n) | None => false end)
        (err_reason CodeInvalidRequest "invalid_time_budget");
  if decide (GoalDetails_Timezone d = "") then
    fail_if (bool_decide (is_Some (GoalDetails_Deadline d)) || bool_decide (is_Some (GoalDetails_WeeklyMinutes d)))
      (err_reason CodeInvalidRequest "timezone_required")
  else if decide (GoalDetails_Timezone d = "Local") then
    Err (err_reason CodeInvalidRequest "explicit_timezone_required")
  else
    match LoadLocation (GoalDetails_Timezone d) with
    | None => Err (err_reason CodeInvalidRequest "invalid_timezone")
    | Some offset =>
      fail_if (deadline_mismatch offset (GoalDetails_Deadline d))
        (err_reason CodeInvalidRequest "deadline_timezone_mismatch")
    end.

(** ** [nextGoalManagement] *)

(** [HashJSON] of a [*time.Time] and of an [*int]: a failed encoding is the
    empty text, since the callers drop the error. An [int] passes through a
    [float64], exactly below [2 ^ 53], and [Validate] bounds it by 10080. *)
Definition HashTime (t : option GoTime) : string :=
  match MarshalTimePointer t with Some json => SHA256 json | None => "" end.
Definition HashInt (n : option Z) : string := SHA256 (MarshalIntPointer n).

(** The text fields with their names in the record of changes. *)
Definition text_fields : list (string * (GoalDetails → string)) :=
  [("name", GoalDetails_Name); ("expected_outcome", GoalDetails_ExpectedOutcome); ("scope", GoalDetails_Scope);
   ("exclusions", GoalDetails_Exclusions); ("self_assessment", GoalDetails_SelfAssessment);
   ("purpose", GoalDetails_Purpose); ("completion_criteria", GoalDetails_CompletionCriteria);
   ("priority", GoalDetails_Priority); ("scope_snapshot_id", GoalDetails_ScopeSnapshotID);
   ("timezone", GoalDetails_Timezone)].

(** The fields whose change asks for a new route. *)
Definition route_fields : list string :=
  ["scope"; "exclusions"; "expected_outcome"; "completion_criteria"; "scope_snapshot_id"].

Definition text_changes (old new : GoalDetails) : list string :=
  map fst (filter (fun f => f.2 old ≠ f.2 new) text_fields).

Definition detail_changes (old new : GoalDetails) : list string :=
  text_changes old new
  ++ (if decide (HashTime (GoalDetails_Deadline old) = HashTime (GoalDetails_Deadline new)) then [] else ["deadline"])
  ++ (if decide (HashInt (GoalDetails_WeeklyMinutes old) = HashInt (GoalDetails_WeeklyMinutes new)) then []
      else ["weekly_minutes"]).

(** The record a revision starts from. *)
Definition initial_management (previous : option GoalRevision) (c : GoalCommand) : GoalManagement :=
  match previous with
  | Some g =>
    let m := GoalRevision_GoalManagement g in
    mkGoalManagement (GoalManagement_Details m) (GoalManagement_Status m) (GoalManagement_ArchivedFrom m)
      (GoalManagement_Completion m) (GoalManagement_CriteriaVerification m) [] false
  | None =>
    let name := trim_space (GoalCommand_Text c) in
    let name := if (120 <? length (runes name))%nat && negb (bool_decide (is_Some (GoalCommand_Details c)))
                then first_runes 120 name else name in
    mkGoalManagement (named name) "draft" "" None "unverified" [] false
  end.

Definition update_details (previous : option GoalRevision) (c : GoalCommand) (m : GoalManagement)
  : result error GoalManagement :=
  match GoalCommand_Details c with
  | None => Ok m
  | Some details =>
    _ ← fail_if (negb (bool_decide (GoalCommand_Action c = "")))
          (err_reason CodeInvalidRequest "goal_content_and_action_are_separate");
    _ ← GoalDetails_Validate details;
    let old := GoalManagement_Details m in
    let details := if decide (GoalDetails_Priority details = "") then set_Priority "normal" details else details in
    let m := set_Details details m in
    Ok (if bool_decide (is_Some previous)
        then add_changes (detail_changes old details)
               (existsb (fun f => bool_decide (f ∈ route_fields)) (text_changes old details)) m
        else m)
  end.

(** The switch over the action: whether it is valid, and the record. *)
Definition goal_action (c : GoalCommand) (actor : string) (now : time) (m : GoalManagement)
  : result error (bool * GoalManagement) :=
  let status := GoalManagement_Status m in
  let from := GoalManagement_ArchivedFrom m in
  let completion := GoalManagement_Completion m in
  let reason := GoalCommand_CompletionReason c in
  let to valid status from completion := Ok (valid, if valid : bool then set_Status status from completion m else m) in
  if decide (GoalCommand_Action c = "start") then to (bool_decide (status = "draft")) "active" from completion
  else if decide (GoalCommand_Action c = "pause") then to (bool_decide (status = "active")) "paused" from completion
  else if decide (GoalCommand_Action c = "resume") then to (bool_decide (status = "paused")) "active" from completion
  else if decide (GoalCommand_Action c = "complete") then
    _ ← fail_if (bool_decide (trim_space reason = "") || negb (valid_utf8 reason) || (4000 <? rune_count reason))
          (err_reason CodeInvalidRequest "completion_reason_required");
    to (bool_decide (status ∈ ["draft"; "active"; "paused"])) "completed" from
      (Some (mkGoalCompletion "manual" reason actor now))
  else if decide (GoalCommand_Action c = "archive") then
    to (negb (bool_decide (status = "archived"))) "archived" status completion
  else if decide (GoalCommand_Action c = "restore") then
    to (bool_decide (status = "archived") && ValidGoalStatus from && negb (bool_decide (from = "archived")))
      from "" completion
  else Ok (false, m).

Definition nextGoalManagement (previous : option GoalRevision) (c : GoalCommand) (actor : string) (now : time)
  : result error GoalManagement :=
  m ← update_details previous c (initial_management previous c);
  let other_text := match previous with
                    | Some g => negb (bool_decide (GoalCommand_Text c = GoalRevision_Text g))
                    | None => false
                    end in
  let m := if other_text then add_changes ["text"] true m else m in
  if decide (GoalCommand_Action c = "") then
    _ ← fail_if (negb (bool_decide (GoalCommand_CompletionReason c = ""))) (err_code CodeInvalidRequest);
    Ok m
  else
    _ ← fail_if (negb (bool_decide (is_Some previous)) || other_text)
          (err_reason CodeInvalidRequest "goal_action_requires_existing_content");
    '(valid, m) ← goal_action c actor now m;
    _ ← fail_if (negb (bool_decide (GoalCommand_Action c = "complete"))
                 && negb (bool_decide (GoalCommand_CompletionReason c = ""))) (err_code CodeInvalidRequest);
    _ ← fail_if (negb valid) (err_reason CodeInvalidTransition "invalid_goal_transition");
    Ok (add_changes ["status"] false m).

(** ** [createGoal]: the revision it commits *)

(** [now.UTC().Truncate(time.Microsecond)] rounds down from the zero time. *)
Definition truncate_microsecond (t : time) : time := t - (t - time_zero) mod 1000.

Definition previous_goal (load : string → result error GoalRevision) (scope goalID : string) (c : GoalCommand)
  : result error (option GoalRevision) :=
  if OperationEnvelope_ExpectedVersion (GoalCommand_Operation c) =? 0 then
    _ ← fail_if (bool_decide (is_Some (GoalCommand_PreviousRevisionID c)))
          (err_reason CodeInvalidRequest "first_goal_revision_has_previous");
    Ok None
  else
    match GoalCommand_PreviousRevisionID c with
    | None => Err (err_reason CodeInvalidRequest "previous_goal_revision_required")
    | Some id =>
      _ ← fail_if (bool_decide (id = "")) (err_reason CodeInvalidRequest "previous_goal_revision_required");
      previous ← load id;
      _ ← fail_if (negb (bool_decide (GoalRevision_ID previous = id))
                   || negb (bool_decide (GoalRevision_GoalID previous = goalID))
                   || negb (GoalRevision_Revision previous
                            =? OperationEnvelope_ExpectedVersion (GoalCommand_Operation c)))
            (err_reason CodeInvalidRequest "goal_revision_lineage");
      _ ← fail_if (negb (bool_decide (LearningSpaceID previous = scope))) (err_code CodeNotFound);
      Ok (Some previous)
    end.

Definition createGoal (load : string → result error GoalRevision) (newUUID : string) (now : time)
    (scope deviceID : string) (c : GoalCommand) : result error GoalRevision :=
  let operation := GoalCommand_Operation c in
  _ ← ValidateOperation operation;
  _ ← fail_if (negb (bool_decide (OperationEnvelope_AggregateType operation = "goal"))
               || bool_decide (OperationEnvelope_AggregateID operation = "")
               || is_Err (ValidateGoal (GoalCommand_Text c)) || is_Err (ValidateGoalSource (GoalCommand_Source c)))
        (err_code CodeInvalidRequest);
  let goalID := if decide (GoalCommand_GoalID c = "") then OperationEnvelope_AggregateID operation
                else GoalCommand_GoalID c in
  _ ← fail_if (negb (bool_decide (goalID = OperationEnvelope_AggregateID operation))) (err_code CodeInvalidRequest);
  previous ← previous_goal load scope goalID c;
  let now := truncate_microsecond now in
  management ← nextGoalManagement previous c deviceID now;
  Ok (mkGoalRevision scope (Some management) newUUID goalID (OperationEnvelope_ExpectedVersion operation + 1)
        (trim_space (GoalCommand_Text c)) (trim_space (GoalCommand_Source c)) deviceID now
        (GoalCommand_PreviousRevisionID c)).

Definition CanStartGoal (g : GoalRevision) : bool :=
  let status := GoalManagement_Status (GoalRevision_GoalManagement g) in
  bool_decide (status = "draft") || bool_decide (status = "active").
End Goals.

(** ** The lifecycle

    What a management record says about the life of the goal, and the moves
    the actions make: the specification [nextGoalManagement] refines. *)
Record Life := mkLife {
  life_status : string;
  life_archived_from : string;
  life_completion : option GoalCompletion;
}.

Definition life (m : GoalManagement) : Life :=
  mkLife (GoalManagement_Status m) (GoalManagement_ArchivedFrom m) (GoalManagement_Completion m).

(** A reason for completing a goal. *)
Definition reason_ok (reason : string) : Prop :=
  trim_space reason ≠ "" ∧ valid_utf8 reason = true ∧ rune_count reason <= 4000.

Inductive goal_move (reason actor : string) (now : time) : string → Life → Life → Prop :=
| move_start from done : reason = "" →
    goal_move reason actor now "start" (mkLife "draft" from done) (mkLife "active" from done)
| move_pause from done : reason = "" →
    goal_move reason actor now "pause" (mkLife "active" from done) (mkLife "paused" from done)
| move_resume from done : reason = "" →
    goal_move reason actor now "resume" (mkLife "paused" from done) (mkLife "active" from done)
| move_complete status from done : status ∈ ["draft"; "active"; "paused"] → reason_ok reason →
    goal_move reason actor now "complete" (mkLife status from done)
      (mkLife "completed" from (Some (mkGoalCompletion "manual" reason actor now)))
| move_archive status from done : status ≠ "archived" → reason = "" →
    goal_move reason actor now "archive" (mkLife status from done) (mkLife "archived" status done)
| move_restore status done : status ∈ ["draft"; "active"; "paused"; "completed"] → reason = "" →
    goal_move reason actor now "restore" (mkLife "archived" status done) (mkLife status "" done).

(** A life the code can produce: a known status, archived exactly when the
    previous status is kept, completed exactly when a completion with a reason
    is kept. *)
Definition life_ok (l : Life) : Prop :=
  ((life_status l ∈ ["draft"; "active"; "paused"; "completed"] ∧ life_archived_from l = "")
   ∨ (life_status l = "archived" ∧ life_archived_from l ∈ ["draft"; "active"; "paused"; "completed"]))
  ∧ (is_Some (life_completion l) ↔ life_status l = "completed" ∨ life_archived_from l = "completed")
  ∧ (∀ done, life_completion l = Some done →
       GoalCompletion_Kind done = "manual" ∧ reason_ok (GoalCompletion_Reason done)).

Lemma goal_move_ok reason actor now action l l' :
  goal_move reason actor now action l l' → life_ok l → life_ok l'.
Proof.
  unfold life_ok. intros Hmove. destruct Hmove as [from done|from done|from done|status from done Hs Hr|status from done Hs|status done Hs]; cbn;
    intros ([(Hin & ->)|(Ha & Hin)] & Hd & Hc);
    rewrite ?elem_of_cons, ?elem_of_nil in *; split_and!; try first [exact Hc | naive_solver].
Qed.

Definition set_life (l : Life) (m : GoalManagement) : GoalManagement :=
  set_Status (life_status l) (life_archived_from l) (life_completion l) m.

Lemma life_set l m : life (set_life l m) = l.
Proof. by destruct l. Qed.

Lemma ValidGoalStatus_spec s :
  ValidGoalStatus s && negb (bool_decide (s = "archived")) = true ↔ s ∈ ["draft"; "active"; "paused"; "completed"].
Proof.
  unfold ValidGoalStatus. rewrite andb_true_iff, negb_true_iff, !orb_true_iff, !bool_decide_eq_true, bool_decide_eq_false,
    !elem_of_cons, elem_of_nil.
  split; [naive_solver|]. intros [->|[->|[->|[->|[]]]]]; naive_solver.
Qed.

Lemma completion_reason_ok reason :
  bool_decide (trim_space reason = "") || negb (valid_utf8 reason) || (4000 <? rune_count reason) = false
  ↔ reason_ok reason.
Proof.
  unfold reason_ok. rewrite !orb_false_iff, bool_decide_eq_false, negb_false_iff, Z.ltb_ge. tauto.
Qed.

Lemma move_when (valid : bool) status from done m m' :
  Ok (E:=error) (valid, if valid then set_Status status from done m else m) = Ok (true, m')
  ↔ valid = true ∧ m' = set_Status status from done m.
Proof. destruct valid; naive_solver. Qed.

(** The switch over the action makes exactly the moves of the lifecycle. *)
Lemma goal_action_move c actor now m m' :
  goal_action c actor now m = Ok (true, m')
  ∧ (GoalCommand_Action c = "complete" ∨ GoalCommand_CompletionReason c = "") ↔
  ∃ l', goal_move (GoalCommand_CompletionReason c) actor now (GoalCommand_Action c) (life m) l' ∧ m' = set_life l' m.
Proof.
  unfold goal_action. cbv zeta. set (action := GoalCommand_Action c). set (reason := GoalCommand_CompletionReason c).
  destruct m as [d status from done cv cf ra]; cbn [GoalManagement_Status GoalManagement_ArchivedFrom GoalManagement_Completion].
  set (m := mkGoalManagement d status from done cv cf ra).
  destruct (decide (action = "start")) as [E|N1].
  { rewrite move_when, E, bool_decide_eq_true. split.
    - intros [[-> ->] [?|?]]; [done|]. eexists; split; [by constructor | done].
    - intros (l' & Hm & ->). inversion Hm; subst. auto. }
  destruct (decide (action = "pause")) as [E|N2].
  { rewrite move_when, E, bool_decide_eq_true. split.
    - intros [[-> ->] [?|?]]; [done|]. eexists; split; [by constructor | done].
    - intros (l' & Hm & ->). inversion Hm; subst. auto. }
  destruct (decide (action = "resume")) as [E|N3].
  { rewrite move_when, E, bool_decide_eq_true. split.
    - intros [[-> ->] [?|?]]; [done|]. eexists; split; [by constructor | done].
    - intros (l' & Hm & ->). inversion Hm; subst. auto. }
  destruct (decide (action = "complete")) as [E|N4].
  { rewrite guard_Ok, completion_reason_ok, move_when, E,
      bool_decide_eq_true. split.
    - intros [[Hr [Hs ->]] _]. eexists; split; [by constructor | done].
    - intros (l' & Hm & ->). inversion Hm; subst. auto. }
  destruct (decide (action = "archive")) as [E|N5].
  { rewrite move_when, E, negb_true_iff, bool_decide_eq_false. split.
    - intros [[Hs ->] [?|?]]; [done|]. eexists; split; [by constructor | done].
    - intros (l' & Hm & ->). inversion Hm; subst. auto. }
  destruct (decide (action = "restore")) as [E|N6].
  { rewrite move_when, E, <- andb_assoc, andb_true_iff, bool_decide_eq_true, ValidGoalStatus_spec. split.
    - intros [[[-> Hf] ->] [?|?]]; [done|]. eexists; split; [by constructor | done].
    - intros (l' & Hm & ->). inversion Hm; subst. auto. }
  split; [intros [[=] _]|]. intros (l' & Hm & _). inversion Hm; congruence.
Qed.

Section Lifecycle.
Context `{UUIDPackage} `{TimeZoneDatabase}.

Lemma initial_life g c : life (initial_management (Some g) c) = life (GoalRevision_GoalManagement g).
Proof. done. Qed.

(** An action changes the life by one move, and nothing else. *)
Lemma next_action g c actor now m' :
  GoalCommand_Action c ≠ "" →
  nextGoalManagement (Some g) c actor now = Ok m' ↔
  GoalCommand_Details c = None ∧ GoalCommand_Text c = GoalRevision_Text g
  ∧ ∃ l', goal_move (GoalCommand_CompletionReason c) actor now (GoalCommand_Action c)
            (life (GoalRevision_GoalManagement g)) l'
          ∧ m' = add_changes ["status"] false (set_life l' (initial_management (Some g) c)).
Proof.
  intros Hact. rewrite <- (initial_life g c). set (m := initial_management (Some g) c).
  unfold nextGoalManagement, update_details. fold m. rewrite (bool_decide_false _ Hact). destruct (GoalCommand_Details c) as [details|]; [cbn; naive_solver|].
  rewrite bind_eq_Ok. cbv zeta. rewrite decide_False by done. destruct (decide (GoalCommand_Text c = GoalRevision_Text g)) as [Ht|Ht];
    [rewrite (bool_decide_true _ Ht) | rewrite (bool_decide_false _ Ht); cbn; naive_solver].
  rewrite (bool_decide_true (is_Some (Some g))) by eauto. cbn [negb orb fail_if]. rewrite (bind_eq_Ok tt).
  transitivity (∃ m1, (goal_action c actor now m = Ok (true, m1)
      ∧ (GoalCommand_Action c = "complete" ∨ GoalCommand_CompletionReason c = ""))
      ∧ m' = add_changes ["status"] false m1).
  - destruct (goal_action c actor now m) as [[valid m1]|e]; [|cbn; naive_solver]. rewrite bind_eq_Ok, !guard_Ok.
    rewrite andb_false_iff, !negb_false_iff, !bool_decide_eq_true. naive_solver.
  - setoid_rewrite goal_action_move. naive_solver.
Qed.

(** Editing a goal leaves its life alone. *)
Lemma next_edit previous c actor now m' :
  GoalCommand_Action c = "" → nextGoalManagement previous c actor now = Ok m' →
  life m' = life (initial_management previous c).
Proof.
  unfold nextGoalManagement. intros Ha Hnext.
  apply bind_Ok in Hnext as (m & Hu & Hnext). cbv zeta in Hnext. rewrite decide_True in Hnext by done. apply guard_Ok in Hnext as [_ [= <-]].
  transitivity (life m); [destruct previous as [g|]; [by destruct (negb _) | done]|].
  unfold update_details in Hu. destruct (GoalCommand_Details c) as [details|]; [|by injection Hu as <-].
  apply guard_Ok in Hu as [_ Hu]. apply bind_Ok in Hu as (u & _ & [= <-]). by case_bool_decide.
Qed.

Lemma next_without_previous c actor now m' :
  GoalCommand_Action c ≠ "" → ¬ nextGoalManagement None c actor now = Ok m'.
Proof.
  intros Ha Hnext. unfold nextGoalManagement in Hnext. apply bind_Ok in Hnext as (m & _ & Hnext).
  cbv zeta in Hnext. rewrite decide_False in Hnext by done. by apply guard_Ok in Hnext as [? _].
Qed.

Lemma next_ok previous c actor now m' :
  nextGoalManagement previous c actor now = Ok m' →
  (∀ g, previous = Some g → life_ok (life (GoalRevision_GoalManagement g))) →
  life_ok (life m').
Proof.
  intros Hnext Hprev. destruct (decide (GoalCommand_Action c = "")) as [Ha|Ha].
  - rewrite (next_edit _ _ _ _ _ Ha Hnext). destruct previous as [g|]; [by apply Hprev|].
    unfold life_ok; cbn. split_and!; [left; split; [left | done] |split; [intros [? ?]; done|naive_solver] | done].
  - destruct previous as [g|]; [|].
    + apply next_action in Hnext as (_ & _ & l' & Hmove & ->); [|done].
      by apply (goal_move_ok _ _ _ _ _ _ Hmove), Hprev.
    + by apply next_without_previous in Hnext.
Qed.

(** ** Revisions *)

(** The revisions of goals: the ones from before management records, and the
    ones [createGoal] makes when the store holds such revisions. *)
Inductive goal_history : GoalRevision → Prop :=
| history_legacy g : GoalRevision_Management g = None → goal_history g
| history_created load newUUID now scope deviceID c g :
    (∀ id p, load id = Ok p → goal_history p) →
    createGoal load newUUID now scope deviceID c = Ok g → goal_history g.

Lemma previous_goal_loaded load scope goalID c g :
  previous_goal load scope goalID c = Ok (Some g) →
  ∃ id, GoalCommand_PreviousRevisionID c = Some id ∧ load id = Ok g ∧ GoalRevision_ID g = id
    ∧ GoalRevision_GoalID g = goalID ∧ LearningSpaceID g = scope
    ∧ GoalRevision_Revision g = OperationEnvelope_ExpectedVersion (GoalCommand_Operation c).
Proof.
  unfold previous_goal. destruct (_ =? 0); [intros [_ ?]%guard_Ok; done|].
  destruct (GoalCommand_PreviousRevisionID c) as [id|]; [|done]. intros [_ Hrun]%guard_Ok.
  apply bind_Ok in Hrun as (p & Hload & Hrun). apply guard_Ok in Hrun as [Hl Hrun]. apply guard_Ok in Hrun as [Hs [= ->]].
  bool_prop. exists id. done.
Qed.

Lemma createGoal_Ok load newUUID now scope deviceID c g :
  createGoal load newUUID now scope deviceID c = Ok g →
  ∃ previous management, previous_goal load scope (GoalRevision_GoalID g) c = Ok previous
    ∧ nextGoalManagement previous c deviceID (truncate_microsecond now) = Ok management
    ∧ GoalRevision_Management g = Some management
    ∧ GoalRevision_Revision g = OperationEnvelope_ExpectedVersion (GoalCommand_Operation c) + 1
    ∧ GoalRevision_Text g = trim_space (GoalCommand_Text c).
Proof.
  unfold createGoal. intros Hrun. apply bind_Ok in Hrun as (u & _ & Hrun).
  do 2 apply guard_Ok in Hrun as [_ Hrun]. apply bind_Ok in Hrun as (previous & Hp & Hrun).
  apply bind_Ok in Hrun as (management & Hm & [= <-]). by exists previous, management.
Qed.

Lemma goal_history_ok g : goal_history g → life_ok (life (GoalRevision_GoalManagement g)).
Proof.
  induction 1 as [g Hg|load newUUID now scope deviceID c g _ IH Hrun].
  - unfold GoalRevision_GoalManagement. rewrite Hg. unfold life_ok; cbn.
    split_and!; [left; split; [right; left | done]|split; [intros [? ?]; done|naive_solver] | done].
  - apply createGoal_Ok in Hrun as (previous & management & Hp & Hm & Hg & _).
    unfold GoalRevision_GoalManagement. rewrite Hg. apply (next_ok _ _ _ _ _ Hm).
    intros p ->. apply previous_goal_loaded in Hp as (id & _ & Hload & _). by apply (IH id).
Qed.
End Lifecycle.

(** ** Changed fields *)
Section Changes.
Context `{UUIDPackage} `{TimeZoneDatabase}.

Lemma elem_of_text_changes old new f :
  f ∈ text_fields → f.1 ∈ text_changes old new ↔ f.2 old ≠ f.2 new.
Proof.
  intros Hf. unfold text_changes. rewrite list_elem_of_fmap. split.
  - intros (f' & Heq & [Hne Hf']%list_elem_of_filter).
    replace f with f'; [done|]. revert Heq. repeat (apply elem_of_cons in Hf as [->|Hf]); try by apply elem_of_nil in Hf.
    all: repeat (apply elem_of_cons in Hf' as [->|Hf']); try by apply elem_of_nil in Hf'.
    all: done.
  - intros Hne. exists f. split; [done|]. by apply list_elem_of_filter.
Qed.

Lemma text_change_named old new name :
  name ∈ text_changes old new → name ∈ fst <$> text_fields.
Proof. unfold text_changes. intros (f & -> & [_ Hf]%list_elem_of_filter)%list_elem_of_fmap. by apply list_elem_of_fmap_2. Qed.

(** The record of changes of an edit. *)
Lemma edit_changes g c details actor now m' :
  GoalCommand_Action c = "" → GoalCommand_Details c = Some details →
  nextGoalManagement (Some g) c actor now = Ok m' →
  let old := GoalManagement_Details (GoalRevision_GoalManagement g) in
  let new := GoalManagement_Details m' in
  let other_text := negb (bool_decide (GoalCommand_Text c = GoalRevision_Text g)) in
  GoalDetails_Validate details = Ok tt
  ∧ new = (if decide (GoalDetails_Priority details = "") then set_Priority "normal" details else details)
  ∧ GoalManagement_ChangedFields m' = detail_changes old new ++ (if other_text then ["text"] else [])
  ∧ GoalManagement_RouteAdjustmentNeeded m'
    = existsb (fun f => bool_decide (f ∈ route_fields)) (text_changes old new) || other_text.
Proof.
  intros Ha Hd. unfold nextGoalManagement, update_details. rewrite Hd, Ha. intros Hnext.
  apply bind_Ok in Hnext as (m & Hu & Hnext). apply guard_Ok in Hu as [_ Hu].
  apply bind_Ok in Hu as ([] & Hv & Hu). cbv zeta in Hu. rewrite bool_decide_true in Hu by eauto. injection Hu as <-.
  cbv zeta in Hnext. apply guard_Ok in Hnext as [_ [= <-]].
  set (new := if decide (GoalDetails_Priority details = "") then _ else details).
  destruct (bool_decide (GoalCommand_Text c = GoalRevision_Text g)); cbn; rewrite ?app_nil_r, ?orb_true_r, ?orb_false_r; done.
Qed.
End Changes.

Section Properties.
Context `{UUIDPackage} `{TimeZoneDatabase}.

(** C35. The life of a goal: every revision the store can hold has a known
    status, keeps the status it was archived from exactly while it is archived
    and a completion with a reason exactly when it is, or was before it was
    archived, completed; and the next revision keeps the life or makes one
    move of the lifecycle, with the reason, device and time of its command. *)
Theorem goal_revisions_follow_lifecycle load newUUID now scope deviceID c g :
  (∀ id p, load id = Ok p → goal_history p) →
  createGoal load newUUID now scope deviceID c = Ok g →
  life_ok (life (GoalRevision_GoalManagement g))
  ∧ (GoalCommand_PreviousRevisionID c = None →
     life (GoalRevision_GoalManagement g) = mkLife "draft" "" None ∧ GoalRevision_Revision g = 1)
  ∧ ∀ id p, GoalCommand_PreviousRevisionID c = Some id → load id = Ok p →
    GoalRevision_Revision g = GoalRevision_Revision p + 1
    ∧ if decide (GoalCommand_Action c = "")
      then life (GoalRevision_GoalManagement g) = life (GoalRevision_GoalManagement p)
      else goal_move (GoalCommand_CompletionReason c) deviceID (truncate_microsecond now) (GoalCommand_Action c)
             (life (GoalRevision_GoalManagement p)) (life (GoalRevision_GoalManagement g)).
Proof.
  intros Hload Hrun. split; [by eapply goal_history_ok, history_created|].
  apply createGoal_Ok in Hrun as (previous & m & Hp & Hm & Hg & Hrev & _).
  assert (GoalRevision_GoalManagement g = m) as -> by (unfold GoalRevision_GoalManagement; by rewrite Hg).
  split.
  - intros Hnone. destruct previous as [p|];
      [by apply previous_goal_loaded in Hp as (id & ? & _); congruence|].
    destruct (decide (GoalCommand_Action c = "")) as [Ha|Ha]; [|by apply next_without_previous in Hm].
    rewrite (next_edit _ _ _ _ _ Ha Hm). split; [done|].
    unfold previous_goal in Hp. rewrite Hnone in Hp. destruct (_ =? 0) eqn:Hz; [|done]. apply Z.eqb_eq in Hz. lia.
  - intros id p Hid Hl. destruct previous as [p'|].
    + apply previous_goal_loaded in Hp as (id' & Hid' & Hl' & _ & _ & _ & Hv).
      assert (p' = p) as -> by congruence. split; [lia|]. case_decide as Ha.
      * by rewrite (next_edit _ _ _ _ _ Ha Hm).
      * apply next_action in Hm as (_ & _ & l' & Hmove & ->); [|done]. by destruct l'.
    + unfold previous_goal in Hp. rewrite Hid in Hp. destruct (_ =? 0); [by apply guard_Ok in Hp as [? _]|].
      apply guard_Ok in Hp as [_ Hp]. apply bind_Ok in Hp as (? & _ & Hp).
      by do 2 apply guard_Ok in Hp as [_ Hp].
Qed.

(** Archiving is undone by restoring: for a goal of the store that is not
    archived, the archive command succeeds, and restoring the revision it makes
    gives back the details and the life of the goal. *)
Theorem archive_then_restore g archive restore actor now actor' now' :
  goal_history g → GoalManagement_Status (GoalRevision_GoalManagement g) ≠ "archived" →
  GoalCommand_Action archive = "archive" → GoalCommand_Action restore = "restore" →
  GoalCommand_Details archive = None → GoalCommand_Details restore = None →
  GoalCommand_CompletionReason archive = "" → GoalCommand_CompletionReason restore = "" →
  GoalCommand_Text archive = GoalRevision_Text g → GoalCommand_Text restore = GoalRevision_Text g →
  ∃ m, nextGoalManagement (Some g) archive actor now = Ok m ∧ GoalManagement_Status m = "archived" ∧
    ∀ g', GoalRevision_Management g' = Some m → GoalRevision_Text g' = GoalRevision_Text g →
      ∃ m', nextGoalManagement (Some g') restore actor' now' = Ok m'
        ∧ GoalManagement_Details m' = GoalManagement_Details (GoalRevision_GoalManagement g)
        ∧ life m' = life (GoalRevision_GoalManagement g).
Proof.
  intros Hg Hs Ha Hr Hda Hdr Hra Hrr Hta Htr. pose proof (goal_history_ok g Hg) as Hok.
  set (m0 := GoalRevision_GoalManagement g) in *.
  assert (GoalManagement_Status m0 ∈ ["draft"; "active"; "paused"; "completed"] ∧ GoalManagement_ArchivedFrom m0 = "")
    as [Hin Hfrom] by (destruct Hok as [[?|[? _]] _]; done).
  set (l := mkLife "archived" (GoalManagement_Status m0) (GoalManagement_Completion m0)).
  exists (add_changes ["status"] false (set_life l (initial_management (Some g) archive))). split; [|split; [done|]].
  { apply next_action; [by rewrite Ha|]. split_and!; [done..|]. exists l. split; [|done].
    rewrite Ha, Hra. by constructor. }
  intros g' Hg' Ht'. assert (GoalRevision_GoalManagement g' = add_changes ["status"] false (set_life l (initial_management (Some g) archive)))
    as Hm by (unfold GoalRevision_GoalManagement; by rewrite Hg').
  exists (add_changes ["status"] false (set_life (life m0) (initial_management (Some g') restore))). split_and!.
  - apply next_action; [by rewrite Hr|]. split_and!; [done|congruence|]. exists (life m0). split; [|done].
    rewrite Hr, Hrr, Hm. unfold life at 2. rewrite Hfrom. by constructor.
  - cbn. by rewrite Hm.
  - by destruct m0.
Qed.

(** What an edit reports: among the text fields exactly those whose value
    differs are named as changed, and a new route is asked for exactly when the
    goal's text, scope, exclusions, expected outcome, completion criteria or
    frozen source scope differ. *)
Theorem edit_reports_changes g c details actor now m' :
  GoalCommand_Action c = "" → GoalCommand_Details c = Some details →
  nextGoalManagement (Some g) c actor now = Ok m' →
  let old := GoalManagement_Details (GoalRevision_GoalManagement g) in
  let new := GoalManagement_Details m' in
  (∀ f, f ∈ text_fields → f.1 ∈ GoalManagement_ChangedFields m' ↔ f.2 old ≠ f.2 new)
  ∧ (GoalManagement_RouteAdjustmentNeeded m' = true ↔
     GoalCommand_Text c ≠ GoalRevision_Text g
     ∨ ∃ f, f ∈ text_fields ∧ f.1 ∈ route_fields ∧ f.2 old ≠ f.2 new).
Proof.
  intros Ha Hd Hnext old new. destruct (edit_changes _ _ _ _ _ _ Ha Hd Hnext) as (_ & _ & Hf & Hr).
  fold old new in Hf, Hr. split.
  - intros f Hin. rewrite Hf, <- (elem_of_text_changes old new f Hin). unfold detail_changes.
    rewrite !elem_of_app. split; [|tauto].
    intros [[?|[?|?]]|?]; [done| | |]; exfalso;
      repeat (apply elem_of_cons in Hin as [->|Hin]); try (by apply elem_of_nil in Hin);
      repeat case_decide; try (destruct (negb _)); set_solver.
  - rewrite Hr, orb_true_iff, existsb_exists, negb_true_iff, bool_decide_eq_false. split.
    + intros [(name & Hin & Hroute)|?]; [|by left]. right.
      apply list_elem_of_In in Hin. apply bool_decide_eq_true in Hroute.
      unfold text_changes in Hin. apply list_elem_of_fmap in Hin as (f & -> & [Hne Hf']%list_elem_of_filter).
      by exists f.
    + intros [?|(f & Hin & Hroute & Hne)]; [by right|]. left. exists f.1.
      split; [by apply list_elem_of_In, elem_of_text_changes | by apply bool_decide_eq_true].
Qed.
End Properties.

(** ** A goal taken through its life *)
Module Samples.
#[export] Instance sample_uuid : UUIDPackage := fun s => if (str_len s =? 36)%Z then Some s else None.
#[export] Instance sample_zones : TimeZoneDatabase := fun name => if decide (name = "UTC") then Some (fun _ => 0) else None.

Definition envelope (version : Z) : OperationEnvelope :=
  mkOperationEnvelope "op" 1 "goal" "goal-1" version None "{}".
Definition command (version : Z) (action reason : string) (details : option GoalDetails) (previous : option string)
  : GoalCommand :=
  mkGoalCommand details action reason (envelope version) "goal-1" "learn to read proofs" "web" previous.

Definition no_store (id : string) : result error GoalRevision := Err (err_code CodeNotFound).
Definition store (g : GoalRevision) (id : string) : result error GoalRevision :=
  if decide (id = GoalRevision_ID g) then Ok g else Err (err_code CodeNotFound).

Definition drafted : GoalRevision :=
  mkGoalRevision DefaultID
    (Some (mkGoalManagement (named "learn to read proofs") "draft" "" None "unverified" [] false))
    "rev-1" "goal-1" 1 "learn to read proofs" "web" "device" 5000 None.

Example drafted_value :
  createGoal no_store "rev-1" 5999 DefaultID "device" (command 0 "" "" None None) = Ok drafted.
Proof. vm_compute. reflexivity. Qed.

Lemma drafted_history : goal_history drafted.
Proof. eapply history_created; [|apply drafted_value]. done. Qed.

Lemma store_history g id p : goal_history g → store g id = Ok p → goal_history p.
Proof. unfold store. case_decide; naive_solver. Qed.

Definition completed : GoalRevision :=
  mkGoalRevision DefaultID
    (Some (mkGoalManagement (named "learn to read proofs") "completed" ""
       (Some (mkGoalCompletion "manual" "read them all" "device" 6000)) "unverified" ["status"] false))
    "rev-2" "goal-1" 2 "learn to read proofs" "web" "device" 6000 (Some "rev-1").

Example completed_value :
  createGoal (store drafted) "rev-2" 6000 DefaultID "device"
    (command 1 "complete" "read them all" None (Some "rev-1")) = Ok completed.
Proof. vm_compute. reflexivity. Qed.

Definition edited : GoalDetails :=
  mkGoalDetails "Read proofs" "" "induction" "" "" "" "" "high" "" "UTC" (Some (mkGoTime 7000 0)) (Some 90).
End Samples.

#[local] Existing Instances Samples.sample_uuid Samples.sample_zones.

Lemma goal_revisions_follow_lifecycle_witness :
  goal_move "read them all" "device" 6000 "complete" (life (GoalRevision_GoalManagement Samples.drafted))
    (life (GoalRevision_GoalManagement Samples.completed)).
Proof.
  destruct (goal_revisions_follow_lifecycle (Samples.store Samples.drafted) "rev-2" 6000 DefaultID "device"
    (Samples.command 1 "complete" "read them all" None (Some "rev-1")) Samples.completed) as (_ & _ & Hstep).
  - intros id p. apply Samples.store_history, Samples.drafted_history.
  - exact Samples.completed_value.
  - exact (proj2 (Hstep "rev-1" Samples.drafted eq_refl eq_refl)).
Defined.

Lemma archive_then_restore_witness :
  ∃ m, nextGoalManagement (Some Samples.drafted) (Samples.command 1 "archive" "" None (Some "rev-1")) "device" 7000 = Ok m
    ∧ GoalManagement_Status m = "archived".
Proof.
  destruct (archive_then_restore Samples.drafted (Samples.command 1 "archive" "" None (Some "rev-1"))
    (Samples.command 2 "restore" "" None (Some "rev-2")) "device" 7000 "device" 8000) as (m & Hm & Hs & _);
    [apply Samples.drafted_history|discriminate|reflexivity..|]. by exists m.
Defined.

Lemma edit_reports_changes_witness :
  ∃ m, nextGoalManagement (Some Samples.drafted) (Samples.command 1 "" "" (Some Samples.edited) (Some "rev-1")) "device" 7000 = Ok m
    ∧ GoalManagement_RouteAdjustmentNeeded m = true
    ∧ GoalManagement_ChangedFields m = ["name"; "scope"; "priority"; "timezone"; "deadline"; "weekly_minutes"].
Proof.
  eexists. split; [vm_compute; reflexivity|]. split; [|reflexivity].
  apply (edit_reports_changes Samples.drafted (Samples.command 1 "" "" (Some Samples.edited) (Some "rev-1")) Samples.edited
    "device" 7000); [reflexivity|reflexivity|vm_compute; reflexivity|].
  right. exists ("scope", GoalDetails_Scope). split_and!; [do 2 apply list_elem_of_further; apply list_elem_of_here
    |apply list_elem_of_here|discriminate].
Defined.
