(* ===== verification/Planning.v ===== *)
(** * Planning drafts

    [server/internal/learning/planning.go]: the validation of a planning draft,
    of its references to the frozen sources, and the suggestion a model makes
    for it. The language model and the JSON decoding of its answer are
    arguments of [generatePlanning]; the transaction of [ChangePlanning] and the
    commands [applyPlanning] sends to the learning service are not modelled,
    except for the route they propose. *)
From S2P Require Import Prelude GoStd Packages GoTime LearningSpace LearningDomain Goals.

(** ** Data *)
Record PlanningQuestion := mkPlanningQuestion {
  PlanningQuestion_Field : string;
  PlanningQuestion_Question : string;
  PlanningQuestion_Answer : string;
}.

Record PlanningStep := mkPlanningStep {
  PlanningStep_Name : string;
  PlanningStep_Content : string;
  PlanningStep_Reason : string;
  PlanningStep_Exercise : string;
  PlanningStep_Completion : string;
  PlanningStep_Minutes : Z;
  PlanningStep_Prerequisites : list Z;
  PlanningStep_NodeRevisionID : string;
}.

Record PlanningContent := mkPlanningContent {
  PlanningContent_Details : GoalDetails;
  PlanningContent_Steps : list PlanningStep;
  PlanningContent_Questions : list PlanningQuestion;
  PlanningContent_Gaps : list string;
}.

Record PlanningSource := mkPlanningSource {
  PlanningSource_Name : string;
  PlanningSource_Reference : KnowledgeReference;
}.

(** The part of a [PlanningDraft] that [generatePlanning] reads and writes. *)
Record PlanningDraft := mkPlanningDraft {
  PlanningDraft_Goal : GoalRevision;
  PlanningDraft_Content : PlanningContent;
  PlanningDraft_Suggestion : option PlanningContent;
  PlanningDraft_Sources : list PlanningSource;
  PlanningDraft_LastError : string;
}.

Record RouteProposalStep := mkRouteProposalStep {
  RouteProposalStep_NodeRevisionID : string;
  RouteProposalStep_TeachingIntent : string;
  RouteProposalStep_CompletionCondition : string;
}.

Definition set_LastError (err : string) (d : PlanningDraft) : PlanningDraft :=
  mkPlanningDraft (PlanningDraft_Goal d) (PlanningDraft_Content d) (PlanningDraft_Suggestion d) (PlanningDraft_Sources d) err.
Definition set_Suggestion (c : PlanningContent) (d : PlanningDraft) : PlanningDraft :=
  mkPlanningDraft (PlanningDraft_Goal d) (PlanningDraft_Content d) (Some c) (PlanningDraft_Sources d)
    (PlanningDraft_LastError d).
Definition set_Questions (q : list PlanningQuestion) (c : PlanningContent) : PlanningContent :=
  mkPlanningContent (PlanningContent_Details c) (PlanningContent_Steps c) q (PlanningContent_Gaps c).

Section Planning.
Context `{UUIDPackage} `{TimeZoneDatabase}.

(** ** [ValidatePlanningContent] *)
Definition validText (v : string) : bool := valid_utf8 v && (rune_count v <=? 4000).

Definition planningKnown (d : GoalDetails) : gmap string string :=
  {["expected_outcome" := GoalDetails_ExpectedOutcome d; "self_assessment" := GoalDetails_SelfAssessment d;
    "purpose" := GoalDetails_Purpose d; "scope" := GoalDetails_Scope d; "exclusions" := GoalDetails_Exclusions d;
    "completion_criteria" := GoalDetails_CompletionCriteria d;
    "time" := if bool_decide (is_Some (GoalDetails_WeeklyMinutes d)) || bool_decide (is_Some (GoalDetails_Deadline d))
              then "已填写时间约束" else ""]}.

Definition invalid_planning : error := err_reason CodeInvalidRequest "invalid_planning_content".

Definition check_question (known : gmap string string) (fields : gset string) (q : PlanningQuestion)
  : result error (gset string) :=
  let field := PlanningQuestion_Field q in
  _ ← fail_if (negb (bool_decide (is_Some (known !! field))) || bool_decide (field ∈ fields)
               || negb (validText (PlanningQuestion_Question q)) || negb (validText (PlanningQuestion_Answer q)))
        invalid_planning;
  Ok (fields ∪ {[field]}).

Definition check_prerequisite (i : Z) (seen : gset Z) (p : Z) : result error (gset Z) :=
  _ ← fail_if ((p <? 0) || (i <=? p) || bool_decide (p ∈ seen)) invalid_planning;
  Ok (seen ∪ {[p]}).

Definition step_texts (st : PlanningStep) : list string :=
  [PlanningStep_Name st; PlanningStep_Content st; PlanningStep_Reason st; PlanningStep_Exercise st;
   PlanningStep_Completion st].

(** One step; the accumulator is the number of steps before it and their nodes. *)
Definition check_step (acc : Z * gset string) (st : PlanningStep) : result error (Z * gset string) :=
  let '(i, nodes) := acc in
  _ ← fail_if (bool_decide (trim_space (PlanningStep_Name st) = "") || bool_decide (trim_space (PlanningStep_Content st) = "")
               || bool_decide (trim_space (PlanningStep_Completion st) = "")
               || (PlanningStep_Minutes st <? 1) || (10080 <? PlanningStep_Minutes st)) invalid_planning;
  _ ← fail_if (negb (forallb validText (step_texts st))) invalid_planning;
  let node := PlanningStep_NodeRevisionID st in
  nodes ← (if decide (node = "") then Ok nodes
           else
             _ ← fail_if (negb (ValidID node) || bool_decide (node ∈ nodes)) invalid_planning;
             Ok (nodes ∪ {[node]}));
  _ ← fold_result (check_prerequisite i) ∅ (PlanningStep_Prerequisites st);
  Ok (i + 1, nodes).

Definition ValidatePlanningContent (c : PlanningContent) : result error unit :=
  _ ← GoalDetails_Validate (PlanningContent_Details c);
  _ ← fail_if ((100 <? length (PlanningContent_Steps c))%nat || (7 <? length (PlanningContent_Questions c))%nat
               || (30 <? length (PlanningContent_Gaps c))%nat) invalid_planning;
  _ ← fail_if (negb (forallb validText (PlanningContent_Gaps c))) invalid_planning;
  _ ← fold_result (check_question (planningKnown (PlanningContent_Details c))) ∅ (PlanningContent_Questions c);
  _ ← fold_result check_step (0, ∅) (PlanningContent_Steps c);
  Ok tt.

(** ** [validatePlanningReferences] *)
Definition known_node (sources : list PlanningSource) (node : string) : bool :=
  existsb (fun src => bool_decide (KnowledgeReference_NodeRevisionID (PlanningSource_Reference src) = node)) sources.

Definition check_reference (sources : list PlanningSource) (executable : bool) (st : PlanningStep) : result error unit :=
  let node := PlanningStep_NodeRevisionID st in
  if bool_decide (node = "") && negb executable then Ok tt
  else fail_if (negb (known_node sources node))
         (err_reason CodeKnowledgeReferenceInvalid "planning_reference_outside_scope").

Definition validatePlanningReferences (c : PlanningContent) (sources : list PlanningSource) (executable : bool)
  : result error unit :=
  _ ← fail_if (executable && is_nil (PlanningContent_Steps c)) (err_reason CodeProposalRejected "planning_outline_only");
  each (check_reference sources executable) (PlanningContent_Steps c).

(** The route [applyPlanning] proposes for the steps. *)
Definition planning_route (c : PlanningContent) : list RouteProposalStep :=
  (fun st => mkRouteProposalStep (PlanningStep_NodeRevisionID st)
               (PlanningStep_Name st +:+ "：" +:+ PlanningStep_Content st) (PlanningStep_Completion st))
    <$> PlanningContent_Steps c.

(** ** [generatePlanning] *)

(** [modelCategory]: the category a [ModelFailure] in the chain of the error
    names, when it is a known one. *)
Definition model_categories : list string :=
  ["timeout"; "rate_limited"; "unavailable"; "upstream_error"; "unauthorized"; "incompatible"; "invalid_request";
   "invalid_response"; "malformed_json"; "schema_mismatch"; "output_budget_exceeded"; "response_not_completed"].
Definition modelCategory (failure : option string) : string :=
  match failure with
  | Some category => if decide (category ∈ model_categories) then category else "upstream_error"
  | None => "upstream_error"
  end.
Definition retryableModelCategory (category : string) : bool :=
  bool_decide (category ∈ ["timeout"; "rate_limited"; "unavailable"; "upstream_error"]).

(** The questions that still matter: the draft does not answer them. *)
Definition draft_known (c : PlanningContent) : gmap string string :=
  foldl (fun known q => if decide (trim_space (PlanningQuestion_Answer q) = "") then known
                        else <[PlanningQuestion_Field q := PlanningQuestion_Answer q]> known)
    (planningKnown (PlanningContent_Details c)) (PlanningContent_Questions c).
Definition unanswered (known : gmap string string) (q : PlanningQuestion) : bool :=
  bool_decide (trim_space (default "" (known !! PlanningQuestion_Field q)) = "").

Section Generate.
(** The model answers with raw bytes or with an error, given by the category of
    the [ModelFailure] in it; it runs in a world, of which the context says
    whether it is over. [decode] is the strict decoding of one JSON value. *)
Context {W : Type}.
Variable Generate : W → PlanningDraft → W * result (option string) string.
Variable ctx_over : W → bool.
Variable decode : string → option PlanningContent.

Fixpoint ask (attempts : nat) (w : W) (d : PlanningDraft) (last : result (option string) string)
  : W * result (option string) string :=
  match attempts with
  | O => (w, last)
  | S attempts =>
    match Generate w d with
    | (w, Ok raw) => (w, Ok raw)
    | (w, Err failure) =>
      if negb (retryableModelCategory (modelCategory failure)) || ctx_over w then (w, Err failure)
      else ask attempts w d (Err failure)
    end
  end.

Definition accept_output (d : PlanningDraft) (raw : string) : option PlanningContent :=
  match decode raw with
  | None => None
  | Some output =>
    if is_Err (ValidatePlanningContent output)
       || negb (bool_decide (GoalDetails_ScopeSnapshotID (PlanningContent_Details output)
                             = GoalDetails_ScopeSnapshotID (PlanningContent_Details (PlanningDraft_Content d))))
       || is_Err (validatePlanningReferences output (PlanningDraft_Sources d) false)
    then None else Some output
  end.

Definition generatePlanning (configured : bool) (w : W) (d : PlanningDraft) : W * PlanningDraft :=
  let d := set_LastError "" d in
  if negb configured then (w, set_LastError "模型未配置；草稿已保留，可继续手动编辑" d)
  else
    match ask 2 w d (Ok "") with
    | (w, Err failure) => (w, set_LastError ("模型请求失败（" +:+ modelCategory failure +:+ "）；原草稿已保留") d)
    | (w, Ok raw) =>
      if 256 * 1024 <? str_len raw then (w, set_LastError "模型结果超过草稿容量；原草稿已保留" d)
      else
        match accept_output d raw with
        | None => (w, set_LastError "模型结构或资料引用无效；原草稿已保留" d)
        | Some output =>
          let known := draft_known (PlanningDraft_Content d) in
          (w, set_Suggestion (set_Questions (filter (fun q => unanswered known q = true) (PlanningContent_Questions output))
                                output) d)
        end
    end.
End Generate.
End Planning.

(** ** What a valid draft is *)
Section Specification.
Context `{UUIDPackage} `{TimeZoneDatabase}.

Definition text_ok (v : string) : Prop := valid_utf8 v = true ∧ rune_count v <= 4000.

Definition question_fields : list string :=
  ["expected_outcome"; "self_assessment"; "purpose"; "scope"; "exclusions"; "completion_criteria"; "time"].

Record step_ok (i : Z) (st : PlanningStep) : Prop := {
  step_named : trim_space (PlanningStep_Name st) ≠ "";
  step_content : trim_space (PlanningStep_Content st) ≠ "";
  step_completion : trim_space (PlanningStep_Completion st) ≠ "";
  step_minutes : 1 <= PlanningStep_Minutes st <= 10080;
  step_texts_ok : Forall text_ok (step_texts st);
  step_node : PlanningStep_NodeRevisionID st = "" ∨ ValidID (PlanningStep_NodeRevisionID st) = true;
  step_prerequisites : NoDup (PlanningStep_Prerequisites st) ∧ Forall (fun p => 0 <= p < i) (PlanningStep_Prerequisites st);
}.

(** The nodes the steps name. *)
Definition step_nodes (steps : list PlanningStep) : list string :=
  filter (fun node => node ≠ "") (PlanningStep_NodeRevisionID <$> steps).

Record content_ok (c : PlanningContent) : Prop := {
  content_details : GoalDetails_Validate (PlanningContent_Details c) = Ok tt;
  content_size : (length (PlanningContent_Steps c) <= 100)%nat ∧ (length (PlanningContent_Questions c) <= 7)%nat
                 ∧ (length (PlanningContent_Gaps c) <= 30)%nat;
  content_gaps : Forall text_ok (PlanningContent_Gaps c);
  content_questions : NoDup (PlanningQuestion_Field <$> PlanningContent_Questions c)
    ∧ Forall (fun q => PlanningQuestion_Field q ∈ question_fields ∧ text_ok (PlanningQuestion_Question q)
                       ∧ text_ok (PlanningQuestion_Answer q)) (PlanningContent_Questions c);
  content_steps : ∀ i st, PlanningContent_Steps c !! i = Some st → step_ok (Z.of_nat i) st;
  content_nodes : NoDup (step_nodes (PlanningContent_Steps c));
}.

Lemma validText_ok v : validText v = true ↔ text_ok v.
Proof. unfold validText, text_ok. by rewrite andb_true_iff, Z.leb_le. Qed.

Lemma validTexts_ok l : forallb validText l = true ↔ Forall text_ok l.
Proof. induction l as [|v l IH]; cbn; [done|]. by rewrite andb_true_iff, validText_ok, IH, Forall_cons. Qed.

(** A loop that collects the keys it has not seen and rejects the others. *)
Lemma collect_distinct {E A K} `{Countable K} (f : gset K → A → result E (gset K)) (key : A → K) (P : A → Prop) :
  (∀ seen x seen', f seen x = Ok seen' ↔ P x ∧ key x ∉ seen ∧ seen' = seen ∪ {[key x]}) →
  ∀ l seen, (∃ seen', fold_result f seen l = Ok seen') ↔
    Forall P l ∧ NoDup (key <$> l) ∧ ∀ x, x ∈ l → key x ∉ seen.
Proof.
  intros Hf l. induction l as [|x l IH]; intros seen.
  { cbn. split; [|by eexists]. intros _. split_and!; [constructor..|]. by intros x ?%not_elem_of_nil. }
  cbn [fold_result fmap list_fmap]. rewrite Forall_cons, NoDup_cons. split.
  - intros [seen' Hrun]. apply bind_Ok in Hrun as (seen1 & Hx & Hrun). apply Hf in Hx as (Hp & Hk & ->).
    destruct (proj1 (IH (seen ∪ {[key x]}))) as (HP & Hnd & Hnew); [by eexists|]. split_and!; [done..| |done|].
    + intros (y & Heq & Hy)%list_elem_of_fmap. specialize (Hnew y Hy). set_solver.
    + intros y [->|Hy]%elem_of_cons; [done|]. specialize (Hnew y Hy). set_solver.
  - intros ([Hp HP] & [Hk Hnd] & Hnew).
    rewrite (proj2 (Hf seen x (seen ∪ {[key x]}))) by (split_and!; [done|apply Hnew, list_elem_of_here|done]).
    apply IH. split_and!; [done..|]. intros y Hy. apply not_elem_of_union. split; [by apply Hnew, list_elem_of_further|].
    intros Heq%elem_of_singleton. apply Hk. rewrite <- Heq. by apply list_elem_of_fmap_2.
Qed.

Lemma planningKnown_fields d field : is_Some (planningKnown d !! field) ↔ field ∈ question_fields.
Proof.
  unfold planningKnown, question_fields. rewrite !elem_of_cons, elem_of_nil. split.
  - intros [v Hv]. repeat (apply lookup_insert_Some in Hv as [[<- _]|[_ Hv]]; [tauto|]).
    apply lookup_singleton_Some in Hv as [<- _]. tauto.
  - intros [->|[->|[->|[->|[->|[->|[->|[]]]]]]]]; eexists; by vm_compute.
Qed.

Lemma check_question_Ok d fields q fields' :
  check_question (planningKnown d) fields q = Ok fields' ↔
  (PlanningQuestion_Field q ∈ question_fields ∧ text_ok (PlanningQuestion_Question q)
   ∧ text_ok (PlanningQuestion_Answer q))
  ∧ PlanningQuestion_Field q ∉ fields ∧ fields' = fields ∪ {[PlanningQuestion_Field q]}.
Proof.
  unfold check_question. rewrite guard_Ok, !orb_false_iff, !negb_false_iff, !validText_ok, bool_decide_eq_true,
    bool_decide_eq_false, planningKnown_fields. naive_solver.
Qed.

Lemma check_prerequisite_Ok i seen p seen' :
  check_prerequisite i seen p = Ok seen' ↔ (0 <= p < i) ∧ id p ∉ seen ∧ seen' = seen ∪ {[id p]}.
Proof.
  unfold check_prerequisite. rewrite guard_Ok, !orb_false_iff, bool_decide_eq_false, Z.ltb_ge, Z.leb_gt. naive_solver.
Qed.

Lemma check_prerequisites i l :
  (∃ seen, fold_result (check_prerequisite i) ∅ l = Ok seen) ↔ NoDup l ∧ Forall (fun p => 0 <= p < i) l.
Proof.
  rewrite (collect_distinct (check_prerequisite i) id (fun p => 0 <= p < i)) by apply check_prerequisite_Ok.
  rewrite list_fmap_id. set_solver.
Qed.

Lemma check_step_Ok i nodes st i' nodes' :
  check_step (i, nodes) st = Ok (i', nodes') ↔
  step_ok i st ∧ i' = i + 1
  ∧ if decide (PlanningStep_NodeRevisionID st = "") then nodes' = nodes
    else PlanningStep_NodeRevisionID st ∉ nodes ∧ nodes' = nodes ∪ {[PlanningStep_NodeRevisionID st]}.
Proof.
  unfold check_step. rewrite !guard_Ok, !orb_false_iff, !bool_decide_eq_false, negb_false_iff, validTexts_ok, !Z.ltb_ge.
  split.
  - intros (((((Hn & Hc) & Hd) & Hlo) & Hhi) & Htexts & Hrun). apply bind_Ok in Hrun as (nodes1 & Hnode & Hrun).
    apply bind_Ok in Hrun as (seen & Hpre & [= <- <-]).
    assert (NoDup (PlanningStep_Prerequisites st) ∧ Forall (fun p => 0 <= p < i) (PlanningStep_Prerequisites st))
      as Hp by (apply check_prerequisites; by eexists).
    case_decide as Hnil; [injection Hnode as <-|apply guard_Ok in Hnode as [Hv [= <-]]; bool_prop];
      (split; [constructor; auto|done]).
  - intros ([Hn Hc Hd Hm Htexts Hnode Hp] & -> & Hnodes). split_and!; [done..|lia|lia|done|].
    apply check_prerequisites in Hp as [seen Hp].
    assert ((if decide (PlanningStep_NodeRevisionID st = "") then Ok nodes
             else _ ← fail_if (negb (ValidID (PlanningStep_NodeRevisionID st))
                               || bool_decide (PlanningStep_NodeRevisionID st ∈ nodes)) invalid_planning;
                  Ok (nodes ∪ {[PlanningStep_NodeRevisionID st]})) = Ok nodes') as ->; [|cbn; by rewrite Hp].
    case_decide as Hnil; [by subst|]. destruct Hnodes as [Hnew ->]. destruct Hnode as [? | ->]; [done|].
    by rewrite bool_decide_false by done.
Qed.

Lemma step_nodes_cons st l :
  step_nodes (st :: l) = (if decide (PlanningStep_NodeRevisionID st = "") then [] else [PlanningStep_NodeRevisionID st])
                         ++ step_nodes l.
Proof.
  unfold step_nodes. rewrite fmap_cons, filter_cons. by repeat case_decide.
Qed.

Lemma check_steps_Ok l i nodes :
  (∃ acc, fold_result check_step (i, nodes) l = Ok acc) ↔
  (∀ j st, l !! j = Some st → step_ok (i + Z.of_nat j) st)
  ∧ NoDup (step_nodes l) ∧ ∀ node, node ∈ step_nodes l → node ∉ nodes.
Proof.
  revert i nodes. induction l as [|st l IH]; intros i nodes.
  { split; [intros _|by eexists]. split_and!; [done|constructor|by intros ? ?%not_elem_of_nil]. }
  cbn [fold_result]. rewrite step_nodes_cons. split.
  - intros [acc Hrun]. apply bind_Ok in Hrun as ([i1 nodes1] & Hst & Hrun).
    apply check_step_Ok in Hst as (Hst & -> & Hnodes).
    destruct (proj1 (IH (i + 1) nodes1)) as (Hl & Hnd & Hnew); [by eexists|]. split_and!.
    + intros [|j] st' Hj; [injection Hj as <-; by rewrite Z.add_0_r|].
      replace (i + Z.of_nat (S j)) with (i + 1 + Z.of_nat j) by lia. by apply Hl.
    + case_decide; [done|]. apply NoDup_cons. destruct Hnodes as [_ ->]. split; [|done].
      intros Hin. specialize (Hnew _ Hin). set_solver.
    + case_decide; subst; [done|]. destruct Hnodes as [Hne ->]. intros node [->|Hin]%elem_of_cons; [done|].
      specialize (Hnew _ Hin). set_solver.
  - intros (Hl & Hnd & Hnew). set (nodes1 := if decide (PlanningStep_NodeRevisionID st = "") then nodes
                                             else nodes ∪ {[PlanningStep_NodeRevisionID st]}).
    assert (check_step (i, nodes) st = Ok (i + 1, nodes1)) as ->.
    { apply check_step_Ok. split_and!; [|done|].
      - replace i with (i + Z.of_nat 0) by lia. by apply Hl.
      - unfold nodes1. case_decide; [done|]. split; [|done]. apply Hnew, list_elem_of_here. }
    apply IH. split_and!.
    + intros j st' Hj. replace (i + 1 + Z.of_nat j) with (i + Z.of_nat (S j)) by lia. by apply Hl.
    + case_decide; [done|]. by apply NoDup_cons in Hnd as [_ ?].
    + intros node Hin. unfold nodes1. case_decide; [by apply Hnew|].
      apply NoDup_cons in Hnd as [Hne _]. assert (node ∉ nodes) by (by apply Hnew, list_elem_of_further).
      set_solver.
Qed.

Lemma known_node_spec sources node :
  known_node sources node = true
  ↔ node ∈ (fun src => KnowledgeReference_NodeRevisionID (PlanningSource_Reference src)) <$> sources.
Proof.
  unfold known_node. rewrite existsb_exists, list_elem_of_fmap. setoid_rewrite bool_decide_eq_true.
  setoid_rewrite <- list_elem_of_In. naive_solver.
Qed.

Lemma validatePlanningReferences_Ok c sources executable :
  validatePlanningReferences c sources executable = Ok tt ↔
  (executable = true → PlanningContent_Steps c ≠ [])
  ∧ Forall (fun st => (PlanningStep_NodeRevisionID st = "" ∧ executable = false)
                      ∨ known_node sources (PlanningStep_NodeRevisionID st) = true) (PlanningContent_Steps c).
Proof.
  unfold validatePlanningReferences. rewrite guard_Ok, each_Ok, andb_false_iff, is_nil_false.
  f_equiv.
  - destruct executable; naive_solver.
  - apply Forall_iff. intros st. unfold check_reference.
    destruct (bool_decide (PlanningStep_NodeRevisionID st = "")) eqn:Hn; bool_prop; destruct executable; cbn;
      rewrite ?fail_if_Ok, ?negb_false_iff; naive_solver.
Qed.
End Specification.

(** ** Properties *)
Section Properties.
Context `{UUIDPackage} `{TimeZoneDatabase}.

Lemma ValidatePlanningContent_ok c : ValidatePlanningContent c = Ok tt ↔ content_ok c.
Proof.
  unfold ValidatePlanningContent.
  assert (∀ (r : result error (gset string)) (k : result error (Z * gset string)),
    (_ ← r; _ ← k; Ok tt) = Ok (E:=error) tt ↔ (∃ x, r = Ok x) ∧ (∃ x, k = Ok x)) as Hloops
    by (intros [] []; cbn; naive_solver).
  split.
  - intros Hrun. apply bind_Ok in Hrun as ([] & Hd & Hrun). apply guard_Ok in Hrun as [Hsz Hrun].
    apply guard_Ok in Hrun as [Hgaps Hrun]. apply Hloops in Hrun as [Hq Hs].
    rewrite (collect_distinct _ PlanningQuestion_Field _ (check_question_Ok _)) in Hq.
    apply check_steps_Ok in Hs as (Hs & Hn & _). rewrite !orb_false_iff, !Nat.ltb_ge in Hsz.
    rewrite negb_false_iff, validTexts_ok in Hgaps. destruct Hq as (? & ? & _).
    constructor; try done. tauto.
  - intros [Hd Hsz Hgaps [Hnd Hq] Hs Hn]. rewrite Hd. rewrite (bind_eq_Ok tt). rewrite !guard_Ok, Hloops.
    rewrite !orb_false_iff, !Nat.ltb_ge, negb_false_iff, validTexts_ok.
    rewrite (collect_distinct _ PlanningQuestion_Field _ (check_question_Ok _)), check_steps_Ok.
    split_and!; try done; try tauto; set_solver.
Qed.

(** C39. The check of a draft decides its specification: bounded sizes and
    texts, questions about distinct known fields, steps with a name, content and
    completion in the bounds, that name distinct valid nodes and only have
    distinct earlier steps as prerequisites (so the steps have no cycle and
    their order is a learning order). *)
Theorem ValidatePlanningContent_spec c : ValidatePlanningContent c = Ok tt ↔ content_ok c.
Proof. apply ValidatePlanningContent_ok. Qed.

(** A question passes only when the draft leaves it open. *)
Lemma unanswered_open c q :
  unanswered (draft_known c) q = true →
  trim_space (default "" (planningKnown (PlanningContent_Details c) !! PlanningQuestion_Field q)) = ""
  ∧ ∀ q', q' ∈ PlanningContent_Questions c → PlanningQuestion_Field q' = PlanningQuestion_Field q →
      trim_space (PlanningQuestion_Answer q') = "".
Proof.
  unfold unanswered, draft_known. rewrite bool_decide_eq_true.
  generalize (planningKnown (PlanningContent_Details c)) as known.
  induction (PlanningContent_Questions c) as [|q1 l IH]; intros known Hblank; cbn in Hblank.
  { split; [done|]. by intros q' ?%not_elem_of_nil. }
  apply IH in Hblank as [Hknown Hl]. case_decide as Ha.
  - split; [done|]. intros q' [->|Hq']%elem_of_cons Hf; [done | by apply Hl].
  - destruct (decide (PlanningQuestion_Field q1 = PlanningQuestion_Field q)) as [Hf|Hf].
    + by rewrite <- Hf, lookup_insert_eq in Hknown.
    + rewrite lookup_insert_ne in Hknown by done. split; [done|].
      intros q' [->|Hq']%elem_of_cons Hf'; [done | by apply Hl].
Qed.

Lemma content_ok_questions c (P : PlanningQuestion → bool) :
  content_ok c → content_ok (set_Questions (filter (fun q => P q = true) (PlanningContent_Questions c)) c).
Proof.
  intros [Hd (Hs & Hq & Hg) Hgaps [Hnd Hfields] Hsteps Hnodes]. constructor; try done.
  - split_and!; [done| |done]. cbn. pose proof (length_filter (fun q => P q = true) (PlanningContent_Questions c)). lia.
  - cbn. split.
    + eapply sublist_NoDup; [exact Hnd|]. apply fmap_sublist, sublist_filter.
    + apply Forall_forall. intros q [_ Hin]%list_elem_of_filter. revert q Hin. by apply Forall_forall.
Qed.

(** C40. A suggestion never harms the draft: whatever the model answers, the
    goal, the content and the sources stay, and either an error is recorded and
    the old suggestion stays, or the new suggestion is a valid draft on the same
    frozen scope whose steps refer only to the given sources and whose questions
    the draft leaves open. *)
Theorem generatePlanning_suggests {W : Type} (Generate : W → PlanningDraft → W * result (option string) string)
    (ctx_over : W → bool) (decode : string → option PlanningContent) configured w d w' d' :
  generatePlanning Generate ctx_over decode configured w d = (w', d') →
  PlanningDraft_Goal d' = PlanningDraft_Goal d ∧ PlanningDraft_Content d' = PlanningDraft_Content d
  ∧ PlanningDraft_Sources d' = PlanningDraft_Sources d
  ∧ ((PlanningDraft_LastError d' ≠ "" ∧ PlanningDraft_Suggestion d' = PlanningDraft_Suggestion d)
     ∨ (PlanningDraft_LastError d' = "" ∧ ∃ c, PlanningDraft_Suggestion d' = Some c ∧ content_ok c
        ∧ GoalDetails_ScopeSnapshotID (PlanningContent_Details c)
          = GoalDetails_ScopeSnapshotID (PlanningContent_Details (PlanningDraft_Content d))
        ∧ Forall (fun st => PlanningStep_NodeRevisionID st = ""
                            ∨ known_node (PlanningDraft_Sources d) (PlanningStep_NodeRevisionID st) = true)
            (PlanningContent_Steps c)
        ∧ ∀ q, q ∈ PlanningContent_Questions c →
            trim_space (default "" (planningKnown (PlanningContent_Details (PlanningDraft_Content d))
                                      !! PlanningQuestion_Field q)) = ""
            ∧ ∀ q', q' ∈ PlanningContent_Questions (PlanningDraft_Content d) →
                PlanningQuestion_Field q' = PlanningQuestion_Field q →
                trim_space (PlanningQuestion_Answer q') = "")).
Proof.
  unfold generatePlanning. destruct configured; [|intros [= <- <-]; split_and!; [done..|left; done]]. cbn [negb].
  destruct (ask _ _ _ _ _ _) as [w1 [raw|failure]]; [|intros [= <- <-]; split_and!; [done..|left; done]].
  destruct (_ <? str_len raw); [intros [= <- <-]; split_and!; [done..|left; done]|].
  destruct (accept_output decode (set_LastError "" d) raw) as [output|] eqn:Hacc;
    [|intros [= <- <-]; split_and!; [done..|left; done]].
  intros [= <- <-]. split_and!; [done..|]. right. split; [done|]. eexists. split; [done|].
  unfold accept_output in Hacc. destruct (decode raw) as [c|]; [|done].
  destruct (ValidatePlanningContent c) as [[]|] eqn:Hv; [|done].
  apply ValidatePlanningContent_ok in Hv.
  destruct (validatePlanningReferences c _ false) as [[]|] eqn:Hrefs; [|by rewrite orb_true_r in Hacc].
  destruct (bool_decide _) eqn:Hscope; [|done]. injection Hacc as <-. apply bool_decide_eq_true in Hscope.
  split_and!; [by apply content_ok_questions | exact Hscope | |].
  - apply validatePlanningReferences_Ok in Hrefs as [_ Hrefs]. eapply Forall_impl; [exact Hrefs|]. naive_solver.
  - intros q [Hq _]%list_elem_of_filter. by apply unanswered_open.
Qed.
End Properties.

(** ** A draft and a model that suggests *)
Module Samples.
#[export] Existing Instances Goals.Samples.sample_uuid Goals.Samples.sample_zones.

Definition node : string := "00000000-0000-4000-8000-00000000000a".
Definition sample_step (name node : string) (prerequisites : list Z) : PlanningStep :=
  mkPlanningStep name "read" "" "" "explain it" 30 prerequisites node.
Definition sample_content (steps : list PlanningStep) (questions : list PlanningQuestion) : PlanningContent :=
  mkPlanningContent (named "proofs") steps questions [].
Definition sample_source : PlanningSource :=
  mkPlanningSource "book" (mkKnowledgeReference "k" "n" node "d" (mkSourceRange 0 1) "" "").
Definition sample_goal : GoalRevision := Goals.Samples.drafted.
Definition sample_draft : PlanningDraft :=
  mkPlanningDraft sample_goal
    (sample_content [] [mkPlanningQuestion "purpose" "why?" "for work"; mkPlanningQuestion "scope" "what?" " "])
    None [sample_source] "".
Definition answer : PlanningContent :=
  sample_content [sample_step "a" node []; sample_step "b" "" [0]]
    [mkPlanningQuestion "purpose" "why?" ""; mkPlanningQuestion "scope" "how much?" ""].

(** The first call fails, the second answers. *)
Definition flaky (w : Z) (_ : PlanningDraft) : Z * result (option string) string :=
  (w + 1, if w =? 0 then Err (Some "timeout") else Ok "{}").
Definition decode_answer (raw : string) : option PlanningContent :=
  if decide (raw = "{}") then Some answer else None.

Example suggested :
  generatePlanning flaky (fun _ => false) decode_answer true 0 sample_draft
  = (2, set_Suggestion (set_Questions [mkPlanningQuestion "scope" "how much?" ""] answer) sample_draft).
Proof. vm_compute. reflexivity. Qed.

Example cyclic_rejected :
  is_Err (ValidatePlanningContent (sample_content [sample_step "a" "" [1]; sample_step "b" "" [0]] [])) = true.
Proof. vm_compute. reflexivity. Qed.
End Samples.

#[local] Existing Instances Goals.Samples.sample_uuid Goals.Samples.sample_zones.

Lemma generatePlanning_suggests_witness :
  ∃ c, PlanningDraft_Suggestion
         (generatePlanning Samples.flaky (fun _ => false) Samples.decode_answer true 0 Samples.sample_draft).2 = Some c
       ∧ content_ok c.
Proof.
  destruct (generatePlanning_suggests Samples.flaky (fun _ => false) Samples.decode_answer true 0 Samples.sample_draft
    _ _ Samples.suggested) as (_ & _ & _ & [[Herr _]|(_ & c & Hc & Hok & _)]).
  - exfalso. apply Herr. reflexivity.
  - exists c. split; [rewrite Samples.suggested; exact Hc | exact Hok].
Defined.
