(* ===== verification/Reducer.v ===== *)
(** * The mastery reducer

    [server/internal/learning/reducer.go]: how the accepted evidence about one
    knowledge node becomes its mastery state, its review schedule and its
    misconception hypotheses. Go iterates over maps in an unspecified order;
    here a map is iterated in the order of [map_to_list], and the results are
    sorted, as in the code, before they are returned. *)
From S2P Require Import Prelude GoStd LearningDomain.

(** ** Data *)
Inductive MasteryState : Type :=
| MasteryUnseen
| MasteryLearning
| MasteryProvisional
| MasteryRetained
| MasteryStateOther (s : string).
#[export] Instance MasteryState_eq_dec : EqDecision MasteryState.
Proof. solve_decision. Defined.
Definition MasteryState_string (v : MasteryState) : string :=
  match v with
  | MasteryUnseen => "unseen"
  | MasteryLearning => "learning"
  | MasteryProvisional => "provisional"
  | MasteryRetained => "retained"
  | MasteryStateOther s => s
  end.

Record ReviewSchedule := mkReviewSchedule {
  ReviewSchedule_AttemptID : string;
  ReviewSchedule_CarrierSessionID : string;
  ReviewSchedule_GoalName : string;
  ReviewSchedule_SpaceName : string;
  ReviewSchedule_TaskID : string;
  ReviewSchedule_GoalID : string;
  ReviewSchedule_LearningSpaceID : string;
  ReviewSchedule_GoalRevisionID : string;
  ReviewSchedule_KnowledgeRevisionID : string;
  ReviewSchedule_RouteRevisionID : string;
  ReviewSchedule_SessionID : string;
  ReviewSchedule_EvidenceID : string;
  ReviewSchedule_Startable : bool;
  ReviewSchedule_UnavailableReason : string;
  ReviewSchedule_NodeRevisionID : string;
  ReviewSchedule_Step : Z;
  ReviewSchedule_DueAt : time;
  ReviewSchedule_Intervals : list duration;
  ReviewSchedule_PolicyVersion : string;
}.

Record MasteryProjection := mkMasteryProjection {
  MasteryProjection_NodeRevisionID : string;
  MasteryProjection_State : MasteryState;
  MasteryProjection_BaselineState : MasteryState;
  MasteryProjection_ValidEvidenceCount : Z;
  MasteryProjection_Kinds : gmap EvidenceKind Z;
  MasteryProjection_Outcomes : gmap Outcome Z;
  MasteryProjection_Help : gmap HelpLevel Z;
  MasteryProjection_LastEvidenceAt : option time;
  MasteryProjection_PendingAssessments : Z;
  MasteryProjection_UncertaintyReasons : list string;
  MasteryProjection_ReducerVersion : string;
}.

Inductive MisconceptionStatus : Type :=
| MisconceptionProposed
| MisconceptionSupported
| MisconceptionChallenged
| MisconceptionResolved
| MisconceptionStatusOther (s : string).
#[export] Instance MisconceptionStatus_eq_dec : EqDecision MisconceptionStatus.
Proof. solve_decision. Defined.
Definition MisconceptionStatus_string (v : MisconceptionStatus) : string :=
  match v with
  | MisconceptionProposed => "proposed"
  | MisconceptionSupported => "supported"
  | MisconceptionChallenged => "challenged"
  | MisconceptionResolved => "resolved"
  | MisconceptionStatusOther s => s
  end.

Record MisconceptionHypothesis := mkMisconceptionHypothesis {
  MisconceptionHypothesis_ID : string;
  MisconceptionHypothesis_Revision : Z;
  MisconceptionHypothesis_NodeRevisionID : string;
  MisconceptionHypothesis_RubricItemID : string;
  MisconceptionHypothesis_CandidateHash : string;
  MisconceptionHypothesis_Candidate : string;
  MisconceptionHypothesis_Status : MisconceptionStatus;
  MisconceptionHypothesis_SourceEvidenceIDs : list string;
  MisconceptionHypothesis_CounterEvidenceIDs : list string;
  MisconceptionHypothesis_CausedByEvidenceID : string;
}.

Record NodeReduction := mkNodeReduction {
  NodeReduction_Mastery : MasteryProjection;
  NodeReduction_Review : option ReviewSchedule;
  NodeReduction_Misconceptions : list MisconceptionHypothesis;
}.

Record PendingAssessment := mkPendingAssessment {
  PendingAssessment_AssessmentID : string;
  PendingAssessment_NodeRevisionID : string;
  PendingAssessment_Reasons : list string;
}.

(** ** Retention *)
Definition reviewIntervals : list duration :=
  [24 * hour; 3 * 24 * hour; 7 * 24 * hour; 14 * 24 * hour; 30 * 24 * hour].

Definition lowHelp (value : HelpLevel) : bool :=
  bool_decide (value = HelpNone) || bool_decide (value = HelpHint).

Definition recall_kind (evidence : AcceptedEvidence) : bool :=
  bool_decide (AcceptedEvidence_Kind evidence = EvidencePracticeRecall)
  || bool_decide (AcceptedEvidence_Kind evidence = EvidenceReviewRecall).

Definition successfulActiveRecall (evidence : AcceptedEvidence) : bool :=
  recall_kind evidence && bool_decide (AcceptedEvidence_Outcome evidence = OutcomePass)
  && lowHelp (AcceptedEvidence_Help evidence).

Definition failing (evidence : AcceptedEvidence) : bool :=
  bool_decide (AcceptedEvidence_Outcome evidence = OutcomeFail)
  || bool_decide (AcceptedEvidence_Outcome evidence = OutcomePartial).

(** The first loop of [retained]: the index after the last failure. *)
Fixpoint segment_start (i start : nat) (values : list AcceptedEvidence) : nat :=
  match values with
  | [] => start
  | e :: values => segment_start (S i) (if failing e then S i else start) values
  end.

(** The second loop, over the segment, with the variables [earliest],
    [alternate] and [seenActivities]. *)
Fixpoint retained_loop (earliest alternate : option AcceptedEvidence)
    (seenActivities : gset string) (segment : list AcceptedEvidence) : bool :=
  match segment with
  | [] => false
  | evidence :: segment =>
    if negb (successfulActiveRecall evidence)
    then retained_loop earliest alternate seenActivities segment
    else
      let candidate :=
        match earliest with
        | Some e =>
          if decide (AcceptedEvidence_ActivityID e = AcceptedEvidence_ActivityID evidence)
          then alternate else earliest
        | None => None
        end in
      if match candidate with
         | Some c => 24 * hour <=? time_sub (AcceptedEvidence_ReceivedAt evidence)
                                     (AcceptedEvidence_ReceivedAt c)
         | None => false
         end
      then true
      else if decide (AcceptedEvidence_ActivityID evidence ∈ seenActivities)
      then retained_loop earliest alternate seenActivities segment
      else
        let seen := {[AcceptedEvidence_ActivityID evidence]} ∪ seenActivities in
        match earliest, alternate with
        | None, _ => retained_loop (Some evidence) alternate seen segment
        | Some _, None => retained_loop earliest (Some evidence) seen segment
        | Some _, Some _ => retained_loop earliest alternate seen segment
        end
  end.

Definition retained (values : list AcceptedEvidence) : bool :=
  retained_loop None None ∅ (drop (segment_start 0 0 values) values).

(** ** The review schedule *)
Definition review_interval (step : Z) : duration := nth (Z.to_nat step) reviewIntervals 0.

Definition new_schedule (node : string) (evidence : AcceptedEvidence) : ReviewSchedule :=
  mkReviewSchedule "" "" "" "" "" "" "" "" "" "" "" "" false "" node 0
    (time_add (AcceptedEvidence_ReceivedAt evidence) (review_interval 0))
    reviewIntervals ReviewPolicyVersion.

Definition set_step_due (step : Z) (due : time) (r : ReviewSchedule) : ReviewSchedule :=
  mkReviewSchedule (ReviewSchedule_AttemptID r) (ReviewSchedule_CarrierSessionID r)
    (ReviewSchedule_GoalName r) (ReviewSchedule_SpaceName r) (ReviewSchedule_TaskID r)
    (ReviewSchedule_GoalID r) (ReviewSchedule_LearningSpaceID r)
    (ReviewSchedule_GoalRevisionID r) (ReviewSchedule_KnowledgeRevisionID r)
    (ReviewSchedule_RouteRevisionID r) (ReviewSchedule_SessionID r)
    (ReviewSchedule_EvidenceID r) (ReviewSchedule_Startable r)
    (ReviewSchedule_UnavailableReason r) (ReviewSchedule_NodeRevisionID r) step due
    (ReviewSchedule_Intervals r) (ReviewSchedule_PolicyVersion r).

Definition resets (evidence : AcceptedEvidence) : bool :=
  negb (bool_decide (AcceptedEvidence_Outcome evidence = OutcomePass))
  || negb (lowHelp (AcceptedEvidence_Help evidence)).

(** One iteration of the loop of [reduceReview]. *)
Definition review_step (node : string) (result : option ReviewSchedule)
    (evidence : AcceptedEvidence) : option ReviewSchedule :=
  if negb (recall_kind evidence) then result else
  match result with
  | None => Some (new_schedule node evidence)
  | Some r =>
    if resets evidence then Some (new_schedule node evidence)
    else if negb (time_before (AcceptedEvidence_ReceivedAt evidence) (ReviewSchedule_DueAt r))
    then
      let step := if ReviewSchedule_Step r <? Z.of_nat (length reviewIntervals) - 1
                  then ReviewSchedule_Step r + 1 else ReviewSchedule_Step r in
      Some (set_step_due step
              (time_add (AcceptedEvidence_ReceivedAt evidence) (review_interval step)) r)
    else Some r
  end.

Definition reduceReview (node : string) (values : list AcceptedEvidence)
  : option ReviewSchedule :=
  foldl (review_step node) None values.

(** ** Misconceptions *)
Record collected := mkCollected {
  col_candidate : string;
  col_rubric : string;
  col_failures : list AcceptedEvidence;
  col_counters : list AcceptedEvidence;
  col_lastFailureIndex : nat;
}.

Definition nul : string := String Ascii.zero EmptyString.

Definition formatUUID (value : list Z) : string :=
  let encoded := hex_encode value in
  str_slice encoded 0 8 +:+ "-" +:+ str_slice encoded 8 12 +:+ "-" +:+
  str_slice encoded 12 16 +:+ "-" +:+ str_slice encoded 16 20 +:+ "-" +:+
  str_slice encoded 20 32.

Section Reducer.
Context `{UnicodeTables}.

Definition normalizeCandidate (value : string) : string :=
  join " " (fields (to_lower (trim_space value))).

(** The innermost loop body of the first pass: one candidate of a failing
    record at [index]. *)
Definition collect_candidate (index : nat) (evidence : AcceptedEvidence)
    (groups : gmap string collected) (candidate : MisconceptionCandidate)
  : gmap string collected :=
  let normalized := normalizeCandidate (MisconceptionCandidate_Text candidate) in
  if decide (normalized = "") then groups else
  let rubric := MisconceptionCandidate_RubricItemID candidate in
  let key := rubric +:+ nul +:+ normalized in
  let g := default (mkCollected normalized rubric [] [] 0) (groups !! key) in
  <[key := mkCollected (col_candidate g) (col_rubric g) (col_failures g ++ [evidence])
             (col_counters g) index]> groups.

Fixpoint collect_failures (index : nat) (groups : gmap string collected)
    (values : list AcceptedEvidence) : gmap string collected :=
  match values with
  | [] => groups
  | evidence :: values =>
    collect_failures (S index)
      (if failing evidence
       then foldl (collect_candidate index evidence) groups
              (AcceptedEvidence_Misconceptions evidence)
       else groups) values
  end.

(** The second pass: later evidence whose rubric item passed. *)
Definition counters_of (rubric : string) (values : list AcceptedEvidence)
  : list AcceptedEvidence :=
  filter (fun evidence => existsb (fun outcome =>
    bool_decide (RubricOutcome_RubricItemID outcome = rubric)
    && bool_decide (RubricOutcome_Conclusion outcome = ConclusionPass))
    (AcceptedEvidence_RubricOutcomes evidence) = true) values.

Definition add_counters (values : list AcceptedEvidence) (g : collected) : collected :=
  mkCollected (col_candidate g) (col_rubric g) (col_failures g)
    (counters_of (col_rubric g) (drop (S (col_lastFailureIndex g)) values))
    (col_lastFailureIndex g).

Definition misconception_status (g : collected) : MisconceptionStatus :=
  let activities : gset string :=
    list_to_set (AcceptedEvidence_ActivityID <$> col_failures g) in
  if retained (col_counters g) then MisconceptionResolved
  else if negb (is_nil (col_counters g)) then MisconceptionChallenged
  else if (2 <=? size activities)%nat then MisconceptionSupported
  else MisconceptionProposed.

(** [ids[len(ids)-1]], which Go evaluates only when it is in range. *)
Definition last_id (ids : list string) : string := List.last ids "".

Definition hypothesis_of (node : string) (g : collected) : MisconceptionHypothesis :=
  let hash := sha256_bytes (bytes_of (col_candidate g)) in
  let lf := String (ascii_of_byte 10) EmptyString in
  let idHash := sha256_bytes (bytes_of
    (node +:+ lf +:+ col_rubric g +:+ lf +:+ hex_encode hash)) in
  let sources := AcceptedEvidence_ID <$> col_failures g in
  let counters := AcceptedEvidence_ID <$> col_counters g in
  mkMisconceptionHypothesis (formatUUID (take 16 idHash))
    (Z.of_nat (length (col_failures g) + length (col_counters g))) node (col_rubric g)
    (hex_encode hash) (col_candidate g) (misconception_status g) sources counters
    (if is_nil counters then last_id sources else last_id counters).

Definition hypothesis_less (x y : MisconceptionHypothesis) : bool :=
  str_ltb (MisconceptionHypothesis_ID x) (MisconceptionHypothesis_ID y).

Definition misconception_groups (values : list AcceptedEvidence) : gmap string collected :=
  add_counters values <$> collect_failures 0 ∅ values.

Definition reduceMisconceptions (node : string) (values : list AcceptedEvidence)
  : list MisconceptionHypothesis :=
  sort_by hypothesis_less
    (hypothesis_of node <$> (map_to_list (misconception_groups values)).*2).

(** ** The reduction of a node *)
Definition increment {K} `{Countable K} (k : K) (m : gmap K Z) : gmap K Z :=
  <[k := default 0 (m !! k) + 1]> m.

(** The counting loop of [ReduceNode]. *)
Definition count_evidence (p : MasteryProjection) (evidence : AcceptedEvidence)
  : MasteryProjection :=
  mkMasteryProjection (MasteryProjection_NodeRevisionID p) (MasteryProjection_State p)
    (MasteryProjection_BaselineState p) (MasteryProjection_ValidEvidenceCount p + 1)
    (increment (AcceptedEvidence_Kind evidence) (MasteryProjection_Kinds p))
    (increment (AcceptedEvidence_Outcome evidence) (MasteryProjection_Outcomes p))
    (increment (AcceptedEvidence_Help evidence) (MasteryProjection_Help p))
    (Some (AcceptedEvidence_ReceivedAt evidence))
    (MasteryProjection_PendingAssessments p) (MasteryProjection_UncertaintyReasons p)
    (MasteryProjection_ReducerVersion p).

(** The evidence [ReduceNode] takes into account, in the canonical order. *)
Definition valid_evidence (node : string) (all : list AcceptedEvidence)
    (invalidated : gmap string bool) : list AcceptedEvidence :=
  SortEvidence (filter (fun e => AcceptedEvidence_NodeRevisionID e = node
    ∧ default false (invalidated !! AcceptedEvidence_ID e) = false) all).

Definition baseline_state (values : list AcceptedEvidence) : MasteryState :=
  if retained values then MasteryRetained
  else if is_nil values then MasteryUnseen else MasteryLearning.

Definition ReduceNode (nodeRevisionID : string) (all : list AcceptedEvidence)
    (invalidated : gmap string bool) (pending : list PendingAssessment) : NodeReduction :=
  let values := valid_evidence nodeRevisionID all invalidated in
  let p0 := mkMasteryProjection nodeRevisionID MasteryUnseen MasteryUnseen 0 ∅ ∅ ∅ None 0
              [] MasteryReducerVersion in
  let p := foldl count_evidence p0 values in
  let baseline := baseline_state values in
  let mastery :=
    mkMasteryProjection (MasteryProjection_NodeRevisionID p)
      (if is_nil pending then baseline else MasteryProvisional) baseline
      (MasteryProjection_ValidEvidenceCount p) (MasteryProjection_Kinds p)
      (MasteryProjection_Outcomes p) (MasteryProjection_Help p)
      (MasteryProjection_LastEvidenceAt p)
      (if is_nil pending then 0 else Z.of_nat (length pending))
      (if is_nil pending then []
       else sort_strings (pending ≫= PendingAssessment_Reasons))
      (MasteryProjection_ReducerVersion p) in
  mkNodeReduction mastery (reduceReview nodeRevisionID values)
    (reduceMisconceptions nodeRevisionID values).
End Reducer.

(** ** Retention: the two-pointer scan finds a spaced pair *)

(** [a] and a later [b] show recall of different activities at least a day
    apart. *)
Definition spaced (a b : AcceptedEvidence) : Prop :=
  successfulActiveRecall a = true ∧ successfulActiveRecall b = true
  ∧ AcceptedEvidence_ActivityID a ≠ AcceptedEvidence_ActivityID b
  ∧ AcceptedEvidence_ReceivedAt a + 24 * hour <= AcceptedEvidence_ReceivedAt b.

(** Two such records with no failure from the first one on. *)
Definition spaced_recall (values : list AcceptedEvidence) : Prop :=
  ∃ pre a mid b post, values = pre ++ a :: mid ++ b :: post ∧ spaced a b
    ∧ Forall (fun e => failing e = false) (a :: mid ++ b :: post).

Definition received_le (x y : AcceptedEvidence) : Prop :=
  AcceptedEvidence_ReceivedAt x <= AcceptedEvidence_ReceivedAt y.

Section Scan.
(** The order the records are scanned in. Soundness of the scan needs nothing
    of it; its completeness needs it to be the order of reception. *)
Variable R : AcceptedEvidence → AcceptedEvidence → Prop.
Hypothesis R_refl : ∀ x, R x x.

(** [o] is the first record of [P] with the property [Q], if there is one. *)
Definition least (Q : AcceptedEvidence → Prop) (P : list AcceptedEvidence)
    (o : option AcceptedEvidence) : Prop :=
  match o with
  | None => ∀ a, a ∈ P → ¬ Q a
  | Some e => e ∈ P ∧ Q e ∧ ∀ a, a ∈ P → Q a → R e a
  end.

Definition recalled (a : AcceptedEvidence) : Prop := successfulActiveRecall a = true.
Definition recalled_other (activity : string) (a : AcceptedEvidence) : Prop :=
  recalled a ∧ AcceptedEvidence_ActivityID a ≠ activity.

(** What the scan knows after the records [P]. *)
Definition scan_inv (P : list AcceptedEvidence) (earliest alternate : option AcceptedEvidence)
    (seen : gset string) : Prop :=
  least recalled P earliest
  ∧ match earliest with
    | None => alternate = None
    | Some e => least (recalled_other (AcceptedEvidence_ActivityID e)) P alternate
    end
  ∧ ∀ x, x ∈ seen ↔ ∃ a, a ∈ P ∧ recalled a ∧ AcceptedEvidence_ActivityID a = x.

(** Some record of [l] completes a spaced pair with an earlier one. *)
Definition later_pair (P l : list AcceptedEvidence) : Prop :=
  ∃ mid b post a, l = mid ++ b :: post ∧ a ∈ P ++ mid ∧ spaced a b.

Lemma later_pair_cons P x l :
  later_pair P (x :: l) ↔ (∃ a, a ∈ P ∧ spaced a x) ∨ later_pair (P ++ [x]) l.
Proof.
  split.
  - intros (mid & b & post & a & Heq & Ha & Hs). destruct mid as [|y mid]; simplify_eq/=.
    + left. exists a. by rewrite app_nil_r in Ha.
    + right. exists mid, b, post, a. by rewrite <- app_assoc.
  - intros [(a & Ha & Hs)|(mid & b & post & a & -> & Ha & Hs)].
    + exists [], x, l, a. by rewrite app_nil_r.
    + exists (x :: mid), b, post, a. by rewrite <- app_assoc in Ha.
Qed.

Lemma day_apart a b :
  (24 * hour <=? time_sub (AcceptedEvidence_ReceivedAt b) (AcceptedEvidence_ReceivedAt a)) = true
  ↔ AcceptedEvidence_ReceivedAt a + 24 * hour <= AcceptedEvidence_ReceivedAt b.
Proof.
  rewrite time_sub_ge, Z.leb_le; [done|].
  unfold hour, minute, second, int64_max. lia.
Qed.

Lemma elem_of_snoc {A} (a x : A) P : a ∈ P ++ [x] ↔ a ∈ P ∨ a = x.
Proof. by rewrite elem_of_app, list_elem_of_singleton. Qed.

Lemma least_skip Q P o x : ¬ Q x → least Q P o → least Q (P ++ [x]) o.
Proof.
  intros Hx. destruct o as [e|]; simpl.
  - intros (He & HQ & Hle). split_and!; [by apply elem_of_snoc; left|done|].
    intros a [Ha| ->]%elem_of_snoc Ha'; [by apply Hle | by destruct Hx].
  - intros Hn a [Ha| ->]%elem_of_snoc; [by apply Hn | done].
Qed.

Lemma least_later Q P e x :
  R e x → least Q P (Some e) → least Q (P ++ [x]) (Some e).
Proof.
  intros Hx (He & HQ & Hle). split_and!; [by apply elem_of_snoc; left|done|].
  intros a [Ha| ->]%elem_of_snoc Ha'; [by apply Hle | done].
Qed.

Lemma least_new Q P x : Q x → least Q P None → least Q (P ++ [x]) (Some x).
Proof.
  intros Hx Hn. split_and!; [apply elem_of_snoc; by right|done|].
  intros a [Ha| ->]%elem_of_snoc Ha'; [by destruct (Hn a Ha) | apply R_refl].
Qed.

(** The record compared with [x]: the earliest recall of another activity. *)
Definition scan_candidate (earliest alternate : option AcceptedEvidence) (x : AcceptedEvidence) :=
  match earliest with
  | Some e => if decide (AcceptedEvidence_ActivityID e = AcceptedEvidence_ActivityID x)
              then alternate else earliest
  | None => None
  end.

Lemma scan_candidate_least P earliest alternate seen x :
  scan_inv P earliest alternate seen →
  least (recalled_other (AcceptedEvidence_ActivityID x)) P (scan_candidate earliest alternate x).
Proof.
  intros (He & Hf & _). unfold scan_candidate. destruct earliest as [e|].
  - case_decide as Hx; [by rewrite Hx in Hf|].
    destruct He as (He & Hr & Hle). split_and!; [done|by split|].
    intros a Ha [? _]. by apply Hle.
  - intros a Ha [Hr _]. by apply (He a Ha).
Qed.

(** The comparison succeeds only when [x] completes a spaced pair, and always
    then if the records are in order of reception. *)
Lemma scan_candidate_spaced P o x :
  recalled x → least (recalled_other (AcceptedEvidence_ActivityID x)) P o →
  let test := match o with
  | Some c => 24 * hour <=? time_sub (AcceptedEvidence_ReceivedAt x) (AcceptedEvidence_ReceivedAt c)
  | None => false
  end in
  (test = true → ∃ a, a ∈ P ∧ spaced a x)
  ∧ ((∀ x y, R x y → received_le x y) → (∃ a, a ∈ P ∧ spaced a x) → test = true).
Proof.
  intros Hx Ho. destruct o as [c|]; simpl in *.
  - destruct Ho as (Hc & [Hr Hne] & Hle). rewrite day_apart. split.
    + intros Hd. by exists c.
    + intros HR (a & Ha & Hra & _ & Hna & Hd).
      assert (received_le c a) as Hca by (apply HR, Hle; [done | by split]).
      unfold received_le in Hca. lia.
  - split; [done|]. intros _ (a & Ha & Hra & _ & Hna & _). exfalso. apply (Ho a Ha). by split.
Qed.

Lemma scan_inv_skip P earliest alternate seen x :
  ¬ recalled x → scan_inv P earliest alternate seen →
  scan_inv (P ++ [x]) earliest alternate seen.
Proof.
  intros Hx (He & Hf & Hs). split_and!.
  - by apply least_skip.
  - destruct earliest; [|done]. apply least_skip; [|done]. by intros [? _].
  - intros y. rewrite Hs. split; intros (a & Ha & Hr & Hy); exists a; split_and!; try done.
    + apply elem_of_snoc; by left.
    + by apply elem_of_snoc in Ha as [Ha| ->].
Qed.

Lemma scan_seen_known P (seen : gset string) x :
  AcceptedEvidence_ActivityID x ∈ seen →
  (∀ y, y ∈ seen ↔ ∃ a, a ∈ P ∧ recalled a ∧ AcceptedEvidence_ActivityID a = y) →
  ∀ y, y ∈ seen ↔ ∃ a, a ∈ P ++ [x] ∧ recalled a ∧ AcceptedEvidence_ActivityID a = y.
Proof.
  intros Hin Hs y. split.
  - intros Hy. apply Hs in Hy as (a & Ha & Hr). exists a. split; [|done].
    apply elem_of_snoc. by left.
  - intros (a & [Ha| ->]%elem_of_snoc & Hr & <-); [|done]. apply Hs. by exists a.
Qed.

Lemma scan_seen_new P (seen : gset string) x :
  recalled x →
  (∀ y, y ∈ seen ↔ ∃ a, a ∈ P ∧ recalled a ∧ AcceptedEvidence_ActivityID a = y) →
  ∀ y, y ∈ {[AcceptedEvidence_ActivityID x]} ∪ seen ↔
    ∃ a, a ∈ P ++ [x] ∧ recalled a ∧ AcceptedEvidence_ActivityID a = y.
Proof.
  intros Hx Hs y. rewrite elem_of_union, elem_of_singleton, Hs. split.
  - intros [-> |(a & Ha & Hr)]; [exists x | exists a]; rewrite elem_of_snoc; auto.
  - intros (a & [Ha| ->]%elem_of_snoc & Hr & <-); [right; by exists a | by left].
Qed.

Lemma least_earlier Q P o x :
  Forall (fun y => R y x) P → least Q P o → o ≠ None → least Q (P ++ [x]) o.
Proof.
  rewrite Forall_forall. intros HP Ho Hn. destruct o as [e|]; [|done].
  apply least_later; [|done]. apply HP. by destruct Ho.
Qed.

(** One record: either it completes a pair, or the scan goes on with what it
    knows after it. *)
Lemma retained_loop_step P earliest alternate seen x l :
  scan_inv P earliest alternate seen → Forall (fun y => R y x) P →
  retained_loop earliest alternate seen (x :: l) = true ∧ (∃ a, a ∈ P ∧ spaced a x)
  ∨ ((∀ x y, R x y → received_le x y) → ¬ ∃ a, a ∈ P ∧ spaced a x)
    ∧ ∃ earliest' alternate' seen', scan_inv (P ++ [x]) earliest' alternate' seen'
      ∧ retained_loop earliest alternate seen (x :: l)
        = retained_loop earliest' alternate' seen' l.
Proof.
  intros Hinv HP. simpl. destruct (successfulActiveRecall x) eqn:Hx; simpl.
  2:{ right. split; [intros _ (a & _ & _ & Hb & _); congruence|].
      exists earliest, alternate, seen. split; [|done].
      apply scan_inv_skip; [by unfold recalled; rewrite Hx | done]. }
  fold (scan_candidate earliest alternate x).
  destruct (scan_candidate_spaced P _ x Hx (scan_candidate_least _ _ _ _ x Hinv)) as [Hc1 Hc2].
  destruct (match scan_candidate earliest alternate x with Some _ => _ | None => _ end) eqn:Ht.
  { left. auto. }
  right. split; [intros HR Ha; specialize (Hc2 HR Ha); done|]. clear Hc1 Hc2 Ht.
  destruct Hinv as (He & Hf & Hs). case_decide as Hin.
  - do 3 eexists. split; [|done]. destruct earliest as [e|].
    2:{ apply Hs in Hin as (a & Ha & Hr & _). by destruct (He a Ha). }
    split_and!; [by apply least_earlier| |by apply scan_seen_known].
    destruct alternate as [f|]; [by apply least_earlier|].
    apply least_skip; [|done]. intros [_ Hne]. apply Hs in Hin as (a & Ha & Hr & Hax).
    apply (Hf a Ha). by rewrite <- Hax in Hne.
  - destruct earliest as [e|]; [destruct alternate as [f|]|]; do 3 eexists; (split; [|done]);
      (split_and!; [| |by apply scan_seen_new]).
    + by apply least_earlier.
    + by apply least_earlier.
    + by apply least_earlier.
    + apply least_new; [|done]. split; [done|]. intros Heq. apply Hin, Hs.
      exists e. destruct He as (? & ? & _). by rewrite Heq.
    + by apply least_new.
    + rewrite Hf. intros a [Ha| ->]%elem_of_snoc [Hr Hne]; [by apply (He a Ha) | done].
Qed.

(** The scan, started after [P], answers whether the rest completes a pair. *)
Lemma retained_loop_spec l P earliest alternate seen :
  scan_inv P earliest alternate seen → StronglySorted R (P ++ l) →
  (retained_loop earliest alternate seen l = true → later_pair P l)
  ∧ ((∀ x y, R x y → received_le x y) →
     later_pair P l → retained_loop earliest alternate seen l = true).
Proof.
  revert P earliest alternate seen.
  induction l as [|x l IH]; intros P earliest alternate seen Hinv Hsort.
  { split; [done|]. intros _ ([|? ?] & ? & ? & ? & ? & _); done. }
  rewrite later_pair_cons.
  assert (Forall (fun y => R y x) P) as HP.
  { apply StronglySorted_app in Hsort as (Hs & _ & _).
    apply Forall_forall. intros y Hy. apply Hs; [done|]. apply list_elem_of_here. }
  assert (StronglySorted R ((P ++ [x]) ++ l)) as Hsort' by by rewrite <- app_assoc.
  destruct (retained_loop_step P earliest alternate seen x l Hinv HP)
    as [[-> Ha]|(Hno & e' & f' & s' & Hinv' & ->)]; [by auto|].
  destruct (IH _ e' f' s' Hinv' Hsort') as [H1 H2]. split; [auto|].
  intros HR [Ha|Hl]; [by destruct (Hno HR)|auto].
Qed.
End Scan.

(** The segment is what follows the last failure. *)
Lemma segment_start_spec values i start :
  (start <= i)%nat →
  (segment_start i start values = start ∧ Forall (fun e => failing e = false) values)
  ∨ ∃ pre e post, values = pre ++ e :: post ∧ failing e = true
      ∧ segment_start i start values = (i + S (length pre))%nat
      ∧ Forall (fun e => failing e = false) post.
Proof.
  revert i start. induction values as [|x values IH]; intros i start Hle; simpl; [by left|].
  destruct (failing x) eqn:Hx.
  - destruct (IH (S i) (S i)) as [[-> Hf]|(pre & e & post & -> & He & -> & Hf)]; [lia|..].
    + right. exists [], x, values. split_and!; [done..| |done]. simpl. lia.
    + right. exists (x :: pre), e, post. split_and!; [done..| |done]. simpl. lia.
  - destruct (IH (S i) start) as [[-> Hf]|(pre & e & post & -> & He & -> & Hf)]; [lia|..].
    + left. split; [done|]. by constructor.
    + right. exists (x :: pre), e, post. split_and!; [done..| |done]. simpl. lia.
Qed.

Lemma segment_spec values :
  ∃ pre, values = pre ++ drop (segment_start 0 0 values) values
    ∧ Forall (fun e => failing e = false) (drop (segment_start 0 0 values) values)
    ∧ (pre = [] ∨ ∃ pre' e, pre = pre' ++ [e] ∧ failing e = true).
Proof.
  destruct (segment_start_spec values 0 0) as [[-> Hf]|(pre & e & post & Hv & He & -> & Hf)]; [lia|..].
  - exists []. rewrite drop_0. auto.
  - exists (pre ++ [e]). rewrite Hv. replace (pre ++ e :: post) with ((pre ++ [e]) ++ post)
      by by rewrite <- app_assoc.
    rewrite drop_app_length'; [|rewrite length_app; simpl; lia].
    split_and!; [done..|]. right. by exists pre, e.
Qed.

Lemma scan_inv_start R : scan_inv R [] None None ∅.
Proof.
  split_and!; [by intros a Ha%not_elem_of_nil|done|]. intros x. split; [set_solver|].
  intros (a & Ha%not_elem_of_nil & _). done.
Qed.

(** The two-pointer scan only answers yes on spaced recall. *)
Lemma retained_sound values : retained values = true → spaced_recall values.
Proof.
  unfold retained. destruct (segment_spec values) as (pre & Heq & Hf & _).
  set (seg := drop _ values) in *. intros Hr.
  apply (retained_loop_spec (fun _ _ => True) (fun _ => I) seg []) in Hr;
    [|apply scan_inv_start|].
  2:{ clear. simpl. induction seg; constructor; [done|]. by apply Forall_true. }
  destruct Hr as (mid & b & post & a & Hseg & Ha & Hs). simpl in Ha.
  apply list_elem_of_split in Ha as (m1 & m2 & ->).
  rewrite Hseg in Heq, Hf. exists (pre ++ m1), a, m2, b, post. split_and!; [|done|].
  - rewrite Heq, <- !app_assoc. done.
  - rewrite <- app_assoc in Hf. by apply Forall_app in Hf as [_ Hf].
Qed.

(** It finds every spaced pair when the records are in order of reception. *)
Lemma retained_complete values :
  StronglySorted received_le values → spaced_recall values → retained values = true.
Proof.
  intros Hsort (p & a & mid & b & post & Hv & Hs & Hnf). unfold retained.
  destruct (segment_spec values) as (pre & Heq & _ & Hpre). set (seg := drop _ values) in *.
  assert (∃ l, seg = l ++ a :: mid ++ b :: post) as [l Hl].
  { rewrite Heq in Hv. apply app_eq_app in Hv as (l & [[Hp Hrest]|[Hp Hrest]]); [|by exists l].
    destruct (decide (l = [])) as [->|Hl]; [by exists []|].
    exfalso. destruct (exists_last Hl) as (l' & y & ->).
    destruct Hpre as [->|(pre' & e & -> & He)]; [by destruct p, l'|].
    rewrite app_assoc in Hp. apply app_inj_tail in Hp as [_ ->].
    rewrite Hrest, !Forall_app in Hnf. destruct Hnf as [[_ Hnf%Forall_inv] _]. congruence. }
  apply (retained_loop_spec received_le (fun x => Z.le_refl _) seg []);
    [apply scan_inv_start| |done|].
  { rewrite Heq in Hsort. by apply StronglySorted_app in Hsort as (_ & _ & ?). }
  exists (l ++ a :: mid), b, post, a. split_and!; [|simpl|done].
  - rewrite Hl. by rewrite <- app_assoc.
  - apply elem_of_app. right. apply list_elem_of_here.
Qed.

(** ** Counting *)
Lemma increments_lookup {A K} `{Countable K} (f : A → K) (l : list A) (m : gmap K Z) k :
  default 0 (foldl (fun m x => increment (f x) m) m l !! k)
  = default 0 (m !! k) + Z.of_nat (length (filter (fun x => f x = k) l)).
Proof.
  revert m. induction l as [|x l IH]; intros m; simpl; [lia|].
  rewrite IH, filter_cons. unfold increment. case_decide as Hk.
  - rewrite Hk, lookup_insert_eq. simpl. lia.
  - by rewrite lookup_insert_ne.
Qed.

Lemma count_evidence_fold values p :
  let p' := foldl count_evidence p values in
  MasteryProjection_NodeRevisionID p' = MasteryProjection_NodeRevisionID p
  ∧ MasteryProjection_ValidEvidenceCount p'
    = MasteryProjection_ValidEvidenceCount p + Z.of_nat (length values)
  ∧ MasteryProjection_Kinds p' = foldl (fun m e => increment (AcceptedEvidence_Kind e) m)
                                   (MasteryProjection_Kinds p) values
  ∧ MasteryProjection_Outcomes p' = foldl (fun m e => increment (AcceptedEvidence_Outcome e) m)
                                   (MasteryProjection_Outcomes p) values
  ∧ MasteryProjection_Help p' = foldl (fun m e => increment (AcceptedEvidence_Help e) m)
                                   (MasteryProjection_Help p) values
  ∧ MasteryProjection_LastEvidenceAt p'
    = match last values with
      | Some e => Some (AcceptedEvidence_ReceivedAt e)
      | None => MasteryProjection_LastEvidenceAt p
      end.
Proof.
  revert p. induction values as [|e values IH]; intros p; simpl.
  - split_and!; try done; lia.
  - destruct (IH (count_evidence p e)) as (-> & -> & -> & -> & -> & ->).
    split_and!; try done; [simpl; lia|]. rewrite last_cons.
    by destruct (last values).
Qed.

(** ** The review ladder *)
Fixpoint interval_sum (n : nat) (l : list duration) : duration :=
  match n, l with
  | S n, d :: l => d + interval_sum n l
  | _, _ => 0
  end.

(** The time that must pass before a schedule at [step] is due again. *)
Definition ladder_time (step : Z) : duration :=
  interval_sum (S (Z.to_nat step)) reviewIntervals.

Definition schedule_ok (node : string) (values : list AcceptedEvidence)
    (r : option ReviewSchedule) : Prop :=
  match r with
  | None => ∀ e, e ∈ values → recall_kind e = false
  | Some r =>
    ReviewSchedule_NodeRevisionID r = node
    ∧ ReviewSchedule_Intervals r = reviewIntervals
    ∧ 0 <= ReviewSchedule_Step r < Z.of_nat (length reviewIntervals)
    ∧ (∃ e, e ∈ values ∧ recall_kind e = true
        ∧ ReviewSchedule_DueAt r
          = AcceptedEvidence_ReceivedAt e + review_interval (ReviewSchedule_Step r))
    ∧ (∃ e, e ∈ values ∧ recall_kind e = true
        ∧ AcceptedEvidence_ReceivedAt e + ladder_time (ReviewSchedule_Step r)
          <= ReviewSchedule_DueAt r)
  end.

Lemma ladder_time_step step :
  0 <= step -> step < 4 → ladder_time (step + 1) = ladder_time step + review_interval (step + 1).
Proof.
  intros H0 H4.
  assert (step = 0 ∨ step = 1 ∨ step = 2 ∨ step = 3) as [->|[->|[->| ->]]] by lia; reflexivity.
Qed.

Lemma review_interval_pos step : 0 <= review_interval step.
Proof.
  unfold review_interval.
  destruct (nth_in_or_default (Z.to_nat step) reviewIntervals 0) as [Hin| ->]; [|lia].
  repeat (destruct Hin as [<-|Hin]; [vm_compute; discriminate|]). destruct Hin.
Qed.

Lemma new_schedule_ok node values e :
  recall_kind e = true → e ∈ values → schedule_ok node values (Some (new_schedule node e)).
Proof.
  intros Hk He. simpl. split_and!; try done; exists e; split_and!; done.
Qed.

Lemma schedule_ok_weaken node values e r :
  schedule_ok node values (Some r) → schedule_ok node (values ++ [e]) (Some r).
Proof.
  intros (H1 & H2 & H3 & (a & Ha & Ha') & (b & Hb & Hb')).
  destruct H3. simpl. split_and!; try done; [exists a | exists b]; (split; [|done]);
    apply elem_of_snoc; by left.
Qed.

Lemma advance_ok node values e r step :
  schedule_ok node values (Some r) → recall_kind e = true →
  ReviewSchedule_DueAt r <= AcceptedEvidence_ReceivedAt e →
  step = (if ReviewSchedule_Step r <? 4 then ReviewSchedule_Step r + 1 else ReviewSchedule_Step r) →
  schedule_ok node (values ++ [e]) (Some (set_step_due step
    (time_add (AcceptedEvidence_ReceivedAt e) (review_interval step)) r)).
Proof.
  intros (H1 & H2 & H3 & _ & (b & Hb & Hbk & Hbd)) Hk Hdue ->. simpl in *.
  split_and!; try done.
  - destruct (_ <? 4); lia.
  - destruct (Z.ltb_spec (ReviewSchedule_Step r) 4); lia.
  - exists e. split_and!; [apply elem_of_snoc; by right|done..].
  - exists b. split_and!; [apply elem_of_snoc; by left|done|]. unfold time_add.
    destruct (Z.ltb_spec (ReviewSchedule_Step r) 4) as [Hs|Hs].
    + rewrite ladder_time_step; lia.
    + pose proof (review_interval_pos (ReviewSchedule_Step r)). lia.
Qed.

Lemma review_step_ok node values e r :
  schedule_ok node values r → schedule_ok node (values ++ [e]) (review_step node r e).
Proof.
  intros Hr. unfold review_step. destruct (recall_kind e) eqn:Hk; simpl.
  2:{ destruct r as [r|]; [by apply schedule_ok_weaken|].
      intros a [Ha| ->]%elem_of_snoc; [by apply Hr | done]. }
  assert (e ∈ values ++ [e]) as He by (apply elem_of_snoc; by right).
  destruct r as [r|]; [|by apply new_schedule_ok].
  destruct (resets e); [by apply new_schedule_ok|].
  destruct (time_before _ _) eqn:Hb; simpl; [by apply schedule_ok_weaken|].
  apply advance_ok; try done. unfold time_before in Hb. bool_prop. lia.
Qed.

Lemma reduceReview_ok node values : schedule_ok node values (reduceReview node values).
Proof.
  unfold reduceReview. induction values as [|e values IH] using rev_ind.
  - intros e He%not_elem_of_nil. done.
  - rewrite foldl_app. by apply review_step_ok.
Qed.

(** ** Misconception groups *)
Section Misconceptions.
Context `{UnicodeTables}.

#[local] Arguments normalizeCandidate : simpl never.
#[local] Opaque normalizeCandidate.

(** A candidate of a failing record: its index, the record, the rubric item
    and the normalised text. *)
Record occurrence := mkOccurrence {
  occ_index : nat;
  occ_evidence : AcceptedEvidence;
  occ_rubric : string;
  occ_candidate : string;
}.

Definition occ_key (o : occurrence) : string := occ_rubric o +:+ nul +:+ occ_candidate o.

(** Every candidate the first pass collects, in order. *)
Definition candidates_of (index : nat) (e : AcceptedEvidence) : list occurrence :=
  filter (fun o => occ_candidate o ≠ "")
    ((fun c => mkOccurrence index e (MisconceptionCandidate_RubricItemID c)
                (normalizeCandidate (MisconceptionCandidate_Text c)))
     <$> AcceptedEvidence_Misconceptions e).

Fixpoint occurrences (index : nat) (values : list AcceptedEvidence) : list occurrence :=
  match values with
  | [] => []
  | e :: values =>
    (if failing e then candidates_of index e else []) ++ occurrences (S index) values
  end.

Definition add_occurrence (groups : gmap string collected) (o : occurrence) :=
  let g := default (mkCollected (occ_candidate o) (occ_rubric o) [] [] 0)
             (groups !! occ_key o) in
  <[occ_key o := mkCollected (col_candidate g) (col_rubric g) (col_failures g ++ [occ_evidence o])
             (col_counters g) (occ_index o)]> groups.

Lemma collect_candidates_fold index e l groups :
  foldl (collect_candidate index e) groups l
  = foldl add_occurrence groups (filter (fun o => occ_candidate o ≠ "")
      ((fun c => mkOccurrence index e (MisconceptionCandidate_RubricItemID c)
                (normalizeCandidate (MisconceptionCandidate_Text c))) <$> l)).
Proof.
  revert groups. induction l as [|c l IH]; intros groups; simpl; [done|].
  rewrite filter_cons, IH. unfold collect_candidate. simpl.
  generalize (normalizeCandidate (MisconceptionCandidate_Text c)). intros n.
  destruct (decide (n = "")) as [Heq|Hne]; case_decide; done.
Qed.

Lemma collect_failures_fold values index groups :
  collect_failures index groups values = foldl add_occurrence groups (occurrences index values).
Proof.
  revert index groups. induction values as [|e values IH]; intros index groups; simpl; [done|].
  rewrite IH, foldl_app. f_equal. destruct (failing e); [apply collect_candidates_fold|done].
Qed.

(** What a group holds: everything that has its key. *)
Definition group_of (occs : list occurrence) : option collected :=
  match occs with
  | [] => None
  | o :: _ => Some (mkCollected (occ_candidate o) (occ_rubric o) (occ_evidence <$> occs) []
                (from_option occ_index 0%nat (last occs)))
  end.

Definition with_key (k : string) (occs : list occurrence) : list occurrence :=
  filter (fun o => occ_key o = k) occs.

Lemma group_of_snoc occs o :
  occs ≠ [] →
  group_of (occs ++ [o]) = (fun g => mkCollected (col_candidate g) (col_rubric g)
    (col_failures g ++ [occ_evidence o]) (col_counters g) (occ_index o)) <$> group_of occs.
Proof.
  destruct occs as [|x occs]; [done|]. intros _. simpl. rewrite fmap_app. simpl.
  change (x :: occs ++ [o]) with ((x :: occs) ++ [o]). by rewrite last_snoc.
Qed.

Lemma add_occurrence_lookup occs k :
  foldl add_occurrence ∅ occs !! k = group_of (with_key k occs).
Proof.
  induction occs as [|o occs IH] using rev_ind; [done|].
  rewrite foldl_app. unfold with_key in *. rewrite filter_app. simpl.
  rewrite filter_cons, filter_nil. unfold add_occurrence at 1.
  case_decide as Hk; [rewrite <- Hk in *|].
  - rewrite lookup_insert_eq, IH.
    destruct (filter _ occs) as [|x xs] eqn:Hocc; [done|]. rewrite group_of_snoc by done. done.
  - rewrite lookup_insert_ne by done. by rewrite IH, app_nil_r.
Qed.

Lemma misconception_groups_lookup values k :
  misconception_groups values !! k = add_counters values <$> group_of (with_key k (occurrences 0 values)).
Proof.
  unfold misconception_groups. by rewrite lookup_fmap, collect_failures_fold, add_occurrence_lookup.
Qed.

(** The hypotheses are those of the groups, one for each key that occurs. *)
Lemma elem_of_reduceMisconceptions node values h :
  h ∈ reduceMisconceptions node values ↔
  ∃ k g, group_of (with_key k (occurrences 0 values)) = Some g
         ∧ h = hypothesis_of node (add_counters values g).
Proof.
  unfold reduceMisconceptions. rewrite elem_of_sort_by, list_elem_of_fmap. split.
  - intros (g & -> & Hg). apply list_elem_of_fmap in Hg as ([k g'] & -> & Hkg).
    apply elem_of_map_to_list in Hkg. rewrite misconception_groups_lookup in Hkg.
    apply fmap_Some in Hkg as (g0 & Hg0 & ->). by exists k, g0.
  - intros (k & g & Hg & ->). exists (add_counters values g). split; [done|].
    apply list_elem_of_fmap. exists (k, add_counters values g). split; [done|].
    apply elem_of_map_to_list. by rewrite misconception_groups_lookup, Hg.
Qed.

Lemma length_reduceMisconceptions node values :
  length (reduceMisconceptions node values) = size (misconception_groups values).
Proof.
  unfold reduceMisconceptions.
  by rewrite length_sort_by, !length_fmap, length_map_to_list.
Qed.

Lemma elem_of_occurrences values index o :
  o ∈ occurrences index values ↔
  ∃ i e c, values !! i = Some e ∧ failing e = true ∧ c ∈ AcceptedEvidence_Misconceptions e
    ∧ normalizeCandidate (MisconceptionCandidate_Text c) ≠ ""
    ∧ o = mkOccurrence (index + i) e (MisconceptionCandidate_RubricItemID c)
            (normalizeCandidate (MisconceptionCandidate_Text c)).
Proof.
  revert index. induction values as [|x values IH]; intros index; simpl.
  { split; [by intros ?%not_elem_of_nil|]. by intros (i & e & c & Hi & _). }
  rewrite elem_of_app, IH. split.
  - intros [Ho|(i & e & c & Hi & Hf & Hc & Hn & ->)].
    + destruct (failing x) eqn:Hx; [|by apply not_elem_of_nil in Ho].
      apply list_elem_of_filter in Ho as [Hn Ho].
      apply list_elem_of_fmap in Ho as (c & -> & Hc). exists 0%nat, x, c.
      by rewrite Nat.add_0_r.
    + exists (S i), e, c. by rewrite Nat.add_succ_r.
  - intros ([|i] & e & c & Hi & Hf & Hc & Hn & ->); simplify_eq/=.
    + left. rewrite Hf. apply list_elem_of_filter. split; [done|].
      apply list_elem_of_fmap. exists c. by rewrite Nat.add_0_r.
    + right. exists i, e, c. by rewrite Nat.add_succ_r.
Qed.

Lemma group_of_Some occs g :
  group_of occs = Some g →
  col_failures g ≠ [] ∧ col_failures g = occ_evidence <$> occs
  ∧ ∃ o, last occs = Some o ∧ col_lastFailureIndex g = occ_index o.
Proof.
  destruct occs as [|x occs]; simpl; [done|]. intros [= <-]. simpl. split_and!; [done..|].
  rewrite last_cons. destruct (last occs) as [o|]; eauto.
Qed.

Lemma elem_of_counters rubric values i e :
  e ∈ counters_of rubric (drop i values) ↔
  ∃ j, (i <= j)%nat ∧ values !! j = Some e
    ∧ ∃ r, r ∈ AcceptedEvidence_RubricOutcomes e ∧ RubricOutcome_RubricItemID r = rubric
           ∧ RubricOutcome_Conclusion r = ConclusionPass.
Proof.
  unfold counters_of. rewrite list_elem_of_filter, existsb_exists. split.
  - intros [(r & Hr & Hb) He]. bool_prop. apply list_elem_of_lookup in He as (j & Hj).
    rewrite lookup_drop in Hj. exists (i + j)%nat. split_and!; [lia|done|].
    exists r. by rewrite list_elem_of_In.
  - intros (j & Hij & Hj & r & Hr & H1 & H2). split.
    + exists r. rewrite <- list_elem_of_In. by rewrite H1, H2, !bool_decide_true.
    + apply list_elem_of_lookup. exists (j - i)%nat. rewrite lookup_drop.
      by replace (i + (j - i))%nat with j by lia.
Qed.

End Misconceptions.

(** ** The properties of the reducer *)
Section Properties.
Context `{UnicodeTables}.
#[local] Arguments normalizeCandidate : simpl never.
#[local] Opaque normalizeCandidate sha256_bytes hex_encode.

Lemma valid_evidence_Permutation node all all' invalidated :
  evidence_keyed all → all ≡ₚ all' →
  valid_evidence node all invalidated = valid_evidence node all' invalidated.
Proof.
  intros Hk Hp. unfold valid_evidence. apply SortEvidence_Permutation.
  - unfold evidence_keyed in *. eapply sublist_NoDup; [exact Hk|].
    apply fmap_sublist, sublist_filter.
  - by rewrite Hp.
Qed.

Lemma last_id_spec l x : last l = Some x → last_id l = x.
Proof.
  unfold last_id. induction l as [|y l IH] using rev_ind; [done|].
  rewrite last_snoc. intros [= ->]. by rewrite List.last_last.
Qed.

Lemma two_activities (l : list AcceptedEvidence) :
  let activities : gset string := list_to_set (AcceptedEvidence_ActivityID <$> l) in
  (2 <=? size activities)%nat = true ↔
  ∃ e f, e ∈ l ∧ f ∈ l ∧ AcceptedEvidence_ActivityID e ≠ AcceptedEvidence_ActivityID f.
Proof.
  intros X.
  assert (∀ x, x ∈ X ↔ ∃ e, e ∈ l ∧ AcceptedEvidence_ActivityID e = x) as HX.
  { intros x. unfold X. rewrite elem_of_list_to_set, list_elem_of_fmap. naive_solver. }
  clearbody X. rewrite Nat.leb_le. split.
  - intros Hs. destruct (decide (size X = 0%nat)) as [Hz|Hz]; [lia|].
    destruct (size_pos_elem_of X) as [x Hx]; [lia|].
    destruct (size_pos_elem_of (X ∖ {[x]})) as [y Hy].
    { rewrite size_difference; [rewrite size_singleton; lia|].
      by apply singleton_subseteq_l. }
    apply elem_of_difference in Hy as [Hy Hne]. rewrite elem_of_singleton in Hne.
    apply HX in Hx as (e & He & <-). apply HX in Hy as (f & Hf & <-).
    exists e, f. auto.
  - intros (e & f & He & Hf & Hne).
    transitivity (size ({[AcceptedEvidence_ActivityID e; AcceptedEvidence_ActivityID f]} : gset string)).
    + rewrite size_union, !size_singleton by by apply disjoint_singleton_l, not_elem_of_singleton.
      done.
    + apply subseteq_size. intros x [->%elem_of_singleton| ->%elem_of_singleton]%elem_of_union;
        apply HX; eauto.
Qed.

(** The status of a group, read off its failures and counter-evidence. *)
Definition status_founded (failures counters : list AcceptedEvidence)
    (status : MisconceptionStatus) : Prop :=
  match status with
  | MisconceptionResolved => spaced_recall counters
  | MisconceptionChallenged => counters ≠ []
  | MisconceptionSupported => counters = [] ∧ ∃ e f, e ∈ failures ∧ f ∈ failures
      ∧ AcceptedEvidence_ActivityID e ≠ AcceptedEvidence_ActivityID f
  | MisconceptionProposed => counters = [] ∧ ∀ e f, e ∈ failures → f ∈ failures →
      AcceptedEvidence_ActivityID e = AcceptedEvidence_ActivityID f
  | MisconceptionStatusOther _ => False
  end.

Lemma misconception_status_founded g :
  status_founded (col_failures g) (col_counters g) (misconception_status g).
Proof.
  unfold misconception_status. cbv zeta.
  destruct (retained _) eqn:Hr; [by apply retained_sound|].
  destruct (is_nil _) eqn:Hn; cbn [negb]; [|by apply is_nil_false].
  apply is_nil_true in Hn. pose proof (two_activities (col_failures g)) as H2. cbv zeta in H2.
  destruct (2 <=? size _)%nat; cbn [status_founded]; split; try done; [by apply H2|].
  intros e f He Hf. destruct (decide (AcceptedEvidence_ActivityID e = AcceptedEvidence_ActivityID f)); [done|].
  assert (false = true); [|done]. apply H2. eauto.
Qed.

Lemma hypothesis_cause node g :
  col_failures g ≠ [] →
  Some (MisconceptionHypothesis_CausedByEvidenceID (hypothesis_of node g))
  = AcceptedEvidence_ID <$> last (col_failures g ++ col_counters g).
Proof.
  intros Hne. simpl. rewrite last_app.
  destruct (last (col_counters g)) as [c|] eqn:Hc.
  - destruct (col_counters g) as [|x xs]; [done|]. simpl is_nil. cbn iota.
    transitivity (Some (AcceptedEvidence_ID c)); [|done]. f_equal.
    apply last_id_spec. by rewrite fmap_last, Hc.
  - apply last_None in Hc as ->. simpl.
    destruct (last (col_failures g)) as [e|] eqn:Hl; [|by apply last_None in Hl].
    simpl. f_equal. apply last_id_spec. by rewrite fmap_last, Hl.
Qed.

(** The failures of a group, and the place of the last one. *)
Lemma group_failures values k g :
  group_of (with_key k (occurrences 0 values)) = Some g →
  col_failures g ≠ [] ∧ values !! col_lastFailureIndex g = last (col_failures g)
  ∧ k = col_rubric g +:+ nul +:+ col_candidate g
  ∧ ∀ e, e ∈ col_failures g ↔ e ∈ values ∧ failing e = true
      ∧ ∃ c, c ∈ AcceptedEvidence_Misconceptions e
        ∧ normalizeCandidate (MisconceptionCandidate_Text c) ≠ ""
        ∧ MisconceptionCandidate_RubricItemID c +:+ nul +:+
            normalizeCandidate (MisconceptionCandidate_Text c) = k.
Proof.
  intros Hg. pose proof (group_of_Some _ _ Hg) as (Hne & Hf & o & Hlast & Hi).
  split_and!; [done|..].
  - rewrite Hf, Hi, fmap_last, Hlast. simpl.
    assert (o ∈ with_key k (occurrences 0 values)) as Ho.
    { apply last_Some in Hlast as [l ->]. apply elem_of_snoc. by right. }
    apply list_elem_of_filter in Ho as [_ Ho].
    apply elem_of_occurrences in Ho as (i & e & c & Hi' & _ & _ & _ & ->). done.
  - destruct (with_key k _) as [|x xs] eqn:Hw; [done|]. injection Hg as <-. simpl.
    assert (x ∈ with_key k (occurrences 0 values)) as Hx by (rewrite Hw; apply list_elem_of_here).
    by apply list_elem_of_filter in Hx as [<- _].
  - intros e. rewrite Hf, list_elem_of_fmap. split.
    + intros (o' & -> & Ho). apply list_elem_of_filter in Ho as [Hk Ho].
      apply elem_of_occurrences in Ho as (i & e & c & Hi' & Hfe & Hc & Hn & ->).
      simpl. split_and!; [by eapply list_elem_of_lookup_2|done|]. by exists c.
    + intros (He & Hfe & c & Hc & Hn & Hk). apply list_elem_of_lookup in He as [i Hi'].
      eexists. split; [|apply list_elem_of_filter; split; [|apply elem_of_occurrences;
        by exists i, e, c]]; done.
Qed.

(** What the reduction of a node depends on. *)
Lemma ReduceNode_ext node all all' invalidated invalidated' pending pending' :
  evidence_keyed all → all ≡ₚ all' → pending ≡ₚ pending' →
  (∀ e, e ∈ all → AcceptedEvidence_NodeRevisionID e = node →
     invalidated !! AcceptedEvidence_ID e = invalidated' !! AcceptedEvidence_ID e) →
  ReduceNode node all invalidated pending = ReduceNode node all' invalidated' pending'.
Proof.
  intros Hk Hall Hp Hinv. unfold ReduceNode.
  assert (valid_evidence node all invalidated = valid_evidence node all' invalidated') as <-.
  { rewrite <- (valid_evidence_Permutation _ _ _ _ Hk Hall). unfold valid_evidence. f_equal.
    clear Hk Hall. induction all as [|e all IH]; [done|]. rewrite !filter_cons, IH.
    2:{ intros x Hx. apply Hinv. by apply list_elem_of_further. }
    destruct (decide (AcceptedEvidence_NodeRevisionID e = node)) as [Hn|Hn].
    - assert (invalidated !! AcceptedEvidence_ID e = invalidated' !! AcceptedEvidence_ID e) as He
        by (apply Hinv; [apply list_elem_of_here | done]).
      repeat case_decide; try done; naive_solver congruence.
    - by rewrite !decide_False by naive_solver. }
  assert (is_nil pending = is_nil pending') as Hnil.
  { destruct pending, pending'; try done.
    - by apply Permutation_nil_l in Hp.
    - by apply Permutation_nil_r in Hp. }
  assert (length pending = length pending') as Hlen by by rewrite Hp.
  assert (sort_strings (pending ≫= PendingAssessment_Reasons)
          = sort_strings (pending' ≫= PendingAssessment_Reasons)) as Hreasons
    by (apply sort_strings_Permutation; by rewrite Hp).
  by rewrite <- Hnil, <- Hlen, Hreasons.
Qed.

(** Reducing a node does not depend on the order in which its evidence and
    its pending assessments were read, when records have distinct
    identifiers: the projection can be rebuilt from any enumeration. *)
Theorem ReduceNode_order_free node all all' invalidated pending pending' :
  evidence_keyed all → all ≡ₚ all' → pending ≡ₚ pending' →
  ReduceNode node all invalidated pending = ReduceNode node all' invalidated pending'.
Proof. intros Hk Hall Hp. by apply ReduceNode_ext. Qed.

(** C14. The mastery of a node: it counts the valid evidence by kind, outcome
    and help; without a pending assessment the state is the baseline, with one
    it is provisional; the baseline is unseen exactly without evidence, and
    retained only on spaced recall of two activities at least 24 hours apart
    with no failure since the first, always so when evidence is in order of
    reception. *)
Theorem ReduceNode_mastery node all invalidated pending :
  let values := valid_evidence node all invalidated in
  let m := NodeReduction_Mastery (ReduceNode node all invalidated pending) in
  let count (P : AcceptedEvidence → Prop) `{∀ e, Decision (P e)} :=
    Z.of_nat (length (filter P values)) in
  MasteryProjection_ValidEvidenceCount m = Z.of_nat (length values)
  ∧ (∀ k, default 0 (MasteryProjection_Kinds m !! k) = count (fun e => AcceptedEvidence_Kind e = k))
  ∧ (∀ o, default 0 (MasteryProjection_Outcomes m !! o) = count (fun e => AcceptedEvidence_Outcome e = o))
  ∧ (∀ h, default 0 (MasteryProjection_Help m !! h) = count (fun e => AcceptedEvidence_Help e = h))
  ∧ MasteryProjection_LastEvidenceAt m = AcceptedEvidence_ReceivedAt <$> last values
  ∧ MasteryProjection_State m
    = (if decide (pending = []) then MasteryProjection_BaselineState m else MasteryProvisional)
  ∧ MasteryProjection_PendingAssessments m = Z.of_nat (length pending)
  ∧ (MasteryProjection_BaselineState m = MasteryUnseen ↔ values = [])
  ∧ (MasteryProjection_BaselineState m = MasteryRetained → spaced_recall values)
  ∧ (StronglySorted received_le values → spaced_recall values →
     MasteryProjection_BaselineState m = MasteryRetained).
Proof.
  intros values m count. unfold m, ReduceNode. fold values. clear m. simpl.
  set (p0 := mkMasteryProjection _ _ _ _ _ _ _ _ _ _ _).
  destruct (count_evidence_fold values p0) as (_ & -> & -> & -> & -> & ->).
  unfold count. clearbody values. clear count.
  split_and!; simpl; try (intros k; rewrite increments_lookup, lookup_empty; simpl; lia).
  - lia.
  - by destruct (last values).
  - by destruct pending.
  - by destruct pending.
  - unfold baseline_state. destruct (retained values) eqn:Hr.
    + split; [done|]. intros ->. discriminate Hr.
    + destruct values; naive_solver.
  - unfold baseline_state. destruct (retained values) eqn:Hr; [|by destruct values].
    intros _. by apply retained_sound.
  - intros Hs Hr. unfold baseline_state. by rewrite retained_complete.
Qed.

(** The review schedule of a node: there is one exactly when recall was
    ever practised; its step stays on the five-rung ladder, it is due one
    interval after a recall, and it can only stand at a rung when the sum of
    the intervals below has passed since some recall; a recall that fails or
    needs more than a hint restarts the ladder. *)
Theorem ReduceNode_review node all invalidated pending :
  let values := valid_evidence node all invalidated in
  schedule_ok node values (NodeReduction_Review (ReduceNode node all invalidated pending))
  ∧ ∀ init e, values = init ++ [e] → recall_kind e = true → resets e = true →
      NodeReduction_Review (ReduceNode node all invalidated pending)
      = Some (new_schedule node e).
Proof.
  intros values. simpl. fold values. split; [apply reduceReview_ok|].
  intros init e -> Hk Hr. unfold reduceReview. rewrite foldl_app. simpl.
  unfold review_step. rewrite Hk, Hr. simpl. by destruct (foldl _ _ _).
Qed.

(** Every misconception hypothesis is founded: its sources are the failing
    records that voiced it, at least one; its counter-evidence is later evidence
    that passed the same rubric item after the last of them; its status follows
    from these, and it names the record that caused it. *)
Theorem misconceptions_founded node all invalidated pending h :
  let values := valid_evidence node all invalidated in
  h ∈ NodeReduction_Misconceptions (ReduceNode node all invalidated pending) →
  ∃ failures counters i,
    failures ≠ [] ∧ values !! i = last failures
    ∧ (∀ e, e ∈ failures → e ∈ values ∧ failing e = true
        ∧ ∃ c, c ∈ AcceptedEvidence_Misconceptions e
          ∧ MisconceptionCandidate_RubricItemID c +:+ nul +:+
              normalizeCandidate (MisconceptionCandidate_Text c)
            = MisconceptionHypothesis_RubricItemID h +:+ nul +:+ MisconceptionHypothesis_Candidate h)
    ∧ (∀ e, e ∈ counters ↔ ∃ j, (i < j)%nat ∧ values !! j = Some e
        ∧ ∃ r, r ∈ AcceptedEvidence_RubricOutcomes e
          ∧ RubricOutcome_RubricItemID r = MisconceptionHypothesis_RubricItemID h
          ∧ RubricOutcome_Conclusion r = ConclusionPass)
    ∧ MisconceptionHypothesis_SourceEvidenceIDs h = AcceptedEvidence_ID <$> failures
    ∧ MisconceptionHypothesis_CounterEvidenceIDs h = AcceptedEvidence_ID <$> counters
    ∧ Some (MisconceptionHypothesis_CausedByEvidenceID h)
      = AcceptedEvidence_ID <$> last (failures ++ counters)
    ∧ status_founded failures counters (MisconceptionHypothesis_Status h).
Proof.
  intros values Hh. simpl in Hh. fold values in Hh. clearbody values.
  apply elem_of_reduceMisconceptions in Hh as (k & g & Hg & ->).
  destruct (group_failures _ _ _ Hg) as (Hne & Hi & -> & Hf).
  set (g' := add_counters values g).
  exists (col_failures g'), (col_counters g'), (col_lastFailureIndex g).
  split_and!; [done|done| | |done..| | ].
  - intros e He. apply Hf in He as (? & ? & c & ? & _ & ?). split_and!; [done..|]. by exists c.
  - apply elem_of_counters.
  - by apply hypothesis_cause.
  - apply misconception_status_founded.
Qed.

(** No misconception is lost: a failing record that voices one is a source
    of a hypothesis about it. *)
Theorem misconceptions_complete node all invalidated pending e c :
  let values := valid_evidence node all invalidated in
  e ∈ values → failing e = true → c ∈ AcceptedEvidence_Misconceptions e →
  normalizeCandidate (MisconceptionCandidate_Text c) ≠ "" →
  ∃ h, h ∈ NodeReduction_Misconceptions (ReduceNode node all invalidated pending)
    ∧ AcceptedEvidence_ID e ∈ MisconceptionHypothesis_SourceEvidenceIDs h
    ∧ MisconceptionHypothesis_RubricItemID h +:+ nul +:+ MisconceptionHypothesis_Candidate h
      = MisconceptionCandidate_RubricItemID c +:+ nul +:+
          normalizeCandidate (MisconceptionCandidate_Text c).
Proof.
  intros values He Hf Hc Hn. simpl. fold values. clearbody values.
  set (k := MisconceptionCandidate_RubricItemID c +:+ nul +:+ _).
  destruct (group_of (with_key k (occurrences 0 values))) as [g|] eqn:Hg.
  - destruct (group_failures _ _ _ Hg) as (_ & _ & Hk & Hfs).
    exists (hypothesis_of node (add_counters values g)). split_and!.
    + apply elem_of_reduceMisconceptions. by exists k, g.
    + simpl. apply list_elem_of_fmap_2, Hfs. split_and!; [done..|]. by exists c.
    + simpl. by rewrite <- Hk.
  - exfalso. apply list_elem_of_lookup in He as [i Hi].
    assert (mkOccurrence (0 + i) e (MisconceptionCandidate_RubricItemID c)
        (normalizeCandidate (MisconceptionCandidate_Text c)) ∈ with_key k (occurrences 0 values)) as Ho.
    { apply list_elem_of_filter. split; [done|]. apply elem_of_occurrences. by exists i, e, c. }
    destruct (with_key k _); [by apply not_elem_of_nil in Ho | done].
Qed.
End Properties.

(** ** Witnesses *)
Definition sample_evidence (id activity : string) (outcome : Outcome) (at_ seq : Z)
    (mis : list MisconceptionCandidate) (rub : list RubricOutcome) : AcceptedEvidence :=
  mkAcceptedEvidence id "" "" "" activity 1 "" "" "" "node-1" "" EvidencePracticeRecall
    ActivityOpen outcome HelpNone at_ seq "" "" "" mis rub.

(** A failure that voices a misconception, then two passes two days apart. *)
Definition sample_all : list AcceptedEvidence :=
  [ sample_evidence "e-3" "act-3" OutcomePass (96 * hour) 3 [] [mkRubricOutcome "r-1" ConclusionPass];
    sample_evidence "e-1" "act-1" OutcomeFail 0 1 [mkMisconceptionCandidate "r-1" " Mass  IS weight"] [];
    sample_evidence "e-2" "act-2" OutcomePass (48 * hour) 2 [] [mkRubricOutcome "r-1" ConclusionPass] ].

Definition sample_reduction : NodeReduction :=
  ReduceNode (H := ascii_tables) "node-1" sample_all ∅ [].

Lemma ReduceNode_order_free_witness :
  sample_reduction = ReduceNode (H := ascii_tables) "node-1" (rev sample_all) ∅ [].
Proof.
  apply (ReduceNode_order_free (H := ascii_tables)); [|simpl; solve_Permutation|done].
  unfold evidence_keyed. apply (bool_decide_unpack _). vm_compute. exact I.
Defined.

Lemma ReduceNode_mastery_witness :
  StronglySorted received_le (valid_evidence "node-1" sample_all ∅)
  ∧ MasteryProjection_State (NodeReduction_Mastery sample_reduction) = MasteryRetained.
Proof.
  assert (StronglySorted received_le (valid_evidence "node-1" sample_all ∅)) as Hs.
  { vm_compute. repeat constructor; vm_compute; discriminate. }
  split; [exact Hs|].
  pose proof (ReduceNode_mastery (H := ascii_tables) "node-1" sample_all ∅ [])
    as (_ & _ & _ & _ & _ & Hst & _ & _ & _ & Hret).
  cbv zeta in Hst, Hret. etransitivity; [exact Hst|]. apply Hret; [exact Hs|].
  apply retained_sound. vm_compute. reflexivity.
Defined.

Lemma ReduceNode_review_witness :
  schedule_ok "node-1" (valid_evidence "node-1" sample_all ∅)
    (NodeReduction_Review sample_reduction)
  ∧ ReviewSchedule_Step <$> NodeReduction_Review sample_reduction = Some 1.
Proof.
  split; [|vm_compute; reflexivity].
  apply (ReduceNode_review (H := ascii_tables) "node-1" sample_all ∅ []).
Defined.

Definition sample_hypothesis : MisconceptionHypothesis :=
  List.hd (mkMisconceptionHypothesis "" 0 "" "" "" "" MisconceptionProposed [] [] "")
    (NodeReduction_Misconceptions sample_reduction).

Lemma elem_of_hd {A} (d : A) l : l ≠ [] → List.hd d l ∈ l.
Proof. destruct l; [done|]. intros _. apply list_elem_of_here. Qed.

Lemma misconceptions_founded_witness :
  MisconceptionHypothesis_Status sample_hypothesis = MisconceptionResolved
  ∧ ∃ counters, MisconceptionHypothesis_CounterEvidenceIDs sample_hypothesis
                = AcceptedEvidence_ID <$> counters ∧ spaced_recall counters.
Proof.
  assert (MisconceptionHypothesis_Status sample_hypothesis = MisconceptionResolved) as Hst
    by (vm_compute; reflexivity).
  split; [exact Hst|].
  destruct (misconceptions_founded (H := ascii_tables) "node-1" sample_all ∅ [] sample_hypothesis)
    as (failures & counters & i & _ & _ & _ & _ & _ & Hc & _ & Hs).
  - apply elem_of_hd. vm_compute. discriminate.
  - exists counters. split; [exact Hc|]. rewrite Hst in Hs. exact Hs.
Defined.

Lemma misconceptions_complete_witness :
  ∃ h, h ∈ NodeReduction_Misconceptions sample_reduction
    ∧ "e-1" ∈ MisconceptionHypothesis_SourceEvidenceIDs h.
Proof.
  destruct (misconceptions_complete (H := ascii_tables) "node-1" sample_all ∅ []
    (sample_evidence "e-1" "act-1" OutcomeFail 0 1 [mkMisconceptionCandidate "r-1" " Mass  IS weight"] [])
    (mkMisconceptionCandidate "r-1" " Mass  IS weight")) as (h & Hh & He & _).
  - apply list_elem_of_lookup. exists 0%nat. vm_compute. reflexivity.
  - reflexivity.
  - apply list_elem_of_here.
  - vm_compute. discriminate.
  - exists h. split; [exact Hh | exact He].
Defined.
