(* ===== verification/Assessment.v ===== *)
(** * Assessment of attempts

    [server/internal/learning/assessment.go]: the acceptance policy that turns
    a model's assessment of an attempt into an accepted outcome or a provisional
    one with reasons, the decisions on an assessment, and the validation of a
    human replacement. A Go loop with early [return]s is a [fold_result] over
    its body. *)
From S2P Require Import Prelude GoStd LearningDomain.

(** ** Data *)
Record Acceptance := mkAcceptance {
  Acceptance_Disposition : Disposition;
  Acceptance_Outcome : Outcome;
  Acceptance_Reasons : list string;
}.

Record DecisionCommand := mkDecisionCommand {
  DecisionCommand_Kind : string;
  DecisionCommand_ExpectedVersion : Z;
  DecisionCommand_Reason : string;
  DecisionCommand_Items : list AssessmentItem;
}.

Record DecisionEffect := mkDecisionEffect {
  DecisionEffect_Disposition : Disposition;
  DecisionEffect_Items : list AssessmentItem;
  DecisionEffect_InvalidateEvidence : bool;
  DecisionEffect_CreateEvidence : bool;
}.

(** The zero [Outcome]. *)
Definition no_outcome : Outcome := OutcomeOther "".

Definition rejected (reason : string) : error := err_reason CodeProposalRejected reason.

(** ** Helpers *)
Definition validateSlice (source : string) (byteRange : SourceRange) (quote expectedHash : string)
  : result error unit :=
  _ ← fail_if ((SourceRange_Start byteRange <? 0)
               || (SourceRange_End byteRange <=? SourceRange_Start byteRange)
               || (str_len source <? SourceRange_End byteRange))
        (ErrorNew "range out of bounds");
  let actual := str_slice source (SourceRange_Start byteRange) (SourceRange_End byteRange) in
  fail_if (negb (bool_decide (actual = quote)) || negb (bool_decide (SHA256 actual = expectedHash)))
    (ErrorNew "quote or hash mismatch").

Definition assessmentSupportMissing (byteRange : SourceRange) (quote expectedHash : string) : bool :=
  (SourceRange_Start byteRange =? 0) && (SourceRange_End byteRange =? 0)
  && bool_decide (quote = "")
  && (bool_decide (expectedHash = "") || bool_decide (expectedHash = SHA256 "")).

Fixpoint containsString (values : list string) (target : string) : bool :=
  match values with
  | [] => false
  | value :: values => if decide (value = target) then true else containsString values target
  end.

Fixpoint combine_from (result : Outcome) (values : list Outcome) : Outcome :=
  match values with
  | [] => result
  | value :: values =>
    if decide (value = OutcomeFail) then OutcomeFail
    else combine_from (if decide (value = OutcomePartial) then OutcomePartial else result) values
  end.

Definition combineOutcomes (values : list Outcome) : Outcome :=
  match values with
  | [] => no_outcome
  | _ => combine_from OutcomePass values
  end.

(** [result] never shrinks below its first element: [last_] is its last one. *)
Fixpoint unique_from (last_ : string) (values : list string) : list string :=
  match values with
  | [] => []
  | value :: values =>
    if decide (value = last_) then unique_from last_ values
    else value :: unique_from value values
  end.

Definition unique (values : list string) : list string :=
  match values with
  | [] => []
  | value :: values => value :: unique_from value values
  end.

(** ** The acceptance policy *)
Definition knownRisks : list RiskFlag :=
  [RiskIncompleteRubric; RiskInsufficientAnswerEvidence; RiskInsufficientKnowledgeSupport;
   RiskConflictingEvidence; RiskAmbiguousRubric; RiskUnsafeContent;
   RiskSchemaRepaired; RiskStaleContext; RiskRetryExhausted].

Definition target_referenced (activity : Activity) : bool :=
  existsb (fun reference =>
    bool_decide (KnowledgeReference_KnowledgeRevisionID reference = Activity_KnowledgeRevisionID activity)
    && bool_decide (KnowledgeReference_NodeID reference = Activity_TargetNodeID activity)
    && bool_decide (KnowledgeReference_NodeRevisionID reference = Activity_TargetNodeRevisionID activity))
    (Activity_References activity).

Definition immutable_mismatch (activity : Activity) (attempt : Attempt)
    (artifact : AssessmentArtifact) : bool :=
  negb (bool_decide (Attempt_ActivityID attempt = Activity_ID activity))
  || negb (Attempt_ActivityRevision attempt =? Activity_Revision activity)
  || negb (bool_decide (AssessmentArtifact_AttemptID artifact = Attempt_ID attempt))
  || negb (bool_decide (AssessmentArtifact_ActivityID artifact = Activity_ID activity))
  || negb (AssessmentArtifact_ActivityRevision artifact =? Activity_Revision activity).

(** The loop that fills [items]. *)
Definition freeze_item (items : gmap string RubricItem) (item : RubricItem)
  : result error (gmap string RubricItem) :=
  _ ← fail_if (bool_decide (RubricItem_ID item = "")
               || negb (bool_decide (default "" (RubricItem_ID <$> items !! RubricItem_ID item) = "")))
        (rejected "invalid_frozen_rubric");
  Ok (<[RubricItem_ID item := item]> items).

(** The loop that fills [refs]. *)
Definition freeze_reference (knowledgeRevision : string)
    (refs : gmap string KnowledgeReference) (ref : KnowledgeReference)
  : result error (gmap string KnowledgeReference) :=
  _ ← fail_if (bool_decide (KnowledgeReference_NodeRevisionID ref = "")
               || negb (bool_decide (KnowledgeReference_KnowledgeRevisionID ref = knowledgeRevision))
               || negb (bool_decide (default "" (KnowledgeReference_NodeRevisionID <$>
                          refs !! KnowledgeReference_NodeRevisionID ref) = "")))
        (rejected "invalid_frozen_reference");
  Ok (<[KnowledgeReference_NodeRevisionID ref := ref]> refs).

(** The variables of the loop over the assessed items. *)
Record scan := mkScan {
  scan_seen : gset string;
  scan_outcomes : list Outcome;
  scan_provisional : list string;
}.

Definition add_outcome (o : Outcome) (st : scan) : scan :=
  mkScan (scan_seen st) (scan_outcomes st ++ [o]) (scan_provisional st).
Definition add_reason (b : bool) (r : string) (st : scan) : scan :=
  if b then mkScan (scan_seen st) (scan_outcomes st) (scan_provisional st ++ [r]) else st.
Definition add_seen (id : string) (st : scan) : scan :=
  mkScan ({[id]} ∪ scan_seen st) (scan_outcomes st) (scan_provisional st).

(** The [switch] on the conclusion: [scorable] and the new variables. *)
Definition assess_conclusion (conclusion : Conclusion) (st : scan) : result error (bool * scan) :=
  match conclusion with
  | ConclusionPass => Ok (true, add_outcome OutcomePass st)
  | ConclusionPartial => Ok (true, add_outcome OutcomePartial st)
  | ConclusionFail => Ok (true, add_outcome OutcomeFail st)
  | ConclusionUnassessed => Ok (false, add_reason true "unassessed" st)
  | ConclusionOther _ => Err (rejected "unknown_conclusion")
  end.

Definition assess_answer (attempt : Attempt) (item : AssessmentItem) (scorable : bool) (st : scan)
  : result error scan :=
  if assessmentSupportMissing (AssessmentItem_AnswerRange item) (AssessmentItem_AnswerQuote item)
       (AssessmentItem_AnswerQuoteSHA256 item)
  then Ok (add_reason scorable "insufficient_answer_evidence" st)
  else
    match validateSlice (Attempt_Answer attempt) (AssessmentItem_AnswerRange item)
            (AssessmentItem_AnswerQuote item) (AssessmentItem_AnswerQuoteSHA256 item) with
    | Ok _ => Ok st
    | Err err => Err (err_cause CodeProposalRejected "invalid_answer_quote" err)
    end.

Definition assess_knowledge (activity : Activity) (refs : gmap string KnowledgeReference)
    (frozen : RubricItem) (item : AssessmentItem) (scorable : bool) (st : scan)
  : result error scan :=
  let missing := assessmentSupportMissing (AssessmentItem_KnowledgeRange item)
                   (AssessmentItem_KnowledgeQuote item) (AssessmentItem_KnowledgeQuoteSHA256 item) in
  if decide (AssessmentItem_KnowledgeReferenceID item = "") then
    _ ← fail_if (negb missing) (rejected "knowledge_reference_mismatch");
    Ok (add_reason scorable "insufficient_knowledge_support" st)
  else
    match refs !! AssessmentItem_KnowledgeReferenceID item with
    | None => Err (rejected "knowledge_reference_mismatch")
    | Some ref =>
      _ ← fail_if (negb (bool_decide (KnowledgeReference_KnowledgeRevisionID ref
                                     = Activity_KnowledgeRevisionID activity))
                   || (negb (is_nil (RubricItem_RequiredReferenceIDs frozen))
                       && negb (containsString (RubricItem_RequiredReferenceIDs frozen)
                                  (AssessmentItem_KnowledgeReferenceID item))))
            (rejected "knowledge_reference_mismatch");
      if missing then Ok (add_reason scorable "insufficient_knowledge_support" st)
      else
        match validateSlice (KnowledgeReference_Slice ref) (AssessmentItem_KnowledgeRange item)
                (AssessmentItem_KnowledgeQuote item) (AssessmentItem_KnowledgeQuoteSHA256 item) with
        | Ok _ => Ok st
        | Err err => Err (err_cause CodeProposalRejected "invalid_knowledge_quote" err)
        end
    end.

(** One iteration of the loop over the assessed items. *)
Definition assess_item (activity : Activity) (attempt : Attempt)
    (items : gmap string RubricItem) (refs : gmap string KnowledgeReference)
    (st : scan) (item : AssessmentItem) : result error scan :=
  match items !! AssessmentItem_RubricItemID item with
  | None => Err (rejected "unknown_or_duplicate_rubric_item")
  | Some frozen =>
    _ ← fail_if (bool_decide (AssessmentItem_RubricItemID item ∈ scan_seen st))
          (rejected "unknown_or_duplicate_rubric_item");
    '(scorable, st) ← assess_conclusion (AssessmentItem_Conclusion item)
                        (add_seen (AssessmentItem_RubricItemID item) st);
    _ ← fail_if (negb (bool_decide (AssessmentItem_MisconceptionCandidate item = ""))
                 && negb (bool_decide (AssessmentItem_Conclusion item = ConclusionFail))
                 && negb (bool_decide (AssessmentItem_Conclusion item = ConclusionPartial)))
          (rejected "misconception_without_failure");
    st ← assess_answer attempt item scorable st;
    assess_knowledge activity refs frozen item scorable st
  end.

(** The objective branch. *)
Definition objective_matches `{UnicodeTables} (rule : ObjectiveRule) (answer expected : string) : bool :=
  let trim s := if ObjectiveRule_TrimSpace rule then trim_space s else s in
  (negb (ObjectiveRule_CaseSensitive rule) && equal_fold (trim answer) (trim expected))
  || bool_decide (trim answer = trim expected).

Section Assessment.
Context `{UnicodeTables}.

Definition EvaluateObjective (activity : Activity) (attempt : Attempt) : result error Acceptance :=
  match Rubric_ObjectiveRule (Activity_Rubric activity) with
  | None => Err (rejected "objective_rule_missing")
  | Some rule =>
    _ ← fail_if (is_nil (ObjectiveRule_AcceptedAnswers rule)) (rejected "objective_rule_missing");
    Ok (mkAcceptance DispositionAccepted
          (if existsb (objective_matches rule (Attempt_Answer attempt))
                (ObjectiveRule_AcceptedAnswers rule)
           then OutcomePass else OutcomeFail) [])
  end.

(** The open branch up to the end of the loop over the assessed items: the
    frozen rubric and the variables of the loop. *)
Definition scan_items (activity : Activity) (attempt : Attempt) (artifact : AssessmentArtifact)
  : result error (gmap string RubricItem * scan) :=
  _ ← fail_if ((AssessmentArtifact_Confidence artifact <? 0)
               || (1000 <? AssessmentArtifact_Confidence artifact))
        (rejected "confidence_out_of_range");
  _ ← each (fun risk => fail_if (negb (bool_decide (risk ∈ knownRisks))) (rejected "unknown_risk_flag"))
        (AssessmentArtifact_RiskFlags artifact);
  let rubric := Rubric_Items (Activity_Rubric activity) in
  let st := add_reason (is_nil rubric) "incomplete_rubric" (mkScan ∅ [] []) in
  items ← fold_result freeze_item ∅ rubric;
  refs ← fold_result (freeze_reference (Activity_KnowledgeRevisionID activity)) ∅
           (Activity_References activity);
  st ← fold_result (assess_item activity attempt items refs) st (AssessmentArtifact_Items artifact);
  Ok (items, st).

(** The reasons appended after the loop. *)
Definition final_scan (artifact : AssessmentArtifact) (items : gmap string RubricItem) (st : scan) : scan :=
  let st := add_reason (negb (size (scan_seen st) =? size items)%nat
                        || negb (AssessmentArtifact_RubricComplete artifact)) "incomplete_rubric" st in
  let st := add_reason (is_nil (scan_outcomes st)) "no_scorable_items" st in
  let st := add_reason (AssessmentArtifact_Confidence artifact <? 850) "low_confidence" st in
  mkScan (scan_seen st) (scan_outcomes st)
    (scan_provisional st ++ (RiskFlag_string <$> AssessmentArtifact_RiskFlags artifact)).

Definition EvaluateOpen (activity : Activity) (attempt : Attempt) (artifact : AssessmentArtifact)
  : result error Acceptance :=
  '(items, st) ← scan_items activity attempt artifact;
  let st := final_scan artifact items st in
  if negb (is_nil (scan_provisional st))
  then Ok (mkAcceptance DispositionProvisional no_outcome
             (unique (sort_strings (scan_provisional st))))
  else
    let outcome := combineOutcomes (scan_outcomes st) in
    if decide (outcome = no_outcome)
    then Ok (mkAcceptance DispositionProvisional no_outcome ["no_scorable_items"])
    else Ok (mkAcceptance DispositionAccepted outcome []).

Definition EvaluateAssessment (activity : Activity) (attempt : Attempt)
    (artifact : AssessmentArtifact) : result error Acceptance :=
  _ ← fail_if (bool_decide (Activity_TargetNodeID activity = "")
               || bool_decide (Activity_TargetNodeRevisionID activity = ""))
        (rejected "activity_target_missing");
  _ ← fail_if (negb (target_referenced activity)) (rejected "activity_target_reference_missing");
  _ ← fail_if (immutable_mismatch activity attempt artifact) (rejected "immutable_reference_mismatch");
  if decide (Attempt_Help attempt = HelpAnswerRevealed)
  then Ok (mkAcceptance DispositionProvisional no_outcome ["answer_revealed"])
  else if decide (Activity_Type activity = ActivityObjective) then EvaluateObjective activity attempt
  else
    _ ← fail_if (negb (bool_decide (Activity_Type activity = ActivityOpen)))
          (rejected "activity_not_assessable");
    EvaluateOpen activity attempt artifact.

(** ** Decisions *)
Definition conflict (current : AssessmentDecision) (cause : option error) : error :=
  LearningError CodeAssessmentDispositionConflict "" "" 0 0 0
    (Disposition_string (AssessmentDecision_Disposition current)) "" cause.

(** One iteration of the loop of [completeReplacement]. *)
Definition replacement_item (seen : gset string) (item : AssessmentItem)
  : result error (gset string) :=
  _ ← fail_if (bool_decide (AssessmentItem_RubricItemID item = "")
      || bool_decide (AssessmentItem_RubricItemID item ∈ seen)
      || bool_decide (AssessmentItem_Conclusion item = ConclusionUnassessed)
      || (negb (bool_decide (AssessmentItem_Conclusion item = ConclusionPass))
          && negb (bool_decide (AssessmentItem_Conclusion item = ConclusionPartial))
          && negb (bool_decide (AssessmentItem_Conclusion item = ConclusionFail))))
    (err_code CodeAssessmentDispositionConflict);
  Ok ({[AssessmentItem_RubricItemID item]} ∪ seen).

Definition completeReplacement (items : list AssessmentItem) : result error unit :=
  _ ← fail_if (is_nil items) (err_code CodeAssessmentDispositionConflict);
  _ ← fold_result replacement_item ∅ items;
  Ok tt.

(** [confirmable] is the variadic argument. *)
Definition DecideAssessment (current : AssessmentDecision) (artifact : AssessmentArtifact)
    (command : DecisionCommand) (confirmable : list bool) : result error DecisionEffect :=
  _ ← fail_if (negb (DecisionCommand_ExpectedVersion command =? AssessmentDecision_Version current))
        (conflict current None);
  let invalidate := bool_decide (AssessmentDecision_ProducedEvidenceID current ≠ None) in
  let disposition := AssessmentDecision_Disposition current in
  if decide (DecisionCommand_Kind command = "confirm") then
    _ ← fail_if (negb (bool_decide (disposition = DispositionProvisional))
                 || is_nil confirmable || negb (List.hd false confirmable))
          (conflict current None);
    Ok (mkDecisionEffect DispositionAccepted (AssessmentArtifact_Items artifact) false true)
  else if decide (DecisionCommand_Kind command = "override") then
    _ ← fail_if (bool_decide (disposition = DispositionVoided)
                 || bool_decide (trim_space (DecisionCommand_Reason command) = "")
                 || is_nil (DecisionCommand_Items command))
          (conflict current None);
    match completeReplacement (DecisionCommand_Items command) with
    | Err err => Err (conflict current (Some err))
    | Ok _ => Ok (mkDecisionEffect DispositionOverridden (DecisionCommand_Items command) invalidate true)
    end
  else if decide (DecisionCommand_Kind command = "void") then
    _ ← fail_if (bool_decide (disposition = DispositionVoided)) (conflict current None);
    Ok (mkDecisionEffect DispositionVoided (AssessmentDecision_Items current) invalidate false)
  else Err (err_code CodeInvalidRequest).

Definition confirmable_reason (reason : string) : bool :=
  bool_decide (reason = "low_confidence")
  || bool_decide (reason = RiskFlag_string RiskConflictingEvidence)
  || bool_decide (reason = RiskFlag_string RiskAmbiguousRubric).

Definition ConfirmableAssessment (activity : Activity) (attempt : Attempt)
    (artifact : AssessmentArtifact) : bool :=
  if bool_decide (Attempt_Help attempt = HelpAnswerRevealed)
     || negb (AssessmentArtifact_RubricComplete artifact)
     || is_nil (Rubric_Items (Activity_Rubric activity))
     || negb (length (AssessmentArtifact_Items artifact)
              =? length (Rubric_Items (Activity_Rubric activity)))%nat
  then false
  else
    match EvaluateAssessment activity attempt artifact with
    | Err _ => false
    | Ok acceptance =>
      if negb (bool_decide (Acceptance_Disposition acceptance = DispositionProvisional)) then false
      else if negb (forallb confirmable_reason (Acceptance_Reasons acceptance)) then false
      else negb (is_nil (Acceptance_Reasons acceptance))
    end.

(** [replacement := artifact] with its four assignments. *)
Definition replacement_of (artifact : AssessmentArtifact) (items : list AssessmentItem)
  : AssessmentArtifact :=
  mkAssessmentArtifact (AssessmentArtifact_ID artifact) (AssessmentArtifact_SessionID artifact)
    (AssessmentArtifact_AttemptID artifact) (AssessmentArtifact_ActivityID artifact)
    (AssessmentArtifact_ActivityRevision artifact) items true 1000 []
    (AssessmentArtifact_ModelID artifact) (AssessmentArtifact_ModelParameters artifact)
    (AssessmentArtifact_PromptRevision artifact) (AssessmentArtifact_ProposalInputHash artifact)
    (AssessmentArtifact_Attempts artifact) (AssessmentArtifact_AttemptCategories artifact)
    (AssessmentArtifact_CreatedAt artifact) (AssessmentArtifact_EvidenceEligibility artifact)
    (AssessmentArtifact_EvidenceIneligibleReason artifact).

Definition ValidateAssessmentReplacement (activity : Activity) (attempt : Attempt)
    (artifact : AssessmentArtifact) (items : list AssessmentItem) : result error Outcome :=
  _ ← fail_if (bool_decide (Activity_Type activity = ActivityObjective))
        (err_reason CodeAssessmentDispositionConflict "objective_assessment_is_deterministic");
  acceptance ← EvaluateAssessment activity attempt (replacement_of artifact items);
  _ ← fail_if (negb (bool_decide (Acceptance_Disposition acceptance = DispositionAccepted))
               || bool_decide (Acceptance_Outcome acceptance = no_outcome))
        (err_code CodeAssessmentDispositionConflict);
  Ok (Acceptance_Outcome acceptance).
End Assessment.

(** ** The frozen rubric and references *)

(** The map of the elements of [l] by their keys. *)
Definition keyed {A} (key : A → string) (l : list A) : gmap string A :=
  foldl (fun m x => <[key x := x]> m) ∅ l.

Section Keyed.
Context {A : Type} (key : A → string) (ok : A → bool) (e : error).

(** Keys that are all valid and distinct. *)
Definition well_keyed (l : list A) : Prop :=
  Forall (fun x => key x ≠ "" ∧ ok x = true) l ∧ NoDup (key <$> l).

Definition keyed_insert (m : gmap string A) (x : A) : result error (gmap string A) :=
  _ ← fail_if (bool_decide (key x = "") || negb (ok x)
               || negb (bool_decide (default "" (key <$> m !! key x) = ""))) e;
  Ok (<[key x := x]> m).

Lemma keyed_lookup l k x :
  NoDup (key <$> l) → keyed key l !! k = Some x ↔ x ∈ l ∧ key x = k.
Proof using Type.
  clear ok e.
  unfold keyed. induction l as [|y l IH] using rev_ind; intros Hnd.
  { cbn [foldl]. rewrite lookup_empty. split; [done|]. by intros [?%not_elem_of_nil _]. }
  rewrite fmap_app in Hnd. apply NoDup_app in Hnd as (Hnd & Hy & _).
  rewrite foldl_app. simpl. rewrite elem_of_app, list_elem_of_singleton.
  destruct (decide (key y = k)) as [<-|Hne].
  - rewrite lookup_insert_eq. split; [intros [= <-]; by split; [right|]|].
    intros [[Hx| ->] Hk]; [|done]. exfalso. apply (Hy (key y)); [|simpl; by left].
    rewrite <- Hk. by apply list_elem_of_fmap_2.
  - rewrite lookup_insert_ne by done. rewrite IH by done. naive_solver.
Qed.

Lemma keyed_lookup_None l k :
  keyed key l !! k = None ↔ k ∉ key <$> l.
Proof using Type.
  clear ok e.
  unfold keyed. induction l as [|y l IH] using rev_ind; [set_solver|].
  rewrite foldl_app, fmap_app. simpl. rewrite lookup_insert_None, IH. set_solver.
Qed.

Lemma keyed_size l : NoDup (key <$> l) → size (keyed key l) = length l.
Proof using Type.
  clear ok e.
  unfold keyed. induction l as [|y l IH] using rev_ind; intros Hnd; [done|].
  rewrite fmap_app in Hnd. apply NoDup_app in Hnd as (Hnd & Hy & _).
  rewrite foldl_app, length_app. simpl. rewrite map_size_insert_None, IH by
    (try done; apply keyed_lookup_None; intros Hin; apply (Hy _ Hin); simpl; by left). lia.
Qed.

Lemma keyed_fold l m :
  fold_result keyed_insert ∅ l = Ok m ↔ well_keyed l ∧ m = keyed key l.
Proof using Type.
  revert m. induction l as [|x l IH] using rev_ind; intros m.
  { simpl. unfold well_keyed. split; [intros [= <-]|intros [_ ->]]; [|done].
    repeat constructor. }
  rewrite fold_result_app, bind_Ok. setoid_rewrite IH.
  unfold well_keyed. rewrite fmap_app, Forall_app, NoDup_app, Forall_singleton.
  unfold keyed at 2. rewrite foldl_app. simpl. fold (keyed key l).
  assert (NoDup (key <$> l) → key x ≠ "" → Forall (fun x => key x ≠ "" ∧ ok x = true) l →
    default "" (key <$> keyed key l !! key x) = "" ↔ key x ∉ key <$> l) as Hfresh.
  { intros Hnd Hx Hall. rewrite <- keyed_lookup_None.
    destruct (keyed key l !! key x) as [y|] eqn:Hl; simpl; [|done].
    apply keyed_lookup in Hl as [_ Hy]; [|done]. rewrite Hy. split; done. }
  split.
  - intros (m' & [[Hall Hnd] ->] & Hm). unfold keyed_insert in Hm.
    apply bind_Ok in Hm as (m1 & Hm & [= <-]). apply bind_Ok in Hm as (u & Hf & [= <-]).
    apply fail_if_Ok in Hf. bool_prop.
    split; [|done]. split_and!; [done..| |].
    + intros k Hk ->%list_elem_of_singleton. by apply Hfresh in Hk.
    + apply NoDup_singleton.
  - intros [[[Hall [Hx Hok]] (Hnd & Hdis & _)] ->]. exists (keyed key l). split; [done|].
    unfold keyed_insert. rewrite bool_decide_false by done. rewrite Hok.
    rewrite bool_decide_true; [done|]. apply Hfresh; [done..|].
    intros Hin. apply (Hdis _ Hin). simpl. by left.
Qed.
End Keyed.

Definition item_ok (item : RubricItem) : bool := true.
Definition reference_ok (knowledgeRevision : string) (ref : KnowledgeReference) : bool :=
  bool_decide (KnowledgeReference_KnowledgeRevisionID ref = knowledgeRevision).

Lemma fold_result_ext {E A B} (f g : B → A → result E B) l acc :
  (∀ acc x, f acc x = g acc x) → fold_result f acc l = fold_result g acc l.
Proof.
  intros Hfg. revert acc. induction l as [|x l IH]; intros acc; simpl; [done|].
  rewrite Hfg. destruct (g acc x); simpl; [apply IH | done].
Qed.

(** A rubric and references the policy accepts as frozen. *)
Definition frozen_rubric (activity : Activity) : Prop :=
  well_keyed RubricItem_ID item_ok (Rubric_Items (Activity_Rubric activity)).
Definition frozen_references (activity : Activity) : Prop :=
  well_keyed KnowledgeReference_NodeRevisionID
    (reference_ok (Activity_KnowledgeRevisionID activity)) (Activity_References activity).

Definition rubric_map (activity : Activity) : gmap string RubricItem :=
  keyed RubricItem_ID (Rubric_Items (Activity_Rubric activity)).
Definition reference_map (activity : Activity) : gmap string KnowledgeReference :=
  keyed KnowledgeReference_NodeRevisionID (Activity_References activity).

Lemma freeze_items_Ok activity m :
  fold_result freeze_item ∅ (Rubric_Items (Activity_Rubric activity)) = Ok m
  ↔ frozen_rubric activity ∧ m = rubric_map activity.
Proof.
  rewrite (fold_result_ext _ (keyed_insert RubricItem_ID item_ok (rejected "invalid_frozen_rubric"))).
  - apply keyed_fold.
  - intros acc x. unfold freeze_item, keyed_insert, item_ok. simpl. by rewrite orb_false_r.
Qed.

Lemma freeze_references_Ok activity m :
  fold_result (freeze_reference (Activity_KnowledgeRevisionID activity)) ∅
    (Activity_References activity) = Ok m
  ↔ frozen_references activity ∧ m = reference_map activity.
Proof.
  rewrite (fold_result_ext _ (keyed_insert KnowledgeReference_NodeRevisionID
    (reference_ok (Activity_KnowledgeRevisionID activity)) (rejected "invalid_frozen_reference"))).
  - apply keyed_fold.
  - done.
Qed.

(** ** Evidenced items *)

Definition conclusion_outcome (c : Conclusion) : option Outcome :=
  match c with
  | ConclusionPass => Some OutcomePass
  | ConclusionPartial => Some OutcomePartial
  | ConclusionFail => Some OutcomeFail
  | _ => None
  end.

(** A quotation: a non-empty range of the source, the text in it, and the
    SHA-256 of that text. *)
Definition quotes (source : string) (range : SourceRange) (quote hash : string) : Prop :=
  0 <= SourceRange_Start range
  ∧ SourceRange_Start range < SourceRange_End range <= str_len source
  ∧ str_slice source (SourceRange_Start range) (SourceRange_End range) = quote
  ∧ SHA256 quote = hash.

(** A scored conclusion on a frozen rubric item, quoted from the answer and
    from a reference of the activity that the rubric item allows. *)
Definition item_evidenced (activity : Activity) (attempt : Attempt) (item : AssessmentItem) : Prop :=
  is_Some (conclusion_outcome (AssessmentItem_Conclusion item))
  ∧ (AssessmentItem_MisconceptionCandidate item ≠ "" →
     AssessmentItem_Conclusion item ≠ ConclusionPass)
  ∧ quotes (Attempt_Answer attempt) (AssessmentItem_AnswerRange item)
      (AssessmentItem_AnswerQuote item) (AssessmentItem_AnswerQuoteSHA256 item)
  ∧ AssessmentItem_KnowledgeReferenceID item ≠ ""
  ∧ ∃ frozen ref,
      rubric_map activity !! AssessmentItem_RubricItemID item = Some frozen
      ∧ reference_map activity !! AssessmentItem_KnowledgeReferenceID item = Some ref
      ∧ KnowledgeReference_KnowledgeRevisionID ref = Activity_KnowledgeRevisionID activity
      ∧ (RubricItem_RequiredReferenceIDs frozen = []
         ∨ AssessmentItem_KnowledgeReferenceID item ∈ RubricItem_RequiredReferenceIDs frozen)
      ∧ quotes (KnowledgeReference_Slice ref) (AssessmentItem_KnowledgeRange item)
          (AssessmentItem_KnowledgeQuote item) (AssessmentItem_KnowledgeQuoteSHA256 item).

(** The reasons the loop over the items can add. *)
Definition loop_reasons : list string :=
  ["unassessed"; "insufficient_answer_evidence"; "insufficient_knowledge_support"].

Lemma validateSlice_Ok source range quote hash :
  validateSlice source range quote hash = Ok tt ↔ quotes source range quote hash.
Proof.
  unfold validateSlice, quotes. rewrite guard_Ok, fail_if_Ok, !orb_false_iff, !negb_false_iff,
    !bool_decide_eq_true, !Z.ltb_ge, Z.leb_gt. naive_solver.
Qed.

(** A valid quote is not a missing one. *)
Lemma quotes_not_missing source range quote hash :
  quotes source range quote hash → assessmentSupportMissing range quote hash = false.
Proof.
  unfold quotes, assessmentSupportMissing. intros (? & ? & _).
  apply andb_false_iff. left. apply andb_false_iff. left.
  apply andb_false_iff. rewrite !Z.eqb_neq. lia.
Qed.

Lemma containsString_spec values target :
  containsString values target = true ↔ target ∈ values.
Proof.
  induction values as [|v values IH]; simpl; [split; [done|by intros ?%not_elem_of_nil]|].
  rewrite elem_of_cons. case_decide as Hv; [naive_solver|]. rewrite IH. naive_solver.
Qed.

(** [st'] extends [st] with the reasons [rs]. *)
Definition extends (st st' : scan) (rs : list string) : Prop :=
  scan_provisional st' = scan_provisional st ++ rs ∧ Forall (fun r => r ∈ loop_reasons) rs.

Lemma extends_trans st st1 st2 rs1 rs2 :
  extends st st1 rs1 → extends st1 st2 rs2 → extends st st2 (rs1 ++ rs2).
Proof.
  intros [H1 H1'] [H2 H2']. split; [by rewrite H2, H1, app_assoc | by apply Forall_app].
Qed.

Lemma extends_reason b r st : r ∈ loop_reasons → extends st (add_reason b r st) (if b then [r] else []).
Proof.
  intros Hr. destruct b; split; simpl; [done|by constructor|by rewrite app_nil_r|constructor].
Qed.

Lemma assess_conclusion_Ok c st scorable st' :
  assess_conclusion c st = Ok (scorable, st') →
  ∃ rs, extends st st' rs ∧ scan_seen st' = scan_seen st
    ∧ (rs = [] → scorable = true ∧ ∃ o, conclusion_outcome c = Some o ∧ st' = add_outcome o st).
Proof.
  intros Hc. destruct c; simpl in Hc; simplify_eq.
  1-3: exists []; split_and!; [split; simpl; [by rewrite app_nil_r | constructor]|done|eauto].
  exists ["unassessed"]. split_and!; [apply (extends_reason true); left|done|done].
Qed.

Lemma assess_answer_Ok attempt item scorable st st' :
  assess_answer attempt item scorable st = Ok st' →
  ∃ rs, extends st st' rs ∧ scan_seen st' = scan_seen st
    ∧ (scorable = true → rs = [] → st' = st
        ∧ quotes (Attempt_Answer attempt) (AssessmentItem_AnswerRange item)
            (AssessmentItem_AnswerQuote item) (AssessmentItem_AnswerQuoteSHA256 item)).
Proof.
  unfold assess_answer. destruct (assessmentSupportMissing _ _ _).
  - intros [= <-]. eexists. split_and!; [apply extends_reason; right; left| |].
    + by destruct scorable.
    + by intros ->.
  - destruct (validateSlice _ _ _ _) as [[]|] eqn:Hv; [|done]. intros [= <-].
    apply validateSlice_Ok in Hv.
    exists []. split_and!; [split; [by rewrite app_nil_r|constructor]|done|done].
Qed.

Lemma assess_knowledge_Ok activity frozen item scorable st st' :
  assess_knowledge activity (reference_map activity) frozen item scorable st = Ok st' →
  ∃ rs, extends st st' rs ∧ scan_seen st' = scan_seen st
    ∧ (scorable = true → rs = [] → st' = st ∧ AssessmentItem_KnowledgeReferenceID item ≠ ""
        ∧ ∃ ref, reference_map activity !! AssessmentItem_KnowledgeReferenceID item = Some ref
          ∧ KnowledgeReference_KnowledgeRevisionID ref = Activity_KnowledgeRevisionID activity
          ∧ (RubricItem_RequiredReferenceIDs frozen = []
             ∨ AssessmentItem_KnowledgeReferenceID item ∈ RubricItem_RequiredReferenceIDs frozen)
          ∧ quotes (KnowledgeReference_Slice ref) (AssessmentItem_KnowledgeRange item)
              (AssessmentItem_KnowledgeQuote item) (AssessmentItem_KnowledgeQuoteSHA256 item)).
Proof.
  unfold assess_knowledge. cbv zeta. set (missing := assessmentSupportMissing _ _ _).
  assert (∀ b, Ok (E:=error) (add_reason b "insufficient_knowledge_support" st) = Ok st' →
    ∃ rs, extends st st' rs ∧ scan_seen st' = scan_seen st ∧ (b = true → rs ≠ [])) as Hadd.
  { intros b [= <-]. eexists. split_and!; [apply extends_reason; do 2 right; left| |].
    - by destruct b.
    - by intros ->. }
  case_decide as Href.
  { intros H. apply bind_Ok in H as (u & _ & H).
    destruct (Hadd _ H) as (rs & ? & ? & Hrs). exists rs. split_and!; [done..|].
    intros Hs Hnil. by destruct (Hrs Hs). }
  destruct (reference_map activity !! _) as [ref|]; [|done].
  intros H. apply bind_Ok in H as (u & Hg & H). apply fail_if_Ok in Hg. bool_prop.
  destruct missing.
  { destruct (Hadd _ H) as (rs & ? & ? & Hrs). exists rs. split_and!; [done..|].
    intros Hs Hnil. by destruct (Hrs Hs). }
  destruct (validateSlice _ _ _ _) as [[]|] eqn:Hv; [|done]. injection H as <-. apply validateSlice_Ok in Hv.
  exists []. split_and!; [split; [by rewrite app_nil_r|constructor]|done|].
  intros _ _. split_and!; [done..|]. exists ref. split_and!; [done..| |done].
  destruct (is_nil _) eqn:Hnil; [left; by apply is_nil_true|]. simpl in *. bool_prop.
  right. by apply containsString_spec.
Qed.

(** One item: the reasons it adds, and what it shows when it adds none. *)
Lemma assess_item_Ok activity attempt st st' item :
  assess_item activity attempt (rubric_map activity) (reference_map activity) st item = Ok st' →
  ∃ rs, extends st st' rs
    ∧ AssessmentItem_RubricItemID item ∉ scan_seen st
    ∧ is_Some (rubric_map activity !! AssessmentItem_RubricItemID item)
    ∧ scan_seen st' = {[AssessmentItem_RubricItemID item]} ∪ scan_seen st
    ∧ (rs = [] → item_evidenced activity attempt item
        ∧ ∃ o, conclusion_outcome (AssessmentItem_Conclusion item) = Some o
               ∧ scan_outcomes st' = scan_outcomes st ++ [o]).
Proof.
  unfold assess_item. destruct (rubric_map activity !! _) as [frozen|] eqn:Hfrozen; [|done].
  intros H. apply bind_Ok in H as (u1 & Hseen & H). apply fail_if_Ok in Hseen. bool_prop.
  apply bind_Ok in H as ([scorable st1] & Hcon & H).
  apply bind_Ok in H as (u2 & Hmis & H). apply fail_if_Ok in Hmis.
  apply bind_Ok in H as (st2 & Hans & Hkno).
  apply assess_conclusion_Ok in Hcon as (r1 & E1 & S1 & C1).
  apply assess_answer_Ok in Hans as (r2 & E2 & S2 & C2).
  apply assess_knowledge_Ok in Hkno as (r3 & E3 & S3 & C3).
  exists ((r1 ++ r2) ++ r3). split_and!; try done.
  - eapply extends_trans; [eapply extends_trans|]; [|exact E2|exact E3]. exact E1.
  - by rewrite S3, S2, S1.
  - intros Hnil. apply app_eq_nil in Hnil as [[-> ->]%app_eq_nil ->].
    destruct (C1 eq_refl) as (-> & o & Ho & ->). destruct (C2 eq_refl eq_refl) as [-> Hv].
    destruct (C3 eq_refl eq_refl) as (-> & Hne & ref & Hk). split; [|by exists o].
    split_and!; [done| |done|done|].
    + intros Hm Hp. rewrite Hp in Hmis. by rewrite bool_decide_false in Hmis by done.
    + exists frozen, ref. by split.
Qed.

Lemma assess_conclusion_scored c o st :
  conclusion_outcome c = Some o → assess_conclusion c st = Ok (true, add_outcome o st).
Proof. destruct c; intros [= <-]; reflexivity. Qed.

(** An evidenced item is scored without a reason. *)
Lemma assess_item_evidenced activity attempt st item :
  item_evidenced activity attempt item → AssessmentItem_RubricItemID item ∉ scan_seen st →
  ∃ o, conclusion_outcome (AssessmentItem_Conclusion item) = Some o ∧
    assess_item activity attempt (rubric_map activity) (reference_map activity) st item
    = Ok (add_outcome o (add_seen (AssessmentItem_RubricItemID item) st)).
Proof.
  intros ([o Ho] & Hmis & Hans & Href & frozen & ref & Hf & Hr & Hrev & Hreq & Hk) Hseen.
  exists o. split; [done|]. unfold assess_item. rewrite Hf, (bool_decide_false _ Hseen). cbn [fail_if]. rewrite (bind_eq_Ok tt).
  rewrite (assess_conclusion_scored _ _ _ Ho), bind_eq_Ok.
  simpl.
  assert (negb (bool_decide (AssessmentItem_MisconceptionCandidate item = ""))
          && negb (bool_decide (AssessmentItem_Conclusion item = ConclusionFail))
          && negb (bool_decide (AssessmentItem_Conclusion item = ConclusionPartial)) = false) as ->.
  { destruct (decide (AssessmentItem_MisconceptionCandidate item = "")) as [Hm|Hm].
    - by rewrite (bool_decide_true _ Hm).
    - specialize (Hmis Hm). rewrite (bool_decide_false _ Hm).
      by destruct (AssessmentItem_Conclusion item). }
  simpl. unfold assess_answer. rewrite (quotes_not_missing _ _ _ _ Hans), (proj2 (validateSlice_Ok _ _ _ _) Hans). simpl.
  unfold assess_knowledge. rewrite decide_False by done.
  rewrite Hr, Hrev, bool_decide_true by done.
  assert (negb (is_nil (RubricItem_RequiredReferenceIDs frozen))
          && negb (containsString (RubricItem_RequiredReferenceIDs frozen)
                     (AssessmentItem_KnowledgeReferenceID item)) = false) as ->.
  { destruct Hreq as [->|Hin]; [done|]. apply containsString_spec in Hin as ->.
    by rewrite andb_false_r. }
  simpl. by rewrite (quotes_not_missing _ _ _ _ Hk), (proj2 (validateSlice_Ok _ _ _ _) Hk).
Qed.

Definition item_ids (items : list AssessmentItem) : list string := AssessmentItem_RubricItemID <$> items.
Definition item_outcomes (items : list AssessmentItem) : list Outcome :=
  omap (conclusion_outcome ∘ AssessmentItem_Conclusion) items.

(** The loop over the items. *)
Lemma assess_items_Ok activity attempt items st st' :
  fold_result (assess_item activity attempt (rubric_map activity) (reference_map activity)) st items
  = Ok st' →
  ∃ rs, extends st st' rs
    ∧ NoDup (item_ids items) ∧ (∀ k, k ∈ item_ids items → k ∉ scan_seen st)
    ∧ (∀ k, k ∈ item_ids items → is_Some (rubric_map activity !! k))
    ∧ scan_seen st' = list_to_set (item_ids items) ∪ scan_seen st
    ∧ (rs = [] → Forall (item_evidenced activity attempt) items
        ∧ scan_outcomes st' = scan_outcomes st ++ item_outcomes items).
Proof.
  revert st. induction items as [|item items IH]; intros st; simpl.
  - intros [= <-]. exists []. split_and!; try (by intros k ?%not_elem_of_nil).
    + split; [by rewrite app_nil_r|constructor].
    + constructor.
    + set_solver.
    + intros _. split; [constructor|by rewrite app_nil_r].
  - intros H. apply bind_Ok in H as (st1 & H1 & H2).
    apply assess_item_Ok in H1 as (r1 & E1 & N1 & K1 & S1 & C1).
    apply IH in H2 as (r2 & E2 & D2 & N2 & K2 & S2 & C2). rewrite S1 in *.
    exists (r1 ++ r2). split_and!.
    + by eapply extends_trans.
    + constructor; [|done]. intros Hin. apply (N2 _ Hin), elem_of_union_l. by apply elem_of_singleton.
    + intros k [->|Hk]%elem_of_cons; [done|]. intros Hs. by apply (N2 _ Hk), elem_of_union_r.
    + intros k [->|Hk]%elem_of_cons; [done|]. by apply K2.
    + rewrite S2. cbn [list_to_set]. clear. set_solver.
    + intros [-> ->]%app_eq_nil. destruct (C1 eq_refl) as (He & o & Ho & Hs).
      destruct (C2 eq_refl) as [Hes Hs']. split; [by constructor|].
      rewrite Hs', Hs, <- app_assoc. unfold item_outcomes. simpl. by rewrite Ho.
Qed.

Lemma assess_items_evidenced activity attempt items st :
  Forall (item_evidenced activity attempt) items → NoDup (item_ids items) →
  (∀ k, k ∈ item_ids items → k ∉ scan_seen st) →
  fold_result (assess_item activity attempt (rubric_map activity) (reference_map activity)) st items
  = Ok (mkScan (list_to_set (item_ids items) ∪ scan_seen st)
          (scan_outcomes st ++ item_outcomes items) (scan_provisional st)).
Proof.
  intros Hall. revert st. induction Hall as [|item items Hi Hall IH]; intros st Hnd Hdis; simpl.
  - destruct st. simpl. by rewrite app_nil_r, (left_id_L ∅ (∪)).
  - apply NoDup_cons in Hnd as [Hni Hnd].
    destruct (assess_item_evidenced activity attempt st item Hi) as (o & Ho & ->).
    { apply Hdis. apply list_elem_of_here. }
    simpl. rewrite IH; [|done|].
    + simpl. unfold item_outcomes. simpl. rewrite Ho, <- app_assoc. do 2 f_equal. clear. set_solver.
    + simpl. intros k Hk [->%elem_of_singleton|Hs]%elem_of_union; [done|].
      apply (Hdis k); [by apply list_elem_of_further|done].
Qed.

(** ** The acceptance policy *)

(** What makes an assessment of an open activity acceptable: a frozen rubric
    fully covered by evidenced items. *)
Definition fully_evidenced (activity : Activity) (attempt : Attempt)
    (items : list AssessmentItem) : Prop :=
  frozen_rubric activity ∧ frozen_references activity
  ∧ Rubric_Items (Activity_Rubric activity) ≠ []
  ∧ item_ids items ≡ₚ RubricItem_ID <$> Rubric_Items (Activity_Rubric activity)
  ∧ Forall (item_evidenced activity attempt) items.

(** The activity, attempt and assessment belong together. *)
Definition linked (activity : Activity) (attempt : Attempt) (artifact : AssessmentArtifact) : Prop :=
  Activity_TargetNodeID activity ≠ "" ∧ Activity_TargetNodeRevisionID activity ≠ ""
  ∧ (∃ r, r ∈ Activity_References activity
      ∧ KnowledgeReference_KnowledgeRevisionID r = Activity_KnowledgeRevisionID activity
      ∧ KnowledgeReference_NodeID r = Activity_TargetNodeID activity
      ∧ KnowledgeReference_NodeRevisionID r = Activity_TargetNodeRevisionID activity)
  ∧ Attempt_ActivityID attempt = Activity_ID activity
  ∧ Attempt_ActivityRevision attempt = Activity_Revision activity
  ∧ AssessmentArtifact_AttemptID artifact = Attempt_ID attempt
  ∧ AssessmentArtifact_ActivityID artifact = Activity_ID activity
  ∧ AssessmentArtifact_ActivityRevision artifact = Activity_Revision activity.

Lemma target_referenced_spec activity :
  target_referenced activity = true ↔ ∃ r, r ∈ Activity_References activity
      ∧ KnowledgeReference_KnowledgeRevisionID r = Activity_KnowledgeRevisionID activity
      ∧ KnowledgeReference_NodeID r = Activity_TargetNodeID activity
      ∧ KnowledgeReference_NodeRevisionID r = Activity_TargetNodeRevisionID activity.
Proof.
  unfold target_referenced. rewrite existsb_exists. split.
  - intros (r & Hr & Hb). bool_prop. exists r. by rewrite list_elem_of_In.
  - intros (r & Hr & H1 & H2 & H3). exists r. rewrite <- list_elem_of_In.
    by rewrite H1, H2, H3, !bool_decide_true.
Qed.

Lemma immutable_mismatch_spec activity attempt artifact :
  immutable_mismatch activity attempt artifact = false ↔
  Attempt_ActivityID attempt = Activity_ID activity
  ∧ Attempt_ActivityRevision attempt = Activity_Revision activity
  ∧ AssessmentArtifact_AttemptID artifact = Attempt_ID attempt
  ∧ AssessmentArtifact_ActivityID artifact = Activity_ID activity
  ∧ AssessmentArtifact_ActivityRevision artifact = Activity_Revision activity.
Proof.
  unfold immutable_mismatch. rewrite !orb_false_iff, !negb_false_iff, !Z.eqb_eq, !bool_decide_eq_true.
  tauto.
Qed.

(** The guards in front of the policy. *)
Lemma EvaluateAssessment_Ok `{UnicodeTables} activity attempt artifact acc :
  EvaluateAssessment activity attempt artifact = Ok acc ↔
  linked activity attempt artifact ∧
  (if decide (Attempt_Help attempt = HelpAnswerRevealed)
   then acc = mkAcceptance DispositionProvisional no_outcome ["answer_revealed"]
   else if decide (Activity_Type activity = ActivityObjective)
   then EvaluateObjective activity attempt = Ok acc
   else Activity_Type activity = ActivityOpen ∧ EvaluateOpen activity attempt artifact = Ok acc).
Proof.
  unfold EvaluateAssessment, linked.
  rewrite <- target_referenced_spec, <- immutable_mismatch_spec.
  rewrite !guard_Ok, orb_false_iff, negb_false_iff, !bool_decide_eq_false.
  assert ((if decide (Attempt_Help attempt = HelpAnswerRevealed)
           then Ok (mkAcceptance DispositionProvisional no_outcome ["answer_revealed"])
           else if decide (Activity_Type activity = ActivityObjective)
           then EvaluateObjective activity attempt
           else _ ← fail_if (negb (bool_decide (Activity_Type activity = ActivityOpen)))
                      (rejected "activity_not_assessable");
                EvaluateOpen activity attempt artifact) = Ok acc ↔
          (if decide (Attempt_Help attempt = HelpAnswerRevealed)
   then acc = mkAcceptance DispositionProvisional no_outcome ["answer_revealed"]
   else if decide (Activity_Type activity = ActivityObjective)
   then EvaluateObjective activity attempt = Ok acc
   else Activity_Type activity = ActivityOpen ∧ EvaluateOpen activity attempt artifact = Ok acc)) as ->.
  { case_decide; [naive_solver|]. case_decide; [done|].
    rewrite guard_Ok, negb_false_iff, bool_decide_eq_true. done. }
  tauto.
Qed.

Lemma scan_items_Ok activity attempt artifact items st :
  scan_items activity attempt artifact = Ok (items, st) ↔
  0 <= AssessmentArtifact_Confidence artifact <= 1000
  ∧ Forall (fun r => r ∈ knownRisks) (AssessmentArtifact_RiskFlags artifact)
  ∧ frozen_rubric activity ∧ frozen_references activity
  ∧ items = rubric_map activity
  ∧ fold_result (assess_item activity attempt (rubric_map activity) (reference_map activity))
      (add_reason (is_nil (Rubric_Items (Activity_Rubric activity))) "incomplete_rubric" (mkScan ∅ [] []))
      (AssessmentArtifact_Items artifact) = Ok st.
Proof.
  unfold scan_items. rewrite guard_Ok, orb_false_iff, !Z.ltb_ge.
  assert (∀ k : result error (gmap string RubricItem * scan),
    (_ ← each (fun risk => fail_if (negb (bool_decide (risk ∈ knownRisks)))
                             (rejected "unknown_risk_flag"))
           (AssessmentArtifact_RiskFlags artifact); k) = Ok (items, st)
    ↔ Forall (fun r => r ∈ knownRisks) (AssessmentArtifact_RiskFlags artifact) ∧ k = Ok (items, st))
    as ->.
  { intros k. rewrite bind_Ok. setoid_rewrite each_Ok. setoid_rewrite fail_if_Ok.
    setoid_rewrite negb_false_iff. setoid_rewrite bool_decide_eq_true.
    split; [intros ([] & ? & ?); done | intros [? ?]; by exists tt]. }
  rewrite bind_Ok. setoid_rewrite freeze_items_Ok. split.
  - intros (Hc & Hr & m & [Hf ->] & Hfold).
    apply bind_Ok in Hfold as (m' & [Hf' ->]%freeze_references_Ok & Hfold).
    apply bind_Ok in Hfold as (st' & Hfold & [= <- <-]). split_and!; naive_solver lia.
  - intros (Hc & Hr & Hf & Hf' & -> & Hfold). split_and!; [lia..|done|].
    exists (rubric_map activity). split; [done|]. cbv zeta.
    assert (fold_result (freeze_reference (Activity_KnowledgeRevisionID activity)) ∅
              (Activity_References activity) = Ok (reference_map activity)) as ->
      by by apply freeze_references_Ok.
    by rewrite bind_eq_Ok, Hfold.
Qed.

Lemma item_ids_rubric activity items :
  frozen_rubric activity → NoDup (item_ids items) →
  (∀ k, k ∈ item_ids items → is_Some (rubric_map activity !! k)) →
  length items = length (Rubric_Items (Activity_Rubric activity)) →
  item_ids items ≡ₚ RubricItem_ID <$> Rubric_Items (Activity_Rubric activity).
Proof.
  intros [_ Hnd] Hids Hdom Hlen. apply submseteq_length_Permutation.
  - apply NoDup_submseteq; [done|]. intros k Hk.
    destruct (Hdom k Hk) as [x Hx]. apply (keyed_lookup RubricItem_ID _ k x Hnd) in Hx as [Hx <-].
    by apply list_elem_of_fmap_2.
  - unfold item_ids. rewrite !length_fmap. lia.
Qed.

(** The loop adds nothing exactly for a fully evidenced assessment of the
    whole rubric. *)
Lemma loop_clean activity attempt items st :
  frozen_rubric activity → frozen_references activity →
  length items = length (Rubric_Items (Activity_Rubric activity)) →
  fold_result (assess_item activity attempt (rubric_map activity) (reference_map activity))
    (add_reason (is_nil (Rubric_Items (Activity_Rubric activity))) "incomplete_rubric" (mkScan ∅ [] []))
    items = Ok st →
  scan_provisional st = [] →
  fully_evidenced activity attempt items ∧ scan_outcomes st = item_outcomes items.
Proof.
  intros Hf Hf' Hlen Hfold Hprov.
  apply assess_items_Ok in Hfold as (rs & [Hp _] & Hnd & _ & Hdom & _ & Hc).
  destruct (is_nil (Rubric_Items (Activity_Rubric activity))) eqn:Hnil;
    simpl in Hp; rewrite Hprov in Hp; [done|].
  destruct (Hc (eq_sym Hp)) as [He Ho]. apply is_nil_false in Hnil.
  split; [|exact Ho]. split_and!; try done. by apply item_ids_rubric.
Qed.

Lemma loop_evidenced activity attempt items :
  fully_evidenced activity attempt items →
  fold_result (assess_item activity attempt (rubric_map activity) (reference_map activity))
    (add_reason (is_nil (Rubric_Items (Activity_Rubric activity))) "incomplete_rubric" (mkScan ∅ [] []))
    items
  = Ok (mkScan (list_to_set (item_ids items)) (item_outcomes items) [])
  ∧ size (list_to_set (C := gset string) (item_ids items)) = size (rubric_map activity)
  ∧ item_outcomes items ≠ [].
Proof.
  intros (Hf & Hf' & Hne & Hp & He).
  assert (NoDup (item_ids items)) as Hnd by by rewrite Hp; destruct Hf.
  split_and!.
  - apply is_nil_false in Hne as Hnil. rewrite Hnil. cbn [add_reason].
    rewrite assess_items_evidenced; [|done..|by intros ? _ ?%not_elem_of_empty].
    simpl. by rewrite (right_id_L ∅ (∪)).
  - rewrite size_list_to_set by done. unfold rubric_map. rewrite keyed_size by by destruct Hf.
    by rewrite Hp, length_fmap.
  - destruct items as [|i items]; [by apply Permutation_nil_l, eq_sym, fmap_nil_inv in Hp|].
    apply Forall_cons in He as [([o Ho] & _) _]. unfold item_outcomes. simpl. by rewrite Ho.
Qed.

Lemma item_outcomes_scored items : Forall (fun o => o = OutcomePass ∨ o = OutcomePartial ∨ o = OutcomeFail) (item_outcomes items).
Proof.
  unfold item_outcomes. apply Forall_forall. intros o Ho.
  apply list_elem_of_omap in Ho as (i & _ & Ho). simpl in Ho.
  destruct (AssessmentItem_Conclusion i); simplify_eq/=; auto.
Qed.

(** The worst of the scored outcomes. *)
Definition worst (l : list Outcome) : Outcome :=
  if decide (OutcomeFail ∈ l) then OutcomeFail
  else if decide (OutcomePartial ∈ l) then OutcomePartial else OutcomePass.

Lemma combine_from_spec acc l :
  combine_from acc l = if decide (OutcomeFail ∈ l) then OutcomeFail
    else if decide (OutcomePartial ∈ l) then OutcomePartial else acc.
Proof.
  revert acc. induction l as [|o l IH]; intros acc; [done|]. cbn [combine_from].
  rewrite IH. clear IH. destruct (decide (o = OutcomeFail)) as [->|Hf].
  - by rewrite decide_True by apply list_elem_of_here.
  - repeat case_decide; rewrite ?elem_of_cons in *; naive_solver.
Qed.

Lemma combineOutcomes_worst l : l ≠ [] → combineOutcomes l = worst l.
Proof. destruct l; [done|]. intros _. unfold combineOutcomes. apply combine_from_spec. Qed.

Lemma worst_scored l : worst l ≠ no_outcome.
Proof. unfold worst. by repeat case_decide. Qed.

Lemma add_reason_nil b r st :
  scan_provisional (add_reason b r st) = [] ↔ b = false ∧ scan_provisional st = [].
Proof.
  destruct b; simpl; [|tauto]. split; [|by intros []].
  by intros [_ ?]%app_eq_nil.
Qed.

Lemma add_reason_vars b r st :
  scan_seen (add_reason b r st) = scan_seen st ∧ scan_outcomes (add_reason b r st) = scan_outcomes st.
Proof. by destruct b. Qed.

Lemma add_reason_mono b r st x :
  x ∈ scan_provisional st → x ∈ scan_provisional (add_reason b r st).
Proof. destruct b; [|done]. intros Hx. apply elem_of_app. by left. Qed.

Lemma final_scan_vars artifact items st :
  scan_outcomes (final_scan artifact items st) = scan_outcomes st.
Proof.
  unfold final_scan. cbv zeta. cbn [scan_outcomes].
  by rewrite !(proj2 (add_reason_vars _ _ _)).
Qed.

Lemma final_scan_clean artifact items st :
  scan_provisional (final_scan artifact items st) = [] ↔
  scan_provisional st = [] ∧ size (scan_seen st) = size items
  ∧ AssessmentArtifact_RubricComplete artifact = true ∧ scan_outcomes st ≠ []
  ∧ 850 <= AssessmentArtifact_Confidence artifact ∧ AssessmentArtifact_RiskFlags artifact = [].
Proof.
  unfold final_scan. cbv zeta. cbn [scan_provisional].
  assert (∀ (l l' : list string), l ++ l' = [] ↔ l = [] ∧ l' = []) as Happ.
  { intros l l'. split; [apply app_eq_nil|]. by intros [-> ->]. }
  rewrite Happ, !add_reason_nil, orb_false_iff, !negb_false_iff, Nat.eqb_eq, Z.ltb_ge.
  rewrite !(proj2 (add_reason_vars _ _ _)), is_nil_false.
  destruct (AssessmentArtifact_RiskFlags artifact); simpl; [tauto|].
  split; [by intros [_ ?] | by intros (_ & _ & _ & _ & _ & ?)].
Qed.

(** An open assessment is accepted exactly when nothing is wrong with it. *)
Lemma EvaluateOpen_accepted activity attempt artifact outcome reasons :
  EvaluateOpen activity attempt artifact = Ok (mkAcceptance DispositionAccepted outcome reasons) ↔
  850 <= AssessmentArtifact_Confidence artifact <= 1000
  ∧ AssessmentArtifact_RiskFlags artifact = []
  ∧ AssessmentArtifact_RubricComplete artifact = true
  ∧ fully_evidenced activity attempt (AssessmentArtifact_Items artifact)
  ∧ outcome = worst (item_outcomes (AssessmentArtifact_Items artifact)) ∧ reasons = [].
Proof.
  unfold EvaluateOpen. split.
  - intros H. apply bind_Ok in H as ([items st] & Hscan & H).
    apply scan_items_Ok in Hscan as (Hc & _ & Hf & Hf' & -> & Hfold).
    cbv zeta in H. destruct (is_nil (scan_provisional _)) eqn:Hnil; cbn [negb] in H; [|discriminate].
    apply is_nil_true in Hnil.
    case_decide as Ho; [done|]. injection H as <- <-.
    apply final_scan_clean in Hnil as (Hp & Hsize & Hcomp & Hout & H850 & Hrisk).
    rewrite !(proj2 (add_reason_vars _ _ _)).
    assert (length (AssessmentArtifact_Items artifact)
            = length (Rubric_Items (Activity_Rubric activity))) as Hlen.
    { apply assess_items_Ok in Hfold as (rs & _ & Hnd & _ & _ & Hs & _).
      rewrite Hs in Hsize. rewrite (proj1 (add_reason_vars _ _ _)) in Hsize. simpl in Hsize.
      rewrite (right_id_L ∅ (∪)), size_list_to_set in Hsize by done.
      unfold rubric_map in Hsize. rewrite keyed_size in Hsize by by destruct Hf.
      unfold item_ids in Hsize. by rewrite length_fmap in Hsize. }
    destruct (loop_clean _ _ _ _ Hf Hf' Hlen Hfold Hp) as [He Heq].
    rewrite combineOutcomes_worst by done. rewrite Heq. split_and!; try done; lia.
  - intros (Hc & Hrisk & Hcomp & He & -> & ->).
    destruct (loop_evidenced _ _ _ He) as (Hfold & Hsize & Hout).
    assert (scan_items activity attempt artifact
      = Ok (rubric_map activity, mkScan (list_to_set (item_ids (AssessmentArtifact_Items artifact)))
              (item_outcomes (AssessmentArtifact_Items artifact)) [])) as ->.
    { apply scan_items_Ok. rewrite Hrisk. destruct He as (? & ? & _).
      split_and!; try done; lia. }
    rewrite bind_eq_Ok. cbv zeta. set (st := final_scan _ _ _).
    assert (scan_provisional st = []) as ->.
    { apply final_scan_clean. split_and!; try done; lia. }
    cbn [is_nil negb]. unfold st. rewrite final_scan_vars. cbn [scan_outcomes].
    rewrite combineOutcomes_worst by done. rewrite decide_False by apply worst_scored. done.
Qed.

(** [unique] of an ordered list is strictly ordered. *)
Lemma unique_from_sorted l x :
  StronglySorted (le_by str_ltb) (x :: l) →
  StronglySorted (fun x y => str_ltb x y = true) (x :: unique_from x l)
  ∧ ∀ y, y ∈ unique_from x l → y ∈ l.
Proof.
  revert x. induction l as [|y l IH]; intros x Hs; cbn [unique_from].
  { split; [repeat constructor|by intros y ?%not_elem_of_nil]. }
  apply StronglySorted_inv in Hs as [Hs Hx]. apply Forall_cons in Hx as [Hxy Hx].
  case_decide as Heq.
  - subst y. destruct (IH x Hs) as [H1 H2]. split; [done|].
    intros z Hz. apply list_elem_of_further. auto.
  - destruct (IH y Hs) as [H1 H2]. split.
    + constructor; [done|]. apply StronglySorted_inv in Hs as [_ Hy].
      rewrite Forall_forall in *. intros z Hz.
      assert (le_by str_ltb x z ∧ z ≠ x) as [Hle Hne].
      { apply elem_of_cons in Hz as [->|Hz]; [done|]. split; [by apply Hx, H2|].
        intros ->. apply Heq. apply str_ltb_antisym; [exact Hxy|]. by apply Hy, H2. }
      unfold le_by in Hle. destruct (str_ltb x z) eqn:E; [done|].
      by destruct Hne; apply str_ltb_antisym.
    + intros z [->|Hz]%elem_of_cons; [apply list_elem_of_here|]. apply list_elem_of_further. auto.
Qed.

Lemma unique_sorted l :
  StronglySorted (le_by str_ltb) l → StronglySorted (fun x y => str_ltb x y = true) (unique l).
Proof. destruct l; [constructor|]. intros Hs. by apply unique_from_sorted. Qed.

Lemma elem_of_unique_from x l y : y ∈ l → y = x ∨ y ∈ unique_from x l.
Proof.
  revert x. induction l as [|z l IH]; intros x; [by intros ?%not_elem_of_nil|].
  intros [->|Hy]%elem_of_cons; cbn [unique_from]; case_decide as Hz; subst.
  - by left.
  - right. apply list_elem_of_here.
  - by apply IH.
  - right. destruct (IH z Hy) as [->|?]; [apply list_elem_of_here | by apply list_elem_of_further].
Qed.

Lemma elem_of_unique l y : y ∈ l → y ∈ unique l.
Proof.
  destruct l as [|x l]; [done|]. intros [->|Hy]%elem_of_cons; simpl; [apply list_elem_of_here|].
  destruct (elem_of_unique_from x l y Hy) as [->|?]; [apply list_elem_of_here | by apply list_elem_of_further].
Qed.

Lemma unique_sort_nonempty l : l ≠ [] → unique (sort_strings l) ≠ [].
Proof.
  intros Hl. destruct l as [|x l]; [done|]. intros Hu.
  assert (x ∈ unique (sort_strings (x :: l))) as Hx; [|by rewrite Hu in Hx; apply not_elem_of_nil in Hx].
  apply elem_of_unique, elem_of_sort_by, list_elem_of_here.
Qed.

Section Properties.
Context `{UnicodeTables}.

(** C13. The acceptance policy for open activities: an assessment is accepted
    exactly when the three records belong together, the answer was not
    revealed, confidence is at least 850 of 1000 with no risk flag, and the
    complete frozen rubric is covered once each by scored items whose quotes
    hash to slices of the answer and of an allowed reference; the outcome is
    then the worst of the items. *)
Theorem EvaluateAssessment_accepts_open activity attempt artifact outcome reasons :
  Activity_Type activity = ActivityOpen →
  EvaluateAssessment activity attempt artifact
  = Ok (mkAcceptance DispositionAccepted outcome reasons) ↔
  linked activity attempt artifact ∧ Attempt_Help attempt ≠ HelpAnswerRevealed
  ∧ 850 <= AssessmentArtifact_Confidence artifact <= 1000
  ∧ AssessmentArtifact_RiskFlags artifact = []
  ∧ AssessmentArtifact_RubricComplete artifact = true
  ∧ fully_evidenced activity attempt (AssessmentArtifact_Items artifact)
  ∧ outcome = worst (item_outcomes (AssessmentArtifact_Items artifact)) ∧ reasons = [].
Proof.
  intros Htype. rewrite EvaluateAssessment_Ok, Htype.
  case_decide as Hh; [naive_solver|]. rewrite decide_False by done.
  rewrite EvaluateOpen_accepted. tauto.
Qed.

(** What the policy answers: accepted with a scored outcome and no reason,
    or provisional with no outcome and reasons in strict order; and never
    accepted once the answer was revealed. *)
Theorem EvaluateAssessment_shape activity attempt artifact acc :
  EvaluateAssessment activity attempt artifact = Ok acc →
  (Acceptance_Disposition acc = DispositionAccepted
   ∧ Acceptance_Outcome acc ∈ [OutcomePass; OutcomePartial; OutcomeFail]
   ∧ Acceptance_Reasons acc = [] ∧ Attempt_Help attempt ≠ HelpAnswerRevealed)
  ∨ (Acceptance_Disposition acc = DispositionProvisional
     ∧ Acceptance_Outcome acc = no_outcome ∧ Acceptance_Reasons acc ≠ []
     ∧ StronglySorted (fun x y => str_ltb x y = true) (Acceptance_Reasons acc)).
Proof.
  intros H1. apply EvaluateAssessment_Ok in H1 as [_ H1]. case_decide as Hh.
  { subst acc. right. split_and!; [done..|]. repeat constructor. }
  case_decide.
  - unfold EvaluateObjective in H1. destruct (Rubric_ObjectiveRule _) as [rule|]; [|done].
    apply guard_Ok in H1 as [_ [= <-]]. left. split_and!; try done. simpl.
    rewrite !elem_of_cons. destruct (existsb _ _); auto.
  - destruct H1 as [_ H1]. unfold EvaluateOpen in H1.
    apply bind_Ok in H1 as ([items st] & Hscan & H1). cbv zeta in H1.
    destruct (is_nil (scan_provisional _)) eqn:Hnil; cbn [negb] in H1.
    + case_decide as Ho.
      * injection H1 as <-. right. split_and!; [done..|]. repeat constructor.
      * injection H1 as <-. left. split_and!; try done. cbn [Acceptance_Outcome].
        rewrite !(proj2 (add_reason_vars _ _ _)).
        apply is_nil_true, final_scan_clean in Hnil as (_ & _ & _ & Hne & _).
        rewrite combineOutcomes_worst by done. unfold worst.
        repeat case_decide; rewrite !elem_of_cons; auto.
    + injection H1 as <-. right. split_and!; [done..| |apply unique_sorted, sort_strings_sorted].
      apply is_nil_false in Hnil. by apply unique_sort_nonempty.
Qed.

(** Objective activities are decided by their rule alone: the assessment's
    items, confidence and flags do not matter, and the outcome is a pass exactly
    when the answer matches an accepted one. *)
Theorem EvaluateAssessment_objective activity attempt artifact rule :
  Activity_Type activity = ActivityObjective →
  Rubric_ObjectiveRule (Activity_Rubric activity) = Some rule →
  ObjectiveRule_AcceptedAnswers rule ≠ [] →
  Attempt_Help attempt ≠ HelpAnswerRevealed →
  linked activity attempt artifact →
  ∃ outcome, EvaluateAssessment activity attempt artifact
             = Ok (mkAcceptance DispositionAccepted outcome [])
    ∧ (outcome = OutcomePass ∨ outcome = OutcomeFail)
    ∧ (outcome = OutcomePass ↔ ∃ expected, expected ∈ ObjectiveRule_AcceptedAnswers rule
        ∧ objective_matches rule (Attempt_Answer attempt) expected = true).
Proof.
  intros Htype Hrule Hne Hhelp Hlink.
  set (b := existsb (objective_matches rule (Attempt_Answer attempt)) (ObjectiveRule_AcceptedAnswers rule)).
  exists (if b then OutcomePass else OutcomeFail). split_and!.
  - apply EvaluateAssessment_Ok. split; [done|]. rewrite decide_False, Htype, decide_True by done.
    unfold EvaluateObjective. rewrite Hrule. apply is_nil_false in Hne. by rewrite Hne.
  - destruct b; auto.
  - assert (b = true ↔ ∃ expected, expected ∈ ObjectiveRule_AcceptedAnswers rule
        ∧ objective_matches rule (Attempt_Answer attempt) expected = true) as <-.
    { unfold b. rewrite existsb_exists. by setoid_rewrite list_elem_of_In. }
    by destruct b.
Qed.

Lemma replacement_linked activity attempt artifact items :
  linked activity attempt artifact → linked activity attempt (replacement_of artifact items).
Proof. done. Qed.

(** A replacement is valid exactly when its items are fully evidenced. *)
Lemma ValidateAssessmentReplacement_Ok activity attempt artifact items outcome :
  Activity_Type activity = ActivityOpen →
  ValidateAssessmentReplacement activity attempt artifact items = Ok outcome ↔
  linked activity attempt artifact ∧ Attempt_Help attempt ≠ HelpAnswerRevealed
  ∧ fully_evidenced activity attempt items ∧ outcome = worst (item_outcomes items).
Proof.
  intros Htype. unfold ValidateAssessmentReplacement. rewrite guard_Ok, bool_decide_eq_false, Htype.
  split.
  - intros [_ H1]. apply bind_Ok in H1 as ([d o r] & H1 & H2).
    apply guard_Ok in H2 as [Hg [= <-]]. bool_prop. simpl in *. subst d.
    apply EvaluateAssessment_Ok in H1 as [Hl H1]. rewrite Htype in H1.
    case_decide as Hh; [done|]. rewrite decide_False in H1 by done. destruct H1 as [_ H1].
    apply EvaluateOpen_accepted in H1 as (_ & _ & _ & He & -> & _). done.
  - intros (Hl & Hh & He & ->). split; [done|].
    assert (EvaluateAssessment activity attempt (replacement_of artifact items)
      = Ok (mkAcceptance DispositionAccepted (worst (item_outcomes items)) [])) as ->.
    { apply EvaluateAssessment_Ok. split; [done|]. rewrite decide_False, Htype, decide_False by done.
      split; [done|]. apply EvaluateOpen_accepted. split_and!; try done; simpl; lia. }
    rewrite bind_eq_Ok. simpl. rewrite bool_decide_false by apply worst_scored. done.
Qed.

(** The reasons that leave an assessment confirmable come after the loop. *)
Lemma confirmable_clean activity attempt artifact :
  ConfirmableAssessment activity attempt artifact = true →
  linked activity attempt artifact ∧ Attempt_Help attempt ≠ HelpAnswerRevealed
  ∧ Activity_Type activity = ActivityOpen
  ∧ fully_evidenced activity attempt (AssessmentArtifact_Items artifact).
Proof.
  unfold ConfirmableAssessment.
  destruct (_ || _) eqn:Hg; [done|]. bool_prop. apply Nat.eqb_eq in H1.
  assert (is_nil (Rubric_Items (Activity_Rubric activity)) = false) as Hnr by done.
  destruct (EvaluateAssessment _ _ _) as [acc|] eqn:He; [|done].
  destruct (negb (bool_decide _)) eqn:Hd; [done|]. bool_prop.
  destruct (negb (forallb _ _)) eqn:Hall; [done|]. bool_prop. intros _.
  apply EvaluateAssessment_Ok in He as [Hl He]. rewrite decide_False in He by done.
  case_decide as Hobj.
  { unfold EvaluateObjective in He. destruct (Rubric_ObjectiveRule _); [|done].
    apply guard_Ok in He as [_ [= <-]]. done. }
  destruct He as [Htype He]. split_and!; [done..|].
  unfold EvaluateOpen in He. apply bind_Ok in He as ([items st] & Hscan & He).
  apply scan_items_Ok in Hscan as (_ & _ & Hf & Hf' & -> & Hfold). cbv zeta in He.
  eapply loop_clean; [done..|].
  pose proof (assess_items_Ok _ _ _ _ _ Hfold) as (rs & [Hp Hr] & _).
  rewrite Hnr in Hp. simpl in Hp. rewrite Hp.
  destruct rs as [|r rs]; [done|]. exfalso.
  assert (r ∈ scan_provisional (final_scan artifact (rubric_map activity) st)) as Hin.
  { unfold final_scan. cbv zeta. cbn [scan_provisional]. apply elem_of_app. left.
    do 3 apply add_reason_mono. rewrite Hp. apply list_elem_of_here. }
  destruct (is_nil (scan_provisional _)) eqn:Hnil; cbn [negb] in He.
  { apply is_nil_true in Hnil. rewrite Hnil in Hin. by apply not_elem_of_nil in Hin. }
  injection He as <-. cbn [Acceptance_Reasons] in Hall.
  rewrite forallb_forall in Hall.
  assert (confirmable_reason r = true) as Hcr.
  { apply Hall, list_elem_of_In, elem_of_unique, elem_of_sort_by, Hin. }
  apply Forall_cons in Hr as [Hr _]. unfold loop_reasons in Hr.
  rewrite !elem_of_cons in Hr. destruct Hr as [->|[->|[->|Hr%not_elem_of_nil]]]; done.
Qed.

(** Confirming a confirmable assessment is always possible: its own items
    are a valid replacement, so its evidence has a scored outcome. *)
Theorem confirmable_is_replacement activity attempt artifact :
  ConfirmableAssessment activity attempt artifact = true →
  ValidateAssessmentReplacement activity attempt artifact (AssessmentArtifact_Items artifact)
  = Ok (worst (item_outcomes (AssessmentArtifact_Items artifact)))
  ∧ fully_evidenced activity attempt (AssessmentArtifact_Items artifact).
Proof.
  intros Hc. apply confirmable_clean in Hc as (Hl & Hh & Ht & He). split; [|done].
  by apply ValidateAssessmentReplacement_Ok.
Qed.
End Properties.

(** ** Decisions *)

(** Items a person may put in place of the model's: at least one, each on its
    own rubric item and scored. *)
Definition scored_items (items : list AssessmentItem) : Prop :=
  items ≠ [] ∧ NoDup (item_ids items)
  ∧ Forall (fun i => AssessmentItem_RubricItemID i ≠ ""
                     ∧ is_Some (conclusion_outcome (AssessmentItem_Conclusion i))) items.

Lemma replacement_item_Ok seen item seen' :
  replacement_item seen item = Ok seen' ↔
  AssessmentItem_RubricItemID item ≠ "" ∧ AssessmentItem_RubricItemID item ∉ seen
  ∧ is_Some (conclusion_outcome (AssessmentItem_Conclusion item))
  ∧ seen' = {[AssessmentItem_RubricItemID item]} ∪ seen.
Proof.
  unfold replacement_item. rewrite guard_Ok, !orb_false_iff, !bool_decide_eq_false.
  destruct (AssessmentItem_Conclusion item); simpl;
    (split; [intros [([[? ?] ?] & ?) [= <-]] | intros (? & ? & [? ?] & ->)]);
    try done; by split_and!.
Qed.

Lemma replacement_items_Ok items seen :
  (∃ seen', fold_result replacement_item seen items = Ok seen') ↔
  NoDup (item_ids items) ∧ (∀ k, k ∈ item_ids items → k ∉ seen)
  ∧ Forall (fun i => AssessmentItem_RubricItemID i ≠ ""
                     ∧ is_Some (conclusion_outcome (AssessmentItem_Conclusion i))) items.
Proof.
  revert seen. induction items as [|i items IH]; intros seen; cbn [fold_result].
  { split; [|by exists seen]. intros _. split_and!; [constructor|by intros k ?%not_elem_of_nil|constructor]. }
  cbn [item_ids fmap list_fmap]. rewrite NoDup_cons, Forall_cons.
  assert ((∃ seen', (replacement_item seen i ≫= fun acc' => fold_result replacement_item acc' items) = Ok seen')
    ↔ (AssessmentItem_RubricItemID i ≠ "" ∧ AssessmentItem_RubricItemID i ∉ seen
       ∧ is_Some (conclusion_outcome (AssessmentItem_Conclusion i)))
      ∧ ∃ seen', fold_result replacement_item ({[AssessmentItem_RubricItemID i]} ∪ seen) items = Ok seen') as ->.
  { setoid_rewrite bind_Ok. setoid_rewrite replacement_item_Ok. naive_solver. }
  rewrite IH. fold (item_ids items). split.
  - intros ((Hne & Hns & Hsc) & Hnd & Hdis & Hall). split_and!; try done.
    + intros Hin. apply (Hdis _ Hin), elem_of_union_l. by apply elem_of_singleton.
    + intros k [->|Hk]%elem_of_cons; [done|]. intros Hs. by apply (Hdis k Hk), elem_of_union_r.
  - intros ((Hni & Hnd) & Hdis & (Hne & Hsc) & Hall). split_and!; try done.
    + apply Hdis. apply list_elem_of_here.
    + intros k Hk [->%elem_of_singleton|Hs]%elem_of_union; [done|].
      apply (Hdis k); [by apply list_elem_of_further|done].
Qed.

Lemma completeReplacement_Ok items :
  completeReplacement items = Ok tt ↔ scored_items items.
Proof.
  unfold completeReplacement, scored_items. rewrite guard_Ok, is_nil_false.
  pose proof (replacement_items_Ok items ∅) as Hf.
  assert ((_ ← fold_result replacement_item ∅ items; Ok tt) = Ok (E:=error) tt
    ↔ ∃ seen', fold_result replacement_item ∅ items = Ok seen') as ->.
  { rewrite bind_Ok. naive_solver. }
  rewrite Hf. split; [intros (? & ? & _ & ?)|intros (? & ? & ?)]; split_and!; done.
Qed.

(** The decisions on an assessment: one is taken only against the current
    version and never on a voided assessment; only a provisional one that is
    confirmable can be confirmed, only a reasoned, fully scored replacement can
    override; evidence is created exactly by confirming and overriding, and
    overriding or voiding invalidates exactly the evidence produced so far. *)
Theorem DecideAssessment_machine current artifact command confirmable eff :
  DecideAssessment current artifact command confirmable = Ok eff ↔
  DecisionCommand_ExpectedVersion command = AssessmentDecision_Version current
  ∧ AssessmentDecision_Disposition current ≠ DispositionVoided
  ∧ (DecisionCommand_Kind command = "confirm"
     ∧ AssessmentDecision_Disposition current = DispositionProvisional
     ∧ head confirmable = Some true
     ∧ eff = mkDecisionEffect DispositionAccepted (AssessmentArtifact_Items artifact) false true
     ∨ DecisionCommand_Kind command = "override"
     ∧ trim_space (DecisionCommand_Reason command) ≠ ""
     ∧ scored_items (DecisionCommand_Items command)
     ∧ eff = mkDecisionEffect DispositionOverridden (DecisionCommand_Items command)
               (bool_decide (AssessmentDecision_ProducedEvidenceID current ≠ None)) true
     ∨ DecisionCommand_Kind command = "void"
     ∧ eff = mkDecisionEffect DispositionVoided (AssessmentDecision_Items current)
               (bool_decide (AssessmentDecision_ProducedEvidenceID current ≠ None)) false).
Proof.
  unfold DecideAssessment. rewrite guard_Ok, negb_false_iff, Z.eqb_eq.
  apply and_iff_compat_l. cbv zeta.
  set (inv := bool_decide (AssessmentDecision_ProducedEvidenceID current ≠ None)).
  destruct (decide (DecisionCommand_Kind command = "confirm")) as [->|Hc].
  { rewrite guard_Ok, !orb_false_iff, !negb_false_iff, bool_decide_eq_true. split.
    - intros [[[Hp Hn] Hh] [= <-]]. rewrite Hp. split; [done|]. left.
      destruct confirmable as [|[] ?]; done.
    - intros [Hv [(_ & Hp & Hh & ->)|[(? & _)|(? & _)]]]; [|done..].
      destruct confirmable as [|[] ?]; done. }
  destruct (decide (DecisionCommand_Kind command = "override")) as [->|Ho].
  { rewrite guard_Ok, !orb_false_iff, !bool_decide_eq_false. split.
    - intros [[[Hv Hr] Hn] H]. split; [done|]. right; left.
      destruct (completeReplacement _) as [[]|] eqn:Hcr; [|done].
      apply completeReplacement_Ok in Hcr. injection H as <-. done.
    - intros [Hv [(? & _)|[(_ & Hr & Hs & ->)|(? & _)]]]; [done| |done].
      pose proof Hs as [Hn _]. apply is_nil_false in Hn. apply completeReplacement_Ok in Hs as ->. done. }
  destruct (decide (DecisionCommand_Kind command = "void")) as [->|Hv].
  { rewrite guard_Ok, bool_decide_eq_false. naive_solver. }
  naive_solver.
Qed.

(** ** Witnesses *)
Definition sample_quote : string := "force equals mass times acceleration".

Definition sample_reference : KnowledgeReference :=
  mkKnowledgeReference "kr-1" "node" "node-1" "doc-1" (mkSourceRange 0 4) "Newton: F = m a" "".

Definition sample_activity : Activity :=
  mkActivity "act-1" 1 "s-1" "" "" "" "kr-1" "node" "node-1" [sample_reference] "State the law."
    ActivityOpen (mkRubric "1" [mkRubricItem "r-1" "states the law" ["node-1"]] None) 0 [] "" "" "" "" "" ""
    false 0.

Definition sample_attempt : Attempt :=
  mkAttempt "att-1" "s-1" "act-1" 1 "" sample_quote "" HelpNone "" None 0 true "" "" "".

Definition sample_items : list AssessmentItem :=
  [mkAssessmentItem "r-1" ConclusionPass "force" (mkSourceRange 0 5) (SHA256 "force")
     "node-1" "F = m a" (mkSourceRange 8 15) (SHA256 "F = m a") ""].

Definition sample_artifact (confidence : Z) : AssessmentArtifact :=
  mkAssessmentArtifact "as-1" "s-1" "att-1" "act-1" 1 sample_items true confidence [] "" ∅ "" "" 1 [] 0
    true "".

#[local] Instance sample_tables : UnicodeTables := ascii_tables.

Lemma EvaluateAssessment_accepts_open_witness :
  fully_evidenced sample_activity sample_attempt sample_items
  ∧ 850 <= 900 <= 1000 ∧ OutcomePass = worst (item_outcomes sample_items).
Proof.
  destruct (EvaluateAssessment_accepts_open sample_activity sample_attempt (sample_artifact 900)
              OutcomePass [] eq_refl) as [H _].
  destruct H as (_ & _ & Hc & _ & _ & He & Ho & _); [vm_compute; reflexivity|].
  split; [exact He|]. split; [exact Hc | exact Ho].
Defined.

Lemma EvaluateAssessment_shape_witness :
  ∃ acc, EvaluateAssessment sample_activity sample_attempt (sample_artifact 500) = Ok acc
    ∧ Acceptance_Reasons acc = ["low_confidence"]
    ∧ Acceptance_Outcome acc = no_outcome.
Proof.
  exists (mkAcceptance DispositionProvisional no_outcome ["low_confidence"]).
  assert (EvaluateAssessment sample_activity sample_attempt (sample_artifact 500)
    = Ok (mkAcceptance DispositionProvisional no_outcome ["low_confidence"])) as He
    by (vm_compute; reflexivity).
  split; [exact He|]. split; [reflexivity|].
  destruct (EvaluateAssessment_shape _ _ _ _ He) as [(Hd & _)|(_ & Ho & _)]; [discriminate Hd|exact Ho].
Defined.

Definition sample_objective : Activity :=
  mkActivity "act-1" 1 "s-1" "" "" "" "kr-1" "node" "node-1" [sample_reference] "Unit of force?"
    ActivityObjective (mkRubric "1" [] (Some (mkObjectiveRule ["newton"; "N"] false true))) 0 [] "" "" ""
    "" "" "" false 0.

Definition sample_objective_attempt : Attempt :=
  mkAttempt "att-1" "s-1" "act-1" 1 "" " Newton " "" HelpNone "" None 0 true "" "" "".

Lemma sample_objective_linked :
  linked sample_objective sample_objective_attempt (sample_artifact 0).
Proof.
  unfold linked. split_and!; try discriminate; try reflexivity.
  exists sample_reference. split_and!; [apply list_elem_of_here|reflexivity..].
Qed.

Lemma EvaluateAssessment_objective_witness :
  EvaluateAssessment sample_objective sample_objective_attempt (sample_artifact 0)
  = Ok (mkAcceptance DispositionAccepted OutcomePass []).
Proof.
  destruct (EvaluateAssessment_objective sample_objective sample_objective_attempt (sample_artifact 0)
    (mkObjectiveRule ["newton"; "N"] false true)) as (o & He & _ & Ho);
    [reflexivity|reflexivity|discriminate|discriminate|apply sample_objective_linked|].
  rewrite He. do 2 f_equal. apply Ho. exists "newton". split; [apply list_elem_of_here|].
  vm_compute. reflexivity.
Defined.

Lemma confirmable_is_replacement_witness :
  ValidateAssessmentReplacement sample_activity sample_attempt (sample_artifact 500) sample_items
  = Ok OutcomePass.
Proof.
  destruct (confirmable_is_replacement sample_activity sample_attempt (sample_artifact 500)) as [H _];
    [vm_compute; reflexivity|].
  rewrite (H : ValidateAssessmentReplacement _ _ _ sample_items = _). vm_compute. reflexivity.
Defined.

Lemma DecideAssessment_machine_witness :
  scored_items sample_items.
Proof.
  destruct (DecideAssessment_machine
    (mkAssessmentDecision "d-1" "as-1" 3 DispositionAccepted [] "" "" 0 None (Some "e-1"))
    (sample_artifact 900) (mkDecisionCommand "override" 3 "teacher review" sample_items) []
    (mkDecisionEffect DispositionOverridden sample_items true true)) as [H _].
  destruct H as (_ & _ & [(Hk & _)|[(_ & _ & Hs & _)|(Hk & _)]]);
    [vm_compute; reflexivity|discriminate Hk|exact Hs|discriminate Hk].
Defined.
