(* ===== verification/Projection.v ===== *)
(** * The learning projection

    [server/internal/learning/event.go]: the event registry, the projection that
    is folded from the event log, and its replay. [ApplyEvent] mutates the
    projection it is given; here it returns the projection it leaves behind
    together with the error, since the code keeps a partly updated projection on
    some error paths. [encoding/json] enters through the class [PayloadCodec],
    one decoder for each payload type; nothing is assumed of the decoders. The
    record types of [carryover.go] that events carry are here too. *)
From stdpp Require Import pretty.
From S2P Require Import Prelude GoStd LearningDomain ActiveTime Reducer Tutoring.
Import Tutoring.

(** ** Data *)
Inductive EvidenceCarryoverStatus : Type :=
| EvidenceCarryoverOpen
| EvidenceCarryoverApproved
| EvidenceCarryoverRejected
| EvidenceCarryoverStale
| EvidenceCarryoverRedacted
| EvidenceCarryoverStatusOther (s : string).
#[export] Instance EvidenceCarryoverStatus_eq_dec : EqDecision EvidenceCarryoverStatus.
Proof. solve_decision. Defined.
Definition EvidenceCarryoverStatus_string (v : EvidenceCarryoverStatus) : string :=
  match v with
  | EvidenceCarryoverOpen => "open"
  | EvidenceCarryoverApproved => "approved"
  | EvidenceCarryoverRejected => "rejected"
  | EvidenceCarryoverStale => "stale"
  | EvidenceCarryoverRedacted => "redacted"
  | EvidenceCarryoverStatusOther s => s
  end.

Record EvidenceCarryoverLink := mkEvidenceCarryoverLink {
  EvidenceCarryoverLink_ID : string;
  EvidenceCarryoverLink_ProposalID : string;
  EvidenceCarryoverLink_SourceEvidenceID : string;
  EvidenceCarryoverLink_TargetKnowledgeRevisionID : string;
  EvidenceCarryoverLink_TargetNodeID : string;
  EvidenceCarryoverLink_TargetNodeRevisionID : string;
  EvidenceCarryoverLink_TargetDocumentRevisionID : string;
  EvidenceCarryoverLink_DecisionID : string;
  EvidenceCarryoverLink_EventID : string;
  EvidenceCarryoverLink_EventSequence : Z;
  EvidenceCarryoverLink_CreatedAt : time;
}.

Record ProvisionalEvidenceCarryover := mkProvisionalEvidenceCarryover {
  ProvisionalEvidenceCarryover_ProposalID : string;
  ProvisionalEvidenceCarryover_KnowledgeProposalID : string;
  ProvisionalEvidenceCarryover_SourceEvidenceID : string;
  ProvisionalEvidenceCarryover_SourceKnowledgeRevisionID : string;
  ProvisionalEvidenceCarryover_SourceNodeRevisionID : string;
  ProvisionalEvidenceCarryover_TargetKnowledgeRevisionID : string;
  ProvisionalEvidenceCarryover_Links : list EvidenceCarryoverLink;
  ProvisionalEvidenceCarryover_BasisFingerprint : string;
  ProvisionalEvidenceCarryover_PolicyVersion : string;
  ProvisionalEvidenceCarryover_ApprovedEventSequence : Z;
}.

Record EvidenceCarryoverEvent := mkEvidenceCarryoverEvent {
  EvidenceCarryoverEvent_ProposalID : string;
  EvidenceCarryoverEvent_DecisionID : string;
  EvidenceCarryoverEvent_RequestedDecision : string;
  EvidenceCarryoverEvent_Outcome : string;
  EvidenceCarryoverEvent_Reason : string;
  EvidenceCarryoverEvent_Provisional : option ProvisionalEvidenceCarryover;
}.

Record LearningEvent := mkLearningEvent {
  LearningEvent_EventSequence : Z;
  LearningEvent_ID : string;
  LearningEvent_Type : EventType;
  LearningEvent_SchemaVersion : Z;
  LearningEvent_AggregateType : string;
  LearningEvent_AggregateID : string;
  LearningEvent_AggregateVersion : Z;
  LearningEvent_DeviceID : string;
  LearningEvent_OperationID : string;
  LearningEvent_OperationOrdinal : Z;
  LearningEvent_ReceivedAt : time;
  LearningEvent_OccurredAt : option time;
  LearningEvent_PayloadID : string;
  LearningEvent_PayloadHash : string;
  LearningEvent_Payload : string;
  LearningEvent_ParentSessionID : string;
  LearningEvent_Source : string;
  LearningEvent_ArchiveDisposition : string;
  LearningEvent_EvidenceDisposition : string;
  LearningEvent_GoalRevisionID : string;
  LearningEvent_RouteRevisionID : string;
  LearningEvent_KnowledgeRevisionID : string;
  LearningEvent_ActivityID : string;
  LearningEvent_ActivityRevision : Z;
  LearningEvent_Redacted : bool;
}.

Record ProjectionMetadata := mkProjectionMetadata {
  ProjectionMetadata_AsOfEventSequence : Z;
  ProjectionMetadata_ProjectionVersion : string;
  ProjectionMetadata_MasteryReducerVersion : string;
  ProjectionMetadata_AssessmentPolicy : string;
  ProjectionMetadata_ReviewPolicy : string;
  ProjectionMetadata_KnowledgeRevisionID : string;
  ProjectionMetadata_GenerationID : string;
  ProjectionMetadata_Rebuilding : bool;
  ProjectionMetadata_Degraded : bool;
  ProjectionMetadata_Incomplete : bool;
  ProjectionMetadata_ReasonCodes : list string;
}.

Record RouteProjection := mkRouteProjection {
  RouteProjection_Route : RouteRevision;
  RouteProjection_EventSequence : Z;
  RouteProjection_Current : bool;
}.

Record SessionProjection := mkSessionProjection {
  SessionProjection_Session : Session;
  SessionProjection_UpdatedEventSequence : Z;
}.

Record AssessmentProjectionEvent := mkAssessmentProjectionEvent {
  AssessmentProjectionEvent_AssessmentID : string;
  AssessmentProjectionEvent_NodeRevisionID : string;
  AssessmentProjectionEvent_Reasons : list string;
  AssessmentProjectionEvent_Decision : AssessmentDecision;
}.

Record Projection := mkProjection {
  Projection_Metadata : ProjectionMetadata;
  Projection_Timeline : list TimelineItem;
  Projection_Routes : list RouteProjection;
  Projection_Sessions : gmap string SessionProjection;
  Projection_Stats : gmap string ActiveTimeEstimate;
  Projection_Evidence : gmap string AcceptedEvidence;
  Projection_Invalidated : gmap string bool;
  Projection_Pending : gmap string PendingAssessment;
  Projection_Nodes : gmap string NodeReduction;
  Projection_Carryovers : gmap string ProvisionalEvidenceCarryover;
  Projection_RedactedEvents : gmap string bool;
  Projection_Exposures : list Exposure;
}.

(** The payloads declared inside functions. *)
Record canonicalPrivacyRedactionPayload := mkCanonicalPrivacyRedactionPayload {
  canonical_ErasureID : string;
  canonical_Generation : Z;
  canonical_RedactedThroughEventSeq : option Z;
  canonical_PolicyVersion : string;
  canonical_ReasonCode : string;
}.

Record legacyPrivacyRedactionPayload := mkLegacyPrivacyRedactionPayload {
  legacy_ErasureID : string;
  legacy_Generation : Z;
  legacy_RedactedThrough : option Z;
  legacy_PolicyVersion : string;
  legacy_ReasonCode : string;
}.

Record PrivacyRedaction := mkPrivacyRedaction {
  privacy_ErasureID : string;
  privacy_Generation : Z;
  privacy_RedactedThroughEventSeq : Z;
  privacy_PolicyVersion : string;
  privacy_ReasonCode : string;
}.

Record QueuedAssessment := mkQueuedAssessment {
  queued_AssessmentID : string;
  queued_NodeRevisionID : string;
  queued_Reasons : list string;
}.

Record EventRedaction := mkEventRedaction {
  redaction_EventID : string;
  redaction_EvidenceID : string;
}.

(** [json.Unmarshal] at the type of each payload, [decodeStrictEventPayload] at
    the two privacy payloads, and [json.Marshal] of the canonical one. *)
Class PayloadCodec := {
  unmarshal_route : string → result error RouteRevision;
  unmarshal_session : string → result error SessionProjection;
  unmarshal_evidence : string → result error AcceptedEvidence;
  unmarshal_invalidation : string → result error string;
  unmarshal_assessment : string → result error AssessmentProjectionEvent;
  unmarshal_queue : string → result error QueuedAssessment;
  unmarshal_carryover : string → result error EvidenceCarryoverEvent;
  unmarshal_exposure : string → result error Exposure;
  unmarshal_redaction : string → result error EventRedaction;
  unmarshal_privacy : string → result error PrivacyRedaction;
  strict_legacy : string → result error legacyPrivacyRedactionPayload;
  strict_canonical : string → result error canonicalPrivacyRedactionPayload;
  marshal_canonical : canonicalPrivacyRedactionPayload → result error string;
}.

(** ** Field assignments *)
Definition set_Projection_Metadata (x : ProjectionMetadata) (r : Projection) : Projection :=
  mkProjection x (Projection_Timeline r) (Projection_Routes r) (Projection_Sessions r)
    (Projection_Stats r) (Projection_Evidence r) (Projection_Invalidated r)
    (Projection_Pending r) (Projection_Nodes r) (Projection_Carryovers r)
    (Projection_RedactedEvents r) (Projection_Exposures r).
Definition set_Projection_Timeline (x : list TimelineItem) (r : Projection) : Projection :=
  mkProjection (Projection_Metadata r) x (Projection_Routes r) (Projection_Sessions r)
    (Projection_Stats r) (Projection_Evidence r) (Projection_Invalidated r)
    (Projection_Pending r) (Projection_Nodes r) (Projection_Carryovers r)
    (Projection_RedactedEvents r) (Projection_Exposures r).
Definition set_Projection_Routes (x : list RouteProjection) (r : Projection) : Projection :=
  mkProjection (Projection_Metadata r) (Projection_Timeline r) x (Projection_Sessions r)
    (Projection_Stats r) (Projection_Evidence r) (Projection_Invalidated r)
    (Projection_Pending r) (Projection_Nodes r) (Projection_Carryovers r)
    (Projection_RedactedEvents r) (Projection_Exposures r).
Definition set_Projection_Sessions (x : gmap string SessionProjection) (r : Projection) : Projection :=
  mkProjection (Projection_Metadata r) (Projection_Timeline r) (Projection_Routes r) x
    (Projection_Stats r) (Projection_Evidence r) (Projection_Invalidated r)
    (Projection_Pending r) (Projection_Nodes r) (Projection_Carryovers r)
    (Projection_RedactedEvents r) (Projection_Exposures r).
Definition set_Projection_Stats (x : gmap string ActiveTimeEstimate) (r : Projection) : Projection :=
  mkProjection (Projection_Metadata r) (Projection_Timeline r) (Projection_Routes r)
    (Projection_Sessions r) x (Projection_Evidence r) (Projection_Invalidated r)
    (Projection_Pending r) (Projection_Nodes r) (Projection_Carryovers r)
    (Projection_RedactedEvents r) (Projection_Exposures r).
Definition set_Projection_Evidence (x : gmap string AcceptedEvidence) (r : Projection) : Projection :=
  mkProjection (Projection_Metadata r) (Projection_Timeline r) (Projection_Routes r)
    (Projection_Sessions r) (Projection_Stats r) x (Projection_Invalidated r)
    (Projection_Pending r) (Projection_Nodes r) (Projection_Carryovers r)
    (Projection_RedactedEvents r) (Projection_Exposures r).
Definition set_Projection_Invalidated (x : gmap string bool) (r : Projection) : Projection :=
  mkProjection (Projection_Metadata r) (Projection_Timeline r) (Projection_Routes r)
    (Projection_Sessions r) (Projection_Stats r) (Projection_Evidence r) x
    (Projection_Pending r) (Projection_Nodes r) (Projection_Carryovers r)
    (Projection_RedactedEvents r) (Projection_Exposures r).
Definition set_Projection_Pending (x : gmap string PendingAssessment) (r : Projection) : Projection :=
  mkProjection (Projection_Metadata r) (Projection_Timeline r) (Projection_Routes r)
    (Projection_Sessions r) (Projection_Stats r) (Projection_Evidence r)
    (Projection_Invalidated r) x (Projection_Nodes r) (Projection_Carryovers r)
    (Projection_RedactedEvents r) (Projection_Exposures r).
Definition set_Projection_Nodes (x : gmap string NodeReduction) (r : Projection) : Projection :=
  mkProjection (Projection_Metadata r) (Projection_Timeline r) (Projection_Routes r)
    (Projection_Sessions r) (Projection_Stats r) (Projection_Evidence r)
    (Projection_Invalidated r) (Projection_Pending r) x (Projection_Carryovers r)
    (Projection_RedactedEvents r) (Projection_Exposures r).
Definition set_Projection_Carryovers (x : gmap string ProvisionalEvidenceCarryover) (r : Projection) : Projection :=
  mkProjection (Projection_Metadata r) (Projection_Timeline r) (Projection_Routes r)
    (Projection_Sessions r) (Projection_Stats r) (Projection_Evidence r)
    (Projection_Invalidated r) (Projection_Pending r) (Projection_Nodes r) x
    (Projection_RedactedEvents r) (Projection_Exposures r).
Definition set_Projection_RedactedEvents (x : gmap string bool) (r : Projection) : Projection :=
  mkProjection (Projection_Metadata r) (Projection_Timeline r) (Projection_Routes r)
    (Projection_Sessions r) (Projection_Stats r) (Projection_Evidence r)
    (Projection_Invalidated r) (Projection_Pending r) (Projection_Nodes r)
    (Projection_Carryovers r) x (Projection_Exposures r).
Definition set_Projection_Exposures (x : list Exposure) (r : Projection) : Projection :=
  mkProjection (Projection_Metadata r) (Projection_Timeline r) (Projection_Routes r)
    (Projection_Sessions r) (Projection_Stats r) (Projection_Evidence r)
    (Projection_Invalidated r) (Projection_Pending r) (Projection_Nodes r)
    (Projection_Carryovers r) (Projection_RedactedEvents r) x.
Definition set_ProjectionMetadata_AsOfEventSequence (x : Z) (r : ProjectionMetadata) : ProjectionMetadata :=
  mkProjectionMetadata x (ProjectionMetadata_ProjectionVersion r)
    (ProjectionMetadata_MasteryReducerVersion r) (ProjectionMetadata_AssessmentPolicy r)
    (ProjectionMetadata_ReviewPolicy r) (ProjectionMetadata_KnowledgeRevisionID r)
    (ProjectionMetadata_GenerationID r) (ProjectionMetadata_Rebuilding r)
    (ProjectionMetadata_Degraded r) (ProjectionMetadata_Incomplete r)
    (ProjectionMetadata_ReasonCodes r).
Definition set_ProjectionMetadata_KnowledgeRevisionID (x : string) (r : ProjectionMetadata) : ProjectionMetadata :=
  mkProjectionMetadata (ProjectionMetadata_AsOfEventSequence r)
    (ProjectionMetadata_ProjectionVersion r) (ProjectionMetadata_MasteryReducerVersion r)
    (ProjectionMetadata_AssessmentPolicy r) (ProjectionMetadata_ReviewPolicy r) x
    (ProjectionMetadata_GenerationID r) (ProjectionMetadata_Rebuilding r)
    (ProjectionMetadata_Degraded r) (ProjectionMetadata_Incomplete r)
    (ProjectionMetadata_ReasonCodes r).
Definition set_ProjectionMetadata_Incomplete (x : bool) (r : ProjectionMetadata) : ProjectionMetadata :=
  mkProjectionMetadata (ProjectionMetadata_AsOfEventSequence r)
    (ProjectionMetadata_ProjectionVersion r) (ProjectionMetadata_MasteryReducerVersion r)
    (ProjectionMetadata_AssessmentPolicy r) (ProjectionMetadata_ReviewPolicy r)
    (ProjectionMetadata_KnowledgeRevisionID r) (ProjectionMetadata_GenerationID r)
    (ProjectionMetadata_Rebuilding r) (ProjectionMetadata_Degraded r) x
    (ProjectionMetadata_ReasonCodes r).
Definition set_ProjectionMetadata_ReasonCodes (x : list string) (r : ProjectionMetadata) : ProjectionMetadata :=
  mkProjectionMetadata (ProjectionMetadata_AsOfEventSequence r)
    (ProjectionMetadata_ProjectionVersion r) (ProjectionMetadata_MasteryReducerVersion r)
    (ProjectionMetadata_AssessmentPolicy r) (ProjectionMetadata_ReviewPolicy r)
    (ProjectionMetadata_KnowledgeRevisionID r) (ProjectionMetadata_GenerationID r)
    (ProjectionMetadata_Rebuilding r) (ProjectionMetadata_Degraded r)
    (ProjectionMetadata_Incomplete r) x.

Definition set_LearningEvent_Payload (x : string) (e : LearningEvent) : LearningEvent :=
  mkLearningEvent (LearningEvent_EventSequence e) (LearningEvent_ID e) (LearningEvent_Type e)
    (LearningEvent_SchemaVersion e) (LearningEvent_AggregateType e) (LearningEvent_AggregateID e)
    (LearningEvent_AggregateVersion e) (LearningEvent_DeviceID e) (LearningEvent_OperationID e)
    (LearningEvent_OperationOrdinal e) (LearningEvent_ReceivedAt e) (LearningEvent_OccurredAt e)
    (LearningEvent_PayloadID e) (LearningEvent_PayloadHash e) x (LearningEvent_ParentSessionID e)
    (LearningEvent_Source e) (LearningEvent_ArchiveDisposition e)
    (LearningEvent_EvidenceDisposition e) (LearningEvent_GoalRevisionID e)
    (LearningEvent_RouteRevisionID e) (LearningEvent_KnowledgeRevisionID e)
    (LearningEvent_ActivityID e) (LearningEvent_ActivityRevision e) (LearningEvent_Redacted e).

(** ** The event registry *)
Definition Decoder : Type := string → result error string.

Record EventRegistry := mkEventRegistry { registry_decoders : gmap Z Decoder }.

(** A [nil] decoder is [None]. *)
Definition Register (r : EventRegistry) (version : Z) (decoder : option Decoder) : EventRegistry :=
  match decoder with
  | Some d => if 0 <? version then mkEventRegistry (<[version := d]> (registry_decoders r)) else r
  | None => r
  end.

Definition decode_v1 : Decoder := fun payload =>
  _ ← fail_if (negb (json_valid payload)) (ErrorNew "invalid event payload");
  Ok payload.

Definition NewEventRegistry : EventRegistry := Register (mkEventRegistry ∅) 1 (Some decode_v1).

Section Projection.
Context `{UnicodeTables} `{PayloadCodec}.

Definition decodePrivacyRedactionPayload (version : Z) (payload : string) : result error string :=
  canonical ←
    (if decide (version = EventSchemaVersion) then
       legacy ← strict_legacy payload;
       Ok (mkCanonicalPrivacyRedactionPayload (legacy_ErasureID legacy) (legacy_Generation legacy)
             (legacy_RedactedThrough legacy) (legacy_PolicyVersion legacy) (legacy_ReasonCode legacy))
     else if decide (version = EventRedactedSchemaVersion) then strict_canonical payload
     else Err (ErrorNew "unsupported privacy redaction schema"));
  _ ← fail_if (bool_decide (canonical_RedactedThroughEventSeq canonical = None))
        (ErrorNew "privacy redaction sequence is required");
  marshal_canonical canonical.

Definition unsupported_schema (version : Z) : error :=
  err_reason CodeUnsupportedEventSchema ("version_" +:+ pretty version).

Definition privacy_event (event : LearningEvent) : bool :=
  bool_decide (LearningEvent_Type event = EventRedacted)
  && bool_decide (LearningEvent_AggregateType event = "privacy").

Definition Decode (r : EventRegistry) (event : LearningEvent) : result error LearningEvent :=
  if privacy_event event then
    match decodePrivacyRedactionPayload (LearningEvent_SchemaVersion event)
            (LearningEvent_Payload event) with
    | Err err =>
      if negb (LearningEvent_SchemaVersion event =? EventSchemaVersion)
         && negb (LearningEvent_SchemaVersion event =? EventRedactedSchemaVersion)
      then Err (unsupported_schema (LearningEvent_SchemaVersion event))
      else Err (err_cause CodeProjectionUnavailable "" err)
    | Ok payload => Ok (set_LearningEvent_Payload payload event)
    end
  else
    match registry_decoders r !! LearningEvent_SchemaVersion event with
    | None => Err (unsupported_schema (LearningEvent_SchemaVersion event))
    | Some decoder =>
      match decoder (LearningEvent_Payload event) with
      | Err err => Err (err_cause CodeProjectionUnavailable "" err)
      | Ok payload => Ok (set_LearningEvent_Payload payload event)
      end
    end.

(** ** The projection *)
Definition EmptyProjection (generationID : string) : Projection :=
  mkProjection
    (mkProjectionMetadata 0 ProjectionVersion MasteryReducerVersion AssessmentPolicyVersion
       ReviewPolicyVersion "" generationID false false false [])
    [] [] ∅ ∅ ∅ ∅ ∅ ∅ ∅ ∅ [].

Definition as_of (p : Projection) : Z := ProjectionMetadata_AsOfEventSequence (Projection_Metadata p).

Definition set_as_of (seq : Z) (p : Projection) : Projection :=
  set_Projection_Metadata (set_ProjectionMetadata_AsOfEventSequence seq (Projection_Metadata p)) p.

Definition appendUnique (values : list string) (value : string) : list string :=
  if existsb (fun current => bool_decide (current = value)) values then values else values ++ [value].

Definition timelineItem (event : LearningEvent) : TimelineItem :=
  let source := if decide (LearningEvent_Source event = "") then "online"
                else LearningEvent_Source event in
  mkTimelineItem (LearningEvent_EventSequence event) (LearningEvent_ID event)
    (LearningEvent_Type event) (LearningEvent_AggregateID event)
    (LearningEvent_ParentSessionID event) source (LearningEvent_ArchiveDisposition event)
    (LearningEvent_EvidenceDisposition event) (LearningEvent_DeviceID event)
    (LearningEvent_ReceivedAt event) (LearningEvent_OccurredAt event) false.

(** The values [recomputeNode] collects: the evidence of the node, and its
    pending assessments in the order of their identifiers. *)
Definition node_evidence (p : Projection) (node : string) : list AcceptedEvidence :=
  filter (fun e => AcceptedEvidence_NodeRevisionID e = node) (map_to_list (Projection_Evidence p)).*2.

Definition node_pending (p : Projection) (node : string) : list PendingAssessment :=
  omap (fun id => Projection_Pending p !! id)
    (sort_strings
       (filter (fun kv => PendingAssessment_NodeRevisionID kv.2 = node)
          (map_to_list (Projection_Pending p))).*1).

Definition node_reduction (p : Projection) (node : string) : NodeReduction :=
  ReduceNode node (node_evidence p node) (Projection_Invalidated p) (node_pending p node).

Definition recomputeNode (p : Projection) (node : string) : Projection :=
  if decide (node = "") then p
  else set_Projection_Nodes (<[node := node_reduction p node]> (Projection_Nodes p)) p.

(** *** The cases of the [switch] of [ApplyEvent] *)
Definition apply_route (p : Projection) (decoded : LearningEvent) : result error Projection :=
  route ← unmarshal_route (LearningEvent_Payload decoded);
  _ ← fail_if (bool_decide (RouteRevision_ID route = "") || bool_decide (RouteRevision_RouteID route = "")
               || bool_decide (RouteRevision_GoalRevisionID route = "")
               || bool_decide (RouteRevision_KnowledgeRevisionID route = "")
               || negb (StableRouteSteps (RouteRevision_Steps route)))
        (ErrorNew "route revision payload is incomplete");
  let retire r :=
    if decide (RouteRevision_RouteID (RouteProjection_Route r) = RouteRevision_RouteID route)
    then mkRouteProjection (RouteProjection_Route r) (RouteProjection_EventSequence r) false else r in
  let p := set_Projection_Routes ((retire <$> Projection_Routes p)
             ++ [mkRouteProjection route (LearningEvent_EventSequence decoded) true]) p in
  Ok (set_Projection_Metadata (set_ProjectionMetadata_KnowledgeRevisionID
        (RouteRevision_KnowledgeRevisionID route) (Projection_Metadata p)) p).

Definition apply_session (p : Projection) (decoded : LearningEvent) : result error Projection :=
  session ← unmarshal_session (LearningEvent_Payload decoded);
  let s := SessionProjection_Session session in
  _ ← fail_if (bool_decide (ses_ID s = "") || bool_decide (State_string (ses_State s) = ""))
        (ErrorNew "session projection payload is incomplete");
  let p := set_Projection_Sessions
             (<[ses_ID s := mkSessionProjection s (LearningEvent_EventSequence decoded)]>
                (Projection_Sessions p)) p in
  Ok (match Projection_Stats p !! ses_ID s with
      | Some _ => p
      | None => set_Projection_Stats
                  (<[ses_ID s := EstimateActiveTime (ses_ID s) []]> (Projection_Stats p)) p
      end).

Definition set_accepted_sequence (seq : Z) (e : AcceptedEvidence) : AcceptedEvidence :=
  mkAcceptedEvidence (AcceptedEvidence_ID e) (AcceptedEvidence_DispositionDecisionID e)
    (AcceptedEvidence_AssessmentID e) (AcceptedEvidence_AttemptID e) (AcceptedEvidence_ActivityID e)
    (AcceptedEvidence_ActivityRevision e) (AcceptedEvidence_GoalRevisionID e)
    (AcceptedEvidence_RouteRevisionID e) (AcceptedEvidence_KnowledgeRevisionID e)
    (AcceptedEvidence_NodeRevisionID e) (AcceptedEvidence_RubricRevision e)
    (AcceptedEvidence_Kind e) (AcceptedEvidence_ActivityType e) (AcceptedEvidence_Outcome e)
    (AcceptedEvidence_Help e) (AcceptedEvidence_ReceivedAt e) seq
    (AcceptedEvidence_AcceptancePolicyVersion e) (AcceptedEvidence_ReducerPolicyVersion e)
    (AcceptedEvidence_ReviewPolicyVersion e) (AcceptedEvidence_Misconceptions e)
    (AcceptedEvidence_RubricOutcomes e).

Definition apply_evidence (p : Projection) (decoded : LearningEvent) : result error Projection :=
  evidence ← unmarshal_evidence (LearningEvent_Payload decoded);
  evidence ←
    (if AcceptedEvidence_AcceptedEventSequence evidence =? 0
     then Ok (set_accepted_sequence (LearningEvent_EventSequence decoded) evidence)
     else if negb (AcceptedEvidence_AcceptedEventSequence evidence =? LearningEvent_EventSequence decoded)
     then Err (ErrorNew "accepted evidence event sequence does not match envelope")
     else Ok evidence);
  let p := set_Projection_Evidence
             (<[AcceptedEvidence_ID evidence := evidence]> (Projection_Evidence p)) p in
  Ok (recomputeNode p (AcceptedEvidence_NodeRevisionID evidence)).

(** Marking evidence invalid, shared by two cases. *)
Definition invalidate (p : Projection) (evidenceID : string) : Projection :=
  let p := set_Projection_Invalidated (<[evidenceID := true]> (Projection_Invalidated p)) p in
  match Projection_Evidence p !! evidenceID with
  | Some evidence => recomputeNode p (AcceptedEvidence_NodeRevisionID evidence)
  | None => p
  end.

Definition apply_invalidation (p : Projection) (decoded : LearningEvent) : result error Projection :=
  evidenceID ← unmarshal_invalidation (LearningEvent_Payload decoded);
  Ok (invalidate p evidenceID).

Definition put_pending (p : Projection) (pending : PendingAssessment) : Projection :=
  recomputeNode (set_Projection_Pending
    (<[PendingAssessment_AssessmentID pending := pending]> (Projection_Pending p)) p)
    (PendingAssessment_NodeRevisionID pending).

Definition apply_provisional (p : Projection) (decoded : LearningEvent) : result error Projection :=
  payload ← unmarshal_assessment (LearningEvent_Payload decoded);
  _ ← fail_if (bool_decide (AssessmentProjectionEvent_AssessmentID payload = "")
               || bool_decide (AssessmentProjectionEvent_NodeRevisionID payload = ""))
        (ErrorNew "provisional assessment payload is incomplete");
  Ok (put_pending p (mkPendingAssessment (AssessmentProjectionEvent_AssessmentID payload)
        (AssessmentProjectionEvent_NodeRevisionID payload) (AssessmentProjectionEvent_Reasons payload))).

Definition apply_disposition (p : Projection) (decoded : LearningEvent) : result error Projection :=
  payload ← unmarshal_assessment (LearningEvent_Payload decoded);
  _ ← fail_if (bool_decide (AssessmentProjectionEvent_AssessmentID payload = "")
               || bool_decide (AssessmentProjectionEvent_NodeRevisionID payload = ""))
        (ErrorNew "assessment disposition payload is incomplete");
  let id := AssessmentProjectionEvent_AssessmentID payload in
  let p := match Projection_Pending p !! id with
           | Some pending =>
             recomputeNode (set_Projection_Pending (delete id (Projection_Pending p)) p)
               (PendingAssessment_NodeRevisionID pending)
           | None => p
           end in
  Ok (recomputeNode p (AssessmentProjectionEvent_NodeRevisionID payload)).

Definition apply_queue (p : Projection) (decoded : LearningEvent) : result error Projection :=
  payload ← unmarshal_queue (LearningEvent_Payload decoded);
  _ ← fail_if (bool_decide (queued_AssessmentID payload = "")
               || bool_decide (queued_NodeRevisionID payload = ""))
        (ErrorNew "offline assessment queue payload is incomplete");
  Ok (put_pending p (mkPendingAssessment (queued_AssessmentID payload)
        (queued_NodeRevisionID payload) (queued_Reasons payload))).

Definition set_approved_sequence (seq : Z) (c : ProvisionalEvidenceCarryover) : ProvisionalEvidenceCarryover :=
  mkProvisionalEvidenceCarryover (ProvisionalEvidenceCarryover_ProposalID c)
    (ProvisionalEvidenceCarryover_KnowledgeProposalID c)
    (ProvisionalEvidenceCarryover_SourceEvidenceID c)
    (ProvisionalEvidenceCarryover_SourceKnowledgeRevisionID c)
    (ProvisionalEvidenceCarryover_SourceNodeRevisionID c)
    (ProvisionalEvidenceCarryover_TargetKnowledgeRevisionID c)
    (ProvisionalEvidenceCarryover_Links c) (ProvisionalEvidenceCarryover_BasisFingerprint c)
    (ProvisionalEvidenceCarryover_PolicyVersion c) seq.

Definition incomplete_carryover : error := ErrorNew "approved evidence carryover payload is incomplete".

Definition apply_carryover (p : Projection) (decoded : LearningEvent) : result error Projection :=
  payload ← unmarshal_carryover (LearningEvent_Payload decoded);
  match EvidenceCarryoverEvent_Provisional payload with
  | None => Err incomplete_carryover
  | Some provisional =>
    _ ← fail_if (bool_decide (EvidenceCarryoverEvent_ProposalID payload = "")
        || bool_decide (EvidenceCarryoverEvent_DecisionID payload = "")
        || negb (bool_decide (EvidenceCarryoverEvent_RequestedDecision payload = "approve"))
        || negb (bool_decide (EvidenceCarryoverEvent_Outcome payload
                              = EvidenceCarryoverStatus_string EvidenceCarryoverApproved))
        || negb (bool_decide (ProvisionalEvidenceCarryover_ProposalID provisional
                              = EvidenceCarryoverEvent_ProposalID payload))
        || is_nil (ProvisionalEvidenceCarryover_Links provisional)) incomplete_carryover;
    carryover ←
      (if ProvisionalEvidenceCarryover_ApprovedEventSequence provisional =? 0
       then Ok (set_approved_sequence (LearningEvent_EventSequence decoded) provisional)
       else if negb (ProvisionalEvidenceCarryover_ApprovedEventSequence provisional
                     =? LearningEvent_EventSequence decoded)
       then Err (ErrorNew "approved evidence carryover event sequence does not match envelope")
       else Ok provisional);
    Ok (set_Projection_Carryovers
          (<[ProvisionalEvidenceCarryover_ProposalID carryover := carryover]> (Projection_Carryovers p)) p)
  end.

Definition apply_carryover_end (p : Projection) (decoded : LearningEvent) : result error Projection :=
  payload ← unmarshal_carryover (LearningEvent_Payload decoded);
  _ ← fail_if (bool_decide (EvidenceCarryoverEvent_ProposalID payload = "")
               || bool_decide (EvidenceCarryoverEvent_DecisionID payload = "")
               || bool_decide (EvidenceCarryoverEvent_Provisional payload ≠ None))
        (ErrorNew "terminal evidence carryover payload is incomplete");
  Ok p.

Definition apply_exposure (p : Projection) (decoded : LearningEvent) : result error Projection :=
  exposure ← unmarshal_exposure (LearningEvent_Payload decoded);
  Ok (set_Projection_Exposures (Projection_Exposures p ++ [exposure]) p).

Definition apply_redaction (p : Projection) (decoded : LearningEvent) : result error Projection :=
  payload ← unmarshal_redaction (LearningEvent_Payload decoded);
  let p := set_Projection_RedactedEvents
             (<[redaction_EventID payload := true]> (Projection_RedactedEvents p)) p in
  Ok (if decide (redaction_EvidenceID payload = "") then p
      else invalidate p (redaction_EvidenceID payload)).

(** The [switch]; every case fails before it changes the projection. *)
Definition apply_payload (p : Projection) (decoded : LearningEvent) : result error Projection :=
  match LearningEvent_Type decoded with
  | EventRouteRevisionCreated => apply_route p decoded
  | EventTutoringStateChanged | EventLearningSessionStarted | EventFocusSuspended
  | EventFocusResumed | EventRouteAdvanced | EventLearningCompleted => apply_session p decoded
  | EventEvidenceAccepted => apply_evidence p decoded
  | EventEvidenceInvalidated => apply_invalidation p decoded
  | EventAssessmentMarkedProvisional => apply_provisional p decoded
  | EventAssessmentAccepted | EventAssessmentOverridden | EventAssessmentVoided =>
    apply_disposition p decoded
  | EventOfflineAssessmentQueued => apply_queue p decoded
  | EventEvidenceCarryoverApproved => apply_carryover p decoded
  | EventEvidenceCarryoverRejected | EventEvidenceCarryoverStaled => apply_carryover_end p decoded
  | EventExposureRecorded => apply_exposure p decoded
  | EventRedacted => apply_redaction p decoded
  | _ => Ok p
  end.

(** What follows the [switch]. *)
Definition apply_activity (p : Projection) (decoded : LearningEvent) : Projection :=
  let activeSessionID :=
    if decide (LearningEvent_AggregateType decoded = "session") then LearningEvent_AggregateID decoded
    else if decide (LearningEvent_Source decoded = "offline") then LearningEvent_ParentSessionID decoded
    else "" in
  let p :=
    if negb (bool_decide (activeSessionID = "")) && isActiveTimeEvent (LearningEvent_Type decoded)
    then set_Projection_Stats
           (<[activeSessionID := estimateActiveTimeFromTimeline activeSessionID (Projection_Timeline p)]>
              (Projection_Stats p)) p
    else p in
  if decide (LearningEvent_AggregateType decoded = "session") then
    match Projection_Sessions p !! LearningEvent_AggregateID decoded with
    | Some session =>
      let s := SessionProjection_Session session in
      set_Projection_Sessions
        (<[LearningEvent_AggregateID decoded :=
             mkSessionProjection
               (mkSession (ses_ID s) (ses_State s) (LearningEvent_AggregateVersion decoded)
                  (ses_Context s) (ses_ActiveFrame s) (ses_FocusFrameInvalidated s)
                  (ses_AttachedQuiz s) (ses_CompletedRoute s))
               (LearningEvent_EventSequence decoded)]> (Projection_Sessions p)) p
    | None => p
    end
  else p.

(** The privacy redaction: the projection starts over. *)
Definition apply_privacy (p : Projection) (decoded : LearningEvent) : Projection * option error :=
  match unmarshal_privacy (LearningEvent_Payload decoded) with
  | Err err => (p, Some err)
  | Ok payload =>
    if bool_decide (privacy_ErasureID payload = "") || (privacy_Generation payload <? 2)
       || (privacy_RedactedThroughEventSeq payload <? 0)
       || (LearningEvent_EventSequence decoded <=? privacy_RedactedThroughEventSeq payload)
       || bool_decide (privacy_PolicyVersion payload = "")
       || bool_decide (privacy_ReasonCode payload = "")
       || negb (bool_decide (LearningEvent_AggregateID decoded = privacy_ErasureID payload))
    then (p, Some (ErrorNew "privacy redaction payload is incomplete"))
    else
      let q := set_as_of (LearningEvent_EventSequence decoded)
                 (EmptyProjection (ProjectionMetadata_GenerationID (Projection_Metadata p))) in
      (set_Projection_Timeline (Projection_Timeline q ++ [timelineItem decoded])
         (set_Projection_RedactedEvents
            (<[LearningEvent_ID decoded := true]> (Projection_RedactedEvents q)) q), None)
  end.

Definition not_increasing : error := ErrorNew "event sequence is not strictly increasing".

Definition ApplyEvent (p : Projection) (registry : EventRegistry) (event : LearningEvent)
  : Projection * option error :=
  if LearningEvent_Redacted event then
    if LearningEvent_EventSequence event <=? as_of p then (p, Some not_increasing)
    else
      let p := set_as_of (LearningEvent_EventSequence event) p in
      (set_Projection_RedactedEvents
         (<[LearningEvent_ID event := true]> (Projection_RedactedEvents p)) p, None)
  else
    match Decode registry event with
    | Err err =>
      let m := Projection_Metadata p in
      (set_Projection_Metadata
         (set_ProjectionMetadata_ReasonCodes
            (appendUnique (ProjectionMetadata_ReasonCodes m) (ErrorCode err))
            (set_ProjectionMetadata_Incomplete true m)) p, Some err)
    | Ok decoded =>
      if LearningEvent_EventSequence decoded <=? as_of p then (p, Some not_increasing)
      else
        let p := set_as_of (LearningEvent_EventSequence decoded) p in
        if privacy_event decoded then apply_privacy p decoded
        else
          let p := set_Projection_Timeline (Projection_Timeline p ++ [timelineItem decoded]) p in
          match apply_payload p decoded with
          | Err err => (p, Some err)
          | Ok p => (apply_activity p decoded, None)
          end
    end.

(** The loop of [Replay]. *)
Fixpoint replay_from (p : Projection) (registry : EventRegistry) (events : list LearningEvent)
  : Projection * option error :=
  match events with
  | [] => (p, None)
  | event :: events =>
    match ApplyEvent p registry event with
    | (p, Some err) => (p, Some err)
    | (p, None) => replay_from p registry events
    end
  end.

Definition event_less (x y : LearningEvent) : bool :=
  LearningEvent_EventSequence x <? LearningEvent_EventSequence y.

Definition Replay (events : list LearningEvent) (registry : EventRegistry) (generationID : string)
  : Projection * option error :=
  replay_from (EmptyProjection generationID) registry (sort_by event_less events).
End Projection.

(** ** Maps keyed by a field of their values *)
Section KeyedMap.
Context {A : Type} (key : A → string).

Definition keyed_map (m : gmap string A) : Prop := ∀ k x, m !! k = Some x → key x = k.

Lemma keyed_map_insert m x : keyed_map m → keyed_map (<[key x := x]> m).
Proof. intros Hm k y. rewrite lookup_insert_Some. intros [[<- <-]|[_ Hk]]; [done|by apply Hm]. Qed.

Lemma keyed_map_delete m k : keyed_map m → keyed_map (delete k m).
Proof. intros Hm j y Hy. apply lookup_delete_Some in Hy as [_ Hy]. by apply Hm. Qed.

Lemma elem_of_values m x : keyed_map m → x ∈ (map_to_list m).*2 ↔ m !! key x = Some x.
Proof.
  intros Hm. rewrite list_elem_of_fmap. split.
  - intros ([k y] & -> & Hky). apply elem_of_map_to_list in Hky. simpl.
    by rewrite (Hm _ _ Hky).
  - intros Hx. exists (key x, x). by rewrite elem_of_map_to_list.
Qed.

Lemma keyed_map_keys m : keyed_map m → key <$> (map_to_list m).*2 = (map_to_list m).*1.
Proof.
  intros Hm. rewrite <- list_fmap_compose. apply list_fmap_ext.
  intros i [k x] Hi. simpl. apply Hm.
  apply elem_of_map_to_list. by eapply list_elem_of_lookup_2.
Qed.

Lemma NoDup_keys m (P : A → Prop) `{∀ x, Decision (P x)} :
  keyed_map m → NoDup (key <$> filter P (map_to_list m).*2).
Proof.
  intros Hm. eapply sublist_NoDup; [|apply fmap_sublist, sublist_filter].
  rewrite keyed_map_keys by done. apply NoDup_fst_map_to_list.
Qed.

(** The values with a property, when two maps agree on them. *)
Lemma filter_values_Permutation m m' (P : A → Prop) `{∀ x, Decision (P x)} :
  keyed_map m → keyed_map m' →
  (∀ k x, P x → m' !! k = Some x ↔ m !! k = Some x) →
  filter P (map_to_list m).*2 ≡ₚ filter P (map_to_list m').*2.
Proof.
  intros Hm Hm' Heq. apply NoDup_Permutation.
  - eapply (NoDup_fmap_1 key), NoDup_keys. done.
  - eapply (NoDup_fmap_1 key), NoDup_keys. done.
  - intros x. rewrite !list_elem_of_filter, !elem_of_values by done.
    split; intros [HP Hx]; (split; [done|]); by apply Heq.
Qed.
End KeyedMap.

Lemma omap_lookup_keys {A} (l : list (string * A)) (m : gmap string A) :
  (∀ k x, (k, x) ∈ l → m !! k = Some x) → omap (fun k => m !! k) l.*1 = l.*2.
Proof.
  induction l as [|[k x] l IH]; intros Hl; simpl; [done|].
  rewrite (Hl k x) by apply list_elem_of_here.
  f_equal. apply IH. intros k' x' Hk. apply Hl. by apply list_elem_of_further.
Qed.

Lemma filter_snd {A} (P : A → Prop) `{∀ x, Decision (P x)} (l : list (string * A)) :
  (filter (fun kv => P kv.2) l).*2 = filter P l.*2.
Proof.
  induction l as [|[k x] l IH]; [done|]. cbn [fmap list_fmap snd]. rewrite !filter_cons. cbn [snd].
  case_decide; [cbn [fmap list_fmap snd]; f_equal|]; exact IH.
Qed.

Section Facts.
Context `{UnicodeTables} `{PayloadCodec}.

(** ** Node caches *)

(** The maps of a projection are keyed by the identifiers of their values. *)
Definition keyed_projection (p : Projection) : Prop :=
  keyed_map AcceptedEvidence_ID (Projection_Evidence p)
  ∧ keyed_map PendingAssessment_AssessmentID (Projection_Pending p).

Lemma node_pending_values p node :
  node_pending p node ≡ₚ
    filter (fun d => PendingAssessment_NodeRevisionID d = node) (map_to_list (Projection_Pending p)).*2.
Proof.
  unfold node_pending, sort_strings. rewrite sort_by_Permutation, <- filter_snd.
  rewrite omap_lookup_keys; [done|].
  intros k x Hkx. apply list_elem_of_filter in Hkx as [_ Hkx]. by apply elem_of_map_to_list.
Qed.

(** A reduction only depends on the records of its node. *)
Lemma node_reduction_frame p p' node :
  keyed_projection p → keyed_projection p' →
  (∀ k e, AcceptedEvidence_NodeRevisionID e = node →
     Projection_Evidence p' !! k = Some e ↔ Projection_Evidence p !! k = Some e) →
  (∀ k d, PendingAssessment_NodeRevisionID d = node →
     Projection_Pending p' !! k = Some d ↔ Projection_Pending p !! k = Some d) →
  (∀ k e, Projection_Evidence p !! k = Some e → AcceptedEvidence_NodeRevisionID e = node →
     Projection_Invalidated p !! k = Projection_Invalidated p' !! k) →
  node_reduction p node = node_reduction p' node.
Proof.
  intros [He Hd] [He' Hd'] HE HD HI. apply ReduceNode_ext.
  - by apply NoDup_keys.
  - by apply (filter_values_Permutation AcceptedEvidence_ID).
  - rewrite !node_pending_values. by apply (filter_values_Permutation PendingAssessment_AssessmentID).
  - intros e He'' Hn. apply list_elem_of_filter in He'' as [_ Hin].
    apply (elem_of_values AcceptedEvidence_ID) in Hin; [|done]. by eapply HI.
Qed.

(** The cached node [n] is up to date. *)
Definition node_current (p : Projection) (n : string) : Prop :=
  match Projection_Nodes p !! n with
  | Some r => n ≠ "" ∧ r = node_reduction p n
  | None => (∀ k e, Projection_Evidence p !! k = Some e → AcceptedEvidence_NodeRevisionID e = n → n = "")
      ∧ (∀ k d, Projection_Pending p !! k = Some d → PendingAssessment_NodeRevisionID d = n → n = "")
  end.

(** Every node with evidence or a pending assessment is cached, and every
    cached reduction is the one a recomputation would give now. *)
Definition nodes_consistent (p : Projection) : Prop :=
  keyed_projection p ∧ ∀ n, node_current p n.

(** The parts of the projection the node cache is about. *)
Definition node_inputs (p : Projection) :=
  (Projection_Evidence p, Projection_Invalidated p, Projection_Pending p, Projection_Nodes p).

Lemma nodes_consistent_inputs p p' :
  node_inputs p = node_inputs p' → nodes_consistent p → nodes_consistent p'.
Proof.
  unfold node_inputs, nodes_consistent, keyed_projection, node_current, node_reduction, node_evidence,
    node_pending. by intros [= <- <- <- <-].
Qed.

Lemma recompute_current p n : n ≠ "" → node_current (recomputeNode p n) n.
Proof.
  intros Hn. unfold recomputeNode, node_current. rewrite decide_False by done. simpl.
  by rewrite lookup_insert_eq.
Qed.

Lemma recompute_other p n m : m ≠ n → node_current p m → node_current (recomputeNode p n) m.
Proof.
  intros Hm Hc. unfold recomputeNode. case_decide; [done|]. unfold node_current in *. simpl.
  by rewrite lookup_insert_ne.
Qed.

Lemma recompute_empty_current p :
  node_current p "" ↔ Projection_Nodes p !! "" = None.
Proof.
  unfold node_current. destruct (Projection_Nodes p !! ""); [|done].
  split; [by intros []|done].
Qed.

(** A change of the inputs that only concerns node [n], then a recomputation. *)
Lemma recompute_consistent p p' n :
  nodes_consistent p → keyed_projection p' → Projection_Nodes p' = Projection_Nodes p →
  (∀ k e, AcceptedEvidence_NodeRevisionID e ≠ n →
     Projection_Evidence p' !! k = Some e ↔ Projection_Evidence p !! k = Some e) →
  (∀ k d, PendingAssessment_NodeRevisionID d ≠ n →
     Projection_Pending p' !! k = Some d ↔ Projection_Pending p !! k = Some d) →
  (∀ k e, Projection_Evidence p !! k = Some e → AcceptedEvidence_NodeRevisionID e ≠ n →
     Projection_Invalidated p !! k = Projection_Invalidated p' !! k) →
  nodes_consistent (recomputeNode p' n).
Proof.
  intros [Hk Hc] Hk' HN HE HD HI.
  assert (keyed_projection (recomputeNode p' n)) as Hkr
    by (unfold recomputeNode; case_decide; done).
  split; [done|]. intros m. destruct (decide (m = n)) as [->|Hm].
  - destruct (decide (n = "")) as [->|Hn]; [|by apply recompute_current].
    apply recompute_empty_current. unfold recomputeNode. rewrite decide_True by done. rewrite HN.
    by apply recompute_empty_current.
  - apply recompute_other; [done|]. specialize (Hc m). unfold node_current in *. rewrite HN.
    destruct (Projection_Nodes p !! m) as [r|].
    + destruct Hc as [Hne ->]. split; [done|]. apply node_reduction_frame; try done.
      * intros k e He. apply HE. congruence.
      * intros k d Hd. apply HD. congruence.
      * intros k e He Hem. eapply HI; [done|congruence].
    + destruct Hc as [Hce Hcd]. split; intros k x Hx Hxm.
      * eapply Hce; [|done]. apply HE; [congruence|done].
      * eapply Hcd; [|done]. apply HD; [congruence|done].
Qed.

(** [ApplyEvent] files records under their identifiers; a record must not come
    back under another node, or the cache of the old one would go stale. *)
Definition evidence_stays (p : Projection) (e : AcceptedEvidence) : Prop :=
  ∀ old, Projection_Evidence p !! AcceptedEvidence_ID e = Some old →
    AcceptedEvidence_NodeRevisionID old = AcceptedEvidence_NodeRevisionID e.
Definition pending_stays (p : Projection) (id node : string) : Prop :=
  ∀ old, Projection_Pending p !! id = Some old → PendingAssessment_NodeRevisionID old = node.

Definition records_stay (p : Projection) (decoded : LearningEvent) : Prop :=
  let payload := LearningEvent_Payload decoded in
  match LearningEvent_Type decoded with
  | EventEvidenceAccepted => ∀ e, unmarshal_evidence payload = Ok e → evidence_stays p e
  | EventAssessmentMarkedProvisional => ∀ a, unmarshal_assessment payload = Ok a →
      pending_stays p (AssessmentProjectionEvent_AssessmentID a) (AssessmentProjectionEvent_NodeRevisionID a)
  | EventOfflineAssessmentQueued => ∀ q, unmarshal_queue payload = Ok q →
      pending_stays p (queued_AssessmentID q) (queued_NodeRevisionID q)
  | _ => True
  end.

Lemma put_evidence_consistent p e :
  nodes_consistent p → evidence_stays p e →
  nodes_consistent (recomputeNode (set_Projection_Evidence
    (<[AcceptedEvidence_ID e := e]> (Projection_Evidence p)) p) (AcceptedEvidence_NodeRevisionID e)).
Proof.
  intros Hc Hs. pose proof Hc as [[He Hd] _].
  eapply recompute_consistent; [exact Hc| |done| |done|done].
  - split; [by apply keyed_map_insert|done].
  - intros k x Hx. simpl. rewrite lookup_insert_Some. split.
    + by intros [[<- <-]|[_ ?]].
    + intros Hk. right. split; [|done]. intros <-. by rewrite (Hs _ Hk) in Hx.
Qed.

Lemma put_pending_consistent p d :
  nodes_consistent p →
  pending_stays p (PendingAssessment_AssessmentID d) (PendingAssessment_NodeRevisionID d) →
  nodes_consistent (put_pending p d).
Proof.
  intros Hc Hs. pose proof Hc as [[He Hd] _].
  eapply recompute_consistent; [exact Hc| |done|done| |done].
  - split; [done|by apply keyed_map_insert].
  - intros k x Hx. simpl. rewrite lookup_insert_Some. split.
    + by intros [[<- <-]|[_ ?]].
    + intros Hk. right. split; [|done]. intros <-. by rewrite (Hs _ Hk) in Hx.
Qed.

Lemma delete_pending_consistent p id d :
  nodes_consistent p → Projection_Pending p !! id = Some d →
  nodes_consistent (recomputeNode (set_Projection_Pending (delete id (Projection_Pending p)) p)
    (PendingAssessment_NodeRevisionID d)).
Proof.
  intros Hc Hid. pose proof Hc as [[He Hd] _].
  eapply recompute_consistent; [exact Hc| |done|done| |done].
  - split; [done|by apply keyed_map_delete].
  - intros k x Hx. simpl. rewrite lookup_delete_Some. split; [by intros [_ ?]|].
    intros Hk. split; [|done]. intros <-. congruence.
Qed.

Lemma recompute_again p n : nodes_consistent p → nodes_consistent (recomputeNode p n).
Proof. intros Hc. eapply recompute_consistent; [exact Hc|by destruct Hc|done..]. Qed.

Lemma invalidate_consistent p id : nodes_consistent p → nodes_consistent (invalidate p id).
Proof.
  intros Hc. pose proof Hc as [[He Hd] Hcur]. unfold invalidate. simpl.
  set (p' := set_Projection_Invalidated _ p).
  destruct (Projection_Evidence p !! id) as [e|] eqn:Hid.
  - eapply recompute_consistent; [exact Hc|done|done|done|done|].
    intros k x Hk Hx. simpl. rewrite lookup_insert_ne; [done|]. intros <-. congruence.
  - split; [done|]. intros n. specialize (Hcur n). unfold node_current in *. simpl.
    destruct (Projection_Nodes p !! n) as [r|]; [|done].
    destruct Hcur as [Hn ->]. split; [done|]. apply node_reduction_frame; try done.
    intros k x Hk Hx. simpl. rewrite lookup_insert_ne; [done|]. intros <-. congruence.
Qed.

Lemma apply_evidence_consistent p decoded p' :
  nodes_consistent p →
  (∀ e, unmarshal_evidence (LearningEvent_Payload decoded) = Ok e → evidence_stays p e) →
  apply_evidence p decoded = Ok p' → nodes_consistent p'.
Proof.
  intros Hc Hs H1. unfold apply_evidence in H1. apply bind_Ok in H1 as (e & He & H1).
  specialize (Hs e He). apply bind_Ok in H1 as (e' & He' & [= <-]).
  destruct (_ =? 0) in He'; [|destruct (negb _) in He'; [done|]]; injection He' as <-;
    by apply put_evidence_consistent.
Qed.

Lemma apply_disposition_consistent p decoded p' :
  nodes_consistent p → apply_disposition p decoded = Ok p' → nodes_consistent p'.
Proof.
  intros Hc H1. unfold apply_disposition in H1. apply bind_Ok in H1 as (a & _ & H1).
  apply guard_Ok in H1 as [_ [= <-]]. apply recompute_again.
  destruct (Projection_Pending p !! _) as [d|] eqn:Hd; [|done]. by apply delete_pending_consistent.
Qed.

(** The cases that leave the inputs of the cache alone. *)
Lemma apply_route_inputs p decoded p' : apply_route p decoded = Ok p' → node_inputs p = node_inputs p'.
Proof.
  unfold apply_route. intros H1. apply bind_Ok in H1 as (r & _ & H1).
  by apply guard_Ok in H1 as [_ [= <-]].
Qed.

Lemma apply_session_inputs p decoded p' : apply_session p decoded = Ok p' → node_inputs p = node_inputs p'.
Proof.
  unfold apply_session. intros H1. apply bind_Ok in H1 as (r & _ & H1).
  apply guard_Ok in H1 as [_ [= <-]]. by destruct (Projection_Stats _ !! _).
Qed.

Lemma apply_carryover_inputs p decoded p' : apply_carryover p decoded = Ok p' → node_inputs p = node_inputs p'.
Proof.
  unfold apply_carryover. intros H1. apply bind_Ok in H1 as (r & _ & H1).
  destruct (EvidenceCarryoverEvent_Provisional r); [|done].
  apply guard_Ok in H1 as [_ H1]. by apply bind_Ok in H1 as (c & _ & [= <-]).
Qed.

Lemma apply_payload_consistent p decoded p' :
  nodes_consistent p → records_stay p decoded → apply_payload p decoded = Ok p' → nodes_consistent p'.
Proof.
  intros Hc Hs H1.
  assert (node_inputs p = node_inputs p' → nodes_consistent p') as Hsame
    by (intros; by eapply nodes_consistent_inputs).
  unfold apply_payload, records_stay in *.
  destruct (LearningEvent_Type decoded); try (by injection H1 as <-);
    try (by apply Hsame; eauto using apply_route_inputs, apply_session_inputs, apply_carryover_inputs);
    try (by eapply apply_disposition_consistent).
  - unfold apply_provisional in H1. apply bind_Ok in H1 as (a & Ha & H1).
    apply guard_Ok in H1 as [_ [= <-]]. apply put_pending_consistent; [done|]. by apply Hs.
  - by eapply apply_evidence_consistent.
  - unfold apply_invalidation in H1. apply bind_Ok in H1 as (a & Ha & [= <-]).
    by apply invalidate_consistent.
  - unfold apply_exposure in H1. apply bind_Ok in H1 as (a & Ha & [= <-]). by apply Hsame.
  - unfold apply_queue in H1. apply bind_Ok in H1 as (a & Ha & H1).
    apply guard_Ok in H1 as [_ [= <-]]. apply put_pending_consistent; [done|]. by apply Hs.
  - unfold apply_carryover_end in H1. apply bind_Ok in H1 as (a & Ha & H1).
    apply guard_Ok in H1 as [_ [= <-]]. done.
  - unfold apply_carryover_end in H1. apply bind_Ok in H1 as (a & Ha & H1).
    apply guard_Ok in H1 as [_ [= <-]]. done.
  - unfold apply_redaction in H1. apply bind_Ok in H1 as (a & Ha & [= <-]).
    case_decide; [|apply invalidate_consistent]; by eapply nodes_consistent_inputs; [|exact Hc].
Qed.

Lemma apply_activity_inputs p decoded : node_inputs p = node_inputs (apply_activity p decoded).
Proof.
  unfold apply_activity.
  destruct (_ && _); case_decide; try (destruct (Projection_Sessions _ !! _)); done.
Qed.

Lemma EmptyProjection_consistent g : nodes_consistent (EmptyProjection g).
Proof.
  assert (∀ A (k : string) (x : A), (∅ : gmap string A) !! k = Some x → False) as Hno
    by (intros A k x Hx; by apply lookup_empty_Some in Hx).
  split; [split; intros k x Hx; by apply Hno in Hx|]. intros n. unfold node_current. simpl.
  rewrite lookup_empty. split; intros k x Hx; by apply Hno in Hx.
Qed.

(** ** The active-time cache *)

(** The estimates are those of the timeline. *)
Definition stats_consistent (p : Projection) : Prop :=
  (∀ s est, Projection_Stats p !! s = Some est →
     est = estimateActiveTimeFromTimeline s (Projection_Timeline p))
  ∧ ∀ item, item ∈ Projection_Timeline p → isActiveTimeEvent (TimelineItem_Type item) = true →
      is_Some (Projection_Stats p !! timeline_session item).

(** An interaction is recorded for the session that [timeline_session] reads
    off its timeline entry: it belongs to a session, or comes from offline work
    on one, and an offline event filed under a session names it as parent. *)
Definition interaction_filed (e : LearningEvent) : Prop :=
  isActiveTimeEvent (LearningEvent_Type e) = true →
  if decide (LearningEvent_Source e = "offline")
  then LearningEvent_ParentSessionID e ≠ ""
       ∧ (LearningEvent_AggregateType e = "session" →
          LearningEvent_AggregateID e = LearningEvent_ParentSessionID e)
  else LearningEvent_AggregateType e = "session" ∧ LearningEvent_AggregateID e ≠ "".

Lemma estimate_snoc s tl item :
  isActiveTimeEvent (TimelineItem_Type item) = false ∨ timeline_session item ≠ s →
  estimateActiveTimeFromTimeline s (tl ++ [item]) = estimateActiveTimeFromTimeline s tl.
Proof.
  intros Hi. unfold estimateActiveTimeFromTimeline. rewrite filter_app, filter_cons, filter_nil.
  rewrite decide_False by (intros [? ?]; destruct Hi; congruence). by rewrite app_nil_r.
Qed.

Lemma estimate_no_activity s tl :
  (∀ item, item ∈ tl → isActiveTimeEvent (TimelineItem_Type item) = true → timeline_session item ≠ s) →
  estimateActiveTimeFromTimeline s tl = EstimateActiveTime s [].
Proof.
  intros Htl. unfold estimateActiveTimeFromTimeline.
  assert (filter (fun item => timeline_session item = s
            ∧ isActiveTimeEvent (TimelineItem_Type item) = true) tl = []) as ->; [|done].
  destruct (filter _ tl) as [|x xs] eqn:Hf; [done|].
  assert (x ∈ x :: xs) as Hx by apply list_elem_of_here. rewrite <- Hf in Hx.
  apply list_elem_of_filter in Hx as [[Hs Ha] Hx]. by destruct (Htl x Hx Ha).
Qed.

Lemma append_inactive p item :
  isActiveTimeEvent (TimelineItem_Type item) = false → stats_consistent p →
  stats_consistent (set_Projection_Timeline (Projection_Timeline p ++ [item]) p).
Proof.
  intros Ha [H1 H2]. split; simpl.
  - intros s est Hs. rewrite estimate_snoc by by left. by apply H1.
  - intros x [Hx| ->]%elem_of_snoc Hxa; [by apply H2|congruence].
Qed.

Lemma append_active p item :
  stats_consistent p →
  stats_consistent (set_Projection_Stats
    (<[timeline_session item := estimateActiveTimeFromTimeline (timeline_session item)
         (Projection_Timeline p ++ [item])]> (Projection_Stats p))
    (set_Projection_Timeline (Projection_Timeline p ++ [item]) p)).
Proof.
  intros [H1 H2]. split; simpl.
  - intros s est [[<- <-]|[Hne Hs]]%lookup_insert_Some; [done|].
    rewrite estimate_snoc by by right. by apply H1.
  - intros x Hx Hxa. destruct (decide (timeline_session x = timeline_session item)) as [->|Hne].
    + by rewrite lookup_insert_eq.
    + rewrite lookup_insert_ne by done. apply elem_of_snoc in Hx as [Hx| ->]; [by apply H2|done].
Qed.

Definition stats_inputs (p : Projection) := (Projection_Timeline p, Projection_Stats p).

Lemma stats_consistent_inputs p p' :
  stats_inputs p = stats_inputs p' → stats_consistent p → stats_consistent p'.
Proof. unfold stats_inputs, stats_consistent. by intros [= <- <-]. Qed.

Lemma recompute_stats p n : stats_inputs (recomputeNode p n) = stats_inputs p.
Proof. unfold recomputeNode. by case_decide. Qed.

Lemma invalidate_stats p id : stats_inputs (invalidate p id) = stats_inputs p.
Proof.
  unfold invalidate. destruct (Projection_Evidence _ !! _); [|done].
  by rewrite recompute_stats.
Qed.

(** Every case but the session one leaves timeline and estimates alone. *)
Lemma apply_payload_stats p decoded p' :
  stats_consistent p → apply_payload p decoded = Ok p' → stats_consistent p'.
Proof.
  intros Hc H1. assert (stats_inputs p' = stats_inputs p → stats_consistent p') as Hsame
    by (intros; by eapply stats_consistent_inputs).
  assert (apply_session p decoded = Ok p' → stats_consistent p') as Hses.
  { clear H1. unfold apply_session. intros H1. apply bind_Ok in H1 as (r & _ & H1).
    apply guard_Ok in H1 as [_ [= <-]]. destruct Hc as [Hc1 Hc2]. simpl.
    destruct (Projection_Stats p !! _) as [est|] eqn:Hs; [done|]. split; simpl.
    - intros s est [[<- <-]|[_ Hs']]%lookup_insert_Some; [|by apply Hc1].
      symmetry. apply estimate_no_activity. intros item Hi Ha Heq.
      destruct (Hc2 item Hi Ha) as [x Hx]. congruence.
    - intros item Hi Ha. apply lookup_insert_is_Some'. right. by apply Hc2. }
  unfold apply_payload in H1.
  destruct (LearningEvent_Type decoded); try (by injection H1 as <-); try (by apply Hses);
    apply Hsame; revert H1;
    unfold apply_route, apply_evidence, apply_invalidation, apply_provisional, apply_disposition,
      apply_queue, apply_carryover, apply_carryover_end, apply_exposure, apply_redaction, put_pending;
    intros H1; apply bind_Ok in H1 as (a & _ & H1);
    try destruct (EvidenceCarryoverEvent_Provisional a); try (discriminate H1);
    try (apply guard_Ok in H1 as [_ H1]); try (apply bind_Ok in H1 as (b & _ & H1));
    injection H1 as <-; rewrite ?recompute_stats, ?invalidate_stats; try done.
  1-3: by destruct (Projection_Pending p !! _); rewrite ?recompute_stats.
  case_decide; by rewrite ?invalidate_stats.
Qed.

(** Interactions carry no payload the projection reads. *)
Lemma apply_payload_active p decoded :
  isActiveTimeEvent (LearningEvent_Type decoded) = true → apply_payload p decoded = Ok p.
Proof. unfold apply_payload. by destruct (LearningEvent_Type decoded). Qed.

(** The caches an event leaves behind agree with the log. *)
Definition projection_consistent (p : Projection) : Prop :=
  nodes_consistent p ∧ stats_consistent p.

Lemma projection_consistent_inputs p p' :
  node_inputs p = node_inputs p' → stats_inputs p = stats_inputs p' →
  projection_consistent p → projection_consistent p'.
Proof.
  intros Hn Hs [H1 H2]. split; [by eapply nodes_consistent_inputs|by eapply stats_consistent_inputs].
Qed.

Lemma EmptyProjection_stats g : stats_consistent (EmptyProjection g).
Proof.
  split; [intros s est Hs; simpl in Hs; by apply lookup_empty_Some in Hs|].
  by intros item ?%not_elem_of_nil.
Qed.

(** Interactions on their own timeline entry. *)
Lemma apply_activity_active p decoded :
  isActiveTimeEvent (LearningEvent_Type decoded) = true → interaction_filed decoded →
  ∃ s, stats_inputs (apply_activity p decoded)
       = (Projection_Timeline p, <[s := estimateActiveTimeFromTimeline s (Projection_Timeline p)]>
                                   (Projection_Stats p))
       ∧ s = timeline_session (timelineItem decoded).
Proof.
  intros Ha Hf. specialize (Hf Ha). unfold apply_activity, timeline_session, timelineItem. cbv zeta.
  cbn [TimelineItem_Source TimelineItem_ParentSessionID TimelineItem_AggregateID]. rewrite Ha.
  destruct (decide (LearningEvent_Source decoded = "offline")) as [Hoff|Hon].
  - destruct Hf as [Hne Hses]. rewrite Hoff. rewrite (decide_False (P := "offline" = "")) by done.
    rewrite (decide_True (P := "offline" = "offline")) by done.
    eexists. split; [|done].
    destruct (decide (LearningEvent_AggregateType decoded = "session")) as [Hs|Hs].
    + rewrite (Hses Hs). rewrite bool_decide_false by done. simpl.
      by destruct (Projection_Sessions p !! _).
    + rewrite bool_decide_false by done. done.
  - destruct Hf as [Hs Hne].
    destruct (decide (LearningEvent_AggregateType decoded = "session")) as [_|]; [|done].
    rewrite bool_decide_false by done. simpl.
    exists (LearningEvent_AggregateID decoded). split; [by destruct (Projection_Sessions p !! _)|].
    destruct (decide (LearningEvent_Source decoded = "")); by rewrite decide_False.
Qed.

Lemma apply_activity_inactive p decoded :
  isActiveTimeEvent (LearningEvent_Type decoded) = false →
  stats_inputs (apply_activity p decoded) = stats_inputs p.
Proof.
  intros Ha. unfold apply_activity. rewrite Ha, andb_false_r.
  case_decide; [|done]. by destruct (Projection_Sessions _ !! _).
Qed.

(** The hypotheses on an event, after decoding. *)
Definition event_ok (p : Projection) (registry : EventRegistry) (event : LearningEvent) : Prop :=
  ∀ decoded, Decode registry event = Ok decoded → records_stay p decoded ∧ interaction_filed decoded.

Lemma apply_decoded_consistent p decoded :
  projection_consistent p → records_stay p decoded → interaction_filed decoded →
  let p1 := set_Projection_Timeline (Projection_Timeline p ++ [timelineItem decoded]) p in
  projection_consistent
    (match apply_payload p1 decoded with Err _ => p1 | Ok p2 => apply_activity p2 decoded end).
Proof.
  intros [Hn Hs] Hr Hf p1.
  assert (nodes_consistent p1) as Hn1 by by eapply nodes_consistent_inputs; [|exact Hn].
  destruct (isActiveTimeEvent (LearningEvent_Type decoded)) eqn:Ha.
  - rewrite apply_payload_active by done. split.
    + eapply nodes_consistent_inputs; [apply apply_activity_inputs|done].
    + destruct (apply_activity_active p1 decoded Ha Hf) as (s & Heq & ->).
      eapply stats_consistent_inputs; [|apply (append_active p (timelineItem decoded) Hs)].
      by rewrite Heq.
  - assert (stats_consistent p1) as Hs1 by by apply append_inactive.
    destruct (apply_payload p1 decoded) as [p2|err] eqn:Hp; [|done]. split.
    + eapply nodes_consistent_inputs; [apply apply_activity_inputs|].
      by eapply (apply_payload_consistent p1).
    + eapply stats_consistent_inputs; [symmetry; by apply apply_activity_inactive|].
      by eapply apply_payload_stats.
Qed.

Lemma apply_privacy_consistent p decoded :
  projection_consistent p → LearningEvent_Type decoded = EventRedacted →
  projection_consistent (apply_privacy p decoded).1.
Proof.
  intros Hc Ht. unfold apply_privacy. destruct (unmarshal_privacy _) as [pl|]; [|done].
  destruct (_ || _); [done|]. cbv zeta. cbn [fst]. split.
  - eapply nodes_consistent_inputs; [|apply (EmptyProjection_consistent "")]. done.
  - eapply stats_consistent_inputs; [|apply (append_inactive (EmptyProjection "") (timelineItem decoded));
      [|apply EmptyProjection_stats]]; [done|]. simpl. by rewrite Ht.
Qed.

Lemma ApplyEvent_consistent p registry event :
  projection_consistent p → event_ok p registry event →
  projection_consistent (ApplyEvent p registry event).1.
Proof.
  intros Hc Hok. unfold ApplyEvent. destruct (LearningEvent_Redacted event).
  { destruct (_ <=? _); [done|]. by eapply projection_consistent_inputs; [..|exact Hc]. }
  destruct (Decode registry event) as [decoded|err] eqn:Hd.
  2:{ by eapply projection_consistent_inputs; [..|exact Hc]. }
  destruct (Hok decoded Hd) as [Hr Hf]. destruct (_ <=? _); [done|].
  set (p1 := set_as_of _ p).
  assert (projection_consistent p1) as Hc1 by by eapply projection_consistent_inputs; [..|exact Hc].
  destruct (privacy_event decoded) eqn:Hpr.
  { unfold privacy_event in Hpr. bool_prop. by apply apply_privacy_consistent. }
  pose proof (apply_decoded_consistent p1 decoded Hc1 Hr Hf) as Hdec. cbv zeta in *.
  destruct (apply_payload _ decoded); exact Hdec.
Qed.

(** The projections an event log can lead to. *)
Inductive reachable (registry : EventRegistry) (generationID : string) : Projection → Prop :=
| reachable_empty : reachable registry generationID (EmptyProjection generationID)
| reachable_event p event :
    reachable registry generationID p → event_ok p registry event →
    reachable registry generationID (ApplyEvent p registry event).1.

(** An interaction the projection accepts adds its entry to the timeline, and
    the estimate of its session is that of the timeline so extended. *)
Lemma ApplyEvent_interaction p registry event decoded :
  LearningEvent_Redacted event = false → Decode registry event = Ok decoded →
  as_of p < LearningEvent_EventSequence decoded →
  isActiveTimeEvent (LearningEvent_Type decoded) = true → interaction_filed decoded →
  let tl := Projection_Timeline p ++ [timelineItem decoded] in
  Projection_Timeline (ApplyEvent p registry event).1 = tl
  ∧ Projection_Stats (ApplyEvent p registry event).1 !! timeline_session (timelineItem decoded)
    = Some (estimateActiveTimeFromTimeline (timeline_session (timelineItem decoded)) tl).
Proof.
  intros Hred Hd Hseq Ha Hf tl. unfold ApplyEvent. rewrite Hred, Hd.
  rewrite (proj2 (Z.leb_gt _ _)) by done.
  assert (privacy_event decoded = false) as ->
    by (unfold privacy_event; by destruct (LearningEvent_Type decoded)).
  cbv zeta. rewrite apply_payload_active by done. cbn [fst].
  match goal with |- context [apply_activity ?q decoded] =>
    destruct (apply_activity_active q decoded Ha Hf) as (s & Heq & ->)
  end.
  unfold stats_inputs in Heq. cbn [Projection_Timeline Projection_Stats] in Heq.
  injection Heq as Htl Hst. split; [exact Htl|].
  etrans; [exact (f_equal (fun m => m !! timeline_session (timelineItem decoded)) Hst)|apply lookup_insert_eq].
Qed.

(** C2. The caches of the projection are complete and never stale: whatever
    events were applied, failing ones included, every node with evidence or a
    pending assessment has an entry, and every entry is the reduction a full
    recomputation of that node gives; every session with an interaction on the
    timeline has an active-time entry, and every entry is the estimate computed
    from the timeline; and an interaction that is accepted next enters the
    timeline and the estimate of its session, whatever was recorded before. As
    long as no record comes back under another node and interactions are filed
    under their session. *)
Theorem reachable_caches registry generationID p :
  reachable registry generationID p →
  (∀ n r, Projection_Nodes p !! n = Some r → r = node_reduction p n)
  ∧ (∀ k e, Projection_Evidence p !! k = Some e → AcceptedEvidence_NodeRevisionID e ≠ "" →
       is_Some (Projection_Nodes p !! AcceptedEvidence_NodeRevisionID e))
  ∧ (∀ k d, Projection_Pending p !! k = Some d → PendingAssessment_NodeRevisionID d ≠ "" →
       is_Some (Projection_Nodes p !! PendingAssessment_NodeRevisionID d))
  ∧ (∀ item, item ∈ Projection_Timeline p → isActiveTimeEvent (TimelineItem_Type item) = true →
       Projection_Stats p !! timeline_session item
       = Some (estimateActiveTimeFromTimeline (timeline_session item) (Projection_Timeline p)))
  ∧ (∀ s est, Projection_Stats p !! s = Some est →
       est = estimateActiveTimeFromTimeline s (Projection_Timeline p))
  ∧ (∀ event decoded, LearningEvent_Redacted event = false → Decode registry event = Ok decoded →
       as_of p < LearningEvent_EventSequence decoded →
       isActiveTimeEvent (LearningEvent_Type decoded) = true → interaction_filed decoded →
       let tl := Projection_Timeline p ++ [timelineItem decoded] in
       Projection_Timeline (ApplyEvent p registry event).1 = tl
       ∧ Projection_Stats (ApplyEvent p registry event).1 !! timeline_session (timelineItem decoded)
         = Some (estimateActiveTimeFromTimeline (timeline_session (timelineItem decoded)) tl)).
Proof.
  intros Hr.
  assert (projection_consistent p) as [[_ Hc] [Hs Hi]].
  { induction Hr; [|by apply ApplyEvent_consistent].
    split; [apply EmptyProjection_consistent|apply EmptyProjection_stats]. }
  split_and!; [| | | |exact Hs|intros; by apply ApplyEvent_interaction].
  - intros n r Hn. specialize (Hc n). unfold node_current in Hc. rewrite Hn in Hc. by destruct Hc.
  - intros k e He Hne. specialize (Hc (AcceptedEvidence_NodeRevisionID e)). unfold node_current in Hc.
    destruct (Projection_Nodes p !! _); [done|]. destruct Hc as [Hc _]. by destruct Hne; eapply Hc.
  - intros k d Hd Hne. specialize (Hc (PendingAssessment_NodeRevisionID d)). unfold node_current in Hc.
    destruct (Projection_Nodes p !! _); [done|]. destruct Hc as [_ Hc]. by destruct Hne; eapply Hc.
  - intros item Hit Ha. destruct (Hi item Hit Ha) as [est Hest]. rewrite Hest. f_equal. by apply Hs.
Qed.

(** ** Event sequences *)
Lemma Decode_sequence registry event decoded :
  Decode registry event = Ok decoded →
  LearningEvent_EventSequence decoded = LearningEvent_EventSequence event.
Proof.
  unfold Decode. destruct (privacy_event event).
  - destruct (decodePrivacyRedactionPayload _ _); [by intros [= <-]|]. by destruct (_ && _).
  - destruct (registry_decoders registry !! _) as [d|]; [|done].
    destruct (d _); [by intros [= <-]|done].
Qed.

Lemma recompute_as_of p n : as_of (recomputeNode p n) = as_of p.
Proof. unfold recomputeNode. by case_decide. Qed.

Lemma invalidate_as_of p id : as_of (invalidate p id) = as_of p.
Proof. unfold invalidate. destruct (Projection_Evidence _ !! _); [by rewrite recompute_as_of|done]. Qed.

Lemma apply_payload_as_of p decoded p' : apply_payload p decoded = Ok p' → as_of p' = as_of p.
Proof.
  unfold apply_payload.
  destruct (LearningEvent_Type decoded); try (by intros [= <-]);
    unfold apply_route, apply_session, apply_evidence, apply_invalidation, apply_provisional,
      apply_disposition, apply_queue, apply_carryover, apply_carryover_end, apply_exposure,
      apply_redaction, put_pending;
    intros H1; apply bind_Ok in H1 as (a & _ & H1);
    try destruct (EvidenceCarryoverEvent_Provisional a); try (discriminate H1);
    try (apply guard_Ok in H1 as [_ H1]); try (apply bind_Ok in H1 as (b & _ & H1));
    injection H1 as <-; rewrite ?recompute_as_of, ?invalidate_as_of; try done;
    try (by destruct (Projection_Stats p !! _));
    try (by destruct (Projection_Pending p !! _); rewrite ?recompute_as_of).
  case_decide; by rewrite ?invalidate_as_of.
Qed.

Lemma apply_activity_as_of p decoded : as_of (apply_activity p decoded) = as_of p.
Proof.
  unfold apply_activity.
  destruct (_ && _); case_decide; try (destruct (Projection_Sessions _ !! _)); done.
Qed.

Lemma ApplyEvent_sequence_lt p registry event p' :
  ApplyEvent p registry event = (p', None) →
  as_of p < LearningEvent_EventSequence event ∧ as_of p' = LearningEvent_EventSequence event.
Proof.
  unfold ApplyEvent. destruct (LearningEvent_Redacted event).
  { destruct (_ <=? _) eqn:Hle; bool_prop; [done|]. by intros [= <-]. }
  destruct (Decode registry event) as [decoded|err] eqn:Hd; [|done].
  rewrite <- (Decode_sequence _ _ _ Hd). destruct (_ <=? _) eqn:Hle; bool_prop; [done|].
  destruct (privacy_event decoded).
  - unfold apply_privacy. destruct (unmarshal_privacy _); [|done].
    destruct (_ || _); [done|]. by intros [= <-].
  - destruct (apply_payload _ decoded) as [p2|] eqn:Hp; [|done]. intros [= <-]. split; [done|].
    by rewrite apply_activity_as_of, (apply_payload_as_of _ _ _ Hp).
Qed.

(** Events are applied in strictly increasing order: an event that succeeds
    moves the projection to its sequence; one that does not come after the
    projection is refused and, unless it cannot even be decoded, leaves the
    projection as it was. *)
Theorem ApplyEvent_sequence p registry event :
  let (p', err) := ApplyEvent p registry event in
  (err = None → as_of p < LearningEvent_EventSequence event
                ∧ as_of p' = LearningEvent_EventSequence event)
  ∧ (LearningEvent_EventSequence event <= as_of p →
     err ≠ None
     ∧ (LearningEvent_Redacted event = true ∨ (∃ d, Decode registry event = Ok d) →
        p' = p ∧ err = Some not_increasing)).
Proof.
  destruct (ApplyEvent p registry event) as [p' err] eqn:He. split.
  { intros ->. by eapply ApplyEvent_sequence_lt. }
  intros Hle. split.
  { intros ->. apply ApplyEvent_sequence_lt in He as [? _]. lia. }
  unfold ApplyEvent in He. apply Z.leb_le in Hle. intros [Hr|[d Hd]].
  { rewrite Hr, Hle in He. by injection He as <- <-. }
  destruct (LearningEvent_Redacted event); [rewrite Hle in He; by injection He as <- <-|].
  rewrite Hd, (Decode_sequence _ _ _ Hd), Hle in He. by injection He as <- <-.
Qed.

(** ** Redaction *)

(** A privacy redaction leaves no trace of what was projected before it:
    what it leaves behind does not depend on the projection it is applied to,
    apart from the generation, and holds nothing but its own timeline entry. *)
Theorem privacy_redaction_forgets p q registry event p' :
  privacy_event event = true → LearningEvent_Redacted event = false →
  ProjectionMetadata_GenerationID (Projection_Metadata p)
  = ProjectionMetadata_GenerationID (Projection_Metadata q) →
  as_of q < LearningEvent_EventSequence event →
  ApplyEvent p registry event = (p', None) →
  ApplyEvent q registry event = (p', None)
  ∧ Projection_Evidence p' = ∅ ∧ Projection_Nodes p' = ∅ ∧ Projection_Sessions p' = ∅
  ∧ Projection_Pending p' = ∅ ∧ Projection_Invalidated p' = ∅ ∧ Projection_Carryovers p' = ∅
  ∧ Projection_Stats p' = ∅ ∧ Projection_Routes p' = [] ∧ Projection_Exposures p' = []
  ∧ ∃ decoded, Projection_Timeline p' = [timelineItem decoded]
    ∧ Projection_RedactedEvents p' = {[LearningEvent_ID event := true]}.
Proof.
  intros Hpr Hred Hgen Hseq. unfold ApplyEvent. rewrite Hred.
  destruct (Decode registry event) as [decoded|err] eqn:Hd; [|done].
  assert (privacy_event decoded = true ∧ LearningEvent_ID decoded = LearningEvent_ID event) as [Hpd Hid].
  { unfold Decode in Hd. rewrite Hpr in Hd. destruct (decodePrivacyRedactionPayload _ _).
    - by injection Hd as <-.
    - by destruct (_ && _). }
  rewrite (Decode_sequence _ _ _ Hd), Hpd. destruct (_ <=? as_of p); [done|].
  destruct (_ <=? as_of q) eqn:Hq; bool_prop; [lia|]. unfold apply_privacy. simpl. rewrite Hgen.
  destruct (unmarshal_privacy _) as [pl|]; [|done]. destruct (_ || _); [done|].
  intros [= <-]. split; [done|]. split_and!; try done. exists decoded. split; [done|]. simpl. by rewrite Hid.
Qed.

(** ** Replay *)
Lemma event_less_antisym l x y :
  NoDup (LearningEvent_EventSequence <$> l) → x ∈ l → y ∈ l →
  le_by event_less x y → le_by event_less y x → x = y.
Proof.
  unfold le_by, event_less. intros Hnd Hx Hy H1 H2. bool_prop.
  apply list_elem_of_lookup in Hx as [i Hi]. apply list_elem_of_lookup in Hy as [j Hj].
  assert (i = j) as ->; [|congruence].
  apply (NoDup_lookup _ i j (LearningEvent_EventSequence x) Hnd).
  - by rewrite list_lookup_fmap, Hi.
  - rewrite list_lookup_fmap, Hj. simpl. f_equal. lia.
Qed.

Lemma event_le_trans x y z : le_by event_less x y → le_by event_less y z → le_by event_less x z.
Proof. unfold le_by, event_less. rewrite !Z.ltb_ge. lia. Qed.

Lemma event_lt_asym x y : event_less x y = true → event_less y x = false.
Proof. unfold event_less. rewrite Z.ltb_lt, Z.ltb_ge. lia. Qed.

Lemma sort_events_Permutation l l' :
  NoDup (LearningEvent_EventSequence <$> l) → l ≡ₚ l' → sort_by event_less l = sort_by event_less l'.
Proof.
  intros Hnd. apply sort_by_Permutation_eq; [apply event_le_trans|apply event_lt_asym|].
  intros x y Hx Hy. by eapply event_less_antisym.
Qed.

Lemma replay_from_app p registry l1 l2 :
  replay_from p registry (l1 ++ l2) =
  match replay_from p registry l1 with
  | (q, None) => replay_from q registry l2
  | (q, Some err) => (q, Some err)
  end.
Proof.
  revert p. induction l1 as [|e l1 IH]; intros p; simpl; [done|].
  destruct (ApplyEvent p registry e) as [q [err|]]; [done|apply IH].
Qed.

(** An event after all the others is replayed last. *)
Lemma sort_events_snoc l e :
  Forall (fun x => LearningEvent_EventSequence x < LearningEvent_EventSequence e) l →
  sort_by event_less (l ++ [e]) = sort_by event_less l ++ [e].
Proof.
  induction l as [|x l IH]; [done|]. intros [Hx Hl]%Forall_cons.
  cbn [app sort_by foldr]. fold (sort_by event_less (l ++ [e])). fold (sort_by event_less l).
  rewrite (IH Hl). clear IH.
  assert (Forall (fun y => LearningEvent_EventSequence y < LearningEvent_EventSequence e)
            (sort_by event_less l)) as Hs by by rewrite sort_by_Permutation.
  clear Hl. induction (sort_by event_less l) as [|y ys IH]; cbn [app insert_by].
  - unfold event_less at 1. by rewrite (proj2 (Z.ltb_ge _ _)) by lia.
  - apply Forall_cons in Hs as [Hy Hs]. destruct (event_less y x); [|done]. by rewrite IH.
Qed.

(** C17. Replaying the log does not depend on the order in which it was read,
    and replaying one more event is applying it: the projection kept up to date
    event by event is the one a rebuild produces. *)
Theorem Replay_incremental registry generationID events events' event :
  NoDup (LearningEvent_EventSequence <$> events) → events ≡ₚ events' →
  Forall (fun x => LearningEvent_EventSequence x < LearningEvent_EventSequence event) events →
  Replay events registry generationID = Replay events' registry generationID
  ∧ ∀ p, Replay events registry generationID = (p, None) →
      Replay (event :: events') registry generationID = ApplyEvent p registry event.
Proof.
  intros Hnd Hp Hlt. split; [unfold Replay; by rewrite (sort_events_Permutation _ _ Hnd Hp)|].
  intros p Hr. unfold Replay in *.
  rewrite <- (sort_events_Permutation (events ++ [event]) (event :: events')).
  - rewrite sort_events_snoc, replay_from_app, Hr by done. simpl.
    by destruct (ApplyEvent p registry event) as [q [err|]].
  - rewrite fmap_app. apply NoDup_app. split_and!; [done| |apply NoDup_singleton].
    intros s Hs Hs'. simpl in Hs'. apply list_elem_of_singleton in Hs' as ->.
    apply list_elem_of_fmap in Hs as (x & Hs & Hx). rewrite Forall_forall in Hlt.
    specialize (Hlt x Hx). lia.
  - rewrite Hp. by rewrite Permutation_app_comm.
Qed.

Lemma replay_from_ok l p registry q :
  replay_from p registry l = (q, None) →
  StronglySorted Z.lt (as_of p :: (LearningEvent_EventSequence <$> l))
  ∧ as_of q = List.last (LearningEvent_EventSequence <$> l) (as_of p).
Proof.
  revert p. induction l as [|e l IH]; intros p; cbn [replay_from].
  { intros [= <-]. split; [repeat constructor|done]. }
  pose proof (ApplyEvent_sequence_lt p registry e) as Hseq.
  destruct (ApplyEvent p registry e) as [p1 [err|]]; [done|]. intros Hr.
  destruct (Hseq p1 eq_refl) as [Hlt Heq]. apply IH in Hr as [Hs Hl]. rewrite Heq in Hs, Hl. split.
  - constructor; [done|]. apply Forall_cons. split; [done|].
    apply StronglySorted_inv in Hs as [_ Hs]. eapply Forall_impl; [exact Hs|]. simpl. lia.
  - rewrite Hl. cbn [fmap list_fmap]. symmetry. apply last_cons_default.
Qed.

Lemma elem_of_last (l : list Z) d : l ≠ [] → List.last l d ∈ l.
Proof.
  induction l as [|x l IH]; [done|]. intros _. destruct l as [|y l]; [apply list_elem_of_here|].
  apply list_elem_of_further. by apply IH.
Qed.

Lemma sorted_last (l : list Z) d x : StronglySorted Z.lt l → x ∈ l → x <= List.last l d.
Proof.
  induction 1 as [|y l Hs IH Hy]; [by intros ?%not_elem_of_nil|].
  intros Hx. destruct l as [|z l].
  - apply list_elem_of_singleton in Hx as ->. reflexivity.
  - apply elem_of_cons in Hx as [->|Hx]; [|by apply IH].
    rewrite Forall_forall in Hy. apply Z.lt_le_incl, Hy.
    change (List.last (y :: z :: l) d) with (List.last (z :: l) d). by apply elem_of_last.
Qed.

(** A replay that succeeds used every event once: their sequences are
    positive and distinct, and the projection stands at the largest. *)
Theorem Replay_complete registry generationID events p :
  Replay events registry generationID = (p, None) →
  NoDup (LearningEvent_EventSequence <$> events)
  ∧ Forall (fun e => 0 < LearningEvent_EventSequence e <= as_of p) events
  ∧ (events ≠ [] → ∃ e, e ∈ events ∧ LearningEvent_EventSequence e = as_of p).
Proof.
  unfold Replay. intros Hr. apply replay_from_ok in Hr as [Hs Hl].
  set (l := LearningEvent_EventSequence <$> sort_by event_less events) in *.
  assert (l ≡ₚ LearningEvent_EventSequence <$> events) as Hp
    by (unfold l; by rewrite sort_by_Permutation).
  change (as_of (EmptyProjection generationID)) with 0 in *.
  apply StronglySorted_inv in Hs as [Hs Hpos]. split_and!.
  - rewrite <- Hp. clear -Hs. induction Hs as [|x l Hs IH Hx]; constructor; [|done].
    intros Hin. rewrite Forall_forall in Hx. specialize (Hx x Hin). lia.
  - apply Forall_forall. intros e He.
    assert (LearningEvent_EventSequence e ∈ l) as Hin by (rewrite Hp; by apply list_elem_of_fmap_2).
    rewrite Forall_forall in Hpos. split; [by apply Hpos|]. rewrite Hl.
    by apply sorted_last.
  - intros Hne. assert (l ≠ []) as Hl'.
    { intros Hnil. rewrite Hnil in Hp. apply Permutation_nil_l, eq_sym, fmap_nil_inv in Hp. done. }
    assert (as_of p ∈ l) as Hin by (rewrite Hl; by apply elem_of_last).
    rewrite Hp in Hin. apply list_elem_of_fmap in Hin as (e & He & Hin). by exists e.
Qed.
End Facts.

(** ** Witnesses *)

(** A codec for three payloads: evidence [1], a privacy redaction [2] and
    nothing else. *)
Definition sample_evidence_1 : AcceptedEvidence :=
  sample_evidence "e-1" "act-1" OutcomePass 0 0 [] [].

Definition only {A} (token : string) (a : A) (payload : string) : result error A :=
  if decide (payload = token) then Ok a else Err (ErrorNew "unexpected payload").

Definition unreadable {A} (payload : string) : result error A := Err (ErrorNew "unexpected payload").

#[local] Instance sample_codec : PayloadCodec := {
  unmarshal_route := unreadable;
  unmarshal_session := unreadable;
  unmarshal_evidence := only "1" sample_evidence_1;
  unmarshal_invalidation := unreadable;
  unmarshal_assessment := unreadable;
  unmarshal_queue := unreadable;
  unmarshal_carryover := unreadable;
  unmarshal_exposure := unreadable;
  unmarshal_redaction := unreadable;
  unmarshal_privacy := only "2" (mkPrivacyRedaction "er-1" 2 1 "privacy-v1" "user_request");
  strict_legacy := unreadable;
  strict_canonical := only "2" (mkCanonicalPrivacyRedactionPayload "er-1" 2 (Some 1) "privacy-v1" "user_request");
  marshal_canonical := fun _ => Ok "2";
}.

#[local] Instance sample_projection_tables : UnicodeTables := ascii_tables.

Definition sample_event (seq : Z) (id : string) (t : EventType) (version : Z)
    (aggregate aggregateID payload : string) : LearningEvent :=
  mkLearningEvent seq id t version aggregate aggregateID 1 "dev" "op" 0 (seq * second) None "" ""
    payload "" "" "" "" "" "" "" "" 0 false.

Definition evidence_event : LearningEvent :=
  sample_event 1 "ev-1" EventEvidenceAccepted 1 "assessment" "as-1" "1".
Definition attempt_event : LearningEvent :=
  sample_event 2 "ev-2" EventAttemptSubmitted 1 "session" "s-1" "3".
Definition privacy_erasure : LearningEvent :=
  sample_event 3 "ev-3" EventRedacted 2 "privacy" "er-1" "2".

Definition sample_projection : Projection :=
  (Replay [attempt_event; evidence_event] NewEventRegistry "g-1").1.

Lemma sample_replay :
  Replay [attempt_event; evidence_event] NewEventRegistry "g-1" = (sample_projection, None).
Proof. vm_compute. reflexivity. Defined.

Lemma sample_reachable : reachable NewEventRegistry "g-1" sample_projection.
Proof.
  assert (sample_projection = (ApplyEvent (ApplyEvent (EmptyProjection "g-1") NewEventRegistry
            evidence_event).1 NewEventRegistry attempt_event).1) as -> by (vm_compute; reflexivity).
  apply reachable_event; [apply reachable_event; [apply reachable_empty|]|].
  - intros d Hd. vm_compute in Hd. injection Hd as <-. split; [|discriminate].
    intros e He old Hold. discriminate Hold.
  - intros d Hd. vm_compute in Hd. injection Hd as <-. split; [exact I|].
    intros _. split; [reflexivity|discriminate].
Defined.

Lemma reachable_caches_witness :
  size (Projection_Nodes sample_projection) = 1%nat
  ∧ is_Some (Projection_Nodes sample_projection !! "node-1")
  ∧ (∀ item, item ∈ Projection_Timeline sample_projection →
       isActiveTimeEvent (TimelineItem_Type item) = true →
       Projection_Stats sample_projection !! timeline_session item
       = Some (estimateActiveTimeFromTimeline (timeline_session item)
                 (Projection_Timeline sample_projection)))
  ∧ size (Projection_Stats sample_projection) = 1%nat.
Proof.
  destruct (reachable_caches NewEventRegistry "g-1" sample_projection sample_reachable)
    as (_ & Hnode & _ & Hstats & _).
  split; [vm_compute; reflexivity|]. split; [|split; [exact Hstats|vm_compute; reflexivity]].
  apply (Hnode "e-1" (set_accepted_sequence 1 sample_evidence_1)); vm_compute;
    [reflexivity|discriminate].
Defined.

Lemma ApplyEvent_sequence_witness :
  ApplyEvent sample_projection NewEventRegistry evidence_event
  = (sample_projection, Some not_increasing).
Proof.
  pose proof (ApplyEvent_sequence sample_projection NewEventRegistry evidence_event) as H.
  destruct (ApplyEvent sample_projection NewEventRegistry evidence_event) as [p err].
  destruct H as [_ H]. destruct H as [_ H]; [vm_compute; discriminate|].
  destruct H as [-> ->]; [|reflexivity]. right. exists evidence_event. vm_compute. reflexivity.
Defined.

Lemma privacy_redaction_forgets_witness :
  ApplyEvent sample_projection NewEventRegistry privacy_erasure
  = ApplyEvent (EmptyProjection "g-1") NewEventRegistry privacy_erasure
  ∧ size (Projection_Evidence sample_projection) = 1%nat
  ∧ Projection_Evidence (ApplyEvent sample_projection NewEventRegistry privacy_erasure).1 = ∅.
Proof.
  destruct (privacy_redaction_forgets (EmptyProjection "g-1") sample_projection NewEventRegistry
    privacy_erasure (ApplyEvent (EmptyProjection "g-1") NewEventRegistry privacy_erasure).1)
    as (He & Hev & _).
  - reflexivity.
  - reflexivity.
  - vm_compute. reflexivity.
  - vm_compute. reflexivity.
  - vm_compute. reflexivity.
  - rewrite He. split; [vm_compute; reflexivity|]. split; [vm_compute; reflexivity|exact Hev].
Defined.

Lemma Replay_incremental_witness :
  Replay [privacy_erasure; evidence_event; attempt_event] NewEventRegistry "g-1"
  = ApplyEvent sample_projection NewEventRegistry privacy_erasure.
Proof.
  apply (Replay_incremental NewEventRegistry "g-1" [attempt_event; evidence_event]
           [evidence_event; attempt_event] privacy_erasure).
  - apply (bool_decide_unpack _). vm_compute. exact I.
  - apply Permutation_swap.
  - repeat constructor.
  - exact sample_replay.
Defined.

Lemma Replay_complete_witness :
  Forall (fun e => 0 < LearningEvent_EventSequence e <= as_of sample_projection)
    [attempt_event; evidence_event].
Proof.
  apply (Replay_complete NewEventRegistry "g-1" [attempt_event; evidence_event] sample_projection).
  exact sample_replay.
Defined.
