(* ===== verification/GoRegexp.v ===== *)
(** * Regular expressions

    The part of Go's package [regexp] the program uses: [MatchString] for
    expressions built from rune classes, sequence, alternation, repetition, the
    ASCII word boundary [\b] and the multi-line [^]. A text is the list of its
    runes; [ends] computes the positions a match from a given position can end
    at, and [ends_spec] relates it to the usual relational semantics. *)
From S2P Require Import Prelude GoStd.

Inductive regex : Type :=
| REmpty
| RClass (f : Z → bool)
| RSeq (r s : regex)
| RAlt (r s : regex)
| RStar (r : regex)
| RWordBoundary
| RLineStart.

Definition is_word_rune (c : Z) : bool :=
  in_range 48 c 57 || in_range 65 c 90 || in_range 97 c 122 || (c =? 95).

Definition word_at (text : list Z) (i : nat) : bool := from_option is_word_rune false (text !! i).
Definition word_before (text : list Z) (i : nat) : bool :=
  match i with O => false | S i => word_at text i end.

Definition line_start (text : list Z) (i : nat) : bool :=
  match i with O => true | S i => from_option (Z.eqb 10) false (text !! i) end.

(** What it means for [r] to match [text] from position [i] to [j]. *)
Inductive rmatch (text : list Z) : regex → nat → nat → Prop :=
| match_empty i : rmatch text REmpty i i
| match_class f i c : text !! i = Some c → f c = true → rmatch text (RClass f) i (S i)
| match_seq r s i j k : rmatch text r i j → rmatch text s j k → rmatch text (RSeq r s) i k
| match_left r s i j : rmatch text r i j → rmatch text (RAlt r s) i j
| match_right r s i j : rmatch text s i j → rmatch text (RAlt r s) i j
| match_stop r i : rmatch text (RStar r) i i
| match_more r i j k : rmatch text r i j → rmatch text (RStar r) j k → rmatch text (RStar r) i k
| match_boundary i : xorb (word_before text i) (word_at text i) = true → rmatch text RWordBoundary i i
| match_line i : line_start text i = true → rmatch text RLineStart i i.

(** The iterations of a star that make progress; [fuel] bounds their number. *)
Fixpoint star_ends (f : nat → list nat) (fuel : nat) (i : nat) : list nat :=
  i :: match fuel with
       | O => []
       | S fuel => remove_dups (filter (fun j => (i < j)%nat) (f i) ≫= star_ends f fuel)
       end.

Fixpoint ends (text : list Z) (r : regex) (i : nat) : list nat :=
  match r with
  | REmpty => [i]
  | RClass f => if from_option f false (text !! i) then [S i] else []
  | RSeq r s => remove_dups (remove_dups (ends text r i) ≫= ends text s)
  | RAlt r s => ends text r i ++ ends text s i
  | RStar r => star_ends (ends text r) (length text) i
  | RWordBoundary => if xorb (word_before text i) (word_at text i) then [i] else []
  | RLineStart => if line_start text i then [i] else []
  end.

(** [MatchString]: a match anywhere in the text. *)
Definition match_runes (r : regex) (text : list Z) : bool :=
  existsb (fun i => negb (is_nil (ends text r i))) (seq 0 (S (length text))).

Definition MatchString (r : regex) (s : string) : bool := match_runes r (fst <$> runes s).

(** ** The engine finds exactly the matches *)
Lemma rmatch_bounds text r i j : rmatch text r i j → (i <= j)%nat ∧ ((i <= length text)%nat → (j <= length text)%nat).
Proof.
  induction 1 as [|f i c Hc| | | | | | |]; try lia.
  apply lookup_lt_Some in Hc. lia.
Qed.

Lemma star_sound text r f fuel i j :
  (∀ i j, j ∈ f i → rmatch text r i j) → j ∈ star_ends f fuel i → rmatch text (RStar r) i j.
Proof.
  intros Hf. revert i. induction fuel as [|fuel IH]; intros i; cbn [star_ends].
  - intros ->%list_elem_of_singleton. constructor.
  - intros [->|Hj]%elem_of_cons; [constructor|]. rewrite elem_of_remove_dups in Hj.
    apply list_elem_of_bind in Hj as (k & Hj & Hk). apply list_elem_of_filter in Hk as [_ Hk].
    eapply match_more; [by apply Hf | by apply IH].
Qed.

Lemma ends_sound text r i j : j ∈ ends text r i → rmatch text r i j.
Proof.
  revert i j. induction r as [|f|r IHr s IHs|r IHr s IHs|r IHr| |]; intros i j; cbn [ends].
  - intros ->%list_elem_of_singleton. constructor.
  - destruct (text !! i) as [c|] eqn:Hc; simpl; [|by intros ?%not_elem_of_nil].
    destruct (f c) eqn:Hfc; [|by intros ?%not_elem_of_nil].
    intros ->%list_elem_of_singleton. by econstructor.
  - rewrite elem_of_remove_dups. intros (k & Hj & Hk)%list_elem_of_bind.
    rewrite elem_of_remove_dups in Hk. by econstructor; eauto.
  - intros [Hj|Hj]%elem_of_app; [by apply match_left, IHr | by apply match_right, IHs].
  - by apply star_sound.
  - destruct (xorb _ _) eqn:Hx; [|by intros ?%not_elem_of_nil].
    intros ->%list_elem_of_singleton. by constructor.
  - destruct (line_start _ _) eqn:Hx; [|by intros ?%not_elem_of_nil].
    intros ->%list_elem_of_singleton. by constructor.
Qed.

Lemma star_complete text r f i j :
  (∀ i j, (i <= length text)%nat → rmatch text r i j → j ∈ f i) →
  (i <= length text)%nat → rmatch text (RStar r) i j →
  ∀ fuel, (j - i <= fuel)%nat → j ∈ star_ends f fuel i.
Proof.
  intros Hf Hi Hm. remember (RStar r) as s eqn:Hs. induction Hm; simplify_eq.
  - intros [|fuel] _; apply list_elem_of_here.
  - destruct (rmatch_bounds _ _ _ _ Hm1) as [Hij Hlen]. specialize (IHHm2 (Hlen Hi) eq_refl).
    assert (j <= k)%nat as Hjk by by apply (rmatch_bounds text (RStar r)).
    intros fuel Hfuel. destruct (decide (i = j)) as [->|Hne]; [by apply IHHm2|].
    destruct fuel as [|fuel]; [lia|]. cbn [star_ends]. apply list_elem_of_further.
    rewrite elem_of_remove_dups. apply list_elem_of_bind. exists j. split; [apply IHHm2; lia|].
    apply list_elem_of_filter. split; [lia|]. by apply Hf.
Qed.

Lemma ends_complete text r i j : (i <= length text)%nat → rmatch text r i j → j ∈ ends text r i.
Proof.
  revert i j. induction r as [|f|r IHr s IHs|r IHr s IHs|r IHr| |]; intros i j Hi Hm; cbn [ends].
  - inversion Hm. apply list_elem_of_here.
  - inversion Hm as [|? ? c Hc Hf| | | | | | |]; subst. rewrite Hc. simpl. rewrite Hf.
    apply list_elem_of_here.
  - inversion Hm as [| |? ? ? k ? H1 H2| | | | | |]; subst.
    rewrite elem_of_remove_dups. apply list_elem_of_bind. exists k.
    rewrite elem_of_remove_dups. split; [|by apply IHr].
    apply IHs; [|done]. by apply (rmatch_bounds text r i k).
  - inversion Hm; subst; apply elem_of_app; [left; by apply IHr | right; by apply IHs].
  - apply (star_complete text r); [exact IHr|done|done|].
    apply rmatch_bounds in Hm. lia.
  - inversion Hm as [| | | | | | |? Hx|]; subst. rewrite Hx. apply list_elem_of_here.
  - inversion Hm as [| | | | | | | |? Hx]; subst. rewrite Hx. apply list_elem_of_here.
Qed.

Lemma ends_spec text r i j : (i <= length text)%nat → j ∈ ends text r i ↔ rmatch text r i j.
Proof. intros Hi. split; [apply ends_sound | by apply ends_complete]. Qed.

Lemma match_runes_spec r text :
  match_runes r text = true ↔ ∃ i j, (i <= length text)%nat ∧ rmatch text r i j.
Proof.
  unfold match_runes. rewrite existsb_exists. setoid_rewrite in_seq. split.
  - intros (i & Hi & Hn). apply negb_true_iff, is_nil_false in Hn.
    destruct (ends text r i) as [|j l] eqn:He; [done|]. exists i, j. split; [lia|].
    apply ends_sound. rewrite He. apply list_elem_of_here.
  - intros (i & j & Hi & Hm). exists i. split; [lia|].
    apply negb_true_iff, is_nil_false. apply ends_complete in Hm; [|done].
    intros He. rewrite He in Hm. by apply not_elem_of_nil in Hm.
Qed.

(** ** Building expressions *)
Definition RPlus (r : regex) : regex := RSeq r (RStar r).
Definition ROpt (r : regex) : regex := RAlt r REmpty.

Fixpoint RRepeat (n : nat) (r : regex) : regex :=
  match n with O => REmpty | S n => RSeq r (RRepeat n r) end.

(** [r{n,n+m}] *)
Fixpoint ROptRepeat (m : nat) (r : regex) : regex :=
  match m with O => REmpty | S m => ROpt (RSeq r (ROptRepeat m r)) end.
Definition RBetween (n m : nat) (r : regex) : regex := RSeq (RRepeat n r) (ROptRepeat m r).
Definition RAtLeast (n : nat) (r : regex) : regex := RSeq (RRepeat n r) (RStar r).

Definition RSeqs (l : list regex) : regex := foldr RSeq REmpty l.
Definition RAlts (l : list regex) : regex :=
  match l with [] => RClass (fun _ => false) | r :: l => foldl RAlt r l end.

Definition rune_in (l : list Z) (c : Z) : bool := existsb (Z.eqb c) l.
Definition digit_class (c : Z) : bool := in_range 48 c 57.
Definition lower_class (c : Z) : bool := in_range 97 c 122.
(** [\s] *)
Definition space_class : Z → bool := rune_in [9; 10; 12; 13; 32].

(** A class under the flag [(?i)]: the runes that simple case folding relates
    to one of the class. For ASCII letters these are the other case, the long
    s U+017F for [s] and the Kelvin sign U+212A for [k]. *)
Definition fold_case (f : Z → bool) (c : Z) : bool :=
  f c
  || (in_range 65 c 90 && f (c + 32)) || (in_range 97 c 122 && f (c - 32))
  || ((c =? 383) && (f 115 || f 83)) || ((c =? 8490) && (f 107 || f 75)).

Definition RLit (s : string) : regex :=
  RSeqs ((fun p => RClass (Z.eqb p.1)) <$> runes s).
Definition RLitFold (s : string) : regex :=
  RSeqs ((fun p => RClass (fold_case (Z.eqb p.1))) <$> runes s).
