(* ===== verification/Ignore.v ===== *)
(** * Ignore rules

    [clients/cli-go/internal/workspace/ignore.go]: the [.gitignore] files that filter
    what the client's tools discover in a workspace: the parser of rules, the
    translation of a path component into a regular expression, the matching of a path
    against a rule, the decision of the innermost rules, and the loading of the rule
    files within the budget of an invocation. Paths and lines are lists of bytes. Of
    [securefile], [Stat] and the opening of a file are parameters; [ReadSnapshot]
    reads what was opened. *)
From S2P Require Import Prelude GoStd Utf8 Json GoRegexp.

Definition maxIgnoreFileBytes : Z := 64 * 2 ^ 10.
Definition maxIgnoreBytes : Z := 256 * 2 ^ 10.
Definition maxIgnoreFiles : Z := 256.
Definition maxIgnoreRules : Z := 4096.
Definition maxIgnorePatternBytes : Z := 1024.
Definition maxModelPathComponents : nat := 64.

Abbreviation bytes := (list Z).

(** ** Strings *)
Fixpoint Split (sep : Z) (s : bytes) : list bytes :=
  match s with
  | [] => [[]]
  | b :: s =>
    if b =? sep then [] :: Split sep s
    else match Split sep s with part :: parts => (b :: part) :: parts | [] => [[b]] end
  end.

Fixpoint CutPrefix (s prefix : bytes) : option bytes :=
  match prefix, s with
  | [], _ => Some s
  | p :: prefix, b :: s => if b =? p then CutPrefix s prefix else None
  | _ :: _, [] => None
  end.

Definition TrimPrefix (s prefix : bytes) : bytes := default s (CutPrefix s prefix).
Definition ends_with (s : bytes) (b : Z) : bool := bool_decide (last s = Some b).
Definition starts_with (s : bytes) (b : Z) : bool := bool_decide (head s = Some b).

Definition joinRelative (directory name : bytes) : bytes :=
  if bool_decide (directory = [46]) then name else directory ++ 47 :: name.

(** ** The components of a pattern *)

(** A character of a class as it is written into the regular expression: escaped
    characters are not special there, and the only special one left is the dash. *)
Inductive class_char : Type := Raw (r : Z) | Escaped (r : Z).

(** The characters [regexp.QuoteMeta] escapes. *)
Definition meta (r : Z) : bool := rune_in [92; 46; 43; 42; 63; 40; 41; 124; 91; 93; 123; 125; 94; 36] r.

Definition rune_of (c : class_char) : Z := match c with Raw r | Escaped r => r end.

(** How [regexp.Compile] reads the characters of a class: a range, where a dash is
    followed by another character; a range that is empty is an error. *)
Fixpoint class_ranges (chars : list class_char) : option (list (Z * Z)) :=
  match chars with
  | [] => Some []
  | lo :: chars =>
    match chars with
    | Raw 45 :: hi :: chars' =>
      if rune_of hi <? rune_of lo then None
      else ranges ← class_ranges chars'; Some ((rune_of lo, rune_of hi) :: ranges)
    | _ => ranges ← class_ranges chars; Some ((rune_of lo, rune_of lo) :: ranges)
    end
  end.

Definition in_ranges (ranges : list (Z * Z)) (r : Z) : bool := existsb (fun range => in_range range.1 r range.2) ranges.

Definition not_slash (r : Z) : bool := negb (r =? 47).

(** Where the loop over the runes is: outside of a class, or in one, with its
    characters so far, the latest first; [start] is whether there are none. *)
Inductive mode : Type := Outside | InClass (negated start : bool) (chars : list class_char).

Definition class_regex (negated : bool) (chars : list class_char) : option regex :=
  ranges ← class_ranges (reverse chars);
  Some (RClass (fun r => if negated then negb (in_ranges ranges r) else in_ranges ranges r)).

(** [compileIgnoreComponent] on the runes of a component: the expression between the
    anchors. *)
Fixpoint compile (m : mode) (runes : list Z) : result string regex :=
  match m with
  | Outside =>
    match runes with
    | [] => Ok REmpty
    | 92 :: [] => Err "dangling ignore escape"
    | 92 :: r :: runes => rest ← compile Outside runes; Ok (RSeq (RClass (Z.eqb r)) rest)
    | 42 :: runes => rest ← compile Outside runes; Ok (RSeq (RStar (RClass not_slash)) rest)
    | 63 :: runes => rest ← compile Outside runes; Ok (RSeq (RClass not_slash) rest)
    | 91 :: runes =>
      match runes with
      | 33 :: runes | 94 :: runes => compile (InClass true true []) runes
      | _ => compile (InClass false true []) runes
      end
    | r :: runes => rest ← compile Outside runes; Ok (RSeq (RClass (Z.eqb r)) rest)
    end
  | InClass negated start chars =>
    match runes with
    | [] => Err "invalid ignore class"
    | 93 :: runes =>
      if start then compile (InClass negated false (Escaped 93 :: chars)) runes
      else
        rest ← compile Outside runes;
        match class_regex negated chars with
        | Some c => Ok (RSeq c rest)
        | None => Err "invalid ignore pattern"
        end
    | 92 :: [] => Err "dangling ignore class escape"
    | 92 :: r :: runes => compile (InClass negated false ((if (r =? 45) || meta r then Escaped r else Raw r) :: chars)) runes
    | r :: runes =>
      if (r =? 91) && match runes with next :: _ => rune_in [58; 46; 61] next | [] => false end then Err "named ignore class unsupported"
      else compile (InClass negated false ((if (r =? 91) || (r =? 94) then Escaped r else Raw r) :: chars)) runes
    end
  end.

Definition compileIgnoreComponent (pattern : bytes) : result string regex := compile Outside (decode_runes pattern).*1.

(** [MatchString] of an expression between [^] and [$]: the whole text. *)
Definition match_whole (r : regex) (runes : list Z) : bool := bool_decide (length runes ∈ ends runes r 0).
Definition match_component (r : regex) (component : bytes) : bool := match_whole r (decode_runes component).*1.

(** ** Rules *)

(** [nil] in the code, [None] here, is a whole component [**]. *)
Record ignoreRule := mkIgnoreRule {
  negate : bool;
  directory : bool;
  basename : bool;
  parts : list (option regex);
}.

Fixpoint leading (b : Z) (s : bytes) : nat := match s with c :: s => if c =? b then S (leading b s) else O | [] => O end.

(** The line backwards, without the spaces at its end that are not escaped. *)
Fixpoint trim_spaces (backwards : bytes) : bytes :=
  match backwards with
  | 32 :: rest => if Nat.odd (leading 92 rest) then backwards else trim_spaces rest
  | _ => backwards
  end.

Definition parse_part (part : bytes) : result string (option regex) :=
  if bool_decide (part ∈ [[]; [46]; [46; 46]]) then Err "ignore component unsupported"
  else if bool_decide (part = [42; 42]) then Ok None
  else r ← compileIgnoreComponent part; Ok (Some r).

Fixpoint parse_parts (parts : list bytes) : result string (list (option regex)) :=
  match parts with
  | [] => Ok []
  | part :: parts => p ← parse_part part; ps ← parse_parts parts; Ok (p :: ps)
  end.

(** No rule is [None]. *)
Definition parseIgnoreRule (line : bytes) : result string (option ignoreRule) :=
  let line := reverse (trim_spaces (reverse line)) in
  if is_nil line || starts_with line 35 then Ok None
  else
    _ ← fail_if (maxIgnorePatternBytes <? Z.of_nat (length line)) "ignore pattern too long";
    let negate := starts_with line 33 in
    let line := if negate then drop 1 line else line in
    let directory := ends_with line 47 in
    let line := if directory then removelast line else line in
    let anchored := starts_with line 47 in
    let line := TrimPrefix line [47] in
    let parts := Split 47 line in
    _ ← fail_if (maxModelPathComponents <? length parts)%nat "ignore pattern too deep";
    compiled ← parse_parts parts;
    Ok (Some (mkIgnoreRule negate directory (negb anchored && (length parts =? 1)%nat) compiled)).

(** ** Matching *)

(** One row of the table: whether the patterns so far match the first components. *)
Fixpoint spread (left : bool) (row : list bool) : list bool :=
  match row with [] => [] | b :: row => (b || left) :: spread (b || left) row end.

Definition next_row (components : list bytes) (pattern : option regex) (is_last : bool) (previous : list bool) : list bool :=
  match pattern with
  | None =>
    if is_last then false :: spread false (removelast previous)
    else match previous with b :: row => b :: spread b row | [] => [] end
  | Some r => false :: zip_with (fun b component => b && match_component r component) previous components
  end.

Fixpoint rows (components : list bytes) (patterns : list (option regex)) (previous : list bool) : list bool :=
  match patterns with
  | [] => previous
  | pattern :: patterns => rows components patterns (next_row components pattern (is_nil patterns) previous)
  end.

Definition ignoreRule_match (r : ignoreRule) (relative : bytes) : bool :=
  let components := Split 47 relative in
  if basename r then
    match parts r with
    | Some p :: _ => match_component p (default [] (last components))
    | _ => true
    end
  else default false (last (rows components (parts r) (true :: replicate (length components) false))).

(** ** Layers *)

(** The parents of a layer follow it in a list. *)
Record ignoreLayer := mkIgnoreLayer { base : bytes; rules : list ignoreRule }.

(** The path a layer sees. *)
Definition layer_path (layer : ignoreLayer) (relative : bytes) : option bytes :=
  if bool_decide (base layer = [46]) then Some relative else CutPrefix relative (base layer ++ [47]).

Definition rule_applies (is_directory : bool) (path : bytes) (r : ignoreRule) : bool :=
  (negb (directory r) || is_directory) && ignoreRule_match r path.

(** The last rule of the innermost layer that applies. *)
Fixpoint deciding (layers : list ignoreLayer) (relative : bytes) (is_directory : bool) : option ignoreRule :=
  match layers with
  | [] => None
  | layer :: parents =>
    match layer_path layer relative with
    | None => deciding parents relative is_directory
    | Some path =>
      match find (rule_applies is_directory path) (reverse (rules layer)) with
      | Some r => Some r
      | None => deciding parents relative is_directory
      end
    end
  end.

(** [excluded] of a state that exists: the verdict, and whether the entry counts as ignored. *)
Definition excluded (layers : list ignoreLayer) (relative : bytes) (is_directory : bool) : bool :=
  match deciding layers relative is_directory with Some r => negb (negate r) | None => false end.

(** ** Loading *)

(** The limits of the invocation that are used. *)
Record Limits := mkLimits { SearchFiles : Z; FileBytes : Z; SearchBytes : Z }.

(** The invocation: the rule files and their bytes, what the search used in all, and
    the reasons it is incomplete, the latest first. *)
Record gitignoreState := mkGitignoreState {
  files : Z;
  rule_count : Z;
  ignored : Z;
  ignore_bytes : Z;
  usedFiles : Z;
  usedBytes : Z;
  incomplete : list string;
}.

Definition newGitignoreState : gitignoreState := mkGitignoreState 0 0 0 0 0 0 [].

Inductive EntryType : Type := EntryFile | EntryOther.
Inductive StatResult : Type := NotFound | StatFailed | Info (Kind : EntryType) (Size : Z).

Definition fail (reason : string) (s : gitignoreState) : option (list ignoreLayer) * gitignoreState :=
  (None, mkGitignoreState (files s) (rule_count s) (ignored s) (ignore_bytes s) (usedFiles s) (usedBytes s) (reason :: incomplete s)).

Definition use (limit size : Z) (s : gitignoreState) : gitignoreState :=
  mkGitignoreState (files s + 1) (rule_count s) (ignored s) (ignore_bytes s + limit) (usedFiles s + 1) (usedBytes s + size) (incomplete s).
Definition count_rule (s : gitignoreState) : gitignoreState :=
  mkGitignoreState (files s) (rule_count s + 1) (ignored s) (ignore_bytes s) (usedFiles s) (usedBytes s) (incomplete s).
Definition count_ignored (s : gitignoreState) : gitignoreState :=
  mkGitignoreState (files s) (rule_count s) (ignored s + 1) (ignore_bytes s) (usedFiles s) (usedBytes s) (incomplete s).

Definition count_excluded (layers : list ignoreLayer) (relative : bytes) (is_directory : bool) (s : gitignoreState) : bool * gitignoreState :=
  if excluded layers relative is_directory then (true, count_ignored s) else (false, s).

Section Loading.
(** What the file system answers: [Stat]; the bytes and the size of a file that is
    opened; whether the hook of the snapshot accepts it. [running n] is whether the
    context is still live at the [n]-th check of a call of [load]. *)
Context (Stat : bytes → StatResult) (open : bytes → option (bytes * Z)) (captureSnapshot : bytes → bytes → bool).
Context (running : nat → bool) (limits : Limits).

(** [securefile.readOpenFileSnapshot], of a regular file that did not change. *)
Definition ReadSnapshot (name : bytes) (limit : Z) : option bytes :=
  '(contents, size) ← open name;
  if (limit <? 0) || (limit <? size) then None
  else
    let data := take (Z.to_nat (limit + 1)) contents in
    if (limit <? Z.of_nat (length data)) || negb (Z.of_nat (length data) =? size) then None else Some data.

(** [readSnapshot], with the charges of [load]. *)
Definition read_rules (name : bytes) (size : Z) (s : gitignoreState) : option bytes * gitignoreState :=
  match ReadSnapshot name size with
  | None => (None, use (size + 1) (size + 1) s)
  | Some data =>
    if captureSnapshot name data then (Some data, use (Z.of_nat (length data)) (Z.of_nat (length data)) s)
    else (None, use (size + 1) (Z.of_nat (length data)) s)
  end.

(** The loop over the lines: the rules so far, the latest first. *)
Fixpoint read_lines (check : nat) (found : list ignoreRule) (lines : list bytes) (s : gitignoreState)
    : option (list ignoreRule) * gitignoreState :=
  match lines with
  | [] => (Some (reverse found), s)
  | line :: lines =>
    if negb (running check) then (None, s)
    else
      match parseIgnoreRule (if ends_with line 13 then removelast line else line) with
      | Err _ => (None, (fail "gitignore_pattern_unsupported" s).2)
      | Ok None => read_lines (S check) found lines s
      | Ok (Some rule) =>
        if maxIgnoreRules <=? rule_count s then (None, (fail "gitignore_rule_limit" s).2)
        else read_lines (S check) (rule :: found) lines (count_rule s)
      end
  end.

Definition BOM : bytes := [239; 187; 191].

(** [load]: [None] is a directory that must not be entered. *)
Definition load (directory : bytes) (parent : list ignoreLayer) (s : gitignoreState) : option (list ignoreLayer) * gitignoreState :=
  if negb (running 0) then (None, s)
  else
    let name := joinRelative directory (bytes_of ".gitignore") in
    match Stat name with
    | NotFound => (Some parent, s)
    | StatFailed => fail "gitignore_unavailable" s
    | Info EntryOther _ => fail "gitignore_unsafe_type" s
    | Info EntryFile size =>
      if maxIgnoreFiles <=? files s then fail "gitignore_file_limit" s
      else if SearchFiles limits <=? usedFiles s then fail "file_limit" s
      else if (size <? 0) || (Z.min maxIgnoreFileBytes (FileBytes limits) <? size) then fail "gitignore_file_too_large" s
      else if maxIgnoreBytes - ignore_bytes s <=? size then fail "gitignore_bytes" s
      else if SearchBytes limits - usedBytes s <=? size then fail "scan_bytes" s
      else
        match read_rules name size s with
        | (None, s) => fail "gitignore_unavailable" s
        | (Some data, s) =>
          if negb (running 1) then (None, s)
          else if negb (valid_bytes data) || existsb (Z.eqb 0) data then fail "gitignore_invalid_text" s
          else
            match read_lines 2 [] (Split 10 (TrimPrefix data BOM)) s with
            | (None, s) => (None, s)
            | (Some found, s) => (Some (if is_nil found then parent else mkIgnoreLayer directory found :: parent), s)
            end
        end
    end.

(** [scopeParents]: the loop over the components of the scope. *)
Fixpoint enter (components : list bytes) (current : bytes) (layers : list ignoreLayer) (s : gitignoreState)
    : option (list ignoreLayer) * gitignoreState :=
  match components with
  | [] => (Some layers, s)
  | component :: components =>
    match load current layers s with
    | (None, s) => (None, s)
    | (Some layers, s) =>
      let current := joinRelative current component in
      match count_excluded layers current true s with
      | (true, s) => (None, s)
      | (false, s) => enter components current layers s
      end
    end
  end.

Definition scopeParents (scope : bytes) (s : gitignoreState) : option (list ignoreLayer) * gitignoreState :=
  if bool_decide (scope = [46]) then (Some [], s) else enter (Split 47 scope) [46] [] s.
End Loading.

Module Samples.
Definition rule (line : string) : ignoreRule :=
  match parseIgnoreRule (bytes_of line) with Ok (Some r) => r | _ => mkIgnoreRule true true true [] end.
Definition matches (line path : string) : bool := ignoreRule_match (rule line) (bytes_of path).

Example basename_any_depth : matches "*.o" "src/lib/a.o" = true ∧ matches "/*.o" "src/a.o" = false.
Proof. split; vm_compute; reflexivity. Qed.
Example stars : matches "a/**/b" "a/b" = true ∧ matches "a/**/b" "a/x/y/b" = true ∧ matches "abc/**" "abc" = false ∧ matches "**/b" "x/b" = true.
Proof. split_and!; vm_compute; reflexivity. Qed.
Example classes : matches "[a-c]?[!x]" "bzz" = true ∧ matches "[]-]x" "-x" = true ∧ matches "\*" "*" = true ∧ matches "[^a-]" "-" = false.
Proof. split_and!; vm_compute; reflexivity. Qed.
Example bad_lines : (fun line => is_Err (parseIgnoreRule (bytes_of line))) <$> ["[b-a]"; "a//b"; "x["; "[[:alpha:]]"; "a\"; "#["] = [true; true; true; true; true; false].
Proof. vm_compute. reflexivity. Qed.
Example trailing_spaces : matches "a\ " "a " = true ∧ matches "a  " "a" = true.
Proof. split; vm_compute; reflexivity. Qed.
End Samples.

(** ** Properties *)






















(** *** Which rule decides *)
Definition applies_in (relative : bytes) (is_directory : bool) (layer : ignoreLayer) (r : ignoreRule) : Prop :=
  ∃ path, layer_path layer relative = Some path ∧ rule_applies is_directory path r = true.

Lemma find_reverse_Some {A} (f : A → bool) l x : find f (reverse l) = Some x → ∃ before after, l = before ++ x :: after ∧ f x = true ∧ Forall (fun y => f y = false) after.
Proof.
  induction l as [|y l IH] using rev_ind; [done|]. rewrite reverse_snoc. cbn. destruct (f y) eqn:Hf.
  - intros [= <-]. exists l, []. by split_and!.
  - intros (before & after & -> & Hx & Hall)%IH. exists before, (after ++ [y]). split_and!; [by rewrite <- app_assoc|done|].
    apply Forall_app. split; [done|by apply Forall_singleton].
Qed.

Lemma find_reverse_None {A} (f : A → bool) l : find f (reverse l) = None → Forall (fun y => f y = false) l.
Proof. intros H. apply Forall_forall. intros y Hy. apply (List.find_none f (reverse l)); [done|]. apply list_elem_of_In. by apply elem_of_reverse. Qed.

(** The rule that decides about an entry is the last one that applies in the
    innermost layer that has one: no later rule of that layer and no rule of a layer
    inside it applies. An entry is excluded when that rule exists and does not negate. *)
Theorem innermost_last_rule_decides layers relative is_directory :
  match deciding layers relative is_directory with
  | Some r =>
    excluded layers relative is_directory = negb (negate r) ∧
    ∃ inner layer outer before after,
      layers = inner ++ layer :: outer ∧ rules layer = before ++ r :: after ∧
      applies_in relative is_directory layer r ∧
      Forall (fun later => ¬ applies_in relative is_directory layer later) after ∧
      Forall (fun l => Forall (fun other => ¬ applies_in relative is_directory l other) (rules l)) inner
  | None =>
    excluded layers relative is_directory = false ∧
    Forall (fun l => Forall (fun other => ¬ applies_in relative is_directory l other) (rules l)) layers
  end.
Proof.
  unfold excluded. induction layers as [|layer parents IH]; [by split|]. cbn [deciding].
  destruct (layer_path layer relative) as [path|] eqn:Hpath; [destruct (find _ _) as [r|] eqn:Hf|].
  - split; [done|]. apply find_reverse_Some in Hf as (before & after & Hrules & Hr & Hafter). exists [], layer, parents, before, after. split; [done|]. split; [done|]. split; [by exists path|]. split; [|constructor].
    eapply Forall_impl; [exact Hafter|]. intros other Ho (path' & [= <-]%(eq_trans (eq_sym Hpath)) & Hx).
    congruence.
  - apply find_reverse_None in Hf. assert (Forall (fun other => ¬ applies_in relative is_directory layer other) (rules layer)) as Hnone.
    { eapply Forall_impl; [exact Hf|]. intros other Ho (path' & [= <-]%(eq_trans (eq_sym Hpath)) & Hx). congruence. }
    destruct (deciding parents relative is_directory) as [r|]; [|destruct IH as [_ IH]; split; [done|by constructor]].
    destruct IH as [_ (inner & l & outer & before & after & -> & ? & ? & ? & ?)]. split; [done|].
    exists (layer :: inner), l, outer, before, after. split_and!; try done. by constructor.
  - assert (Forall (fun other => ¬ applies_in relative is_directory layer other) (rules layer)) as Hnone.
    { apply Forall_forall. intros other _ (path & Hx & _). congruence. }
    destruct (deciding parents relative is_directory) as [r|]; [|destruct IH as [_ IH]; split; [done|by constructor]].
    destruct IH as [_ (inner & l & outer & before & after & -> & ? & ? & ? & ?)]. split; [done|].
    exists (layer :: inner), l, outer, before, after. split_and!; try done. by constructor.
Qed.

(** *** Loading *)
Section LoadingFacts.
Context (Stat : bytes → StatResult) (open : bytes → option (bytes * Z)) (captureSnapshot : bytes → bytes → bool).
Context (running : nat → bool) (limits : Limits).

(** Within the budgets of an invocation. *)
Definition within (s : gitignoreState) : Prop :=
  files s <= maxIgnoreFiles ∧ ignore_bytes s <= maxIgnoreBytes ∧ rule_count s <= maxIgnoreRules ∧
  usedFiles s <= SearchFiles limits ∧ usedBytes s <= SearchBytes limits.

Lemma ReadSnapshot_size name limit data : ReadSnapshot open name limit = Some data → Z.of_nat (length data) <= limit.
Proof.
  unfold ReadSnapshot. destruct (open name) as [[contents size]|]; [|done]. cbn. destruct (_ || _); [done|].
  destruct (limit <? Z.of_nat _) eqn:Hl; [done|]. cbn. destruct (negb _); [done|]. intros [= <-]. lia.
Qed.

Lemma read_lines_within check found lines s o s' : read_lines running check found lines s = (o, s') → within s → within s'.
Proof.
  revert check found s. induction lines as [|line lines IH]; intros check found s; cbn; [by intros [= _ <-]|].
  destruct (negb _); [by intros [= _ <-]|]. destruct (parseIgnoreRule _) as [[rule|]|e].
  - destruct (maxIgnoreRules <=? rule_count s) eqn:Hlimit; [by intros [= _ <-]|]. intros Hr (H1 & H2 & H3 & H4 & H5). apply (IH _ _ _ Hr).
    unfold within in *. cbn in *. repeat split; lia.
  - apply IH.
  - by intros [= _ <-].
Qed.

Lemma load_within directory parent s : within s → within (load Stat open captureSnapshot running limits directory parent s).2.
Proof.
  intros Hs. unfold load. destruct (negb _); [done|]. destruct (Stat _) as [| |[] size]; try done.
  destruct (maxIgnoreFiles <=? files s) eqn:E1; [done|]. destruct (SearchFiles limits <=? usedFiles s) eqn:E2; [done|].
  destruct (_ || _) eqn:E3; [done|]. destruct (maxIgnoreBytes - _ <=? size) eqn:E4; [done|]. destruct (SearchBytes limits - _ <=? size) eqn:E5; [done|].
  destruct (read_rules _ _ _ _ _) as [o s'] eqn:Hr. assert (within s') as Hs'.
  { unfold read_rules in Hr. destruct (ReadSnapshot _ _ _) as [data|] eqn:Hd; [apply ReadSnapshot_size in Hd; destruct (captureSnapshot _ _)|];
      injection Hr as <- <-; unfold within in *; cbn in *; repeat split; lia. }
  destruct o as [data|]; [|done]. destruct (negb (running 1)); [done|]. destruct (negb (valid_bytes data) || _); [done|].
  destruct (read_lines _ _ _ _ _) as [found s''] eqn:Hl. apply read_lines_within in Hl; [|done]. by destruct found.
Qed.

Lemma enter_within components current layers s : within s → within (enter Stat open captureSnapshot running limits components current layers s).2.
Proof.
  revert current layers s. induction components as [|component components IH]; intros current layers s Hs; [done|]. cbn.
  pose proof (load_within current layers s Hs) as Hl. destruct (load _ _ _ _ _ _ _ _) as [[layers'|] s']; [|done].
  unfold count_excluded. destruct (excluded _ _ _); [done|]. by apply IH.
Qed.

(** What the lines of a file say, none of them rejected. *)
Definition rules_of (lines : list bytes) : result string (list ignoreRule) :=
  foldr (fun line rest =>
    rule ← parseIgnoreRule (if ends_with line 13 then removelast line else line);
    rules ← rest;
    Ok (match rule with Some r => r :: rules | None => rules end)) (Ok []) lines.

Lemma read_lines_rules check found lines s kept s' : read_lines running check found lines s = (Some kept, s') →
  ∃ new, rules_of lines = Ok new ∧ kept = reverse found ++ new.
Proof.
  revert check found s. induction lines as [|line lines IH]; intros check found s; cbn [read_lines rules_of foldr].
  { intros [= <- _]. exists []. by rewrite app_nil_r. }
  destruct (negb _); [done|]. destruct (parseIgnoreRule _) as [[rule|]|e]; [|intros (new & Hn & ->)%IH|done].
  - destruct (maxIgnoreRules <=? rule_count s); [done|]. intros (new & Hn & ->)%IH. exists (rule :: new). unfold rules_of in Hn. rewrite Hn.
    split; [done|]. by rewrite reverse_cons, <- app_assoc.
  - exists new. unfold rules_of in Hn. by rewrite Hn.
Qed.

Lemma read_rules_data name size s data s' : read_rules open captureSnapshot name size s = (Some data, s') →
  ReadSnapshot open name size = Some data ∧ captureSnapshot name data = true.
Proof. unfold read_rules. destruct (ReadSnapshot _ _ _) as [d|]; [|done]. destruct (captureSnapshot name d) eqn:Hc; [|done]. by intros [= <- _]. Qed.
End LoadingFacts.

(** Reading rules fails closed: a directory is entered only when it has no ignore
    file, or when its file is a regular one of at most 64 KiB that was read whole, is
    text, and has no line that is rejected; and then all of its rules are in force, in
    their order, in front of its parents'. *)
Theorem load_fails_closed Stat open captureSnapshot running limits directory parent s layers s' :
  load Stat open captureSnapshot running limits directory parent s = (Some layers, s') →
  let name := joinRelative directory (bytes_of ".gitignore") in
  (Stat name = NotFound ∧ layers = parent) ∨
  ∃ size data found,
    Stat name = Info EntryFile size ∧ 0 <= size <= maxIgnoreFileBytes ∧ ReadSnapshot open name size = Some data ∧
    captureSnapshot name data = true ∧ valid_bytes data = true ∧ 0 ∉ data ∧ rules_of (Split 10 (TrimPrefix data BOM)) = Ok found ∧
    layers = if is_nil found then parent else mkIgnoreLayer directory found :: parent.
Proof.
  unfold load. set (name := joinRelative _ _). destruct (negb (running 0%nat)); [done|]. destruct (Stat name) as [| |[] size] eqn:Hstat; try done.
  { intros [= <- _]. by left. }
  destruct (maxIgnoreFiles <=? files s); [done|]. destruct (SearchFiles limits <=? usedFiles s); [done|].
  destruct ((size <? 0) || _) eqn:Hsize; [done|]. destruct (maxIgnoreBytes - _ <=? size); [done|]. destruct (SearchBytes limits - _ <=? size); [done|].
  destruct (read_rules _ _ _ _ _) as [[data|] s1] eqn:Hr; [|done]. apply read_rules_data in Hr as [Hdata Hcapture].
  destruct (negb (running 1%nat)); [done|]. destruct (negb (valid_bytes data) || _) eqn:Htext; [done|].
  destruct (read_lines _ _ _ _ _) as [[found|] s2] eqn:Hl; [|done]. apply read_lines_rules in Hl as (new & Hnew & ->). intros [= <- _]. right.
  exists size, data, new. apply orb_false_iff in Hsize as [Hlow Hhigh]. apply orb_false_iff in Htext as [Hvalid%negb_false_iff Hnul].
  split_and!; try done; [lia|lia|]. intros Hin. apply list_elem_of_In in Hin. assert (existsb (Z.eqb 0) data = true); [|congruence].
  apply List.existsb_exists. by exists 0.
Qed.

Module Loaded.
Definition text : bytes := bytes_of "*.o" ++ [13; 10] ++ bytes_of "# notes" ++ [10] ++ bytes_of "!keep.o" ++ [10].
Definition Stat (name : bytes) : StatResult := if bool_decide (name = bytes_of ".gitignore") then Info EntryFile 21 else NotFound.
Definition open (name : bytes) : option (bytes * Z) := if bool_decide (name = bytes_of ".gitignore") then Some (text, 21) else None.
Definition load_root := load Stat open (fun _ _ => true) (fun _ => true) (mkLimits 10 1000 1000) [46] [] newGitignoreState.
Definition enter_src := scopeParents Stat open (fun _ _ => true) (fun _ => true) (mkLimits 10 1000 1000) (bytes_of "src/lib") newGitignoreState.

Example reads_two_rules : (excluded (default [] load_root.1) (bytes_of "x/a.o") false, excluded (default [] load_root.1) (bytes_of "x/keep.o") false) = (true, false).
Proof. vm_compute. reflexivity. Qed.
Example enters : (length <$> enter_src.1, files enter_src.2, ignore_bytes enter_src.2, rule_count enter_src.2) = (Some 1%nat, 1, 21, 2).
Proof. vm_compute. reflexivity. Qed.
End Loaded.

Lemma load_fails_closed_witness :
  ∃ layers, Loaded.load_root.1 = Some layers ∧
  ((Loaded.Stat (bytes_of ".gitignore") = NotFound ∧ layers = []) ∨
   ∃ size data found,
     Loaded.Stat (bytes_of ".gitignore") = Info EntryFile size ∧ 0 <= size <= maxIgnoreFileBytes ∧
     ReadSnapshot Loaded.open (bytes_of ".gitignore") size = Some data ∧
     true = true ∧ valid_bytes data = true ∧ 0 ∉ data ∧ rules_of (Split 10 (TrimPrefix data BOM)) = Ok found ∧
     layers = if is_nil found then [] else [mkIgnoreLayer [46] found]).
Proof.
  eexists. split; [reflexivity|].
  exact (load_fails_closed Loaded.Stat Loaded.open (fun _ _ => true) (fun _ => true) (mkLimits 10 1000 1000) [46] [] newGitignoreState _ _ eq_refl).
Defined.

(** Entering a directory keeps the invocation within its budgets: at most 256
    ignore files, 256 KiB of them and 4096 rules, and never more files or bytes than
    the search may read, whatever the files are and however they change meanwhile. *)
Theorem ignore_files_within_budget Stat open captureSnapshot running limits scope s :
  within limits s → within limits (scopeParents Stat open captureSnapshot running limits scope s).2.
Proof. intros Hs. unfold scopeParents. case_bool_decide; [done|]. by apply enter_within. Qed.

Lemma ignore_files_within_budget_witness :
  within (mkLimits 10 1000 1000) newGitignoreState ∧ within (mkLimits 10 1000 1000) Loaded.enter_src.2.
Proof.
  assert (within (mkLimits 10 1000 1000) newGitignoreState) as H by (repeat split; done). split; [done|].
  exact (ignore_files_within_budget Loaded.Stat Loaded.open (fun _ _ => true) (fun _ => true) (mkLimits 10 1000 1000) (bytes_of "src/lib") newGitignoreState H).
Defined.
