(* ===== verification/MemoryDomain.v ===== *)
(** * Memory: candidates, deliveries and the admission policy

    [server/internal/memory/domain.go]: the records of the long-term memory
    subsystem with their validators, the deterministic classifier that decides
    which proposed content may be admitted without review, the policy gate in
    front of every remote delivery, and the state machines of candidates,
    records, deliveries and attempts. [github.com/google/uuid] enters through the
    class [UUIDPackage]. A [time.Time] is an instant together with whether its
    location is UTC, which the validators look at. *)
From S2P Require Import Prelude GoStd Packages GoRegexp.

(** ** Data *)
Record Time := mkTime { Time_instant : time; Time_utc : bool }.

Inductive error : Type :=
| MemoryError (Code Reason CandidateID : string) (ExpectedRevision CurrentRevision : Z)
    (Cause : option error).

Definition ErrorCode (err : error) : string :=
  match err with MemoryError Code _ _ _ _ _ => Code end.
Definition ErrorReason (err : error) : string :=
  match err with MemoryError _ Reason _ _ _ _ => Reason end.

Definition AdmissionPolicyVersion := "memory-admission-v1".
Definition MaxContentRunes : Z := 32000.
Definition MaxContentBytes : Z := 262144.
Definition MaxReasonRunes : Z := 1000.
Definition MaxReferenceBytes : Z := 500.
Definition CodeInvalidRequest := "invalid_request".
Definition CodeMemoryPolicyRejected := "memory_policy_rejected".

Inductive SourceKind : Type :=
| SourceUserStatement
| SourceModelInference
| SourceLongTermBackground
| SourceGeneratedSummary
| SourceKindOther (s : string).
#[export] Instance SourceKind_eq_dec : EqDecision SourceKind.
Proof. solve_decision. Defined.

Inductive Sensitivity : Type :=
| SensitivityNonSensitive
| SensitivitySensitive
| SensitivityOther (s : string).
#[export] Instance Sensitivity_eq_dec : EqDecision Sensitivity.
Proof. solve_decision. Defined.

Inductive Stability : Type :=
| StabilityTransient
| StabilityStable
| StabilityOther (s : string).
#[export] Instance Stability_eq_dec : EqDecision Stability.
Proof. solve_decision. Defined.

Inductive Category : Type :=
| CategoryInteractionPreference
| CategoryTimeConstraint
| CategoryPersonalContext
| CategoryGeneratedSummary
| CategoryRawChat
| CategoryCompleteAttempt
| CategoryQuestionOrRubric
| CategoryGoal
| CategoryRoute
| CategoryMastery
| CategoryEvidence
| CategoryMisconception
| CategoryReviewQueue
| CategorySyncState
| CategoryDeviceToken
| CategoryModelSecret
| CategoryNocturneSecret
| CategoryOther (s : string).
#[export] Instance Category_eq_dec : EqDecision Category.
Proof. solve_decision. Defined.

Inductive CandidateStatus : Type :=
| CandidatePending
| CandidateAdmitted
| CandidateRejected
| CandidateExpired
| CandidateStatusOther (s : string).
#[export] Instance CandidateStatus_eq_dec : EqDecision CandidateStatus.
Proof. solve_decision. Defined.

Inductive MemoryDecision : Type :=
| DecisionAdmit
| DecisionReject
| DecisionExpire
| DecisionOther (s : string).
#[export] Instance MemoryDecision_eq_dec : EqDecision MemoryDecision.
Proof. solve_decision. Defined.

Inductive RecordStatus : Type :=
| RecordQueued
| RecordApplied
| RecordPermanentlyRejected
| RecordSuperseded
| RecordDeletePending
| RecordDeleted
| RecordStatusOther (s : string).
#[export] Instance RecordStatus_eq_dec : EqDecision RecordStatus.
Proof. solve_decision. Defined.

Inductive DeliveryPublicStatus : Type :=
| DeliveryQueued
| DeliveryApplied
| DeliveryRejected
| DeliveryPublicStatusOther (s : string).
#[export] Instance DeliveryPublicStatus_eq_dec : EqDecision DeliveryPublicStatus.
Proof. solve_decision. Defined.

Inductive DeliveryStatus : Type :=
| DeliveryStatusQueued
| DeliveryStatusApplied
| DeliveryStatusPermanentlyRejected
| DeliveryStatusFenced
| DeliveryStatusExpiryReconciling
| DeliveryStatusExpired
| DeliveryStatusDeletePending
| DeliveryStatusDeleted
| DeliveryStatusOther (s : string).
#[export] Instance DeliveryStatus_eq_dec : EqDecision DeliveryStatus.
Proof. solve_decision. Defined.

Inductive AttemptState : Type :=
| AttemptPrepared
| AttemptSent
| AttemptUnknown
| AttemptReconciling
| AttemptConfirmed
| AttemptFenced
| AttemptFailed
| AttemptStateOther (s : string).
#[export] Instance AttemptState_eq_dec : EqDecision AttemptState.
Proof. solve_decision. Defined.

Inductive ReconciliationStatus : Type :=
| ReconciliationPending
| ReconciliationReconciling
| ReconciliationDeletePending
| ReconciliationAbsenceVerified
| ReconciliationVerified
| ReconciliationConflict
| ReconciliationStatusOther (s : string).
#[export] Instance ReconciliationStatus_eq_dec : EqDecision ReconciliationStatus.
Proof. solve_decision. Defined.

Inductive ReceiptStatus : Type :=
| ReceiptPending
| ReceiptSucceeded
| ReceiptPartial
| ReceiptFailed
| ReceiptUnknown
| ReceiptNotApplicable
| ReceiptUnsupported
| ReceiptStatusOther (s : string).
#[export] Instance ReceiptStatus_eq_dec : EqDecision ReceiptStatus.
Proof. solve_decision. Defined.

Inductive DeliveryKind : Type :=
| DeliveryAdmit
| DeliveryCorrection
| DeliveryDelete
| DeliveryErasure
| DeliveryKindOther (s : string).
#[export] Instance DeliveryKind_eq_dec : EqDecision DeliveryKind.
Proof. solve_decision. Defined.

Inductive OperationKind : Type :=
| OperationCreateCandidate
| OperationCandidateDecision
| OperationRecordDelete
| OperationDeliveryReplay
| OperationPrivacyErasure
| OperationKindOther (s : string).
#[export] Instance OperationKind_eq_dec : EqDecision OperationKind.
Proof. solve_decision. Defined.

Inductive AdmissionContentDisposition : Type :=
| AdmissionContentAutomatic
| AdmissionContentReview
| AdmissionContentForbidden
| AdmissionContentDispositionOther (s : string).
#[export] Instance AdmissionContentDisposition_eq_dec : EqDecision AdmissionContentDisposition.
Proof. solve_decision. Defined.

Record SourceReference := mkSourceReference {
  SourceReference_EventID : string;
  SourceReference_OperationID : string;
  SourceReference_ModelID : string;
  SourceReference_PromptRevision : string;
  SourceReference_SourceHashes : list string;
}.

Record Candidate := mkCandidate {
  Candidate_ID : string;
  Candidate_URI : string;
  Candidate_LogicalMemoryID : string;
  Candidate_PayloadID : string;
  Candidate_ContentHash : string;
  Candidate_Source : SourceKind;
  Candidate_SourceReference : SourceReference;
  Candidate_ProposerID : string;
  Candidate_Reason : string;
  Candidate_Category : Category;
  Candidate_Sensitivity : Sensitivity;
  Candidate_Stability : Stability;
  Candidate_ValidUntil : Time;
  Candidate_PolicyVersion : string;
  Candidate_Status : CandidateStatus;
  Candidate_Revision : Z;
  Candidate_CreatedAt : Time;
}.

Record CandidateDecision := mkCandidateDecision {
  CandidateDecision_ID : string;
  CandidateDecision_CandidateID : string;
  CandidateDecision_Revision : Z;
  CandidateDecision_Decision : MemoryDecision;
  CandidateDecision_Reason : string;
  CandidateDecision_ActorID : string;
  CandidateDecision_ActorKind : string;
  CandidateDecision_OperationID : string;
  CandidateDecision_RequestHash : string;
  CandidateDecision_CreatedAt : Time;
}.

Record MemoryRecord := mkMemoryRecord {
  Record_LogicalMemoryID : string;
  Record_ID : string;
  Record_Revision : Z;
  Record_RecordGeneration : Z;
  Record_LearnerGeneration : Z;
  Record_CandidateID : string;
  Record_PreviousRevisionID : string;
  Record_ExternalURI : string;
  Record_ExternalURIDigest : string;
  Record_ExternalNodeID : string;
  Record_ExternalMemoryID : Z;
  Record_ContentHash : string;
  Record_Status : RecordStatus;
  Record_DeliveryID : string;
  Record_ReceiptID : string;
  Record_CreatedAt : Time;
  Record_AppliedAt : option Time;
  Record_SupersededAt : option Time;
  Record_DeletedAt : option Time;
}.

Record Delivery := mkDelivery {
  Delivery_ID : string;
  Delivery_Kind : DeliveryKind;
  Delivery_LogicalMemoryID : string;
  Delivery_RecordRevisionID : string;
  Delivery_RecordRevision : Z;
  Delivery_LearnerGeneration : Z;
  Delivery_RecordGeneration : Z;
  Delivery_PayloadID : string;
  Delivery_PayloadHash : string;
  Delivery_ExternalURI : string;
  Delivery_AttemptState : AttemptState;
  Delivery_Status : DeliveryStatus;
  Delivery_PublicStatus : DeliveryPublicStatus;
  Delivery_Disposition : string;
  Delivery_ValidUntil : Time;
  Delivery_AttemptCount : Z;
  Delivery_LastCategory : string;
  Delivery_ReceiptID : string;
  Delivery_CreatedAt : Time;
  Delivery_UpdatedAt : Time;
}.

Record Attempt := mkAttempt {
  Attempt_ID : string;
  Attempt_DeliveryID : string;
  Attempt_AttemptToken : string;
  Attempt_State : AttemptState;
  Attempt_LeaseToken : string;
  Attempt_LeaseExpiresAt : Time;
  Attempt_BootEpoch : string;
  Attempt_SentAt : option Time;
  Attempt_UnknownAt : option Time;
  Attempt_ResultDigest : string;
  Attempt_ErrorCategory : string;
  Attempt_CreatedAt : Time;
  Attempt_UpdatedAt : Time;
}.

Record ExpiryReconciliation := mkExpiryReconciliation {
  ExpiryReconciliation_ID : string;
  ExpiryReconciliation_DeliveryID : string;
  ExpiryReconciliation_ErasureDeliveryID : string;
  ExpiryReconciliation_LogicalMemoryID : string;
  ExpiryReconciliation_ExternalURI : string;
  ExpiryReconciliation_ContentHash : string;
  ExpiryReconciliation_AttemptToken : string;
  ExpiryReconciliation_SentBootEpoch : string;
  ExpiryReconciliation_LearnerGeneration : Z;
  ExpiryReconciliation_RecordGeneration : Z;
  ExpiryReconciliation_Status : ReconciliationStatus;
  ExpiryReconciliation_LeaseToken : string;
  ExpiryReconciliation_LeaseExpiresAt : option Time;
  ExpiryReconciliation_Reason : string;
  ExpiryReconciliation_CreatedAt : Time;
  ExpiryReconciliation_UpdatedAt : Time;
}.

Record Receipt := mkReceipt {
  Receipt_ID : string;
  Receipt_DeliveryID : string;
  Receipt_Version : Z;
  Receipt_Status : ReceiptStatus;
  Receipt_Reason : string;
  Receipt_VerificationMethod : string;
  Receipt_EvidenceDigest : string;
  Receipt_CreatedAt : Time;
}.

Record Generation := mkGeneration {
  Generation_LearnerGeneration : Z;
  Generation_MemoryGeneration : Z;
  Generation_ReadOpen : bool;
  Generation_WriteOpen : bool;
  Generation_UpdatedAt : Time;
}.

Record Operation := mkOperation {
  Operation_DeviceID : string;
  Operation_OperationID : string;
  Operation_RequestHash : string;
  Operation_Kind : OperationKind;
}.

Record MaintenanceAuthorization := mkMaintenanceAuthorization {
  MaintenanceAuthorization_ErasureID : string;
  MaintenanceAuthorization_ReceiptID : string;
  MaintenanceAuthorization_TargetLearnerGeneration : Z;
}.

Record DeliveryPolicy := mkDeliveryPolicy {
  DeliveryPolicy_CandidateID : string;
  DeliveryPolicy_Source : SourceKind;
  DeliveryPolicy_SourceReference : SourceReference;
  DeliveryPolicy_Category : Category;
  DeliveryPolicy_Sensitivity : Sensitivity;
  DeliveryPolicy_Stability : Stability;
  DeliveryPolicy_PolicyVersion : string;
  DeliveryPolicy_ContentHash : string;
  DeliveryPolicy_AdmissionDecision : CandidateDecision;
}.


(** ** Enumerations *)
Definition validOperationKind (v : OperationKind) : bool :=
  bool_decide (v = OperationCreateCandidate)
  || bool_decide (v = OperationCandidateDecision)
  || bool_decide (v = OperationRecordDelete)
  || bool_decide (v = OperationDeliveryReplay)
  || bool_decide (v = OperationPrivacyErasure).
Definition validSource (v : SourceKind) : bool :=
  bool_decide (v = SourceUserStatement)
  || bool_decide (v = SourceModelInference)
  || bool_decide (v = SourceLongTermBackground)
  || bool_decide (v = SourceGeneratedSummary).
Definition validSensitivity (v : Sensitivity) : bool :=
  bool_decide (v = SensitivityNonSensitive)
  || bool_decide (v = SensitivitySensitive).
Definition validStability (v : Stability) : bool :=
  bool_decide (v = StabilityTransient)
  || bool_decide (v = StabilityStable).
Definition validCandidateStatus (v : CandidateStatus) : bool :=
  bool_decide (v = CandidatePending)
  || bool_decide (v = CandidateAdmitted)
  || bool_decide (v = CandidateRejected)
  || bool_decide (v = CandidateExpired).
Definition validDecision (v : MemoryDecision) : bool :=
  bool_decide (v = DecisionAdmit)
  || bool_decide (v = DecisionReject)
  || bool_decide (v = DecisionExpire).
Definition validRecordStatus (v : RecordStatus) : bool :=
  bool_decide (v = RecordQueued)
  || bool_decide (v = RecordApplied)
  || bool_decide (v = RecordPermanentlyRejected)
  || bool_decide (v = RecordSuperseded)
  || bool_decide (v = RecordDeletePending)
  || bool_decide (v = RecordDeleted).
Definition validPublicStatus (v : DeliveryPublicStatus) : bool :=
  bool_decide (v = DeliveryQueued)
  || bool_decide (v = DeliveryApplied)
  || bool_decide (v = DeliveryRejected).
Definition validAttemptState (v : AttemptState) : bool :=
  bool_decide (v = AttemptPrepared)
  || bool_decide (v = AttemptSent)
  || bool_decide (v = AttemptUnknown)
  || bool_decide (v = AttemptReconciling)
  || bool_decide (v = AttemptConfirmed)
  || bool_decide (v = AttemptFenced)
  || bool_decide (v = AttemptFailed).
Definition validDeliveryKind (v : DeliveryKind) : bool :=
  bool_decide (v = DeliveryAdmit)
  || bool_decide (v = DeliveryCorrection)
  || bool_decide (v = DeliveryDelete)
  || bool_decide (v = DeliveryErasure).
Definition validDeliveryStatus (v : DeliveryStatus) : bool :=
  bool_decide (v = DeliveryStatusQueued)
  || bool_decide (v = DeliveryStatusApplied)
  || bool_decide (v = DeliveryStatusPermanentlyRejected)
  || bool_decide (v = DeliveryStatusFenced)
  || bool_decide (v = DeliveryStatusExpiryReconciling)
  || bool_decide (v = DeliveryStatusExpired)
  || bool_decide (v = DeliveryStatusDeletePending)
  || bool_decide (v = DeliveryStatusDeleted).
Definition validReconciliationStatus (v : ReconciliationStatus) : bool :=
  bool_decide (v = ReconciliationPending)
  || bool_decide (v = ReconciliationReconciling)
  || bool_decide (v = ReconciliationDeletePending)
  || bool_decide (v = ReconciliationAbsenceVerified)
  || bool_decide (v = ReconciliationVerified)
  || bool_decide (v = ReconciliationConflict).
Definition validReceiptStatus (v : ReceiptStatus) : bool :=
  bool_decide (v = ReceiptPending)
  || bool_decide (v = ReceiptSucceeded)
  || bool_decide (v = ReceiptPartial)
  || bool_decide (v = ReceiptFailed)
  || bool_decide (v = ReceiptUnknown)
  || bool_decide (v = ReceiptNotApplicable)
  || bool_decide (v = ReceiptUnsupported).

(** ** Markers of the content classifier *)
Definition admissionSensitiveMarkers : list string :=
  ["password"; "passwd"; "api key"; "api-key"; "apikey"; "access token"; "refresh token";
   "bearer token"; "authorization:"; "client_secret"; "private key"; "secret key";
   "session token"; "social security"; "ssn"; "credit card"; "bank account"; "passport number";
   "home address"; "密码"; "口令"; "密钥"; "令牌"; "访问令牌"; "刷新令牌"; "身份证"; "手机号"; "电话号码"; "银行卡"; "信用卡";
   "护照号"; "家庭住址"; "详细住址"; "邮箱地址"].

Definition admissionForbiddenTruthMarkers : list string :=
  ["answer key"; "complete answer"; "full answer"; "model answer"; "worked solution";
   "grading rubric"; "grading criteria"; "scoring rubric"; "chat transcript";
   "conversation transcript"; "conversation history"; "raw chat"; "learning goal";
   "study goal"; "learning route"; "learning path"; "mastery state"; "mastery score";
   "review queue"; "sync state"; "device token"; "misconception hypothesis"; "参考答案"; "完整答案";
   "全部答案"; "答案解析"; "标准答案"; "评分标准"; "评分量规"; "评分细则"; "聊天记录"; "对话记录"; "完整对话"; "学习目标"; "学习路线";
   "学习路径"; "掌握度"; "掌握状态"; "复习队列"; "同步状态"; "设备令牌"; "错因假设"; "误区假设"].

Definition admissionPreferenceIntents : list string :=
  ["i prefer"; "i like"; "i want"; "my preference"; "please "; "prefer "; "keep "; "use ";
   "give me"; "show me"; "avoid "; "respond "; "answer "; "explain "; "ask "; "remember ";
   "我偏好"; "我喜欢"; "我希望"; "我的偏好"; "请用"; "请保持"; "请给"; "请先"; "回答时"; "解释时"; "提问时"; "不要"; "记住"].

Definition admissionPreferenceTargets : list string :=
  ["concise"; "shorter"; "brief"; "detailed"; "example"; "step by step"; "steps"; "bullet";
   "hint"; "explanation"; "answer"; "question"; "tone"; "language"; "analogy";
   "worked example"; "简洁"; "简短"; "详细"; "例子"; "示例"; "分步"; "步骤"; "要点"; "提示"; "解释"; "回答"; "提问";
   "语气"; "语言"; "中文"; "英文"; "类比"].

Definition admissionTimeIntents : list string :=
  ["i am available"; "i'm available"; "i can study"; "i only have"; "available to study";
   "study time"; "time constraint"; "free to study"; "我有空"; "有空学习"; "我可以学习"; "我能学习"; "我只能学习";
   "学习时间"; "可学习"; "有时间学习"; "有时间"; "只有"; "限时"].

Definition admissionTimeTokens : list string :=
  ["monday"; "tuesday"; "wednesday"; "thursday"; "friday"; "saturday"; "sunday"; "weekday";
   "weekend"; "morning"; "afternoon"; "evening"; "tonight"; "tomorrow"; "minutes"; "hours";
   "before "; "after "; "daily"; "weekly"; "周一"; "周二"; "周三"; "周四"; "周五"; "周六"; "周日"; "工作日";
   "周末"; "早上"; "上午"; "中午"; "下午"; "晚上"; "今晚"; "明天"; "分钟"; "小时"; "每天"; "每周"; "之前"; "之后"].

(** ** Patterns of the content classifier *)
Definition admissionEmailPattern : regex :=
  RSeqs [RWordBoundary;
    RPlus (RClass (fold_case (fun c => lower_class c || digit_class c || rune_in [46; 95; 37; 43; 45] c)));
    RLit "@";
    RPlus (RClass (fold_case (fun c => lower_class c || digit_class c || rune_in [46; 45] c)));
    RLit ".";
    RAtLeast 2 (RClass (fold_case lower_class));
    RWordBoundary].

Definition admissionLongNumberPattern : regex :=
  RSeqs [RWordBoundary; RBetween 13 6 (RSeq (RClass digit_class) (ROpt (RClass (rune_in [32; 45]))));
    RWordBoundary].

Definition admissionCNIDPattern : regex :=
  RSeqs [RWordBoundary; RRepeat 17 (RClass digit_class);
    RClass (fold_case (fun c => digit_class c || (c =? 120))); RWordBoundary].

Definition token_class (c : Z) : bool := lower_class c || digit_class c.
Definition token_class' (c : Z) : bool := token_class c || rune_in [95; 45] c.

Definition admissionTokenPattern : regex :=
  RSeqs [RWordBoundary;
    RAlts [
      RSeq (RLitFold "akia") (RRepeat 16 (RClass (fold_case token_class)));
      RSeqs [RLitFold "gh"; RClass (fold_case (rune_in [112; 111; 117; 115; 114])); RLit "_";
        RAtLeast 20 (RClass (fold_case token_class))];
      RSeqs [RLitFold "eyj"; RAtLeast 8 (RClass (fold_case token_class')); RLit ".";
        RAtLeast 8 (RClass (fold_case token_class')); RLit ".";
        RAtLeast 8 (RClass (fold_case token_class'))]];
    RWordBoundary].

Definition admissionTranscriptPattern : regex :=
  RSeqs [RLineStart; RStar (RClass space_class);
    RAlts [RLitFold "user"; RLitFold "assistant"; RLitFold "system"; RLit "用户"; RLit "助手"; RLit "系统"];
    RStar (RClass space_class); RAlt (RLit ":") (RLit "：")].

Definition admissionClockPattern : regex :=
  RAlt
    (RSeqs [RWordBoundary;
       RAlt (RSeq (ROpt (RClass (rune_in [48; 49]))) (RClass digit_class))
            (RSeq (RLit "2") (RClass (fun c => in_range 48 c 51)));
       RLit ":"; RClass (fun c => in_range 48 c 53); RClass digit_class; RWordBoundary])
    (RSeqs [RWordBoundary;
       RAlt (RSeq (RLit "1") (RClass (fun c => in_range 48 c 50))) (RClass (fun c => in_range 49 c 57));
       RStar (RClass space_class); RAlt (RLitFold "am") (RLitFold "pm"); RWordBoundary]).

(** ** The standard library functions used here *)

(** [admissionWhitespacePattern.ReplaceAllString(s, " ")] for the pattern [\s+]. *)
Fixpoint collapse (in_run : bool) (l : list (Z * list Z)) : list Z :=
  match l with
  | [] => []
  | (c, bytes) :: l =>
    if space_class c then (if in_run then [] else [32]) ++ collapse true l
    else bytes ++ collapse false l
  end.
Definition collapse_spaces (s : string) : string := string_of_bytes (collapse false (runes s)).

(** [strings.Contains] *)
Fixpoint contains (s sub : string) : bool :=
  String.prefix sub s || match s with String _ s => contains s sub | EmptyString => false end.

(** [strings.Count(s, "\n")] and [strings.IndexByte(s, 0) >= 0] *)
Definition count_byte (b : Z) (s : string) : Z :=
  Z.of_nat (length (filter (fun x => x = b) (bytes_of s))).
Definition has_byte (b : Z) (s : string) : bool := existsb (Z.eqb b) (bytes_of s).

(** ** Helpers *)
Definition invalid (reason : string) : error := MemoryError CodeInvalidRequest reason "" 0 0 None.
Definition policy_rejected (reason : string) : error :=
  MemoryError CodeMemoryPolicyRejected reason "" 0 0 None.
Definition policy_rejected_cause (reason : string) (cause : option error) : error :=
  MemoryError CodeMemoryPolicyRejected reason "" 0 0 cause.

Definition CandidateURI (id : string) : string := "candidate://" +:+ id.
Definition DeterministicExternalURI (logicalMemoryID : string) : string :=
  "nocturne://core/edu-agent/" +:+ logicalMemoryID.
Definition SHA256String (value : string) : string := SHA256 value.

Definition IsZero (t : Time) : bool := time_is_zero (Time_instant t).
Definition isUTC (value : Time) : bool := Time_utc value.
Definition After (t u : Time) : bool := time_after (Time_instant t) (Time_instant u).

Definition validText (value : string) (maxRunes maxBytes : Z) : bool :=
  valid_utf8 value && negb (bool_decide (trim_space value = ""))
  && (rune_count value <=? maxRunes) && (str_len value <=? maxBytes).

Definition validCategory (v : Category) : bool :=
  match v with CategoryOther _ => false | _ => true end.

Definition remoteWritableCategory (v : Category) : bool :=
  bool_decide (v = CategoryInteractionPreference) || bool_decide (v = CategoryTimeConstraint)
  || bool_decide (v = CategoryPersonalContext).

Definition supportedSourceCategory (source : SourceKind) (category : Category) : bool :=
  if negb (validSource source) then false
  else if decide (source = SourceGeneratedSummary) then bool_decide (category = CategoryGeneratedSummary)
  else negb (bool_decide (category = CategoryGeneratedSummary)) && remoteWritableCategory category.

Definition containsAny (value : string) (markers : list string) : bool :=
  existsb (contains value) markers.

Definition forbiddenCategory (v : Category) : bool :=
  match v with
  | CategoryRawChat | CategoryCompleteAttempt | CategoryQuestionOrRubric | CategoryGoal | CategoryRoute
  | CategoryMastery | CategoryEvidence | CategoryMisconception | CategoryReviewQueue | CategorySyncState
  | CategoryDeviceToken | CategoryModelSecret | CategoryNocturneSecret => true
  | _ => false
  end.

(** ** State machines *)
Definition CanTransitionCandidate (from : CandidateStatus) (decision : MemoryDecision) : bool :=
  bool_decide (from = CandidatePending)
  && (bool_decide (decision = DecisionAdmit) || bool_decide (decision = DecisionReject)
      || bool_decide (decision = DecisionExpire)).

Definition CandidateStatusForDecision (decision : MemoryDecision) : CandidateStatus :=
  match decision with
  | DecisionAdmit => CandidateAdmitted
  | DecisionReject => CandidateRejected
  | DecisionExpire => CandidateExpired
  | _ => CandidateStatusOther ""
  end.

Definition CanTransitionRecord (from to : RecordStatus) : bool :=
  match from with
  | RecordQueued => bool_decide (to = RecordApplied) || bool_decide (to = RecordPermanentlyRejected)
                    || bool_decide (to = RecordDeletePending)
  | RecordApplied => bool_decide (to = RecordSuperseded) || bool_decide (to = RecordDeletePending)
  | RecordDeletePending => bool_decide (to = RecordDeleted)
  | _ => false
  end.

Definition CanTransitionDelivery (from to : DeliveryStatus) : bool :=
  match from with
  | DeliveryStatusQueued =>
    bool_decide (to = DeliveryStatusApplied) || bool_decide (to = DeliveryStatusPermanentlyRejected)
    || bool_decide (to = DeliveryStatusFenced) || bool_decide (to = DeliveryStatusExpiryReconciling)
    || bool_decide (to = DeliveryStatusExpired)
  | DeliveryStatusApplied => bool_decide (to = DeliveryStatusFenced) || bool_decide (to = DeliveryStatusDeleted)
  | DeliveryStatusFenced => bool_decide (to = DeliveryStatusDeleted)
  | DeliveryStatusExpiryReconciling =>
    bool_decide (to = DeliveryStatusExpired) || bool_decide (to = DeliveryStatusFenced)
    || bool_decide (to = DeliveryStatusDeleted)
  | DeliveryStatusDeletePending =>
    bool_decide (to = DeliveryStatusDeleted) || bool_decide (to = DeliveryStatusFenced)
  | _ => false
  end.

Definition CanTransitionAttempt (from to : AttemptState) : bool :=
  match from with
  | AttemptPrepared => bool_decide (to = AttemptSent) || bool_decide (to = AttemptFenced)
                       || bool_decide (to = AttemptFailed)
  | AttemptSent => bool_decide (to = AttemptUnknown) || bool_decide (to = AttemptReconciling)
                   || bool_decide (to = AttemptConfirmed) || bool_decide (to = AttemptFenced)
  | AttemptUnknown => bool_decide (to = AttemptReconciling) || bool_decide (to = AttemptConfirmed)
                      || bool_decide (to = AttemptFenced)
  | AttemptReconciling => bool_decide (to = AttemptConfirmed) || bool_decide (to = AttemptFenced)
  | _ => false
  end.

Definition PublicDeliveryStatus (status : DeliveryStatus) : DeliveryPublicStatus :=
  match status with
  | DeliveryStatusApplied => DeliveryApplied
  | DeliveryStatusPermanentlyRejected | DeliveryStatusFenced | DeliveryStatusExpired
  | DeliveryStatusDeleted => DeliveryRejected
  | _ => DeliveryQueued
  end.

Section Memory.
Context `{UnicodeTables} `{UUIDPackage}.

Definition validUUID (value : string) : bool :=
  match uuid_Parse value with
  | Some parsed => bool_decide (parsed = to_lower value)
  | None => false
  end.

(** [hex.DecodeString] accepts an even number of hexadecimal digits. *)
Definition validHash (value : string) : bool :=
  if negb (str_len value =? 64) || negb (bool_decide (value = to_lower value)) then false
  else forallb hex_byte (bytes_of value).

(** An optional identifier that, when present, is one. *)
Definition optional (valid : string → bool) (value : string) : bool :=
  bool_decide (value = "") || valid value.

(** ** Validators *)
Definition MaintenanceAuthorization_Validate (a : MaintenanceAuthorization) : result error unit :=
  fail_if (negb (validUUID (MaintenanceAuthorization_ErasureID a))
           || negb (validUUID (MaintenanceAuthorization_ReceiptID a))
           || (MaintenanceAuthorization_TargetLearnerGeneration a <? 2))
    (invalid "invalid_maintenance_authorization").

Definition SourceReference_Validate (r : SourceReference) (source : SourceKind) : result error unit :=
  _ ← fail_if (negb (optional validUUID (SourceReference_EventID r))
               || negb (optional validUUID (SourceReference_OperationID r)))
        (invalid "invalid_source_reference");
  _ ← fail_if ((MaxReferenceBytes <? str_len (SourceReference_ModelID r))
               || (MaxReferenceBytes <? str_len (SourceReference_PromptRevision r))
               || negb (valid_utf8 (SourceReference_ModelID r))
               || negb (valid_utf8 (SourceReference_PromptRevision r)))
        (invalid "invalid_source_reference");
  _ ← each (fun hash => fail_if (negb (validHash hash)) (invalid "invalid_source_hash"))
        (SourceReference_SourceHashes r);
  if bool_decide (source = SourceGeneratedSummary) || bool_decide (source = SourceModelInference)
  then fail_if (bool_decide (trim_space (SourceReference_ModelID r) = "")
                || bool_decide (trim_space (SourceReference_PromptRevision r) = "")
                || is_nil (SourceReference_SourceHashes r))
         (invalid "model_provenance_required")
  else Ok tt.

Definition Candidate_Validate (c : Candidate) : result error unit :=
  _ ← fail_if (negb (validUUID (Candidate_ID c))
               || negb (bool_decide (Candidate_URI c = CandidateURI (Candidate_ID c)))
               || negb (validUUID (Candidate_PayloadID c)) || negb (validHash (Candidate_ContentHash c))
               || negb (validUUID (Candidate_ProposerID c)))
        (invalid "invalid_candidate_identity");
  _ ← fail_if (negb (optional validUUID (Candidate_LogicalMemoryID c)))
        (invalid "invalid_logical_memory_id");
  _ ← fail_if (negb (validSource (Candidate_Source c)) || negb (validCategory (Candidate_Category c))
               || negb (validSensitivity (Candidate_Sensitivity c))
               || negb (validStability (Candidate_Stability c))
               || negb (validCandidateStatus (Candidate_Status c)))
        (invalid "invalid_candidate_enum");
  _ ← fail_if (negb (supportedSourceCategory (Candidate_Source c) (Candidate_Category c)))
        (invalid "invalid_source_category");
  _ ← fail_if (negb (bool_decide (Candidate_PolicyVersion c = AdmissionPolicyVersion))
               || negb (validText (Candidate_Reason c) MaxReasonRunes (MaxReferenceBytes * 4))
               || IsZero (Candidate_CreatedAt c) || negb (isUTC (Candidate_CreatedAt c))
               || IsZero (Candidate_ValidUntil c) || negb (isUTC (Candidate_ValidUntil c))
               || negb (After (Candidate_ValidUntil c) (Candidate_CreatedAt c)))
        (invalid "invalid_candidate_metadata");
  _ ← fail_if ((Candidate_Revision c <? 1)
               || (bool_decide (Candidate_Status c = CandidatePending)
                   && negb (Candidate_Revision c =? 1))
               || (negb (bool_decide (Candidate_Status c = CandidatePending))
                   && (Candidate_Revision c <? 2)))
        (invalid "invalid_candidate_revision");
  SourceReference_Validate (Candidate_SourceReference c) (Candidate_Source c).

Definition CandidateDecision_Validate (d : CandidateDecision) : result error unit :=
  _ ← fail_if (negb (validUUID (CandidateDecision_ID d)) || negb (validUUID (CandidateDecision_CandidateID d))
               || (CandidateDecision_Revision d <? 2) || negb (validDecision (CandidateDecision_Decision d))
               || negb (validText (CandidateDecision_Reason d) MaxReasonRunes (MaxReferenceBytes * 4))
               || IsZero (CandidateDecision_CreatedAt d) || negb (isUTC (CandidateDecision_CreatedAt d)))
        (invalid "invalid_candidate_decision");
  let kind := CandidateDecision_ActorKind d in
  _ ← fail_if (negb (bool_decide (kind = "device")) && negb (bool_decide (kind = "model"))
               && negb (bool_decide (kind = "system")))
        (invalid "invalid_decision_actor_kind");
  _ ← fail_if ((negb (bool_decide (kind = "system")) && negb (validUUID (CandidateDecision_ActorID d)))
               || (bool_decide (kind = "system") && negb (bool_decide (CandidateDecision_ActorID d = ""))))
        (invalid "invalid_decision_actor");
  fail_if (negb (optional validUUID (CandidateDecision_OperationID d))
           || negb (optional validHash (CandidateDecision_RequestHash d)))
    (invalid "invalid_decision_operation").

Definition Record_Validate (r : MemoryRecord) : result error unit :=
  _ ← fail_if (negb (validUUID (Record_LogicalMemoryID r)) || negb (validUUID (Record_ID r))
               || negb (validUUID (Record_CandidateID r)) || negb (validUUID (Record_DeliveryID r))
               || negb (validUUID (Record_ReceiptID r)) || negb (validHash (Record_ContentHash r))
               || negb (validHash (Record_ExternalURIDigest r)))
        (invalid "invalid_record_identity");
  _ ← fail_if (negb (optional validUUID (Record_PreviousRevisionID r))
               || (Record_Revision r <? 1) || (Record_RecordGeneration r <? 1)
               || (Record_LearnerGeneration r <? 1) || negb (validRecordStatus (Record_Status r))
               || IsZero (Record_CreatedAt r) || negb (isUTC (Record_CreatedAt r)))
        (invalid "invalid_record_metadata");
  fail_if (negb (bool_decide (Record_ExternalURI r = DeterministicExternalURI (Record_LogicalMemoryID r)))
           || negb (bool_decide (SHA256String (Record_ExternalURI r) = Record_ExternalURIDigest r))
           || (Record_ExternalMemoryID r <? 0))
    (invalid "invalid_external_reference").

Definition Delivery_Validate (d : Delivery) : result error unit :=
  _ ← fail_if (negb (validUUID (Delivery_ID d)) || negb (validUUID (Delivery_LogicalMemoryID d))
               || negb (validUUID (Delivery_RecordRevisionID d)) || negb (validUUID (Delivery_PayloadID d))
               || negb (validUUID (Delivery_ReceiptID d)) || negb (validHash (Delivery_PayloadHash d)))
        (invalid "invalid_delivery_identity");
  _ ← fail_if (negb (validDeliveryKind (Delivery_Kind d)) || negb (validDeliveryStatus (Delivery_Status d))
               || negb (validAttemptState (Delivery_AttemptState d))
               || negb (validPublicStatus (Delivery_PublicStatus d)) || (Delivery_RecordRevision d <? 1)
               || (Delivery_LearnerGeneration d <? 1) || (Delivery_RecordGeneration d <? 1)
               || (Delivery_AttemptCount d <? 0))
        (invalid "invalid_delivery_metadata");
  fail_if (negb (bool_decide (Delivery_ExternalURI d = DeterministicExternalURI (Delivery_LogicalMemoryID d)))
           || IsZero (Delivery_ValidUntil d) || negb (isUTC (Delivery_ValidUntil d))
           || IsZero (Delivery_CreatedAt d) || negb (isUTC (Delivery_CreatedAt d))
           || IsZero (Delivery_UpdatedAt d) || negb (isUTC (Delivery_UpdatedAt d)))
    (invalid "invalid_delivery_time_or_uri").

Definition Attempt_Validate (a : Attempt) : result error unit :=
  _ ← fail_if (negb (validUUID (Attempt_ID a)) || negb (validUUID (Attempt_DeliveryID a))
               || negb (validUUID (Attempt_AttemptToken a)) || negb (validUUID (Attempt_LeaseToken a))
               || negb (validAttemptState (Attempt_State a))
               || IsZero (Attempt_LeaseExpiresAt a) || negb (isUTC (Attempt_LeaseExpiresAt a))
               || IsZero (Attempt_CreatedAt a) || negb (isUTC (Attempt_CreatedAt a))
               || IsZero (Attempt_UpdatedAt a) || negb (isUTC (Attempt_UpdatedAt a)))
        (invalid "invalid_attempt");
  fail_if (negb (optional validHash (Attempt_ResultDigest a))) (invalid "invalid_attempt_result_digest").

Definition ExpiryReconciliation_Validate (r : ExpiryReconciliation) : result error unit :=
  fail_if (negb (validUUID (ExpiryReconciliation_ID r)) || negb (validUUID (ExpiryReconciliation_DeliveryID r))
           || negb (validUUID (ExpiryReconciliation_LogicalMemoryID r))
           || negb (validUUID (ExpiryReconciliation_AttemptToken r))
           || negb (validHash (ExpiryReconciliation_ContentHash r))
           || negb (bool_decide (ExpiryReconciliation_ExternalURI r
                                 = DeterministicExternalURI (ExpiryReconciliation_LogicalMemoryID r)))
           || (ExpiryReconciliation_LearnerGeneration r <? 1)
           || (ExpiryReconciliation_RecordGeneration r <? 1)
           || negb (validReconciliationStatus (ExpiryReconciliation_Status r))
           || IsZero (ExpiryReconciliation_CreatedAt r) || negb (isUTC (ExpiryReconciliation_CreatedAt r))
           || IsZero (ExpiryReconciliation_UpdatedAt r) || negb (isUTC (ExpiryReconciliation_UpdatedAt r)))
    (invalid "invalid_expiry_reconciliation").

Definition Receipt_Validate (r : Receipt) : result error unit :=
  fail_if (negb (validUUID (Receipt_ID r)) || negb (validUUID (Receipt_DeliveryID r))
           || (Receipt_Version r <? 1) || negb (validReceiptStatus (Receipt_Status r))
           || negb (validText (Receipt_Reason r) MaxReasonRunes (MaxReferenceBytes * 4))
           || negb (validText (Receipt_VerificationMethod r) MaxReferenceBytes MaxReferenceBytes)
           || IsZero (Receipt_CreatedAt r) || negb (isUTC (Receipt_CreatedAt r))
           || negb (optional validHash (Receipt_EvidenceDigest r)))
    (invalid "invalid_receipt").

Definition Generation_Validate (g : Generation) : result error unit :=
  fail_if ((Generation_LearnerGeneration g <? 1) || (Generation_MemoryGeneration g <? 1)
           || IsZero (Generation_UpdatedAt g) || negb (isUTC (Generation_UpdatedAt g)))
    (invalid "invalid_generation").

Definition Operation_Validate (o : Operation) : result error unit :=
  fail_if (negb (validUUID (Operation_DeviceID o)) || negb (validUUID (Operation_OperationID o))
           || negb (validHash (Operation_RequestHash o)) || negb (validOperationKind (Operation_Kind o)))
    (invalid "invalid_operation").

(** ** The admission policy *)
Definition ClassifyAdmissionContent (category : Category) (content : string)
  : AdmissionContentDisposition :=
  let normalized := to_lower (trim_space content) in
  let flat := collapse_spaces normalized in
  if MatchString admissionTranscriptPattern content || MatchString admissionEmailPattern normalized
     || MatchString admissionLongNumberPattern normalized || MatchString admissionCNIDPattern normalized
     || MatchString admissionTokenPattern normalized || containsAny flat admissionSensitiveMarkers
     || containsAny flat admissionForbiddenTruthMarkers
  then AdmissionContentForbidden
  else if (512 <? rune_count content) || (1 <? count_byte 10 content) then AdmissionContentReview
  else
    match category with
    | CategoryInteractionPreference =>
      if containsAny flat admissionPreferenceIntents && containsAny flat admissionPreferenceTargets
      then AdmissionContentAutomatic else AdmissionContentReview
    | CategoryTimeConstraint =>
      if containsAny flat admissionTimeIntents
         && (containsAny flat admissionTimeTokens || MatchString admissionClockPattern flat)
      then AdmissionContentAutomatic else AdmissionContentReview
    | _ => AdmissionContentReview
    end.

Definition EvaluateAdmission (candidate : Candidate) (content : string) (now : Time) : CandidateStatus :=
  let disposition := ClassifyAdmissionContent (Candidate_Category candidate) content in
  if decide (disposition = AdmissionContentForbidden) then CandidateRejected
  else if bool_decide (Candidate_Source candidate = SourceUserStatement)
    && (bool_decide (Candidate_Category candidate = CategoryInteractionPreference)
        || bool_decide (Candidate_Category candidate = CategoryTimeConstraint))
    && bool_decide (Candidate_Stability candidate = StabilityStable)
    && bool_decide (Candidate_Sensitivity candidate = SensitivityNonSensitive)
    && bool_decide (Candidate_PolicyVersion candidate = AdmissionPolicyVersion)
    && time_before (Time_instant now) (Time_instant (Candidate_ValidUntil candidate))
    && bool_decide (disposition = AdmissionContentAutomatic)
  then CandidateAdmitted
  else CandidatePending.

Definition ValidateProposedContent (category : Category) (content : string) : result error unit :=
  _ ← fail_if (negb (validCategory category)) (invalid "invalid_category");
  _ ← fail_if (forbiddenCategory category) (policy_rejected "forbidden_business_truth");
  fail_if (negb (valid_utf8 content) || bool_decide (trim_space content = "") || has_byte 0 content
           || (MaxContentBytes <? str_len content) || (MaxContentRunes <? rune_count content))
    (invalid "invalid_content").

(** The gate in front of every delivery. *)
Definition ValidateDeliveryPayload (policy : DeliveryPolicy) (content expectedHash : string)
  : result error unit :=
  _ ← ValidateProposedContent (DeliveryPolicy_Category policy) content;
  _ ← fail_if (negb (validUUID (DeliveryPolicy_CandidateID policy))
               || negb (supportedSourceCategory (DeliveryPolicy_Source policy) (DeliveryPolicy_Category policy))
               || negb (validSensitivity (DeliveryPolicy_Sensitivity policy))
               || negb (bool_decide (DeliveryPolicy_Stability policy = StabilityStable))
               || negb (bool_decide (DeliveryPolicy_PolicyVersion policy = AdmissionPolicyVersion)))
        (policy_rejected "delivery_policy_metadata_rejected");
  _ ← match SourceReference_Validate (DeliveryPolicy_SourceReference policy) (DeliveryPolicy_Source policy) with
      | Ok _ => Ok tt
      | Err err => Err (policy_rejected_cause "delivery_source_provenance_invalid" (Some err))
      end;
  _ ← fail_if (negb (validHash (DeliveryPolicy_ContentHash policy)) || negb (validHash expectedHash)
               || negb (bool_decide (DeliveryPolicy_ContentHash policy = expectedHash))
               || negb (bool_decide (SHA256String content = DeliveryPolicy_ContentHash policy)))
        (policy_rejected "delivery_payload_hash_mismatch");
  let decision := DeliveryPolicy_AdmissionDecision policy in
  let err := match CandidateDecision_Validate decision with Ok _ => None | Err err => Some err end in
  _ ← fail_if (bool_decide (is_Some err)
               || negb (bool_decide (CandidateDecision_CandidateID decision = DeliveryPolicy_CandidateID policy))
               || negb (bool_decide (CandidateDecision_Decision decision = DecisionAdmit)))
        (policy_rejected_cause "delivery_admission_provenance_invalid" err);
  let disposition := ClassifyAdmissionContent (DeliveryPolicy_Category policy) content in
  _ ← fail_if (bool_decide (disposition = AdmissionContentForbidden))
        (policy_rejected "delivery_content_forbidden");
  if decide (CandidateDecision_ActorKind decision = "system") then
    fail_if (negb (bool_decide (DeliveryPolicy_Source policy = SourceUserStatement))
             || negb (remoteWritableCategory (DeliveryPolicy_Category policy))
             || negb (bool_decide (DeliveryPolicy_Sensitivity policy = SensitivityNonSensitive))
             || negb (bool_decide (disposition = AdmissionContentAutomatic)))
      (policy_rejected "automatic_admission_content_unproven")
  else
    fail_if (negb (bool_decide (CandidateDecision_ActorKind decision = "device"))
             || bool_decide (CandidateDecision_ActorID decision = "")
             || bool_decide (CandidateDecision_OperationID decision = "")
             || bool_decide (CandidateDecision_RequestHash decision = ""))
      (policy_rejected "manual_admission_provenance_required").
End Memory.

(** ** Lifecycles *)

(** A history of states, each step allowed. *)
Fixpoint history {A} (can : A → A → bool) (l : list A) : Prop :=
  match l with
  | a :: (b :: _) as l' => can a b = true ∧ history can l'
  | _ => True
  end.

(** A rank that every step increases bounds every history. *)
Lemma history_ranked {A} (can : A → A → bool) (rank : A → nat) n l :
  (∀ a b, can a b = true → (rank a < rank b <= n)%nat) → (∀ a, l = [a] → True) →
  history can l → match l with [] => True | a :: _ => (length l <= S (n - rank a))%nat end.
Proof.
  intros Hr _. induction l as [|a l IH]; [done|]. destruct l as [|b l]; [simpl; lia|].
  intros [Hab Hl]. specialize (IH Hl). specialize (Hr a b Hab). simpl in *. lia.
Qed.

(** A rank that no step decreases is monotone along every history. *)
Lemma history_monotone {A} (can : A → A → bool) (rank : A → nat) l :
  (∀ a b, can a b = true → (rank a <= rank b)%nat) → history can l →
  StronglySorted (fun a b => (rank a <= rank b)%nat) l.
Proof.
  intros Hr. induction l as [|a l IH]; [constructor|]. intros Hl.
  assert (history can l) as Hl' by (destruct l; [done|by destruct Hl]).
  specialize (IH Hl'). constructor; [done|]. destruct l as [|b l]; [constructor|].
  destruct Hl as [Hab _]. specialize (Hr a b Hab). apply StronglySorted_inv in IH as [_ Hb].
  constructor; [done|]. eapply Forall_impl; [exact Hb|]. simpl. lia.
Qed.

Definition record_rank (s : RecordStatus) : nat :=
  match s with RecordQueued => 0 | RecordApplied => 1 | RecordDeletePending => 2 | _ => 3 end.
Definition delivery_rank (s : DeliveryStatus) : nat :=
  match s with
  | DeliveryStatusQueued => 0
  | DeliveryStatusApplied | DeliveryStatusExpiryReconciling | DeliveryStatusDeletePending => 1
  | DeliveryStatusFenced => 2
  | _ => 3
  end.
Definition attempt_rank (s : AttemptState) : nat :=
  match s with
  | AttemptPrepared => 0 | AttemptSent => 1 | AttemptUnknown => 2 | AttemptReconciling => 3 | _ => 4
  end.
Definition public_rank (s : DeliveryStatus) : nat :=
  match PublicDeliveryStatus s with DeliveryQueued => 0 | DeliveryApplied => 1 | _ => 2 end.

(** Splits a step of one of the machines into its cases. *)
Ltac machine_step :=
  intros [] [] Hstep; try discriminate Hstep; vm_compute; try lia.

(** No lifecycle can go on forever or come back to a state: a record
    passes through at most four states, a delivery through four, an attempt
    through five, and a candidate is decided at most once. *)
Theorem lifecycles_bounded :
  (∀ l, history CanTransitionRecord l → (length l <= 4)%nat)
  ∧ (∀ l, history CanTransitionDelivery l → (length l <= 4)%nat)
  ∧ (∀ l, history CanTransitionAttempt l → (length l <= 5)%nat)
  ∧ (∀ status decision next, CanTransitionCandidate status decision = true →
       CanTransitionCandidate (CandidateStatusForDecision decision) next = false).
Proof.
  assert (∀ A (can : A → A → bool) rank n l, (∀ a b, can a b = true → (rank a < rank b <= n)%nat) →
    history can l → (length l <= S n)%nat) as Hgen.
  { intros A can rank n l Hr Hl. pose proof (history_ranked can rank n l Hr (fun _ _ => I) Hl) as Hb.
    destruct l; [simpl; lia|]. simpl in *. lia. }
  split_and!.
  - intros l. apply (Hgen _ _ record_rank 3%nat). machine_step.
  - intros l. apply (Hgen _ _ delivery_rank 3%nat). machine_step.
  - intros l. apply (Hgen _ _ attempt_rank 4%nat). machine_step.
  - intros [] [] next Hstep; try discriminate Hstep; reflexivity.
Qed.

(** What the public sees of a delivery only moves forward: from queued to
    applied to rejected, never back. *)
Theorem public_status_monotone l :
  history CanTransitionDelivery l →
  StronglySorted (fun a b => (public_rank a <= public_rank b)%nat) l.
Proof. apply history_monotone. machine_step. Qed.

(** ** The admission policy *)
Section Properties.
Context `{UnicodeTables} `{UUIDPackage}.

(** Content the classifier forbids. *)
Definition forbidden_content (content : string) : Prop :=
  let normalized := to_lower (trim_space content) in
  let flat := collapse_spaces normalized in
  (∃ r s i j, (r, s) ∈ [(admissionTranscriptPattern, content); (admissionEmailPattern, normalized);
       (admissionLongNumberPattern, normalized); (admissionCNIDPattern, normalized);
       (admissionTokenPattern, normalized)]
     ∧ (i <= length (runes s))%nat ∧ rmatch (fst <$> runes s) r i j)
  ∨ ∃ marker, marker ∈ admissionSensitiveMarkers ++ admissionForbiddenTruthMarkers
     ∧ contains flat marker = true.

Lemma MatchString_spec r s :
  MatchString r s = true ↔ ∃ i j, (i <= length (runes s))%nat ∧ rmatch (fst <$> runes s) r i j.
Proof. unfold MatchString. rewrite match_runes_spec, length_fmap. done. Qed.

Lemma containsAny_spec value markers :
  containsAny value markers = true ↔ ∃ m, m ∈ markers ∧ contains value m = true.
Proof. unfold containsAny. rewrite existsb_exists. by setoid_rewrite list_elem_of_In. Qed.

Lemma Classify_forbidden category content :
  ClassifyAdmissionContent category content = AdmissionContentForbidden ↔ forbidden_content content.
Proof.
  unfold ClassifyAdmissionContent, forbidden_content. cbv zeta.
  set (normalized := to_lower (trim_space content)). set (flat := collapse_spaces normalized).
  clearbody flat.
  assert (∀ b : bool, (if b then AdmissionContentForbidden else
     if (512 <? rune_count content) || (1 <? count_byte 10 content) then AdmissionContentReview
     else match category with
      | CategoryInteractionPreference =>
        if containsAny flat admissionPreferenceIntents && containsAny flat admissionPreferenceTargets
        then AdmissionContentAutomatic else AdmissionContentReview
      | CategoryTimeConstraint =>
        if containsAny flat admissionTimeIntents
           && (containsAny flat admissionTimeTokens || MatchString admissionClockPattern flat)
        then AdmissionContentAutomatic else AdmissionContentReview
      | _ => AdmissionContentReview
      end) = AdmissionContentForbidden ↔ b = true) as ->.
  { intros []; [done|]. split; [|done]. destruct (_ || _); [done|].
    destruct category; try done; by destruct (_ && _). }
  rewrite !orb_true_iff, !MatchString_spec, !containsAny_spec. setoid_rewrite elem_of_app.
  clear. split.
  - intros [[[[[[(i & j & Hm)|(i & j & Hm)]|(i & j & Hm)]|(i & j & Hm)]|(i & j & Hm)]|(m & Hm & Hc)]|(m & Hm & Hc)].
    1-5: left; do 2 eexists; exists i, j; split; [|exact Hm]; rewrite !elem_of_cons; tauto.
    1-2: right; exists m; tauto.
  - intros [(r & s & i & j & Hin & Hm)|(m & [Hm|Hm] & Hc)].
    + rewrite !elem_of_cons in Hin.
      destruct Hin as [[= -> ->]|[[= -> ->]|[[= -> ->]|[[= -> ->]|[[= -> ->]|Hin%not_elem_of_nil]]]]];
        [do 6 left; eauto|do 5 left; right; eauto|do 4 left; right; eauto|do 3 left; right; eauto
        |do 2 left; right; eauto|done].
    + left. right. eauto.
    + right. eauto.
Qed.

Lemma Classify_automatic category content :
  ClassifyAdmissionContent category content = AdmissionContentAutomatic →
  (category = CategoryInteractionPreference ∨ category = CategoryTimeConstraint)
  ∧ ¬ forbidden_content content ∧ rune_count content <= 512 ∧ count_byte 10 content <= 1.
Proof.
  intros Ha. assert (¬ forbidden_content content) as Hnf.
  { rewrite <- (Classify_forbidden category). rewrite Ha. discriminate. }
  unfold ClassifyAdmissionContent in Ha. cbv zeta in Ha. revert Ha.
  match goal with |- (if ?b then _ else _) = _ → _ => destruct b; [discriminate|] end.
  destruct ((512 <? rune_count content) || _) eqn:Hs; [discriminate|]. bool_prop.
  destruct category; intros Ha; try discriminate Ha; auto.
Qed.

Lemma EvaluateAdmission_Admitted candidate content now :
  EvaluateAdmission candidate content now = CandidateAdmitted ↔
     Candidate_Source candidate = SourceUserStatement
     ∧ Candidate_Stability candidate = StabilityStable
     ∧ Candidate_Sensitivity candidate = SensitivityNonSensitive
     ∧ Candidate_PolicyVersion candidate = AdmissionPolicyVersion
     ∧ Time_instant now < Time_instant (Candidate_ValidUntil candidate)
     ∧ ClassifyAdmissionContent (Candidate_Category candidate) content = AdmissionContentAutomatic.
Proof.
  pose proof (Classify_automatic (Candidate_Category candidate) content) as Hcat.
    unfold EvaluateAdmission. cbv zeta.
    destruct (ClassifyAdmissionContent (Candidate_Category candidate) content) eqn:Hd;
      (destruct (decide _) as [|_]; [naive_solver|]).
    2-4: rewrite (bool_decide_false (_ = AdmissionContentAutomatic)) by done;
         rewrite andb_false_r; naive_solver.
    destruct (Hcat eq_refl) as [Hc _].
    assert (bool_decide (Candidate_Category candidate = CategoryInteractionPreference)
        || bool_decide (Candidate_Category candidate = CategoryTimeConstraint) = true) as ->.
    { apply orb_true_iff. rewrite !bool_decide_eq_true. exact Hc. }
    unfold time_before. rewrite andb_true_r.
    match goal with |- (if ?b then _ else _) = _ ↔ _ => transitivity (b = true) end.
    { match goal with |- (if ?b then _ else _) = _ ↔ _ => destruct b end; done. }
    rewrite !andb_true_iff, !bool_decide_eq_true, Z.ltb_lt. tauto.
Qed.

(** The admission policy: content is rejected exactly when it looks like a
    secret, a transcript or business truth; it is admitted without review only
    as a stable, non-sensitive preference or time constraint stated by the user,
    within its validity, short and of a recognised shape; everything else waits
    for review. *)
Theorem EvaluateAdmission_policy candidate content now :
  (EvaluateAdmission candidate content now = CandidateRejected ↔ forbidden_content content)
  ∧ (EvaluateAdmission candidate content now = CandidateAdmitted ↔
     Candidate_Source candidate = SourceUserStatement
     ∧ Candidate_Stability candidate = StabilityStable
     ∧ Candidate_Sensitivity candidate = SensitivityNonSensitive
     ∧ Candidate_PolicyVersion candidate = AdmissionPolicyVersion
     ∧ Time_instant now < Time_instant (Candidate_ValidUntil candidate)
     ∧ ClassifyAdmissionContent (Candidate_Category candidate) content = AdmissionContentAutomatic)
  ∧ (EvaluateAdmission candidate content now = CandidateAdmitted →
     (Candidate_Category candidate = CategoryInteractionPreference
      ∨ Candidate_Category candidate = CategoryTimeConstraint)
     ∧ ¬ forbidden_content content ∧ rune_count content <= 512 ∧ count_byte 10 content <= 1)
  ∧ EvaluateAdmission candidate content now
    ∈ [CandidateRejected; CandidateAdmitted; CandidatePending].
Proof.
  pose proof (EvaluateAdmission_Admitted candidate content now) as Hadm.
  split_and!; [|exact Hadm| |].
  - rewrite <- (Classify_forbidden (Candidate_Category candidate)). unfold EvaluateAdmission.
    case_decide as Hd; [done|]. split; [|done]. by destruct (_ && _).
  - intros (_ & _ & _ & _ & _ & Ha)%Hadm. by apply Classify_automatic.
  - unfold EvaluateAdmission. rewrite !elem_of_cons. case_decide; [auto|]. destruct (_ && _); auto.
Qed.

Lemma supported_not_forbidden source category :
  supportedSourceCategory source category = true → forbiddenCategory category = false ∧ validCategory category = true.
Proof.
  unfold supportedSourceCategory, remoteWritableCategory. destruct (validSource source); [|done]. simpl.
  case_decide; destruct category; by vm_compute.
Qed.









(** What the policy admits on its own gets through the delivery gate: for a
    valid candidate that [EvaluateAdmission] admits, the gate lets the content
    pass under a valid system decision to admit it. *)
Theorem admission_passes_gate candidate content now decision :
  Candidate_Validate candidate = Ok tt →
  ValidateProposedContent (Candidate_Category candidate) content = Ok tt →
  Candidate_ContentHash candidate = SHA256 content →
  EvaluateAdmission candidate content now = CandidateAdmitted →
  CandidateDecision_Validate decision = Ok tt →
  CandidateDecision_ActorKind decision = "system" →
  CandidateDecision_Decision decision = DecisionAdmit →
  CandidateDecision_CandidateID decision = Candidate_ID candidate →
  ValidateDeliveryPayload
    (mkDeliveryPolicy (Candidate_ID candidate) (Candidate_Source candidate)
       (Candidate_SourceReference candidate) (Candidate_Category candidate)
       (Candidate_Sensitivity candidate) (Candidate_Stability candidate)
       (Candidate_PolicyVersion candidate) (Candidate_ContentHash candidate) decision)
    content (SHA256 content) = Ok tt.
Proof.
  intros Hc Hcontent Hhash Hadm Hval Hkind Hdec Hid.
  apply EvaluateAdmission_Admitted in Hadm as (Hsrc & Hstab & Hsens & Hpol & _ & Hauto).
  unfold Candidate_Validate in Hc. apply guard_Ok in Hc as [Hident Hc].
  apply guard_Ok in Hc as [_ Hc]. apply guard_Ok in Hc as [_ Hc]. apply guard_Ok in Hc as [Hsup Hc].
  apply guard_Ok in Hc as [_ Hc]. apply guard_Ok in Hc as [_ Href].
  rewrite !orb_false_iff, !negb_false_iff in Hident. destruct Hident as [[[[Huid _] _] Hvh] _].
  apply negb_false_iff in Hsup. pose proof (Classify_automatic _ _ Hauto) as [Hcat _].
  assert (validSensitivity (Candidate_Sensitivity candidate) = true) as Hvs by by rewrite Hsens.
  unfold ValidateDeliveryPayload.
  cbn [DeliveryPolicy_Category DeliveryPolicy_CandidateID DeliveryPolicy_Source DeliveryPolicy_Sensitivity
    DeliveryPolicy_Stability DeliveryPolicy_PolicyVersion DeliveryPolicy_SourceReference
    DeliveryPolicy_ContentHash DeliveryPolicy_AdmissionDecision].
  rewrite Hcontent, bind_eq_Ok. cbv zeta. unfold SHA256String.
  apply guard_Ok. split; [by rewrite Huid, Hsup, Hvs, Hstab, Hpol, !bool_decide_true|].
  rewrite Href, bind_eq_Ok. apply guard_Ok. split; [by rewrite <- Hhash, Hvh, !bool_decide_true|].
  apply guard_Ok. split.
  { rewrite Hval, Hid, Hdec, (bool_decide_false (is_Some None)) by by intros [? ?].
    by rewrite !bool_decide_true. }
  rewrite Hauto. apply guard_Ok. split; [done|]. rewrite decide_True by done.
  apply fail_if_Ok. rewrite Hsrc, Hsens, !bool_decide_true by done.
  unfold remoteWritableCategory. destruct Hcat as [-> | ->]; reflexivity.
Qed.

End Properties.

(** ** Witnesses *)
Lemma lifecycles_bounded_witness :
  (length [AttemptPrepared; AttemptSent; AttemptUnknown; AttemptReconciling; AttemptConfirmed] <= 5)%nat.
Proof. apply (proj1 (proj2 (proj2 lifecycles_bounded))). vm_compute. tauto. Defined.

Lemma public_status_monotone_witness :
  StronglySorted (fun a b => (public_rank a <= public_rank b)%nat)
    [DeliveryStatusQueued; DeliveryStatusApplied; DeliveryStatusFenced; DeliveryStatusDeleted].
Proof. apply public_status_monotone. vm_compute. tauto. Defined.

#[local] Instance sample_case_tables : UnicodeTables := ascii_tables.
(** The canonical form of the 36-byte notation. *)
#[local] Instance sample_uuid_package : UUIDPackage :=
  fun value => if str_len value =? 36 then Some (to_lower value) else None.

Definition sample_id (n : string) : string := "00000000-0000-4000-8000-00000000000" +:+ n.
Definition sample_time (hours : Z) : Time := mkTime (hours * hour) true.
Definition sample_content : string := "I prefer concise answers".

Definition sample_candidate : Candidate :=
  mkCandidate (sample_id "1") (CandidateURI (sample_id "1")) "" (sample_id "2") (SHA256 sample_content)
    SourceUserStatement (mkSourceReference "" "" "" "" []) (sample_id "3") "stated in chat"
    CategoryInteractionPreference SensitivityNonSensitive StabilityStable (sample_time 48)
    AdmissionPolicyVersion CandidatePending 1 (sample_time 1).

Definition sample_decision : CandidateDecision :=
  mkCandidateDecision (sample_id "4") (sample_id "1") 2 DecisionAdmit "automatic admission" "" "system" "" ""
    (sample_time 1).

Definition sample_policy : DeliveryPolicy :=
  mkDeliveryPolicy (Candidate_ID sample_candidate) (Candidate_Source sample_candidate)
    (Candidate_SourceReference sample_candidate) (Candidate_Category sample_candidate)
    (Candidate_Sensitivity sample_candidate) (Candidate_Stability sample_candidate)
    (Candidate_PolicyVersion sample_candidate) (Candidate_ContentHash sample_candidate) sample_decision.

Lemma EvaluateAdmission_policy_witness :
  EvaluateAdmission sample_candidate sample_content (sample_time 2) = CandidateAdmitted
  ∧ ¬ forbidden_content sample_content.
Proof.
  assert (EvaluateAdmission sample_candidate sample_content (sample_time 2) = CandidateAdmitted) as Ha
    by (vm_compute; reflexivity).
  split; [exact Ha|].
  destruct (EvaluateAdmission_policy sample_candidate sample_content (sample_time 2)) as (_ & _ & Hp & _).
  apply Hp. exact Ha.
Defined.

Lemma admission_passes_gate_witness :
  ValidateDeliveryPayload sample_policy sample_content (SHA256 sample_content) = Ok tt.
Proof.
  unfold sample_policy.
  refine (admission_passes_gate sample_candidate sample_content (sample_time 2) sample_decision
            _ _ _ _ _ _ _ _); vm_compute; reflexivity.
Defined.

