(* ===== verification/Outbox.v ===== *)
(** * The transactional outbox

    [server/internal/platform/outbox/domain.go], [worker.go],
    [postgresstore/store.go] and the redaction of [postgresstore/privacy.go]:
    messages and their state machine, the PostgreSQL store as operations on a
    table of messages, and the worker that claims messages, offers them to
    consumers and records the outcome with a bounded, jittered backoff. The worker
    is written against the interface [Store], a class, which the table implements.

    The table maps message identifiers to rows; a [NULL] text column is the empty
    string, as in the [COALESCE] and [NULLIF] of the queries. Each SQL statement
    is one atomic update of the table, with the constraints the migrations put on
    it; statements run one after the other, and connection failures and the 32-bit
    overflow of the attempts column are not modelled. What the database and its
    driver decide is a parameter: the class [Postgres] (equality of [jsonb] values,
    the [uuid] a text denotes, the resolution of [timestamptz]), the tokens
    [gen_random_uuid] yields for the rows of a claim, and the permit
    [privacy_begin_owner_scrub] answers to a redaction. The gates of the learner
    generations, which [CloseGenerationTx] and [OpenGenerationTx] update in another
    table, are not modelled here. *)
From S2P Require Import Prelude GoStd Encoding Privacy.

(** ** Errors *)
Inductive error : Type :=
| ErrorNew (message : string)
| ErrInvalidTransition
| ErrLeaseLost
| ErrConsumerFinalized
| ErrIdempotencyConflict
| ErrNotFound
| ErrorWrap (message : string) (err : error)
| ErrorPrivacy (err : Privacy.error)
| ClassifiedError (category : string) (permanent : bool) (cause : option error).

(** [errors.Is(err, ErrConsumerFinalized)] *)
Fixpoint is_finalized (err : error) : bool :=
  match err with
  | ErrConsumerFinalized => true
  | ErrorWrap _ err => is_finalized err
  | ClassifiedError _ _ (Some err) => is_finalized err
  | _ => false
  end.

Fixpoint classify (err : error) : string * bool :=
  match err with
  | ClassifiedError category permanent _ =>
    (if decide (category = "") then "consumer_error" else category, permanent)
  | ErrorWrap _ err => classify err
  | _ => ("consumer_error", false)
  end.

(** ** Data *)
Inductive Status : Type :=
| StatusPending
| StatusProcessing
| StatusApplied
| StatusDead
| StatusCanceled
| StatusOther (s : string).
#[export] Instance Status_eq_dec : EqDecision Status.
Proof. solve_decision. Defined.

Inductive TerminalDisposition : Type :=
| DispositionFenced
| DispositionSuperseded
| DispositionPrivacyErasure
| DispositionExpired
| DispositionPermanentlyRejected
| DispositionDeleted
| DispositionReviewRequired
| TerminalDispositionOther (s : string).
#[export] Instance TerminalDisposition_eq_dec : EqDecision TerminalDisposition.
Proof. solve_decision. Defined.

Record Message := mkMessage {
  Message_ID : string;
  Message_BusinessType : string;
  Message_AggregateID : string;
  Message_IdempotencyKey : string;
  Message_Revision : Z;
  Message_Generation : Z;
  Message_Payload : string;
  Message_AuditMetadata : string;
  Message_Status : Status;
  Message_AvailableAt : time;
  Message_Attempts : Z;
  Message_MaxAttempts : Z;
  Message_LastErrorCategory : string;
  Message_LastErrorAt : option time;
  Message_TerminalDisposition : TerminalDisposition;
  Message_LeaseExpiresAt : option time;
  Message_LeaseToken : string;
  Message_CreatedAt : time;
  Message_UpdatedAt : time;
}.

Record NewMessageInput := mkNewMessageInput {
  NewMessageInput_BusinessType : string;
  NewMessageInput_AggregateID : string;
  NewMessageInput_IdempotencyKey : string;
  NewMessageInput_Revision : Z;
  NewMessageInput_Generation : Z;
  NewMessageInput_Payload : string;
  NewMessageInput_AuditMetadata : string;
  NewMessageInput_MaxAttempts : Z;
}.

Record RequeueRequest := mkRequeueRequest {
  RequeueRequest_BusinessType : string;
  RequeueRequest_AggregateID : string;
  RequeueRequest_IdempotencyKey : string;
  RequeueRequest_Revision : Z;
  RequeueRequest_Generation : Z;
  RequeueRequest_Payload : string;
  RequeueRequest_AvailableAt : time;
}.

Record CancelRequest := mkCancelRequest {
  CancelRequest_IdempotencyKey : string;
  CancelRequest_LeaseToken : string;
  CancelRequest_Disposition : TerminalDisposition;
  CancelRequest_TombstonePayload : string;
  CancelRequest_CanceledAt : time;
}.

Record ApplyDecision := mkApplyDecision {
  ApplyDecision_Apply : bool;
  ApplyDecision_TerminalDisposition : TerminalDisposition;
}.


(** ** Messages (domain.go) *)
Definition validTerminalDisposition (value : TerminalDisposition) : bool :=
  bool_decide (value = DispositionFenced) || bool_decide (value = DispositionSuperseded)
  || bool_decide (value = DispositionPrivacyErasure) || bool_decide (value = DispositionExpired)
  || bool_decide (value = DispositionPermanentlyRejected) || bool_decide (value = DispositionDeleted)
  || bool_decide (value = DispositionReviewRequired).

Definition no_disposition : TerminalDisposition := TerminalDispositionOther "".

Definition Message_Validate (m : Message) : result error unit :=
  _ ← fail_if (bool_decide (Message_ID m = "") || bool_decide (Message_BusinessType m = "")
               || bool_decide (Message_AggregateID m = "") || bool_decide (Message_IdempotencyKey m = ""))
        (ErrorNew "outbox identifiers and business type are required");
  _ ← fail_if ((Message_Revision m <? 0) || (Message_Generation m <? 0)
               || (Message_MaxAttempts m <=? 0) || (Message_Attempts m <? 0))
        (ErrorNew "outbox counters are invalid");
  _ ← fail_if (negb (json_valid (Message_Payload m)) || negb (json_valid (Message_AuditMetadata m)))
        (ErrorNew "outbox payload and audit metadata must be valid JSON");
  _ ← fail_if (negb (bool_decide (Message_Status m = StatusPending))
               && negb (bool_decide (Message_Status m = StatusProcessing))
               && negb (bool_decide (Message_Status m = StatusApplied))
               && negb (bool_decide (Message_Status m = StatusDead))
               && negb (bool_decide (Message_Status m = StatusCanceled)))
        (ErrorNew "outbox status is invalid");
  fail_if (negb (Bool.eqb (bool_decide (Message_Status m = StatusCanceled))
                   (validTerminalDisposition (Message_TerminalDisposition m))))
    (ErrorNew "outbox terminal disposition is invalid").

Definition CanTransition (from to : Status) : bool :=
  match from with
  | StatusPending => bool_decide (to = StatusProcessing) || bool_decide (to = StatusCanceled)
  | StatusProcessing => bool_decide (to = StatusPending) || bool_decide (to = StatusApplied)
                        || bool_decide (to = StatusDead) || bool_decide (to = StatusCanceled)
  | StatusDead => bool_decide (to = StatusPending) || bool_decide (to = StatusCanceled)
  | _ => false
  end.

Definition RequeueRequest_Validate (r : RequeueRequest) : result error unit :=
  fail_if (bool_decide (trim_space (RequeueRequest_BusinessType r) = "")
           || bool_decide (trim_space (RequeueRequest_AggregateID r) = "")
           || bool_decide (trim_space (RequeueRequest_IdempotencyKey r) = "")
           || (RequeueRequest_Revision r <? 0) || (RequeueRequest_Generation r <? 0)
           || time_is_zero (RequeueRequest_AvailableAt r) || negb (json_valid (RequeueRequest_Payload r)))
    (ErrorNew "valid dead outbox requeue identity, payload, and time are required").

Definition CancelRequest_Validate (r : CancelRequest) : result error unit :=
  _ ← fail_if (bool_decide (trim_space (CancelRequest_IdempotencyKey r) = "")
               || negb (validTerminalDisposition (CancelRequest_Disposition r))
               || time_is_zero (CancelRequest_CanceledAt r))
        (ErrorNew "valid outbox cancellation key, disposition, and time are required");
  fail_if ((0 <? str_len (CancelRequest_TombstonePayload r))
           && negb (json_valid (CancelRequest_TombstonePayload r)))
    (ErrorNew "outbox cancellation tombstone must be valid JSON").

Definition ApplyDecision_Validate (d : ApplyDecision) : result error unit :=
  if ApplyDecision_Apply d then
    fail_if (negb (bool_decide (ApplyDecision_TerminalDisposition d = no_disposition)))
      (ErrorNew "applicable outbox decision cannot be terminal")
  else
    fail_if (negb (validTerminalDisposition (ApplyDecision_TerminalDisposition d)))
      (ErrorNew "non-applicable outbox decision requires a terminal disposition").

(** [rand] is what [rand.Read] fills the 16 bytes with, if it succeeds. *)
Definition newUUID (rand : option (list Z)) : result error string :=
  match rand with
  | None => Err (ErrorNew "rand")
  | Some value =>
    let value := <[8%nat := Z.lor (Z.land (nth 8 value 0) 63) 128]>
                   (<[6%nat := Z.lor (Z.land (nth 6 value 0) 15) 64]> value) in
    let encoded := hex_encode value in
    Ok (str_slice encoded 0 8 +:+ "-" +:+ str_slice encoded 8 12 +:+ "-" +:+ str_slice encoded 12 16
        +:+ "-" +:+ str_slice encoded 16 20 +:+ "-" +:+ str_slice encoded 20 32)
  end.

Definition NewMessage (rand : option (list Z)) (input : NewMessageInput) (now : time) : result error Message :=
  match newUUID rand with
  | Err err => Err (ErrorWrap "generate outbox id" err)
  | Ok id =>
    let audit := if str_len (NewMessageInput_AuditMetadata input) =? 0 then "{}"
                 else NewMessageInput_AuditMetadata input in
    let message := mkMessage id (trim_space (NewMessageInput_BusinessType input))
      (trim_space (NewMessageInput_AggregateID input)) (trim_space (NewMessageInput_IdempotencyKey input))
      (NewMessageInput_Revision input) (NewMessageInput_Generation input)
      (NewMessageInput_Payload input) audit StatusPending now 0 (NewMessageInput_MaxAttempts input)
      "" None no_disposition None "" now now in
    _ ← Message_Validate message;
    Ok message
  end.

(** ** The PostgreSQL store (postgresstore/store.go) *)
Class Postgres := {
  jsonb_eq : string → string → bool;
  (** the canonical text of the [uuid] a text denotes *)
  uuid : string → option string;
  (** the instant a [timestamptz] keeps of a time *)
  timestamptz : time → time;
  jsonb_refl : ∀ v, jsonb_eq v v = true;
  uuid_canonical : ∀ s u, uuid s = Some u → uuid u = Some u;
  uuid_empty : uuid "" = None;
}.

Notation Table := (gmap string Message).

(** A row whose lease is released, with the columns the statements set. *)
Definition released (status : Status) (available : time) (attempts : Z) (category : string)
    (errorAt : option time) (disposition : TerminalDisposition) (payload : string) (now : time)
    (m : Message) : Message :=
  mkMessage (Message_ID m) (Message_BusinessType m) (Message_AggregateID m) (Message_IdempotencyKey m)
    (Message_Revision m) (Message_Generation m) payload (Message_AuditMetadata m) status available
    attempts (Message_MaxAttempts m) category errorAt disposition None "" (Message_CreatedAt m) now.

(** A row under a new lease. *)
Definition leased (now expires : time) (token : string) (m : Message) : Message :=
  mkMessage (Message_ID m) (Message_BusinessType m) (Message_AggregateID m) (Message_IdempotencyKey m)
    (Message_Revision m) (Message_Generation m) (Message_Payload m) (Message_AuditMetadata m)
    StatusProcessing (Message_AvailableAt m) (Message_Attempts m + 1) (Message_MaxAttempts m)
    (Message_LastErrorCategory m) (Message_LastErrorAt m) (Message_TerminalDisposition m)
    (Some expires) token (Message_CreatedAt m) now.

(** The lease columns are set exactly on processing rows ([outbox_lease_shape]). *)
Definition lease_shape (m : Message) : bool :=
  Bool.eqb (bool_decide (Message_Status m = StatusProcessing)) (negb (bool_decide (Message_LeaseToken m = "")))
  && Bool.eqb (bool_decide (Message_Status m = StatusProcessing))
       (bool_decide (is_Some (Message_LeaseExpiresAt m))).

(** [outbox_terminal_disposition_check] *)
Definition disposition_shape (m : Message) : bool :=
  if decide (Message_Status m = StatusCanceled)
  then validTerminalDisposition (Message_TerminalDisposition m)
  else bool_decide (Message_TerminalDisposition m = no_disposition).

Definition same_tuple (m n : Message) : bool :=
  bool_decide (Message_BusinessType m = Message_BusinessType n)
  && bool_decide (Message_AggregateID m = Message_AggregateID n)
  && (Message_Revision m =? Message_Revision n) && (Message_Generation m =? Message_Generation n).

(** The row with an idempotency key. *)
Definition find_key (t : Table) (key : string) : option Message :=
  snd <$> List.find (fun kv => bool_decide (Message_IdempotencyKey kv.2 = key)) (map_to_list t).

Section Store.
Context `{Postgres}.

(** The row an [INSERT] of a message writes, if its [uuid] columns parse. *)
Definition stored (m : Message) : option Message :=
  id ← uuid (Message_ID m);
  token ← (if decide (Message_LeaseToken m = "") then Some "" else uuid (Message_LeaseToken m));
  Some (mkMessage id (Message_BusinessType m) (Message_AggregateID m) (Message_IdempotencyKey m)
          (Message_Revision m) (Message_Generation m) (Message_Payload m) (Message_AuditMetadata m)
          (Message_Status m) (timestamptz (Message_AvailableAt m)) (Message_Attempts m)
          (Message_MaxAttempts m) (Message_LastErrorCategory m) (timestamptz <$> Message_LastErrorAt m)
          (Message_TerminalDisposition m) (timestamptz <$> Message_LeaseExpiresAt m) token
          (timestamptz (Message_CreatedAt m)) (timestamptz (Message_UpdatedAt m))).

(** The constraints the migrations put on a new row. *)
Definition constraints (t : Table) (m : Message) : bool :=
  lease_shape m && disposition_shape m
  && bool_decide (t !! Message_ID m = None)
  && forallb (fun kv => negb (same_tuple m kv.2)) (map_to_list t).

Definition identical (m row : Message) : bool :=
  bool_decide (Message_ID row = Message_ID m) && same_tuple row m
  && bool_decide (Message_IdempotencyKey row = Message_IdempotencyKey m)
  && jsonb_eq (Message_Payload row) (Message_Payload m)
  && jsonb_eq (Message_AuditMetadata row) (Message_AuditMetadata m)
  && bool_decide (Message_Status row = Message_Status m)
  && (Message_AvailableAt row =? Message_AvailableAt m)
  && (Message_Attempts row =? Message_Attempts m) && (Message_MaxAttempts row =? Message_MaxAttempts m)
  && bool_decide (Message_LastErrorCategory row = Message_LastErrorCategory m)
  && bool_decide (Message_LastErrorAt row = Message_LastErrorAt m)
  && bool_decide (Message_TerminalDisposition row = Message_TerminalDisposition m)
  && bool_decide (Message_LeaseExpiresAt row = Message_LeaseExpiresAt m)
  && bool_decide (Message_LeaseToken row = Message_LeaseToken m)
  && (Message_CreatedAt row =? Message_CreatedAt m) && (Message_UpdatedAt row =? Message_UpdatedAt m).

Definition EnqueueWith (t : Table) (message : Message) : Table * result error bool :=
  match Message_Validate message with
  | Err err => (t, Err err)
  | Ok _ =>
    match stored message with
    | None => (t, Err (ErrorWrap "enqueue outbox message" (ErrorNew "invalid uuid")))
    | Some new =>
      match find_key t (Message_IdempotencyKey message) with
      | Some row => (t, if identical new row then Ok false else Err ErrIdempotencyConflict)
      | None =>
        if constraints t new then (<[Message_ID new := new]> t, Ok true)
        else (t, Err (ErrorWrap "enqueue outbox message" (ErrorNew "constraint violation")))
      end
    end
  end.

(** The rows a claim may take, [ORDER BY available_at,created_at,id]. *)
Definition claimable (now : time) (types : option (list string)) (m : Message) : bool :=
  match types with Some l => bool_decide (Message_BusinessType m ∈ l) | None => true end
  && ((bool_decide (Message_Status m = StatusPending) && (Message_AvailableAt m <=? now))
      || (bool_decide (Message_Status m = StatusProcessing)
          && from_option (fun e => e <=? now) false (Message_LeaseExpiresAt m))).

Definition claim_less (m n : Message) : bool :=
  if Message_AvailableAt m =? Message_AvailableAt n then
    if Message_CreatedAt m =? Message_CreatedAt n then str_ltb (Message_ID m) (Message_ID n)
    else Message_CreatedAt m <? Message_CreatedAt n
  else Message_AvailableAt m <? Message_AvailableAt n.

Definition candidates (t : Table) (now : time) (limit : nat) (types : option (list string)) : list Message :=
  take limit (sort_by claim_less (filter (fun m => claimable now types m = true) (map_to_list t).*2)).

(** [tokens] is what [gen_random_uuid] yields for the rows taken, in order. *)
Definition claim (t : Table) (tokens : list string) (now : time) (lease : duration) (limit : nat)
    (types : option (list string)) : Table * list Message :=
  let now := timestamptz now in
  let expires := time_add now (Z.quot lease 1000 * 1000) in
  let messages := zip_with (fun m token => leased now expires token m)
                    (candidates t now limit types) tokens in
  (foldl (fun t m => <[Message_ID m := m]> t) t messages, messages).

Definition ClaimBusinessTypes (t : Table) (tokens : list string) (now : time) (lease : duration)
    (limit : nat) (businessTypes : list string) : Table * list Message :=
  if is_nil businessTypes then (t, []) else claim t tokens now lease limit (Some businessTypes).

Definition Claim (t : Table) (tokens : list string) (now : time) (lease : duration) (limit : nat)
  : Table * list Message := claim t tokens now lease limit None.

Definition requeue_matches (r : RequeueRequest) (m : Message) : bool :=
  bool_decide (Message_BusinessType m = RequeueRequest_BusinessType r)
  && bool_decide (Message_AggregateID m = RequeueRequest_AggregateID r)
  && (Message_Revision m =? RequeueRequest_Revision r)
  && (Message_Generation m =? RequeueRequest_Generation r)
  && jsonb_eq (Message_Payload m) (RequeueRequest_Payload r).

Definition RequeueDeadWith (t : Table) (request : RequeueRequest) : Table * option error :=
  match RequeueRequest_Validate request with
  | Err err => (t, Some err)
  | Ok _ =>
    match find_key t (RequeueRequest_IdempotencyKey request) with
    | None => (t, Some ErrNotFound)
    | Some m =>
      let available := timestamptz (RequeueRequest_AvailableAt request) in
      let tupleMatches := requeue_matches request m in
      if bool_decide (Message_Status m = StatusDead) && tupleMatches then
        (<[Message_ID m := released StatusPending available 0 "" None no_disposition
             (Message_Payload m) available m]> t, None)
      else if bool_decide (Message_Status m = StatusPending) && tupleMatches then (t, None)
      else if negb tupleMatches then (t, Some ErrIdempotencyConflict)
      else (t, Some ErrInvalidTransition)
    end
  end.

Definition CancelWith (t : Table) (request : CancelRequest) : Table * option error :=
  match CancelRequest_Validate request with
  | Err err => (t, Some err)
  | Ok _ =>
    let token := CancelRequest_LeaseToken request in
    let tombstone := if 0 <? str_len (CancelRequest_TombstonePayload request)
                     then Some (CancelRequest_TombstonePayload request) else None in
    match (if decide (token = "") then Some "" else uuid token) with
    | None => (t, Some (ErrorWrap "cancel outbox message" (ErrorNew "invalid uuid")))
    | Some token =>
      match find_key t (CancelRequest_IdempotencyKey request) with
      | None => (t, Some ErrNotFound)
      | Some m =>
        if (((bool_decide (Message_Status m = StatusPending) || bool_decide (Message_Status m = StatusDead))
              && bool_decide (token = ""))
             || (bool_decide (Message_Status m = StatusProcessing) && negb (bool_decide (token = ""))
                 && bool_decide (Message_LeaseToken m = token)))
        then (<[Message_ID m := released StatusCanceled (Message_AvailableAt m) (Message_Attempts m)
                  (Message_LastErrorCategory m) (Message_LastErrorAt m) (CancelRequest_Disposition request)
                  (default (Message_Payload m) tombstone)
                  (timestamptz (CancelRequest_CanceledAt request)) m]> t, None)
        else if decide (Message_Status m = StatusCanceled) then
          if negb (bool_decide (Message_TerminalDisposition m = CancelRequest_Disposition request))
             || negb (from_option (jsonb_eq (Message_Payload m)) true tombstone)
          then (t, Some ErrIdempotencyConflict) else (t, None)
        else if decide (Message_Status m = StatusProcessing) then (t, Some ErrLeaseLost)
        else (t, Some ErrInvalidTransition)
      end
    end
  end.

(** [UPDATE ... WHERE id=$1 AND status='processing' AND lease_token=$2], which
    fails on a token that is not a [uuid]. *)
Definition update_owned (what : string) (t : Table) (id leaseToken : string) (f : Message → Message)
  : Table * option error :=
  match uuid id, uuid leaseToken with
  | Some id, Some leaseToken =>
    match t !! id with
    | Some m =>
      if bool_decide (Message_Status m = StatusProcessing) && bool_decide (Message_LeaseToken m = leaseToken)
      then (<[id := f m]> t, None) else (t, Some ErrLeaseLost)
    | None => (t, Some ErrLeaseLost)
    end
  | _, _ => (t, Some (ErrorWrap what (ErrorNew "invalid uuid")))
  end.

Definition MarkAppliedWith (t : Table) (id leaseToken : string) (now : time) : Table * option error :=
  update_owned "mark outbox applied" t id leaseToken (fun m =>
    released StatusApplied (Message_AvailableAt m) (Message_Attempts m) (Message_LastErrorCategory m)
      (Message_LastErrorAt m) (Message_TerminalDisposition m) (Message_Payload m) (timestamptz now) m).

Definition MarkDeferredWith (t : Table) (id leaseToken category : string) (deferredAt availableAt : time)
  : Table * option error :=
  if bool_decide (trim_space category = "") || time_is_zero deferredAt || time_is_zero availableAt
     || negb (time_after availableAt deferredAt)
  then (t, Some (ErrorNew "mark outbox deferred: non-empty category and ordered timestamps are required"))
  else update_owned "mark outbox deferred" t id leaseToken (fun m =>
    released StatusPending (timestamptz availableAt) (Z.max (Message_Attempts m - 1) 0) category
      (Some (timestamptz deferredAt)) no_disposition (Message_Payload m) (timestamptz deferredAt) m).

Definition MarkFailed (t : Table) (id leaseToken category : string) (failedAt nextAt : time) (dead : bool)
  : Table * option error :=
  update_owned "mark outbox failed" t id leaseToken (fun m =>
    released (if dead then StatusDead else StatusPending) (timestamptz nextAt) (Message_Attempts m) category
      (Some (timestamptz failedAt)) (Message_TerminalDisposition m) (Message_Payload m)
      (timestamptz failedAt) m).

(** *** Privacy redaction (postgresstore/privacy.go) *)
Definition scrubbed_payload : string := json_object [json_field "redacted" "true"].

(** The row the scrub writes; [at] is [clock_timestamp()]. *)
Definition scrubbed (at_ : time) (m : Message) : Message :=
  mkMessage (Message_ID m) (Message_BusinessType m) (Message_AggregateID m) (Message_IdempotencyKey m)
    (Message_Revision m) (Message_Generation m) scrubbed_payload "{}" StatusCanceled
    (Message_AvailableAt m) (Message_Attempts m) (Message_MaxAttempts m) "" None
    DispositionPrivacyErasure None "" (Message_CreatedAt m) (timestamptz at_).

(** The condition of both statements: a row before the generation of the request
    that still holds something. *)
Definition residual (generation : Z) (m : Message) : bool :=
  (Message_Generation m <? generation)
  && (negb (bool_decide (Message_Status m = StatusCanceled))
      || negb (bool_decide (Message_TerminalDisposition m = DispositionPrivacyErasure))
      || negb (jsonb_eq (Message_Payload m) scrubbed_payload)
      || negb (jsonb_eq (Message_AuditMetadata m) "{}")
      || negb (bool_decide (Message_LastErrorCategory m = ""))
      || negb (bool_decide (Message_LastErrorAt m = None))
      || negb (bool_decide (Message_LeaseExpiresAt m = None))
      || negb (bool_decide (Message_LeaseToken m = ""))).

(** [permit] is what [privacy_begin_owner_scrub] answers. *)
Definition RedactTx (t : Table) (permit : result error string) (at_ : time)
    (request : LocalRedactionRequest) : Table * option error :=
  match LocalRedactionRequest_Validate request OwnerOutbox with
  | Err err => (t, Some (ErrorWrap "validate outbox redaction request" (ErrorPrivacy err)))
  | Ok _ =>
    match permit with
    | Err err => (t, Some (ErrorWrap "acquire outbox privacy scrub permit" err))
    | Ok permit =>
      if decide (permit = "") then (t, Some (ErrorNew "acquire outbox privacy scrub permit: empty permit"))
      else
        ((fun m => if residual (LocalRedactionRequest_LearnerGeneration request) m
                   then scrubbed at_ m else m) <$> t, None)
    end
  end.

Definition VerifyRedacted (t : Table) (request : LocalRedactionRequest) : result error Z :=
  match LocalRedactionRequest_Validate request OwnerOutbox with
  | Err err => Err (ErrorWrap "validate outbox redaction verification request" (ErrorPrivacy err))
  | Ok _ => Ok (Z.of_nat (length (List.filter (residual (LocalRedactionRequest_LearnerGeneration request))
                                    (map_to_list t).*2)))
  end.
End Store.

(** ** The worker (worker.go) *)

(** The operations of [Store] the worker uses, over a world [W]. *)
Class Store (W : Type) := {
  store_claim : W → time → duration → Z → option (list string) → W * result error (list Message);
  store_Cancel : W → CancelRequest → W * option error;
  store_MarkApplied : W → string → string → time → W * option error;
  store_MarkFailed : W → string → string → string → time → time → bool → W * option error;
  (** the store implements [businessTypeClaimStore] *)
  store_filters : bool;
}.

(** A [Consumer], which acts on the same world. *)
Record Consumer (W : Type) := mkConsumer {
  consumer_CanApply : W → Message → W * result error ApplyDecision;
  consumer_Apply : W → Message → W * option error;
}.
Arguments mkConsumer {W}.
Arguments consumer_CanApply {W}.
Arguments consumer_Apply {W}.

Record WorkerOptions := mkWorkerOptions {
  WorkerOptions_BatchSize : Z;
  WorkerOptions_Lease : duration;
  WorkerOptions_BaseBackoff : duration;
  WorkerOptions_MaxBackoff : duration;
  WorkerOptions_Jitter : option (string → duration → duration);
  WorkerOptions_Now : option time;
}.

(** [now] is the reading of the clock for one run. A jitter may differ from
    call to call; it is called once for a message, whose identifier is its
    first argument here. *)
Record Worker (W : Type) := mkWorker {
  worker_consumers : gmap string (Consumer W);
  worker_businessTypes : list string;
  worker_batchSize : Z;
  worker_lease : duration;
  worker_baseBackoff : duration;
  worker_maxBackoff : duration;
  worker_jitter : string → duration → duration;
  worker_now : time;
}.
Arguments worker_consumers {W}.
Arguments worker_businessTypes {W}.
Arguments worker_batchSize {W}.
Arguments worker_lease {W}.
Arguments worker_baseBackoff {W}.
Arguments worker_maxBackoff {W}.
Arguments worker_jitter {W}.
Arguments worker_now {W}.
Arguments mkWorker {W}.

(** The jitter used when none is given, from the clock. *)
Definition default_jitter (unixNano : string → Z) (id : string) (delay : duration) : duration :=
  Z.rem (unixNano id) (Z.quot delay 4 + 1).

(** [consumers] with [None] for a nil consumer. *)
Definition NewWorker {W} (consumers : gmap string (option (Consumer W))) (options : WorkerOptions)
    (clock : time) (unixNano : string → Z) : result error (Worker W) :=
  _ ← fail_if ((WorkerOptions_BatchSize options <=? 0) || (WorkerOptions_Lease options <=? 0)
               || (WorkerOptions_BaseBackoff options <=? 0)
               || (WorkerOptions_MaxBackoff options <? WorkerOptions_BaseBackoff options))
        (ErrorNew "valid outbox store, batch, lease, and backoff settings are required");
  _ ← fail_if (existsb (fun kv => bool_decide (kv.1 = "") || match kv.2 with None => true | Some _ => false end)
                 (map_to_list consumers))
        (ErrorNew "outbox business types and consumers are required");
  let businessTypes := (map_to_list consumers).*1 in
  _ ← fail_if (is_nil businessTypes) (ErrorNew "at least one outbox consumer is required");
  Ok (mkWorker (omap id consumers) (sort_strings businessTypes) (WorkerOptions_BatchSize options)
        (WorkerOptions_Lease options) (WorkerOptions_BaseBackoff options) (WorkerOptions_MaxBackoff options)
        (default (default_jitter unixNano) (WorkerOptions_Jitter options))
        (default clock (WorkerOptions_Now options))).

(** The doubling loop of [backoff]: [n] iterations are left. *)
Fixpoint double_delay (maxBackoff : duration) (n : nat) (delay : duration) : duration :=
  match n with
  | O => delay
  | S n =>
    if delay <? maxBackoff then
      if Z.quot maxBackoff 2 <? delay then maxBackoff
      else double_delay maxBackoff n (wrap64 (delay * 2))
    else delay
  end.

Definition backoff {W} (w : Worker W) (id : string) (attempt : Z) : duration :=
  let attempt := if attempt <? 1 then 1 else attempt in
  let delay := double_delay (worker_maxBackoff w) (Z.to_nat (attempt - 1)) (worker_baseBackoff w) in
  let delay := if worker_maxBackoff w <? delay then worker_maxBackoff w else delay in
  let jitter := worker_jitter w id delay in
  let jitter := if jitter <? 0 then 0 else jitter in
  if worker_maxBackoff w <? wrap64 (delay + jitter) then worker_maxBackoff w
  else wrap64 (delay + jitter).

Section Worker.
Context {W : Type} `{Store W}.

(** [mark] followed by [if err != nil { return 0, err }]. *)
Definition stop_on (r : W * option error) : W * result error unit :=
  match r with (s, None) => (s, Ok tt) | (s, Some err) => (s, Err err) end.

(** What the consumer made of a message: one of the outcomes of the loop body. *)
Inductive verdict : Type :=
| Unsupported
| Terminal (disposition : TerminalDisposition)
| Done
| Finalized
| Failed (err : error).

Definition consult (w : Worker W) (s : W) (message : Message) : W * verdict :=
  match worker_consumers w !! Message_BusinessType message with
  | None => (s, Unsupported)
  | Some consumer =>
    let (s, decision) := consumer_CanApply consumer s message in
    let decision := d ← decision; _ ← ApplyDecision_Validate d; Ok d in
    let failed err := if is_finalized err then Finalized else Failed err in
    match decision with
    | Err err => (s, failed err)
    | Ok d =>
      if ApplyDecision_Apply d then
        match consumer_Apply consumer s message with
        | (s, None) => (s, Done)
        | (s, Some err) => (s, failed err)
        end
      else (s, Terminal (ApplyDecision_TerminalDisposition d))
    end
  end.

(** The store call that records the verdict. *)
Definition settle (w : Worker W) (now : time) (s : W) (message : Message) (v : verdict)
  : W * result error unit :=
  let id := Message_ID message in
  let token := Message_LeaseToken message in
  match v with
  | Unsupported => stop_on (store_MarkFailed s id token "unsupported_business_type" now now true)
  | Terminal disposition =>
    stop_on (store_Cancel s (mkCancelRequest (Message_IdempotencyKey message) token disposition "" now))
  | Done => stop_on (store_MarkApplied s id token now)
  | Finalized => (s, Ok tt)
  | Failed err =>
    let (category, permanent) := classify err in
    let dead := permanent || (Message_MaxAttempts message <=? Message_Attempts message) in
    let next := if dead then now else time_add now (backoff w id (Message_Attempts message)) in
    stop_on (store_MarkFailed s id token category now next dead)
  end.

(** The loop of [RunOnce]. *)
Fixpoint process (w : Worker W) (now : time) (s : W) (messages : list Message) : W * result error unit :=
  match messages with
  | [] => (s, Ok tt)
  | message :: messages =>
    let (s, v) := consult w s message in
    match settle w now s message v with
    | (s, Err err) => (s, Err err)
    | (s, Ok _) => process w now s messages
    end
  end.

Definition RunOnce (w : Worker W) (s : W) : W * result error Z :=
  let now := worker_now w in
  let types := if store_filters (W := W) then Some (worker_businessTypes w) else None in
  match store_claim s now (worker_lease w) (worker_batchSize w) types with
  | (s, Err err) => (s, Err (ErrorWrap "claim outbox messages" err))
  | (s, Ok messages) =>
    match process w now s messages with
    | (s, Err err) => (s, Err err)
    | (s, Ok _) => (s, Ok (Z.of_nat (length messages)))
    end
  end.
End Worker.

(** ** The table invariant *)
Section TableFacts.
Context `{Postgres}.

(** The columns no statement changes. *)
Definition delivery (m : Message) : string * string * string * string * Z * Z * Z * time :=
  (Message_ID m, Message_BusinessType m, Message_AggregateID m, Message_IdempotencyKey m,
   Message_Revision m, Message_Generation m, Message_MaxAttempts m, Message_CreatedAt m).

(** The columns only a privacy redaction changes. *)
Definition identity (m : Message) : string * string * string * string * Z * Z * string * Z * time :=
  (Message_ID m, Message_BusinessType m, Message_AggregateID m, Message_IdempotencyKey m,
   Message_Revision m, Message_Generation m, Message_AuditMetadata m, Message_MaxAttempts m,
   Message_CreatedAt m).

(** A row as the schema and [Validate] want it. *)
Record row_ok (m : Message) : Prop := mk_row_ok {
  row_id : uuid (Message_ID m) = Some (Message_ID m);
  row_token : Message_Status m = StatusProcessing → uuid (Message_LeaseToken m) = Some (Message_LeaseToken m);
  row_lease : lease_shape m = true;
  row_valid : Message_Validate m = Ok tt;
  row_disposition : disposition_shape m = true;
}.

Record table_ok (t : Table) : Prop := mk_table_ok {
  table_rows : ∀ id m, t !! id = Some m → Message_ID m = id ∧ row_ok m;
  table_keys : ∀ i j m n, t !! i = Some m → t !! j = Some n →
    Message_IdempotencyKey m = Message_IdempotencyKey n → i = j;
  table_tuples : ∀ i j m n, t !! i = Some m → t !! j = Some n → same_tuple m n = true → i = j;
}.

(** One move of a row: a transition of the state machine, or a new lease over an
    expired one. *)
Definition row_step (m m' : Message) : Prop :=
  identity m' = identity m ∧ row_ok m' ∧
  (CanTransition (Message_Status m) (Message_Status m') = true
   ∨ (Message_Status m = StatusProcessing ∧ Message_Status m' = StatusProcessing
      ∧ Message_LeaseToken m' ≠ Message_LeaseToken m)).

Definition row_update (m m' : Message) : Prop := m' = m ∨ row_step m m'.

(** What a redaction leaves in a row. *)
Record erased (m : Message) : Prop := mk_erased {
  erased_status : Message_Status m = StatusCanceled;
  erased_disposition : Message_TerminalDisposition m = DispositionPrivacyErasure;
  erased_payload : jsonb_eq (Message_Payload m) scrubbed_payload = true;
  erased_audit : jsonb_eq (Message_AuditMetadata m) "{}" = true;
  erased_error : Message_LastErrorCategory m = "" ∧ Message_LastErrorAt m = None;
  erased_lease : Message_LeaseExpiresAt m = None ∧ Message_LeaseToken m = "";
}.

Lemma identity_delivery m m' : identity m' = identity m → delivery m' = delivery m.
Proof. unfold identity, delivery. congruence. Qed.

Lemma same_tuple_identity m m' n n' :
  delivery m' = delivery m → delivery n' = delivery n → same_tuple m' n' = same_tuple m n.
Proof. unfold delivery, same_tuple. intros Hm Hn. rewrite !pair_eq in *. destruct_and!.
  repeat match goal with Hf : ?f _ = ?f _ |- _ => rewrite Hf; clear Hf end. done. Qed.

(** Rows that keep their identity keep the invariant. *)
Lemma table_ok_pointwise t t' :
  table_ok t →
  (∀ id m', t' !! id = Some m' → ∃ m, t !! id = Some m ∧ delivery m' = delivery m ∧ row_ok m') →
  table_ok t'.
Proof.
  intros [Hrows Hkeys Htuples] Hstep. split.
  - intros id m' Hid. apply Hstep in Hid as (m & Hm & Hi & Hok). split; [|done].
    apply Hrows in Hm as [<- _]. unfold delivery in Hi. congruence.
  - intros i j m' n' Hi Hj Heq. apply Hstep in Hi as (m & Hm & Him & _). apply Hstep in Hj as (n & Hn & Hin & _).
    apply (Hkeys i j m n Hm Hn). unfold delivery in *. congruence.
  - intros i j m' n' Hi Hj Heq. apply Hstep in Hi as (m & Hm & Him & _). apply Hstep in Hj as (n & Hn & Hin & _).
    apply (Htuples i j m n Hm Hn). by rewrite <- (same_tuple_identity m m' n n').
Qed.

(** [t'] has the rows of [t], each as it was or moved. *)
Definition table_update (t t' : Table) : Prop := ∀ id, option_Forall2 row_update (t !! id) (t' !! id).

Lemma table_update_refl t : table_update t t.
Proof. intros id. destruct (t !! id); constructor. by left. Qed.

Lemma table_update_ok t t' : table_ok t → table_update t t' → table_ok t'.
Proof.
  intros Ht Hu. apply (table_ok_pointwise t); [done|]. intros id m' Hm'. specialize (Hu id).
  rewrite Hm' in Hu. destruct (t !! id) as [m|] eqn:Hm; [|by inversion Hu]. exists m. split; [done|].
  inversion Hu as [? ? Hrow|]; subst. destruct Hrow as [->|(Hi & Hok & _)].
  - split; [done|]. by eapply table_rows.
  - split; [by apply identity_delivery|done].
Qed.

Lemma table_update_insert t id m m' :
  t !! id = Some m → row_step m m' → table_update t (<[id := m']> t).
Proof.
  intros Hm Hs j. destruct (decide (j = id)) as [->|Hne].
  - rewrite Hm, lookup_insert_eq. constructor. by right.
  - rewrite lookup_insert_ne by done. apply table_update_refl.
Qed.

Lemma find_key_Some t key m :
  table_ok t → find_key t key = Some m ↔ t !! Message_ID m = Some m ∧ Message_IdempotencyKey m = key.
Proof.
  intros Ht. unfold find_key. rewrite fmap_Some. split.
  - intros ([id m'] & Hf & ->). apply find_some in Hf as [Hin Hk]. bool_prop.
    apply list_elem_of_In, elem_of_map_to_list in Hin. simpl in *.
    by destruct (table_rows t Ht _ _ Hin) as [-> _].
  - intros [Hm Hk].
    destruct (List.find _ (map_to_list t)) as [[id m']|] eqn:Hf.
    + exists (id, m'). split; [done|]. simpl. apply find_some in Hf as [Hin Hk']. bool_prop. simpl in *.
      apply list_elem_of_In, elem_of_map_to_list in Hin.
      assert (id = Message_ID m) as -> by (eapply (table_keys t Ht); eauto; congruence). congruence.
    + exfalso. eapply find_none in Hf; [|apply list_elem_of_In, elem_of_map_to_list, Hm].
      apply bool_decide_eq_false in Hf. done.
Qed.

Lemma find_key_None t key id m :
  find_key t key = None → t !! id = Some m → Message_IdempotencyKey m ≠ key.
Proof.
  unfold find_key. intros Hf Hm Hk.
  destruct (List.find _ (map_to_list t)) as [[]|] eqn:Hfind; [done|].
  eapply find_none in Hfind; [|apply list_elem_of_In, elem_of_map_to_list, Hm].
  by apply bool_decide_eq_false in Hfind.
Qed.

(** What [Validate] asks of a message, as a proposition. *)
Lemma Message_Validate_Ok m :
  Message_Validate m = Ok tt ↔
  (Message_ID m ≠ "" ∧ Message_BusinessType m ≠ "" ∧ Message_AggregateID m ≠ ""
   ∧ Message_IdempotencyKey m ≠ "")
  ∧ (0 <= Message_Revision m ∧ 0 <= Message_Generation m ∧ 0 < Message_MaxAttempts m ∧ 0 <= Message_Attempts m)
  ∧ (json_valid (Message_Payload m) = true ∧ json_valid (Message_AuditMetadata m) = true)
  ∧ (∀ s, Message_Status m ≠ StatusOther s)
  ∧ (Message_Status m = StatusCanceled ↔ validTerminalDisposition (Message_TerminalDisposition m) = true).
Proof.
  unfold Message_Validate. rewrite !guard_Ok, fail_if_Ok.
  rewrite !orb_false_iff, !andb_false_iff, !negb_false_iff, !bool_decide_eq_false, !bool_decide_eq_true.
  rewrite !Z.ltb_ge, !Z.leb_gt, eqb_true_iff.
  assert (Hs : (((((Message_Status m = StatusPending ∨ Message_Status m = StatusProcessing)
                   ∨ Message_Status m = StatusApplied) ∨ Message_Status m = StatusDead)
                 ∨ Message_Status m = StatusCanceled) ↔ ∀ s, Message_Status m ≠ StatusOther s)).
  { destruct (Message_Status m); naive_solver. }
  rewrite Hs. clear Hs.
  assert (Hd : ∀ v, bool_decide (Message_Status m = StatusCanceled) = v
               ↔ (Message_Status m = StatusCanceled ↔ v = true)).
  { intros v. case_bool_decide; destruct v; naive_solver. }
  rewrite Hd. tauto.
Qed.

(** Releasing a lease along a transition. *)
Lemma released_step m status available attempts category errorAt disposition payload now :
  row_ok m → CanTransition (Message_Status m) status = true → status ≠ StatusProcessing →
  0 <= attempts → json_valid payload = true →
  (if decide (status = StatusCanceled) then validTerminalDisposition disposition = true
   else disposition = no_disposition) →
  row_step m (released status available attempts category errorAt disposition payload now m).
Proof.
  intros [Hid _ _ Hv Hd] Htrans Hnp Hatt Hjson Hdisp. split; [done|]. split; [|by left].
  apply Message_Validate_Ok in Hv as (Hids & Hnum & [_ Haudit] & _ & _).
  assert (∀ s, status ≠ StatusOther s).
  { intros s ->. destruct (Message_Status m); done. }
  split; cbn [released Message_ID Message_Status Message_LeaseToken].
  - done.
  - done.
  - unfold lease_shape. cbn. by rewrite bool_decide_eq_false_2.
  - apply Message_Validate_Ok. cbn.
    repeat split; try tauto; try lia; intros Hs.
    + by rewrite decide_True in Hdisp.
    + destruct (decide (status = StatusCanceled)); [done|]. by subst.
  - unfold disposition_shape. cbn. destruct (decide (status = StatusCanceled)); [done|]. subst.
    by apply bool_decide_eq_true.
Qed.

(** A processing row may go anywhere but to an unknown status. *)
Lemma disposition_none m : row_ok m → Message_Status m ≠ StatusCanceled → Message_TerminalDisposition m = no_disposition.
Proof.
  intros [_ _ _ _ Hd] Hs. unfold disposition_shape in Hd. rewrite decide_False in Hd by done. by bool_prop.
Qed.

Lemma row_valid_parts m : row_ok m → 0 <= Message_Attempts m ∧ json_valid (Message_Payload m) = true.
Proof. intros [_ _ _ Hv _]. apply Message_Validate_Ok in Hv. tauto. Qed.

Lemma leased_step now expires token m :
  row_ok m → uuid token = Some token → token ≠ Message_LeaseToken m →
  Message_Status m = StatusPending ∨ Message_Status m = StatusProcessing →
  row_step m (leased now expires token m).
Proof.
  intros Hm Htoken Hfresh Hs. pose proof (disposition_none m Hm) as Hdisp.
  destruct Hm as [Hid _ _ Hv Hd]. split; [done|]. split; [|destruct Hs as [->| ->]; auto].
  apply Message_Validate_Ok in Hv as (Hids & Hnum & Hj & _ & _).
  assert (token ≠ "") by (intros ->; by rewrite uuid_empty in Htoken).
  split; cbn [leased Message_ID Message_Status Message_LeaseToken]; try done.
  - unfold lease_shape. cbn. by rewrite (bool_decide_eq_false_2 (token = "")).
  - apply Message_Validate_Ok. cbn. repeat split; try tauto; try lia; try done.
    rewrite Hdisp; [done|]. destruct Hs as [-> | ->]; done.
  - unfold disposition_shape. cbn. apply bool_decide_eq_true, Hdisp. destruct Hs as [-> | ->]; done.
Qed.

(** ** Operations on the table *)

(** What a statement of the form [UPDATE ... WHERE id AND status='processing' AND lease_token] does. *)
Definition holds (t : Table) (id token : string) (m : Message) : Prop :=
  t !! id = Some m ∧ Message_Status m = StatusProcessing ∧ Message_LeaseToken m = token.

Lemma update_owned_held what t id token f m :
  uuid id = Some id → uuid token = Some token → holds t id token m →
  update_owned what t id token f = (<[id := f m]> t, None).
Proof.
  intros Hi Ht (Hm & Hs & Htok). unfold update_owned. rewrite Hi, Ht, Hm.
  by rewrite !bool_decide_eq_true_2.
Qed.

Lemma update_owned_lost what t id token f :
  uuid id = Some id → uuid token = Some token → (∀ m, ¬ holds t id token m) →
  update_owned what t id token f = (t, Some ErrLeaseLost).
Proof.
  intros Hi Ht Hno. unfold update_owned. rewrite Hi, Ht.
  destruct (t !! id) as [m|] eqn:Hm; [|done].
  destruct (bool_decide _ && bool_decide _) eqn:Hb; [|done]. bool_prop. destruct (Hno m). done.
Qed.

Lemma update_owned_update what t id token f :
  (∀ id m, t !! id = Some m → Message_Status m = StatusProcessing → row_step m (f m)) →
  table_update t (update_owned what t id token f).1.
Proof.
  intros Hf. unfold update_owned.
  destruct (uuid id) as [i|]; [|apply table_update_refl].
  destruct (uuid token) as [tok|]; [|apply table_update_refl].
  destruct (t !! i) as [m|] eqn:Hm; [|apply table_update_refl].
  destruct (_ && _) eqn:Hb; [|apply table_update_refl]. bool_prop.
  by eapply table_update_insert; [|eapply Hf].
Qed.

Lemma MarkAppliedWith_update t id token now : table_ok t → table_update t (MarkAppliedWith t id token now).1.
Proof.
  intros Ht. apply update_owned_update. intros i m Hm Hs.
  destruct (table_rows t Ht i m Hm) as [_ Hok]. destruct (row_valid_parts m Hok).
  apply released_step; rewrite ?Hs; try done. apply disposition_none; [done | by rewrite Hs].
Qed.

Lemma MarkDeferredWith_update t id token category deferredAt availableAt :
  table_ok t → table_update t (MarkDeferredWith t id token category deferredAt availableAt).1.
Proof.
  intros Ht. unfold MarkDeferredWith. destruct (_ || _); [apply table_update_refl|].
  apply update_owned_update. intros i m Hm Hs.
  destruct (table_rows t Ht i m Hm) as [_ Hok]. destruct (row_valid_parts m Hok).
  apply released_step; rewrite ?Hs; try done. lia.
Qed.

Lemma MarkFailed_update t id token category failedAt nextAt dead :
  table_ok t → table_update t (MarkFailed t id token category failedAt nextAt dead).1.
Proof.
  intros Ht. apply update_owned_update. intros i m Hm Hs.
  destruct (table_rows t Ht i m Hm) as [_ Hok]. destruct (row_valid_parts m Hok).
  pose proof (disposition_none m Hok ltac:(by rewrite Hs)).
  destruct dead; apply released_step; rewrite ?Hs; done.
Qed.

Lemma RequeueDeadWith_update t request : table_ok t → table_update t (RequeueDeadWith t request).1.
Proof.
  intros Ht. unfold RequeueDeadWith. destruct (RequeueRequest_Validate request); [|apply table_update_refl].
  destruct (find_key t _) as [m|] eqn:Hk; [|apply table_update_refl].
  apply find_key_Some in Hk as [Hm _]; [|done].
  destruct (table_rows t Ht _ m Hm) as [_ Hok]. destruct (row_valid_parts m Hok). cbn zeta.
  destruct (bool_decide (Message_Status m = StatusDead) && _) eqn:Hb.
  - apply andb_true_iff in Hb as [Hb _]. apply bool_decide_eq_true in Hb.
    eapply table_update_insert; [done|]. apply released_step; rewrite ?Hb; done.
  - repeat case_match; apply table_update_refl.
Qed.

Lemma CancelWith_update t request : table_ok t → table_update t (CancelWith t request).1.
Proof.
  intros Ht. unfold CancelWith. destruct (CancelRequest_Validate request) as [[]|] eqn:Hv; [|apply table_update_refl].
  unfold CancelRequest_Validate in Hv. rewrite guard_Ok, fail_if_Ok in Hv. destruct Hv as [Hv1 Hv2].
  apply orb_false_iff in Hv1 as [Hv1 _]. apply orb_false_iff in Hv1 as [_ Hv1]. apply negb_false_iff in Hv1.
  cbn zeta. destruct (if decide _ then _ else _) as [token|]; [|apply table_update_refl].
  destruct (find_key t _) as [m|] eqn:Hk; [|apply table_update_refl].
  apply find_key_Some in Hk as [Hm _]; [|done].
  destruct (table_rows t Ht _ m Hm) as [_ Hok]. destruct (row_valid_parts m Hok).
  destruct (_ || _) eqn:Hb.
  - eapply table_update_insert; [done|].
    assert (CanTransition (Message_Status m) StatusCanceled = true).
    { rewrite !orb_true_iff, !andb_true_iff, orb_true_iff, !bool_decide_eq_true in Hb.
      destruct Hb as [[[-> | ->] _]|[[-> _] _]]; done. }
    apply released_step; try done.
    destruct (0 <? str_len (CancelRequest_TombstonePayload request)); [|done].
    by apply andb_false_iff in Hv2 as [?|?]; bool_prop.
  - repeat case_match; apply table_update_refl.
Qed.

(** ** Claims *)
Lemma claimable_status now types m :
  claimable now types m = true → Message_Status m = StatusPending ∨ Message_Status m = StatusProcessing.
Proof. unfold claimable. rewrite andb_true_iff, orb_true_iff, !andb_true_iff, !bool_decide_eq_true. tauto. Qed.

Lemma table_ids t : table_ok t → Message_ID <$> (map_to_list t).*2 = (map_to_list t).*1.
Proof.
  intros Ht. rewrite <- list_fmap_compose. apply list_fmap_ext. intros i [id m] Hi. simpl.
  apply list_elem_of_lookup_2, elem_of_map_to_list in Hi. by apply (table_rows t Ht) in Hi as [-> _].
Qed.

Lemma elem_of_candidates t now limit types m :
  table_ok t → m ∈ candidates t now limit types → t !! Message_ID m = Some m ∧ claimable now types m = true.
Proof.
  intros Ht Hm.
  assert (m ∈ filter (fun m => claimable now types m = true) (map_to_list t).*2) as Hf.
  { rewrite <- (elem_of_sort_by claim_less). by eapply elem_of_take in Hm as (i & Hi%list_elem_of_lookup_2 & _). }
  apply list_elem_of_filter in Hf as [Hc Hf]. split; [|done].
  apply list_elem_of_fmap in Hf as ([id m'] & -> & Hin). apply elem_of_map_to_list in Hin. simpl.
  by destruct (table_rows t Ht _ _ Hin) as [-> _].
Qed.

Lemma NoDup_candidates t now limit types : table_ok t → NoDup (Message_ID <$> candidates t now limit types).
Proof.
  intros Ht. unfold candidates. eapply sublist_NoDup; [|apply fmap_sublist, sublist_take].
  rewrite (sort_by_Permutation claim_less).
  eapply sublist_NoDup; [|apply fmap_sublist, sublist_filter].
  rewrite table_ids by done. apply NoDup_fst_map_to_list.
Qed.

Lemma lookup_insert_all (l : list Message) (t : Table) :
  NoDup (Message_ID <$> l) →
  let t' := foldl (fun t m => <[Message_ID m := m]> t) t l in
  (∀ m, m ∈ l → t' !! Message_ID m = Some m) ∧ (∀ id, id ∉ Message_ID <$> l → t' !! id = t !! id).
Proof.
  revert t. induction l as [|x l IH]; intros t Hnd; simpl; [split; [by intros m ?%not_elem_of_nil|done]|].
  rewrite fmap_cons in Hnd. apply NoDup_cons in Hnd as [Hx Hnd]. destruct (IH (<[Message_ID x := x]> t) Hnd) as [H1 H2].
  split.
  - intros m [->|Hm]%elem_of_cons; [|by apply H1]. by rewrite H2, lookup_insert_eq.
  - intros id Hid. apply not_elem_of_cons in Hid as [Hne Hid]. by rewrite H2, lookup_insert_ne.
Qed.

(** The tokens [gen_random_uuid] yields: canonical, distinct and in no row yet. *)
Definition fresh_tokens (t : Table) (tokens : list string) : Prop :=
  NoDup tokens ∧ Forall (fun token => uuid token = Some token) tokens
  ∧ ∀ id m, t !! id = Some m → Message_LeaseToken m ∉ tokens.

Lemma claimed_rows t tokens now lease limit types t' messages :
  table_ok t → fresh_tokens t tokens → claim t tokens now lease limit types = (t', messages) →
  NoDup (Message_ID <$> messages)
  ∧ (∀ m', m' ∈ messages → ∃ m token, m ∈ candidates t (timestamptz now) limit types ∧ token ∈ tokens
      ∧ m' = leased (timestamptz now) (time_add (timestamptz now) (Z.quot lease 1000 * 1000)) token m
      ∧ t !! Message_ID m = Some m ∧ row_step m m' ∧ t' !! Message_ID m = Some m')
  ∧ (∀ id, id ∉ Message_ID <$> messages → t' !! id = t !! id).
Proof.
  intros Ht (Hnd & Hcan & Hfresh) Hc. unfold claim in Hc. cbn zeta in Hc.
  set (cs := candidates t (timestamptz now) limit types) in *.
  set (expires := time_add (timestamptz now) (Z.quot lease 1000 * 1000)) in *. clearbody expires.
  injection Hc as <- Hm. rewrite Hm.
  assert (HND : NoDup (Message_ID <$> messages)).
  { apply NoDup_alt. intros i j id Hi Hj.
    rewrite list_lookup_fmap, fmap_Some in Hi, Hj. destruct Hi as (x & Hx & ->), Hj as (y & Hy & Hid).
    rewrite <- Hm in Hx, Hy. apply lookup_zip_with_Some in Hx as (a & ? & -> & Ha & _), Hy as (b & ? & -> & Hb & _).
    eapply (NoDup_lookup (Message_ID <$> cs)); [by apply NoDup_candidates| |];
      rewrite list_lookup_fmap, fmap_Some; [by exists a | by exists b]. }
  destruct (lookup_insert_all messages t HND) as [H1 H2]. split; [done|]. split; [|done].
  intros m' Hm'. specialize (H1 m' Hm'). rewrite <- Hm in Hm'.
  apply list_elem_of_lookup_1 in Hm' as [i Hi]. apply lookup_zip_with_Some in Hi as (m & token & -> & Hi & Htok).
  apply list_elem_of_lookup_2 in Hi, Htok. destruct (elem_of_candidates _ _ _ _ _ Ht Hi) as [Hrow Hclaim].
  exists m, token. split; [done|]. split; [done|]. split; [done|]. split; [done|]. split; [|done].
  apply leased_step.
  - by eapply table_rows.
  - by eapply Forall_forall in Hcan.
  - intros ->. by apply (Hfresh _ _ Hrow).
  - by eapply claimable_status.
Qed.

Lemma claim_update t tokens now lease limit types :
  table_ok t → fresh_tokens t tokens → table_update t (claim t tokens now lease limit types).1.
Proof.
  intros Ht Hf id. destruct (claim t tokens now lease limit types) as [t' messages] eqn:Hc. simpl.
  destruct (claimed_rows _ _ _ _ _ _ _ _ Ht Hf Hc) as (_ & Hin & Hout).
  destruct (decide (id ∈ Message_ID <$> messages)) as [Hid|Hid].
  - apply list_elem_of_fmap in Hid as (m' & -> & Hm'). apply Hin in Hm' as (m & token & _ & _ & -> & Hm & Hs & Hm').
    cbn [leased Message_ID] in *. rewrite Hm, Hm'. constructor. by right.
  - rewrite Hout by done. apply table_update_refl.
Qed.

(** ** New messages *)
Lemma stored_ok m m' :
  Message_Validate m = Ok tt → stored m = Some m' → lease_shape m' = true → disposition_shape m' = true → row_ok m'.
Proof.
  intros Hv Hs Hl Hd. unfold stored in Hs. apply bind_Some in Hs as (id & Hid & Hs).
  apply bind_Some in Hs as (token & Htok & Hs). injection Hs as <-.
  apply Message_Validate_Ok in Hv as (Hids & Hnum & Hj & Hs & Hdisp).
  split; try done; cbn [Message_ID Message_Status Message_LeaseToken].
  - by eapply uuid_canonical.
  - intros Hp. unfold lease_shape in Hl. cbn in Hl. rewrite Hp in Hl. cbn in Hl.
    apply andb_true_iff in Hl as [Hl _]. destruct (decide (Message_LeaseToken m = "")).
    + injection Htok as <-. done.
    + by eapply uuid_canonical.
  - apply Message_Validate_Ok. cbn. repeat split; try tauto.
    intros ->. apply uuid_canonical in Hid. by rewrite uuid_empty in Hid.
Qed.

Lemma EnqueueWith_ok t message :
  table_ok t → let t' := (EnqueueWith t message).1 in
  table_ok t' ∧ ∀ id m, t !! id = Some m → t' !! id = Some m.
Proof.
  intros Ht. unfold EnqueueWith. destruct (Message_Validate message) as [[]|] eqn:Hv; [|done].
  destruct (stored message) as [new|] eqn:Hnew; [|done].
  destruct (find_key t _) eqn:Hk; [done|].
  destruct (constraints t new) eqn:Hc; [|done]. cbn zeta. cbn [fst].
  unfold constraints in Hc. rewrite !andb_true_iff, bool_decide_eq_true in Hc. destruct Hc as [[[Hl Hd] Hfree] Htuples].
  assert (Hnewok : row_ok new) by (by eapply stored_ok).
  assert (Hkey : Message_IdempotencyKey new = Message_IdempotencyKey message).
  { unfold stored in Hnew. apply bind_Some in Hnew as (? & _ & Hnew). apply bind_Some in Hnew as (? & _ & Hnew).
    by injection Hnew as <-. }
  assert (Hdiff : ∀ id m, t !! id = Some m → same_tuple new m = false ∧ Message_IdempotencyKey m ≠ Message_IdempotencyKey new).
  { intros id m Hm. rewrite Hkey. split; [|by eapply find_key_None].
    rewrite forallb_forall in Htuples. specialize (Htuples (id, m)).
    rewrite negb_true_iff in Htuples. by apply Htuples, list_elem_of_In, elem_of_map_to_list. }
  assert (Hsym : ∀ m n, same_tuple m n = same_tuple n m).
  { intros m n. unfold same_tuple. rewrite (Z.eqb_sym (Message_Revision m)), (Z.eqb_sym (Message_Generation m)).
    rewrite (bool_decide_ext (Message_BusinessType m = _) (Message_BusinessType n = Message_BusinessType m)) by done.
    by rewrite (bool_decide_ext (Message_AggregateID m = _) (Message_AggregateID n = Message_AggregateID m)). }
  split.
  - split.
    + intros id m. rewrite lookup_insert_Some. intros [[<- <-]|[_ Hm]]; [done|]. by apply (table_rows t Ht).
    + intros i j m n. rewrite !lookup_insert_Some.
      intros [[<- <-]|[Hi Hm]] [[<- <-]|[Hj Hn]] Heq; [done|..|by eapply (table_keys t Ht)].
      * by destruct (Hdiff _ _ Hn) as [_ []].
      * by destruct (Hdiff _ _ Hm) as [_ []].
    + intros i j m n. rewrite !lookup_insert_Some.
      intros [[<- <-]|[Hi Hm]] [[<- <-]|[Hj Hn]] Heq; [done|..|by eapply (table_tuples t Ht)].
      * destruct (Hdiff _ _ Hn) as [Hf _]. congruence.
      * destruct (Hdiff _ _ Hm) as [Hf _]. rewrite Hsym in Hf. congruence.
  - intros id m Hm. apply lookup_insert_Some. right. split; [|done]. intros <-. congruence.
Qed.

(** ** Redaction *)
Lemma residual_false generation m :
  residual generation m = false → Message_Generation m < generation → erased m.
Proof.
  unfold residual. intros Hr Hg. apply Z.ltb_lt in Hg. rewrite Hg in Hr. simpl in Hr.
  rewrite !orb_false_iff, !negb_false_iff, !bool_decide_eq_true in Hr. destruct_and!. by split.
Qed.

Lemma scrubbed_erased at_ m : erased (scrubbed at_ m).
Proof. split; try done; cbn; apply jsonb_refl. Qed.

Lemma scrubbed_ok at_ m : row_ok m → row_ok (scrubbed at_ m).
Proof.
  intros [Hid _ _ Hv _]. apply Message_Validate_Ok in Hv as (Hids & Hnum & _).
  split; try done. apply Message_Validate_Ok. cbn. repeat split; try tauto; done.
Qed.

(** Whether a redaction is carried out. *)
Definition redacts (permit : result error string) (request : LocalRedactionRequest) : Prop :=
  LocalRedactionRequest_Validate request OwnerOutbox = Ok tt ∧ ∃ token, permit = Ok token ∧ token ≠ "".

Lemma RedactTx_redacts t permit at_ request :
  redacts permit request ∧ RedactTx t permit at_ request
    = ((fun m => if residual (LocalRedactionRequest_LearnerGeneration request) m
                 then scrubbed at_ m else m) <$> t, None)
  ∨ ¬ redacts permit request ∧ (RedactTx t permit at_ request).1 = t ∧ (RedactTx t permit at_ request).2 ≠ None.
Proof.
  unfold RedactTx, redacts. destruct (LocalRedactionRequest_Validate _ _) as [[]|]; [|right; naive_solver].
  destruct permit as [token|]; [|right; naive_solver].
  case_decide; [right; naive_solver|left; naive_solver].
Qed.

(** The row of a message after a redaction that is carried out. *)
Definition redacted (request : LocalRedactionRequest) (m m' : Message) : Prop :=
  delivery m' = delivery m
  ∧ if decide (Message_Generation m < LocalRedactionRequest_LearnerGeneration request)
    then erased m' else m' = m.

Lemma RedactTx_rows t permit at_ request :
  table_ok t → let t' := (RedactTx t permit at_ request).1 in
  table_ok t'
  ∧ (redacts permit request → ∀ id m, t !! id = Some m → ∃ m', t' !! id = Some m' ∧ redacted request m m')
  ∧ (¬ redacts permit request → t' = t).
Proof.
  intros Ht. destruct (RedactTx_redacts t permit at_ request) as [[Hr ->]|(Hr & -> & _)]; [|done]. cbn [fst].
  split; [|split; [|done]].
  - apply (table_ok_pointwise t); [done|]. intros id m' Hm'. rewrite lookup_fmap, fmap_Some in Hm'.
    destruct Hm' as (m & Hm & ->). exists m. split; [done|].
    destruct (table_rows t Ht _ _ Hm) as [_ Hok].
    destruct (residual _ m); [split; [done|by apply scrubbed_ok]|done].
  - intros _ id m Hm. rewrite lookup_fmap, Hm. eexists. split; [done|]. unfold redacted.
    destruct (residual _ m) eqn:Hres; (split; [done|]); case_decide as Hg; try done.
    + apply scrubbed_erased.
    + unfold residual in Hres. apply andb_true_iff in Hres as [Hres _]. by apply Z.ltb_lt in Hres.
    + by eapply residual_false.
Qed.

(** The verification that follows finds nothing. *)
Lemma RedactTx_verified t permit at_ request :
  redacts permit request →
  VerifyRedacted (RedactTx t permit at_ request).1 request = Ok 0.
Proof.
  intros Hred. destruct (RedactTx_redacts t permit at_ request) as [[_ ->]|[Hr _]]; [|done]. cbn [fst].
  unfold VerifyRedacted. destruct Hred as [-> _]. f_equal.
  set (g := LocalRedactionRequest_LearnerGeneration request).
  assert (List.filter (residual g) (map_to_list ((fun m => if residual g m then scrubbed at_ m else m) <$> t)).*2
          = []) as ->; [|done].
  apply elem_of_nil_inv. intros m Hm%list_elem_of_In. apply filter_In in Hm as [Hm Hr].
  apply list_elem_of_In, list_elem_of_fmap in Hm as ([id m'] & -> & Hm%elem_of_map_to_list).
  cbn [snd] in Hr. rewrite lookup_fmap, fmap_Some in Hm. destruct Hm as (m & _ & ->).
  destruct (residual g m) eqn:Hres; [|congruence].
  unfold residual in Hr. apply andb_true_iff in Hr as [_ Hr]. revert Hr. cbn.
  by rewrite !jsonb_refl.
Qed.

(** ** Histories *)
Inductive operation : Type :=
| OpEnqueue (message : Message)
| OpClaim (tokens : list string) (now : time) (lease : duration) (limit : nat) (types : option (list string))
| OpRequeue (request : RequeueRequest)
| OpCancel (request : CancelRequest)
| OpApplied (id token : string) (now : time)
| OpDeferred (id token category : string) (deferredAt availableAt : time)
| OpFailed (id token category : string) (failedAt nextAt : time) (dead : bool)
| OpRedact (permit : result error string) (at_ : time) (request : LocalRedactionRequest).

Definition operate (t : Table) (op : operation) : Table :=
  match op with
  | OpEnqueue message => (EnqueueWith t message).1
  | OpClaim tokens now lease limit types => (claim t tokens now lease limit types).1
  | OpRequeue request => (RequeueDeadWith t request).1
  | OpCancel request => (CancelWith t request).1
  | OpApplied id token now => (MarkAppliedWith t id token now).1
  | OpDeferred id token category deferredAt availableAt =>
    (MarkDeferredWith t id token category deferredAt availableAt).1
  | OpFailed id token category failedAt nextAt dead =>
    (MarkFailed t id token category failedAt nextAt dead).1
  | OpRedact permit at_ request => (RedactTx t permit at_ request).1
  end.

Definition operation_fresh (t : Table) (op : operation) : Prop :=
  match op with OpClaim tokens _ _ _ _ => fresh_tokens t tokens | _ => True end.

Definition operation_step (t t' : Table) : Prop :=
  ∃ op, t' = operate t op ∧ operation_fresh t op.

(** What an operation may do to a row. *)
Definition row_after (op : operation) (m m' : Message) : Prop :=
  match op with
  | OpRedact permit _ request =>
    (redacts permit request → redacted request m m') ∧ (¬ redacts permit request → m' = m)
  | _ => row_update m m'
  end.

Lemma operate_ok t op :
  table_ok t → operation_fresh t op →
  table_ok (operate t op)
  ∧ ∀ id m, t !! id = Some m → ∃ m', operate t op !! id = Some m' ∧ row_after op m m'.
Proof.
  intros Ht Hop.
  assert (Hu : ∀ t', table_update t t' →
    table_ok t' ∧ ∀ id m, t !! id = Some m → ∃ m', t' !! id = Some m' ∧ row_update m m').
  { intros t' Hu. split; [by eapply table_update_ok|]. intros id m Hm. specialize (Hu id). rewrite Hm in Hu.
    inversion Hu as [? m' Hrow Hx Hm'|]; subst. by exists m'. }
  destruct op; cbn [operate]; [|apply Hu..|].
  - destruct (EnqueueWith_ok t message Ht) as [H1 H2]. split; [done|].
    intros id m Hm. exists m. split; [by apply H2 | by left].
  - by apply claim_update.
  - by apply RequeueDeadWith_update.
  - by apply CancelWith_update.
  - by apply MarkAppliedWith_update.
  - by apply MarkDeferredWith_update.
  - by apply MarkFailed_update.
  - destruct (RedactTx_rows t permit at_ request Ht) as (Hok & Hyes & Hno). split; [exact Hok|].
    intros id m Hm.
    destruct (RedactTx_redacts t permit at_ request) as [[Hr _]|[Hr _]].
    + destruct (Hyes Hr id m Hm) as (m' & Hm' & Hred). exists m'. split; [exact Hm'|]. by split.
    + exists m. rewrite (Hno Hr). by split.
Qed.

Lemma operation_step_ok t t' : table_ok t → operation_step t t' → table_ok t'.
Proof. intros Ht (op & -> & Hop). by apply operate_ok. Qed.

Lemma table_ok_empty : table_ok ∅.
Proof. split; intros *; rewrite lookup_empty; done. Qed.

Lemma reachable_ok t : rtc operation_step ∅ t → table_ok t.
Proof.
  intros Hr. remember ∅ as t0 eqn:H0. assert (table_ok t0) as Ht0 by (subst; apply table_ok_empty). clear H0.
  induction Hr as [|t1 t2 t3 Hs _ IH]; [done|]. apply IH. by eapply operation_step_ok.
Qed.

(** C5. Whatever operations of the store ran since the table was empty, privacy
    redactions included, the next one leaves every row satisfying the schema (a
    lease exactly while processing, a terminal disposition exactly when canceled,
    valid counters and payload), with unique idempotency keys and delivery tuples,
    and loses no row. Every operation but a redaction changes a row at most by one
    transition [CanTransition] allows or by a new lease, never in its identity
    columns. A redaction with a valid request and a permit cancels every row of an
    earlier generation, whatever its status, for privacy erasure, with its payload,
    audit metadata, error and lease gone, keeps its delivery columns and every
    other row, and is then verified; without one it changes nothing. *)
Theorem rows_follow_state_machine (t : Table) (op : operation)
    (Hreach : rtc operation_step ∅ t)
    (Hfresh : match op with OpClaim tokens _ _ _ _ => fresh_tokens t tokens | _ => True end) :
  table_ok (operate t op)
  ∧ (∀ id m, t !! id = Some m → ∃ m', operate t op !! id = Some m'
       ∧ match op with
         | OpRedact permit _ request =>
           (redacts permit request → delivery m' = delivery m
              ∧ if decide (Message_Generation m < LocalRedactionRequest_LearnerGeneration request)
                then erased m' else m' = m)
           ∧ (¬ redacts permit request → m' = m)
         | _ => row_update m m'
         end)
  ∧ match op with
    | OpRedact permit _ request => redacts permit request → VerifyRedacted (operate t op) request = Ok 0
    | _ => True
    end.
Proof.
  destruct (operate_ok t op (reachable_ok t Hreach) Hfresh) as [Hok Hrows]. split; [done|].
  split; [by destruct op|]. destruct op; try done. apply RedactTx_verified.
Qed.

(** A message that was applied or canceled is never touched again, whatever
    operations follow, unless a redaction erases it. *)
Theorem finished_rows_are_final (t t' : Table) (id : string) (m : Message)
    (Hreach : rtc operation_step ∅ t) (Hsteps : rtc operation_step t t') (Hm : t !! id = Some m)
    (Hfinal : Message_Status m = StatusApplied ∨ Message_Status m = StatusCanceled) :
  ∃ m', t' !! id = Some m' ∧ (m' = m ∨ delivery m' = delivery m ∧ erased m').
Proof.
  apply reachable_ok in Hreach as Ht. clear Hreach.
  assert (Hrow : ∃ m', t !! id = Some m' ∧ (m' = m ∨ delivery m' = delivery m ∧ erased m')) by eauto.
  clear Hm. induction Hsteps as [|t1 t2 t3 Hs _ IH]; [done|].
  apply IH; [by eapply operation_step_ok|]. destruct Hs as (op & -> & Hop).
  destruct Hrow as (m1 & Hm1 & Hcase). destruct (operate_ok t1 op Ht Hop) as [_ Hrows].
  destruct (Hrows id m1 Hm1) as (m2 & Hm2 & Hafter). exists m2. split; [done|].
  assert (Hend : Message_Status m1 = StatusApplied ∨ Message_Status m1 = StatusCanceled)
    by (destruct Hcase as [->|[_ []]]; auto).
  assert (Hkeep : row_update m1 m2 → m2 = m1).
  { intros [->|(_ & _ & [Htrans|[Hp _]])]; [done|..].
    - by destruct Hend as [He|He]; rewrite He in Htrans.
    - by destruct Hend as [He|He]; rewrite He in Hp. }
  destruct op; cbn [row_after] in Hafter; try (by rewrite (Hkeep Hafter)).
  destruct (RedactTx_redacts t1 permit at_ request) as [[Hr _]|[Hr _]].
  - destruct (proj1 Hafter Hr) as [Hd He]. case_decide; [|by subst].
    right. split; [|done]. destruct Hcase as [->|[Hd1 _]]; [done|congruence].
  - by rewrite (proj2 Hafter Hr).
Qed.

(** ** Leases *)
Inductive owner_call : Type :=
| CallApplied (now : time)
| CallDeferred (category : string) (deferredAt availableAt : time)
| CallFailed (category : string) (failedAt nextAt : time) (dead : bool).

Definition call_owner (t : Table) (id token : string) (call : owner_call) : Table * option error :=
  match call with
  | CallApplied now => MarkAppliedWith t id token now
  | CallDeferred category deferredAt availableAt => MarkDeferredWith t id token category deferredAt availableAt
  | CallFailed category failedAt nextAt dead => MarkFailed t id token category failedAt nextAt dead
  end.

(** The status a call leaves. *)
Definition call_status (call : owner_call) : Status :=
  match call with
  | CallApplied _ => StatusApplied
  | CallDeferred _ _ _ => StatusPending
  | CallFailed _ _ _ dead => if dead then StatusDead else StatusPending
  end.

Definition call_valid (call : owner_call) : bool :=
  match call with
  | CallDeferred category deferredAt availableAt =>
    negb (bool_decide (trim_space category = "")) && negb (time_is_zero deferredAt)
    && negb (time_is_zero availableAt) && time_after availableAt deferredAt
  | _ => true
  end.

Lemma deferred_guard t id token category d a :
  MarkDeferredWith t id token category d a
  = if call_valid (CallDeferred category d a)
    then update_owned "mark outbox deferred" t id token (fun m =>
      released StatusPending (timestamptz a) (Z.max (Message_Attempts m - 1) 0) category
        (Some (timestamptz d)) no_disposition (Message_Payload m) (timestamptz d) m)
    else (t, Some (ErrorNew "mark outbox deferred: non-empty category and ordered timestamps are required")).
Proof.
  unfold MarkDeferredWith. cbn [call_valid].
  by destruct (bool_decide _), (time_is_zero d), (time_is_zero a), (time_after a d).
Qed.

Lemma call_owner_lost t id token call :
  uuid id = Some id → uuid token = Some token → (∀ m, ¬ holds t id token m) →
  (call_owner t id token call).1 = t
  ∧ (call_valid call = true → (call_owner t id token call).2 = Some ErrLeaseLost).
Proof.
  intros Hid Htoken Hno. destruct call; cbn [call_owner]; unfold MarkAppliedWith, MarkFailed.
  - by rewrite update_owned_lost.
  - rewrite deferred_guard. destruct (call_valid _) eqn:Hv; [by rewrite update_owned_lost | done].
  - by rewrite update_owned_lost.
Qed.

Lemma call_owner_held t id token call m :
  uuid id = Some id → uuid token = Some token → holds t id token m → call_valid call = true →
  ∃ m', call_owner t id token call = (<[id := m']> t, None) ∧ Message_Status m' = call_status call
        ∧ Message_LeaseToken m' = "".
Proof.
  intros Hid Htoken Hh Hv.
  destruct call; cbn [call_owner]; [unfold MarkAppliedWith | rewrite deferred_guard, Hv | unfold MarkFailed];
    (erewrite update_owned_held; [by eexists|done|done|exact Hh]).
Qed.

Lemma call_owner_invalid t id token call : call_valid call = false → (call_owner t id token call).2 ≠ None.
Proof. destruct call as [| |]; try done. intros Hv. cbn [call_owner]. by rewrite deferred_guard, Hv. Qed.

(** C23. A worker can settle a message exactly while it holds its lease: with the
    current token, [MarkApplied], [MarkDeferred] and [MarkFailed] release the row
    into the status they stand for and the token is void from then on; with any
    other token they report [ErrLeaseLost] and leave the table as it was. *)
Theorem lease_ownership (t : Table) (id token : string) (call : owner_call)
    (Hid : uuid id = Some id) (Htoken : uuid token = Some token) (Hvalid : call_valid call = true) :
  let '(t', err) := call_owner t id token call in
  (err = None ↔ ∃ m, holds t id token m)
  ∧ (err = None → ∃ m', t' = <[id := m']> t ∧ Message_Status m' = call_status call
      ∧ ∀ again, (call_owner t' id token again).1 = t' ∧ (call_owner t' id token again).2 ≠ None)
  ∧ (err ≠ None → err = Some ErrLeaseLost ∧ t' = t).
Proof.
  assert (Hdec : (∃ m, holds t id token m) ∨ ∀ m, ¬ holds t id token m).
  { unfold holds. destruct (t !! id) as [m|] eqn:Hm; [|right; intros m (? & _); done].
    destruct (decide (Message_Status m = StatusProcessing)), (decide (Message_LeaseToken m = token));
      [by left; exists m | right; naive_solver..]. }
  destruct Hdec as [[m Hh]|Hno].
  - destruct (call_owner_held t id token call m Hid Htoken Hh Hvalid) as (m' & -> & Hs & Htok).
    split; [split; [by exists m|done]|]. split; [|done]. intros _. exists m'. split; [done|]. split; [done|].
    assert (Hlost : ∀ n, ¬ holds (<[id := m']> t) id token n).
    { intros n (Hn & _ & Ht). rewrite lookup_insert_eq in Hn. injection Hn as <-.
      rewrite Htok in Ht. subst token. by rewrite uuid_empty in Htoken. }
    intros again. destruct (call_owner_lost _ _ _ again Hid Htoken Hlost) as [H1 H2]. split; [done|].
    destruct (call_valid again) eqn:Hav; [by rewrite H2 | by apply call_owner_invalid].
  - destruct (call_owner_lost t id token call Hid Htoken Hno) as [H1 H2].
    destruct (call_owner t id token call) as [t' err]. simpl in *. rewrite (H2 Hvalid).
    split; [split; [done|intros [m Hm]; by destruct (Hno m)]|]. split; [done|]. by intros _.
Qed.

(** C24. A claim hands each message it returns to one worker: the row in the table
    is the message, one attempt further, and was free (pending and due, or under
    an expired lease); no earlier token can settle it any more; and no claim
    before the new lease expires returns it. *)
Theorem claim_is_exclusive (t t' : Table) (tokens : list string) (now : time) (lease : duration) (limit : nat)
    (types : option (list string)) (messages : list Message)
    (Hok : table_ok t) (Hfresh : fresh_tokens t tokens)
    (Hclaim : claim t tokens now lease limit types = (t', messages)) :
  (length messages ≤ limit)%nat ∧ NoDup (Message_ID <$> messages)
  ∧ ∀ m', m' ∈ messages →
      holds t' (Message_ID m') (Message_LeaseToken m') m'
      ∧ (∃ m, t !! Message_ID m' = Some m ∧ claimable (timestamptz now) types m = true
              ∧ Message_Attempts m' = Message_Attempts m + 1)
      ∧ (∀ token call, uuid token = Some token → token ≠ Message_LeaseToken m' →
           (call_owner t' (Message_ID m') token call).1 = t'
           ∧ (call_valid call = true → (call_owner t' (Message_ID m') token call).2 = Some ErrLeaseLost))
      ∧ (∀ tokens2 now2 lease2 limit2 types2,
           timestamptz now2 < timestamptz now + Z.quot lease 1000 * 1000 →
           Message_ID m' ∉ Message_ID <$> (claim t' tokens2 now2 lease2 limit2 types2).2).
Proof.
  destruct (claimed_rows _ _ _ _ _ _ _ _ Hok Hfresh Hclaim) as (Hnd & Hin & _).
  pose proof (claim_update t tokens now lease limit types Hok Hfresh) as Hu. rewrite Hclaim in Hu.
  apply table_update_ok in Hu as Ht'; [|done]. cbn [fst] in Ht'.
  split; [|split; [done|]].
  - unfold claim in Hclaim. injection Hclaim as _ <-. rewrite length_zip_with. unfold candidates.
    rewrite length_take. lia.
  - intros m' Hm'. destruct (Hin m' Hm') as (m & token & Hcand & Htok & -> & Hm & Hs & Hrow).
    destruct (elem_of_candidates _ _ _ _ _ Hok Hcand) as [_ Hclm]. cbn [leased Message_ID Message_LeaseToken].
    split; [done|]. split; [by exists m|]. split.
    + intros token2 call Htoken2 Hne. apply call_owner_lost; [by destruct (table_rows t Hok _ _ Hm) as [_ []]|done|].
      intros n (Hn & _ & Hnt). rewrite Hrow in Hn. injection Hn as <-. by cbn in Hnt.
    + intros tokens2 now2 lease2 limit2 types2 Hlt Hbad. unfold claim in Hbad. cbn [snd] in Hbad.
      apply list_elem_of_fmap in Hbad as (x & Hx & Hxin). apply list_elem_of_lookup_1 in Hxin as [i Hi].
      apply lookup_zip_with_Some in Hi as (n & tok2 & -> & Hi & _). apply list_elem_of_lookup_2 in Hi.
      destruct (elem_of_candidates _ _ _ _ _ Ht' Hi) as [Hn Hc]. cbn [leased Message_ID] in Hx.
      rewrite <- Hx, Hrow in Hn. injection Hn as <-.
      unfold claimable in Hc. cbn [leased Message_Status Message_LeaseExpiresAt from_option] in Hc.
      rewrite bool_decide_eq_false_2 in Hc by done. rewrite andb_true_iff in Hc. cbn in Hc.
      destruct Hc as [_ Hc]. unfold time_add in Hc. apply Z.leb_le in Hc. lia.
Qed.

(** ** Order of claims *)
Lemma claim_less_asym m n : claim_less m n = true → claim_less n m = false.
Proof.
  unfold claim_less. destruct (Z.eqb_spec (Message_AvailableAt m) (Message_AvailableAt n)) as [He|He].
  - rewrite He, Z.eqb_refl.
    destruct (Z.eqb_spec (Message_CreatedAt m) (Message_CreatedAt n)) as [Hc|Hc].
    + rewrite Hc, Z.eqb_refl. apply str_ltb_asym.
    + rewrite (proj2 (Z.eqb_neq (Message_CreatedAt n) _)) by done. rewrite Z.ltb_lt, Z.ltb_ge. lia.
  - rewrite (proj2 (Z.eqb_neq (Message_AvailableAt n) _)) by done. rewrite Z.ltb_lt, Z.ltb_ge. lia.
Qed.

Lemma claim_less_false m n :
  claim_less n m = false ↔
  Message_AvailableAt m < Message_AvailableAt n
  ∨ Message_AvailableAt m = Message_AvailableAt n
    ∧ (Message_CreatedAt m < Message_CreatedAt n
       ∨ Message_CreatedAt m = Message_CreatedAt n ∧ str_ltb (Message_ID n) (Message_ID m) = false).
Proof.
  unfold claim_less. destruct (Z.eqb_spec (Message_AvailableAt n) (Message_AvailableAt m)) as [He|He];
    [destruct (Z.eqb_spec (Message_CreatedAt n) (Message_CreatedAt m)) as [Hc|Hc]|];
    rewrite ?Z.ltb_ge; intuition lia.
Qed.

Lemma claim_less_trans a b c : le_by claim_less a b → le_by claim_less b c → le_by claim_less a c.
Proof.
  unfold le_by. rewrite !claim_less_false. rewrite !str_ltb_false.
  intros [?|[? [?|[? ?]]]] [?|[? [?|[? ?]]]]; try (left; lia); right; (split; [lia|]); try (left; lia).
  right. split; [lia|]. by etrans.
Qed.

Lemma leased_ids now expires (l : list Message) (tokens : list string) :
  (length l ≤ length tokens)%nat →
  Message_ID <$> zip_with (fun m token => leased now expires token m) l tokens = Message_ID <$> l.
Proof.
  revert tokens. induction l as [|m l IH]; intros [|token tokens] Hlen; simpl in *; try done; [lia|].
  f_equal. apply IH. lia.
Qed.

(** A claim takes the messages that have been due the longest: if a row that
    could be claimed is left behind, the batch is full and none of the rows in it
    comes after that row in the order of due time, creation time and identifier. *)
Theorem claim_takes_the_oldest (t t' : Table) (tokens : list string) (now : time) (lease : duration)
    (limit : nat) (types : option (list string)) (messages : list Message) (id : string) (m : Message)
    (Hok : table_ok t) (Htokens : (limit ≤ length tokens)%nat)
    (Hclaim : claim t tokens now lease limit types = (t', messages))
    (Hm : t !! id = Some m) (Hdue : claimable (timestamptz now) types m = true)
    (Hleft : id ∉ Message_ID <$> messages) :
  length messages = limit
  ∧ ∀ m', m' ∈ messages → ∃ taken, t !! Message_ID m' = Some taken ∧ claim_less m taken = false.
Proof.
  unfold claim in Hclaim. cbn zeta in Hclaim. injection Hclaim as _ Hmsgs.
  set (cs := candidates t (timestamptz now) limit types) in *.
  set (all := sort_by claim_less (filter (fun m => claimable (timestamptz now) types m = true) (map_to_list t).*2)) in *.
  assert (Hlen : (length cs ≤ limit)%nat) by (unfold cs, candidates; rewrite length_take; lia).
  assert (Hids : Message_ID <$> messages = Message_ID <$> cs).
  { rewrite <- Hmsgs. apply leased_ids. lia. }
  destruct (table_rows t Hok id m Hm) as [Hid _].
  assert (Hall : m ∈ all).
  { unfold all. rewrite (elem_of_sort_by claim_less). apply list_elem_of_filter. split; [done|].
    apply list_elem_of_fmap. exists (id, m). split; [done|]. by apply elem_of_map_to_list. }
  assert (Hrest : m ∈ drop limit all).
  { rewrite <- (take_drop limit all) in Hall. apply elem_of_app in Hall as [Hall|Hall]; [|done].
    destruct Hleft. rewrite Hids, <- Hid. by apply list_elem_of_fmap_2. }
  split.
  - apply (f_equal length) in Hids. rewrite !length_fmap in Hids. rewrite Hids. unfold cs, candidates. fold all.
    rewrite length_take. apply list_elem_of_lookup_1 in Hrest as [i Hi]. apply lookup_lt_Some in Hi.
    rewrite length_drop in Hi. lia.
  - intros m' Hm'. apply (list_elem_of_fmap_2 Message_ID) in Hm'. rewrite Hids in Hm'.
    apply list_elem_of_fmap in Hm' as (taken & -> & Htaken). exists taken.
    split; [by destruct (elem_of_candidates _ _ _ _ _ Hok Htaken)|].
    pose proof (sort_by_sorted claim_less claim_less_trans claim_less_asym
      (filter (fun m => claimable (timestamptz now) types m = true) (map_to_list t).*2)) as Hsorted.
    fold all in Hsorted. rewrite <- (take_drop limit all) in Hsorted.
    by apply (StronglySorted_app_1_elem_of _ _ _ _ _ Hsorted Htaken Hrest).
Qed.

(** Enqueueing is idempotent: once a message is stored, enqueueing it again
    changes nothing and reports that nothing was stored, and any message under the
    same idempotency key that differs from it is a conflict that changes nothing. *)
Theorem enqueue_is_idempotent (t t' : Table) (message : Message)
    (Hok : table_ok t) (Henqueue : EnqueueWith t message = (t', Ok true)) :
  EnqueueWith t' message = (t', Ok false)
  ∧ ∀ other new, Message_IdempotencyKey other = Message_IdempotencyKey message →
      Message_Validate other = Ok tt → stored other = Some new → ∀ row, stored message = Some row →
      EnqueueWith t' other = (t', if identical new row then Ok false else Err ErrIdempotencyConflict).
Proof.
  destruct (EnqueueWith_ok t message Hok) as [Hok' _]. rewrite Henqueue in Hok'. cbn [fst] in Hok'.
  unfold EnqueueWith in Henqueue.
  destruct (Message_Validate message) as [[]|] eqn:Hv; [|done].
  destruct (stored message) as [new|] eqn:Hnew; [|done].
  destruct (find_key t _) eqn:Hk; [by destruct (identical new _)|].
  destruct (constraints t new) eqn:Hc; [|done]. injection Henqueue as <-.
  assert (Hkey : Message_IdempotencyKey new = Message_IdempotencyKey message).
  { unfold stored in Hnew. apply bind_Some in Hnew as (? & _ & Hnew). apply bind_Some in Hnew as (? & _ & Hnew).
    by injection Hnew as <-. }
  assert (Hfind : find_key (<[Message_ID new := new]> t) (Message_IdempotencyKey message) = Some new).
  { apply find_key_Some; [done|]. by rewrite lookup_insert_eq. }
  split.
  - unfold EnqueueWith. rewrite Hv, Hnew, Hfind.
    assert (identical new new = true) as ->; [|done].
    unfold identical, same_tuple. by rewrite !bool_decide_eq_true_2, !jsonb_refl, !Z.eqb_refl.
  - intros other new' Hkey' Hv' Hnew' row [= <-]. unfold EnqueueWith. by rewrite Hv', Hnew', Hkey', Hfind.
Qed.
End TableFacts.

(** ** Backoff *)
Lemma double_delay_spec (maxBackoff : duration) (n : nat) (delay : duration) :
  0 < delay <= maxBackoff → maxBackoff <= int64_max →
  double_delay maxBackoff n delay = Z.min maxBackoff (delay * 2 ^ Z.of_nat n).
Proof.
  intros Hd Hmax. revert delay Hd. induction n as [|n IH]; intros delay Hd; [simpl; lia|].
  cbn [double_delay]. rewrite Nat2Z.inj_succ, Z.pow_succ_r by lia.
  pose proof (Z.pow_pos_nonneg 2 (Z.of_nat n) ltac:(lia) ltac:(lia)).
  destruct (Z.ltb_spec delay maxBackoff) as [Hlt|Hge]; [|nia].
  rewrite Z.quot_div_nonneg by lia.
  pose proof (Z.div_mod maxBackoff 2 ltac:(lia)). pose proof (Z.mod_pos_bound maxBackoff 2 ltac:(lia)).
  destruct (Z.ltb_spec (maxBackoff / 2) delay) as [Hhalf|Hhalf]; [nia|].
  unfold int64_max in *. rewrite wrap64_id by (unfold in_int64, int64_min, int64_max; rewrite andb_true_iff, !Z.leb_le; lia).
  rewrite IH by lia. f_equal. nia.
Qed.

Lemma NewWorker_Ok {W} (consumers : gmap string (option (Consumer W))) options clock unixNano w :
  NewWorker consumers options clock unixNano = Ok w →
  0 < WorkerOptions_BatchSize options ∧ 0 < WorkerOptions_Lease options
  ∧ 0 < WorkerOptions_BaseBackoff options <= WorkerOptions_MaxBackoff options
  ∧ w = mkWorker (omap id consumers) (sort_strings (map_to_list consumers).*1) (WorkerOptions_BatchSize options)
          (WorkerOptions_Lease options) (WorkerOptions_BaseBackoff options) (WorkerOptions_MaxBackoff options)
          (default (default_jitter unixNano) (WorkerOptions_Jitter options)) (default clock (WorkerOptions_Now options))
  ∧ ∀ key c, consumers !! key = Some c → key ≠ "" ∧ is_Some c.
Proof.
  unfold NewWorker. rewrite !guard_Ok. intros (Hopts & Hex & _ & Hw). injection Hw as <-.
  rewrite !orb_false_iff, !Z.leb_gt, Z.ltb_ge in Hopts. repeat split; try lia.
  - intros ->. eapply not_true_iff_false in Hex. apply Hex, existsb_exists.
    eexists. split; [by apply list_elem_of_In, elem_of_map_to_list|]. done.
  - destruct c as [c|]; [done|]. eapply not_true_iff_false in Hex. destruct Hex. apply existsb_exists.
    eexists. split; [by apply list_elem_of_In, elem_of_map_to_list|]. apply orb_true_r.
Qed.

(** A worker waits an exponentially growing delay before it retries: the base
    delay doubled for every attempt before this one, capped at the maximum, plus
    the jitter when it is positive, capped again; so never less than the base, never
    more than the maximum. The jitter must not overflow the sum. *)
Theorem backoff_doubles {W} (consumers : gmap string (option (Consumer W))) (options : WorkerOptions)
    (clock : time) (unixNano : string → Z) (w : Worker W) (id : string) (attempt : Z)
    (Hw : NewWorker consumers options clock unixNano = Ok w)
    (Hmax : in_int64 (WorkerOptions_MaxBackoff options) = true)
    (Hjitter : ∀ delay, 0 < delay <= WorkerOptions_MaxBackoff options →
       int64_min <= worker_jitter w id delay ∧ delay + worker_jitter w id delay <= int64_max) :
  let base := WorkerOptions_BaseBackoff options in
  let maxBackoff := WorkerOptions_MaxBackoff options in
  let delay := Z.min maxBackoff (base * 2 ^ (Z.max 1 attempt - 1)) in
  backoff w id attempt = Z.min maxBackoff (delay + Z.max 0 (worker_jitter w id delay))
  ∧ base <= backoff w id attempt <= maxBackoff.
Proof.
  destruct (NewWorker_Ok _ _ _ _ _ Hw) as (_ & _ & Hbase & -> & _).
  cbn [worker_jitter] in *. set (jitter := default _ _) in *. clearbody jitter. cbn zeta.
  set (base := WorkerOptions_BaseBackoff options) in *. set (maxB := WorkerOptions_MaxBackoff options) in *.
  apply andb_true_iff in Hmax as [_ Hmax%Z.leb_le]. unfold backoff.
  cbn [worker_jitter worker_maxBackoff worker_baseBackoff].
  replace (if attempt <? 1 then 1 else attempt) with (Z.max 1 attempt) by (destruct (Z.ltb_spec attempt 1); lia).
  rewrite double_delay_spec, Z2Nat.id by lia.
  set (delay := Z.min maxB (base * 2 ^ (Z.max 1 attempt - 1))).
  pose proof (Z.pow_pos_nonneg 2 (Z.max 1 attempt - 1) ltac:(lia) ltac:(lia)).
  assert (base <= delay <= maxB) by (unfold delay; nia). clearbody delay.
  rewrite (proj2 (Z.ltb_ge maxB delay)) by lia.
  specialize (Hjitter delay ltac:(lia)).
  replace (if jitter id delay <? 0 then 0 else jitter id delay) with (Z.max 0 (jitter id delay))
    by (destruct (Z.ltb_spec (jitter id delay) 0); lia).
  rewrite wrap64_id by (unfold in_int64, int64_min, int64_max in *; rewrite andb_true_iff, !Z.leb_le; lia).
  destruct (Z.ltb_spec maxB (delay + Z.max 0 (jitter id delay))); lia.
Qed.

(** ** The worker over the table *)

(** The table, the claims made so far (for the tokens to come), and whatever the
    consumers act on. *)
Record World (X : Type) := mkWorld {
  w_table : Table;
  w_tokens : nat;
  w_outside : X;
}.
Arguments mkWorld {X}.
Arguments w_table {X}.
Arguments w_tokens {X}.
Arguments w_outside {X}.

Section Worker.
Context `{Postgres} {X : Type} (fresh : nat → string).

Definition on_table (s : World X) (r : Table * option error) : World X * option error :=
  (mkWorld r.1 (w_tokens s) (w_outside s), r.2).

Definition next_tokens (s : World X) (limit : nat) : list string := fresh <$> seq (w_tokens s) limit.

#[export] Instance table_store : Store (World X) := {
  store_claim s now lease limit types :=
    let limit := Z.to_nat limit in
    let r := match types with
             | Some l => ClaimBusinessTypes (w_table s) (next_tokens s limit) now lease limit l
             | None => Claim (w_table s) (next_tokens s limit) now lease limit
             end in
    (mkWorld r.1 (w_tokens s + length r.2) (w_outside s), Ok r.2);
  store_Cancel s request := on_table s (CancelWith (w_table s) request);
  store_MarkApplied s id token now := on_table s (MarkAppliedWith (w_table s) id token now);
  store_MarkFailed s id token category failedAt nextAt dead :=
    on_table s (MarkFailed (w_table s) id token category failedAt nextAt dead);
  store_filters := true;
}.

(** What a consumer may do to the table while it handles a message: enqueue and
    change other rows is up to it as long as existing rows stay as they are, and it
    moves the row of the message only when it reports that it finalized it. *)
Definition touches (s s' : World X) (m : Message) (finalized : bool) : Prop :=
  table_ok (w_table s')
  ∧ (∀ id row, id ≠ Message_ID m → w_table s !! id = Some row → w_table s' !! id = Some row)
  ∧ ∃ row, w_table s' !! Message_ID m = Some row ∧ if finalized then row_step m row else row = m.

Definition reports_finalized (e : option error) : bool := from_option is_finalized false e.
Definition error_of {A} (r : result error A) : option error := match r with Err e => Some e | Ok _ => None end.

Definition good_consumer (c : Consumer (World X)) : Prop := ∀ s m,
  table_ok (w_table s) → w_table s !! Message_ID m = Some m →
  let (s1, decision) := consumer_CanApply c s m in
  let (s2, err) := consumer_Apply c s m in
  touches s s1 m (reports_finalized (error_of decision)) ∧ touches s s2 m (reports_finalized err).

(** The row a verdict leads to. *)
Definition settled (w : Worker (World X)) (m : Message) (v : verdict) (row : Message) : Prop :=
  row_step m row ∧
  match v with
  | Unsupported => Message_Status row = StatusDead
  | Terminal disposition => Message_Status row = StatusCanceled ∧ Message_TerminalDisposition row = disposition
  | Done => Message_Status row = StatusApplied
  | Finalized => True
  | Failed err =>
    Message_LastErrorCategory row = (classify err).1 ∧
    if (classify err).2 || (Message_MaxAttempts m <=? Message_Attempts m)
    then Message_Status row = StatusDead
    else Message_Status row = StatusPending
         ∧ Message_AvailableAt row
           = timestamptz (time_add (worker_now w) (backoff w (Message_ID m) (Message_Attempts m)))
  end.

Lemma touches_finalized s1 s2 s3 m f :
  touches s1 s2 m false → touches s2 s3 m f → touches s1 s3 m f.
Proof. intros (_ & H1 & _) (Ht & H2 & H3). split; [done|]. split; [eauto|done]. Qed.

Definition is_final (v : verdict) : bool := match v with Finalized => true | _ => false end.

Lemma consult_touches w s m c :
  worker_consumers w !! Message_BusinessType m = Some c → good_consumer c →
  table_ok (w_table s) → w_table s !! Message_ID m = Some m →
  touches s (consult w s m).1 m (is_final (consult w s m).2)
  ∧ (∀ disposition, (consult w s m).2 = Terminal disposition → validTerminalDisposition disposition = true).
Proof.
  intros Hc Hgc Hok Hm. unfold consult. rewrite Hc. pose proof (Hgc s m Hok Hm) as Hcan.
  destruct (consumer_CanApply c s m) as [s1 decision] eqn:Hca.
  destruct (consumer_Apply c s m) as [s0 err0]. destruct Hcan as [Hcan _].
  destruct decision as [d|e]; cbn [mbind result_bind].
  2:{ cbn in Hcan. destruct (is_finalized e); cbn; by split. }
  cbn in Hcan. unfold ApplyDecision_Validate.
  destruct (ApplyDecision_Apply d) eqn:Happly.
  - destruct (fail_if _ _) as [[]|e] eqn:Hf.
    + cbn [mbind result_bind]. rewrite Happly. destruct Hcan as (Hok1 & Hrows1 & row & Hrow & ->).
      pose proof (Hgc s1 m Hok1 Hrow) as Happ. destruct (consumer_CanApply c s1 m).
      destruct (consumer_Apply c s1 m) as [s2 [e|]]; destruct Happ as [_ Happ]; cbn in Happ.
      * assert (touches s s2 m (is_finalized e)).
        { eapply touches_finalized; [|done]. split; [done|]. split; [done|]. by exists m. }
        destruct (is_finalized e); cbn; by split.
      * split; [|done]. eapply touches_finalized; [|done]. split; [done|]. split; [done|]. by exists m.
    + apply fail_if_Err in Hf as [_ <-]. cbn. by split.
  - destruct (fail_if _ _) as [[]|e] eqn:Hf.
    + cbn [mbind result_bind]. rewrite Happly. cbn. split; [done|].
      intros ? [= <-]. apply fail_if_Ok in Hf. by bool_prop.
    + apply fail_if_Err in Hf as [_ <-]. cbn. by split.
Qed.

(** The world after the row of a message was rewritten. *)
Definition rewrites (m row : Message) (s s' : World X) : Prop :=
  s' = mkWorld (<[Message_ID m := row]> (w_table s)) (w_tokens s) (w_outside s).

(** An update of the row of a message by its owner. *)
Lemma settle_owned what w (s : World X) m v f :
  table_ok (w_table s) → w_table s !! Message_ID m = Some m → Message_Status m = StatusProcessing →
  settled w m v (f m) →
  ∃ s', stop_on (on_table s (update_owned what (w_table s) (Message_ID m) (Message_LeaseToken m) f)) = (s', Ok tt)
        ∧ table_ok (w_table s') ∧ rewrites m (f m) s s'.
Proof.
  intros Hok Hm Hp Hstep. destruct (table_rows _ Hok _ _ Hm) as [_ [Hid Htok _ _ _]].
  rewrite (update_owned_held _ _ _ _ _ m) by (try done; by apply Htok).
  eexists. split; [done|]. cbn [w_table fst]. split; [|done].
  eapply table_update_ok; [done|]. eapply table_update_insert; [done|]. by destruct Hstep.
Qed.

Lemma settle_settles w s m v :
  table_ok (w_table s) → Message_Status m = StatusProcessing →
  trim_space (Message_IdempotencyKey m) ≠ "" → time_is_zero (worker_now w) = false →
  (∀ disposition, v = Terminal disposition → validTerminalDisposition disposition = true) →
  (∃ row, w_table s !! Message_ID m = Some row ∧ if is_final v then row_step m row else row = m) →
  ∃ s' row, settle w (worker_now w) s m v = (s', Ok tt) ∧ table_ok (w_table s') ∧ settled w m v row
        ∧ if is_final v then s' = s ∧ w_table s !! Message_ID m = Some row else rewrites m row s s'.
Proof.
  intros Hok Hp Hkey Hnow Hterm (row & Hrow & Hv).
  destruct (is_final v) eqn:Hf.
  { destruct v; try done. by exists s, row. }
  subst row.
  destruct (table_rows _ Hok _ _ Hrow) as [_ Hmok]. destruct (row_valid_parts m Hmok) as [Hatt Hjson].
  pose proof (disposition_none m Hmok ltac:(by rewrite Hp)) as Hdisp.
  assert (Howned : ∀ what f, settled w m v (f m) →
    ∃ s' row, stop_on (on_table s (update_owned what (w_table s) (Message_ID m) (Message_LeaseToken m) f)) = (s', Ok tt)
      ∧ table_ok (w_table s') ∧ settled w m v row ∧ rewrites m row s s').
  { intros what f Hs. destruct (settle_owned what w s m v f Hok Hrow Hp Hs) as (s' & H1 & H2 & H3).
    by exists s', (f m). }
  destruct v as [|disposition| | |err]; try done; cbn [settle store_MarkFailed store_Cancel store_MarkApplied table_store].
  - apply Howned. split; [apply released_step; rewrite ?Hp; done|done].
  - unfold CancelWith, CancelRequest_Validate. cbn [CancelRequest_IdempotencyKey CancelRequest_Disposition
      CancelRequest_CanceledAt CancelRequest_TombstonePayload CancelRequest_LeaseToken].
    rewrite bool_decide_eq_false_2, (Hterm disposition), Hnow by done. cbn [orb negb fail_if mbind result_bind andb].
    destruct (table_rows _ Hok _ _ Hrow) as [_ [Hid Htok _ _ _]]. specialize (Htok Hp).
    assert (Hne : Message_LeaseToken m ≠ "") by (intros He; rewrite He, uuid_empty in Htok; done).
    rewrite decide_False, Htok by done.
    assert (find_key (w_table s) (Message_IdempotencyKey m) = Some m) as -> by (by apply find_key_Some).
    rewrite Hp. change (str_len "") with 0. cbn [Z.ltb Z.compare andb fail_if mbind result_bind].
    rewrite (bool_decide_eq_false_2 (Message_LeaseToken m = "")), (bool_decide_eq_true_2 (Message_LeaseToken m = _)) by done.
    rewrite (bool_decide_eq_true_2 (StatusProcessing = StatusProcessing)), andb_false_r by done. cbn [orb andb negb].
    eexists _, _. split; [reflexivity|]. cbn [w_table fst].
    match goal with |- table_ok (<[_ := ?r]> _) ∧ _ => assert (Hstep : row_step m r) end.
    { apply released_step; rewrite ?Hp; try done. cbn. by apply Hterm. }
    split; [eapply table_update_ok; [done|]; by eapply table_update_insert|]. by split.
  - apply Howned. split; [apply released_step; rewrite ?Hp; done|done].
  - destruct (classify err) as [category permanent] eqn:Hclass. cbn zeta.
    apply Howned. unfold settled. rewrite Hclass. cbn [fst snd].
    destruct (permanent || _); (split; [apply released_step; rewrite ?Hp; done|done]).
Qed.

(** *** What a run should do, told by what the consumers answer *)

(** The consumer of a message was asked and reports an error: it cannot tell
    whether the message applies, its decision is malformed, or applying fails. *)
Inductive reports_error (c : Consumer (World X)) (s : World X) (m : Message) : World X → error → Prop :=
| error_undecided s1 err : consumer_CanApply c s m = (s1, Err err) → reports_error c s m s1 err
| error_malformed s1 d err :
    consumer_CanApply c s m = (s1, Ok d) → ApplyDecision_Validate d = Err err → reports_error c s m s1 err
| error_applying s1 s2 d err :
    consumer_CanApply c s m = (s1, Ok d) → ApplyDecision_Validate d = Ok tt → ApplyDecision_Apply d = true →
    consumer_Apply c s1 m = (s2, Some err) → reports_error c s m s2 err.

(** [handles w c s m s' row]: from the world [s], the consumer [c] of the message
    [m] was asked, its calls had their effects, and [row] is what its answers
    make of the message. *)
Inductive handles (w : Worker (World X)) (c : Consumer (World X)) (s : World X) (m : Message)
  : World X → Message → Prop :=
| handles_applied s1 s2 s' d row :
    consumer_CanApply c s m = (s1, Ok d) → ApplyDecision_Apply d = true →
    consumer_Apply c s1 m = (s2, None) →
    rewrites m row s2 s' → Message_Status row = StatusApplied → handles w c s m s' row
| handles_declined s1 s' d row :
    consumer_CanApply c s m = (s1, Ok d) → ApplyDecision_Apply d = false →
    validTerminalDisposition (ApplyDecision_TerminalDisposition d) = true →
    rewrites m row s1 s' → Message_Status row = StatusCanceled →
    Message_TerminalDisposition row = ApplyDecision_TerminalDisposition d → handles w c s m s' row
| handles_finalized s' err row :
    reports_error c s m s' err → is_finalized err = true →
    w_table s' !! Message_ID m = Some row → handles w c s m s' row
| handles_dead s1 s' err row :
    reports_error c s m s1 err → is_finalized err = false →
    (classify err).2 = true ∨ Message_MaxAttempts m <= Message_Attempts m →
    rewrites m row s1 s' → Message_Status row = StatusDead →
    Message_LastErrorCategory row = (classify err).1 → handles w c s m s' row
| handles_retried s1 s' err row :
    reports_error c s m s1 err → is_finalized err = false →
    (classify err).2 = false → Message_Attempts m < Message_MaxAttempts m →
    rewrites m row s1 s' → Message_Status row = StatusPending →
    Message_LastErrorCategory row = (classify err).1 →
    Message_AvailableAt row
    = timestamptz (time_add (worker_now w) (backoff w (Message_ID m) (Message_Attempts m))) →
    handles w c s m s' row.

(** The messages in order, each by the consumer of its business type. *)
Inductive handled (w : Worker (World X)) : World X → list Message → World X → list Message → Prop :=
| handled_nil s : handled w s [] s []
| handled_cons s m c s1 row messages s' rows :
    worker_consumers w !! Message_BusinessType m = Some c →
    handles w c s m s1 row → handled w s1 messages s' rows →
    handled w s (m :: messages) s' (row :: rows).

(** A failure becomes a dead or a retried row. *)
Lemma failed_handles w c s m s1 s' err row :
  reports_error c s m s1 err → is_finalized err = false → rewrites m row s1 s' →
  (Message_LastErrorCategory row = (classify err).1 ∧
   if (classify err).2 || (Message_MaxAttempts m <=? Message_Attempts m)
   then Message_Status row = StatusDead
   else Message_Status row = StatusPending
        ∧ Message_AvailableAt row
          = timestamptz (time_add (worker_now w) (backoff w (Message_ID m) (Message_Attempts m)))) →
  handles w c s m s' row.
Proof.
  intros Herr Hf Hs [Hcat Hset].
  destruct (_ || _) eqn:Hor.
  - eapply handles_dead; try done. by rewrite orb_true_iff, Z.leb_le in Hor.
  - apply orb_false_iff in Hor as [Hp Ha%Z.leb_gt]. destruct Hset. by eapply handles_retried.
Qed.

(** The business types a worker claims are those it has consumers for. *)
Lemma claimed_has_consumer (consumers : gmap string (option (Consumer (World X)))) options clock unixNano w key :
  NewWorker consumers options clock unixNano = Ok w → key ∈ worker_businessTypes w →
  is_Some (worker_consumers w !! key).
Proof.
  intros Hw Hkey. destruct (NewWorker_Ok _ _ _ _ _ Hw) as (_ & _ & _ & -> & Hall).
  cbn [worker_businessTypes worker_consumers] in *. unfold sort_strings in Hkey.
  apply elem_of_sort_by, list_elem_of_fmap in Hkey as ([key' c] & -> & Hc%elem_of_map_to_list).
  cbn [fst]. rewrite lookup_omap, Hc. destruct (Hall _ _ Hc) as [_ [c' ->]]. by eexists.
Qed.

Lemma handle_message w s m c :
  worker_consumers w !! Message_BusinessType m = Some c → good_consumer c →
  time_is_zero (worker_now w) = false → table_ok (w_table s) →
  w_table s !! Message_ID m = Some m → Message_Status m = StatusProcessing →
  trim_space (Message_IdempotencyKey m) ≠ "" →
  ∃ s' row, (let (s1, v) := consult w s m in settle w (worker_now w) s1 m v) = (s', Ok tt)
    ∧ handles w c s m s' row ∧ row_step m row ∧ table_ok (w_table s') ∧ w_table s' !! Message_ID m = Some row
    ∧ ∀ id r, id ≠ Message_ID m → w_table s !! id = Some r → w_table s' !! id = Some r.
Proof.
  intros Hc Hgc Hnow Hok Hrow Hp Hkey.
  destruct (consult_touches w s m c Hc Hgc Hok Hrow) as ((Hok1 & Hrest1 & Hrow1) & Hterm).
  destruct (consult w s m) as [s1 v] eqn:Hv. cbn [fst snd] in *.
  destruct (settle_settles w s1 m v Hok1 Hp Hkey Hnow Hterm Hrow1) as (s' & row & -> & Hok' & Hset & Hs').
  exists s', row. split; [done|]. split; [|split; [by destruct Hset|split; [done|]]].
  2:{ destruct (is_final v); [destruct Hs' as [-> Hr]; by split|]. unfold rewrites in Hs'. subst s'.
      cbn [w_table]. split; [by rewrite lookup_insert_eq|].
      intros id r Hne Hr. rewrite lookup_insert_ne by done. by apply Hrest1. }
  unfold consult in Hv. rewrite Hc in Hv. destruct Hset as [_ Hset].
  destruct (consumer_CanApply c s m) as [s0 [d|err]] eqn:Hcan; cbn [mbind result_bind] in Hv.
  - destruct (ApplyDecision_Validate d) as [[]|err] eqn:Hd; cbn [mbind result_bind] in Hv.
    + destruct (ApplyDecision_Apply d) eqn:Ha.
      * destruct (consumer_Apply c s0 m) as [s2 [err|]] eqn:Happ.
        -- assert (reports_error c s m s2 err) as Herr by by eapply error_applying.
           destruct (is_finalized err) eqn:Hf; injection Hv as <- <-.
           ++ destruct Hs' as [-> Hr]. by eapply handles_finalized.
           ++ by eapply failed_handles.
        -- injection Hv as <- <-. by eapply handles_applied.
      * injection Hv as <- <-. eapply handles_declined; try done; [|by destruct Hset..]. by apply Hterm.
    + assert (reports_error c s m s0 err) as Herr by by eapply error_malformed.
      destruct (is_finalized err) eqn:Hf; injection Hv as <- <-.
      * destruct Hs' as [-> Hr]. by eapply handles_finalized.
      * by eapply failed_handles.
  - assert (reports_error c s m s0 err) as Herr by by apply error_undecided.
    destruct (is_finalized err) eqn:Hf; injection Hv as <- <-.
    + destruct Hs' as [-> Hr]. by eapply handles_finalized.
    + by eapply failed_handles.
Qed.

Lemma process_settles w messages s :
  (∀ key c, worker_consumers w !! key = Some c → good_consumer c) →
  time_is_zero (worker_now w) = false →
  table_ok (w_table s) → NoDup (Message_ID <$> messages) →
  (∀ m, m ∈ messages → is_Some (worker_consumers w !! Message_BusinessType m)
     ∧ w_table s !! Message_ID m = Some m ∧ Message_Status m = StatusProcessing
     ∧ trim_space (Message_IdempotencyKey m) ≠ "") →
  ∃ s' rows, process w (worker_now w) s messages = (s', Ok tt) ∧ table_ok (w_table s')
        ∧ handled w s messages s' rows
        ∧ Forall2 (fun m row => w_table s' !! Message_ID m = Some row ∧ row_step m row) messages rows
        ∧ ∀ id row, id ∉ Message_ID <$> messages → w_table s !! id = Some row → w_table s' !! id = Some row.
Proof.
  intros Hgood Hnow. revert s. induction messages as [|m l IH]; intros s Hok Hnd Hl.
  { exists s, []. split; [done|]. split; [done|]. split; [constructor|]. by split. }
  rewrite fmap_cons in Hnd. apply NoDup_cons in Hnd as [Hm Hnd].
  destruct (Hl m ltac:(left)) as ([c Hc] & Hrow & Hp & Hkey).
  destruct (handle_message w s m c Hc (Hgood _ _ Hc) Hnow Hok Hrow Hp Hkey)
    as (s1 & row & Hrun & Hhandles & Hstep & Hok1 & Hrow1 & Hrest1).
  cbn [process]. destruct (consult w s m) as [s0 v]. rewrite Hrun.
  assert (Hkept : ∀ m', m' ∈ l → Message_ID m' ≠ Message_ID m).
  { intros m' Hm' He. apply Hm. rewrite <- He. by apply list_elem_of_fmap_2. }
  destruct (IH s1 Hok1 Hnd) as (s' & rows & -> & Hok' & Hhandled & Hrows & Hout).
  { intros m' Hm'. destruct (Hl m' ltac:(by right)) as (? & Hr & ? & ?). split; [done|]. split; [|done]. eauto. }
  exists s', (row :: rows). split; [done|]. split; [done|]. split; [by econstructor|]. split.
  - constructor; [|done]. split; [|done]. by apply Hout.
  - intros id r Hid. rewrite fmap_cons in Hid. apply not_elem_of_cons in Hid as [Hne Hid]. eauto.
Qed.

(** C3. One run of a worker returns, without an error, the number of messages it
    claimed, and none of them is left under its lease. They are handled in order,
    each by the consumer registered for its business type, which is asked whether
    the message applies: when it does, the consumer is made to apply it, and a
    message applied without an error is marked applied; a message it declines is
    canceled with the disposition it gave; a message it finalized itself stays as
    the consumer left it; any other error makes it dead when the error is permanent
    or the attempts are used up, pending again after the backoff otherwise. The
    effects of the consumers' calls are kept, and the rows that were not claimed
    are as they were. For a worker [NewWorker] built, a table that satisfies the
    schema and whose idempotency keys are not blank, lease tokens that are fresh, a
    clock that is not the zero time, and consumers that leave the existing rows of
    the table alone except the row of a message they report as finalized. *)
Theorem RunOnce_settles (consumers : gmap string (option (Consumer (World X)))) (options : WorkerOptions)
    (clock : time) (unixNano : string → Z) (w : Worker (World X)) (s : World X)
    (Hw : NewWorker consumers options clock unixNano = Ok w)
    (Hgood : ∀ key c, worker_consumers w !! key = Some c → good_consumer c)
    (Hnow : time_is_zero (worker_now w) = false)
    (Hok : table_ok (w_table s))
    (Hfresh : fresh_tokens (w_table s) (next_tokens s (Z.to_nat (worker_batchSize w))))
    (Hkeys : ∀ id m, w_table s !! id = Some m → trim_space (Message_IdempotencyKey m) ≠ "") :
  let '(claimed, messages) :=
    claim (w_table s) (next_tokens s (Z.to_nat (worker_batchSize w))) (worker_now w) (worker_lease w)
      (Z.to_nat (worker_batchSize w)) (Some (worker_businessTypes w)) in
  ∃ s' rows,
    RunOnce w s = (s', Ok (Z.of_nat (length messages))) ∧ table_ok (w_table s')
    ∧ handled w (mkWorld claimed (w_tokens s + length messages) (w_outside s)) messages s' rows
    ∧ Forall2 (fun m row => w_table s' !! Message_ID m = Some row ∧ row_step m row) messages rows
    ∧ ∀ id row, id ∉ Message_ID <$> messages → w_table s !! id = Some row → w_table s' !! id = Some row.
Proof.
  destruct (claim (w_table s) _ _ _ _ _) as [t messages] eqn:Hclaim.
  destruct (claimed_rows _ _ _ _ _ _ _ _ Hok Hfresh Hclaim) as (Hnd & Hin & Hout).
  pose proof (claim_update _ _ (worker_now w) (worker_lease w) (Z.to_nat (worker_batchSize w))
    (Some (worker_businessTypes w)) Hok Hfresh) as Ht.
  rewrite Hclaim in Ht. apply table_update_ok in Ht; [|done]. cbn [fst] in Ht.
  assert (Hsome : is_nil (worker_businessTypes w) = false).
  { unfold NewWorker in Hw. rewrite !guard_Ok in Hw. destruct Hw as (_ & _ & Hnil & [= <-]).
    cbn [worker_businessTypes]. apply is_nil_false. apply is_nil_false in Hnil. intros He.
    apply Hnil, Permutation_nil_r. rewrite <- He. symmetry. apply sort_by_Permutation. }
  destruct (process_settles w messages (mkWorld t (w_tokens s + length messages) (w_outside s)))
    as (s' & rows & Hprocess & Hok' & Hhandled & Hrows & Hrest); [done..| |].
  { intros m' Hm'. destruct (Hin m' Hm') as (m & token & Hcand & _ & -> & Hm & _ & Hm1).
    split; [|split; [done|split; [done|by apply (Hkeys _ _ Hm)]]].
    destruct (elem_of_candidates _ _ _ _ _ Hok Hcand) as [_ Hc]. unfold claimable in Hc.
    apply andb_true_iff in Hc as [Hc%bool_decide_eq_true _]. by eapply claimed_has_consumer. }
  exists s', rows. split.
  { unfold RunOnce. cbn [store_claim store_filters table_store]. unfold ClaimBusinessTypes.
    rewrite Hsome, Hclaim. cbn [fst snd]. by rewrite Hprocess. }
  split; [done|]. split; [done|]. split; [done|].
  intros id row Hid Hrow. apply Hrest; [done|]. cbn [w_table]. by rewrite Hout.
Qed.
End Worker.

Module Samples.
#[export] Instance sample_postgres : Postgres.
Proof.
  refine {| jsonb_eq a b := bool_decide (a = b);
            uuid s := if decide (s = "") then None else Some s;
            timestamptz t := t / 1000 * 1000 |}.
  - intros v. by apply bool_decide_eq_true.
  - intros s u H. case_decide; [done|]. injection H as <-. by rewrite decide_False.
  - done.
Defined.

Definition noon : time := 1700000000 * second.

Definition sample_input : NewMessageInput := mkNewMessageInput " memory " "a-1" "key-1" 1 1 "{}" "" 3.
Definition sample_message : Message :=
  match NewMessage (Some (repeat 17 16)) sample_input noon with Ok m => m | Err _ => mkMessage "" "" "" "" 0 0 "" "" StatusPending 0 0 0 "" None no_disposition None "" 0 0 end.

Definition sample_table : Table := operate ∅ (OpEnqueue sample_message).
Definition sample_claim : Table * list Message := claim sample_table ["t-0"] (noon + second) minute 1 (Some ["memory"]).
Definition sample_leased : Message := default sample_message (head sample_claim.2).
Definition sample_applied : Table := operate sample_claim.1 (OpApplied (Message_ID sample_leased) "t-0" (noon + 2 * second)).

Lemma sample_enqueue : operation_step ∅ sample_table.
Proof. by exists (OpEnqueue sample_message). Qed.

Lemma sample_all (P : Message → bool) (t : Table) :
  forallb (fun kv => P kv.2) (map_to_list t) = true → ∀ id m, t !! id = Some m → P m = true.
Proof.
  rewrite forallb_forall. intros Hall id m Hm%elem_of_map_to_list%list_elem_of_In. apply (Hall _ Hm).
Qed.

Lemma sample_fresh tokens t :
  bool_decide (NoDup tokens) && forallb (fun token => bool_decide (uuid token = Some token)) tokens
  && forallb (fun kv => bool_decide (Message_LeaseToken kv.2 ∉ tokens)) (map_to_list t) = true →
  fresh_tokens t tokens.
Proof.
  rewrite !andb_true_iff, bool_decide_eq_true, (forallb_forall _ tokens). intros [[H1 H2] H3].
  split; [done|]. split.
  - apply Forall_forall. intros token Ht. apply list_elem_of_In in Ht. by specialize (H2 _ Ht); bool_prop.
  - intros id m Hm. pose proof (sample_all (fun m => bool_decide (Message_LeaseToken m ∉ tokens)) t H3 id m Hm) as Hk.
    cbn beta in Hk. by bool_prop.
Qed.

Lemma sample_claims : operation_step sample_table sample_claim.1.
Proof.
  exists (OpClaim ["t-0"] (noon + second) minute 1 (Some ["memory"])). split; [done|].
  apply sample_fresh. vm_compute. done.
Qed.

Definition sample_consumer : Consumer (World unit) :=
  mkConsumer (fun s _ => (s, Ok (mkApplyDecision true no_disposition)))
    (fun s m => (s, if decide (Message_Payload m = "{}") then None else Some ErrNotFound)).

Definition sample_options : WorkerOptions :=
  mkWorkerOptions 10 minute second hour (Some (fun _ delay => Z.quot delay 4)) (Some (noon + second)).

Definition sample_consumers : gmap string (option (Consumer (World unit))) := {[ "memory" := Some sample_consumer ]}.

Definition sample_worker : Worker (World unit) :=
  mkWorker (omap id sample_consumers) (sort_strings (map_to_list sample_consumers).*1) 10 minute second hour
    (fun _ delay => Z.quot delay 4) (noon + second).

Lemma sample_worker_ok : NewWorker sample_consumers sample_options noon (fun _ => 0) = Ok sample_worker.
Proof. reflexivity. Qed.

Lemma sample_good : good_consumer sample_consumer.
Proof.
  intros s m Hok Hm. cbn. assert (touches s s m false) by (split; [done|]; split; [done|]; by exists m).
  split; [done|]. destruct (decide _); done.
Qed.

Definition sample_tokens (n : nat) : string := String (ascii_of_nat (33 + n)) "".

(** A run of the sample worker, evaluated: the message is applied. *)
Example sample_run :
  let s := mkWorld sample_table 0 tt in
  let r := @RunOnce _ (table_store sample_tokens) sample_worker s in
  r.2 = Ok 1 ∧ Message_Status <$> (map_to_list (w_table r.1)).*2 = [StatusApplied].
Proof. by vm_compute. Qed.
End Samples.

Import Samples.

Definition sample_redaction : LocalRedactionRequest :=
  mkLocalRedactionRequest "e-1" StoreInboxOutbox "r-1" 2 5.

Example applied_is_redacted :
  let r := RedactTx sample_applied (Ok "permit") noon sample_redaction in
  r.2 = None ∧ Message_Status <$> (map_to_list sample_applied).*2 = [StatusApplied]
  ∧ (fun m => (Message_Status m, Message_TerminalDisposition m, Message_AuditMetadata m)) <$> (map_to_list r.1).*2
    = [(StatusCanceled, DispositionPrivacyErasure, "{}")].
Proof. by vm_compute. Qed.

Lemma sample_history : rtc operation_step ∅ sample_applied.
Proof.
  eapply rtc_l; [apply sample_enqueue|]. eapply rtc_l; [apply sample_claims|]. apply rtc_once. by eexists.
Qed.

Lemma rows_follow_state_machine_witness :
  (∀ id m, sample_table !! id = Some m → ∃ m', sample_claim.1 !! id = Some m' ∧ row_update m m')
  ∧ VerifyRedacted (operate sample_applied (OpRedact (Ok "permit") noon sample_redaction)) sample_redaction = Ok 0.
Proof.
  split.
  - apply (rows_follow_state_machine sample_table (OpClaim ["t-0"] (noon + second) minute 1 (Some ["memory"]))).
    + apply rtc_once, sample_enqueue.
    + apply sample_fresh. by vm_compute.
  - apply (rows_follow_state_machine sample_applied (OpRedact (Ok "permit") noon sample_redaction)); [|done|].
    + apply sample_history.
    + split; [by vm_compute|]. by exists "permit".
Defined.

Lemma finished_rows_are_final_witness :
  ∃ m m', sample_applied !! Message_ID sample_leased = Some m ∧ Message_Status m = StatusApplied
       ∧ operate sample_applied (OpCancel (mkCancelRequest "key-1" "" DispositionDeleted "" noon))
           !! Message_ID sample_leased = Some m'
       ∧ (m' = m ∨ delivery m' = delivery m ∧ erased m').
Proof.
  exists (default sample_message (sample_applied !! Message_ID sample_leased)).
  destruct (finished_rows_are_final sample_applied
    (operate sample_applied (OpCancel (mkCancelRequest "key-1" "" DispositionDeleted "" noon)))
    (Message_ID sample_leased) (default sample_message (sample_applied !! Message_ID sample_leased)))
    as (m' & Hm' & Hor).
  - apply sample_history.
  - apply rtc_once. by eexists.
  - by vm_compute.
  - left. by vm_compute.
  - exists m'. split; [by vm_compute|]. split; [by vm_compute|]. by split.
Defined.

Lemma lease_ownership_witness :
  let '(t', err) := call_owner sample_claim.1 (Message_ID sample_leased) "t-0" (CallApplied (noon + 2 * second)) in
  (err = None ↔ ∃ m, holds sample_claim.1 (Message_ID sample_leased) "t-0" m)
  ∧ (err = None → ∃ m', t' = <[Message_ID sample_leased := m']> sample_claim.1
      ∧ Message_Status m' = call_status (CallApplied (noon + 2 * second))
      ∧ ∀ again, (call_owner t' (Message_ID sample_leased) "t-0" again).1 = t'
                 ∧ (call_owner t' (Message_ID sample_leased) "t-0" again).2 ≠ None)
  ∧ (err ≠ None → err = Some ErrLeaseLost ∧ t' = sample_claim.1).
Proof.
  apply (lease_ownership sample_claim.1 (Message_ID sample_leased) "t-0" (CallApplied (noon + 2 * second)));
    [by vm_compute|by vm_compute|done].
Defined.

Lemma claim_is_exclusive_witness :
  sample_claim.2 ≠ [] ∧ (length sample_claim.2 ≤ 1)%nat.
Proof.
  split; [by vm_compute|].
  apply (claim_is_exclusive sample_table sample_claim.1 ["t-0"] (noon + second) minute 1 (Some ["memory"]) sample_claim.2).
  - apply reachable_ok, rtc_once, sample_enqueue.
  - apply sample_fresh. by vm_compute.
  - symmetry. apply surjective_pairing.
Defined.

Lemma claim_takes_the_oldest_witness :
  length (claim sample_table ["t-0"] (noon + second) minute 0 None).2 = 0%nat
  ∧ ∀ m', m' ∈ (claim sample_table ["t-0"] (noon + second) minute 0 None).2 →
      ∃ taken, sample_table !! Message_ID m' = Some taken ∧ claim_less sample_message taken = false.
Proof.
  apply (claim_takes_the_oldest sample_table (claim sample_table ["t-0"] (noon + second) minute 0 None).1
    ["t-0"] (noon + second) minute 0 None _ (Message_ID sample_message) sample_message).
  - apply reachable_ok, rtc_once, sample_enqueue.
  - simpl. lia.
  - apply surjective_pairing.
  - by vm_compute.
  - by vm_compute.
  - vm_compute. by intros ?%not_elem_of_nil.
Defined.

Lemma enqueue_is_idempotent_witness :
  EnqueueWith sample_table sample_message = (sample_table, Ok false).
Proof.
  apply (enqueue_is_idempotent ∅ sample_table sample_message); [apply table_ok_empty|].
  rewrite (surjective_pairing (EnqueueWith ∅ sample_message)).
  assert ((EnqueueWith ∅ sample_message).2 = Ok true) as -> by (by vm_compute). reflexivity.
Defined.

Lemma backoff_doubles_witness :
  backoff sample_worker "m" 3 = Z.min hour (Z.min hour (second * 4) + Z.max 0 (Z.quot (Z.min hour (second * 4)) 4)).
Proof.
  apply (backoff_doubles sample_consumers sample_options noon (fun _ => 0) sample_worker "m" 3).
  - apply sample_worker_ok.
  - by vm_compute.
  - intros delay Hd. cbn [worker_jitter sample_worker sample_options WorkerOptions_MaxBackoff] in *.
    rewrite Z.quot_div_nonneg by lia. unfold hour, minute, second, int64_min, int64_max in *.
    pose proof (Z.div_pos delay 4 ltac:(lia) ltac:(lia)). pose proof (Z.div_le_upper_bound delay 4 delay ltac:(lia) ltac:(lia)). lia.
Defined.

Lemma RunOnce_settles_witness :
  ∃ s' rows, @RunOnce _ (table_store sample_tokens) sample_worker (mkWorld sample_table 0 tt) = (s', Ok 1)
    ∧ length (rows : list Message) = 1%nat.
Proof.
  pose proof (RunOnce_settles sample_tokens sample_consumers sample_options noon (fun _ => 0) sample_worker
    (mkWorld sample_table 0 tt)) as Hrun.
  destruct (claim _ _ _ _ _ _) as [claimed messages] eqn:Hclaim.
  assert (messages = (claimed, messages).2) as Hm by reflexivity. rewrite <- Hclaim in Hm.
  destruct Hrun as (s' & rows & Hr & _ & _ & Hrows & _).
  - apply sample_worker_ok.
  - intros key c Hc. unfold sample_worker, sample_consumers in Hc. cbn [worker_consumers] in Hc.
    rewrite lookup_omap, bind_Some in Hc. destruct Hc as (o & Ho & Hc).
    apply lookup_singleton_Some in Ho as [_ <-]. injection Hc as <-. apply sample_good.
  - by vm_compute.
  - apply reachable_ok, rtc_once, sample_enqueue.
  - apply sample_fresh. by vm_compute.
  - intros id m Hid.
    pose proof (sample_all (fun m => negb (bool_decide (trim_space (Message_IdempotencyKey m) = ""))) sample_table
      ltac:(by vm_compute) id m Hid) as Hk. cbn beta in Hk. by bool_prop.
  - assert (length messages = 1%nat) as Hlen by (rewrite Hm; by vm_compute).
    exists s', rows. split; [by rewrite Hr, Hlen|]. apply Forall2_length in Hrows. by rewrite <- Hrows.
Defined.

(** When the cap is near the largest duration, the sum of delay and jitter wraps
    around and the backoff is negative. *)
Definition extreme_options : WorkerOptions :=
  mkWorkerOptions 10 minute int64_max int64_max (Some (fun _ _ => second)) (Some noon).

Example backoff_overflows :
  match NewWorker sample_consumers extreme_options noon (fun _ => 0) with
  | Ok w => backoff w "m" 1 <? 0
  | Err _ => false
  end = true.
Proof. by vm_compute. Qed.
