(* ===== verification/AgentMessages.v ===== *)
(** * Messages of the agent core

    [packages/agentcore/modelclient/types.go], [agentlimits], [validation.go] and
    the message helpers of [context_types.go]: the data exchanged with a model,
    the limits a model response must respect, and the split of a conversation
    into turns. *)
From S2P Require Import Prelude GoStd.

(** ** Data (modelclient/types.go) *)
Definition StreamEventKind : Type := string.
Definition StreamEventResponseStarted : StreamEventKind := "response_started".
Definition StreamEventTextDelta : StreamEventKind := "text_delta".
Definition StreamEventReasoningDelta : StreamEventKind := "reasoning_delta".
Definition StreamEventResponseActivity : StreamEventKind := "response_activity".
Definition StreamEventCompatibilityFallback : StreamEventKind := "compatibility_fallback".

Record ToolFunction := mkToolFunction {
  ToolFunction_Name : string;
  ToolFunction_Arguments : string;
}.

Record ToolCall := mkToolCall {
  ToolCall_ID : string;
  ToolCall_Type : string;
  ToolCall_Function : ToolFunction;
}.

Record Message := mkMessage {
  Message_Role : string;
  Message_Content : string;
  Message_ToolCalls : list ToolCall;
  Message_ToolCallID : string;
}.

Record ToolDefinition := mkToolDefinition {
  ToolDefinition_Name : string;
  ToolDefinition_Description : string;
  ToolDefinition_Parameters : string;
}.

Record Tool := mkTool {
  Tool_Type : string;
  Tool_Function : ToolDefinition;
}.

Record Request := mkRequest {
  Request_Messages : list Message;
  Request_Tools : list Tool;
  Request_MaxTokens : Z;
  Request_ReasoningEffort : string;
}.

Record PromptTokensDetails := mkPromptTokensDetails {
  PromptTokensDetails_CachedTokens : option Z;
  PromptTokensDetails_CacheCreationTokens : option Z;
  PromptTokensDetails_CacheWriteTokens : option Z;
}.

Record Usage := mkUsage {
  Usage_PromptTokens : Z;
  Usage_CompletionTokens : Z;
  Usage_TotalTokens : Z;
  Usage_PromptTokensDetails : option PromptTokensDetails;
  Usage_PromptCacheHitTokens : option Z;
  Usage_PromptCacheMissTokens : option Z;
}.

Record Response := mkResponse {
  Response_Message : Message;
  Response_FinishReason : string;
  Response_Usage : option Usage;
  Response_CompatibilityFallback : bool;
}.

Record StreamEvent := mkStreamEvent {
  StreamEvent_Kind : StreamEventKind;
  StreamEvent_Text : string;
  StreamEvent_ReceivedAt : time;
}.

#[export] Instance ToolFunction_eq_dec : EqDecision ToolFunction.
Proof. solve_decision. Defined.
#[export] Instance ToolCall_eq_dec : EqDecision ToolCall.
Proof. solve_decision. Defined.
#[export] Instance Message_eq_dec : EqDecision Message.
Proof. solve_decision. Defined.

(** Errors, by message. *)
Inductive error : Type :=
| ErrorNew (message : string)
| ClientError (code message : string)
| ContextError (code message : string)
| ErrorCanceled
| ErrorForeign (name : string).

(** ** Cache usage reported by a provider *)

(** [!reported], a contradiction, or the tokens read from the cache. *)
Definition in_prompt (u : Usage) (value : Z) : bool := (0 <=? value) && (value <=? Usage_PromptTokens u).

(** The loop over the creation and write counters: [None] on an invalid one. *)
Fixpoint cache_writes (u : Usage) (values : list (option Z)) (reported : bool) (cacheNonRead : Z)
  : option (bool * Z) :=
  match values with
  | [] => Some (reported, cacheNonRead)
  | None :: values => cache_writes u values reported cacheNonRead
  | Some value :: values =>
    if in_prompt u value then cache_writes u values true (Z.max cacheNonRead value) else None
  end.

(** The result of [normalizedCacheUsage]: [(cacheRead, reported, valid)]. *)
Definition normalizedCacheUsage (u : Usage) : Z * bool * bool :=
  let invalid := (0, true, false) in
  let nested := d ← Usage_PromptTokensDetails u; PromptTokensDetails_CachedTokens d in
  let written := match Usage_PromptTokensDetails u with
                 | Some d => cache_writes u [PromptTokensDetails_CacheCreationTokens d;
                                             PromptTokensDetails_CacheWriteTokens d] false 0
                 | None => Some (false, 0)
                 end in
  match written with
  | None => invalid
  | Some (reported, cacheNonRead) =>
    match cache_writes u [Usage_PromptCacheMissTokens u] reported cacheNonRead with
    | None => invalid
    | Some (reported, cacheNonRead) =>
      let '(cacheRead, reported) := match nested with Some n => (n, true) | None => (0, reported) end in
      let finish cacheRead reported :=
        if negb reported then (0, false, true)
        else if (cacheRead <? 0) || (Usage_PromptTokens u <? cacheRead)
                || (Usage_PromptTokens u - cacheNonRead <? cacheRead) then invalid
        else (cacheRead, true, true) in
      match Usage_PromptCacheHitTokens u with
      | Some hit =>
        if bool_decide (is_Some nested) && negb (cacheRead =? hit) then invalid else finish hit true
      | None => finish cacheRead reported
      end
    end
  end.

Definition CacheReadTokens (u : Usage) : Z * bool :=
  let '(cacheRead, reported, valid) := normalizedCacheUsage u in (cacheRead, reported && valid).

(** ** Limits (agentlimits) *)
Definition DefaultContextWindow : Z := 272000.
Definition MaxOutputTokens : Z := 128000.
Definition MaxAssistantTextBytes : Z := 2 ^ 20.
Definition ValidMaxTokens (value : Z) : bool := 0 <? value.
Definition MaxToolCallArgumentsBytes : Z := 8 * 2 ^ 10.
Definition MaxFileMutationArgumentsBytes : Z := 64 * 2 ^ 10.
Definition MaxToolCallArgumentsTotal : Z := 128 * 2 ^ 10.

Definition ToolArgumentsBytes (name : string) : Z :=
  if bool_decide (name ∈ ["write"; "edit"; "apply_patch"; "shell"; "task"])
  then MaxFileMutationArgumentsBytes else MaxToolCallArgumentsBytes.

(** ** Validation of a model message (validation.go) *)

(** The loop over the calls, with the identifiers seen and the bytes so far. *)
Fixpoint validate_calls (calls : list ToolCall) (seen : list string) (totalArguments : Z) : result error Z :=
  match calls with
  | [] => Ok totalArguments
  | call :: calls =>
    let arguments := str_len (ToolFunction_Arguments (ToolCall_Function call)) in
    _ ← fail_if (bool_decide (ToolCall_ID call = "") || negb (bool_decide (ToolCall_Type call = "function"))
                 || bool_decide (ToolFunction_Name (ToolCall_Function call) = ""))
          (ErrorNew "模型工具调用身份无效");
    _ ← fail_if (bool_decide (ToolCall_ID call ∈ seen)) (ErrorNew "模型工具调用ID重复");
    _ ← fail_if (ToolArgumentsBytes (ToolFunction_Name (ToolCall_Function call)) <? arguments)
          (ErrorNew "模型工具参数超过客户端安全上限");
    validate_calls calls (ToolCall_ID call :: seen) (totalArguments + arguments)
  end.

Definition ValidateModelMessage (message : Message) : result error unit :=
  let textLimit := if decide (Message_Role message = "assistant") then MaxAssistantTextBytes else 64 * 2 ^ 10 in
  _ ← fail_if (textLimit <? str_len (Message_Content message)) (ErrorNew "模型回答超过客户端安全上限");
  totalArguments ← validate_calls (Message_ToolCalls message) [] 0;
  fail_if (MaxToolCallArgumentsTotal <? totalArguments) (ErrorNew "模型单轮工具参数总量超过安全上限").

(** ** Turns (context_types.go) *)
Fixpoint app_last (groups : list (list Message)) (message : Message) : list (list Message) :=
  match groups with
  | [] => []
  | [group] => [group ++ [message]]
  | group :: groups => group :: app_last groups message
  end.

Definition add_message (groups : list (list Message)) (message : Message) : list (list Message) :=
  if bool_decide (Message_Role message = "user") || is_nil groups
  then groups ++ [[message]] else app_last groups message.

Definition messageGroups (messages : list Message) : list (list Message) := foldl add_message [] messages.

(** The loop of [truncateUTF8]: the bytes, last first. *)
Fixpoint drop_invalid (l : list Z) : list Z :=
  match l with
  | [] => []
  | b :: l' => if valid_utf8 (string_of_bytes (rev l)) then l else drop_invalid l'
  end.

Definition truncateUTF8 (value : string) (limit : Z) : string :=
  if str_len value <=? limit then value
  else string_of_bytes (rev (drop_invalid (rev (bytes_of (str_slice value 0 limit))))).

(** ** Facts *)

(** The values a usage report carries for the tokens read from the cache. *)
Definition read_counters (u : Usage) : list Z :=
  omap id [d ← Usage_PromptTokensDetails u; PromptTokensDetails_CachedTokens d; Usage_PromptCacheHitTokens u].

(** The counters of prompt tokens not read from the cache. *)
Definition nonread_counters (u : Usage) : list Z :=
  omap id [d ← Usage_PromptTokensDetails u; PromptTokensDetails_CacheCreationTokens d;
           d ← Usage_PromptTokensDetails u; PromptTokensDetails_CacheWriteTokens d;
           Usage_PromptCacheMissTokens u].

(** A provider's cache usage is reported as [n] tokens exactly when it names
    some counter, every source for the tokens read agrees on [n] (zero without
    one), and [n] and each of the other counters fit together in the prompt. *)
Theorem CacheReadTokens_spec (u : Usage) (n : Z) :
  CacheReadTokens u = (n, true) ↔
  read_counters u ++ nonread_counters u ≠ [] ∧ Forall (fun v => v = n) (read_counters u)
  ∧ (read_counters u = [] → n = 0) ∧ 0 <= n <= Usage_PromptTokens u
  ∧ Forall (fun v => 0 <= v ∧ n + v <= Usage_PromptTokens u) (nonread_counters u).
Proof.
  destruct u as [prompt completion total details hit miss].
  unfold CacheReadTokens, normalizedCacheUsage, read_counters, nonread_counters, in_prompt.
  destruct details as [[[cached|] [creation|] [write|]]|], hit as [hit|], miss as [miss|]; cbn;
    unfold in_prompt; cbn; rewrite ?Forall_cons, ?Forall_nil;
    repeat (case_match; simplify_eq/=; bool_prop);
    repeat match goal with H : _ || _ = true |- _ => apply orb_true_iff in H as [H|H]; bool_prop end.
  all: (split; [intros Heq; simplify_eq/=|intros (? & ? & ? & ? & ?); destruct_and?]).
  all: try (solve [repeat split; try discriminate; try congruence; try lia]).
  all: try (solve [exfalso; (congruence || lia)]).
  all: match goal with H : [] = [] → _ |- _ => by rewrite H end.
Qed.

(** What [ValidateModelMessage] asks of the calls. *)
Definition call_ok (call : ToolCall) : Prop :=
  ToolCall_ID call ≠ "" ∧ ToolCall_Type call = "function" ∧ ToolFunction_Name (ToolCall_Function call) ≠ ""
  ∧ str_len (ToolFunction_Arguments (ToolCall_Function call))
    <= ToolArgumentsBytes (ToolFunction_Name (ToolCall_Function call)).

Definition argument_bytes (calls : list ToolCall) : Z :=
  foldr (fun call n => str_len (ToolFunction_Arguments (ToolCall_Function call)) + n) 0 calls.

Lemma validate_calls_Ok calls seen total n :
  validate_calls calls seen total = Ok n ↔
  Forall call_ok calls ∧ NoDup (ToolCall_ID <$> calls) ∧ (∀ id, id ∈ seen → id ∉ ToolCall_ID <$> calls)
  ∧ n = total + argument_bytes calls.
Proof.
  revert seen total. induction calls as [|call calls IH]; intros seen total; cbn [validate_calls].
  - unfold argument_bytes. cbn. split; [intros [= <-]|intros (_ & _ & _ & ->)]; [|f_equal; lia].
    split; [constructor|]. split; [constructor|]. split; [|lia]. intros id _ Hid. by apply not_elem_of_nil in Hid.
  - rewrite !guard_Ok, IH, !orb_false_iff, !bool_decide_eq_false, negb_false_iff, bool_decide_eq_true, Z.ltb_ge.
    rewrite fmap_cons, NoDup_cons, Forall_cons. unfold call_ok, argument_bytes. cbn [foldr].
    split.
    + intros ([[H1 H2] H3] & H4 & H5 & Hall & Hnd & Hseen & ->).
      split; [tauto|]. split; [split; [apply Hseen; by left|done]|]. split; [|lia].
      intros id Hid. apply not_elem_of_cons. split; [intros ->; done|apply Hseen; by right].
    + intros ([(H1 & H2 & H3 & H4) Hall] & [Hid Hnd] & Hseen & ->).
      split; [done|]. split; [intros Hin; apply Hseen in Hin; by apply not_elem_of_cons in Hin as [? _]|].
      split; [done|]. split; [done|]. split; [done|]. split; [|lia].
      intros id [->|Hin]%elem_of_cons; [done|]. apply Hseen in Hin. by apply not_elem_of_cons in Hin as [_ ?].
Qed.

(** The core accepts a model message exactly when its text and arguments are
    within the limits for its role and tools, every call names a function and an
    identifier, and no identifier occurs twice. *)
Theorem ValidateModelMessage_spec (message : Message) :
  ValidateModelMessage message = Ok tt ↔
  str_len (Message_Content message)
    <= (if decide (Message_Role message = "assistant") then MaxAssistantTextBytes else 65536)
  ∧ Forall call_ok (Message_ToolCalls message) ∧ NoDup (ToolCall_ID <$> Message_ToolCalls message)
  ∧ argument_bytes (Message_ToolCalls message) <= MaxToolCallArgumentsTotal.
Proof.
  unfold ValidateModelMessage. rewrite guard_Ok, bind_Ok, Z.ltb_ge.
  change (64 * 2 ^ 10) with 65536. split.
  - intros (Htext & n & Hcalls & Htotal). apply validate_calls_Ok in Hcalls as (Hall & Hnd & _ & ->).
    apply fail_if_Ok, Z.ltb_ge in Htotal. tauto.
  - intros (Htext & Hall & Hnd & Htotal). split; [done|]. exists (argument_bytes (Message_ToolCalls message)).
    rewrite validate_calls_Ok, fail_if_Ok, Z.ltb_ge. split; [|done]. split; [done|]. split; [done|].
    split; [|done]. intros id Hid. by apply not_elem_of_nil in Hid.
Qed.

(** ** The split into turns *)
Definition is_user (message : Message) : bool := bool_decide (Message_Role message = "user").

(** A turn: no user message after its first. *)
Definition turn (group : list Message) : Prop :=
  ∃ first rest, group = first :: rest ∧ Forall (fun m => is_user m = false) rest.

Definition turns (groups : list (list Message)) : Prop :=
  Forall turn groups ∧ Forall (fun group => is_user <$> head group = Some true) (tail groups).

Lemma app_last_snoc groups group message : app_last (groups ++ [group]) message = groups ++ [group ++ [message]].
Proof.
  induction groups as [|g groups IH]; [done|]. cbn [app].
  destruct (groups ++ [group]) as [|g' l] eqn:Hg; [by destruct groups|].
  cbn [app_last]. f_equal. by rewrite <- IH.
Qed.

Lemma add_message_spec groups message :
  turns groups → turns (add_message groups message) ∧ concat (add_message groups message) = concat groups ++ [message].
Proof.
  intros [Ht Hu]. unfold add_message. fold (is_user message).
  destruct groups as [|g0 gs] eqn:Hgroups using rev_ind.
  - rewrite orb_true_r. split; [|done]. split; [|done]. constructor; [|done]. exists message, []. by split.
  - assert (Hnil : is_nil (gs ++ [g0]) = false) by (by destruct gs). rewrite Hnil, orb_false_r. clear IHgs Hnil.
    apply Forall_app in Ht as [Hts [(first & rest & -> & Hrest) _]%Forall_cons].
    destruct (is_user message) eqn:Hm.
    + split; [|by rewrite concat_app]. split.
      * rewrite !Forall_app. split; [split; [done|constructor; [by exists first, rest|done]]|].
        constructor; [|done]. exists message, []. by split.
      * destruct gs as [|g gs]; cbn [app tail] in *; [constructor; [by rewrite <- Hm|done]|].
        rewrite Forall_app. split; [done|]. constructor; [|done]. cbn. by rewrite Hm.
    + rewrite app_last_snoc. split; [|by rewrite !concat_app; cbn; rewrite !app_nil_r, <- !app_assoc].
      split.
      * rewrite Forall_app. split; [done|]. constructor; [|done]. exists first, (rest ++ [message]).
        split; [done|]. rewrite Forall_app. split; [done|]. by constructor.
      * destruct gs as [|g gs]; cbn [app tail] in *; [done|]. rewrite Forall_app in *. destruct Hu as [Hu Hg].
        split; [done|]. apply Forall_cons in Hg as [Hg _]. constructor; [|done]. exact Hg.
Qed.

(** The turns of a conversation partition it: in order they are the
    conversation, none is empty, each after the first opens with a user message,
    and no user message is inside one. *)
Theorem messageGroups_partition (messages : list Message) :
  concat (messageGroups messages) = messages ∧ turns (messageGroups messages).
Proof.
  unfold messageGroups. induction messages as [|m l IH] using rev_ind; [split; [done|split; constructor]|].
  rewrite foldl_snoc. destruct IH as [IH1 IH2]. destruct (add_message_spec _ m IH2) as [H1 H2].
  split; [by rewrite H2, IH1|done].
Qed.
