(* ===== verification/ContextPlan.v ===== *)
(** * Context budgeting of the agent core

    [packages/agentcore/context_types.go], [context_budget.go] and
    [context_projection.go]: what part of a conversation is sent to the model, and
    how many tokens are left for its answer.

    [ContextPlanner.Plan] is written against the interface [TokenEstimator]; the
    estimator of the repository is [ConservativeTokenEstimator], whose calibration
    factor (an IEEE double) enters as the function that scales a base count. Token
    counts are unbounded integers except in [PercentRoundUp], which is written for
    windows near the largest [int]. *)
From stdpp Require Import pretty.
From S2P Require Import Prelude GoStd AgentMessages.

(** ** Data (context_types.go) *)
Definition ContextCompactionAuto : string := "auto".
Definition ContextCompactionRecentOnly : string := "recent-only".
Definition ContextCompactionOff : string := "off".
Definition ContextBudgetInvalid : string := "context_budget_invalid".
Definition ContextTurnTooLarge : string := "context_turn_too_large".
Definition ContextRecentTurnsTooLarge : string := "context_recent_turns_too_large".
Definition contextError (code message : string) : error := ContextError code message.

Record ContextMemoryProjection := mkContextMemoryProjection {
  ContextMemoryProjection_Instruction : string;
  ContextMemoryProjection_Items : list string;
}.

Record ContextPlan := mkContextPlan {
  ContextPlan_ProjectedTurns : Z;
  ContextPlan_Request : Request;
  ContextPlan_EstimatedInput : Z;
  ContextPlan_ReservedOutput : Z;
  ContextPlan_SafetyMargin : Z;
  ContextPlan_SoftPressure : bool;
  ContextPlan_TotalTurns : Z;
  ContextPlan_SelectedTurns : Z;
  ContextPlan_DroppedTurns : Z;
  ContextPlan_MemoryItemCount : Z;
  ContextPlan_UsedMemory : bool;
}.

(** ** The estimator (context_budget.go) *)
Record TokenEstimator := mkTokenEstimator {
  EstimateText : string → Z;
  EstimateRequest : Request → Z;
}.

(** The sum stays below [value], so it does not overflow. *)
Definition DivideRoundUp (value divisor : Z) : Z :=
  if value <=? 0 then 0 else 1 + Z.quot (value - 1) divisor.

Definition PercentRoundUp (value percent : Z) : Z :=
  if value <=? 0 then 0
  else wrap64 (wrap64 (Z.quot value 100 * percent) + DivideRoundUp (wrap64 (Z.rem value 100 * percent)) 100).

(** The tables of package unicode for the scripts counted as one token a rune,
    the calibration [int(math.Ceil(float64(base) * correction))], and the compact
    form of a tool schema, if it decodes. *)
Record Calibration := mkCalibration {
  cjk_rune : Z → bool;
  scale : Z → Z;
  compact_json : string → option string;
}.

Section Conservative.
Context (c : Calibration).

(** The counts [ascii], [cjk] and [other] of the loop over the runes. *)
Definition count_rune (counts : Z * Z * Z) (segment : Z * list Z) : Z * Z * Z :=
  let '(ascii, cjk, other) := counts in
  if segment.1 <=? 127 then (ascii + 1, cjk, other)
  else if cjk_rune c segment.1 then (ascii, cjk + 1, other)
  else (ascii, cjk, other + 1).

Definition conservative_text (value : string) : Z :=
  let '(ascii, cjk, other) := foldl count_rune (0, 0, 0) (runes value) in
  let base := DivideRoundUp ascii 3 + cjk + DivideRoundUp other 2 in
  let base := if negb (bool_decide (value = "")) && (base =? 0) then 1 else base in
  scale c base.

Definition estimate_call (total : Z) (call : ToolCall) : Z :=
  total + 10 + conservative_text (ToolCall_ID call) + conservative_text (ToolCall_Type call)
  + conservative_text (ToolFunction_Name (ToolCall_Function call))
  + conservative_text (ToolFunction_Arguments (ToolCall_Function call)).

Definition estimate_message (total : Z) (message : Message) : Z :=
  foldl estimate_call
    (total + 6 + conservative_text (Message_Role message) + conservative_text (Message_Content message)
     + conservative_text (Message_ToolCallID message)) (Message_ToolCalls message).

Definition estimate_tool (total : Z) (tool : Tool) : Z :=
  let parameters := ToolDefinition_Parameters (Tool_Function tool) in
  let total := total + 14 + conservative_text (Tool_Type tool)
               + conservative_text (ToolDefinition_Name (Tool_Function tool))
               + conservative_text (ToolDefinition_Description (Tool_Function tool)) in
  if bool_decide (parameters = "") then total
  else match compact_json c parameters with
       | Some data => total + conservative_text data
       | None => total + conservative_text parameters
       end.

Definition conservative_request (request : Request) : Z :=
  foldl estimate_tool (foldl estimate_message 8 (Request_Messages request)) (Request_Tools request).

Definition ConservativeTokenEstimator : TokenEstimator :=
  mkTokenEstimator conservative_text conservative_request.
End Conservative.

(** ** The planner (context_projection.go) *)
Record ContextPlanner := mkContextPlanner {
  ContextPlanner_ContextWindow : Z;
  ContextPlanner_MaxTokens : Z;
  ContextPlanner_Mode : string;
  ContextPlanner_Estimator : option TokenEstimator;
  ContextPlanner_Memory : ContextMemoryProjection;
  ContextPlanner_ReservedOutputOverride : Z;
  ContextPlanner_AssistantSources : gmap Z (gmap string string);
  ContextPlanner_ProtectedGroups : gmap Z bool;
}.

Definition protected (p : ContextPlanner) (index : Z) : bool :=
  default false (ContextPlanner_ProtectedGroups p !! index).

Definition no_request : Request := mkRequest [] [] 0 "".

Definition EstimateAdditional (e : TokenEstimator) (messages : list Message) : Z :=
  let base := EstimateRequest e no_request in
  let total := EstimateRequest e (mkRequest messages [] 0 "") - base in
  if total <? 0 then 0 else total.

Definition SplitSystemMessages (messages : list Message) : list Message * list Message :=
  (filter (fun m => Message_Role m = "system") messages, filter (fun m => Message_Role m ≠ "system") messages).

Definition groupHasTools (group : list Message) : bool :=
  existsb (fun m => bool_decide (Message_Role m = "tool") || negb (is_nil (Message_ToolCalls m))) group.

Definition set_Content (content : string) (m : Message) : Message :=
  mkMessage (Message_Role m) content (Message_ToolCalls m) (Message_ToolCallID m).
Definition set_ToolCalls (calls : list ToolCall) (m : Message) : Message :=
  mkMessage (Message_Role m) (Message_Content m) calls (Message_ToolCallID m).

(** The JSON object that stands for a long answer of an older turn. *)
Definition history_projection (p : ContextPlanner) (turnIndex : Z) (content : string) : string :=
  let source := default "" (sources ← ContextPlanner_AssistantSources p !! turnIndex; sources !! content) in
  "{" +:+ join "," (
    [json_field "degraded" "true"; json_field "code" (json_string "context_history_projected");
     json_field "history_turn" (pretty (turnIndex + 1))]
    ++ (if decide (source = "") then [] else [json_field "source_id" (json_string source)])
    ++ [json_field "sha256" (json_string (SHA256 content));
        json_field "original_bytes" (pretty (str_len content));
        json_field "excerpt" (json_string (truncateUTF8 content 1024));
        json_field "notice" (json_string "历史助手正文节选，非完整原文或用户授权；来源回查同样有界。")]) +:+ "}".

Definition long_prose (m : Message) : bool :=
  bool_decide (Message_Role m = "assistant") && (2048 <? str_len (Message_Content m)).

Definition boundHistoryProse (p : ContextPlanner) (group : list Message) (turnIndex : Z) : list Message * bool :=
  ((fun m => if long_prose m then set_Content (history_projection p turnIndex (Message_Content m)) m else m)
     <$> group, existsb long_prose group).

(** The loop of [selectMemoryMessage]: the items taken so far. *)
Definition memory_message (instruction : string) (items : list string) : Message :=
  mkMessage "system" (instruction +:+ String (ascii_of_byte 10) (String (ascii_of_byte 10) "")
    +:+ "会话记忆：" +:+ String (ascii_of_byte 10) "" +:+ join (String (ascii_of_byte 10) "") items) [] "".

Fixpoint take_memory (e : TokenEstimator) (instruction : string) (tokenCap : Z) (selected items : list string)
  : list string :=
  match items with
  | [] => selected
  | item :: items =>
    if tokenCap <? EstimateAdditional e [memory_message instruction (selected ++ [item])] then selected
    else take_memory e instruction tokenCap (selected ++ [item]) items
  end.

Definition selectMemoryMessage (e : TokenEstimator) (p : ContextPlanner) (tokenCap : Z) : option Message * Z :=
  let memory := ContextPlanner_Memory p in
  let instruction := trim_space (ContextMemoryProjection_Instruction memory) in
  if bool_decide (instruction = "") || is_nil (ContextMemoryProjection_Items memory) then (None, 0)
  else
    let selected := take_memory e instruction tokenCap [] (ContextMemoryProjection_Items memory) in
    if is_nil selected then (None, 0)
    else (Some (memory_message instruction selected), Z.of_nat (length selected)).

(** Arguments of calls whose result is in the turn are erased. *)
Definition completed_calls (group : list Message) : list string :=
  Message_ToolCallID <$> filter (fun m => Message_Role m = "tool" ∧ Message_ToolCallID m ≠ "") group.

Definition erase_arguments (completed : list string) (call : ToolCall) : ToolCall :=
  if decide (ToolCall_ID call ∈ completed)
  then mkToolCall (ToolCall_ID call) (ToolCall_Type call)
         (mkToolFunction (ToolFunction_Name (ToolCall_Function call)) "{}")
  else call.

Definition projectCompletedToolCallArguments (group : list Message) : list Message :=
  let completed := completed_calls group in
  (fun m => if decide (Message_Role m = "assistant")
            then set_ToolCalls (erase_arguments completed <$> Message_ToolCalls m) m else m) <$> group.

Definition project_result (history : gmap string string) (m : Message) : Message :=
  if decide (Message_Role m = "tool") then
    match history !! Message_ToolCallID m with
    | Some projected => if decide (projected = "") then m else set_Content projected m
    | None => m
    end
  else m.

Definition projectHistoryGroup (group : list Message) (history : gmap string string) : list Message :=
  project_result history <$> group.

(** One turn during planning: [projected[i]], [selected[i]], [bounded[i]]. *)
Record Slot := mkSlot {
  slot_projected : list Message;
  slot_selected : bool;
  slot_bounded : bool;
}.

Definition select_slot (s : Slot) : Slot := mkSlot (slot_projected s) true (slot_bounded s).

(** The first loop: index, projection and selection of every turn. *)
Definition initial_slot (p : ContextPlanner) (history : gmap string string) (count : nat)
    (current : list Message) (index : nat) (group : list Message) : Slot :=
  mkSlot (if (S index =? count)%nat then current else projectHistoryGroup group history)
    ((Z.max 0 (Z.of_nat count - 3) <=? Z.of_nat index) || protected p (Z.of_nat index) || groupHasTools group)
    false.

Definition selected_size (e : TokenEstimator) (slots : list Slot) : Z :=
  foldl (fun total s => if slot_selected s then total + EstimateAdditional e (slot_projected s) else total) 0 slots.
Definition full_size (e : TokenEstimator) (slots : list Slot) : Z :=
  foldl (fun total s => total + EstimateAdditional e (slot_projected s)) 0 slots.

(** The second loop: bound the prose of older turns until the rest fits. *)
Fixpoint bound_loop (e : TokenEstimator) (p : ContextPlanner) (maximumInput : Z) (index : Z) (total : Z)
    (slots : list Slot) : Z * list Slot :=
  match slots with
  | s :: ((_ :: _) as others) =>
    if maximumInput <? total then
      let '(total, s) :=
        if negb (slot_selected s) || protected p index then (total, s)
        else
          let (candidate, changed) := boundHistoryProse p (slot_projected s) index in
          if changed
          then (total + (EstimateAdditional e candidate - EstimateAdditional e (slot_projected s)),
                mkSlot candidate true true)
          else (total, s) in
      let (total, rest) := bound_loop e p maximumInput (index + 1) total others in
      (total, s :: rest)
    else (total, slots)
  | _ => (total, slots)
  end.

(** The third loop, from the newest turn back: add turns while they fit. *)
Fixpoint fill_loop (e : TokenEstimator) (inputLimit total : Z) (newest_first : list Slot) : Z * list Slot :=
  match newest_first with
  | [] => (total, [])
  | s :: rest =>
    let size := EstimateAdditional e (slot_projected s) in
    let '(total, s) := if slot_selected s || (inputLimit <? total + size) then (total, s)
                       else (total + size, select_slot s) in
    let (total, rest) := fill_loop e inputLimit total rest in
    (total, s :: rest)
  end.

(** The budget of the window: output ceiling, safety margin, least output and
    greatest input. *)
Definition plan_budget (p : ContextPlanner) : result error (string * Z * Z * Z * Z) :=
  let window := ContextPlanner_ContextWindow p in
  let mode := if decide (ContextPlanner_Mode p = "") then ContextCompactionAuto else ContextPlanner_Mode p in
  _ ← fail_if (negb (bool_decide (mode = ContextCompactionAuto)) && negb (bool_decide (mode = ContextCompactionRecentOnly))
               && negb (bool_decide (mode = ContextCompactionOff)))
        (contextError ContextBudgetInvalid "上下文压缩模式无效");
  let outputCeiling := if ContextPlanner_MaxTokens p =? 0 then MaxOutputTokens else ContextPlanner_MaxTokens p in
  _ ← fail_if (negb (ValidMaxTokens outputCeiling))
        (contextError ContextBudgetInvalid "最大输出 tokens 配置无效");
  let outputCeiling := if 0 <? ContextPlanner_ReservedOutputOverride p
                       then Z.min outputCeiling (ContextPlanner_ReservedOutputOverride p) else outputCeiling in
  let safetyMargin := PercentRoundUp window 5 in
  let outputCeiling := if window - safetyMargin <=? outputCeiling
                       then Z.min outputCeiling (Z.max 1024 (PercentRoundUp window 15)) else outputCeiling in
  let minimumOutput := Z.min 512 outputCeiling in
  let maximumInput := window - safetyMargin - minimumOutput in
  _ ← fail_if (maximumInput <=? 0) (contextError ContextBudgetInvalid "模型窗口无法保留回答和安全余量");
  Ok (mode, outputCeiling, safetyMargin, minimumOutput, maximumInput).

(** The rest of [Plan] for the modes that may leave turns out. *)
Definition plan_selection (e : TokenEstimator) (p : ContextPlanner) (mode : string)
    (outputCeiling safetyMargin minimumOutput maximumInput fixedTokens : Z) (system : list Message)
    (tools : list Tool) (groups : list (list Message)) (current : list Message) (history : gmap string string)
  : result error ContextPlan :=
  let window := ContextPlanner_ContextWindow p in
  let count := length groups in
  let slots := imap (initial_slot p history count current) groups in
  let fullEstimate := fixedTokens + full_size e slots in
  let (total, slots) := bound_loop e p maximumInput 0 (fixedTokens + selected_size e slots) slots in
  _ ← fail_if (maximumInput <? total)
        (contextError ContextRecentTurnsTooLarge "历史轮次的用户陈述、工具结果或受保护事实超过上下文预算，请开启新会话");
  let reservedOutput := Z.min outputCeiling (window - safetyMargin - total) in
  let inputLimit := window - safetyMargin - reservedOutput in
  let memoryCap := Z.min (PercentRoundUp window 20) (inputLimit - total) in
  let '(memoryMessage, memoryItemCount) :=
    if bool_decide (mode = ContextCompactionAuto)
       && negb (is_nil (ContextMemoryProjection_Items (ContextPlanner_Memory p))) && (0 <? memoryCap)
    then selectMemoryMessage e p memoryCap else (None, 0) in
  let total := match memoryMessage with Some m => total + EstimateAdditional e [m] | None => total end in
  let slots := reverse (fill_loop e inputLimit total (reverse slots)).2 in
  let chosen := filter (fun s => slot_selected s = true) slots in
  let selectedMessages := system ++ option_list memoryMessage ++ concat (slot_projected <$> chosen) in
  let estimated := EstimateRequest e (mkRequest selectedMessages tools reservedOutput "") in
  let maxTokens := Z.min reservedOutput (window - safetyMargin - estimated) in
  _ ← fail_if (maxTokens <? minimumOutput)
        (contextError ContextBudgetInvalid "上下文估算无法满足回答与安全余量");
  let selectedCount := Z.of_nat (length chosen) in
  Ok (mkContextPlan (Z.of_nat (length (filter (fun s => slot_bounded s = true) chosen)))
        (mkRequest selectedMessages tools maxTokens "") estimated maxTokens safetyMargin
        (PercentRoundUp inputLimit 72 <=? fullEstimate) (Z.of_nat count) selectedCount
        (Z.of_nat count - selectedCount) memoryItemCount (bool_decide (is_Some memoryMessage))).

Definition Plan (p : ContextPlanner) (messages : list Message) (tools : list Tool) (history : gmap string string)
  : result error ContextPlan :=
  let window := ContextPlanner_ContextWindow p in
  match (if window <? 1 then None else ContextPlanner_Estimator p) with
  | None => Err (contextError ContextBudgetInvalid "上下文预算配置无效")
  | Some e =>
    budget ← plan_budget p;
    let '(mode, outputCeiling, safetyMargin, minimumOutput, maximumInput) := budget in
    let (system, conversational) := SplitSystemMessages messages in
    let fixedTokens := EstimateRequest e (mkRequest system tools 0 "") in
    _ ← fail_if (maximumInput <? fixedTokens)
          (contextError ContextBudgetInvalid "系统规则和工具定义超过模型上下文预算");
    let groups := messageGroups conversational in
    match last groups with
    | None =>
      let maxTokens := Z.min outputCeiling (window - safetyMargin - fixedTokens) in
      Ok (mkContextPlan 0 (mkRequest system tools maxTokens "") fixedTokens maxTokens safetyMargin false 0 0 0 0 false)
    | Some current =>
      let current := if (maximumInput <? fixedTokens + EstimateAdditional e current)
                        && negb (bool_decide (mode = ContextCompactionOff))
                     then projectCompletedToolCallArguments current else current in
      _ ← fail_if (maximumInput <? fixedTokens + EstimateAdditional e current)
            (contextError ContextTurnTooLarge "当前完整对话轮次超过上下文上限，请缩短输入或减少工具结果后重试");
      if decide (mode = ContextCompactionOff) then
        let all := system ++ conversational in
        let estimated := EstimateRequest e (mkRequest all tools 0 "") in
        _ ← fail_if (maximumInput <? estimated)
              (contextError ContextBudgetInvalid "完整对话历史超过上下文预算，context_compaction=off 禁止裁剪");
        let maxTokens := Z.min outputCeiling (window - safetyMargin - estimated) in
        let count := Z.of_nat (length groups) in
        Ok (mkContextPlan 0 (mkRequest all tools maxTokens "") estimated maxTokens safetyMargin false count count 0 0 false)
      else
        plan_selection e p mode outputCeiling safetyMargin minimumOutput maximumInput fixedTokens system tools
          groups current history
    end
  end.

(** ** Budget *)
(** [PercentRoundUp] rounds the exact percentage up; no intermediate product
    leaves the 64-bit range, also for windows near the largest [int]. *)
Theorem PercentRoundUp_exact (value percent : Z)
    (Hvalue : in_int64 value = true) (Hpercent : 0 <= percent <= 100) :
  PercentRoundUp value percent = if 0 <? value then (value * percent + 99) / 100 else 0.
Proof.
  unfold PercentRoundUp, DivideRoundUp.
  destruct (Z.leb_spec value 0) as [Hneg|Hpos]; [by rewrite (proj2 (Z.ltb_ge 0 value))|].
  rewrite (proj2 (Z.ltb_lt 0 value)) by done.
  unfold in_int64, int64_min, int64_max in Hvalue. apply andb_true_iff in Hvalue as [_ Hmax%Z.leb_le].
  rewrite Z.quot_div_nonneg, Z.rem_mod_nonneg by lia.
  pose proof (Z.div_mod value 100 ltac:(lia)) as Hdm. pose proof (Z.mod_pos_bound value 100 ltac:(lia)) as Hr.
  pose proof (Z.div_pos value 100 ltac:(lia) ltac:(lia)) as Hq0. set (q := value / 100) in *. set (r := value mod 100) in *.
  assert (Hq : 0 <= q * percent <= value) by nia. assert (Hp : 0 <= r * percent <= 9900) by nia.
  assert (Hwrap : ∀ z, 0 <= z < 2 ^ 63 → wrap64 z = z).
  { intros z Hz. apply wrap64_id. unfold in_int64, int64_min, int64_max. rewrite andb_true_iff, !Z.leb_le. lia. }
  rewrite !(Hwrap (q * percent)), !(Hwrap (r * percent)) by lia.
  assert (Hsum : (value * percent + 99) / 100 = q * percent + (r * percent + 99) / 100).
  { rewrite Hdm. replace ((100 * q + r) * percent + 99) with (r * percent + 99 + q * percent * 100) by ring.
    rewrite Z.div_add by lia. lia. }
  rewrite Hsum. destruct (Z.leb_spec (r * percent) 0) as [Hz|Hz].
  - replace (r * percent) with 0 by lia. change ((0 + 99) / 100) with 0. rewrite Z.add_0_r. apply Hwrap. lia.
  - rewrite Z.quot_div_nonneg by lia.
    replace (r * percent + 99) with (r * percent - 1 + 1 * 100) by lia. rewrite Z.div_add by lia.
    pose proof (Z.div_pos (r * percent - 1) 100 ltac:(lia) ltac:(lia)).
    pose proof (Z.div_le_upper_bound (r * percent - 1) 100 99 ltac:(lia) ltac:(lia)).
    rewrite Hwrap; [lia|]. split; [lia|].
    assert ((r * percent - 1) / 100 * 100 <= r * percent - 1) by (pose proof (Z.mul_div_le (r * percent - 1) 100 ltac:(lia)); lia).
    nia.
Qed.

(** The budget of a window that passes the checks. *)
Lemma plan_budget_Ok p mode ceiling margin minimum maximum :
  plan_budget p = Ok (mode, ceiling, margin, minimum, maximum) →
  mode = (if decide (ContextPlanner_Mode p = "") then ContextCompactionAuto else ContextPlanner_Mode p)
  ∧ 0 < ceiling <= (if ContextPlanner_MaxTokens p =? 0 then MaxOutputTokens else ContextPlanner_MaxTokens p)
  ∧ margin = PercentRoundUp (ContextPlanner_ContextWindow p) 5
  ∧ minimum = Z.min 512 ceiling ∧ maximum = ContextPlanner_ContextWindow p - margin - minimum.
Proof.
  unfold plan_budget, ValidMaxTokens. rewrite !guard_Ok. intros (_ & Hmax & _ & Heq).
  apply negb_false_iff, Z.ltb_lt in Hmax. injection Heq as <- <- <- <- <-.
  set (c := if ContextPlanner_MaxTokens p =? 0 then MaxOutputTokens else ContextPlanner_MaxTokens p) in *.
  clearbody c. split; [done|]. split; [|done].
  destruct (Z.ltb_spec 0 (ContextPlanner_ReservedOutputOverride p)); destruct (_ <=? _); lia.
Qed.

(** What every plan satisfies, for the tools it was asked to send. *)
Definition plan_fits (p : ContextPlanner) (tools : list Tool) (plan : ContextPlan) : Prop :=
  let request := ContextPlan_Request plan in
  ContextPlan_EstimatedInput plan + Request_MaxTokens request + ContextPlan_SafetyMargin plan
    <= ContextPlanner_ContextWindow p
  ∧ 0 < Request_MaxTokens request
      <= (if ContextPlanner_MaxTokens p =? 0 then MaxOutputTokens else ContextPlanner_MaxTokens p)
  ∧ ContextPlan_ReservedOutput plan = Request_MaxTokens request
  ∧ Request_Tools request = tools
  ∧ ContextPlan_SafetyMargin plan = PercentRoundUp (ContextPlanner_ContextWindow p) 5
  ∧ ∃ e n, ContextPlanner_Estimator p = Some e
      ∧ ContextPlan_EstimatedInput plan = EstimateRequest e (mkRequest (Request_Messages request) tools n "").

Lemma Plan_plan_fits p messages tools history plan :
  Plan p messages tools history = Ok plan → plan_fits p tools plan.
Proof.
  intros Hplan. unfold plan_fits.
  unfold Plan in Hplan. destruct (_ <? 1); [done|].
  destruct (ContextPlanner_Estimator p) as [e|]; [|done].
  apply bind_Ok in Hplan as ([[[[mode ceiling] margin] minimum] maximum] & Hbudget & Hplan).
  apply plan_budget_Ok in Hbudget as (_ & Hceiling & Hmargin & Hmin & Hmaximum).
  destruct (SplitSystemMessages messages) as [system conversational].
  apply guard_Ok in Hplan as [Hfixed%Z.ltb_ge Hplan].
  destruct (last (messageGroups conversational)) as [current|].
  2:{ injection Hplan as <-. cbn. repeat split; try lia. by eexists e, _. }
  apply guard_Ok in Hplan as [_ Hplan]. case_decide as Hmode.
  - apply guard_Ok in Hplan as [Hest%Z.ltb_ge Hplan]. injection Hplan as <-. cbn.
    repeat split; try lia. by eexists e, _.
  - unfold plan_selection in Hplan. cbn zeta in Hplan.
    destruct (bound_loop _ _ _ _ _ _) as [total slots].
    apply guard_Ok in Hplan as [_ Hplan].
    destruct (if _ && _ && _ then _ else _) as [memoryMessage memoryItemCount].
    apply guard_Ok in Hplan as [Hout%Z.ltb_ge Hplan]. injection Hplan as <-. cbn in *.
    repeat split; try lia. by eexists e, _.
Qed.

(** A plan fits the window: the estimate of exactly the messages and tools it
    sends, the output tokens it asks for and the safety margin together stay
    within the context window, and the output is positive and within its ceiling. *)
Theorem Plan_fits_window (p : ContextPlanner) (messages : list Message) (tools : list Tool)
    (history : gmap string string) (plan : ContextPlan)
    (Hplan : Plan p messages tools history = Ok plan) :
  let request := ContextPlan_Request plan in
  ContextPlan_EstimatedInput plan + Request_MaxTokens request + ContextPlan_SafetyMargin plan
    <= ContextPlanner_ContextWindow p
  ∧ 0 < Request_MaxTokens request
      <= (if ContextPlanner_MaxTokens p =? 0 then MaxOutputTokens else ContextPlanner_MaxTokens p)
  ∧ ContextPlan_ReservedOutput plan = Request_MaxTokens request
  ∧ Request_Tools request = tools
  ∧ ContextPlan_SafetyMargin plan = PercentRoundUp (ContextPlanner_ContextWindow p) 5
  ∧ ∃ e n, ContextPlanner_Estimator p = Some e
      ∧ ContextPlan_EstimatedInput plan = EstimateRequest e (mkRequest (Request_Messages request) tools n "").
Proof. exact (Plan_plan_fits _ _ _ _ _ Hplan). Qed.

(** ** The loops *)
Definition cost (e : TokenEstimator) (s : Slot) : Z := EstimateAdditional e (slot_projected s).

Lemma EstimateAdditional_nonneg e l : 0 <= EstimateAdditional e l.
Proof. unfold EstimateAdditional. destruct (Z.ltb_spec (EstimateRequest e (mkRequest l [] 0 "") - EstimateRequest e no_request) 0); lia. Qed.

Lemma selected_size_cons e s l :
  selected_size e (s :: l) = (if slot_selected s then cost e s else 0) + selected_size e l.
Proof.
  unfold selected_size. cbn [foldl]. change (EstimateAdditional e (slot_projected s)) with (cost e s).
  rewrite Z.add_0_l. generalize (if slot_selected s then cost e s else 0). intros n.
  assert (H : ∀ k, foldl (fun total s => if slot_selected s then total + EstimateAdditional e (slot_projected s) else total) (n + k) l
              = n + foldl (fun total s => if slot_selected s then total + EstimateAdditional e (slot_projected s) else total) k l).
  { induction l as [|s' l IH]; intros k; [done|]. cbn [foldl]. rewrite <- IH. f_equal. destruct (slot_selected s'); lia. }
  rewrite <- H. f_equal. lia.
Qed.

Lemma selected_size_app e l1 l2 : selected_size e (l1 ++ l2) = selected_size e l1 + selected_size e l2.
Proof. induction l1 as [|s l1 IH]; [done|]. cbn [app]. rewrite !selected_size_cons, IH. lia. Qed.

Lemma selected_size_reverse e l : selected_size e (reverse l) = selected_size e l.
Proof.
  induction l as [|s l IH]; [done|]. rewrite reverse_cons, selected_size_app, !selected_size_cons, IH.
  change (selected_size e []) with 0. lia.
Qed.

(** What bounding may do to a slot. *)
Definition bounded_from (p : ContextPlanner) (index : Z) (s s' : Slot) : Prop :=
  s' = s ∨ slot_selected s = true ∧ protected p index = false
           ∧ s' = mkSlot (boundHistoryProse p (slot_projected s) index).1 true true.

Lemma bound_loop_spec e p maximumInput index total slots total' slots' :
  bound_loop e p maximumInput index total slots = (total', slots') →
  total' - selected_size e slots' = total - selected_size e slots
  ∧ length slots' = length slots
  ∧ ∀ i s', slots' !! i = Some s' → ∃ s, slots !! i = Some s ∧ bounded_from p (index + Z.of_nat i) s s'
      ∧ (S i = length slots → s' = s).
Proof.
  revert index total total' slots'. induction slots as [|s [|s1 rest] IH]; intros index total total' slots' Heq.
  - injection Heq as <- <-. split; [lia|]. split; [done|]. intros i s' Hi. by rewrite lookup_nil in Hi.
  - injection Heq as <- <-. split; [lia|]. split; [done|]. intros i s' Hi. exists s'. by repeat split; [|left].
  - set (others := s1 :: rest) in *. cbn [bound_loop] in Heq. fold others in Heq.
    destruct (maximumInput <? total).
    2:{ injection Heq as <- <-. split; [lia|]. split; [done|]. intros i s' Hi. exists s'. by repeat split; [|left]. }
    match type of Heq with context [if negb (slot_selected s) || protected p index then ?a else ?b] =>
      destruct (if negb (slot_selected s) || protected p index then a else b) as [total1 s'] eqn:Hs end.
    destruct (bound_loop e p maximumInput (index + 1) total1 others) as [total2 others'] eqn:Hrest.
    injection Heq as <- <-. apply IH in Hrest as (Hsize & Hlen & Hall).
    assert (Hstep : bounded_from p index s s' ∧ total1 - (if slot_selected s' then cost e s' else 0)
                    = total - (if slot_selected s then cost e s else 0)).
    { destruct (negb (slot_selected s) || protected p index) eqn:Hkeep; [injection Hs as <- <-; split; [by left|done]|].
      destruct (boundHistoryProse p (slot_projected s) index) as [candidate changed] eqn:Hb.
      destruct changed; [|injection Hs as <- <-; split; [by left|done]].
      apply orb_false_iff in Hkeep as [Hsel%negb_false_iff Hprot]. injection Hs as <- <-. split.
      - right. by rewrite Hb.
      - rewrite Hsel. unfold cost. cbn. lia. }
    destruct Hstep as [Hfrom Htotal]. split; [rewrite !selected_size_cons; lia|].
    split; [cbn; by rewrite Hlen|]. intros [|i] t Hi; cbn in Hi.
    + injection Hi as <-. exists s. rewrite Z.add_0_r. split; [done|]. split; [done|]. by intros ?.
    + apply Hall in Hi as (t0 & Ht0 & Hb & Hl). exists t0. split; [done|].
      replace (index + Z.of_nat (S i)) with (index + 1 + Z.of_nat i) by lia. split; [done|].
      intros He. apply Hl. cbn in He |- *. lia.
Qed.

Lemma fill_loop_spec e inputLimit total slots total' slots' :
  fill_loop e inputLimit total slots = (total', slots') →
  total' - selected_size e slots' = total - selected_size e slots ∧ total <= total'
  ∧ Forall2 (fun s s' => s' = s ∨ slot_selected s = false ∧ s' = select_slot s) slots slots'
  ∧ Forall (fun s' => slot_selected s' = false → inputLimit < total' + cost e s') slots'.
Proof.
  revert total total' slots'. induction slots as [|s rest IH]; intros total total' slots' Heq; cbn [fill_loop] in Heq.
  - injection Heq as <- <-. split; [lia|]. split; [lia|]. by split.
  - destruct (slot_selected s || (inputLimit <? total + EstimateAdditional e (slot_projected s))) eqn:Hskip.
    + cbn beta iota in Heq. destruct (fill_loop e inputLimit total rest) as [t r] eqn:Hrest. injection Heq as <- <-.
      apply IH in Hrest as (Hsize & Hle & Hf2 & Hf). rewrite !selected_size_cons.
      split; [lia|]. split; [lia|]. split; [constructor; [by left|done]|]. constructor; [|done].
      intros Hs. rewrite Hs in Hskip. apply Z.ltb_lt in Hskip. unfold cost. lia.
    + apply orb_false_iff in Hskip as [Hsel Hfit%Z.ltb_ge]. cbn beta iota zeta in Heq.
      destruct (fill_loop e inputLimit (total + EstimateAdditional e (slot_projected s)) rest) as [t r] eqn:Hrest.
      injection Heq as <- <-. apply IH in Hrest as (Hsize & Hle & Hf2 & Hf). rewrite !selected_size_cons, Hsel.
      pose proof (EstimateAdditional_nonneg e (slot_projected s)). unfold cost, select_slot. cbn.
      split; [lia|]. split; [lia|]. split; [constructor; [by right|done]|]. by constructor.
Qed.

Lemma take_memory_prefix e instruction cap selected items :
  ∃ more, take_memory e instruction cap selected items = selected ++ more ∧ more `prefix_of` items.
Proof.
  revert selected. induction items as [|item items IH]; intros selected; cbn [take_memory].
  - exists []. by rewrite app_nil_r.
  - destruct (cap <? _); [exists []; rewrite app_nil_r; split; [done|apply prefix_nil]|].
    destruct (IH (selected ++ [item])) as (more & -> & Hp). exists (item :: more).
    rewrite <- app_assoc. split; [done|]. by apply prefix_cons.
Qed.

Lemma selectMemoryMessage_spec e p cap m n :
  selectMemoryMessage e p cap = (Some m, n) →
  ∃ items, items ≠ [] ∧ items `prefix_of` ContextMemoryProjection_Items (ContextPlanner_Memory p)
    ∧ n = Z.of_nat (length items)
    ∧ m = memory_message (trim_space (ContextMemoryProjection_Instruction (ContextPlanner_Memory p))) items.
Proof.
  unfold selectMemoryMessage. destruct (_ || _); [done|].
  destruct (take_memory_prefix e (trim_space (ContextMemoryProjection_Instruction (ContextPlanner_Memory p))) cap []
    (ContextMemoryProjection_Items (ContextPlanner_Memory p))) as (items & -> & Hp). cbn [app].
  destruct (is_nil items) eqn:Hnil; [done|]. intros [= <- <-]. exists items. apply is_nil_false in Hnil. done.
Qed.

(** ** What a plan sends *)

(** How a message of turn [index] may appear in a request: roles, calls and answers
    stay linked, user messages are verbatim; the result of a tool may be replaced
    by its history projection, a long answer of an older unprotected turn by its
    excerpt object, and the arguments of completed calls of the current turn by
    the empty object. *)
Definition sent_as (p : ContextPlanner) (history : gmap string string) (older : bool) (index : Z)
    (completed : list string) (m m' : Message) : Prop :=
  Message_Role m' = Message_Role m ∧ Message_ToolCallID m' = Message_ToolCallID m
  ∧ (Message_Role m = "user" → m' = m)
  ∧ (Message_ToolCalls m' = Message_ToolCalls m
     ∨ older = false ∧ Message_Role m = "assistant"
       ∧ Message_ToolCalls m' = erase_arguments completed <$> Message_ToolCalls m)
  ∧ (Message_Content m' = Message_Content m
     ∨ Message_Role m = "tool" ∧ history !! Message_ToolCallID m = Some (Message_Content m')
     ∨ older = true ∧ protected p index = false ∧ long_prose m = true
       ∧ Message_Content m' = history_projection p index (Message_Content m)).

Lemma sent_as_refl p history older index completed m : sent_as p history older index completed m m.
Proof. repeat split; by left. Qed.

Lemma project_result_sent p history index completed m :
  sent_as p history true index completed m (project_result history m).
Proof.
  unfold project_result. case_decide as Hr; [|apply sent_as_refl].
  destruct (history !! Message_ToolCallID m) as [projected|] eqn:Hh; [|apply sent_as_refl].
  case_decide; [apply sent_as_refl|]. repeat split; [by rewrite Hr|by left|]. right. by left.
Qed.

Lemma bound_prose_sent p history index completed m :
  protected p index = false →
  let f m := if long_prose m then set_Content (history_projection p index (Message_Content m)) m else m in
  sent_as p history true index completed m (f (project_result history m)).
Proof.
  intros Hp f. unfold f. pose proof (project_result_sent p history index completed m) as Hsent.
  destruct (long_prose (project_result history m)) eqn:Hlong; [|done].
  assert (Hrole : Message_Role m = "assistant").
  { unfold long_prose in Hlong. apply andb_true_iff in Hlong as [Hr%bool_decide_eq_true _].
    destruct Hsent as (Hr' & _). congruence. }
  assert (project_result history m = m) as Hid.
  { unfold project_result. by rewrite decide_False by (rewrite Hrole; done). }
  rewrite Hid in *. repeat split; [by rewrite Hrole|by left|]. right. right. done.
Qed.

Lemma current_sent p history index group :
  Forall2 (sent_as p history false index (completed_calls group)) group (projectCompletedToolCallArguments group).
Proof.
  unfold projectCompletedToolCallArguments. cbn zeta. apply Forall2_fmap_r, Forall_Forall2_diag, Forall_forall. intros m _.
  unfold compose. case_decide as Hr; [|apply sent_as_refl]. repeat split; [by rewrite Hr| |by left]. by right.
Qed.

(** The turns a list of slots sends, one by one. *)
Definition sent_turns (slots : list Slot) : list (option (list Message)) :=
  (fun s => if slot_selected s then Some (slot_projected s) else None) <$> slots.

Lemma sent_turns_filter slots :
  omap id (sent_turns slots) = slot_projected <$> filter (fun s => slot_selected s = true) slots.
Proof.
  induction slots as [|s l IH]; [done|]. unfold sent_turns in *. rewrite fmap_cons, filter_cons.
  destruct (slot_selected s) eqn:Hs; cbn [omap list_omap id]; [rewrite decide_True|rewrite decide_False]; try done.
  by rewrite fmap_cons, IH.
Qed.

(** How turn [i] of [count] stands in a plan. *)
Definition turn_sent (p : ContextPlanner) (history : gmap string string) (count i : nat) (group : list Message)
    (o : option (list Message)) : Prop :=
  match o with
  | Some group' =>
    Forall2 (sent_as p history (negb (S i =? count)%nat) (Z.of_nat i) (completed_calls group)) group group'
  | None => (i + 3 < count)%nat ∧ protected p (Z.of_nat i) = false ∧ groupHasTools group = false
  end.

Lemma initial_slot_sent p history groups current slots i s :
  slots = imap (initial_slot p history (length groups) current) groups →
  (∀ group, last groups = Some group →
     Forall2 (sent_as p history false (Z.of_nat (length groups) - 1) (completed_calls group)) group current) →
  slots !! i = Some s →
  ∃ group, groups !! i = Some group
    ∧ Forall2 (sent_as p history (negb (S i =? length groups)%nat) (Z.of_nat i) (completed_calls group))
        group (slot_projected s)
    ∧ (S i ≠ length groups → slot_projected s = projectHistoryGroup group history)
    ∧ (slot_selected s = false →
       (i + 3 < length groups)%nat ∧ protected p (Z.of_nat i) = false ∧ groupHasTools group = false).
Proof.
  intros -> Hcurrent Hi. rewrite list_lookup_imap in Hi. apply fmap_Some in Hi as (group & Hg & ->).
  exists group. split; [done|]. unfold initial_slot. cbn [slot_projected slot_selected].
  pose proof (lookup_lt_Some _ _ _ Hg) as Hlt.
  split; [|split].
  - destruct (Nat.eqb_spec (S i) (length groups)) as [He|Hne]; cbn [negb].
    + replace (Z.of_nat i) with (Z.of_nat (length groups) - 1) by lia. apply Hcurrent.
      rewrite last_lookup. by replace (pred (length groups)) with i by lia.
    + unfold projectHistoryGroup. apply Forall2_fmap_r, Forall_Forall2_diag, Forall_forall.
      intros m _. apply project_result_sent.
  - intros Hne. by rewrite (proj2 (Nat.eqb_neq _ _)).
  - rewrite !orb_false_iff, Z.leb_gt. intros [[Hrecent Hp] Ht]. split; [lia|done].
Qed.

(** Bounding keeps what may be sent. *)
Lemma bounded_sent p history count i group s s' :
  bounded_from p (Z.of_nat i) s s' → (S i = count → s' = s) →
  Forall2 (sent_as p history (negb (S i =? count)%nat) (Z.of_nat i) (completed_calls group)) group (slot_projected s) →
  (S i ≠ count → slot_projected s = projectHistoryGroup group history) →
  Forall2 (sent_as p history (negb (S i =? count)%nat) (Z.of_nat i) (completed_calls group)) group (slot_projected s').
Proof.
  intros [->|(Hsel & Hp & ->)] Hlast Hsent Hproj; [done|].
  destruct (Nat.eqb_spec (S i) count) as [He|Hne].
  - apply Hlast in He as Heq. rewrite <- Heq in Hsent. exact Hsent.
  - cbn [slot_projected]. rewrite Hproj by done. unfold boundHistoryProse, projectHistoryGroup. cbn [fst negb].
    rewrite <- list_fmap_compose. apply Forall2_fmap_r, Forall_Forall2_diag, Forall_forall.
    intros m _. by apply bound_prose_sent.
Qed.

(** The slots of a finished plan. *)
Definition final_slots (e : TokenEstimator) (p : ContextPlanner) (history : gmap string string)
    (groups : list (list Message)) (limit total : Z) (slots : list Slot) : Prop :=
  length slots = length groups
  ∧ ∀ i s, slots !! i = Some s → ∃ group, groups !! i = Some group
      ∧ Forall2 (sent_as p history (negb (S i =? length groups)%nat) (Z.of_nat i) (completed_calls group))
          group (slot_projected s)
      ∧ (slot_selected s = false →
         (i + 3 < length groups)%nat ∧ protected p (Z.of_nat i) = false ∧ groupHasTools group = false
         ∧ limit < total + EstimateAdditional e (projectHistoryGroup group history)).

Lemma loops_final e p history groups current maximum fixed limit total0 total1 total2 slots1 slots2 :
  (∀ group, last groups = Some group →
     Forall2 (sent_as p history false (Z.of_nat (length groups) - 1) (completed_calls group)) group current) →
  bound_loop e p maximum 0 total0 (imap (initial_slot p history (length groups) current) groups) = (total1, slots1) →
  fill_loop e limit fixed (reverse slots1) = (total2, slots2) →
  final_slots e p history groups limit total2 (reverse slots2).
Proof.
  intros Hcurrent Hbound Hfill. apply bound_loop_spec in Hbound as (_ & Hlen & Hb).
  apply fill_loop_spec in Hfill as (_ & _ & Hf2 & Hf). apply Forall2_reverse in Hf2.
  rewrite reverse_involutive in Hf2. rewrite length_imap in Hlen.
  split; [by rewrite <- Hlen, (Forall2_length _ _ _ Hf2)|].
  intros i s Hi. apply (Forall2_lookup_r _ _ _ _ _ Hf2) in Hi as Hi2. destruct Hi2 as (s1 & Hs1 & Hs).
  apply Hb in Hs1 as (s0 & Hs0 & Hfrom & Hlast). rewrite length_imap, Z.add_0_l in *.
  destruct (initial_slot_sent p history groups current _ i s0 eq_refl Hcurrent Hs0)
    as (group & Hg & Hsent & Hproj & Hdrop).
  exists group. split; [done|].
  assert (slot_projected s = slot_projected s1) as -> by (by destruct Hs as [->|[_ ->]]).
  split; [by eapply bounded_sent|]. intros Hunsel.
  assert (s = s1) as -> by (destruct Hs as [->|[_ ->]]; [done|by cbn in Hunsel]).
  assert (s1 = s0) as -> by (destruct Hfrom as [->|(Hsel & _ & ->)]; [done|by cbn in Hunsel]).
  destruct (Hdrop Hunsel) as (H1 & H2 & H3). split; [done|]. split; [done|]. split; [done|].
  rewrite <- Hproj by lia. rewrite Forall_forall in Hf. apply Hf; [|done].
  apply list_elem_of_lookup_2 in Hi. by rewrite <- elem_of_reverse.
Qed.

Definition memory_cost (e : TokenEstimator) (memory : option Message) : Z :=
  match memory with Some m => EstimateAdditional e [m] | None => 0 end.

(** Where the memory message of a plan comes from. *)
Definition memory_from (p : ContextPlanner) (mode : string) (memory : option Message) : Prop :=
  ∀ m, memory = Some m → mode = ContextCompactionAuto ∧ ∃ items, items ≠ []
    ∧ items `prefix_of` ContextMemoryProjection_Items (ContextPlanner_Memory p)
    ∧ m = memory_message (trim_space (ContextMemoryProjection_Instruction (ContextPlanner_Memory p))) items.

Lemma plan_selection_slots e p mode ceiling margin minimum maximum fixed system tools groups current history plan :
  plan_selection e p mode ceiling margin minimum maximum fixed system tools groups current history = Ok plan →
  (∀ group, last groups = Some group →
     Forall2 (sent_as p history false (Z.of_nat (length groups) - 1) (completed_calls group)) group current) →
  ∃ memory slots total reserved,
    let chosen := filter (fun s => slot_selected s = true) slots in
    let limit := ContextPlanner_ContextWindow p - margin - reserved in
    final_slots e p history groups limit total slots
    ∧ Request_Messages (ContextPlan_Request plan) = system ++ option_list memory ++ concat (slot_projected <$> chosen)
    ∧ ContextPlan_TotalTurns plan = Z.of_nat (length groups)
    ∧ ContextPlan_SelectedTurns plan = Z.of_nat (length chosen)
    ∧ ContextPlan_DroppedTurns plan = Z.of_nat (length groups) - Z.of_nat (length chosen)
    ∧ ContextPlan_UsedMemory plan = bool_decide (is_Some memory)
    ∧ memory_from p mode memory
    ∧ total = fixed + memory_cost e memory + selected_size e slots
    ∧ Request_MaxTokens (ContextPlan_Request plan)
      = Z.min reserved (ContextPlanner_ContextWindow p - margin - ContextPlan_EstimatedInput plan)
    ∧ ContextPlan_SafetyMargin plan = margin
    ∧ ContextPlan_EstimatedInput plan
      = EstimateRequest e (mkRequest (Request_Messages (ContextPlan_Request plan)) tools reserved "").
Proof.
  unfold plan_selection. cbn zeta. intros Hplan Hcurrent.
  destruct (bound_loop _ _ _ _ _ _) as [total1 slots1] eqn:Hbound.
  apply guard_Ok in Hplan as [_ Hplan].
  set (reserved := Z.min ceiling (ContextPlanner_ContextWindow p - margin - total1)) in *.
  match type of Hplan with context [if ?b && ?c && ?d then ?x else ?y] =>
    destruct (if b && c && d then x else y) as [memory count] eqn:Hmem end.
  apply guard_Ok in Hplan as [_ Hplan].
  match type of Hplan with context [fill_loop e ?l ?t ?s] => destruct (fill_loop e l t s) as [total2 slots2] eqn:Hfill end.
  cbn [snd] in Hplan. injection Hplan as <-. cbn [ContextPlan_Request Request_Messages Request_MaxTokens
    ContextPlan_TotalTurns ContextPlan_SelectedTurns ContextPlan_DroppedTurns ContextPlan_UsedMemory
    ContextPlan_EstimatedInput ContextPlan_SafetyMargin].
  exists memory, (reverse slots2), total2, reserved. cbn zeta.
  split; [by eapply loops_final|]. do 5 (split; [done|]). split; [|split; [|by repeat split]].
  - intros m ->. destruct (bool_decide (mode = ContextCompactionAuto)) eqn:Hmode; [|done].
    apply bool_decide_eq_true in Hmode. split; [done|].
    destruct (_ && _); [|done]. apply selectMemoryMessage_spec in Hmem as (items & ? & ? & _ & ->). by exists items.
  - apply fill_loop_spec in Hfill as (Hsize & _). apply bound_loop_spec in Hbound as (Hsize0 & _).
    rewrite !selected_size_reverse in *. destruct memory; cbn [memory_cost]; lia.
Qed.

Lemma omap_Some {A} (l : list A) : omap id (Some <$> l) = l.
Proof. induction l as [|x l IH]; [done|]. cbn. by f_equal. Qed.

(** C16. A plan keeps the conversation together. It sends the system messages, at
    most one memory message (the instruction and a prefix of the recalled items),
    and then the turns in order. Every turn it leaves out is neither among the
    last three nor protected nor involves a tool; in a turn it sends, messages,
    roles, calls and answers correspond one to one, user messages are verbatim,
    and only what [sent_as] allows is abridged. *)
Theorem Plan_keeps_turns (p : ContextPlanner) (messages : list Message) (tools : list Tool)
    (history : gmap string string) (plan : ContextPlan)
    (Hplan : Plan p messages tools history = Ok plan) :
  let (system, conversational) := SplitSystemMessages messages in
  let groups := messageGroups conversational in
  ∃ memory sent,
    Request_Messages (ContextPlan_Request plan) = system ++ option_list memory ++ concat (omap id sent)
    ∧ length sent = length groups
    ∧ ContextPlan_SelectedTurns plan = Z.of_nat (length (omap id sent))
    ∧ ContextPlan_DroppedTurns plan = ContextPlan_TotalTurns plan - ContextPlan_SelectedTurns plan
    ∧ ContextPlan_UsedMemory plan = bool_decide (is_Some memory)
    ∧ memory_from p (if decide (ContextPlanner_Mode p = "") then ContextCompactionAuto else ContextPlanner_Mode p) memory
    ∧ ∀ i group, groups !! i = Some group →
        ∃ o, sent !! i = Some o ∧ turn_sent p history (length groups) i group o.
Proof.
  unfold Plan in Hplan. destruct (_ <? 1); [done|].
  destruct (ContextPlanner_Estimator p) as [e|]; [|done].
  apply bind_Ok in Hplan as ([[[[mode ceiling] margin] minimum] maximum] & Hbudget & Hplan).
  apply plan_budget_Ok in Hbudget as (Hmode & _). rewrite <- Hmode. clear Hmode.
  destruct (SplitSystemMessages messages) as [system conversational].
  apply guard_Ok in Hplan as [_ Hplan]. set (groups := messageGroups conversational) in *. cbn zeta.
  destruct (last groups) as [current0|] eqn:Hlast.
  2:{ injection Hplan as <-. apply last_None in Hlast. rewrite Hlast. exists None, [].
      cbn. rewrite app_nil_r. by repeat split. }
  apply guard_Ok in Hplan as [_ Hplan]. case_decide as Hoff.
  - apply guard_Ok in Hplan as [_ Hplan]. injection Hplan as <-. exists None, (Some <$> groups). cbn.
    rewrite omap_Some, length_fmap. unfold groups at 1. rewrite (proj1 (messageGroups_partition conversational)).
    split; [done|]. split; [done|]. split; [done|]. split; [lia|]. split; [done|]. split; [done|].
    intros i group Hi. exists (Some group). rewrite list_lookup_fmap, Hi. split; [done|]. cbn.
    apply Forall_Forall2_diag, Forall_forall. intros m _. apply sent_as_refl.
  - apply plan_selection_slots in Hplan as (memory & slots & total & reserved & (Hlen & Hslots) & Hreq & Htotal & Hsel
      & Hdrop & Hused & Hmem & _).
    2:{ intros group Hg. rewrite Hlast in Hg. injection Hg as ->. destruct (_ && _); [apply current_sent|].
        apply Forall_Forall2_diag, Forall_forall. intros m _. apply sent_as_refl. }
    exists memory, (sent_turns slots). rewrite sent_turns_filter, length_fmap.
    split; [done|]. split; [unfold sent_turns; by rewrite length_fmap|]. split; [done|].
    split; [by rewrite Hdrop, Htotal, Hsel|]. split; [done|]. split; [done|].
    intros i group Hi. destruct (lookup_lt_is_Some_2 slots i) as [s Hs].
    { rewrite Hlen. by eapply lookup_lt_Some. }
    destruct (Hslots i s Hs) as (group' & Hg & Hsent & Hun). rewrite Hi in Hg. injection Hg as <-.
    unfold sent_turns. rewrite list_lookup_fmap, Hs. eexists. split; [done|].
    destruct (slot_selected s); [done|]. destruct (Hun eq_refl) as (? & ? & ? & _). done.
Qed.

(** ** The estimator of the repository *)

(** An estimator that charges messages one by one. *)
Definition additive (e : TokenEstimator) : Prop := ∀ first second tools n effort,
  EstimateRequest e (mkRequest (first ++ second) tools n effort)
  = EstimateRequest e (mkRequest first tools 0 "") + EstimateAdditional e second.

Lemma additive_app e l1 l2 :
  additive e → EstimateAdditional e (l1 ++ l2) = EstimateAdditional e l1 + EstimateAdditional e l2.
Proof.
  intros He. pose proof (EstimateAdditional_nonneg e l1). pose proof (EstimateAdditional_nonneg e l2).
  unfold EstimateAdditional at 1. rewrite (He l1 l2).
  pose proof (He [] l1 [] 0 "") as H1. cbn [app] in H1. rewrite H1. unfold no_request.
  destruct (Z.ltb_spec (EstimateRequest e (mkRequest [] [] 0 "") + EstimateAdditional e l1 + EstimateAdditional e l2
    - EstimateRequest e (mkRequest [] [] 0 "")) 0); lia.
Qed.

Lemma additive_concat e slots :
  additive e →
  EstimateAdditional e (concat (slot_projected <$> filter (fun s => slot_selected s = true) slots)) = selected_size e slots.
Proof.
  intros He. induction slots as [|s l IH].
  - pose proof (additive_app e [] [] He) as H. cbn in *. change (selected_size e []) with 0. lia.
  - rewrite filter_cons, selected_size_cons. destruct (slot_selected s) eqn:Hs;
      [rewrite decide_True by done|by rewrite decide_False]. cbn [fmap list_fmap concat].
    by rewrite additive_app, IH.
Qed.

Section Conservative.
Context (c : Calibration) (Hscale : ∀ n, 0 <= n → 0 <= scale c n).

Lemma DivideRoundUp_nonneg value divisor : 0 < divisor → 0 <= DivideRoundUp value divisor.
Proof.
  intros Hd. unfold DivideRoundUp. destruct (Z.leb_spec value 0); [lia|].
  rewrite Z.quot_div_nonneg by lia. pose proof (Z.div_pos (value - 1) divisor ltac:(lia) Hd). lia.
Qed.

Lemma count_rune_nonneg segments (counts : Z * Z * Z) :
  0 <= counts.1.2 → 0 <= (foldl (count_rune c) counts segments).1.2.
Proof.
  revert counts. induction segments as [|s l IH]; intros [[a k] o] Hk; [done|]. cbn [foldl]. apply IH.
  unfold count_rune. destruct (s.1 <=? 127), (cjk_rune c s.1); cbn in *; lia.
Qed.

Lemma conservative_text_nonneg value : 0 <= conservative_text c value.
Proof.
  unfold conservative_text. pose proof (count_rune_nonneg (runes value) (0, 0, 0) ltac:(done)) as Hk.
  destruct (foldl _ _ _) as [[ascii cjk] other]. cbn in Hk. apply Hscale.
  pose proof (DivideRoundUp_nonneg ascii 3 ltac:(lia)). pose proof (DivideRoundUp_nonneg other 2 ltac:(lia)).
  destruct (negb _ && _); lia.
Qed.

(** What one message adds. *)
Definition message_cost (m : Message) : Z := estimate_message c 0 m.

Lemma estimate_calls_shift calls total :
  foldl (estimate_call c) total calls = total + foldl (estimate_call c) 0 calls
  ∧ 0 <= foldl (estimate_call c) 0 calls.
Proof.
  revert total. induction calls as [|call calls IH]; intros total; [cbn; lia|]. cbn [foldl].
  destruct (IH (estimate_call c total call)) as [-> _]. destruct (IH (estimate_call c 0 call)) as [-> Hpos].
  unfold estimate_call at 1 3 5.
  pose proof (conservative_text_nonneg (ToolCall_ID call)). pose proof (conservative_text_nonneg (ToolCall_Type call)).
  pose proof (conservative_text_nonneg (ToolFunction_Name (ToolCall_Function call))).
  pose proof (conservative_text_nonneg (ToolFunction_Arguments (ToolCall_Function call))). lia.
Qed.

Lemma estimate_message_shift m total : estimate_message c total m = total + message_cost m ∧ 0 < message_cost m.
Proof.
  unfold message_cost, estimate_message.
  pose proof (conservative_text_nonneg (Message_Role m)). pose proof (conservative_text_nonneg (Message_Content m)).
  pose proof (conservative_text_nonneg (Message_ToolCallID m)).
  match goal with |- foldl _ ?t _ = _ ∧ _ => destruct (estimate_calls_shift (Message_ToolCalls m) t) as [-> Hc] end.
  match goal with |- context [foldl _ (0 + 6 + ?x + ?y + ?z) _] =>
    destruct (estimate_calls_shift (Message_ToolCalls m) (0 + 6 + x + y + z)) as [-> _] end.
  lia.
Qed.

Definition messages_cost (l : list Message) : Z := foldr (fun m n => message_cost m + n) 0 l.

Lemma estimate_messages_shift l total :
  foldl (estimate_message c) total l = total + messages_cost l ∧ 0 <= messages_cost l.
Proof.
  revert total. induction l as [|m l IH]; intros total; [cbn; lia|]. cbn [foldl].
  destruct (estimate_message_shift m total) as [-> Hm]. destruct (IH (total + message_cost m)) as [-> Hl].
  cbn. fold (messages_cost l). lia.
Qed.

Lemma estimate_tools_shift tools total n :
  foldl (estimate_tool c) (total + n) tools = foldl (estimate_tool c) total tools + n.
Proof.
  revert total. induction tools as [|t l IH]; intros total; [done|]. cbn [foldl]. rewrite <- IH. f_equal.
  unfold estimate_tool. destruct (bool_decide _); [lia|]. destruct (compact_json c _); lia.
Qed.

Lemma conservative_additional l : EstimateAdditional (ConservativeTokenEstimator c) l = messages_cost l.
Proof.
  unfold EstimateAdditional. cbn. unfold conservative_request. cbn.
  destruct (estimate_messages_shift l 8) as [-> Hl]. destruct (Z.ltb_spec (8 + messages_cost l - 8) 0); lia.
Qed.

Lemma conservative_positive l : l ≠ [] → 0 < EstimateAdditional (ConservativeTokenEstimator c) l.
Proof.
  rewrite conservative_additional. destruct l as [|m l]; [done|]. intros _. cbn.
  destruct (estimate_message_shift m 0) as [_ Hm]. destruct (estimate_messages_shift l 0) as [_ Hl].
  unfold messages_cost in Hl. lia.
Qed.

Lemma conservative_additive : additive (ConservativeTokenEstimator c).
Proof.
  intros first second tools n effort. rewrite conservative_additional.
  cbn [EstimateRequest ConservativeTokenEstimator]. unfold conservative_request. cbn [Request_Messages Request_Tools].
  rewrite foldl_app. destruct (estimate_messages_shift second (foldl (estimate_message c) 8 first)) as [-> _].
  apply estimate_tools_shift.
Qed.
End Conservative.

(** With the estimator of the repository a plan leaves out only what does not
    fit: adding any of the turns it dropped to the input it estimated would
    exceed the window, output and safety margin included. *)
Theorem Plan_drops_only_what_does_not_fit (c : Calibration) (p : ContextPlanner) (messages : list Message)
    (tools : list Tool) (history : gmap string string) (plan : ContextPlan)
    (Hscale : ∀ n, 0 <= n → 0 <= scale c n)
    (He : ContextPlanner_Estimator p = Some (ConservativeTokenEstimator c))
    (Hplan : Plan p messages tools history = Ok plan) :
  let groups := messageGroups (SplitSystemMessages messages).2 in
  ∃ before (sent : list (option (list Message))), length sent = length groups
    ∧ ContextPlan_SelectedTurns plan = Z.of_nat (length (omap id sent))
    ∧ Request_Messages (ContextPlan_Request plan) = before ++ concat (omap id sent)
    ∧ ∀ i group, groups !! i = Some group →
        ∃ o, sent !! i = Some o ∧ turn_sent p history (length groups) i group o
          ∧ (o = None →
             ContextPlanner_ContextWindow p
             < ContextPlan_EstimatedInput plan
               + EstimateAdditional (ConservativeTokenEstimator c) (projectHistoryGroup group history)
               + Request_MaxTokens (ContextPlan_Request plan) + ContextPlan_SafetyMargin plan).
Proof.
  unfold Plan in Hplan. destruct (_ <? 1); [done|]. rewrite He in Hplan.
  apply bind_Ok in Hplan as ([[[[mode ceiling] margin] minimum] maximum] & _ & Hplan).
  destruct (SplitSystemMessages messages) as [system conversational]. cbn [snd]. cbn zeta.
  apply guard_Ok in Hplan as [_ Hplan]. set (groups := messageGroups conversational) in *.
  destruct (last groups) as [current0|] eqn:Hlast.
  2:{ injection Hplan as <-. apply last_None in Hlast. rewrite Hlast. exists system, [].
      cbn. rewrite app_nil_r. by repeat split. }
  apply guard_Ok in Hplan as [_ Hplan]. case_decide as Hoff.
  - apply guard_Ok in Hplan as [_ Hplan]. injection Hplan as <-. exists system, (Some <$> groups). cbn.
    rewrite omap_Some, length_fmap. split; [done|]. split; [done|]. split.
    + unfold groups. by rewrite (proj1 (messageGroups_partition conversational)).
    + intros i group Hi. exists (Some group). rewrite list_lookup_fmap, Hi. split; [done|]. split; [|done]. cbn.
      apply Forall_Forall2_diag, Forall_forall. intros m _. apply sent_as_refl.
  - apply plan_selection_slots in Hplan as (memory & slots & total & reserved & (Hlen & Hslots) & Hreq & _ & Hsel
      & _ & _ & _ & Htotal & Hmax & Hmargin & Hest).
    2:{ intros group Hg. rewrite Hlast in Hg. injection Hg as ->. destruct (_ && _); [apply current_sent|].
        apply Forall_Forall2_diag, Forall_forall. intros m _. apply sent_as_refl. }
    pose proof (conservative_additive c Hscale) as Hadd.
    exists (system ++ option_list memory), (sent_turns slots). rewrite sent_turns_filter, length_fmap.
    split; [unfold sent_turns; by rewrite length_fmap|]. split; [done|].
    split; [by rewrite Hreq, <- app_assoc|].
    intros i group Hi. destruct (lookup_lt_is_Some_2 slots i) as [s Hs].
    { rewrite Hlen. by eapply lookup_lt_Some. }
    destruct (Hslots i s Hs) as (group' & Hg & Hsent & Hun). rewrite Hi in Hg. injection Hg as <-.
    unfold sent_turns. rewrite list_lookup_fmap, Hs. eexists. split; [done|].
    destruct (slot_selected s); [done|]. destruct (Hun eq_refl) as (H1 & H2 & H3 & Hfit).
    split; [done|]. intros _.
    rewrite Hreq, Hadd, additive_app, additive_concat in Hest by done.
    assert (EstimateAdditional (ConservativeTokenEstimator c) (option_list memory) = memory_cost (ConservativeTokenEstimator c) memory) as Hmem.
    { destruct memory; [done|]. rewrite conservative_additional; done. }
    assert (projectHistoryGroup group history ≠ []) as Hne.
    { destruct (messageGroups_partition conversational) as [_ [Hturns _]].
      apply list_elem_of_lookup_2 in Hi. rewrite Forall_forall in Hturns.
      destruct (Hturns group Hi) as (first & rest & -> & _). done. }
    pose proof (conservative_positive c Hscale _ Hne). lia.
Qed.

(** ** A conversation *)
Module Samples.
Definition sample_calibration : Calibration :=
  mkCalibration (fun r => in_range 19968 r 40959) (fun n => n) (fun s => Some s).

Definition sample_planner : ContextPlanner :=
  mkContextPlanner 2048 1024 "" (Some (ConservativeTokenEstimator sample_calibration))
    (mkContextMemoryProjection "recall" ["likes diagrams"; "knows fractions"]) 0 ∅ ∅.

Definition say (role content : string) : Message := mkMessage role content [] "".
Definition long_answer (n : nat) : string := string_of_bytes (repeat 97 n).

(** Six turns: an old long one, one with a tool, and recent ones. *)
Definition sample_messages : list Message :=
  [say "system" "rules"; say "user" "first"; say "assistant" (long_answer 3000);
   say "user" "look up"; mkMessage "assistant" "" [mkToolCall "c1" "function" (mkToolFunction "read" "{}")] "";
   mkMessage "tool" "found" [] "c1"; say "assistant" (long_answer 2100);
   say "user" "q3"; say "assistant" "a3"; say "user" "q4"; say "assistant" (long_answer 2100);
   say "user" "q5"; say "assistant" "a5"; say "user" "q6"].

Notation sample_plan := (Plan sample_planner sample_messages [] ∅).

(** Two turns are dropped and the answer after the tool result is bounded. *)
Example sample_plan_value :
  match sample_plan with
  | Ok plan => (ContextPlan_TotalTurns plan, ContextPlan_SelectedTurns plan, ContextPlan_ProjectedTurns plan,
                ContextPlan_MemoryItemCount plan)
  | Err _ => (0, 0, 0, 0)
  end = (6, 4, 1, 0).
Proof. vm_compute. reflexivity. Qed.
Lemma sample_plan_ok : ∃ plan, sample_plan = Ok plan.
Proof.
  assert (match sample_plan with Ok _ => true | Err _ => false end = true) as Hok by (vm_compute; reflexivity).
  destruct sample_plan as [plan|err]; [by exists plan|discriminate].
Qed.
End Samples.

Import Samples.

Lemma PercentRoundUp_exact_witness : PercentRoundUp int64_max 5 = (int64_max * 5 + 99) / 100.
Proof. apply (PercentRoundUp_exact int64_max 5); [by vm_compute|lia]. Defined.

Lemma Plan_fits_window_witness :
  ∃ plan, sample_plan = Ok plan ∧
    ContextPlan_EstimatedInput plan + Request_MaxTokens (ContextPlan_Request plan) + ContextPlan_SafetyMargin plan <= 2048.
Proof.
  destruct sample_plan_ok as [plan H]. exists plan. split; [exact H|].
  apply (Plan_fits_window sample_planner sample_messages [] ∅ plan H).
Defined.

Lemma Plan_keeps_turns_witness :
  ∃ plan memory sent, sample_plan = Ok plan
    ∧ Request_Messages (ContextPlan_Request plan) = [say "system" "rules"] ++ option_list memory ++ concat (omap id sent).
Proof.
  destruct sample_plan_ok as [plan H].
  destruct (Plan_keeps_turns sample_planner sample_messages [] ∅ plan H) as (memory & sent & Hm & _).
  exists plan, memory, sent. split; [exact H|]. exact Hm.
Defined.

Lemma Plan_drops_only_what_does_not_fit_witness :
  ∃ plan (sent : list (option (list Message))), sample_plan = Ok plan ∧ length sent = length (messageGroups (SplitSystemMessages sample_messages).2)
    ∧ ContextPlan_SelectedTurns plan = Z.of_nat (length (omap id sent)).
Proof.
  destruct sample_plan_ok as [plan H].
  destruct (Plan_drops_only_what_does_not_fit sample_calibration sample_planner sample_messages [] ∅ plan
    (fun n Hn => Hn) eq_refl H) as (before & sent & Hlen & Hsel & _).
  exists plan, sent. split; [exact H|]. split; [exact Hlen|exact Hsel].
Defined.
