(* ===== verification/AgentTools.v ===== *)
(** * The tool set of the agent core

    [packages/agentcore/tools.go] and [interaction.go]: the allow-list of tools a
    host registers, the invocation of a call and the resolution of the question it
    may raise. The effects of tools are over a world [W]; a context is what
    [ctx.Err()] reads in a world. [Invoke] and [Resolve] are each two parts, as the
    mutex divides them: what happens under the lock, and the tool's own work
    outside it; interleavings of the parts are the step relation [sys_step].
    [DecodeArguments], a second pass over the tokens of encoding/json, is not
    modelled. *)
From S2P Require Import Prelude GoStd AgentMessages ContextPlan.

(** ** Questions (interaction.go) *)
Inductive QuestionMode : Type :=
| QuestionSingle
| QuestionMultiple
| QuestionModeOther (s : string).
#[export] Instance QuestionMode_eq_dec : EqDecision QuestionMode.
Proof. solve_decision. Defined.

Inductive QuestionAnswerStatus : Type :=
| QuestionAnswered
| QuestionCancelled
| QuestionUnavailable
| QuestionAnswerStatusOther (s : string).
#[export] Instance QuestionAnswerStatus_eq_dec : EqDecision QuestionAnswerStatus.
Proof. solve_decision. Defined.

Definition QuestionAnswerStatus_string (status : QuestionAnswerStatus) : string :=
  match status with
  | QuestionAnswered => "answered"
  | QuestionCancelled => "cancelled"
  | QuestionUnavailable => "unavailable"
  | QuestionAnswerStatusOther s => s
  end.

Record QuestionOption := mkQuestionOption {
  QuestionOption_ID : string;
  QuestionOption_Label : string;
  QuestionOption_Description : string;
}.

Record PendingQuestion := mkPendingQuestion {
  PendingQuestion_ID : string;
  PendingQuestion_Header : string;
  PendingQuestion_Question : string;
  PendingQuestion_Mode : QuestionMode;
  PendingQuestion_Options : list QuestionOption;
  PendingQuestion_AllowCustom : bool;
}.

Record QuestionAnswer := mkQuestionAnswer {
  QuestionAnswer_QuestionID : string;
  QuestionAnswer_Status : QuestionAnswerStatus;
  QuestionAnswer_OptionIDs : list string;
  QuestionAnswer_Custom : string;
}.

(** ** Checks *)
Definition validateToolContent (value : string) : result error unit :=
  fail_if ((8 * 2 ^ 10 <? str_len value) || negb (valid_utf8 value))
    (ErrorNew "tool_result_too_large_or_invalid").

(** The loop over the chosen options, with the map of those still allowed. *)
Fixpoint check_options (allowed : gset string) (ids : list string) : result error unit :=
  match ids with
  | [] => Ok tt
  | id :: ids =>
    _ ← fail_if (negb (bool_decide (id ∈ allowed))) (ErrorNew "问题回答包含未知或重复选项");
    check_options (allowed ∖ {[id]}) ids
  end.

Definition validateAnswer (question : option PendingQuestion) (answer : QuestionAnswer) : result error unit :=
  match question with
  | None => Err (ErrorNew "问题ID与当前待处理问题不匹配")
  | Some question =>
    let ids := QuestionAnswer_OptionIDs answer in
    let status := QuestionAnswer_Status answer in
    _ ← fail_if (negb (bool_decide (PendingQuestion_ID question = QuestionAnswer_QuestionID answer)))
          (ErrorNew "问题ID与当前待处理问题不匹配");
    _ ← fail_if (negb (valid_utf8 (QuestionAnswer_Custom answer)) || (8 * 2 ^ 10 <? str_len (QuestionAnswer_Custom answer)))
          (ErrorNew "自定义回答无效");
    if bool_decide (status = QuestionCancelled) || bool_decide (status = QuestionUnavailable) then
      fail_if (negb (is_nil ids) || negb (bool_decide (QuestionAnswer_Custom answer = "")))
        (ErrorNew "取消或不可用回答不能包含选项或自定义内容")
    else
      _ ← fail_if (negb (bool_decide (status = QuestionAnswered))) (ErrorNew "问题回答状态无效");
      _ ← check_options (list_to_set (QuestionOption_ID <$> PendingQuestion_Options question)) ids;
      let custom := negb (bool_decide (trim_space (QuestionAnswer_Custom answer) = "")) in
      _ ← fail_if (custom && negb (PendingQuestion_AllowCustom question)) (ErrorNew "当前问题不接受自定义回答");
      if decide (PendingQuestion_Mode question = QuestionSingle) then
        fail_if ((custom && negb (is_nil ids)) || (negb custom && negb (length ids =? 1)%nat))
          (ErrorNew "单选回答必须选择一个选项或只提供自定义内容")
      else
        fail_if (negb (bool_decide (PendingQuestion_Mode question = QuestionMultiple)) || (is_nil ids && negb custom))
          (ErrorNew "多选回答至少需要一个选项或自定义内容")
  end.

(** ** Tools *)
Section ToolSet.
Context {W : Type}.

(** [ctx.Err()] in a world. *)
Definition GoContext : Type := W → option error.

Record ToolOutput := mkToolOutput {
  ToolOutput_Content : string;
  ToolOutput_Question : option PendingQuestion;
  ToolOutput_Resume : option (GoContext → W → QuestionAnswer → W * result error string);
}.

Record ToolRegistration := mkToolRegistration {
  ToolRegistration_Definition : Tool;
  ToolRegistration_Execute : option (GoContext → W → string → W * result error ToolOutput);
}.

Record ToolSet := mkToolSet {
  set_tools : gmap string ToolRegistration;
  set_order : list string;
  set_seen : gset string;
  set_pending : gmap string ToolOutput;
  set_timeout : duration;
}.

Definition registration_name (r : ToolRegistration) : string :=
  ToolDefinition_Name (Tool_Function (ToolRegistration_Definition r)).

Definition add_registration (s : ToolSet) (r : ToolRegistration) : result error ToolSet :=
  let name := registration_name r in
  _ ← fail_if (bool_decide (name = "") || negb (bool_decide (Tool_Type (ToolRegistration_Definition r) = "function"))
               || match ToolRegistration_Execute r with None => true | Some _ => false end
               || negb (json_valid (ToolDefinition_Parameters (Tool_Function (ToolRegistration_Definition r)))))
        (ErrorNew "工具注册无效");
  _ ← fail_if (match set_tools s !! name with Some _ => true | None => false end) (ErrorNew "工具注册重复");
  Ok (mkToolSet (<[name := r]> (set_tools s)) (set_order s ++ [name]) (set_seen s) (set_pending s) (set_timeout s)).

Definition NewToolSet (timeout : duration) (registrations : list ToolRegistration) : result error ToolSet :=
  _ ← fail_if (timeout <=? 0) (ErrorNew "工具超时必须为正数");
  fold_result add_registration (mkToolSet ∅ [] ∅ ∅ timeout) registrations.

Definition Definitions (s : ToolSet) : list Tool :=
  (fun name => match set_tools s !! name with
               | Some registration => ToolRegistration_Definition registration
               | None => mkTool "" (mkToolDefinition "" "" "")
               end) <$> set_order s.

Definition with_seen (seen : gset string) (s : ToolSet) : ToolSet :=
  mkToolSet (set_tools s) (set_order s) seen (set_pending s) (set_timeout s).
Definition with_pending (pending : gmap string ToolOutput) (s : ToolSet) : ToolSet :=
  mkToolSet (set_tools s) (set_order s) (set_seen s) pending (set_timeout s).

Definition reserve_id (reserved : gset string) (id : string) : result error (gset string) :=
  _ ← fail_if (bool_decide (id = "") || (512 <? str_len id) || negb (valid_utf8 id)) (ErrorNew "历史工具身份无效");
  _ ← fail_if (bool_decide (id ∈ reserved)) (ErrorNew "历史工具身份重复");
  Ok (reserved ∪ {[id]}).

Definition ReserveCallIDs (s : ToolSet) (ids : list string) : result error ToolSet :=
  _ ← fail_if (negb (bool_decide (set_seen s = ∅))) (ErrorNew "历史身份只能在工具运行前恢复");
  reserved ← fold_result reserve_id ∅ ids;
  Ok (with_seen reserved s).

(** [now] reads the clock of a world. *)
Context (now : W → time).

(** [context.WithTimeout], created in world [w]. *)
Definition WithTimeout (ctx : GoContext) (w : W) (timeout : duration) : GoContext := fun w' =>
  match ctx w' with
  | Some err => Some err
  | None => if time_add (now w) timeout <=? now w' then Some (ErrorForeign "context deadline exceeded") else None
  end.

(** [Invoke] up to the release of the lock: the call is taken. *)
Definition take_call (ctx : GoContext) (s : ToolSet) (w : W) (call : ToolCall) : ToolSet * result error ToolRegistration :=
  match ctx w with
  | Some err => (s, Err err)
  | None =>
    match ValidateModelMessage (mkMessage "assistant" "" [call] "") with
    | Err err => (s, Err err)
    | Ok _ =>
      match set_tools s !! ToolFunction_Name (ToolCall_Function call) with
      | None => (s, Err (ErrorNew "tool_not_allowed"))
      | Some registration =>
        if decide (ToolCall_ID call ∈ set_seen s) then (s, Err (ErrorNew "duplicate_tool_call"))
        else (with_seen (set_seen s ∪ {[ToolCall_ID call]}) s, Ok registration)
      end
    end
  end.

(** The checks after the tool ran: the output for the caller, and whether the call
    is now pending. *)
Definition accept_output (output : ToolOutput) : result error (ToolOutput * bool) :=
  _ ← validateToolContent (ToolOutput_Content output);
  match ToolOutput_Question output with
  | Some question =>
    _ ← fail_if (match ToolOutput_Resume output with None => true | Some _ => false end
                 || bool_decide (PendingQuestion_ID question = "")) (ErrorNew "交互续行无效");
    Ok (mkToolOutput (ToolOutput_Content output) (Some question) None, true)
  | None =>
    _ ← fail_if (match ToolOutput_Resume output with None => false | Some _ => true end) (ErrorNew "缺少待处理问询");
    Ok (output, false)
  end.

(** The rest of [Invoke]: the tool runs, then its output is checked and, if it asks
    a question, becomes pending. *)
Definition run_call (ctx : GoContext) (timeout : duration) (registration : ToolRegistration) (w : W) (call : ToolCall)
  : W * result error (ToolOutput * ToolOutput * bool) :=
  match ToolRegistration_Execute registration with
  | None => (w, Err (ErrorForeign "nil function"))
  | Some execute =>
    let toolCtx := WithTimeout ctx w timeout in
    let (w, output) := execute toolCtx w (ToolFunction_Arguments (ToolCall_Function call)) in
    match toolCtx w with
    | Some err => (w, Err err)
    | None => (w, output ← output; accepted ← accept_output output; Ok (output, accepted.1, accepted.2))
    end
  end.

Definition record_output (s : ToolSet) (call : ToolCall) (out : result error (ToolOutput * ToolOutput * bool))
  : ToolSet * result error ToolOutput :=
  match out with
  | Err err => (s, Err err)
  | Ok (output, shown, pending) =>
    (if pending : bool then with_pending (<[ToolCall_ID call := output]> (set_pending s)) s else s, Ok shown)
  end.

Definition Invoke (ctx : GoContext) (s : ToolSet) (w : W) (call : ToolCall) : ToolSet * W * result error ToolOutput :=
  match take_call ctx s w call with
  | (s, Err err) => (s, w, Err err)
  | (s, Ok registration) =>
    let (w, out) := run_call ctx (set_timeout s) registration w call in
    let (s, res) := record_output s call out in
    (s, w, res)
  end.

(** [Resolve] up to the release of the lock: the pending question is consumed. *)
Definition consume (ctx : GoContext) (s : ToolSet) (w : W) (callID : string) (answer : QuestionAnswer)
  : ToolSet * result error ToolOutput :=
  match ctx w with
  | Some err => (s, Err err)
  | None =>
    match set_pending s !! callID with
    | None => (s, Err (ErrorNew "interaction_not_pending"))
    | Some pending =>
      match validateAnswer (ToolOutput_Question pending) answer with
      | Err err => (s, Err err)
      | Ok _ => (with_pending (delete callID (set_pending s)) s, Ok pending)
      end
    end
  end.

(** The rest of [Resolve]: nothing runs unless the question was answered. *)
Definition run_resume (ctx : GoContext) (timeout : duration) (pending : ToolOutput) (w : W) (answer : QuestionAnswer)
  : W * (string * option error) :=
  if negb (bool_decide (QuestionAnswer_Status answer = QuestionAnswered)) then
    (w, ("{" +:+ json_field "question_id" (json_string (QuestionAnswer_QuestionID answer)) +:+ ","
         +:+ json_field "status" (json_string (QuestionAnswerStatus_string (QuestionAnswer_Status answer))) +:+ "}", None))
  else
    match ToolOutput_Resume pending with
    | None => (w, ("", Some (ErrorForeign "nil function")))
    | Some resume =>
      let toolCtx := WithTimeout ctx w timeout in
      let (w, res) := resume toolCtx w answer in
      match toolCtx w, res with
      | Some err, _ => (w, ("", Some err))
      | None, Err err => (w, ("", Some err))
      | None, Ok value => (w, (value, match validateToolContent value with Ok _ => None | Err err => Some err end))
      end
    end.

Definition Resolve (ctx : GoContext) (s : ToolSet) (w : W) (callID : string) (answer : QuestionAnswer)
  : ToolSet * W * (string * option error) :=
  match consume ctx s w callID answer with
  | (s, Err err) => (s, w, ("", Some err))
  | (s, Ok pending) => let (w, res) := run_resume ctx (set_timeout s) pending w answer in (s, w, res)
  end.
End ToolSet.
Arguments GoContext : clear implicits.
Arguments ToolOutput : clear implicits.
Arguments ToolRegistration : clear implicits.
Arguments ToolSet : clear implicits.




(** ** Resolution *)
Section Facts.
Context {W : Type} (now : W → time).




(** ** Interleavings *)

(** The tool set, the world, and the calls and answers that are under way outside
    the lock; the logs name the tools run, the resumptions run and the identifiers
    reserved from checkpoints. *)
Record System := mkSystem {
  sys_set : ToolSet W;
  sys_world : W;
  sys_running : list (ToolCall * ToolRegistration W * GoContext W);
  sys_finished : list (ToolCall * result error (ToolOutput W * ToolOutput W * bool));
  sys_resuming : list (string * ToolOutput W * QuestionAnswer * GoContext W);
  sys_executed : list string;
  sys_resumed : list string;
  sys_reserved : list string;
}.

Inductive sys_step : System → System → Prop :=
| step_take ctx call s' registration s w run fin res ex re rv :
  take_call ctx s w call = (s', Ok registration) →
  sys_step (mkSystem s w run fin res ex re rv) (mkSystem s' w ((call, registration, ctx) :: run) fin res ex re rv)
| step_run call registration ctx run1 run2 w' out s w fin res ex re rv :
  run_call now ctx (set_timeout s) registration w call = (w', out) →
  sys_step (mkSystem s w (run1 ++ (call, registration, ctx) :: run2) fin res ex re rv)
    (mkSystem s w' (run1 ++ run2) ((call, out) :: fin) res (ToolCall_ID call :: ex) re rv)
| step_record call out fin1 fin2 s' shown s w run res ex re rv :
  record_output s call out = (s', shown) →
  sys_step (mkSystem s w run (fin1 ++ (call, out) :: fin2) res ex re rv) (mkSystem s' w run (fin1 ++ fin2) res ex re rv)
| step_consume ctx callID answer s' output s w run fin res ex re rv :
  consume ctx s w callID answer = (s', Ok output) →
  sys_step (mkSystem s w run fin res ex re rv) (mkSystem s' w run fin ((callID, output, answer, ctx) :: res) ex re rv)
| step_resume callID output answer ctx res1 res2 w' value s w run fin ex re rv :
  run_resume now ctx (set_timeout s) output w answer = (w', value) →
  sys_step (mkSystem s w run fin (res1 ++ (callID, output, answer, ctx) :: res2) ex re rv)
    (mkSystem s w' run fin (res1 ++ res2) ex (callID :: re) rv)
| step_restore ids s' s w run fin res ex re rv :
  ReserveCallIDs s ids = Ok s' →
  sys_step (mkSystem s w run fin res ex re rv) (mkSystem s' w run fin res ex re (ids ++ rv))
| step_world w' s w run fin res ex re rv :
  sys_step (mkSystem s w run fin res ex re rv) (mkSystem s w' run fin res ex re rv).

Definition start (s : ToolSet W) (w : W) : System := mkSystem s w [] [] [] [] [] [].

Definition running_ids (y : System) : list string := (fun r => ToolCall_ID r.1.1) <$> sys_running y.
Definition finished_ids (y : System) : list string := (fun r => ToolCall_ID r.1) <$> sys_finished y.
Definition resuming_ids (y : System) : list string := (fun r => r.1.1.1) <$> sys_resuming y.

(** Where an executed call may be: its output under way, pending, or resolved. *)
Definition places (y : System) : list string :=
  finished_ids y ++ (map_to_list (set_pending (sys_set y))).*1 ++ resuming_ids y ++ sys_resumed y.

Record sys_ok (seen0 : gset string) (y : System) : Prop := mk_sys_ok {
  ok_calls : NoDup (running_ids y ++ sys_executed y);
  ok_seen : ∀ id, id ∈ running_ids y ++ sys_executed y → id ∈ set_seen (sys_set y) ∧ id ∉ seen0;
  ok_places : NoDup (places y);
  ok_executed : ∀ id, id ∈ places y → id ∈ sys_executed y;
  ok_start : seen0 ⊆ set_seen (sys_set y);
  ok_reserved : ∀ id, id ∈ sys_reserved y →
    id ∈ set_seen (sys_set y) ∧ id ∉ running_ids y ++ sys_executed y;
}.

Lemma take_call_Ok ctx (s s' : ToolSet W) w call registration :
  take_call ctx s w call = (s', Ok registration) →
  ToolCall_ID call ∉ set_seen s ∧ s' = with_seen (set_seen s ∪ {[ToolCall_ID call]}) s
  ∧ set_tools s !! ToolFunction_Name (ToolCall_Function call) = Some registration ∧ ctx w = None.
Proof.
  unfold take_call. destruct (ctx w); [done|]. destruct (ValidateModelMessage _); [|done].
  destruct (set_tools s !! _) as [r|]; [|done]. case_decide; [done|]. intros [= <- <-]. done.
Qed.

Lemma consume_Ok ctx (s s' : ToolSet W) w callID answer output :
  consume ctx s w callID answer = (s', Ok output) →
  set_pending s !! callID = Some output ∧ s' = with_pending (delete callID (set_pending s)) s.
Proof.
  unfold consume. destruct (ctx w); [done|]. destruct (set_pending s !! callID) as [p|]; [|done].
  destruct (validateAnswer _ _); [|done]. by intros [= <- <-].
Qed.

Lemma reserve_ids_Ok ids reserved reserved' :
  fold_result reserve_id reserved ids = Ok reserved' → ∀ id, id ∈ reserved' ↔ id ∈ reserved ∨ id ∈ ids.
Proof.
  revert reserved. induction ids as [|i ids IH]; intros reserved; cbn [fold_result].
  - intros [= <-] id. split; [by left|by intros [?|?%not_elem_of_nil]].
  - intros Hf. apply bind_Ok in Hf as (r & Hr & Hf). unfold reserve_id in Hr.
    rewrite !guard_Ok in Hr. destruct Hr as (_ & _ & [= <-]). intros id. rewrite (IH _ Hf id), elem_of_cons. set_solver.
Qed.

(** Restoring reserves exactly the given identifiers, in a set that has seen none. *)
Lemma ReserveCallIDs_Ok (s s' : ToolSet W) ids :
  ReserveCallIDs s ids = Ok s' →
  set_seen s = ∅ ∧ ∃ reserved, s' = with_seen reserved s ∧ ∀ id, id ∈ reserved ↔ id ∈ ids.
Proof.
  unfold ReserveCallIDs. rewrite guard_Ok, negb_false_iff, bool_decide_eq_true, bind_Ok.
  intros (Hs & reserved & Hr & [= <-]). split; [done|]. exists reserved. split; [done|].
  intros id. rewrite (reserve_ids_Ok _ _ _ Hr). set_solver.
Qed.

Ltac sys_simpl := unfold places, finished_ids, resuming_ids, running_ids in *;
  cbn [sys_set sys_world sys_running sys_finished sys_resuming sys_executed sys_resumed sys_reserved
       set_pending set_seen with_pending with_seen fst snd app] in *;
  rewrite ?fmap_app, ?fmap_cons in *; cbn [fst snd] in *.

Ltac sys_split := split; sys_simpl; try done.

Lemma sys_step_ok seen0 y y' : sys_ok seen0 y → sys_step y y' → sys_ok seen0 y'.
Proof.
  intros [Hcalls Hseen Hplaces Hex Hstart Hrv] Hstep. destruct Hstep as
    [ctx call s' registration s w run fin res ex re rv Htake|call registration ctx run1 run2 w' out s w fin res ex re rv Hrun
    |call out fin1 fin2 s' shown s w run res ex re rv Hrec|ctx callID answer s' output s w run fin res ex re rv Hcons
    |callID output answer ctx res1 res2 w' value s w run fin ex re rv Hres|ids s' s w run fin res ex re rv Hresv|]; sys_simpl.
  - apply take_call_Ok in Htake as (Hnew & -> & _).
    assert (ToolCall_ID call ∉ ((fun r => ToolCall_ID r.1.1) <$> run) ++ ex) by (intros Hin; by apply Hseen in Hin as [? _]).
    sys_split.
    + by constructor.
    + intros id [->|Hin]%elem_of_cons; [split; [set_solver|intros Hin; by apply Hnew, Hstart]|].
      apply Hseen in Hin as [? ?]. split; [set_solver|done].
    + set_solver.
    + intros id Hid. destruct (Hrv id Hid) as [Hs Hn]. split; [set_solver|].
      apply not_elem_of_cons. split; [by intros ->|done].
  - set (l1 := (fun r => ToolCall_ID r.1.1) <$> run1) in *. set (l2 := (fun r => ToolCall_ID r.1.1) <$> run2) in *.
    assert (Hperm : (l1 ++ ToolCall_ID call :: l2) ++ ex ≡ₚ (l1 ++ l2) ++ ToolCall_ID call :: ex) by solve_Permutation.
    rewrite Hperm in Hcalls. sys_split.
    + intros id Hin. apply Hseen. by rewrite Hperm.
    + apply NoDup_cons. split; [|done]. intros Hin. apply NoDup_app in Hcalls as (_ & _ & [Hnew _]%NoDup_cons).
      by apply Hnew, Hex.
    + intros id [->|Hin]%elem_of_cons; [left|right; by apply Hex].
    + intros id Hid. destruct (Hrv id Hid) as [Hs Hn]. split; [done|]. intros Hin. apply Hn. by rewrite Hperm.
  - set (f1 := (fun r => ToolCall_ID r.1) <$> fin1) in *. set (f2 := (fun r => ToolCall_ID r.1) <$> fin2) in *.
    set (rs := (fun r => r.1.1.1) <$> res) in *. set (ps := (map_to_list (set_pending s)).*1) in *.
    assert (Hperm : (f1 ++ ToolCall_ID call :: f2) ++ ps ++ rs ++ re ≡ₚ ToolCall_ID call :: (f1 ++ f2) ++ ps ++ rs ++ re)
      by solve_Permutation.
    rewrite Hperm in Hplaces. apply NoDup_cons in Hplaces as [Hnew Hplaces].
    assert (Hid : ToolCall_ID call ∈ ex) by (apply Hex; rewrite Hperm; left).
    assert (Hex' : ∀ id, id ∈ (f1 ++ f2) ++ ps ++ rs ++ re → id ∈ ex) by (intros id Hin; apply Hex; rewrite Hperm; by right).
    unfold record_output in Hrec. destruct out as [[[output out] [|]]|err]; injection Hrec as <- <-; [|by sys_split..].
    assert (Hfree : set_pending s !! ToolCall_ID call = None).
    { apply eq_None_not_Some. intros [o Ho]. apply Hnew. rewrite !elem_of_app. right. left.
      apply list_elem_of_fmap. exists (ToolCall_ID call, o). split; [done|by apply elem_of_map_to_list]. }
    assert (Hins : (f1 ++ f2) ++ (map_to_list (<[ToolCall_ID call:=output]> (set_pending s))).*1 ++ rs ++ re
        ≡ₚ ToolCall_ID call :: (f1 ++ f2) ++ ps ++ rs ++ re).
    { rewrite (map_to_list_insert _ _ _ Hfree), fmap_cons. cbn [fst]. fold ps. solve_Permutation. }
    sys_split; fold f1 f2 rs.
    + rewrite Hins. by apply NoDup_cons.
    + intros id Hin. rewrite Hins in Hin. apply elem_of_cons in Hin as [->|Hin]; [done|by apply Hex'].
  - apply consume_Ok in Hcons as [Hp ->]. set (f := (fun r => ToolCall_ID r.1) <$> fin) in *.
    set (rs := (fun r => r.1.1.1) <$> res) in *.
    assert (Hperm : f ++ (map_to_list (delete callID (set_pending s))).*1 ++ (callID :: rs) ++ re
      ≡ₚ f ++ (map_to_list (set_pending s)).*1 ++ rs ++ re)
      by (rewrite <- (map_to_list_delete _ _ _ Hp); rewrite fmap_cons; cbn [fst]; solve_Permutation).
    sys_split; fold f rs.
    + by rewrite Hperm.
    + intros id Hin. apply Hex. by rewrite <- Hperm.
  - set (r1 := (fun r => r.1.1.1) <$> res1) in *. set (r2 := (fun r => r.1.1.1) <$> res2) in *.
    set (f := (fun r => ToolCall_ID r.1) <$> fin) in *. set (ps := (map_to_list (set_pending s)).*1) in *.
    assert (Hperm : f ++ ps ++ (r1 ++ callID :: r2) ++ re ≡ₚ f ++ ps ++ (r1 ++ r2) ++ callID :: re) by solve_Permutation.
    sys_split; fold f ps r1 r2.
    + by rewrite <- Hperm.
    + intros id Hin. apply Hex. by rewrite Hperm.
  - apply ReserveCallIDs_Ok in Hresv as (Hempty & reserved & -> & Hreserved). sys_split.
    + intros id Hin. apply Hseen in Hin as [Hin _]. rewrite Hempty in Hin. set_solver.
    + rewrite Hempty in Hstart. set_solver.
    + intros id [Hid|Hid]%elem_of_app.
      * split; [by apply Hreserved|]. intros Hin. apply Hseen in Hin as [Hin _]. rewrite Hempty in Hin. set_solver.
      * apply Hrv in Hid as [Hid _]. rewrite Hempty in Hid. set_solver.
  - by sys_split.
Qed.

(** C6. However invocations, answers and the environment interleave, from a tool
    set nothing is pending in, every tool call is executed at most once and its
    question is resumed at most once, only after the tool ran; every executed call
    was new to the set; and the identifiers restored from a checkpoint, at the
    start or before the first call, are seen from then on and never executed. *)
Theorem calls_run_at_most_once (s : ToolSet W) (w : W) (y : System)
    (Hfresh : set_pending s = ∅) (Hsteps : rtc sys_step (start s w) y) :
  NoDup (sys_executed y) ∧ NoDup (sys_resumed y)
  ∧ (∀ id, id ∈ sys_resumed y → id ∈ sys_executed y)
  ∧ (∀ id, id ∈ sys_executed y → id ∉ set_seen s ∧ id ∈ set_seen (sys_set y))
  ∧ (∀ id, id ∈ sys_reserved y → id ∈ set_seen (sys_set y) ∧ id ∉ sys_executed y)
  ∧ (∀ s0 ids id, ReserveCallIDs s0 ids = Ok s → id ∈ ids → id ∉ sys_executed y).
Proof.
  assert (Hok : sys_ok (set_seen s) y).
  { assert (Hstart : sys_ok (set_seen s) (start s w)).
    { split; unfold start; sys_simpl; rewrite ?Hfresh, ?map_to_list_empty; cbn [fmap list_fmap app];
        first [by apply NoDup_nil_2|done|intros id Hid; by apply not_elem_of_nil in Hid]. }
    revert Hstart. induction Hsteps as [|y1 y2 y3 Hs _ IH]; [done|]. intros Hy. apply IH. by eapply sys_step_ok. }
  destruct Hok as [Hcalls Hseen Hplaces Hex _ Hrv]. unfold places in *.
  apply NoDup_app in Hcalls as (_ & _ & Hcalls). apply NoDup_app in Hplaces as (_ & _ & Hplaces).
  apply NoDup_app in Hplaces as (_ & _ & Hplaces). apply NoDup_app in Hplaces as (_ & _ & Hplaces).
  assert (∀ id, id ∈ sys_executed y → id ∉ set_seen s ∧ id ∈ set_seen (sys_set y)) as Hnew.
  { intros id Hid. apply and_comm, Hseen. rewrite elem_of_app. by right. }
  split_and!; [done|done| |exact Hnew| |].
  - intros id Hid. apply Hex. rewrite !elem_of_app. tauto.
  - intros id Hid. destruct (Hrv id Hid) as [Hs Hn]. split; [done|]. rewrite elem_of_app in Hn. tauto.
  - intros s0 ids id Hr Hid Hin. apply ReserveCallIDs_Ok in Hr as (_ & reserved & -> & Hreserved).
    apply Hnew in Hin as [Hn _]. by apply Hn, Hreserved.
Qed.

(** [Invoke] and [Resolve] are such sequences of steps. *)
Lemma Invoke_steps ctx s w call s' w' res ex re rv :
  Invoke now ctx s w call = (s', w', res) →
  ∃ ex', rtc sys_step (mkSystem s w [] [] [] ex re rv) (mkSystem s' w' [] [] [] ex' re rv)
    ∧ (ex' = ex ∨ ex' = ToolCall_ID call :: ex).
Proof.
  unfold Invoke. destruct (take_call ctx s w call) as [s1 [registration|err]] eqn:Htake.
  - destruct (run_call now ctx (set_timeout s1) registration w call) as [w1 out] eqn:Hrun.
    destruct (record_output s1 call out) as [s2 res2] eqn:Hrec. intros [= <- <- <-].
    exists (ToolCall_ID call :: ex). split; [|by right].
    eapply rtc_l; [by eapply step_take|]. eapply rtc_l; [by eapply (step_run _ _ _ [] [])|].
    apply rtc_once. by eapply (step_record _ _ [] []).
  - assert (s1 = s) as ->.
    { unfold take_call in Htake. destruct (ctx w); [congruence|]. destruct (ValidateModelMessage _); [|congruence].
      destruct (set_tools s !! _); [|congruence]. case_decide; congruence. }
    intros [= <- <- <-]. exists ex. split; [done|by left].
Qed.
End Facts.

(** ** A run *)
Module Samples.
(** A tool that asks before it answers; the world is a clock. *)
Definition ask_question : PendingQuestion :=
  mkPendingQuestion "q1" "Unit" "Which unit?" QuestionSingle
    [mkQuestionOption "a" "Fractions" ""; mkQuestionOption "b" "Decimals" ""] false.
Definition ask_output : ToolOutput Z :=
  mkToolOutput "{}" (Some ask_question) (Some (fun _ w answer => (w + 1, Ok "chosen"))).
Definition ask_tool : ToolRegistration Z :=
  mkToolRegistration (mkTool "function" (mkToolDefinition "ask" "" "{}"))
    (Some (fun _ w _ => (w + 1, Ok ask_output))).
Definition ask_call : ToolCall := mkToolCall "call-1" "function" (mkToolFunction "ask" "{}").
Definition choose_a : QuestionAnswer := mkQuestionAnswer "q1" QuestionAnswered ["a"] "".
Definition no_deadline : GoContext Z := fun _ => None.
Definition sample_set : ToolSet Z := mkToolSet {["ask" := ask_tool]} ["ask"] ∅ ∅ 1000.

(** The call is invoked, the question answered, and a second answer is refused. *)
Example tool_run_value :
  NewToolSet 1000 [ask_tool] = Ok sample_set
  ∧ (let '(s1, w1, _) := Invoke (fun w => w) no_deadline sample_set 0 ask_call in
     let '(s2, w2, (value, _)) := Resolve (fun w => w) no_deadline s1 w1 "call-1" choose_a in
     let '(_, w3, (_, err)) := Resolve (fun w => w) no_deadline s2 w2 "call-1" choose_a in
     (w1, w2, value, w3, err) = (1, 2, "chosen", 2, Some (ErrorNew "interaction_not_pending"))).
Proof. split; vm_compute; reflexivity. Qed.

Definition sample_end : System (W := Z) :=
  mkSystem (with_pending (delete "call-1" {["call-1" := ask_output]}) (with_seen ({["call-0"]} ∪ {["call-1"]}) sample_set))
    2 [] [] [] ["call-1"] ["call-1"] ["call-0"].

Lemma sample_steps : rtc (sys_step (fun w => w)) (start sample_set 0) sample_end.
Proof.
  eapply rtc_l; [eapply (step_restore _ ["call-0"]); vm_compute; reflexivity|].
  eapply rtc_l; [eapply (step_take _ no_deadline ask_call); vm_compute; reflexivity|].
  eapply rtc_l; [eapply (step_run _ ask_call ask_tool no_deadline [] []); vm_compute; reflexivity|].
  eapply rtc_l; [eapply (step_record _ ask_call _ [] []); vm_compute; reflexivity|].
  eapply rtc_l; [eapply (step_consume _ no_deadline "call-1" choose_a); vm_compute; reflexivity|].
  eapply rtc_l; [eapply (step_resume _ "call-1" ask_output choose_a no_deadline [] []); vm_compute; reflexivity|].
  apply rtc_refl.
Qed.
End Samples.

Import Samples.

Lemma calls_run_at_most_once_witness :
  NoDup (sys_executed sample_end) ∧ NoDup (sys_resumed sample_end) ∧ "call-0" ∉ sys_executed sample_end.
Proof.
  destruct (calls_run_at_most_once (fun w => w) sample_set 0 sample_end) as (H1 & H2 & _ & _ & H3 & _);
    [reflexivity|exact sample_steps|].
  split; [exact H1|]. split; [exact H2|]. apply (H3 "call-0"). left.
Defined.
