(* ===== verification/AgentRunner.v ===== *)
(** * The model loop of the agent core

    [packages/agentcore/runner.go]: [Runner.Run] drives one user turn. It prepares a
    budgeted context, asks the model, validates the answer and either completes the
    turn in the history or appends the assistant message and runs its tool calls,
    until it returns or the round budget is used up. The injected interfaces are
    functions over a world [W]; the calls made to them, in order, are the trace that
    a run returns besides its result. *)
From S2P Require Import Prelude GoStd AgentMessages ContextPlan AgentTools.

(** ** Interfaces *)
Inductive RunEventKind : Type :=
| RunPreparing
| RunWaitingModel
| RunValidating
| RunContextFailed
| RunModelFailed
| RunInvalidResponse
| RunToolsReady
| RunCompleted
| RunStream.

Record RunEvent := mkRunEvent {
  RunEvent_Kind : RunEventKind;
  RunEvent_ReasoningEffort : string;
  RunEvent_Stream : option StreamEvent;
  RunEvent_Err : option error;
}.

Record RoundBudget := mkRoundBudget {
  RoundBudget_Limit : Z;
  RoundBudget_Remaining : Z;
}.

(** [take] on a pointer that may be nil. *)
Definition take_round (b : option RoundBudget) : option RoundBudget * option error :=
  match b with
  | None => (b, None)
  | Some budget =>
    if RoundBudget_Limit budget =? 0 then (b, None)
    else if (RoundBudget_Limit budget <? 0) || (RoundBudget_Remaining budget <=? 0) then
      (b, Some (ErrorNew "Agent已达到用户配置的工具轮数保护值；将最大工具轮数设为0可取消该限制"))
    else (Some (mkRoundBudget (RoundBudget_Limit budget) (RoundBudget_Remaining budget - 1)), None)
  end.

Section Runner.
Context {W R : Type}.

(** [Model], with the method [Stream] when it also is a [StreamingModel]. *)
Record Model := mkModel {
  Model_Complete : GoContext W → W → Request → W * result error Response;
  Model_Stream : option (GoContext W → W → Request → (StreamEvent → W → W * option error) → W * result error Response);
}.

Record ContextSource := mkContextSource {
  Prepare : GoContext W → W → W * result error ContextPlan;
  ObserveUsage : W → ContextPlan → Usage → W;
}.

Record HistorySink := mkHistorySink {
  AppendAssistant : GoContext W → W → Message → W * option error;
  Complete : GoContext W → W → Message → W * result error R;
}.

Record ToolStep := mkToolStep {
  ToolStep_Continue : bool;
  ToolStep_Result : R;
}.

Definition ToolExecutor : Type := GoContext W → W → list ToolCall → W * result error ToolStep.

(** [Publish]; a panic of the sink is recovered, so the call always returns. *)
Definition EventSink : Type := GoContext W → W → RunEvent → W.

Record Runner := mkRunner {
  Runner_Model : option Model;
  Runner_Context : option ContextSource;
  Runner_History : option HistorySink;
  Runner_Tools : option ToolExecutor;
  Runner_Events : option EventSink;
}.

(** The calls a run makes to its interfaces, display events apart. *)
Inductive Call : Type :=
| CallPrepare
| CallModel (request : Request)
| CallComplete (message : Message)
| CallAppend (message : Message)
| CallObserve (plan : ContextPlan) (usage : Usage)
| CallExecute (calls : list ToolCall).

(** ** The loop *)
Definition publish (r : Runner) (ctx : GoContext W) (w : W) (event : RunEvent) : W :=
  match Runner_Events r with None => w | Some Publish => Publish ctx w event end.

Definition event_of (kind : RunEventKind) : RunEvent := mkRunEvent kind "" None None.
Definition failure_of (kind : RunEventKind) (err : error) : RunEvent := mkRunEvent kind "" None (Some err).

(** The callback given to [Stream]. *)
Definition on_stream_event (r : Runner) (ctx : GoContext W) (request : Request) (event : StreamEvent) (w : W)
  : W * option error :=
  match ctx w with
  | Some err => (w, Some err)
  | None =>
    if bool_decide (StreamEvent_Kind event ∈ [StreamEventResponseStarted; StreamEventTextDelta;
         StreamEventReasoningDelta; StreamEventResponseActivity; StreamEventCompatibilityFallback]) then
      (publish r ctx w (mkRunEvent RunStream (Request_ReasoningEffort request) (Some event) None), None)
    else (w, Some (ErrorNew "模型返回未知流式事件"))
  end.

Definition foreground (r : Runner) (model : Model) (ctx : GoContext W) (w : W) (request : Request)
  : W * result error Response :=
  match Model_Stream model with
  | None => Model_Complete model ctx w request
  | Some stream => stream ctx w request (on_stream_event r ctx request)
  end.

(** The two checks of a response. *)
Definition checkResponse (message : Message) : result error unit :=
  _ ← fail_if (negb (bool_decide (Message_Role message = "assistant")) || negb (valid_utf8 (Message_Content message)))
        (ClientError "response_protocol_error" "模型响应角色或 UTF-8 无效");
  ValidateModelMessage message.

Definition recordUsage (source : ContextSource) (plan : ContextPlan) (response : Response) (w : W) : W * list Call :=
  match Response_Usage response with
  | None => (w, [])
  | Some usage => (ObserveUsage source w plan usage, [CallObserve plan usage])
  end.

(** An iteration of the loop ends the run or starts the next one. *)
Inductive Outcome : Type :=
| Return (res : result error R)
| Again.

Definition return_error (err : error) : Outcome := Return (Err err).

(** A valid response without tool calls. *)
Definition finish (r : Runner) (source : ContextSource) (history : HistorySink) (ctx : GoContext W) (w : W)
    (plan : ContextPlan) (response : Response) : W * list Call * Outcome :=
  let message := Response_Message response in
  if bool_decide (trim_space (Message_Content message) = "") then
    (w, [], return_error (ErrorNew "模型没有返回可显示的回答"))
  else
    match Complete history ctx w message with
    | (w, Err err) => (w, [CallComplete message], return_error err)
    | (w, Ok value) =>
      let (w, observed) := recordUsage source plan response w in
      (publish r ctx w (event_of RunCompleted), CallComplete message :: observed, Return (Ok value))
    end.

(** A valid response with tool calls. *)
Definition use_tools (r : Runner) (source : ContextSource) (history : HistorySink) (ctx : GoContext W) (w : W)
    (plan : ContextPlan) (response : Response) : W * list Call * Outcome :=
  let message := Response_Message response in
  let w := publish r ctx w (event_of RunToolsReady) in
  match Runner_Tools r with
  | None => (w, [], return_error (ErrorNew "当前运行未注入工具执行器"))
  | Some Execute =>
    match AppendAssistant history ctx w message with
    | (w, Some err) => (w, [CallAppend message], return_error err)
    | (w, None) =>
      let (w, observed) := recordUsage source plan response w in
      let (w, step) := Execute ctx w (Message_ToolCalls message) in
      (w, CallAppend message :: observed ++ [CallExecute (Message_ToolCalls message)],
       match step with
       | Err err => return_error err
       | Ok step => if ToolStep_Continue step then Again else Return (Ok (ToolStep_Result step))
       end)
    end
  end.

(** What follows the model's answer. *)
Definition answer (r : Runner) (source : ContextSource) (history : HistorySink) (ctx : GoContext W) (w : W)
    (plan : ContextPlan) (res : result error Response) : W * list Call * Outcome :=
  match ctx w, res with
  | Some err, _ => (w, [], return_error err)
  | None, Err err => (publish r ctx w (failure_of RunModelFailed err), [], return_error err)
  | None, Ok response =>
    let w := publish r ctx w (event_of RunValidating) in
    match checkResponse (Response_Message response) with
    | Err err => (publish r ctx w (failure_of RunInvalidResponse err), [], return_error err)
    | Ok _ =>
      if is_nil (Message_ToolCalls (Response_Message response)) then finish r source history ctx w plan response
      else use_tools r source history ctx w plan response
    end
  end.

(** The body of the loop after the budget was taken. *)
Definition round (r : Runner) (model : Model) (source : ContextSource) (history : HistorySink) (ctx : GoContext W)
    (w : W) : W * list Call * Outcome :=
  let w := publish r ctx w (event_of RunPreparing) in
  match Prepare source ctx w with
  | (w, Err err) => (publish r ctx w (failure_of RunContextFailed err), [CallPrepare], return_error err)
  | (w, Ok plan) =>
    let request := ContextPlan_Request plan in
    let w := publish r ctx w (mkRunEvent RunWaitingModel (Request_ReasoningEffort request) None None) in
    let (w, res) := foreground r model ctx w request in
    let '(w, calls, out) := answer r source history ctx w plan res in
    (w, CallPrepare :: CallModel request :: calls, out)
  end.

(** The loop, [None] when the fuel does not suffice. *)
Fixpoint loop (fuel : nat) (r : Runner) (model : Model) (source : ContextSource) (history : HistorySink)
    (ctx : GoContext W) (budget : option RoundBudget) (w : W)
  : option (W * option RoundBudget * list Call * result error R) :=
  match fuel with
  | O => None
  | S fuel =>
    match ctx w, take_round budget with
    | Some err, _ => Some (w, budget, [], Err err)
    | None, (budget, Some err) => Some (w, budget, [], Err err)
    | None, (budget, None) =>
      match round r model source history ctx w with
      | (w, calls, Return res) => Some (w, budget, calls, res)
      | (w, calls, Again) =>
        '(w, budget, rest, res) ← loop fuel r model source history ctx budget w;
        Some (w, budget, calls ++ rest, res)
      end
    end
  end.

Definition Run (fuel : nat) (r : Runner) (ctx : GoContext W) (budget : option RoundBudget) (w : W)
  : option (W * option RoundBudget * list Call * result error R) :=
  match Runner_Model r, Runner_Context r, Runner_History r with
  | Some model, Some source, Some history => loop fuel r model source history ctx budget w
  | _, _, _ => Some (w, budget, [], Err (ErrorNew "agent core dependencies are incomplete"))
  end.
End Runner.
Arguments Model : clear implicits.
Arguments ContextSource : clear implicits.
Arguments HistorySink : clear implicits.
Arguments ToolStep : clear implicits.
Arguments ToolExecutor : clear implicits.
Arguments EventSink : clear implicits.
Arguments Runner : clear implicits.
Arguments Outcome : clear implicits.

(** ** The protocol of a run *)

(** What a host may rely on between two calls. *)
Inductive Phase : Type :=
| Between
| Planned
| Asked
| Saved (calls : list ToolCall) (observed : bool)
| Delivered (observed : bool).

Definition valid_response (message : Message) : bool :=
  match checkResponse message with Ok _ => true | Err _ => false end.

Definition shows_answer (message : Message) : bool :=
  is_nil (Message_ToolCalls message) && negb (bool_decide (trim_space (Message_Content message) = "")).

(** A context is prepared before each question; only a validated answer is stored;
    it either ends the turn, or its own calls are executed once, after it was
    stored; usage is observed at most once, for a stored answer. *)
Definition next_phase (phase : Phase) (call : Call) : option Phase :=
  match phase, call with
  | Between, CallPrepare => Some Planned
  | Planned, CallModel _ => Some Asked
  | Asked, CallAppend message =>
    if valid_response message && negb (is_nil (Message_ToolCalls message))
    then Some (Saved (Message_ToolCalls message) false) else None
  | Asked, CallComplete message =>
    if valid_response message && shows_answer message then Some (Delivered false) else None
  | Saved calls false, CallObserve _ _ => Some (Saved calls true)
  | Saved calls _, CallExecute calls' => if decide (calls = calls') then Some Between else None
  | Delivered false, CallObserve _ _ => Some (Delivered true)
  | _, _ => None
  end.

Fixpoint phases (phase : Phase) (log : list Call) : option Phase :=
  match log with
  | [] => Some phase
  | call :: log => next ← next_phase phase call; phases next log
  end.

Definition is_prepare (call : Call) : bool := match call with CallPrepare => true | _ => false end.
Definition rounds (log : list Call) : Z := Z.of_nat (length (filter is_prepare log)).

Lemma phases_app phase log1 log2 : phases phase (log1 ++ log2) = (next ← phases phase log1; phases next log2).
Proof. revert phase. induction log1 as [|call log1 IH]; intros phase; [done|]. cbn. destruct (next_phase phase call); [apply IH|done]. Qed.

Lemma rounds_app log1 log2 : rounds (log1 ++ log2) = rounds log1 + rounds log2.
Proof. unfold rounds. rewrite filter_app, length_app. lia. Qed.

Lemma rounds_nonneg log : 0 <= rounds log.
Proof. unfold rounds. lia. Qed.

Section Facts.
Context {W R : Type}.
Implicit Types (r : Runner W R) (ctx : GoContext W) (w : W).

Lemma recordUsage_calls (source : ContextSource W) plan response w w' calls :
  recordUsage source plan response w = (w', calls) → calls = [] ∨ ∃ usage, calls = [CallObserve plan usage].
Proof. unfold recordUsage. destruct (Response_Usage response); intros [= <- <-]; eauto. Qed.

(** How a round ends: its calls lead back to [Between] when the loop goes on or a
    tool ended the turn, to [Delivered] when the answer was stored. *)
Definition round_end (phase : Phase) (out : Outcome R) : Prop :=
  match out with
  | Again => phase = Between
  | Return (Ok _) => phase = Between ∨ ∃ observed, phase = Delivered observed
  | Return (Err _) => True
  end.

Ltac ends_here := intros [= <- <- <-]; split; [reflexivity|]; eexists; split; [reflexivity|exact I].

Lemma answer_phases r source history ctx w plan res w' calls out :
  answer r source history ctx w plan res = (w', calls, out) →
  rounds calls = 0 ∧ ∃ phase, phases Asked calls = Some phase ∧ round_end phase out.
Proof.
  unfold answer. destruct (ctx w) as [err|]; [ends_here|].
  destruct res as [response|err]; [|ends_here].
  destruct (checkResponse (Response_Message response)) as [[]|err] eqn:Hcheck; [|ends_here].
  assert (Hvalid : valid_response (Response_Message response) = true) by (unfold valid_response; by rewrite Hcheck).
  set (message := Response_Message response) in *.
  destruct (is_nil (Message_ToolCalls message)) eqn:Hcalls.
  - unfold finish. fold message. case_bool_decide as Hblank; [ends_here|].
    assert (Hshow : valid_response message && shows_answer message = true).
    { unfold shows_answer. by rewrite Hvalid, Hcalls, bool_decide_eq_false_2. }
    destruct (Complete _ _ _ _) as [w1 [value|err]].
    + destruct (recordUsage _ _ _ _) as [w2 observed] eqn:Hobs. intros [= <- <- <-].
      apply recordUsage_calls in Hobs as [->|[usage ->]]; cbn; rewrite Hshow; cbn; eauto 10.
    + intros [= <- <- <-]. cbn. rewrite Hshow. eauto.
  - unfold use_tools. fold message. destruct (Runner_Tools r) as [Execute|]; [|ends_here].
    destruct (AppendAssistant _ _ _ _) as [w1 [err|]]; [intros [= <- <- <-]; cbn; rewrite Hvalid, Hcalls; cbn; by eauto|].
    destruct (recordUsage _ _ _ _) as [w2 observed] eqn:Hobs. destruct (Execute _ _ _) as [w3 step]. intros [= <- <- <-].
    assert (Hend : phases Asked (CallAppend message :: observed ++ [CallExecute (Message_ToolCalls message)]) = Some Between
                   ∧ rounds (CallAppend message :: observed ++ [CallExecute (Message_ToolCalls message)]) = 0).
    { apply recordUsage_calls in Hobs as [->|[usage ->]]; cbn; rewrite Hvalid, Hcalls; cbn; by rewrite decide_True by done. }
    destruct Hend as [Hphases Hrounds]. split; [done|]. exists Between. split; [done|].
    destruct step as [step|err]; [|done]. destruct (ToolStep_Continue step); cbn; auto.
Qed.

Lemma round_phases r model source history ctx w w' calls out :
  round r model source history ctx w = (w', calls, out) →
  rounds calls = 1 ∧ ∃ phase, phases Between calls = Some phase ∧ round_end phase out.
Proof.
  unfold round. destruct (Prepare _ _ _) as [w1 [plan|err]]; [|ends_here].
  destruct (foreground _ _ _ _ _) as [w2 res]. destruct (answer _ _ _ _ _ _ _) as [[w3 calls3] out3] eqn:Hans.
  intros [= <- <- <-]. apply answer_phases in Hans as (Hrounds & phase & Hphases & Hend). split; [|by eauto].
  change (rounds ([CallPrepare; CallModel (ContextPlan_Request plan)] ++ calls3) = 1).
  rewrite (rounds_app [CallPrepare; CallModel (ContextPlan_Request plan)] calls3), Hrounds. reflexivity.
Qed.

(** C10. The calls a run makes to its model, its history and its tools follow the
    protocol [next_phase], whatever these do: no answer is stored unless it was
    validated, tools run only for calls already stored in the history, exactly once
    and in order, nothing follows the stored final answer, and a run that succeeds
    has stored its answer or run the tools that ended the turn. *)
Theorem Run_follows_protocol (fuel : nat) (r : Runner W R) (ctx : GoContext W) (budget budget' : option RoundBudget)
    (w w' : W) (log : list Call) (res : result error R)
    (Hrun : Run fuel r ctx budget w = Some (w', budget', log, res)) :
  ∃ phase, phases Between log = Some phase
    ∧ (∀ value, res = Ok value → log ≠ [] ∧ (phase = Between ∨ ∃ observed, phase = Delivered observed)).
Proof.
  unfold Run in Hrun.
  destruct (Runner_Model r) as [model|]; [|injection Hrun as <- <- <- <-; by exists Between].
  destruct (Runner_Context r) as [source|]; [|injection Hrun as <- <- <- <-; by exists Between].
  destruct (Runner_History r) as [history|]; [|injection Hrun as <- <- <- <-; by exists Between].
  revert budget w budget' w' log res Hrun. induction fuel as [|fuel IH]; intros budget w budget' w' log res Hrun; [done|].
  cbn [loop] in Hrun.
  destruct (ctx w) as [err|]; [injection Hrun as <- <- <- <-; by exists Between|].
  destruct (take_round budget) as [budget1 [err|]]; [injection Hrun as <- <- <- <-; by exists Between|].
  destruct (round r model source history ctx w) as [[w1 calls] out] eqn:Hround.
  apply round_phases in Hround as (Hcount & phase & Hphases & Hend). destruct out as [res1|].
  - injection Hrun as <- <- <- <-. exists phase. split; [done|]. intros value ->. split; [|exact Hend].
    intros ->. discriminate Hcount.
  - cbn in Hend. subst phase. apply bind_Some in Hrun as ([[[w2 budget2] rest] res2] & Hloop & [= <- <- <- <-]).
    destruct (IH _ _ _ _ _ _ Hloop) as (phase & Hrest & Hok). exists phase. rewrite phases_app, Hphases. cbn.
    split; [done|]. intros value Hv. destruct (Hok value Hv) as [Hne Hp]. split; [|done].
    intros [-> ->]%app_eq_nil. done.
Qed.

Lemma take_round_Ok budget budget' :
  take_round (Some budget) = (budget', None) → RoundBudget_Limit budget ≠ 0 →
  0 < RoundBudget_Remaining budget
  ∧ budget' = Some (mkRoundBudget (RoundBudget_Limit budget) (RoundBudget_Remaining budget - 1)).
Proof.
  unfold take_round. intros Htake Hlimit. rewrite (proj2 (Z.eqb_neq _ 0)) in Htake by done.
  destruct (_ || _) eqn:Hor; [done|]. injection Htake as <-. apply orb_false_iff in Hor as [_ ?]. split; [lia|done].
Qed.

Lemma take_round_Err budget budget' err :
  take_round (Some budget) = (budget', Some err) → budget' = Some budget.
Proof. unfold take_round. destruct (_ =? _); [done|]. destruct (_ || _); [|done]. congruence. Qed.

(** C27. With a round limit every run ends, whatever the model and the tools do:
    it starts at most the rounds that remain, each is paid from the budget, and the
    next turn resumes with the rest. *)
Theorem Run_terminates (fuel : nat) (r : Runner W R) (ctx : GoContext W) (budget : RoundBudget) (w : W)
    (Hlimit : RoundBudget_Limit budget ≠ 0) (Hfuel : RoundBudget_Remaining budget < Z.of_nat fuel) (Hpos : (0 < fuel)%nat) :
  ∃ w' log res, Run fuel r ctx (Some budget) w
      = Some (w', Some (mkRoundBudget (RoundBudget_Limit budget) (RoundBudget_Remaining budget - rounds log)), log, res)
    ∧ rounds log <= Z.max 0 (RoundBudget_Remaining budget).
Proof.
  destruct budget as [limit remaining]. cbn [RoundBudget_Limit RoundBudget_Remaining] in *. unfold Run.
  assert (Hstop : ∀ w err, ∃ w' log (res : result error R),
    Some (w, Some (mkRoundBudget limit remaining), [], Err err)
      = Some (w', Some (mkRoundBudget limit (remaining - rounds log)), log, res) ∧ rounds log <= Z.max 0 remaining).
  { intros w1 err. exists w1, [], (Err err). rewrite Z.sub_0_r. split; [done|]. change (rounds []) with 0. lia. }
  destruct (Runner_Model r) as [model|]; [|apply Hstop]. destruct (Runner_Context r) as [source|]; [|apply Hstop].
  destruct (Runner_History r) as [history|]; [|apply Hstop].
  clear Hstop. revert remaining w Hfuel Hpos. induction fuel as [|fuel IH]; intros remaining w Hfuel Hpos; [lia|].
  cbn [loop].
  destruct (ctx w) as [err|].
  { exists w, [], (Err err). rewrite Z.sub_0_r. split; [done|]. change (rounds []) with 0. lia. }
  destruct (take_round _) as [budget1 [err|]] eqn:Htake.
  { apply take_round_Err in Htake as ->. exists w, [], (Err err). rewrite Z.sub_0_r. split; [done|]. change (rounds []) with 0. lia. }
  apply take_round_Ok in Htake as [Hrem ->]; [|done]. cbn [RoundBudget_Limit RoundBudget_Remaining] in *.
  destruct (round r model source history ctx w) as [[w1 calls] out] eqn:Hround.
  apply round_phases in Hround as (Hcount & _). destruct out as [res|].
  - exists w1, calls, res. rewrite Hcount. split; [done|lia].
  - destruct (IH (remaining - 1) w1 ltac:(lia) ltac:(lia)) as (w2 & log & res & -> & Hle). cbn [mbind option_bind].
    exists w2, (calls ++ log), res. rewrite rounds_app, Hcount. rewrite Z.sub_add_distr. split; [done|lia].
Qed.
End Facts.

(** ** With the planner as context source *)
Section Planned.
Context {W R : Type}.

(** What reaches the model over a run. *)
Definition asked (log : list Call) : list Request :=
  omap (fun call => match call with CallModel request => Some request | _ => None end) log.

Lemma asked_app log1 log2 : asked (log1 ++ log2) = asked log1 ++ asked log2.
Proof. apply omap_app. Qed.

Lemma answer_asked (r : Runner W R) source history ctx w plan res w' calls out :
  answer r source history ctx w plan res = (w', calls, out) → asked calls = [].
Proof.
  unfold answer. destruct (ctx w); [by intros [= <- <- <-]|]. destruct res as [response|]; [|by intros [= <- <- <-]].
  destruct (checkResponse _); [|by intros [= <- <- <-]]. destruct (is_nil _).
  - unfold finish. destruct (bool_decide _); [by intros [= <- <- <-]|].
    destruct (Complete _ _ _ _) as [w1 [value|]]; [|by intros [= <- <- <-]].
    destruct (recordUsage _ _ _ _) as [w2 observed] eqn:Hobs. intros [= <- <- <-].
    by apply recordUsage_calls in Hobs as [->|[usage ->]].
  - unfold use_tools. destruct (Runner_Tools r); [|by intros [= <- <- <-]].
    destruct (AppendAssistant _ _ _ _) as [w1 [err|]]; [by intros [= <- <- <-]|].
    destruct (recordUsage _ _ _ _) as [w2 observed] eqn:Hobs. destruct (_ ctx w2 _) as [w3 step].
    intros [= <- <- <-]. by apply recordUsage_calls in Hobs as [->|[usage ->]].
Qed.

(** C22. When every context comes from the planner, every request a run sends, over
    all its rounds, asks for a positive output that fits the context window together
    with the estimate of exactly what is sent and the safety margin. *)
Theorem Run_requests_fit (p : ContextPlanner) (e : TokenEstimator) (fuel : nat) (r : Runner W R) (ctx : GoContext W)
    (budget budget' : option RoundBudget) (w w' : W) (log : list Call) (res : result error R)
    (He : ContextPlanner_Estimator p = Some e)
    (Hsource : ∀ source w w' plan, Runner_Context r = Some source → Prepare source ctx w = (w', Ok plan) →
       ∃ messages tools history, Plan p messages tools history = Ok plan)
    (Hrun : Run fuel r ctx budget w = Some (w', budget', log, res)) :
  Forall (fun request => 0 < Request_MaxTokens request
    ∧ ∃ max, EstimateRequest e (mkRequest (Request_Messages request) (Request_Tools request) max "")
       + Request_MaxTokens request + PercentRoundUp (ContextPlanner_ContextWindow p) 5 <= ContextPlanner_ContextWindow p)
    (asked log).
Proof.
  unfold Run in Hrun.
  destruct (Runner_Model r) as [model|]; [|injection Hrun as <- <- <- <-; constructor].
  destruct (Runner_Context r) as [source|]; [|injection Hrun as <- <- <- <-; constructor].
  destruct (Runner_History r) as [history|]; [|injection Hrun as <- <- <- <-; constructor].
  revert budget w budget' w' log res Hrun. induction fuel as [|fuel IH]; intros budget w budget' w' log res Hrun; [done|].
  cbn [loop] in Hrun.
  destruct (ctx w) as [err|]; [injection Hrun as <- <- <- <-; constructor|].
  destruct (take_round budget) as [budget1 [err|]]; [injection Hrun as <- <- <- <-; constructor|].
  destruct (round r model source history ctx w) as [[w1 calls] out] eqn:Hround.
  match goal with |- Forall ?P _ => assert (Hcalls : Forall P (asked calls)) end.
  { unfold round in Hround. destruct (Prepare source ctx _) as [w2 [plan|err]] eqn:Hprep; [|injection Hround as <- <- <-; constructor].
    destruct (Hsource _ _ _ _ eq_refl Hprep) as (messages & tools & reserved & Hplan).
    destruct (Plan_plan_fits _ _ _ _ _ Hplan) as (Hfits & [Hpos _] & _ & Htools & Hmargin & e' & n & He' & Hest).
    rewrite He in He'. injection He' as <-.
    destruct (foreground _ _ _ _ _) as [w3 res3]. destruct (answer _ _ _ _ _ _ _) as [[w4 calls4] out4] eqn:Hans.
    injection Hround as <- <- <-. apply answer_asked in Hans.
    change (asked (CallPrepare :: CallModel (ContextPlan_Request plan) :: calls4))
      with (ContextPlan_Request plan :: asked calls4).
    rewrite Hans. constructor; [|constructor]. split; [done|]. exists n. rewrite Htools, <- Hest, <- Hmargin. exact Hfits. }
  destruct out as [res1|]; [by injection Hrun as <- <- <- <-|].
  apply bind_Some in Hrun as ([[[w2 budget2] rest] res2] & Hloop & [= <- <- <- <-]).
  rewrite asked_app. apply Forall_app. split; [done|by eapply IH].
Qed.
End Planned.

(** ** A run *)
Module Samples.
(** The model asks for a tool in its first round and answers in the second; the
    world counts the calls. *)
Definition use_tool : Message := mkMessage "assistant" "" [mkToolCall "c1" "function" (mkToolFunction "read" "{}")] "".
Definition final_answer : Message := mkMessage "assistant" "done" [] "".
Definition two_rounds : Model Z :=
  mkModel (fun _ w _ => (w + 1, Ok (mkResponse (if w <? 2 then use_tool else final_answer) "" None false))) None.
Definition planned : ContextSource Z :=
  mkContextSource (fun _ w => (w + 1, Plan ContextPlan.Samples.sample_planner ContextPlan.Samples.sample_messages [] ∅))
    (fun w _ _ => w + 1).
Definition memory_history : HistorySink Z string :=
  mkHistorySink (fun _ w _ => (w + 1, None)) (fun _ w message => (w + 1, Ok (Message_Content message))).
Definition run_all : ToolExecutor Z string := fun _ w _ => (w + 1, Ok (mkToolStep true "")).
Definition runner : Runner Z string := mkRunner (Some two_rounds) (Some planned) (Some memory_history) (Some run_all) None.
Definition no_deadline : GoContext Z := fun _ => None.

Notation sample_run := (Run 3 runner no_deadline (Some (mkRoundBudget 2 2)) 0).

Example sample_run_value :
  match sample_run with
  | Some (w, budget, log, res) => (w, budget, rounds log, phases Between log, res)
  | None => (0, None, 0, None, Ok "")
  end = (7, Some (mkRoundBudget 2 0), 2, Some (Delivered false), Ok "done").
Proof. vm_compute. reflexivity. Qed.

Lemma sample_run_ends : ∃ w budget log res, sample_run = Some (w, budget, log, res).
Proof.
  assert (match sample_run with Some _ => true | None => false end = true) as Hok by (vm_compute; reflexivity).
  destruct sample_run as [[[[w budget] log] res]|]; [by exists w, budget, log, res|discriminate].
Qed.
End Samples.

Import Samples.

Lemma Run_terminates_witness :
  ∃ w' log res, sample_run = Some (w', Some (mkRoundBudget 2 (2 - rounds log)), log, res) ∧ rounds log <= Z.max 0 2.
Proof. apply (Run_terminates 3 runner no_deadline (mkRoundBudget 2 2) 0); cbn; lia. Defined.

Lemma Run_follows_protocol_witness :
  ∃ w budget log res phase, sample_run = Some (w, budget, log, res) ∧ phases Between log = Some phase.
Proof.
  destruct sample_run_ends as (w & budget & log & res & H).
  destruct (Run_follows_protocol _ _ _ _ _ _ _ _ _ H) as (phase & Hphase & _).
  exists w, budget, log, res, phase. split; [exact H|exact Hphase].
Defined.

Lemma Run_requests_fit_witness :
  ∃ w budget log res, sample_run = Some (w, budget, log, res)
    ∧ Forall (fun request => 0 < Request_MaxTokens request) (asked log).
Proof.
  destruct sample_run_ends as (w & budget & log & res & H). exists w, budget, log, res. split; [exact H|].
  eapply Forall_impl.
  - apply (Run_requests_fit ContextPlan.Samples.sample_planner
      (ConservativeTokenEstimator ContextPlan.Samples.sample_calibration) 3 runner no_deadline
      (Some (mkRoundBudget 2 2)) budget 0 w log res); [reflexivity| |exact H].
    intros source w1 w2 plan Hsource Hplan. change (Some planned = Some source) in Hsource. injection Hsource as <-.
    exists ContextPlan.Samples.sample_messages, [], ∅. exact (f_equal snd Hplan).
  - intros request [Hpos _]. exact Hpos.
Defined.
