(* ===== verification/ModelStream.v ===== *)
(** * The streaming client of a model

    [packages/agentcore/modelclient]: [stream.go], [client.go], [errors.go] and
    [readableReasoning] of [live_reasoning.go]. The reader of server-sent events, the
    assembler of a response from its deltas, one attempt over a connection, and
    [Stream] with its two fallbacks.

    A connection is a parameter: what it delivers is a list of bytes and how it ended.
    The callback of the caller is a function of the events it was given so far; the
    activity events, which carry no content, are given inside a read, and an error of
    the callback there is how the connection ended. [requestContextError] and
    [ctx.Err] are a function of how often the context was asked. What [encoding/json] reads into the structs of
    the protocol is the class [StreamCodec]. *)
From stdpp Require Import pretty.
From S2P Require Import Prelude GoStd Utf8 Jcs Encoding AgentMessages.
#[local] Open Scope Z_scope.

Definition maxSSELineBytes : Z := 512 * 2 ^ 10.
Definition maxSSEEventBytes : Z := 512 * 2 ^ 10.
Definition maxSSEEvents : Z := MaxAssistantTextBytes + 4096.
Definition maxSSELines : Z := 4 * maxSSEEvents.
Definition maxStreamResponseBytes : Z := 256 * 2 ^ 20.
Definition maxStreamTextDeltaBytes : Z := 64 * 2 ^ 10.
Definition maxStreamHiddenReasoning : Z := 64 * 2 ^ 10.
Definition maxStreamTextBytes : Z := MaxAssistantTextBytes.
Definition maxStreamToolIDBytes : Z := 512.
Definition maxStreamToolNameBytes : Z := 256.
Definition maxStreamArgumentDelta : Z := 128 * 2 ^ 10.
Definition maxStreamToolArgumentBytes : Z := 2 ^ 20.
Definition maxResponseBytes : Z := 6 * MaxAssistantTextBytes + 2 ^ 20.

Definition ErrorCodeInvalidReasoningEffort := "invalid_reasoning_effort".
Definition ErrorCodeReasoningEffortUnsupported := "reasoning_effort_unsupported".
Definition ErrorCodeResponseProtocol := "response_protocol_error".
Definition ErrorCodeResponseTruncated := "response_truncated".
Definition ErrorCodeContentFiltered := "content_filtered".
Definition ErrorCodeStreamProtocol := "stream_protocol_error".
Definition ErrorCodeStreamResponseTooLarge := "stream_response_too_large".

Definition protocol_error (message : string) : error := ClientError ErrorCodeStreamProtocol message.
Definition too_large (message : string) : error := ClientError ErrorCodeStreamResponseTooLarge message.

Definition StableErrorCode (e : error) : string := match e with ClientError code _ => code | _ => "" end.

(** ** Errors of providers (client.go) *)
Record providerError := mkProviderError { Code : string; Type_ : string; Param : string; ProviderMessage : string }.

Definition hasProviderError (value : providerError) : bool :=
  negb (bool_decide (Code value = "")) || negb (bool_decide (Type_ value = "")) || negb (bool_decide (Param value = ""))
  || negb (bool_decide (ProviderMessage value = "")).

Section Codes.
Context `{UnicodeTables}.

Definition normalizeProviderCode (value : string) : string := to_lower (trim_space value).

Definition isExplicitUnsupportedCode (value : string) : bool :=
  bool_decide (normalizeProviderCode value ∈
    ["unsupported"; "unsupported_feature"; "unsupported_parameter"; "unsupported_value"; "parameter_not_supported"; "not_supported"]).

Definition isReasoningEffortUnsupported (value : providerError) : bool :=
  if negb (bool_decide (trim_space (to_lower (Param value)) = "reasoning_effort")) then false
  else isExplicitUnsupportedCode (Code value) || isExplicitUnsupportedCode (Type_ value).

Definition isStreamUnsupported (value : providerError) : bool :=
  let code := normalizeProviderCode (Code value) in
  let typeCode := normalizeProviderCode (Type_ value) in
  if bool_decide (code ∈ ["stream_not_supported"; "streaming_not_supported"]) || bool_decide (typeCode ∈ ["stream_not_supported"; "streaming_not_supported"]) then true
  else if negb (bool_decide (trim_space (to_lower (Param value)) = "stream")) then false
  else isExplicitUnsupportedCode code || isExplicitUnsupportedCode typeCode.

Definition isStreamOptionsUnsupported (value : providerError) : bool :=
  if negb (bool_decide (trim_space (to_lower (Param value)) = "stream_options")) then false
  else isExplicitUnsupportedCode (Code value) || isExplicitUnsupportedCode (Type_ value).
End Codes.

(** The characters that are kept are single bytes. *)
Definition safe_byte (b : Z) : bool := in_range 97 b 122 || in_range 65 b 90 || in_range 48 b 57 || (b =? 95) || (b =? 45) || (b =? 46).

Definition safeCode (value : string) : string :=
  let kept := take 64 (filter (fun b => safe_byte b = true) (bytes_of value)) in
  if is_nil kept then "unknown" else string_of_bytes kept.

Definition normalizeReasoningEffort (value : string) : result error string :=
  let value := trim_space value in
  if bool_decide (value ∈ [""; "auto"]) then Ok ""
  else if bool_decide (value ∈ ["none"; "minimal"; "low"; "medium"; "high"; "xhigh"; "max"]) then Ok value
  else Err (ClientError ErrorCodeInvalidReasoningEffort "模型推理强度无效").

Definition finishReasonError (value : string) (streaming : bool) : result error unit :=
  let value := trim_space value in
  if bool_decide (value ∈ ["stop"; "tool_calls"]) then Ok tt
  else if bool_decide (value = "length") then Err (ClientError ErrorCodeResponseTruncated "模型回答因长度限制而截断")
  else if bool_decide (value = "content_filter") then Err (ClientError ErrorCodeContentFiltered "模型回答被内容策略过滤")
  else if streaming then Err (protocol_error "模型 SSE finish_reason 无效")
  else Err (ClientError ErrorCodeResponseProtocol "模型响应 finish_reason 无效").

Definition validUsage (usage : Usage) : bool :=
  if (Usage_PromptTokens usage <? 0) || (Usage_CompletionTokens usage <? 0) || (Usage_TotalTokens usage <? 0) then false
  else if negb (normalizedCacheUsage usage).2 then false
  else (Usage_TotalTokens usage =? 0) || (wrap64 (Usage_PromptTokens usage + Usage_CompletionTokens usage) <=? Usage_TotalTokens usage).

Definition validFinishReason (value : string) : bool := bool_decide (value ∈ ["stop"; "tool_calls"; "length"; "content_filter"]).

(** A single JSON object. *)
Definition validJSONObject (value : string) : bool :=
  if bool_decide (value = "") || negb (valid_utf8 value) then false
  else match json_first (bytes_of value) with Some ((_, Obj _), rest) => is_nil (skip_space rest) | _ => false end.

(** ** The protocol *)
Record streamFunctionDelta := mkStreamFunctionDelta { Delta_Name : string; Delta_Arguments : string }.

Record streamToolCallDelta := mkStreamToolCallDelta {
  Delta_Index : option Z;
  Delta_ID : string;
  Delta_Type : string;
  Delta_Function : streamFunctionDelta;
}.

(** A raw value that is absent is empty. *)
Record streamDelta := mkStreamDelta {
  Delta_Role : string;
  Delta_Content : option string;
  Delta_ToolCalls : list streamToolCallDelta;
  ReasoningContent : text;
  Reasoning : text;
  ReasoningDetails : text;
  Thinking : text;
}.

Record streamChoice := mkStreamChoice { Choice_Index : option Z; Choice_Delta : streamDelta; Choice_FinishReason : option string }.
Record streamChunk := mkStreamChunk { Choices : list streamChoice; Chunk_Usage : option Usage; Chunk_Error : option providerError }.

(** [decode_chunk] reads the first value of a text, and says whether anything but space
    follows it. *)
Class StreamCodec := {
  decode_chunk : text → option (streamChunk * bool);
  unmarshal_envelope : text → option providerError;
  unmarshal_error : text → option providerError;
  unmarshal_text : text → option string;
  unmarshal_details : text → option (list (string * string * string));
  decode_completion : text → option (list (Message * string) * option Usage);
}.

(** ** Server-sent events *)
Record sseEvent := mkSseEvent { event_name : text; event_data : text }.

(** What is left of the connection, and how it ends after it: [None] is its end. *)
Record sseReader := mkSseReader { rest : text; failure : option error; total : Z; lines : Z; events : Z }.

(** [io.EOF], and any other error. *)
Inductive read_error : Type := EOF | ReadFailed (e : error).

(** The buffer of [bufio.NewReaderSize]. *)
Definition buffer_size : nat := Z.to_nat (32 * 2 ^ 10).

Inductive slice_end : Type := Delimited | BufferFull | InputEnd.

(** [ReadSlice('\n')]: up to the delimiter, the size of the buffer or the end. *)
Definition ReadSlice (rest : text) : text * text * slice_end :=
  match list_find (eq 10) (take buffer_size rest) with
  | Some (i, _) => (take (S i) rest, drop (S i) rest, Delimited)
  | None => (take buffer_size rest, drop buffer_size rest, if (length rest <? buffer_size)%nat then InputEnd else BufferFull)
  end.

(** A line is complete: count it. *)
Definition take_line (line rest : text) (total : Z) (r : sseReader) : result read_error (text * sseReader) :=
  if maxSSELines <? lines r + 1 then Err (ReadFailed (protocol_error "模型 SSE 行数超过限制"))
  else Ok (line, mkSseReader rest (failure r) total (lines r + 1) (events r)).

(** The loop over the fragments of a line; [failure] and the counters are those of [r]. *)
Fixpoint read_fragments (fuel : nat) (line rest : text) (total : Z) (r : sseReader) : result read_error (text * sseReader) :=
  match fuel with
  | O => Err EOF
  | S fuel =>
    let '(fragment, rest, ended) := ReadSlice rest in
    let total := total + Z.of_nat (length fragment) in
    if maxStreamResponseBytes <? total then Err (ReadFailed (too_large "模型流式响应超过大小限制"))
    else if maxSSELineBytes <? Z.of_nat (length line + length fragment) then Err (ReadFailed (too_large "模型 SSE 行超过大小限制"))
    else
      let line := line ++ fragment in
      match ended with
      | Delimited => take_line line rest total r
      | BufferFull => read_fragments fuel line rest total r
      | InputEnd =>
        match failure r with
        | Some e => Err (ReadFailed e)
        | None => if is_nil line then Err EOF else take_line line rest total r
        end
      end
  end.

(** Every fragment but the last fills the buffer. *)
Definition readLine (r : sseReader) : result read_error (text * sseReader) :=
  read_fragments (S (length (rest r))) [] (rest r) (total r) r.

Definition trim_suffix (b : Z) (line : text) : text := if bool_decide (last line = Some b) then removelast line else line.

(** [bytes.Cut] at a colon; without one the line is the field. *)
Definition cut_field (line : text) : text * text :=
  match list_find (eq 58) line with
  | Some (i, _) => (take i line, drop (S i) line)
  | None => (line, [])
  end.

Definition trim_value (value : text) : text := match value with 32 :: value => value | _ => value end.

(** What a field does to the name and the data of an event. *)
Definition read_event_field (field value name data : text) : result error (text * text) :=
  if bool_decide (field = bytes_of "data") then
    let data := if is_nil data then data else data ++ [10] in
    _ ← fail_if (maxSSEEventBytes <? Z.of_nat (length data + length value)) (too_large "模型 SSE 事件超过大小限制");
    Ok (name, data ++ value)
  else if bool_decide (field = bytes_of "event") then
    _ ← fail_if (negb (is_nil name) || (64 <? length value)%nat || negb (valid_bytes value)) (protocol_error "模型 SSE 事件名称无效");
    Ok (value, data)
  else if bool_decide (field ∈ [bytes_of "id"; bytes_of "retry"]) then
    _ ← fail_if (256 <? length value)%nat (protocol_error "模型 SSE 元数据超过限制");
    Ok (name, data)
  else Err (protocol_error "模型 SSE 包含未知字段").

Fixpoint next_loop (fuel : nat) (name data : text) (r : sseReader) : result read_error (sseEvent * sseReader) :=
  match fuel with
  | O => Err EOF
  | S fuel =>
    match readLine r with
    | Err EOF => if is_nil data && is_nil name then Err EOF else Err (ReadFailed (protocol_error "模型 SSE 事件未完整终止"))
    | Err e => Err e
    | Ok (line, r) =>
      let line := trim_suffix 13 (trim_suffix 10 line) in
      match line with
      | [] =>
        if is_nil data then next_loop fuel [] data r
        else if maxSSEEvents <? events r + 1 then Err (ReadFailed (protocol_error "模型 SSE 事件数量超过限制"))
        else Ok (mkSseEvent name data, mkSseReader (rest r) (failure r) (total r) (lines r) (events r + 1))
      | b :: _ =>
        if b =? 58 then next_loop fuel name data r
        else
          let '(field, value) := cut_field line in
          match read_event_field field (trim_value value) name data with
          | Err e => Err (ReadFailed e)
          | Ok (name, data) => next_loop fuel name data r
          end
      end
    end
  end.

(** Every line takes a byte. *)
Definition next (r : sseReader) : result read_error (sseEvent * sseReader) := next_loop (S (length (rest r))) [] [] r.

(** [io.LimitReader]: past the limit a connection is at its end. *)
Definition open_stream (body : text) (failure : option error) : sseReader :=
  if maxStreamResponseBytes <? Z.of_nat (length body)
  then mkSseReader (take (Z.to_nat (maxStreamResponseBytes + 1)) body) None 0 0 0
  else mkSseReader body failure 0 0 0.

(** ** Assembling a response *)
Record assembledToolCall := mkAssembledToolCall { call_id : string; call_type : string; call_name : string; call_arguments : string }.

Record streamAssembler := mkStreamAssembler {
  roleSeen : bool;
  asm_text : string;
  tools : gmap Z assembledToolCall;
  finishReason : string;
  finishSeen : bool;
  asm_usage : option Usage;
  sawIncrement : bool;
  emptyDeltas : Z;
  reasoningDelta : string;
}.

Definition newAssembler : streamAssembler := mkStreamAssembler false "" ∅ "" false None false 0 "".

Definition set_role (a : streamAssembler) : streamAssembler :=
  mkStreamAssembler true (asm_text a) (tools a) (finishReason a) (finishSeen a) (asm_usage a) true (emptyDeltas a) (reasoningDelta a).
Definition set_usage (u : Usage) (a : streamAssembler) : streamAssembler :=
  mkStreamAssembler (roleSeen a) (asm_text a) (tools a) (finishReason a) (finishSeen a) (Some u) (sawIncrement a) (emptyDeltas a) (reasoningDelta a).
Definition set_reasoning (s : string) (a : streamAssembler) : streamAssembler :=
  mkStreamAssembler (roleSeen a) (asm_text a) (tools a) (finishReason a) (finishSeen a) (asm_usage a) (sawIncrement a) (emptyDeltas a) s.
Definition saw_increment (a : streamAssembler) : streamAssembler :=
  mkStreamAssembler (roleSeen a) (asm_text a) (tools a) (finishReason a) (finishSeen a) (asm_usage a) true (emptyDeltas a) (reasoningDelta a).
Definition add_text (s : string) (a : streamAssembler) : streamAssembler :=
  mkStreamAssembler (roleSeen a) (asm_text a +:+ s) (tools a) (finishReason a) (finishSeen a) (asm_usage a) true (emptyDeltas a) (reasoningDelta a).
Definition set_tool (i : Z) (call : assembledToolCall) (a : streamAssembler) : streamAssembler :=
  mkStreamAssembler (roleSeen a) (asm_text a) (<[i := call]> (tools a)) (finishReason a) (finishSeen a) (asm_usage a) true (emptyDeltas a) (reasoningDelta a).
Definition set_empty (n : Z) (a : streamAssembler) : streamAssembler :=
  mkStreamAssembler (roleSeen a) (asm_text a) (tools a) (finishReason a) (finishSeen a) (asm_usage a) (sawIncrement a) n (reasoningDelta a).
Definition set_finish (reason : string) (a : streamAssembler) : streamAssembler :=
  mkStreamAssembler (roleSeen a) (asm_text a) (tools a) reason true (asm_usage a) (sawIncrement a) (emptyDeltas a) (reasoningDelta a).

Definition trimmed (raw : text) : text := bytes_of (trim_space (string_of_bytes raw)).

(** The loop over the raw values: whether one is there, and their sizes so far. *)
Fixpoint hidden_values (values : list text) (hasValue : bool) (total : Z) : result error bool :=
  match values with
  | [] => Ok hasValue
  | value :: values =>
    let value := trimmed value in
    if is_nil value || bool_decide (value = bytes_of "null") then hidden_values values hasValue total
    else
      let total := total + Z.of_nat (length value) in
      if maxStreamHiddenReasoning <? total then Err (too_large "模型隐藏推理增量超过限制")
      else hidden_values values true total
  end.

Definition validateHiddenReasoning (delta : streamDelta) : result error bool :=
  hidden_values [ReasoningContent delta; Reasoning delta; ReasoningDetails delta; Thinking delta] false 0.

Definition too_long (current added : string) (limit : Z) : bool := negb (valid_utf8 added) || (limit <? str_len current + str_len added).

Definition applyToolDelta (delta : streamToolCallDelta) (a : streamAssembler) : result error streamAssembler :=
  match Delta_Index delta with
  | None => Err (protocol_error "模型工具调用 index 无效")
  | Some index =>
    let f := Delta_Function delta in
    _ ← fail_if (index <? 0) (protocol_error "模型工具调用 index 无效");
    _ ← fail_if (bool_decide (Delta_ID delta = "") && bool_decide (Delta_Type delta = "") && bool_decide (Delta_Name f = "") && bool_decide (Delta_Arguments f = ""))
          (protocol_error "模型工具调用增量为空");
    let call := default (mkAssembledToolCall "" "" "" "") (tools a !! index) in
    _ ← fail_if (too_long (call_id call) (Delta_ID delta) maxStreamToolIDBytes) (too_large "模型工具调用 ID 超过限制");
    _ ← fail_if (too_long (call_type call) (Delta_Type delta) 32) (protocol_error "模型工具调用类型无效");
    _ ← fail_if (too_long (call_name call) (Delta_Name f) maxStreamToolNameBytes) (too_large "模型工具名称超过限制");
    _ ← fail_if ((maxStreamArgumentDelta <? str_len (Delta_Arguments f)) || too_long (call_arguments call) (Delta_Arguments f) maxStreamToolArgumentBytes)
          (too_large "模型工具参数超过限制");
    Ok (set_tool index (mkAssembledToolCall (call_id call +:+ Delta_ID delta) (call_type call +:+ Delta_Type delta)
                          (call_name call +:+ Delta_Name f) (call_arguments call +:+ Delta_Arguments f)) a)
  end.

(** [response]: the calls at the positions [expected], [expected + 1] and so on. *)
Fixpoint collect_calls (calls : gmap Z assembledToolCall) (expected : Z) (indices : list Z) (ids : list string) : result error (list ToolCall) :=
  match indices with
  | [] => Ok []
  | index :: indices =>
    _ ← fail_if (negb (index =? expected)) (protocol_error "模型工具调用 index 不连续");
    let call := default (mkAssembledToolCall "" "" "" "") (calls !! index) in
    _ ← fail_if (bool_decide (call_id call = "") || negb (bool_decide (call_type call = "function")) || bool_decide (call_name call = "")
                 || negb (validJSONObject (call_arguments call))) (protocol_error "模型工具调用格式无效");
    _ ← fail_if (bool_decide (call_id call ∈ ids)) (protocol_error "模型工具调用 ID 重复");
    rest ← collect_calls calls (expected + 1) indices (call_id call :: ids);
    Ok (mkToolCall (call_id call) (call_type call) (mkToolFunction (call_name call) (call_arguments call)) :: rest)
  end.

Definition response (a : streamAssembler) : result error Response :=
  _ ← fail_if (negb (finishSeen a)) (protocol_error "模型流式响应缺少 finish_reason");
  _ ← finishReasonError (finishReason a) true;
  calls ← collect_calls (tools a) 0 (sort_by Z.ltb (elements (dom (tools a)))) [];
  _ ← fail_if (xorb (negb (is_nil calls)) (bool_decide (finishReason a = "tool_calls"))) (protocol_error "模型 finish_reason 与工具调用不一致");
  _ ← fail_if (bool_decide (asm_text a = "") && is_nil calls) (protocol_error "模型响应不包含文本或工具调用");
  Ok (mkResponse (mkMessage "assistant" (asm_text a) calls "") (finishReason a) (asm_usage a) false).

Section Protocol.
Context `{UnicodeTables} `{StreamCodec}.

Definition no_provider_error : providerError := mkProviderError "" "" "" "".

Definition found_error (e : option providerError) : option providerError := e ← e; if hasProviderError e then Some e else None.

Definition decodeProviderErrorFrame (data : text) : providerError * bool :=
  if is_nil data || negb (valid_bytes data) then (no_provider_error, false)
  else
    match found_error (unmarshal_envelope data) with
    | Some e => (e, true)
    | None =>
      match found_error (unmarshal_error data) with
      | Some e => (e, true)
      | None => (no_provider_error, false)
      end
    end.

(** The envelope is read after the whole text was found to be valid. *)
Definition decodeProviderError (data : text) : providerError := default no_provider_error (unmarshal_envelope data).

Definition providerHTTPError (status : Z) (data : text) : error :=
  let provider := decodeProviderError data in
  if isReasoningEffortUnsupported provider then ClientError ErrorCodeReasoningEffortUnsupported "模型不支持当前推理强度"
  else
    let code := trim_space (Code provider) in
    let code := if bool_decide (code = "") then trim_space (Type_ provider) else code in
    if bool_decide (code = "") then ErrorNew ("模型服务返回 HTTP " +:+ pretty status)
    else ErrorNew ("模型服务返回 HTTP " +:+ pretty status +:+ " (" +:+ safeCode code +:+ ")").

(** The first of the raw values that is a text and not empty. *)
Fixpoint first_text (values : list text) : option string :=
  match values with
  | [] => None
  | value :: values =>
    match unmarshal_text value with
    | Some s => if bool_decide (s = "") then first_text values else Some s
    | None => first_text values
    end
  end.

Definition detail_text (detail : string * string * string) : string :=
  let '(type, text, summary) := detail in
  if bool_decide (type = "reasoning.text") then text else if bool_decide (type = "reasoning.summary") then summary else "".

Definition readableReasoning (delta : streamDelta) : string :=
  match first_text [ReasoningContent delta; Reasoning delta; Thinking delta] with
  | Some s => s
  | None => match unmarshal_details (ReasoningDetails delta) with Some details => join "" (detail_text <$> details) | None => "" end
  end.

(** *** [apply], in the order of its checks *)
Definition apply_usage (chunk : streamChunk) (a : streamAssembler) : result error streamAssembler :=
  match Chunk_Usage chunk with
  | None => Ok a
  | Some u =>
    _ ← fail_if (bool_decide (is_Some (asm_usage a)) || negb (validUsage u)) (protocol_error "模型流式 usage 无效");
    Ok (set_usage u a)
  end.

Definition apply_role (delta : streamDelta) (a : streamAssembler) : result error streamAssembler :=
  if bool_decide (Delta_Role delta = "") then Ok a
  else
    _ ← fail_if (negb (bool_decide (Delta_Role delta = "assistant")) || roleSeen a) (protocol_error "模型 SSE role 无效");
    Ok (set_role a).

Definition apply_reasoning (delta : streamDelta) (a : streamAssembler) : result error (bool * streamAssembler) :=
  match validateHiddenReasoning delta with
  | Ok hidden => Ok (hidden, if hidden then set_reasoning (readableReasoning delta) (saw_increment a) else a)
  | Err e => Err e
  end.

Definition apply_text (delta : streamDelta) (a : streamAssembler) : result error (string * streamAssembler) :=
  match Delta_Content delta with
  | None => Ok ("", a)
  | Some s =>
    _ ← fail_if (negb (valid_utf8 s) || (maxStreamTextDeltaBytes <? str_len s) || (maxStreamTextBytes <? str_len (asm_text a) + str_len s))
          (too_large "模型流式文本超过限制");
    Ok (s, add_text s a)
  end.

Definition apply_empty (empty : bool) (a : streamAssembler) : result error streamAssembler :=
  if empty then
    _ ← fail_if (4096 <? emptyDeltas a + 1) (protocol_error "模型流式空增量数量超过限制");
    Ok (set_empty (emptyDeltas a + 1) a)
  else Ok (set_empty 0 a).

Definition apply_finish (reason : option string) (a : streamAssembler) : result error streamAssembler :=
  match reason with
  | None => Ok a
  | Some reason =>
    let reason := trim_space reason in
    _ ← fail_if (negb (validFinishReason reason)) (protocol_error "模型 SSE finish_reason 无效");
    Ok (set_finish reason a)
  end.

Definition apply_choice (choice : streamChoice) (a : streamAssembler) : result error (string * streamAssembler) :=
  let delta := Choice_Delta choice in
  _ ← fail_if (negb (bool_decide (Choice_Index choice = Some 0))) (protocol_error "模型 SSE choice index 无效");
  a ← apply_role delta a;
  '(hidden, a) ← apply_reasoning delta a;
  '(s, a) ← apply_text delta a;
  a ← fold_result (fun a delta => applyToolDelta delta a) a (Delta_ToolCalls delta);
  a ← apply_empty (bool_decide (s = "") && is_nil (Delta_ToolCalls delta) && bool_decide (Delta_Role delta = "") && negb hidden
                   && bool_decide (Choice_FinishReason choice = None)) a;
  a ← apply_finish (Choice_FinishReason choice) a;
  Ok (s, a).

Definition apply (data : text) (a : streamAssembler) : result error (string * streamAssembler) :=
  let a := set_reasoning "" a in
  _ ← fail_if (is_nil data || (maxSSEEventBytes <? Z.of_nat (length data)) || negb (valid_bytes data)) (protocol_error "模型 SSE 数据无效");
  match decode_chunk data with
  | None => Err (protocol_error "模型 SSE JSON 无效")
  | Some (chunk, trailing) =>
    _ ← fail_if trailing (protocol_error "模型 SSE JSON 包含多余数据");
    _ ← fail_if (bool_decide (is_Some (Chunk_Error chunk))) (protocol_error "模型流式响应包含错误事件");
    let seen := finishSeen a in
    a ← apply_usage chunk a;
    match Choices chunk with
    | [] =>
      _ ← fail_if (bool_decide (Chunk_Usage chunk = None) || negb seen) (protocol_error "模型 SSE 缺少 choice");
      Ok ("", a)
    | [choice] =>
      _ ← fail_if seen (protocol_error "模型 SSE choice 数量无效");
      apply_choice choice a
    | _ => Err (protocol_error "模型 SSE choice 数量无效")
    end
  end.

(** ** Attempts *)

(** The callback of the caller, given the events so far, the latest first; what the
    context answers the [n]-th time it is asked. *)
Context (observer : list StreamEvent → StreamEvent → option error) (context_error : nat → option error).

Record world := mkWorld { observed : list StreamEvent; checks : nat; responseStarted : bool }.

Inductive fallback : Type := WithoutOptions | CompleteFallback.
Inductive stop : Type := Failed (e : error) | Fallback (f : fallback) | OutOfFuel.

Definition M (A : Type) : Type := world → world * result stop A.

#[export] Instance M_ret : MRet M := fun A a w => (w, Ok a).
#[export] Instance M_bind : MBind M := fun A B k c w =>
  let '(w, r) := c w in match r with Ok a => k a w | Err s => (w, Err s) end.

Definition halt {A} (s : stop) : M A := fun w => (w, Err s).
Definition fails {A} (e : error) : M A := halt (Failed e).
Definition lift {A} (r : result error A) : M A := fun w => (w, match r with Ok a => Ok a | Err e => Err (Failed e) end).

Definition observe (kind : StreamEventKind) (s : string) : M unit := fun w =>
  let event := mkStreamEvent kind s time_zero in
  (mkWorld (event :: observed w) (checks w) (responseStarted w),
   match observer (observed w) event with Some e => Err (Failed e) | None => Ok tt end).

Definition check_context : M unit := fun w =>
  (mkWorld (observed w) (S (checks w)) (responseStarted w), match context_error (checks w) with Some e => Err (Failed e) | None => Ok tt end).

Definition mark_started : M unit := fun w => (mkWorld (observed w) (checks w) true, Ok tt).

Definition announce : M unit := _ ← observe StreamEventResponseStarted ""; mark_started.
Definition start_response : M unit := fun w => if responseStarted w then (w, Ok tt) else announce w.

Definition done_marker : string := "[DONE]".

(** What an error event leads to. *)
Definition on_provider_error {A} (provider : providerError) (includeStreamOptions : bool) (a : streamAssembler) : M A :=
  if negb (sawIncrement a) && (includeStreamOptions && isStreamOptionsUnsupported provider) then halt (Fallback WithoutOptions)
  else if negb (sawIncrement a) && isStreamUnsupported provider then halt (Fallback CompleteFallback)
  else if isReasoningEffortUnsupported provider then fails (ClientError ErrorCodeReasoningEffortUnsupported "模型不支持当前推理强度")
  else fails (protocol_error "模型流式响应包含错误事件").

Definition deliver (s : string) (a : streamAssembler) : M unit :=
  _ ← start_response;
  _ ← (if bool_decide (reasoningDelta a = "") then mret tt else observe StreamEventReasoningDelta (reasoningDelta a));
  if bool_decide (s = "") then mret tt
  else _ ← observe StreamEventTextDelta s; check_context.

(** The loop over the events. *)
Fixpoint read_events (fuel : nat) (includeStreamOptions : bool) (r : sseReader) (a : streamAssembler) : M Response :=
  match fuel with
  | O => halt OutOfFuel
  | S fuel =>
    _ ← check_context;
    match next r with
    | Err e =>
      _ ← check_context;
      fails (match e with EOF => protocol_error "模型流式响应在完成前中断" | ReadFailed e => e end)
    | Ok (event, r) =>
      if bool_decide (trim_space (string_of_bytes (event_data event)) = done_marker) then
        if bool_decide (event_name event = bytes_of "error") || negb (finishSeen a) then fails (protocol_error "模型流式响应终止顺序无效")
        else lift (response a)
      else
        let '(provider, hasError) := decodeProviderErrorFrame (event_data event) in
        if bool_decide (event_name event = bytes_of "error") || hasError then on_provider_error provider includeStreamOptions a
        else
          '(s, a) ← lift (apply (event_data event) a);
          _ ← deliver s a;
          read_events fuel includeStreamOptions r (set_reasoning "" a)
    end
  end.

(** What the request of an attempt meets. *)
Inductive connection : Type :=
| NotSent (e : error)
| NoConnection
| Refused (status : Z) (body : option text)
| NotEventStream
| EventStream (body : text) (ended : option error).

Definition refused (status : Z) (body : option text) (includeStreamOptions : bool) : M Response :=
  match body with
  | None => _ ← check_context; fails (ErrorNew "读取模型响应失败")
  | Some data =>
    if maxResponseBytes <? Z.of_nat (length data) then fails (too_large "模型流式响应超过大小限制")
    else if negb (valid_bytes data) then fails (protocol_error "模型流式响应不是有效 UTF-8")
    else
      let provider := decodeProviderError data in
      if includeStreamOptions && isStreamOptionsUnsupported provider then halt (Fallback WithoutOptions)
      else if isStreamUnsupported provider then halt (Fallback CompleteFallback)
      else fails (providerHTTPError status data)
  end.

(** The connection of the request, with the option and the reasoning effort it carries. *)
Context (connect : Request → string → bool → connection).

Definition streamAttempt (request : Request) (effort : string) (includeStreamOptions : bool) : M Response :=
  match connect request effort includeStreamOptions with
  | NotSent e => fails e
  | NoConnection => _ ← check_context; fails (ErrorNew "无法连接模型服务")
  | Refused status body => refused status body includeStreamOptions
  | NotEventStream => fails (protocol_error "模型服务返回了非 SSE 响应")
  | EventStream body ended =>
    _ ← check_context;
    let r := open_stream body ended in
    read_events (S (length (rest r))) includeStreamOptions r newAssembler
  end.

(** ** [Complete] *)

(** What its request meets; a failure comes with the error of the context, if any. *)
Inductive completion : Type :=
| CompletionNotSent (e : error)
| CompletionFailed (e : error)
| CompletionAnswer (status : Z) (contentType : string) (body : text).

Context (post : Request → string → completion).

Definition valid_call (call : ToolCall) : bool :=
  negb (bool_decide (ToolCall_ID call = "")) && bool_decide (ToolCall_Type call = "function")
  && negb (bool_decide (ToolFunction_Name (ToolCall_Function call) = "")) && json_valid (ToolFunction_Arguments (ToolCall_Function call)).

Definition with_role (message : Message) : Message :=
  if bool_decide (Message_Role message = "")
  then mkMessage "assistant" (Message_Content message) (Message_ToolCalls message) (Message_ToolCallID message) else message.

Definition read_completion (data : text) : result error Response :=
  match decode_completion data with
  | None | Some ([], _) => Err (ErrorNew "模型响应格式无效")
  | Some ((message, finishReason) :: _, usage) =>
    _ ← fail_if (match usage with Some u => negb (validUsage u) | None => false end) (ClientError ErrorCodeResponseProtocol "模型 usage 无效");
    let finishReason := trim_space finishReason in
    _ ← finishReasonError finishReason false;
    _ ← fail_if (MaxAssistantTextBytes <? str_len (Message_Content message)) (ClientError ErrorCodeResponseProtocol "模型回答超过客户端安全上限");
    let message := with_role message in
    let calls := Message_ToolCalls message in
    _ ← fail_if (bool_decide (Message_Content message = "") && is_nil calls) (ErrorNew "模型响应不包含文本或工具调用");
    _ ← fail_if (negb (forallb valid_call calls)) (ErrorNew "模型工具调用格式无效");
    _ ← fail_if (xorb (negb (is_nil calls)) (bool_decide (finishReason = "tool_calls")))
          (ClientError ErrorCodeResponseProtocol "模型 finish_reason 与工具调用不一致");
    Ok (mkResponse message finishReason usage false)
  end.

Definition read_answer (status : Z) (contentType : string) (data : text) : result error Response :=
  _ ← fail_if (maxResponseBytes <? Z.of_nat (length data)) (ErrorNew "模型响应超过大小限制");
  _ ← fail_if (negb (valid_bytes data)) (ClientError ErrorCodeResponseProtocol "模型响应不是有效 UTF-8");
  _ ← fail_if (negb (in_range 200 status 299)) (providerHTTPError status data);
  _ ← fail_if (negb (String.prefix "application/json" (to_lower contentType))) (ErrorNew "模型服务返回了非 JSON 响应");
  read_completion data.

Definition Complete (request : Request) : result error Response :=
  effort ← normalizeReasoningEffort (Request_ReasoningEffort request);
  _ ← fail_if (is_nil (Request_Messages request)) (ErrorNew "模型消息不能为空");
  match post request effort with
  | CompletionNotSent e | CompletionFailed e => Err e
  | CompletionAnswer status contentType body => read_answer status contentType body
  end.

(** ** [Stream] *)
Definition as_fallback (r : Response) : Response := mkResponse (Response_Message r) (Response_FinishReason r) (Response_Usage r) true.

Definition notifyCompatibilityFallback : M unit := _ ← observe StreamEventCompatibilityFallback ""; check_context.

Definition completeFallback (request : Request) (notify : bool) : M Response :=
  _ ← (if notify then notifyCompatibilityFallback else mret tt);
  r ← lift (Complete request);
  mret (as_fallback r).

Fixpoint stream_loop (fuel : nat) (request : Request) (effort : string) (includeStreamOptions compatibilityFallback : bool) : M Response :=
  match fuel with
  | O => halt OutOfFuel
  | S fuel => fun w =>
    let '(w, r) := streamAttempt request effort includeStreamOptions w in
    match r with
    | Err (Fallback WithoutOptions) => M_bind _ _ (fun _ => stream_loop fuel request effort false true) notifyCompatibilityFallback w
    | Err (Fallback CompleteFallback) => completeFallback request (negb compatibilityFallback) w
    | Err s => (w, Err s)
    | Ok r => (w, Ok (if compatibilityFallback then as_fallback r else r))
    end
  end.

(** An attempt without options does not ask for another. *)
Definition Stream (request : Request) : world * result stop Response :=
  let w := mkWorld [] 0 false in
  match normalizeReasoningEffort (Request_ReasoningEffort request) with
  | Err e => (w, Err (Failed e))
  | Ok effort =>
    if is_nil (Request_Messages request) then (w, Err (Failed (ErrorNew "模型消息不能为空")))
    else stream_loop 2 request effort true false w
  end.
End Protocol.

(** ** The reader *)
Lemma ReadSlice_app l fragment l' ended : ReadSlice l = (fragment, l', ended) → l = fragment ++ l'.
Proof.
  unfold ReadSlice. destruct (list_find _ _) as [[i x]|]; intros [= <- <- _]; by rewrite take_drop.
Qed.

Lemma buffer_size_pos : (0 < buffer_size)%nat.
Proof. unfold buffer_size. lia. Qed.
#[local] Opaque buffer_size.

(** A fragment that is delimited or fills the buffer takes a byte. *)
Lemma ReadSlice_progress l fragment l' ended : ReadSlice l = (fragment, l', ended) → ended = InputEnd ∧ l' = [] ∨ (length l' < length l)%nat.
Proof.
  unfold ReadSlice. pose proof buffer_size_pos. destruct (list_find _ _) as [[i x]|] eqn:Hfind; intros [= <- <- <-].
  - right. apply list_find_Some in Hfind as (Hi & _ & _). apply lookup_lt_Some in Hi. rewrite length_take in Hi. rewrite length_drop. lia.
  - destruct (Nat.ltb_spec (length l) buffer_size) as [Hl|Hl]; [left; split; [done|apply drop_ge; lia]|right; rewrite length_drop; lia].
Qed.

Lemma take_line_Ok line l total r line' r' : take_line line l total r = Ok (line', r') → line' = line ∧ rest r' = l.
Proof. unfold take_line. destruct (_ <? _); [done|]. by intros [= <- <-]. Qed.

Lemma read_fragments_fuel fuel1 fuel2 line l total r : (length l < fuel1)%nat → (length l < fuel2)%nat →
  read_fragments fuel1 line l total r = read_fragments fuel2 line l total r.
Proof.
  revert fuel2 line l total. induction fuel1 as [|fuel1 IH]; intros fuel2 line l total H1 H2; [lia|]. destruct fuel2 as [|fuel2]; [lia|].
  cbn [read_fragments]. destruct (ReadSlice l) as [[fragment l'] ended] eqn:Hs. apply ReadSlice_progress in Hs.
  destruct (_ <? _); [done|]. destruct (_ <? _); [done|]. destruct ended; try done. destruct Hs as [[? _]|Hs]; [done|]. apply IH; lia.
Qed.

Lemma read_fragments_progress fuel line l total r line' r' : read_fragments fuel line l total r = Ok (line', r') → line = [] →
  (length (rest r') < length l)%nat.
Proof.
  assert (∀ fuel line l total, read_fragments fuel line l total r = Ok (line', r') → (length (rest r') <= length l)%nat ∧ (length (rest r') = length l → line ≠ [])) as Hmain.
  { clear. induction fuel as [|fuel IH]; intros line l total; [done|]. cbn [read_fragments].
    destruct (ReadSlice l) as [[fragment l'] ended] eqn:Hs. pose proof (ReadSlice_app _ _ _ _ Hs) as ->. apply ReadSlice_progress in Hs. rewrite length_app in *.
    destruct (_ <? _); [done|]. destruct (_ <? _); [done|]. destruct ended.
    - intros [_ <-]%take_line_Ok. destruct Hs as [[? _]|Hs]; [done|lia].
    - intros [Hle _]%IH. destruct Hs as [[? _]|Hs]; [done|lia].
    - destruct (failure r); [done|]. destruct (line ++ fragment) as [|b line2] eqn:Hline; [done|]. cbn [is_nil]. intros [_ <-]%take_line_Ok.
      split; [lia|]. intros Hlen ->. cbn in Hline. subst fragment. cbn in Hlen. lia. }
  intros H ->. apply Hmain in H as [Hle Hne]. destruct (decide (length (rest r') = length l)) as [He|]; [by destruct (Hne He)|lia].
Qed.

Lemma readLine_progress r line r' : readLine r = Ok (line, r') → (length (rest r') < length (rest r))%nat.
Proof. unfold readLine. intros H. by apply read_fragments_progress in H. Qed.

Lemma next_loop_fuel fuel1 fuel2 name data r : (length (rest r) < fuel1)%nat → (length (rest r) < fuel2)%nat →
  next_loop fuel1 name data r = next_loop fuel2 name data r.
Proof.
  revert fuel2 name data r. induction fuel1 as [|fuel1 IH]; intros fuel2 name data r H1 H2; [lia|]. destruct fuel2 as [|fuel2]; [lia|].
  cbn [next_loop]. destruct (readLine r) as [[line r']|] eqn:Hl; [|done]. apply readLine_progress in Hl.
  destruct (trim_suffix 13 _) as [|b l]; [destruct (is_nil data); [apply IH; lia|done]|]. destruct (b =? 58); [apply IH; lia|].
  destruct (cut_field _) as [field value]. destruct (read_event_field _ _ _ _) as [[name' data']|]; [apply IH; lia|done].
Qed.

Lemma next_loop_progress fuel name data r event r' : next_loop fuel name data r = Ok (event, r') → (length (rest r') < length (rest r))%nat.
Proof.
  revert name data r. induction fuel as [|fuel IH]; intros name data r; [done|]. cbn [next_loop].
  destruct (readLine r) as [[line r1]|[|e]] eqn:Hl; [|by destruct (_ && _)|done]. apply readLine_progress in Hl.
  destruct (trim_suffix 13 _) as [|b l].
  - destruct (is_nil data); [intros ?%IH; lia|]. destruct (_ <? _); [done|]. by intros [= _ <-].
  - destruct (b =? 58); [intros ?%IH; lia|]. destruct (cut_field _) as [field value]. destruct (read_event_field _ _ _ _) as [[name' data']|]; [intros ?%IH; lia|done].
Qed.

Lemma next_progress r event r' : next r = Ok (event, r') → (length (rest r') < length (rest r))%nat.
Proof. unfold next. apply next_loop_progress. Qed.

(** *** What is written is read *)
Definition add_data (data value : text) : text := (if is_nil data then data else data ++ [10]) ++ value.
Definition join_data (values : list text) : text := foldl add_data [] values.

Definition write_field (field value : text) : text := field ++ [58; 32] ++ value ++ [10].

(** An event as a server sends it: its name, if it has one, the lines of its data, and
    an empty line. *)
Definition write_event (name : text) (values : list text) : text :=
  (if is_nil name then [] else write_field (bytes_of "event") name) ++ concat (write_field (bytes_of "data") <$> values) ++ [10].

Definition line_ok (value : text) : Prop := 10 ∉ value ∧ last value ≠ Some 13 ∧ Z.of_nat (length value) + 8 <= maxSSELineBytes.

(** The reader after [n] bytes and [k] lines. *)
Definition advance_reader (n : nat) (k : Z) (more : text) (r : sseReader) : sseReader :=
  mkSseReader more (failure r) (total r + Z.of_nat n) (lines r + k) (events r).

Lemma read_fragments_line fuel : ∀ acc line more total r,
  10 ∉ line → (length line < fuel)%nat → total + Z.of_nat (length line + 1) <= maxStreamResponseBytes →
  Z.of_nat (length acc + length line + 1) <= maxSSELineBytes → lines r + 1 <= maxSSELines →
  read_fragments fuel acc (line ++ 10 :: more) total r
  = Ok (acc ++ line ++ [10], mkSseReader more (failure r) (total + Z.of_nat (length line + 1)) (lines r + 1) (events r)).
Proof.
  induction fuel as [|fuel IH]; intros acc line more total r Hno Hfuel Htotal Hline Hlines; [lia|]. cbn [read_fragments]. unfold ReadSlice.
  destruct (decide (length line < buffer_size)%nat) as [Hshort|Hlong].
  - assert (list_find (eq 10) (take buffer_size (line ++ 10 :: more)) = Some (length line, 10)) as ->.
    { apply list_find_Some. split_and!; [|done|].
      - rewrite lookup_take_lt by done. rewrite lookup_app_r by lia. by rewrite Nat.sub_diag.
      - intros j y Hj Hlt <-. rewrite lookup_take_lt, lookup_app_l in Hj by lia. by apply Hno, (list_elem_of_lookup_2 _ _ _ Hj). }
    replace (take (S (length line)) (line ++ 10 :: more)) with (line ++ [10]) by (rewrite take_app_ge by lia; by rewrite Nat.sub_succ_l, Nat.sub_diag by lia).
    replace (drop (S (length line)) (line ++ 10 :: more)) with more by (rewrite drop_app_ge by lia; by rewrite Nat.sub_succ_l, Nat.sub_diag by lia).
    cbv iota beta zeta. rewrite !length_app. cbn [length].
    rewrite (proj2 (Z.ltb_ge _ _) Htotal). rewrite (proj2 (Z.ltb_ge _ _)) by lia. unfold take_line. rewrite (proj2 (Z.ltb_ge _ _) Hlines). done.
  - assert (list_find (eq 10) (take buffer_size (line ++ 10 :: more)) = None) as ->.
    { apply list_find_None, Forall_forall. intros y Hy <-. rewrite take_app_le in Hy by lia. apply Hno. rewrite <- (take_drop buffer_size line).
      apply elem_of_app. by left. }
    rewrite take_app_le, drop_app_le by lia. cbv iota beta zeta. rewrite length_take, Nat.min_l by lia. pose proof buffer_size_pos.
    rewrite !(proj2 (Z.ltb_ge _ _)) by lia. rewrite length_app. rewrite (proj2 (Nat.ltb_ge _ _)) by lia.
    rewrite IH; rewrite ?length_app, ?length_drop, ?length_take, ?(Nat.min_l buffer_size) by lia; try lia.
    + do 2 f_equal; [|f_equal; lia]. rewrite <- app_assoc, (app_assoc (take _ line)). by rewrite take_drop.
    + intros Hin. apply Hno. rewrite <- (take_drop buffer_size line). apply elem_of_app. by right.
Qed.

Lemma readLine_line r line more :
  rest r = line ++ 10 :: more → 10 ∉ line → total r + Z.of_nat (length line + 1) <= maxStreamResponseBytes →
  Z.of_nat (length line + 1) <= maxSSELineBytes → lines r + 1 <= maxSSELines →
  readLine r = Ok (line ++ [10], advance_reader (length line + 1) 1 more r).
Proof.
  intros Hrest Hno Htotal Hline Hlines. unfold readLine. rewrite Hrest. rewrite read_fragments_line; [done|done| |done|done|done].
  rewrite length_app. cbn. lia.
Qed.

Lemma trim_suffix_snoc b line : trim_suffix b (line ++ [b]) = line.
Proof. unfold trim_suffix. rewrite last_snoc, bool_decide_true by done. by rewrite removelast_last. Qed.

Lemma trim_suffix_other b line : last line ≠ Some b → trim_suffix b line = line.
Proof. intros H. unfold trim_suffix. by rewrite bool_decide_false. Qed.

Lemma cut_field_colon field value : 58 ∉ field → cut_field (field ++ 58 :: value) = (field, value).
Proof.
  intros Hno. unfold cut_field. assert (list_find (eq 58) (field ++ 58 :: value) = Some (length field, 58)) as ->.
  { apply list_find_Some. split_and!; [by rewrite lookup_app_r, Nat.sub_diag by lia|done|].
    intros j y Hj Hlt <-. rewrite lookup_app_l in Hj by lia. by apply Hno, (list_elem_of_lookup_2 _ _ _ Hj). }
  rewrite take_app_length. f_equal. rewrite drop_app_ge by lia. by rewrite Nat.sub_succ_l, Nat.sub_diag by lia.
Qed.

Lemma absent (b : Z) (l : text) : bool_decide (b ∈ l) = false → b ∉ l.
Proof. apply bool_decide_eq_false. Qed.

(** The fields the code knows, of those that are written here. *)
Lemma field_names field : field ∈ [bytes_of "event"; bytes_of "data"] → 58 ∉ field ∧ 10 ∉ field ∧ (length field <= 5)%nat ∧ ∃ b l, field = b :: l ∧ b ≠ 58.
Proof.
  intros [->|[->|[]%elem_of_nil]%elem_of_cons]%elem_of_cons; (split; [apply absent; reflexivity|]); (split; [apply absent; reflexivity|]);
    (split; [cbn; lia|]); do 2 eexists; (split; [vm_compute; reflexivity|done]).
Qed.

Lemma last_field field value : line_ok value → last (field ++ 58 :: 32 :: value) ≠ Some 13.
Proof.
  intros (_ & Hlast & _). rewrite last_app. destruct value as [|b value]; [done|]. change (last (58 :: 32 :: b :: value)) with (last (b :: value)).
  destruct (last (b :: value)) eqn:Hl; [done|]. by apply last_None in Hl.
Qed.

Lemma next_loop_field fuel name data r field value name' data' more :
  field ∈ [bytes_of "event"; bytes_of "data"] → line_ok value → rest r = write_field field value ++ more →
  total r + Z.of_nat (length (write_field field value)) <= maxStreamResponseBytes → lines r + 1 <= maxSSELines →
  read_event_field field value name data = Ok (name', data') → (length (rest r) < fuel)%nat →
  next_loop fuel name data r = next_loop fuel name' data' (advance_reader (length (write_field field value)) 1 more r).
Proof.
  intros Hfield Hvalue Hrest Htotal Hlines Hread Hfuel. destruct (field_names field Hfield) as (Hcolon & Hlf & Hlen & b & l & Hhead & Hb).
  destruct fuel as [|fuel]; [lia|]. trans (next_loop fuel name' data' (advance_reader (length (write_field field value)) 1 more r)).
  2: { apply next_loop_fuel; cbn [rest advance_reader]; rewrite Hrest, length_app in Hfuel; unfold write_field in Hfuel; rewrite length_app in Hfuel; cbn in Hfuel; lia. }
  cbn [next_loop].
  assert (write_field field value = (field ++ 58 :: 32 :: value) ++ [10]) as Hw by (unfold write_field; cbn; by rewrite <- app_assoc).
  assert (length (write_field field value) = S (length (field ++ 58 :: 32 :: value))) as Hwlen by (rewrite Hw, length_app; cbn; lia).
  rewrite (readLine_line r (field ++ 58 :: 32 :: value) more).
  - cbv iota beta. rewrite trim_suffix_snoc, trim_suffix_other by by apply last_field. rewrite Nat.add_1_r, <- Hwlen.
    destruct (field ++ 58 :: 32 :: value) as [|b' l'] eqn:Hline; [by rewrite Hhead in Hline|].
    assert (b' = b) as -> by (rewrite Hhead in Hline; by injection Hline). rewrite (proj2 (Z.eqb_neq _ _) Hb). rewrite <- Hline, cut_field_colon by done.
    cbn [trim_value]. by rewrite Hread.
  - rewrite Hrest, Hw, <- app_assoc. done.
  - destruct Hvalue as (Hno & _). rewrite elem_of_app, !elem_of_cons. intros [?|[?|[?|?]]]; done.
  - rewrite Nat.add_1_r, <- Hwlen. exact Htotal.
  - destruct Hvalue as (_ & _ & Hl). rewrite length_app. cbn [length]. lia.
  - done.
Qed.

Lemma advance_advance n1 n2 k1 k2 more1 more2 r :
  advance_reader n2 k2 more2 (advance_reader n1 k1 more1 r) = advance_reader (n1 + n2) (k1 + k2) more2 r.
Proof. unfold advance_reader. cbn. f_equal; lia. Qed.

Lemma add_data_length data value : (length data <= length (add_data data value))%nat.
Proof. unfold add_data. destruct data; cbn [is_nil]; rewrite !length_app; cbn; lia. Qed.

Lemma foldl_add_data_length data values : (length data <= length (foldl add_data data values))%nat.
Proof. revert data. induction values as [|value values IH]; intros data; [done|]. cbn. etrans; [apply (add_data_length data value)|apply IH]. Qed.

Lemma read_data_field name data value : Z.of_nat (length (add_data data value)) <= maxSSEEventBytes →
  read_event_field (bytes_of "data") value name data = Ok (name, add_data data value).
Proof.
  intros Hlen. unfold read_event_field. rewrite bool_decide_true by done. unfold add_data in *. cbv zeta. rewrite length_app in Hlen.
  by rewrite (proj2 (Z.ltb_ge _ _) Hlen).
Qed.

Definition write_data (values : list text) : text := concat (write_field (bytes_of "data") <$> values).

Lemma next_loop_data fuel name values : ∀ data r more,
  Forall line_ok values → rest r = write_data values ++ more →
  total r + Z.of_nat (length (write_data values)) <= maxStreamResponseBytes → lines r + Z.of_nat (length values) <= maxSSELines →
  Z.of_nat (length (foldl add_data data values)) <= maxSSEEventBytes → (length (rest r) < fuel)%nat →
  next_loop fuel name data r
  = next_loop fuel name (foldl add_data data values) (advance_reader (length (write_data values)) (Z.of_nat (length values)) more r).
Proof.
  induction values as [|value values IH]; intros data r more Hok Hrest Htotal Hlines Hdata Hfuel.
  - unfold write_data in *. cbn in Hrest |- *. f_equal. unfold advance_reader. destruct r. cbn in *. subst. f_equal; lia.
  - apply Forall_cons in Hok as [Hvalue Hok]. unfold write_data in *. cbn [fmap list_fmap concat] in *. rewrite <- app_assoc in Hrest. rewrite length_app in Htotal.
    cbn [length] in Hlines. cbn [foldl] in *. pose proof (foldl_add_data_length (add_data data value) values) as Hmono.
    rewrite (next_loop_field fuel name data r (bytes_of "data") value name (add_data data value) (concat (write_field (bytes_of "data") <$> values) ++ more)).
    + rewrite (IH (add_data data value) _ more); [rewrite advance_advance, length_app; f_equal; f_equal; cbn [length]; lia|done|done|..]; cbn [total lines rest advance_reader].
      * lia.
      * lia.
      * done.
      * rewrite Hrest, length_app in Hfuel. lia.
    + apply elem_of_cons. right. by apply list_elem_of_singleton.
    + done.
    + done.
    + lia.
    + lia.
    + apply read_data_field. lia.
    + done.
Qed.

Lemma readLine_empty_line fuel name data r more :
  rest r = 10 :: more → total r + 1 <= maxStreamResponseBytes → lines r + 1 <= maxSSELines → events r + 1 <= maxSSEEvents → data ≠ [] →
  next_loop (S fuel) name data r = Ok (mkSseEvent name data, mkSseReader more (failure r) (total r + 1) (lines r + 1) (events r + 1)).
Proof.
  intros Hrest Htotal Hlines Hevents Hdata. cbn [next_loop].
  rewrite (readLine_line r [] more); [|done|by apply not_elem_of_nil|done|done|done].
  change (trim_suffix 13 (trim_suffix 10 ([] ++ [10]))) with (@nil Z). cbv iota beta. destruct data as [|b data]; [done|]. cbn [is_nil events advance_reader].
  by rewrite (proj2 (Z.ltb_ge _ _) Hevents).
Qed.

(** An event that a server writes is read back: its name and the lines of its data,
    joined, and the reader stands after it, as long as it keeps to the limits. *)
Theorem next_reads_written r name values more :
  rest r = write_event name values ++ more →
  (name ≠ [] → line_ok name ∧ Z.of_nat (length name) <= 64 ∧ valid_bytes name = true) → Forall line_ok values → join_data values ≠ [] →
  Z.of_nat (length (join_data values)) <= maxSSEEventBytes → total r + Z.of_nat (length (write_event name values)) <= maxStreamResponseBytes →
  lines r + Z.of_nat (length values) + 2 <= maxSSELines → events r + 1 <= maxSSEEvents →
  ∃ r', next r = Ok (mkSseEvent name (join_data values), r') ∧ rest r' = more ∧ failure r' = failure r ∧ events r' = events r + 1
    ∧ total r' = total r + Z.of_nat (length (write_event name values)) ∧ lines r' <= lines r + Z.of_nat (length values) + 2.
Proof.
  intros Hrest Hname Hvalues Hjoin Hdata Htotal Hlines Hevents. unfold next. set (fuel := S (length (rest r))). assert (length (rest r) < fuel)%nat as Hfuel by (unfold fuel; lia).
  assert (∃ n k, next_loop fuel [] [] r = next_loop fuel name [] (advance_reader n k (write_data values ++ 10 :: more) r) ∧ 0 <= k <= 1
    ∧ (n + length (write_data values) + 1 = length (write_event name values))%nat ∧ (n + length (write_data values ++ 10%Z :: more) = length (rest r))%nat) as (n & k & -> & Hk & Hn & Hlen).
  { unfold write_event in *. fold (write_data values) in *. destruct name as [|b name]; cbn [is_nil] in *.
    - exists 0%nat, 0. cbn [app] in Hrest. rewrite <- app_assoc in Hrest. split_and!; [|lia|lia|rewrite !length_app; cbn; lia|by rewrite Hrest].
      f_equal. unfold advance_reader. destruct r. cbn in *. subst. f_equal; lia.
    - destruct (Hname ltac:(done)) as (Hok & H64 & Hvalid). set (field := write_field (bytes_of "event") (b :: name)) in *. exists (length field), 1.
      rewrite <- !app_assoc in Hrest. split_and!; [|lia|lia|rewrite !length_app; cbn; lia|by rewrite Hrest, (length_app field)].
      apply (next_loop_field fuel [] [] r (bytes_of "event") (b :: name) (b :: name) []); try done; [apply elem_of_cons; by left|rewrite !length_app in Htotal; fold field; lia|lia|].
      unfold read_event_field. rewrite bool_decide_false by done. rewrite bool_decide_true by done. cbn [is_nil negb orb].
      rewrite Hvalid. rewrite (proj2 (Nat.ltb_ge _ _)) by (cbn [length] in *; lia). done. }
  rewrite (next_loop_data fuel name values [] _ (10 :: more)); try done; cbn [rest total lines advance_reader]; try lia.
  rewrite advance_advance. fold (join_data values). unfold fuel. rewrite (readLine_empty_line _ name (join_data values) _ more); try done; cbn [rest total lines events advance_reader]; try lia.
  eexists. split; [done|]. cbn. split_and!; try done; lia.
Qed.

(** ** What an attempt shows and returns *)
Section Shown.
Context `{UnicodeTables} `{StreamCodec}.

(** The text that was shown: the events are the latest first. *)
Fixpoint shown (events : list StreamEvent) : string :=
  match events with
  | [] => ""
  | e :: events => shown events +:+ (if bool_decide (StreamEvent_Kind e = StreamEventTextDelta) then StreamEvent_Text e else "")
  end.

Lemma bind_M_Ok {A B} (c : M A) (k : A → M B) w w' b : (c ≫= k) w = (w', Ok b) ↔ ∃ w1 a, c w = (w1, Ok a) ∧ k a w1 = (w', Ok b).
Proof.
  unfold mbind, M_bind. destruct (c w) as [w1 [a|s]]; split.
  - intros Hk. by exists w1, a.
  - by intros (? & ? & [= <- <-] & Hk).
  - done.
  - by intros (? & ? & [=] & _).
Qed.

Lemma bind_M_Err {A B} (c : M A) (k : A → M B) w w' s :
  (c ≫= k) w = (w', Err s) ↔ c w = (w', Err s) ∨ ∃ w1 a, c w = (w1, Ok a) ∧ k a w1 = (w', Err s).
Proof.
  unfold mbind, M_bind. destruct (c w) as [w1 [a|s']]; split.
  - intros Hk. right. by exists w1, a.
  - by intros [[=]|(? & ? & [= <- <-] & Hk)].
  - intros [= <- <-]. by left.
  - by intros [[= <- <-]|(? & ? & [=] & _)].
Qed.

(** What shows no text and does not ask for another attempt. *)
Definition steady {A} (c : M A) : Prop :=
  ∀ w w' r, c w = (w', r) → shown (observed w') = shown (observed w) ∧ ∀ s, r = Err s → ∃ e, s = Failed e.

Lemma steady_ret {A} (a : A) : steady (mret a).
Proof. by intros w w' r [= <- <-]. Qed.
Lemma steady_fails {A} e : steady (@fails A e).
Proof. intros w w' r [= <- <-]. split; [done|]. intros s [= <-]. by exists e. Qed.
Lemma steady_lift {A} (r : result error A) : steady (lift r).
Proof. intros w w' r' [= <- <-]. split; [done|]. intros s. destruct r; [done|]. intros [= <-]. by eexists. Qed.
Lemma steady_bind {A B} (c : M A) (k : A → M B) : steady c → (∀ a, steady (k a)) → steady (c ≫= k).
Proof.
  intros Hc Hk w w' [b|s].
  - intros (w1 & a & H1 & H2)%bind_M_Ok. apply Hc in H1 as [H1 _]. apply (Hk a) in H2 as [H2 _]. split; [congruence|done].
  - intros [Hs|(w1 & a & H1 & H2)]%bind_M_Err; [apply Hc in Hs as [Hs1 Hs2]; split; [done|]; intros s' [= <-]; by apply Hs2|]. apply Hc in H1 as [H1 _]. apply (Hk a) in H2 as [H2 H3]. split; [congruence|done].
Qed.

Context (observer : list StreamEvent → StreamEvent → option error) (context_error : nat → option error).

Lemma steady_check : steady (check_context context_error).
Proof. intros w w' r [= <- <-]. split; [done|]. intros s. destruct (context_error _); [|done]. intros [= <-]. by eexists. Qed.

Lemma observe_shown kind s w w' r : observe observer kind s w = (w', r) →
  shown (observed w') = shown (observed w) +:+ (if bool_decide (kind = StreamEventTextDelta) then s else "") ∧ ∀ s, r = Err s → ∃ e, s = Failed e.
Proof. intros [= <- <-]. split; [done|]. intros s'. destruct (observer _ _); [|done]. intros [= <-]. by eexists. Qed.

Lemma append_empty s : s +:+ "" = s.
Proof. induction s as [|c s IH]; [done|]. change (String c (s +:+ "") = String c s). by rewrite IH. Qed.

Lemma steady_observe kind s : kind ≠ StreamEventTextDelta → steady (observe observer kind s).
Proof. intros Hkind w w' r [Hs He]%observe_shown. rewrite bool_decide_false, append_empty in Hs by done. done. Qed.

Lemma steady_start : steady (start_response observer).
Proof.
  intros w w' r. unfold start_response. destruct (responseStarted w); [by intros [= <- <-]|].
  apply (steady_bind (observe observer StreamEventResponseStarted "") (fun _ => mark_started)); [by apply steady_observe|].
  intros [] w1 w2 r'. unfold mark_started. by intros [= <- <-].
Qed.

(** An attempt that shows [s], or fails. *)
Lemma deliver_shown s a w w' : deliver observer context_error s a w = (w', Ok tt) → shown (observed w') = shown (observed w) +:+ s.
Proof.
  unfold deliver. intros (w1 & [] & H1%steady_start & (w2 & [] & H2 & H3)%bind_M_Ok)%bind_M_Ok. destruct H1 as [H1 _].
  assert (shown (observed w2) = shown (observed w1)) as Hw2.
  { destruct (bool_decide (reasoningDelta a = "")); [by injection H2 as <-|]. by apply steady_observe in H2 as [H2 _]. }
  destruct (bool_decide (s = "")) eqn:Hs.
  - apply bool_decide_eq_true in Hs as ->. injection H3 as <-. rewrite append_empty. congruence.
  - apply bind_M_Ok in H3 as (w3 & [] & H3 & H4). apply steady_check in H4 as [H4 _]. apply observe_shown in H3 as [H3 _].
    rewrite bool_decide_true in H3 by done. congruence.
Qed.

Lemma deliver_fails s a w w' e : deliver observer context_error s a w = (w', Err e) → ∃ e', e = Failed e'.
Proof.
  unfold deliver. intros [H1|(w1 & [] & _ & [H2|(w2 & [] & _ & H3)]%bind_M_Err)]%bind_M_Err.
  - by apply steady_start in H1 as [_ H1]; apply H1.
  - destruct (bool_decide _); [done|]. by apply steady_observe in H2 as [_ H2]; [apply H2|].
  - destruct (bool_decide _); [done|]. apply bind_M_Err in H3 as [H3|(w3 & [] & _ & H4)].
    + apply observe_shown in H3 as [_ H3]. by apply H3.
    + apply steady_check in H4 as [_ H4]. by apply H4.
Qed.

(** *** The assembler *)
Record assembler_ok (a : streamAssembler) : Prop := {
  text_bound : str_len (asm_text a) <= maxStreamTextBytes;
  finish_valid : finishSeen a = true → validFinishReason (finishReason a) = true;
}.

(** From [a] to [a'] the text [s] was added. *)
Record grows (a : streamAssembler) (s : string) (a' : streamAssembler) : Prop := {
  grows_text : asm_text a' = asm_text a +:+ s;
  grows_saw : sawIncrement a = true ∨ s ≠ "" → sawIncrement a' = true;
  grows_ok : assembler_ok a → assembler_ok a';
}.

Lemma append_assoc s t u : (s +:+ t) +:+ u = s +:+ (t +:+ u).
Proof. induction s as [|c s IH]; [done|]. change (String c ((s +:+ t) +:+ u) = String c (s +:+ (t +:+ u))). by rewrite IH. Qed.

Lemma grows_trans a s a1 t a2 : grows a s a1 → grows a1 t a2 → grows a (s +:+ t) a2.
Proof.
  intros [H1 H2 H3] [H4 H5 H6]. split; [by rewrite H4, H1, append_assoc| |by intros ?%H3%H6].
  intros [Hs|Hs]; apply H5; [left; apply H2; by left|]. destruct (decide (t = "")) as [->|Ht]; [|by right]. left. apply H2. right.
  by rewrite append_empty in Hs.
Qed.

Lemma grows_quiet a s a1 a2 : grows a s a1 → grows a1 "" a2 → grows a s a2.
Proof. intros H1 H2. rewrite <- (append_empty s). by eapply grows_trans. Qed.

Lemma grows_same a a' : asm_text a' = asm_text a → (sawIncrement a = true → sawIncrement a' = true) → finishSeen a' = finishSeen a →
  finishReason a' = finishReason a → grows a "" a'.
Proof.
  intros H1 H2 H3 H4. split; [by rewrite append_empty|intros [?|?]; [by apply H2|done]|]. intros [Ha Hb]. split; [by rewrite H1|].
  rewrite H3, H4. exact Hb.
Qed.

Lemma apply_role_grows delta a a' : apply_role delta a = Ok a' → grows a "" a'.
Proof. unfold apply_role. destruct (bool_decide _); [intros [= <-]; by apply grows_same|]. intros [_ [= <-]]%guard_Ok. by apply grows_same. Qed.

Lemma apply_reasoning_grows delta a hidden a' : apply_reasoning delta a = Ok (hidden, a') → grows a "" a'.
Proof. unfold apply_reasoning. destruct (validateHiddenReasoning delta) as [[|]|]; [| |done]; intros [= _ <-]; by apply grows_same. Qed.

Lemma apply_usage_grows chunk a a' : apply_usage chunk a = Ok a' → grows a "" a'.
Proof. unfold apply_usage. destruct (Chunk_Usage chunk); [|intros [= <-]; by apply grows_same]. intros [_ [= <-]]%guard_Ok. by apply grows_same. Qed.

Lemma str_len_app s t : str_len (s +:+ t) = str_len s + str_len t.
Proof. unfold str_len. induction s as [|c s IH]; [done|]. change (String c s +:+ t) with (String c (s +:+ t)). cbn [String.length]. lia. Qed.

Lemma apply_text_grows delta a s a' : apply_text delta a = Ok (s, a') → grows a s a'.
Proof.
  unfold apply_text. destruct (Delta_Content delta) as [t|]; [|intros [= <- <-]; by apply grows_same].
  intros [Hg [= <- <-]]%guard_Ok. apply orb_false_iff in Hg as [_ Hg%Z.ltb_ge]. split; [done|done|]. intros [_ Hf]. split; [|exact Hf].
  cbn. by rewrite str_len_app.
Qed.

Lemma applyToolDelta_grows delta a a' : applyToolDelta delta a = Ok a' → grows a "" a'.
Proof.
  unfold applyToolDelta. destruct (Delta_Index delta) as [index|]; [|done]. cbv zeta. do 6 (intros [_ H1]%guard_Ok; revert H1). intros [= <-].
  by apply grows_same.
Qed.

Lemma tool_deltas_grow deltas : ∀ a a', fold_result (fun a delta => applyToolDelta delta a) a deltas = Ok a' → grows a "" a'.
Proof.
  induction deltas as [|delta deltas IH]; intros a a'; cbn; [intros [= <-]; by apply grows_same|].
  intros (a1 & H1%applyToolDelta_grows & H2%IH)%bind_Ok. by eapply grows_quiet.
Qed.

Lemma apply_empty_grows empty a a' : apply_empty empty a = Ok a' → grows a "" a'.
Proof. unfold apply_empty. destruct empty; [intros [_ [= <-]]%guard_Ok|intros [= <-]]; by apply grows_same. Qed.

Lemma apply_finish_grows reason a a' : apply_finish reason a = Ok a' → grows a "" a'.
Proof.
  unfold apply_finish. destruct reason as [reason|]; [|intros [= <-]; by apply grows_same]. intros [Hv%negb_false_iff [= <-]]%guard_Ok.
  split; [by rewrite append_empty|by intros [?|?]|]. intros [Ht _]. split; [done|]. intros _. exact Hv.
Qed.

Lemma apply_choice_grows choice a s a' : apply_choice choice a = Ok (s, a') → grows a s a'.
Proof.
  unfold apply_choice. intros [_ H1]%guard_Ok. revert H1.
  intros (a1 & H1%apply_role_grows & ([hidden a2] & H2%apply_reasoning_grows & ([t a3] & H3%apply_text_grows & H4)%bind_Ok)%bind_Ok)%bind_Ok.
  apply bind_Ok in H4 as (a4 & H4%tool_deltas_grow & (a5 & H5%apply_empty_grows & (a6 & H6%apply_finish_grows & [= <- <-])%bind_Ok)%bind_Ok).
  eapply grows_quiet; [|exact H6]. eapply grows_quiet; [|exact H5]. eapply grows_quiet; [|exact H4].
  apply (grows_trans a "" a2 t a3); [|exact H3]. by eapply grows_quiet.
Qed.

Lemma apply_grows data a s a' : apply data a = Ok (s, a') → grows a s a'.
Proof.
  unfold apply. cbv zeta. intros [_ Ha]%guard_Ok. revert Ha. destruct (decode_chunk data) as [[chunk trailing]|]; [|done].
  intros [_ [_ (a1 & H1%apply_usage_grows & Ha)%bind_Ok]%guard_Ok]%guard_Ok.
  assert (grows a "" a1) as Ha1 by (eapply grows_quiet; [|exact H1]; by apply grows_same).
  destruct (Choices chunk) as [|choice [|]]; [|apply guard_Ok in Ha as [_ Ha]|done].
  - apply guard_Ok in Ha as [_ [= <- <-]]. exact Ha1.
  - apply apply_choice_grows in Ha. by apply (grows_trans a "" a1 s a').
Qed.

Record call_valid (call : ToolCall) : Prop := {
  call_has_id : ToolCall_ID call ≠ "";
  call_is_function : ToolCall_Type call = "function";
  call_has_name : ToolFunction_Name (ToolCall_Function call) ≠ "";
  call_has_object : validJSONObject (ToolFunction_Arguments (ToolCall_Function call)) = true;
}.

Definition assembled (call : assembledToolCall) : ToolCall :=
  mkToolCall (call_id call) (call_type call) (mkToolFunction (call_name call) (call_arguments call)).

Lemma collect_calls_Ok calls expected indices ids result : collect_calls calls expected indices ids = Ok result →
  result = (fun i => assembled (default (mkAssembledToolCall "" "" "" "") (calls !! i))) <$> indices
  ∧ indices = seqZ expected (Z.of_nat (length indices)) ∧ Forall call_valid result ∧ NoDup (ToolCall_ID <$> result)
  ∧ ∀ call, call ∈ result → ToolCall_ID call ∉ ids.
Proof.
  revert expected ids result. induction indices as [|index indices IH]; intros expected ids result; cbn.
  { intros [= <-]. split_and!; try done; [by apply NoDup_nil_2|by intros ? ?%elem_of_nil]. }
  intros [Hindex%negb_false_iff%Z.eqb_eq [Hvalid [Hid (rest & (-> & Hseq & Hall & Hnd & Hnew)%IH & [= <-])%bind_Ok]%guard_Ok]%guard_Ok]%guard_Ok.
  apply bool_decide_eq_false in Hid. set (call := default _ (calls !! index)) in *. subst index. rewrite !orb_false_iff in Hvalid.
  destruct Hvalid as [[[H1%bool_decide_eq_false H2%negb_false_iff%bool_decide_eq_true] H3%bool_decide_eq_false] H4%negb_false_iff]. split_and!.
  - done.
  - rewrite seqZ_cons by lia. rewrite Z.pred_succ || replace (Z.pred (Z.of_nat (S (length indices)))) with (Z.of_nat (length indices)) by lia.
    f_equal. rewrite Hseq at 1. by rewrite Z.add_1_r.
  - constructor; [by split|done].
  - cbn. constructor; [|done]. intros (c & Hc & Hin)%list_elem_of_fmap. apply (Hnew c Hin). rewrite <- Hc. apply elem_of_cons. by left.
  - intros c [->|Hin]%elem_of_cons; [done|]. specialize (Hnew c Hin). rewrite elem_of_cons in Hnew. tauto.
Qed.

(** A response that was streamed: what the other parts of the agent rely on. *)
Record streamed_ok (r : Response) : Prop := {
  streamed_role : Message_Role (Response_Message r) = "assistant";
  streamed_size : str_len (Message_Content (Response_Message r)) <= MaxAssistantTextBytes;
  streamed_calls : Forall call_valid (Message_ToolCalls (Response_Message r));
  streamed_ids : NoDup (ToolCall_ID <$> Message_ToolCalls (Response_Message r));
  streamed_reason : Response_FinishReason r = if is_nil (Message_ToolCalls (Response_Message r)) then "stop" else "tool_calls";
  streamed_content : Message_Content (Response_Message r) ≠ "" ∨ Message_ToolCalls (Response_Message r) ≠ [];
}.

Lemma finish_reasons s : validFinishReason s = true → finishReasonError s true = Ok tt → s = "stop" ∨ s = "tool_calls".
Proof.
  unfold validFinishReason. rewrite bool_decide_eq_true, !elem_of_cons. intros [->|[->|[->|[->|[]%elem_of_nil]]]]; [by left|by right| |];
    intros Hr; vm_compute in Hr; discriminate.
Qed.

Lemma response_Ok a r : assembler_ok a → response a = Ok r → Message_Content (Response_Message r) = asm_text a ∧ streamed_ok r.
Proof.
  intros [Ht Hf] Hr. unfold response in Hr. apply guard_Ok in Hr as [Hseen%negb_false_iff Hr]. apply bind_Ok in Hr as ([] & Hreason & Hr).
  apply bind_Ok in Hr as (calls & (_ & _ & Hall & Hnd & _)%collect_calls_Ok & [Hx [Hc [= <-]]%guard_Ok]%guard_Ok). split; [done|].
  pose proof (finish_reasons _ (Hf Hseen) Hreason) as Hcases. apply xorb_eq in Hx. split; cbn; try done.
  - destruct calls; cbn in *; symmetry in Hx; [apply bool_decide_eq_false in Hx; tauto|by apply bool_decide_eq_true in Hx].
  - apply andb_false_iff in Hc as [?%bool_decide_eq_false|Hc]; [by left|right]. by destruct calls.
Qed.

Lemma provider_error_Ok {A} provider include a w w' (x : A) : on_provider_error provider include a w ≠ (w', Ok x).
Proof.
  unfold on_provider_error. destruct (_ && (_ && _)); [done|]. destruct (_ && _); [done|]. by destruct (isReasoningEffortUnsupported _).
Qed.

(** *** The loop *)
Definition read_from := read_events observer context_error.

Lemma read_from_Ok fuel include r a w w' resp : read_from fuel include r a w = (w', Ok resp) → assembler_ok a →
  streamed_ok resp ∧ ∃ s, shown (observed w') = shown (observed w) +:+ s ∧ Message_Content (Response_Message resp) = asm_text a +:+ s.
Proof.
  unfold read_from. revert r a w. induction fuel as [|fuel IH]; intros r a w; [done|]. cbn [read_events]. intros (w1 & [] & H1%steady_check & H2)%bind_M_Ok Ha.
  destruct H1 as [H1 _]. destruct (next r) as [[event r']|e]; [|by apply bind_M_Ok in H2 as (? & [] & _ & ?)].
  destruct (bool_decide (trim_space _ = _)).
  - destruct (_ || _); [done|]. unfold lift in H2. destruct (response a) as [resp'|] eqn:Hr; [|done]. injection H2 as <- ->.
    apply response_Ok in Hr as [Hcontent Hok]; [|done]. split; [done|]. exists "". by rewrite !append_empty.
  - destruct (decodeProviderErrorFrame _) as [provider hasError]. destruct (_ || hasError); [by apply provider_error_Ok in H2|].
    apply bind_M_Ok in H2 as (w2 & [s a'] & H2 & (w3 & [] & H3%deliver_shown & H4)%bind_M_Ok). unfold lift in H2.
    destruct (apply _ a) as [[s' a'']|] eqn:Happly; [|done]. injection H2 as <- -> ->. apply apply_grows in Happly as [Htext _ Hok].
    apply IH in H4 as (Hresp & t & Hshown & Hcontent); [|destruct (Hok Ha); by split]. split; [done|]. exists (s +:+ t).
    rewrite Hshown, H3, H1, append_assoc. split; [done|]. rewrite Hcontent. change (asm_text (set_reasoning "" a')) with (asm_text a'). by rewrite Htext, append_assoc.
Qed.

Lemma read_from_fallback fuel include r a w w' f : read_from fuel include r a w = (w', Err (Fallback f)) →
  sawIncrement a = false ∧ shown (observed w') = shown (observed w) ∧ (include = false → f = CompleteFallback).
Proof.
  unfold read_from. revert r a w. induction fuel as [|fuel IH]; intros r a w; [done|]. cbn [read_events].
  intros [H1%steady_check|(w1 & [] & H1%steady_check & H2)]%bind_M_Err; [destruct H1 as [_ H1]; by destruct (H1 _ eq_refl)|].
  destruct H1 as [H1 _]. destruct (next r) as [[event r']|e].
  2: { apply bind_M_Err in H2 as [H2%steady_check|(w2 & [] & _ & H2)]; [destruct H2 as [_ H2]; by destruct (H2 _ eq_refl)|done]. }
  destruct (bool_decide (trim_space _ = _)).
  - destruct (_ || _); [done|]. unfold lift in H2. by destruct (response a).
  - destruct (decodeProviderErrorFrame _) as [provider hasError]. destruct (_ || hasError).
    + unfold on_provider_error in H2. destruct (sawIncrement a); cbn [negb andb] in H2; [by destruct (isReasoningEffortUnsupported _)|].
      split; [done|]. destruct (include && _) eqn:Hinclude; [injection H2 as <- <-; split; [done|]; by intros ->|].
      destruct (isStreamUnsupported _); [injection H2 as <- <-; done|by destruct (isReasoningEffortUnsupported _)].
    + apply bind_M_Err in H2 as [H2|(w2 & [s a'] & H2 & [H3%deliver_fails|(w3 & [] & H3%deliver_shown & H4)]%bind_M_Err)].
      * unfold lift in H2. by destruct (apply _ a).
      * by destruct H3.
      * unfold lift in H2. destruct (apply _ a) as [[s' a'']|] eqn:Happly; [|done]. injection H2 as <- -> ->. apply IH in H4 as (Hsaw & Hshown & Hf).
        cbn in Hsaw. apply apply_grows in Happly as [_ Hgrow _]. assert (¬ (sawIncrement a = true ∨ s ≠ "")) as Hnot by (intros ?%Hgrow; congruence).
        assert (s = "") as -> by (destruct (decide (s = "")); tauto). rewrite append_empty in H3.
        split_and!; [destruct (sawIncrement a); tauto|congruence|done].
Qed.

(** *** Attempts and [Stream] *)
Context (connect : Request → string → bool → connection) (post : Request → string → completion).

Lemma attempt_Ok request effort include w w' resp : streamAttempt observer context_error connect request effort include w = (w', Ok resp) →
  streamed_ok resp ∧ shown (observed w') = shown (observed w) +:+ Message_Content (Response_Message resp).
Proof.
  unfold streamAttempt. destruct (connect request effort include) as [e| |status body| |body ended].
  - done.
  - by intros (? & [] & _ & ?)%bind_M_Ok.
  - unfold refused. destruct body as [data|]; [|by intros (? & [] & _ & ?)%bind_M_Ok]. destruct (_ <? _); [done|]. destruct (negb _); [done|].
    destruct (_ && _); [done|]. by destruct (isStreamUnsupported _).
  - done.
  - intros (w1 & [] & [H1 _]%steady_check & H2)%bind_M_Ok. apply read_from_Ok in H2 as (Hok & s & Hshown & ->); [|by split].
    split; [done|]. by rewrite Hshown, H1.
Qed.

Lemma attempt_fallback request effort include w w' f : streamAttempt observer context_error connect request effort include w = (w', Err (Fallback f)) →
  shown (observed w') = shown (observed w) ∧ (include = false → f = CompleteFallback).
Proof.
  unfold streamAttempt. destruct (connect request effort include) as [e| |status body| |body ended]; [done| |..].
  - intros [[_ Hc]%steady_check|(? & [] & _ & ?)]%bind_M_Err; [by destruct (Hc _ eq_refl)|done].
  - unfold refused. destruct body as [data|].
    + destruct (_ <? _); [done|]. destruct (negb _); [done|]. destruct (include && _) eqn:Hinclude; [intros [= <- <-]; split; [done|]; by intros ->|].
      destruct (isStreamUnsupported _); [by intros [= <- <-]|done].
    + intros [[_ Hc]%steady_check|(? & [] & _ & ?)]%bind_M_Err; [by destruct (Hc _ eq_refl)|done].
  - done.
  - intros [[_ Hc]%steady_check|(w1 & [] & [H1 _]%steady_check & H2)]%bind_M_Err; [by destruct (Hc _ eq_refl)|].
    apply read_from_fallback in H2 as (_ & Hshown & Hf). split; [congruence|done].
Qed.

Lemma steady_notify : steady (notifyCompatibilityFallback observer context_error).
Proof. apply steady_bind; [by apply steady_observe|]. intros []. apply steady_check. Qed.

Definition fallback_of (request : Request) (r : Response) : Prop := ∃ r', Complete post request = Ok r' ∧ r = as_fallback r'.

Lemma completeFallback_Ok request notify w w' r : completeFallback observer context_error post request notify w = (w', Ok r) →
  shown (observed w') = shown (observed w) ∧ fallback_of request r.
Proof.
  unfold completeFallback. intros (w1 & [] & H1 & (w2 & r' & H2 & [= <- <-])%bind_M_Ok)%bind_M_Ok. unfold lift in H2.
  destruct (Complete post request) as [r2|] eqn:Hr; [|done]. injection H2 as <- <-. split; [|by exists r2].
  destruct notify; [by apply steady_notify in H1 as [H1 _]|by injection H1 as <-].
Qed.

Lemma stream_loop_Ok fuel request effort include compat w w' r : stream_loop observer context_error connect post fuel request effort include compat w = (w', Ok r) →
  (streamed_ok r ∧ shown (observed w') = shown (observed w) +:+ Message_Content (Response_Message r))
  ∨ (fallback_of request r ∧ shown (observed w') = shown (observed w)).
Proof.
  revert include compat w. induction fuel as [|fuel IH]; intros include compat w; [done|]. cbn [stream_loop].
  destruct (streamAttempt _ _ _ _ _ _ _) as [w1 [resp|s]] eqn:Hattempt.
  - apply attempt_Ok in Hattempt as [Hok Hshown]. intros [= <- <-]. left. destruct compat; [|done]. split; [|done]. by destruct Hok.
  - destruct s as [e|[|]|]; [done| | |done]; apply attempt_fallback in Hattempt as [Hshown _].
    + change (M_bind _ _ ?k ?c w1) with ((c ≫= k) w1). intros (w2 & [] & [H2 _]%steady_notify & H3%IH)%bind_M_Ok. by rewrite <- Hshown, <- H2.
    + intros [H1 H2]%completeFallback_Ok. right. split; [done|congruence].
Qed.

Lemma read_from_returns fuel include r a w w' : (length (rest r) < fuel)%nat → read_from fuel include r a w ≠ (w', Err OutOfFuel).
Proof.
  unfold read_from. revert r a w. induction fuel as [|fuel IH]; intros r a w Hfuel; [lia|]. cbn [read_events].
  intros [[_ Hc]%steady_check|(w1 & [] & _ & H2)]%bind_M_Err; [by destruct (Hc _ eq_refl)|]. destruct (next r) as [[event r']|e] eqn:Hnext.
  2: { apply bind_M_Err in H2 as [[_ H2]%steady_check|(w2 & [] & _ & H2)]; [by destruct (H2 _ eq_refl)|done]. }
  apply next_progress in Hnext. destruct (bool_decide (trim_space _ = _)).
  - destruct (_ || _); [done|]. unfold lift in H2. by destruct (response a).
  - destruct (decodeProviderErrorFrame _) as [provider hasError]. destruct (_ || hasError).
    + unfold on_provider_error in H2. destruct (_ && (_ && _)); [done|]. destruct (_ && _); [done|]. by destruct (isReasoningEffortUnsupported _).
    + apply bind_M_Err in H2 as [H2|(w2 & [s a'] & H2 & [H3%deliver_fails|(w3 & [] & _ & H4)]%bind_M_Err)]; [|by destruct H3|].
      * unfold lift in H2. by destruct (apply _ a).
      * by apply IH in H4; [|lia].
Qed.

Lemma attempt_returns request effort include w w' : streamAttempt observer context_error connect request effort include w ≠ (w', Err OutOfFuel).
Proof.
  unfold streamAttempt. destruct (connect request effort include) as [e| |status body| |body ended]; [done| |..].
  - intros [[_ Hc]%steady_check|(? & [] & _ & ?)]%bind_M_Err; [by destruct (Hc _ eq_refl)|done].
  - unfold refused. destruct body as [data|].
    + destruct (_ <? _); [done|]. destruct (negb _); [done|]. destruct (include && _); [done|]. by destruct (isStreamUnsupported _).
    + intros [[_ Hc]%steady_check|(? & [] & _ & ?)]%bind_M_Err; [by destruct (Hc _ eq_refl)|done].
  - done.
  - intros [[_ Hc]%steady_check|(w1 & [] & _ & H2)]%bind_M_Err; [by destruct (Hc _ eq_refl)|].
    by apply (read_from_returns (S (length (rest (open_stream body ended))))) in H2; [|lia].
Qed.

Lemma completeFallback_returns request notify w w' : completeFallback observer context_error post request notify w ≠ (w', Err OutOfFuel).
Proof.
  unfold completeFallback. intros [H1|(w1 & [] & _ & [H2|(w2 & r & _ & ?)]%bind_M_Err)]%bind_M_Err; [| |done].
  - destruct notify; [|done]. apply steady_notify in H1 as [_ H1]. by destruct (H1 _ eq_refl).
  - apply steady_lift in H2 as [_ H2]. by destruct (H2 _ eq_refl).
Qed.

Lemma stream_loop_returns request effort w w' : stream_loop observer context_error connect post 2 request effort true false w ≠ (w', Err OutOfFuel).
Proof.
  cbn [stream_loop]. destruct (streamAttempt _ _ _ _ _ true _) as [w1 [resp|s]] eqn:H1; [done|].
  destruct s as [e|[|]|]; [done| |apply completeFallback_returns|by apply attempt_returns in H1].
  change (M_bind _ _ ?k ?c w1) with ((c ≫= k) w1). intros [[_ Hc]%steady_notify|(w2 & [] & _ & H3)]%bind_M_Err; [by destruct (Hc _ eq_refl)|].
  destruct (streamAttempt _ _ _ _ _ false _) as [w3 [resp|s]] eqn:H4; [done|].
  destruct s as [e|[|]|]; [done| |by apply completeFallback_returns in H3|by apply attempt_returns in H4].
  apply attempt_fallback in H4 as [_ H4]. by specialize (H4 eq_refl).
Qed.
End Shown.

(** *** Theorems *)

(** C15. What the user saw is what the agent got. When [Stream] returns a response, either
    the texts it showed are, one after the other, the content of the response, over all
    attempts; or it showed none and the response is that of a request without a stream.
    A streamed response is well formed: an assistant's message within the limit, calls
    with distinct identifiers, names and one JSON object each, and a reason for its end
    that agrees with them. *)
Theorem streamed_text_is_shown `{UnicodeTables} `{StreamCodec} observer context_error connect post request w r :
  Stream observer context_error connect post request = (w, Ok r) →
  (streamed_ok r ∧ shown (observed w) = Message_Content (Response_Message r))
  ∨ (shown (observed w) = "" ∧ Response_CompatibilityFallback r = true ∧ ∃ r', Complete post request = Ok r' ∧ r = as_fallback r').
Proof.
  unfold Stream. destruct (normalizeReasoningEffort _) as [effort|]; [|done]. destruct (is_nil _); [done|].
  intros [[Hok Hshown]|[(r' & Hr & ->) Hshown]]%stream_loop_Ok; [left|right]; split; try done. by split; [|exists r'].
Qed.

(** [Stream] returns: every event takes bytes of the connection, and an attempt
    without options does not lead to a third. *)
Theorem Stream_returns `{UnicodeTables} `{StreamCodec} observer context_error connect post request :
  (Stream observer context_error connect post request).2 ≠ Err OutOfFuel.
Proof.
  unfold Stream. destruct (normalizeReasoningEffort _) as [effort|]; [|done]. destruct (is_nil _); [done|].
  intros Hr. eapply (stream_loop_returns observer context_error connect post request effort (mkWorld [] 0 false)). by rewrite (surjective_pairing (stream_loop _ _ _ _ _ _ _ _ _ _)), Hr.
Qed.

Module Samples.
Definition delta (content : option string) (calls : list streamToolCallDelta) : streamDelta := mkStreamDelta "" content calls [] [] [] [].
Definition chunk (content : option string) (calls : list streamToolCallDelta) (reason : option string) : streamChunk :=
  mkStreamChunk [mkStreamChoice (Some 0) (delta content calls) reason] None None.

(** A protocol of one letter and a text: [t] is a text, [a] are arguments of a call, [f] is
    a reason to finish, [x] an error. *)
Definition codec : StreamCodec := {|
  decode_chunk := fun data =>
    match data with
    | 116 :: s => Some (chunk (Some (string_of_bytes s)) [] None, false)
    | 97 :: s => Some (chunk None [mkStreamToolCallDelta (Some 0) "" "" (mkStreamFunctionDelta "" (string_of_bytes s))] None, false)
    | 99 :: s => Some (chunk None [mkStreamToolCallDelta (Some 0) (string_of_bytes s) "function" (mkStreamFunctionDelta "read" "")] None, false)
    | 102 :: s => Some (chunk None [] (Some (string_of_bytes s)), false)
    | _ => None
    end;
  unmarshal_envelope := fun data => match data with 120 :: s => Some (mkProviderError "unsupported_parameter" "" (string_of_bytes s) "") | _ => None end;
  unmarshal_error := fun _ => None;
  unmarshal_text := fun _ => None;
  unmarshal_details := fun _ => None;
  decode_completion := fun _ => None;
|}.
#[local] Existing Instances ascii_tables codec.

Definition server_sends (events : list string) : text := concat ((fun e => write_event [] [bytes_of e]) <$> events).

(** A server that does not know the option, and then answers in three parts. *)
Definition connect (_ : Request) (_ : string) (options : bool) : connection :=
  if options then EventStream (server_sends ["xstream_options"]) None
  else EventStream (server_sends ["tHello, "; "tworld"; "c1"; "a{"; "a}"; "ftool_calls"; "[DONE]"]) None.

Definition request : Request := mkRequest [mkMessage "user" "hi" [] ""] [] 0 "".
Definition run : world * result stop Response := Stream (fun _ _ => None) (fun _ => None) connect (fun _ _ => CompletionFailed ErrorCanceled) request.

Definition answer : Response :=
  mkResponse (mkMessage "assistant" "Hello, world" [mkToolCall "1" "function" (mkToolFunction "read" "{}")] "") "tool_calls" None true.

Example run_answers : run.2 = Ok answer.
Proof. vm_compute. reflexivity. Qed.
Example events_shown : StreamEvent_Kind <$> reverse (observed run.1)
  = [StreamEventCompatibilityFallback; StreamEventResponseStarted; StreamEventTextDelta; StreamEventTextDelta].
Proof. vm_compute. reflexivity. Qed.
Example truncated_stream :
  (Stream (fun _ _ => None) (fun _ => None) (fun _ _ _ => EventStream (server_sends ["tHello"]) None) (fun _ _ => CompletionFailed ErrorCanceled) request).2
  = Err (Failed (protocol_error "模型流式响应在完成前中断")).
Proof. vm_compute. reflexivity. Qed.
End Samples.

Lemma streamed_text_is_shown_witness :
  Samples.run.2 = Ok Samples.answer ∧
  ((streamed_ok Samples.answer ∧ shown (observed Samples.run.1) = "Hello, world")
   ∨ (shown (observed Samples.run.1) = "" ∧ true = true ∧ ∃ r', Complete (H0 := Samples.codec) (H := ascii_tables) (fun _ _ => CompletionFailed ErrorCanceled) Samples.request = Ok r' ∧ Samples.answer = as_fallback r')).
Proof.
  assert (Samples.run.2 = Ok Samples.answer) as Hrun by (vm_compute; reflexivity). split; [exact Hrun|].
  apply (streamed_text_is_shown (H := ascii_tables) (H0 := Samples.codec) (fun _ _ => None) (fun _ => None) Samples.connect (fun _ _ => CompletionFailed ErrorCanceled) Samples.request Samples.run.1).
  rewrite <- Hrun. apply surjective_pairing.
Defined.

Lemma next_reads_written_witness :
  ∃ r', next (open_stream (write_event (bytes_of "delta") [bytes_of "one"; bytes_of "two"] ++ bytes_of "rest") None)
    = Ok (mkSseEvent (bytes_of "delta") (join_data [bytes_of "one"; bytes_of "two"]), r')
  ∧ rest r' = bytes_of "rest" ∧ failure r' = None ∧ events r' = 0 + 1
  ∧ total r' = 0 + Z.of_nat (length (write_event (bytes_of "delta") [bytes_of "one"; bytes_of "two"])) ∧ lines r' <= 0 + 2 + 2.
Proof.
  apply (next_reads_written (open_stream (write_event (bytes_of "delta") [bytes_of "one"; bytes_of "two"] ++ bytes_of "rest") None)).
  - vm_compute. reflexivity.
  - intros _. split; [|split; [vm_compute; discriminate|vm_compute; reflexivity]]. split_and!; [apply absent; vm_compute; reflexivity|vm_compute; discriminate..].
  - repeat constructor; first [apply absent; vm_compute; reflexivity|vm_compute; discriminate].
  - vm_compute. discriminate.
  - vm_compute. discriminate.
  - vm_compute. discriminate.
  - vm_compute. discriminate.
  - vm_compute. discriminate.
Defined.
