(* ===== verification/Identity.v ===== *)
(** * Paths, tokens and similarity of knowledge documents

    [server/internal/knowledge/identity.go] and the truncation of
    [retrieval.go]: normalised paths, the tokens of a text, the similarity of two
    bodies and the locators of the identity review. The normal forms and the case
    folding of golang.org/x/text are the class [TextPackage]. *)
From stdpp Require Import pretty.
From S2P Require Import Prelude GoStd Packages.

(** ** Errors: [knowledge.Error] without its message-only causes *)
Inductive error : Type :=
| KnowledgeError (Code : string)
| ScopeError (Code : string) (** [learningspace.Error] *)
| IndexOutOfRange (** a run-time panic *).
Definition ErrorCode (err : error) : string := match err with KnowledgeError Code => Code | _ => "" end.

Definition CodeInvalidRequest : string := "invalid_request".
Definition CodePayloadTooLarge : string := "payload_too_large".
Definition CodeInvalidPath : string := "invalid_path".
Definition CodeInvalidMarkdown : string := "invalid_markdown".
Definition CodeInvalidIdentityMarker : string := "invalid_identity_marker".
Definition CodeNotFound : string := "not_found".
Definition CodeContentRedacted : string := "content_redacted".

Definition CanonicalizerVersion : string := "edu-markdown-v1".
Definition ParserVersion : string := "goldmark-v1.8.5-commonmark-0.31.2-gfm".
Definition IndexerVersion : string := "knowledge-indexer-v1".
Definition IdentityPolicyVersion : string := "identity-policy-v1".
Definition MaxPathRunes : Z := 512.
Definition MaxPathBytes : Z := 1024.
Definition MaxDocumentBytes : Z := 4 * 2 ^ 20.

(** ** Paths *)

(** [strings.Split(s, "/")] *)
Fixpoint split_string (sep : ascii) (s : string) : list string :=
  match s with
  | EmptyString => [EmptyString]
  | String b s =>
    if bool_decide (b = sep) then EmptyString :: split_string sep s
    else match split_string sep s with [] => [String b EmptyString] | x :: xs => String b x :: xs end
  end.

Definition starts_with (b : ascii) (s : string) : bool :=
  match s with String c _ => bool_decide (c = b) | EmptyString => false end.
Definition has_char (b : ascii) (s : string) : bool := existsb (fun c => bool_decide (c = b)) (String.list_ascii_of_string s).

(** [path.Clean] of a path that does not start with a slash; the kept elements
    are newest first. *)
Definition clean_element (kept : list string) (element : string) : list string :=
  if bool_decide (element = "") || bool_decide (element = ".") then kept
  else if decide (element = "..") then
    match kept with
    | [] => [".."]
    | last :: rest => if decide (last = "..") then ".." :: kept else rest
    end
  else element :: kept.
Definition path_Clean (path : string) : string :=
  let kept := rev (foldl clean_element [] (split_string "/" path)) in
  if is_nil kept then "." else join "/" kept.

(** [unicode.IsControl] *)
Definition is_control (r : Z) : bool := in_range 0 r 31 || in_range 127 r 159.

Definition invalid_segment (segment : string) : bool :=
  bool_decide (segment ∈ [""; "."; ".."]) || existsb (fun p => (p.1 =? 0) || is_control p.1) (runes segment).

Section Identity.
Context `{TextPackage} `{LetterTables}.

Definition NormalizePath (value : string) : result error string :=
  let invalid := KnowledgeError CodeInvalidPath in
  _ ← fail_if (bool_decide (value = "") || starts_with "/" value || starts_with "\" value || has_char "\" value) invalid;
  let normalized := norm_NFC value in
  _ ← fail_if ((MaxPathRunes <? rune_count normalized) || (MaxPathBytes <? str_len normalized)) invalid;
  _ ← fail_if (bool_decide (normalized = ".") || bool_decide (normalized = "..")
               || negb (bool_decide (path_Clean normalized = normalized))) invalid;
  _ ← fail_if (existsb invalid_segment (split_string "/" normalized)) invalid;
  Ok normalized.

Definition FoldPath (value : string) : string := cases_Fold (norm_NFC value).

(** ** Tokens *)
Definition isCJK (r : Z) : bool := cjk_rune r.

(** [flush] *)
Definition flush (tokens : list string) (current : list Z) : list string :=
  if is_nil current then tokens else tokens ++ [string_of_bytes current].

Fixpoint token_loop (tokens : list string) (current : list Z) (value : list (Z * list Z)) : list string :=
  match value with
  | [] => flush tokens current
  | (r, _) :: value =>
    if isCJK r then token_loop (flush tokens current ++ [string_of_bytes (encode_rune r)]) [] value
    else if letter_rune r || digit_rune r then token_loop tokens (current ++ encode_rune r) value
    else token_loop (flush tokens current) [] value
  end.

Definition identityTokens (value : string) : list string :=
  token_loop [] [] (runes (cases_Fold (norm_NFKC value))).

Definition uniqueSorted (values : list string) : list string :=
  sort_strings (elements (list_to_set values : gset string)).

(** The pairs of adjacent ideographs. *)
Fixpoint bigrams (previous : string) (base : list string) : list string :=
  match base with
  | [] => []
  | token :: base =>
    match runes token with
    | [(r, _)] =>
      if isCJK r then (if decide (previous = "") then [] else [previous +:+ token]) ++ bigrams token base
      else bigrams "" base
    | _ => bigrams "" base
    end
  end.

Definition retrievalTokens (value : string) : list string :=
  let base := identityTokens value in uniqueSorted (base ++ bigrams "" base).
End Identity.

(** ** Similarity *)

(** The windows of five tokens, or the tokens of a shorter text. *)
Definition comparisonSet (tokens : list string) : gset string :=
  if (length tokens <? 5)%nat then list_to_set tokens
  else list_to_set ((fun i => join (String (ascii_of_byte 31) "") (take 5 (drop i tokens)))
                      <$> seq 0 (length tokens - 4)).

Definition similarity (oldTokens newTokens : list string) (oldHash newHash : string) : Z :=
  if negb (bool_decide (oldHash = "")) && bool_decide (oldHash = newHash) then 1000000
  else if is_nil oldTokens || is_nil newTokens then 0
  else
    let oldSet := comparisonSet oldTokens in
    let newSet := comparisonSet newTokens in
    let union := oldSet ∪ newSet in
    if (size union =? 0)%nat then 0
    else Z.quot (1000000 * Z.of_nat (size (oldSet ∩ newSet))) (Z.of_nat (size union)).

(** ** Truncation *)

(** [utf8.RuneStart] *)
Definition rune_start (b : Z) : bool := negb (Z.land b 192 =? 128).

(** [truncateUTF8]: the longest prefix of at most [maximum] bytes that does not
    cut an encoding. *)
Fixpoint truncate_end (bytes : list Z) (stop : nat) : nat :=
  match stop with
  | O => O
  | S stop' => if from_option rune_start false (bytes !! stop) then stop else truncate_end bytes stop'
  end.
Definition truncateUTF8 (value : string) (maximum : nat) : string :=
  let bytes := bytes_of value in
  if (length bytes <=? maximum)%nat then value
  else string_of_bytes (take (truncate_end bytes maximum) bytes).

(** ** Locators of the identity review *)
Definition newline : string := String (ascii_of_byte 10) "".
Definition stableLocator (parts : list string) : string := SHA256 (join newline parts +:+ newline).
Definition documentLocator (basis documentPath : string) : string :=
  stableLocator ["document-locator-v1"; basis; documentPath].
Definition nodeLocator (basis documentPath : string) (preorder : Z) : string :=
  stableLocator ["node-locator-v1"; basis; documentPath; pretty preorder].

(** ** Properties *)
Lemma comparisonSet_nonempty tokens : tokens ≠ [] → comparisonSet tokens ≠ ∅.
Proof.
  intros Hne. unfold comparisonSet. destruct (Nat.ltb_spec (length tokens) 5).
  - destruct tokens as [|t tokens]; [done|]. set_solver.
  - destruct (length tokens - 4)%nat as [|n] eqn:Hn; [lia|]. set_solver.
Qed.

Definition same_hash (oldHash newHash : string) : bool :=
  negb (bool_decide (oldHash = "")) && bool_decide (oldHash = newHash).

Lemma same_hash_spec a b : same_hash a b = true ↔ a = b ∧ a ≠ "".
Proof. unfold same_hash. rewrite andb_true_iff, negb_true_iff, bool_decide_eq_false, bool_decide_eq_true. tauto. Qed.

Lemma same_hash_comm a b : same_hash a b = same_hash b a.
Proof. apply Bool.eq_iff_eq_true. rewrite !same_hash_spec. naive_solver. Qed.

Definition jaccard (A B : gset string) : Z := Z.quot (1000000 * Z.of_nat (size (A ∩ B))) (Z.of_nat (size (A ∪ B))).

Lemma jaccard_comm A B : jaccard A B = jaccard B A.
Proof. unfold jaccard. by rewrite (comm_L (∩) A B), (comm_L (∪) A B). Qed.

Lemma jaccard_bounds A B : A ≠ ∅ → 0 <= jaccard A B <= 1000000 ∧ (jaccard A B = 1000000 ↔ A = B).
Proof.
  intros HA. unfold jaccard. assert (size (A ∪ B) ≠ 0%nat) by (intros ?%size_empty_inv; set_solver).
  assert (size (A ∩ B) <= size (A ∪ B))%nat by (apply subseteq_size; set_solver).
  rewrite Z.quot_div_nonneg by lia. split; [split|split].
  - apply Z.div_pos; lia.
  - apply Z.div_le_upper_bound; lia.
  - intros Hv. assert (size (A ∪ B) <= size (A ∩ B))%nat.
    { pose proof (Z.mul_div_le (1000000 * Z.of_nat (size (A ∩ B))) (Z.of_nat (size (A ∪ B)))) as Hle. rewrite Hv in Hle. lia. }
    assert (A ∩ B = A ∪ B) as Heq by (apply set_subseteq_size_eq; [set_solver | lia]). set_solver.
  - intros <-. rewrite (idemp_L (∩)), (idemp_L (∪)). rewrite (idemp_L (∪)) in *. apply Z.div_mul. lia.
Qed.

Lemma similarity_cases oldTokens newTokens oldHash newHash :
  similarity oldTokens newTokens oldHash newHash =
  if same_hash oldHash newHash then 1000000
  else if is_nil oldTokens || is_nil newTokens then 0 else jaccard (comparisonSet oldTokens) (comparisonSet newTokens).
Proof.
  unfold similarity. fold (same_hash oldHash newHash). destruct (same_hash _ _); [done|].
  destruct (is_nil oldTokens) eqn:Ho; [done|]. apply is_nil_false in Ho. cbn [orb]. destruct (is_nil newTokens); [done|].
  cbv zeta. assert (size (comparisonSet oldTokens ∪ comparisonSet newTokens) ≠ 0%nat) as Hsz.
  { apply comparisonSet_nonempty in Ho. intros ?%size_empty_inv. set_solver. }
  by rewrite (proj2 (Nat.eqb_neq _ _) Hsz).
Qed.

(** Similarity is a Jaccard index in millionths: between zero and a million,
    symmetric, and a million exactly for equal non-empty hashes or for two texts
    with tokens and the same set of windows. *)
Theorem similarity_index (oldTokens newTokens : list string) (oldHash newHash : string) :
  0 <= similarity oldTokens newTokens oldHash newHash <= 1000000
  ∧ similarity oldTokens newTokens oldHash newHash = similarity newTokens oldTokens newHash oldHash
  ∧ (similarity oldTokens newTokens oldHash newHash = 1000000 ↔
     (oldHash = newHash ∧ oldHash ≠ "")
     ∨ (oldTokens ≠ [] ∧ newTokens ≠ [] ∧ comparisonSet oldTokens = comparisonSet newTokens)).
Proof.
  rewrite !similarity_cases, (same_hash_comm newHash oldHash), (orb_comm (is_nil newTokens)), (jaccard_comm (comparisonSet newTokens)).
  destruct (same_hash oldHash newHash) eqn:Hh.
  { apply same_hash_spec in Hh. split_and!; [lia|lia|done|tauto]. }
  assert (¬ (oldHash = newHash ∧ oldHash ≠ "")) as Hno by (rewrite <- same_hash_spec; congruence).
  destruct (is_nil oldTokens || is_nil newTokens) eqn:Hnil.
  { apply orb_true_iff in Hnil. rewrite !is_nil_true in Hnil. split_and!; [lia|lia|done|naive_solver]. }
  apply orb_false_iff in Hnil as [Ho Hn]. apply is_nil_false in Ho, Hn.
  destruct (jaccard_bounds (comparisonSet oldTokens) (comparisonSet newTokens) (comparisonSet_nonempty _ Ho)) as [Hb Heq].
  rewrite Heq. tauto.
Qed.

Lemma split_string_cons sep s : ∃ x xs, split_string sep s = x :: xs.
Proof.
  destruct s as [|b s]; cbn [split_string]; [by eexists _, _|]. case_bool_decide; [by eexists _, _|].
  destruct (split_string sep s); by eexists _, _.
Qed.

Lemma join_split_string sep s : join (String sep "") (split_string sep s) = s.
Proof.
  induction s as [|b s IH]; [done|]. cbn [split_string].
  destruct (split_string_cons sep s) as (x & xs & Hs). rewrite Hs in *. rewrite <- IH.
  case_bool_decide as Hb; [by subst b|]. by destruct xs.
Qed.

(** A normalised path stays below its root: it is the normal form of the
    value, within the length limits, clean, and made of segments that are neither
    empty nor dots and hold no control character. *)
Theorem NormalizePath_safe `{TextPackage} value path :
  NormalizePath value = Ok path →
  path = norm_NFC value ∧ rune_count path <= MaxPathRunes ∧ str_len path <= MaxPathBytes ∧ path_Clean path = path
  ∧ join "/" (split_string "/" path) = path
  ∧ ∀ segment, segment ∈ split_string "/" path →
      segment ∉ [""; "."; ".."] ∧ ∀ rune, rune ∈ runes segment → rune.1 ≠ 0 ∧ is_control rune.1 = false.
Proof.
  unfold NormalizePath. cbv zeta. rewrite !guard_Ok. intros (_ & Hlen & Hclean & Hsegments & [= <-]). bool_prop.
  split_and!; [done..|by apply join_split_string|]. intros segment Hin.
  assert (invalid_segment segment = false) as Hs.
  { destruct (invalid_segment segment) eqn:Hbad; [|done]. rewrite <- Hsegments. symmetry. apply existsb_exists.
    exists segment. by rewrite <- list_elem_of_In. }
  unfold invalid_segment in Hs. apply orb_false_iff in Hs as [Hdots Hs]. split; [by apply bool_decide_eq_false in Hdots|].
  intros rune Hr. destruct ((rune.1 =? 0) || is_control rune.1) eqn:Hbad.
  - exfalso. apply not_true_iff_false in Hs. apply Hs, existsb_exists. exists rune. by rewrite <- list_elem_of_In.
  - apply orb_false_iff in Hbad as [?%Z.eqb_neq ?]. done.
Qed.

#[local] Instance sample_text : TextPackage := {| norm_NFC := id; norm_NFKC := id; cases_Fold := id |}.

Lemma NormalizePath_safe_witness : path_Clean "notes/algebra.md" = "notes/algebra.md".
Proof.
  destruct (NormalizePath_safe "notes/algebra.md" "notes/algebra.md") as (_ & _ & _ & Hc & _); [vm_compute; reflexivity|].
  exact Hc.
Defined.
