(* ===== verification/Canonical.v ===== *)
(** * Canonical knowledge documents

    [server/internal/knowledge/canonical.go]: the identity envelope of a Markdown
    document (front matter and node markers), its headings, and the tree of nodes
    the index derives from them. The Markdown parser (goldmark) and the YAML parser
    are third-party packages: the class [Goldmark] gives the top-level blocks of a
    text and the text pieces in the order of [ast.Walk], the class [YAML] the
    mapping at the top of the front matter. *)
From S2P Require Import Prelude GoStd Packages Bytes Json Identity.

(** ** The packages *)

(** A line is the segment of the source from [Start] to [Stop]. *)
Inductive Block : Type :=
| Heading (Level : nat) (Lines : list (nat * nat)) (Text : string)
| HTMLBlock (Text : string) (Lines : list (nat * nat)) (ClosureStop : option nat)
| OtherBlock.

(** The nodes [visibleMarkdown] writes, with their value. *)
Inductive Piece : Type :=
| TextPiece (Value : bytes)
| StringPiece (Value : bytes)
| CodeBlockPiece (Value : bytes)
| FencedCodeBlockPiece (Value : bytes)
| OtherPiece.

Class Goldmark := {
  goldmark_blocks : bytes → list Block;
  goldmark_walk : bytes → list Piece;
}.

Inductive YamlKind : Type := MappingNode | ScalarNode | OtherNode.
#[export] Instance YamlKind_eq_dec : EqDecision YamlKind.
Proof. solve_decision. Defined.

Record YamlNode := mkYamlNode {
  yaml_Kind : YamlKind;
  yaml_Folded : bool; (** literal or folded style *)
  yaml_Line : Z;
  yaml_Value : string;
}.
Record YamlRoot := mkYamlRoot {
  root_Kind : YamlKind;
  root_Flow : bool;
  root_Content : list YamlNode;
}.
(** [yaml.Unmarshal] into a node: an error, or its first content if it has one. *)
Class YAML := yaml_Unmarshal : bytes → option (option YamlRoot).

(** ** Data *)
Record SourceRange := mkSourceRange {
  SourceRange_Start : nat;
  SourceRange_End : nat;
  SourceRange_StartLine : nat;
  SourceRange_EndLine : nat;
}.

Record NodeRevision := mkNodeRevision {
  NodeRevision_ID : string;
  NodeRevision_NodeID : string;
  NodeRevision_DocumentRevisionID : string;
  NodeRevision_ParentNodeRevisionID : option string;
  NodeRevision_SiblingIndex : nat;
  NodeRevision_HeadingLevel : nat;
  NodeRevision_Title : string;
  NodeRevision_AncestorTitles : list string;
  NodeRevision_HeadingRange : SourceRange;
  NodeRevision_LocalBodyRange : SourceRange;
  NodeRevision_SectionRange : SourceRange;
  NodeRevision_SemanticLocalBodyHash : string;
  NodeRevision_Children : list string;
}.

Record DocumentRevision := mkDocumentRevision {
  DocumentRevision_ID : string;
  DocumentRevision_DocumentID : string;
  DocumentRevision_RootNodeID : string;
  DocumentRevision_CanonicalHash : string;
  DocumentRevision_SemanticHash : string;
  DocumentRevision_CanonicalMarkdown : bytes;
  DocumentRevision_Nodes : list NodeRevision;
}.

Record DraftNode := mkDraftNode {
  DraftNode_Preorder : nat;
  DraftNode_Level : nat;
  DraftNode_Title : string;
  DraftNode_AncestorTitles : list string;
  DraftNode_ExplicitNodeID : string;
  DraftNode_SemanticLocalBodyHash : string;
  DraftNode_VisibleTokens : list string;
}.

Record InspectedDocument := mkInspectedDocument {
  Inspected_Normalized : bytes;
  Inspected_Body : bytes;
  Inspected_UserFrontMatter : bytes;
  Inspected_UserFrontMatterFlow : bool;
  Inspected_ExplicitDocumentID : string;
  Inspected_ExplicitRootNodeID : string;
  Inspected_ExplicitSourceRevisionID : string;
  Inspected_SemanticHash : string;
  Inspected_DraftNodes : list DraftNode;
}.

Record frontMatter := mkFrontMatter {
  front_user : bytes;
  front_flow : bool;
  front_documentID : string;
  front_rootNodeID : string;
  front_sourceRevisionID : string;
}.
Definition no_front_matter : frontMatter := mkFrontMatter [] false "" "" "".

Record headingBlock := mkHeadingBlock {
  heading_start : nat;
  heading_end : nat;
  heading_level : nat;
  heading_title : string;
}.

Definition documentRevisionNamespace : string := "d750d9c6-6ff8-5f43-8ebf-820335c8c4bd".
Definition nodeRevisionNamespace : string := "09cfa07d-0b25-5c53-a4d6-d4e31c64c79c".

Definition invalid_markdown : error := KnowledgeError CodeInvalidMarkdown.
Definition invalid_marker : error := KnowledgeError CodeInvalidIdentityMarker.

(** ** Positions *)
Definition lineStart (source : bytes) (position : nat) : nat :=
  match last_index_byte LF (take position source) with Some i => S i | None => O end.

Definition lineEnd (source : bytes) (position : nat) : nat :=
  let position := Nat.min position (length source) in
  match index_byte LF (drop position source) with Some i => position + i + 1 | None => length source end.

Definition physicalLineEnd (source : bytes) (position : nat) : nat :=
  if (0 <? position)%nat && bool_decide (source !! (position - 1)%nat = Some LF) then position
  else lineEnd source position.

Definition count_lines (text : bytes) : nat := length (filter (fun b => b = LF) text).

Definition rangeFor (source : bytes) (start stop : nat) : SourceRange :=
  let stop := Nat.min (Nat.max start stop) (length source) in
  let stop' := if (start <? stop)%nat && bool_decide (source !! (stop - 1)%nat = Some LF) then (stop - 1)%nat else stop in
  mkSourceRange start stop (1 + count_lines (take start source)) (1 + count_lines (take stop' source)).

(** [source[i:j]], which panics outside of the source. *)
Definition checked_slice (source : bytes) (i j : nat) : result error bytes :=
  _ ← fail_if ((j <? i)%nat || (length source <? j)%nat) IndexOutOfRange; Ok (slice source i j).

(** ** Normalisation *)
Definition BOM : bytes := ascii_of_byte <$> [239; 187; 191].

Definition normalizeMarkdown (markdown : bytes) : result error bytes :=
  _ ← fail_if (negb (valid_utf8 (str markdown)) || bool_decide (zero ∈ markdown)) invalid_markdown;
  _ ← fail_if (MaxDocumentBytes <? Z.of_nat (length markdown)) (KnowledgeError CodePayloadTooLarge);
  let value := match cut_prefix BOM markdown with Some rest => rest | None => markdown end in
  Ok ((fun b => if bool_decide (b = CR) then LF else b) <$> replace_crlf value).

(** ** Front matter *)

(** The positions of the line that closes the front matter, from [offset]. *)
Fixpoint closing_line (fuel : nat) (markdown : bytes) (offset : nat) : option (nat * nat) :=
  match fuel with
  | O => None
  | S fuel =>
    if (length markdown <? offset)%nat then None
    else
      let stop := match index_byte LF (drop offset markdown) with Some i => (offset + i + 1)%nat | None => length markdown end in
      let trimmed := trim_bytes (slice markdown offset stop) in
      if bool_decide (trimmed = to_bytes "---") || bool_decide (trimmed = to_bytes "...") then Some (offset, stop)
      else if (stop =? length markdown)%nat then None
      else closing_line fuel markdown stop
  end.

Definition blank_byte (b : ascii) : bool := bool_decide (byte_of b ∈ [32; 9; 10; 13]).

(** The scan of a flow mapping: [previous] is the byte before [rest], [current]
    the pair since the last separator. *)
Fixpoint flow_pairs (previous : option ascii) (current : bytes) (depth : nat) (quoted : option ascii) (comment : bool)
    (pairs : list bytes) (rest : bytes) : option (list bytes) :=
  match rest with
  | [] =>
    if bool_decide (is_Some quoted) || negb (depth =? 0)%nat then None
    else Some (if is_nil (trim_bytes current) then pairs else pairs ++ [current])
  | ch :: rest =>
    let next := Some ch in
    let more := current ++ [ch] in
    if comment then
      flow_pairs next more depth quoted (negb (bool_decide (ch = LF) || bool_decide (ch = CR))) pairs rest
    else
      match quoted with
      | Some q =>
        if decide (byte_of q = 39) then
          if decide (byte_of ch = 39) then
            match rest with
            | c :: rest' =>
              if decide (byte_of c = 39) then flow_pairs (Some c) (more ++ [c]) depth quoted false pairs rest'
              else flow_pairs next more depth None false pairs rest
            | [] => flow_pairs next more depth None false pairs rest
            end
          else flow_pairs next more depth quoted false pairs rest
        else if decide (byte_of ch = 92) then
          match rest with
          | c :: rest' => flow_pairs (Some c) (more ++ [c]) depth quoted false pairs rest'
          | [] => flow_pairs next more depth quoted false pairs rest
          end
        else if decide (byte_of ch = 34) then flow_pairs next more depth None false pairs rest
        else flow_pairs next more depth quoted false pairs rest
      | None =>
        match byte_of ch with
        | 39 | 34 => flow_pairs next more depth (Some ch) false pairs rest
        | 35 =>
          flow_pairs next more depth None
            (match previous with None => true | Some p => bool_decide (byte_of p ∈ [32; 9]) end) pairs rest
        | 91 | 123 => flow_pairs next more (S depth) None false pairs rest
        | 93 | 125 =>
          match depth with O => None | S depth => flow_pairs next more depth None false pairs rest end
        | 44 =>
          match depth with
          | O => if is_nil (trim_bytes current) then None
                 else flow_pairs next [] O None false (pairs ++ [current]) rest
          | S _ => flow_pairs next more depth None false pairs rest
          end
        | _ => flow_pairs next more depth None false pairs rest
        end
      end
  end.

(** The mapping between its braces. *)
Definition flow_inner (source : bytes) : option bytes :=
  let drop_blanks := fix drop_blanks (l : bytes) :=
    match l with b :: l' => if blank_byte b then drop_blanks l' else l | [] => [] end in
  match drop_blanks source with
  | open :: rest =>
    match drop_blanks (rev rest) with
    | close :: inner =>
      if bool_decide (byte_of open = 123) && bool_decide (byte_of close = 125) then Some (rev inner) else None
    | [] => None
    end
  | [] => None
  end.

Definition splitFlowMappingPairs (source : bytes) : option (list bytes) :=
  inner ← flow_inner source;
  if is_nil (trim_bytes inner) then Some [] else flow_pairs None [] 0 None false [] inner.

Definition isReservedFrontMatterKey (value : string) : bool :=
  bool_decide (value ∈ ["edu-agent-format"; "edu-agent-document-id"; "edu-agent-root-node-id";
                        "edu-agent-source-revision-id"]).

(** [strconv.Atoi]: an optional sign and decimal digits of a 64-bit integer. *)
Definition Atoi (s : string) : option Z :=
  let l := bytes_of s in
  let '(sign, l) := match l with 43 :: l => (1, l) | 45 :: l => (-1, l) | _ => (1, l) end in
  if is_nil l || negb (forallb digit l) then None
  else
    let n := sign * foldl (fun n b => n * 10 + (b - 48)) 0 l in
    if in_int64 n then Some n else None.

Fixpoint node_pairs (l : list YamlNode) : list (YamlNode * YamlNode) :=
  match l with
  | key :: value :: l => (key, value) :: node_pairs l
  | _ => []
  end.

Section Canonicalizer.
Context `{UUIDPackage} `{UUIDHash} `{UnicodeTables} `{TextPackage} `{LetterTables} `{Goldmark} `{YAML}.

Definition validUUID (value : string) : bool :=
  match uuid_Parse value with Some parsed => bool_decide (parsed = to_lower value) | None => false end.

Definition sha256Hex (value : bytes) : string := SHA256 (str value).

(** One key of the mapping: the identities it sets, and the reserved lines to
    remove from a block mapping. *)
Record front_scan := mkFrontScan {
  scan_front : frontMatter;
  scan_seen : gset string;
  scan_remove : gset Z;
}.

Definition set_identity (key value : string) (f : frontMatter) : result error frontMatter :=
  let user := front_user f in
  let flow := front_flow f in
  let identity f := _ ← fail_if (negb (validUUID value)) invalid_markdown; Ok f in
  if decide (key = "edu-agent-format") then
    _ ← fail_if (negb (bool_decide (Atoi value = Some 1))) invalid_markdown; Ok f
  else if decide (key = "edu-agent-document-id") then
    identity (mkFrontMatter user flow (to_lower value) (front_rootNodeID f) (front_sourceRevisionID f))
  else if decide (key = "edu-agent-root-node-id") then
    identity (mkFrontMatter user flow (front_documentID f) (to_lower value) (front_sourceRevisionID f))
  else if decide (key = "edu-agent-source-revision-id") then
    identity (mkFrontMatter user flow (front_documentID f) (front_rootNodeID f) (to_lower value))
  else Ok f.

Definition scan_key (flow : bool) (st : front_scan) (entry : YamlNode * YamlNode) : result error front_scan :=
  let '(key, value) := entry in
  _ ← fail_if (negb (bool_decide (yaml_Kind key = ScalarNode))) invalid_markdown;
  _ ← fail_if (bool_decide (yaml_Value key ∈ scan_seen st)) invalid_markdown;
  let reserved := isReservedFrontMatterKey (yaml_Value key) in
  _ ← fail_if (reserved && (negb (bool_decide (yaml_Kind value = ScalarNode)) || yaml_Folded value
                            || negb (yaml_Line key =? yaml_Line value))) invalid_markdown;
  front ← set_identity (yaml_Value key) (yaml_Value value) (scan_front st);
  Ok (mkFrontScan front ({[yaml_Value key]} ∪ scan_seen st)
        (if reserved && negb flow then {[yaml_Line key]} ∪ scan_remove st else scan_remove st)).

(** The pairs that are not reserved, joined again. *)
Definition user_flow (entries : list (YamlNode * YamlNode)) (pairs : list bytes) : bytes :=
  to_bytes (join "," (str <$> ((filter (fun e => isReservedFrontMatterKey (yaml_Value e.1.1) = false) (zip entries pairs)).*2))).

(** The lines that are not removed; lines are counted from one. *)
Definition user_lines (remove : gset Z) (yaml : bytes) : bytes :=
  concat (imap (fun i line => if decide (Z.of_nat i + 1 ∈ remove) then [] else line) (split_after yaml)).

Definition scan_mapping (root : YamlRoot) (yaml : bytes) : result error frontMatter :=
  _ ← fail_if (negb (bool_decide (root_Kind root = MappingNode))) invalid_markdown;
  let entries := node_pairs (root_Content root) in
  let flow := root_Flow root in
  pairs ← (if flow then
             match splitFlowMappingPairs yaml with
             | Some pairs => _ ← fail_if (negb (length pairs =? length (root_Content root) / 2)%nat) invalid_markdown; Ok pairs
             | None => Err invalid_markdown
             end
           else Ok []);
  st ← fold_result (scan_key flow) (mkFrontScan no_front_matter ∅ ∅) entries;
  let f := scan_front st in
  Ok (mkFrontMatter (if flow then user_flow entries pairs else user_lines (scan_remove st) yaml) flow
        (front_documentID f) (front_rootNodeID f) (front_sourceRevisionID f)).

Definition parseFrontMatter (markdown : bytes) : result error (frontMatter * bytes) :=
  if negb (has_prefix (to_bytes "---" ++ [LF]) markdown) then Ok (no_front_matter, markdown)
  else
    match closing_line (length markdown) markdown 4 with
    | None => Err invalid_markdown
    | Some (closingStart, closingEnd) =>
      let yaml := slice markdown 4 closingStart in
      front ← match yaml_Unmarshal yaml with
              | None => Err invalid_markdown
              | Some None => Ok (mkFrontMatter (user_lines ∅ yaml) false "" "" "")
              | Some (Some root) => scan_mapping root yaml
              end;
      Ok (front, drop closingEnd markdown)
    end.

Definition newline_bytes : bytes := [LF].
Definition line_of (parts : list string) : bytes := to_bytes (join "" parts) ++ newline_bytes.

Definition writeIdentityFrontMatter (documentID rootNodeID sourceRevisionID : string) (user : bytes) (flow : bool) : bytes :=
  line_of ["---"]
  ++ (if flow then
        to_bytes ("{edu-agent-format: 1, edu-agent-document-id: " +:+ documentID +:+ ", edu-agent-root-node-id: " +:+ rootNodeID)
        ++ (if decide (sourceRevisionID = "") then [] else to_bytes (", edu-agent-source-revision-id: " +:+ sourceRevisionID))
        ++ (if is_nil (trim_bytes user) then [] else to_bytes "," ++ user)
        ++ line_of ["}"] ++ line_of ["---"]
      else
        line_of ["edu-agent-format: 1"] ++ line_of ["edu-agent-document-id: "; documentID]
        ++ line_of ["edu-agent-root-node-id: "; rootNodeID]
        ++ (if decide (sourceRevisionID = "") then [] else line_of ["edu-agent-source-revision-id: "; sourceRevisionID])
        ++ (if is_nil user then [] else user ++ (if ends_with LF user then [] else newline_bytes))
        ++ line_of ["---"]).

(** ** Headings *)

(** [setextPattern]: at most three blanks, a run of one underline character,
    blanks, and the end of the line or of the text. *)
Definition setext_line (line : bytes) : bool :=
  let blanks := [ascii_of_byte 32; ascii_of_byte 9] in
  let rest := trim_left blanks line in
  (length line - length rest <=? 3)%nat
  && match rest with
     | c :: _ =>
       bool_decide (byte_of c ∈ [61; 45])
       && match trim_left blanks (trim_left [c] rest) with
          | [] => true
          | b :: _ => bool_decide (b = LF)
          end
     | [] => false
     end.

(** The source range of a heading with lines, with the underline of a setext
    heading. *)
Definition heading_range (source : bytes) (lines : list (nat * nat)) : result error (nat * nat) :=
  match lines, last lines with
  | first :: _, Some final =>
    let start := lineStart source first.1 in
    let stop := lineEnd source final.2 in
    line ← checked_slice source start stop;
    let atx := match trim_left [ascii_of_byte 32; ascii_of_byte 9] line with c :: _ => bool_decide (byte_of c = 35) | [] => false end in
    let nextEnd := lineEnd source stop in
    Ok (start, if negb atx && (stop <? nextEnd)%nat && setext_line (slice source stop nextEnd) then nextEnd else stop)
  | _, _ => Err IndexOutOfRange
  end.

Definition add_heading (source : bytes) (acc : list headingBlock) (block : Block) : result error (list headingBlock) :=
  match block with
  | Heading level lines text =>
    if is_nil lines then Ok acc
    else
      '(start, stop) ← heading_range source lines;
      Ok (acc ++ [mkHeadingBlock start stop level (trim_space text)])
  | _ => Ok acc
  end.

Definition headingBlocks (source : bytes) : result error (list headingBlock) :=
  fold_result (add_heading source) [] (goldmark_blocks source).

(** ** Identity markers *)

(** The submatch of [markerPattern] in a whole text. *)
Definition marker_payload (raw : bytes) : option bytes :=
  payload ← cut_prefix (to_bytes "<!-- edu-agent-node:v1 ") raw;
  payload ← cut_prefix (rev (to_bytes " -->")) (rev payload);
  let payload := rev payload in
  match payload, last payload with
  | open :: _ :: _, Some close =>
    if bool_decide (byte_of open = 123) && bool_decide (byte_of close = 125) && negb (bool_decide (LF ∈ payload))
    then Some payload else None
  | _, _ => None
  end.

(** The only object that passes has the one key [id] with a string. *)
Definition parse_marker_id (payload : list Z) : option string :=
  match skip_space payload with
  | 123 :: l =>
    match skip_space l with
    | 34 :: l =>
      '(key, l) ← json_unquote l;
      if decide (key = "id") then
        match skip_space l with
        | 58 :: l =>
          match skip_space l with
          | 34 :: l =>
            '(id, l) ← json_unquote l;
            match skip_space l with
            | 125 :: l => if is_nil (skip_space l) then Some id else None
            | _ => None
            end
          | _ => None
          end
        | _ => None
        end
      else None
    | _ => None
    end
  | _ => None
  end.

Definition parseMarkerPayload (payload : bytes) : option string :=
  id ← parse_marker_id (bytes_of (str payload));
  if validUUID id then Some (to_lower id) else None.

Definition block_start (source : bytes) (lines : list (nat * nat)) : result error nat :=
  match lines with first :: _ => Ok (lineStart source first.1) | [] => Err IndexOutOfRange end.

Definition block_end (source : bytes) (lines : list (nat * nat)) (closure : option nat) : result error nat :=
  match last lines with
  | Some final => Ok (physicalLineEnd source (default final.2 closure))
  | None => Err IndexOutOfRange
  end.

Definition is_heading (b : option Block) : bool := match b with Some (Heading _ _ _) => true | _ => false end.

Record marker_scan := mkMarkerScan {
  markers_ordinal : nat;
  markers_explicit : gmap nat string;
  markers_seen : gset string;
  markers_removals : list (nat * nat);
}.

(** One block, with its next sibling. *)
Definition strip_block (source : bytes) (st : marker_scan) (block : Block * option Block) : result error marker_scan :=
  let '(block, next) := block in
  match block with
  | Heading _ _ _ =>
    Ok (mkMarkerScan (S (markers_ordinal st)) (markers_explicit st) (markers_seen st) (markers_removals st))
  | HTMLBlock text lines closure =>
    let raw := trim_bytes (to_bytes text) in
    if negb (contains_bytes (to_bytes "edu-agent-node:") raw) then Ok st
    else
      match marker_payload raw with
      | None => Err invalid_marker
      | Some payload =>
        match parseMarkerPayload payload with
        | None => Err invalid_marker
        | Some id =>
          let id := to_lower id in
          _ ← fail_if (negb (is_heading next) || bool_decide (is_Some (markers_explicit st !! markers_ordinal st))
                       || bool_decide (id ∈ markers_seen st)) invalid_marker;
          start ← block_start source lines;
          stop ← block_end source lines closure;
          Ok (mkMarkerScan (markers_ordinal st) (<[markers_ordinal st := id]> (markers_explicit st))
                ({[id]} ∪ markers_seen st) (markers_removals st ++ [(start, stop)]))
        end
      end
  | OtherBlock => Ok st
  end.

Fixpoint with_next (blocks : list Block) : list (Block * option Block) :=
  match blocks with
  | [] => []
  | b :: blocks => (b, head blocks) :: with_next blocks
  end.

Definition remove_range (clean : bytes) (range : nat * nat) : bytes := take range.1 clean ++ drop range.2 clean.

Definition stripIdentityMarkers (source : bytes) : result error (bytes * gmap nat string) :=
  st ← fold_result (strip_block source) (mkMarkerScan 0 ∅ ∅ []) (with_next (goldmark_blocks source));
  let removals := sort_by (fun a b => (b.1 <? a.1)%nat) (markers_removals st) in
  Ok (foldl remove_range source removals, markers_explicit st).

(** ** Drafts *)
Definition write_piece (p : Piece) : bytes :=
  match p with
  | TextPiece v | StringPiece v | CodeBlockPiece v | FencedCodeBlockPiece v => v ++ [ascii_of_byte 32]
  | OtherPiece => []
  end.
Definition visibleMarkdown (source : bytes) : bytes := trim_bytes (goldmark_walk source ≫= write_piece).

(** The headings that stay open for a heading of some level, innermost first. *)
Fixpoint pop_titles (level : nat) (stack : list (nat * string)) : list (nat * string) :=
  match stack with
  | (l, t) :: rest => if (level <=? l)%nat then pop_titles level rest else stack
  | [] => []
  end.

Fixpoint populate_drafts (i : nat) (explicit : gmap nat string) (source : bytes) (stack : list (nat * string))
    (headings : list headingBlock) : result error (list DraftNode) :=
  match headings with
  | [] => Ok []
  | h :: headings =>
    let stack := pop_titles (heading_level h) stack in
    let stop := match headings with next :: _ => heading_start next | [] => length source end in
    local ← checked_slice source (heading_end h) stop;
    let visible := visibleMarkdown local in
    drafts ← populate_drafts (S i) explicit source ((heading_level h, heading_title h) :: stack) headings;
    Ok (mkDraftNode i (heading_level h) (heading_title h) (rev stack.*2) (default "" (explicit !! i))
          (sha256Hex visible) (identityTokens (str visible)) :: drafts)
  end.

(** The text whose hash is the semantic hash. *)
Definition semantic_text (front : frontMatter) (body : bytes) : bytes :=
  if is_nil (front_user front) then body else line_of ["---"] ++ front_user front ++ line_of ["---"] ++ body.

Definition Inspect (markdown : bytes) : result error InspectedDocument :=
  normalized ← normalizeMarkdown markdown;
  '(front, body) ← parseFrontMatter normalized;
  '(cleanBody, explicit) ← stripIdentityMarkers body;
  headings ← headingBlocks cleanBody;
  drafts ← populate_drafts 0 explicit cleanBody [] headings;
  Ok (mkInspectedDocument normalized cleanBody (front_user front) (front_flow front) (front_documentID front)
        (front_rootNodeID front) (front_sourceRevisionID front) (sha256Hex (semantic_text front cleanBody)) drafts).

Definition semanticHashForCanonical (canonical : bytes) : string :=
  match parseFrontMatter canonical with
  | Err _ => ""
  | Ok (front, body) =>
    match stripIdentityMarkers body with
    | Err _ => ""
    | Ok (clean, _) => sha256Hex (semantic_text front clean)
    end
  end.

(** ** The canonical document *)

(** A heading with the position and the identity of its marker. *)
Record marked := mkMarked {
  marked_start : nat;
  marked_id : string;
  marked_heading : headingBlock;
}.

(** One block; the accumulator is the marker that waits for its heading. *)
Definition mark_block (source : bytes) (st : option (nat * string) * list marked) (block : Block)
  : result error (option (nat * string) * list marked) :=
  let '(pending, found) := st in
  match block with
  | HTMLBlock text lines _ =>
    match marker_payload (trim_bytes (to_bytes text)) with
    | None => Ok st
    | Some payload =>
      match parseMarkerPayload payload with
      | None => Err invalid_marker
      | Some id => start ← block_start source lines; Ok (Some (start, id), found)
      end
    end
  | Heading level lines text =>
    match pending with
    | None => Err invalid_marker
    | Some (markerStart, id) =>
      _ ← fail_if (bool_decide (id = "")) invalid_marker;
      '(start, stop) ← heading_range source lines;
      Ok (None, found ++ [mkMarked markerStart id (mkHeadingBlock start stop level (trim_space text))])
    end
  | OtherBlock => Ok st
  end.

Definition canonicalHeadingMarkers (source : bytes) : result error (list marked) :=
  '(clean, explicit) ← stripIdentityMarkers source;
  let unchanged := (length clean =? length source)%nat in
  headings ← (if unchanged then headingBlocks source else Ok []);
  _ ← fail_if (unchanged && negb (is_nil headings)) invalid_marker;
  cleanHeadings ← headingBlocks clean;
  _ ← fail_if (negb (size explicit =? length cleanHeadings)%nat) invalid_marker;
  st ← fold_result (mark_block source) (None, []) (goldmark_blocks source);
  Ok st.2.

(** ** The index *)

(** The stack holds levels and positions of the open nodes, innermost first; the
    root at its bottom is never popped. *)
Fixpoint pop_nodes (level : nat) (stack : list (nat * nat)) : list (nat * nat) :=
  match stack with
  | (l, _) :: ((_ :: _) as rest) => if (level <=? l)%nat then pop_nodes level rest else stack
  | _ => stack
  end.

Definition add_child (id : string) (n : NodeRevision) : NodeRevision :=
  mkNodeRevision (NodeRevision_ID n) (NodeRevision_NodeID n) (NodeRevision_DocumentRevisionID n)
    (NodeRevision_ParentNodeRevisionID n) (NodeRevision_SiblingIndex n) (NodeRevision_HeadingLevel n)
    (NodeRevision_Title n) (NodeRevision_AncestorTitles n) (NodeRevision_HeadingRange n)
    (NodeRevision_LocalBodyRange n) (NodeRevision_SectionRange n) (NodeRevision_SemanticLocalBodyHash n)
    (NodeRevision_Children n ++ [id]).

Definition no_node : NodeRevision :=
  mkNodeRevision "" "" "" None 0 0 "" [] (mkSourceRange 0 0 0 0) (mkSourceRange 0 0 0 0) (mkSourceRange 0 0 0 0) "" [].

Definition marked_level (m : marked) : nat := heading_level (marked_heading m).
Definition at_most (level : nat) (m : marked) : bool := (marked_level m <=? level)%nat.

(** Where the section of a heading ends: at the marker of the next heading of its
    level or above. *)
Definition section_end (canonical : bytes) (prefix level : nat) (later : list marked) : nat :=
  match filter (fun m => at_most level m = true) later with
  | m :: _ => prefix + marked_start m
  | [] => length canonical
  end.

Definition node_id (documentRevisionID id : string) : string :=
  uuid_NewSHA1 nodeRevisionNamespace (join newline [documentRevisionID; id; IndexerVersion]).

Record indexing := mkIndexing {
  indexing_nodes : list NodeRevision;
  indexing_stack : list (nat * nat);
  indexing_counts : gmap nat nat;
}.

Definition index_heading (canonical : bytes) (prefix : nat) (documentRevisionID : string) (st : indexing)
    (m : marked) (later : list marked) : result error indexing :=
  let h := marked_heading m in
  let nodes := indexing_nodes st in
  let stack := pop_nodes (heading_level h) (indexing_stack st) in
  let parentIndex := match stack with (_, i) :: _ => i | [] => O end in
  let sibling := default O (indexing_counts st !! parentIndex) in
  let parent := nth parentIndex nodes no_node in
  let headingEnd := (prefix + heading_end h)%nat in
  let localEnd := match later with next :: _ => (prefix + marked_start next)%nat | [] => length canonical end in
  let sectionEnd := section_end canonical prefix (heading_level h) later in
  let ancestorTitles := NodeRevision_AncestorTitles parent
                        ++ (if (NodeRevision_HeadingLevel parent =? 0)%nat then [] else [NodeRevision_Title parent]) in
  let id := node_id documentRevisionID (marked_id m) in
  local ← checked_slice canonical headingEnd localEnd;
  let node := mkNodeRevision id (marked_id m) documentRevisionID (Some (NodeRevision_ID parent)) sibling
    (heading_level h) (heading_title h) ancestorTitles
    (rangeFor canonical (prefix + heading_start h) headingEnd) (rangeFor canonical headingEnd localEnd)
    (rangeFor canonical (prefix + marked_start m) sectionEnd) (sha256Hex (visibleMarkdown local)) [] in
  Ok (mkIndexing (alter (add_child id) parentIndex (nodes ++ [node])) ((heading_level h, length nodes) :: stack)
        (<[parentIndex := S sibling]> (indexing_counts st))).

Fixpoint index_headings (canonical : bytes) (prefix : nat) (documentRevisionID : string) (st : indexing)
    (headings : list marked) : result error indexing :=
  match headings with
  | [] => Ok st
  | m :: later =>
    st ← index_heading canonical prefix documentRevisionID st m later;
    index_headings canonical prefix documentRevisionID st later
  end.

Definition root_node (canonical : bytes) (prefix firstSection : nat) (documentRevisionID rootNodeID : string) (local : bytes)
  : NodeRevision :=
  mkNodeRevision (node_id documentRevisionID rootNodeID) rootNodeID documentRevisionID None 0 0 "" []
    (rangeFor canonical prefix prefix) (rangeFor canonical prefix firstSection)
    (rangeFor canonical prefix (length canonical)) (sha256Hex (visibleMarkdown local)) [].

Definition index_nodes (canonical : bytes) (prefix : nat) (documentRevisionID rootNodeID : string)
    (headings : list marked) : result error (list NodeRevision) :=
  let firstSection := match headings with m :: _ => (prefix + marked_start m)%nat | [] => length canonical end in
  local ← checked_slice canonical prefix firstSection;
  let root := root_node canonical prefix firstSection documentRevisionID rootNodeID local in
  st ← index_headings canonical prefix documentRevisionID (mkIndexing [root] [(O, O)] ∅) headings;
  Ok (indexing_nodes st).

Definition Index (canonical : bytes) : result error DocumentRevision :=
  _ ← fail_if (negb (valid_utf8 (str canonical))) invalid_markdown;
  '(front, body) ← (match parseFrontMatter canonical with Ok x => Ok x | Err _ => Err invalid_markdown end);
  _ ← fail_if (negb (validUUID (front_documentID front)) || negb (validUUID (front_rootNodeID front))) invalid_markdown;
  let prefix := (length canonical - length body)%nat in
  headings ← canonicalHeadingMarkers body;
  let canonicalHash := sha256Hex canonical in
  let documentRevisionID :=
    uuid_NewSHA1 documentRevisionNamespace (join newline [front_documentID front; canonicalHash; ParserVersion]) in
  nodes ← index_nodes canonical prefix documentRevisionID (front_rootNodeID front) headings;
  Ok (mkDocumentRevision documentRevisionID (front_documentID front) (front_rootNodeID front) canonicalHash
        (semanticHashForCanonical canonical) canonical nodes).

(** ** Materialisation and export *)
Definition quote_mark : string := String (ascii_of_byte 34) "".
Definition marker_text (id : string) : bytes :=
  to_bytes ("<!-- edu-agent-node:v1 {" +:+ quote_mark +:+ "id" +:+ quote_mark +:+ ":" +:+ quote_mark +:+ id +:+ quote_mark +:+ "} -->")
  ++ newline_bytes.

Definition insert_marker (entry : headingBlock * string) (body : bytes) : bytes :=
  take (heading_start entry.1) body ++ marker_text entry.2 ++ drop (heading_start entry.1) body.

Definition collect_id (seen : gset string) (id : string) : result error (gset string) :=
  _ ← fail_if (negb (validUUID id) || bool_decide (id ∈ seen)) invalid_marker; Ok ({[id]} ∪ seen).

Definition Materialize (inspected : InspectedDocument) (documentID rootNodeID : string) (nodeIDs : list string)
  : result error DocumentRevision :=
  _ ← fail_if (negb (validUUID documentID) || negb (validUUID rootNodeID)
               || negb (length nodeIDs =? length (Inspected_DraftNodes inspected))%nat) (KnowledgeError CodeInvalidRequest);
  _ ← fold_result collect_id {[rootNodeID]} nodeIDs;
  let body := Inspected_Body inspected in
  headings ← headingBlocks body;
  _ ← fail_if (negb (length headings =? length nodeIDs)%nat) invalid_markdown;
  let body := foldr insert_marker body (zip headings nodeIDs) in
  Index (writeIdentityFrontMatter documentID rootNodeID "" (Inspected_UserFrontMatter inspected)
           (Inspected_UserFrontMatterFlow inspected) ++ body).

Definition ExportMarkdown (canonical : bytes) (revisionID : string) : result error bytes :=
  _ ← fail_if (negb (validUUID revisionID)) (KnowledgeError CodeInvalidRequest);
  match parseFrontMatter canonical with
  | Err _ => Err invalid_markdown
  | Ok (front, body) =>
    _ ← fail_if (bool_decide (front_documentID front = "")) invalid_markdown;
    Ok (writeIdentityFrontMatter (front_documentID front) (front_rootNodeID front) revisionID (front_user front)
          (front_flow front) ++ body)
  end.
End Canonicalizer.

(** ** The tree of a document

    The specification of the index, on the list of marked headings: nodes are
    numbered from the root (0) in the order of the text, and the parent of a
    node is the last node before it with a smaller level. *)
Section Tree.
Context (headings : list marked).

Definition level_at (k : nat) : nat :=
  match k with O => O | S i => from_option marked_level O (headings !! i) end.
Definition title_at (k : nat) : string :=
  match k with O => "" | S i => from_option (fun m => heading_title (marked_heading m)) "" (headings !! i) end.

Fixpoint parent_below (level n : nat) : nat :=
  match n with
  | O => O
  | S k => if (level_at k <? level)%nat then k else parent_below level k
  end.
Definition parent_index (k : nat) : nat := parent_below (level_at k) k.

(** The children of a node among the nodes before [n]. *)
Definition kids (p n : nat) : list nat := filter (fun k => parent_index k = p) (seq 1 (n - 1)).

(** The titles on the way from the root to the parent of a node. *)
Fixpoint path_titles (fuel k : nat) : list string :=
  match fuel, k with
  | S fuel, S _ =>
    let p := parent_index k in
    path_titles fuel p ++ (if (level_at p =? 0)%nat then [] else [title_at p])
  | _, _ => []
  end.

Lemma parent_below_lt level n : (0 < n)%nat → (parent_below level n < n)%nat.
Proof.
  induction n as [|n IH]; intros Hn; [lia|]. cbn [parent_below]. destruct (_ <? _)%nat; [lia|].
  destruct n as [|n]; [cbn; lia|]. specialize (IH ltac:(lia)). lia.
Qed.

Lemma parent_below_is level n k :
  (k < n)%nat → (∀ m, (k < m < n)%nat → (level <= level_at m)%nat) → ((level_at k < level)%nat ∨ k = O) →
  parent_below level n = k.
Proof.
  induction n as [|n IH]; intros Hk Hbetween Hlevel; [lia|]. cbn [parent_below].
  destruct (Nat.ltb_spec (level_at n) level) as [Hlt|Hge].
  - destruct (decide (k = n)) as [|Hne]; [done|]. specialize (Hbetween n ltac:(lia)). lia.
  - destruct (decide (k = n)) as [->|Hne].
    + destruct Hlevel as [? | ->]; [lia|done].
    + apply IH; [lia| |done]. intros m Hm. apply Hbetween. lia.
Qed.

(** The parent is the nearest earlier node of a smaller level, or the root. *)
Lemma parent_index_spec k :
  (0 < k)%nat →
  (parent_index k < k)%nat ∧ (parent_index k = O ∨ (level_at (parent_index k) < level_at k)%nat)
  ∧ ∀ m, (parent_index k < m < k)%nat → (level_at k <= level_at m)%nat.
Proof.
  intros Hk. unfold parent_index. split; [by apply parent_below_lt|]. generalize (level_at k) as level.
  clear Hk. intros level. induction k as [|k IH]; cbn [parent_below]; [split; [by left|lia]|].
  destruct (Nat.ltb_spec (level_at k) level) as [Hlt|Hge]; [split; [by right|lia]|].
  destruct IH as [H1 H2]. split; [done|]. intros m Hm. destruct (decide (m = k)) as [->|Hne]; [done|].
  apply H2. lia.
Qed.

Lemma path_titles_fuel fuel k : (k <= fuel)%nat → path_titles fuel k = path_titles k k.
Proof.
  revert fuel. induction k as [k IH] using lt_wf_ind. intros fuel Hk. destruct k as [|k]; [by destruct fuel|].
  destruct fuel as [|fuel]; [lia|]. cbn [path_titles].
  destruct (parent_index_spec (S k)) as [Hp _]; [lia|].
  rewrite (IH (parent_index (S k))), <- (IH (parent_index (S k)) Hp k) by lia. done.
Qed.

Lemma path_titles_step k :
  path_titles (S k) (S k) = let p := parent_index (S k) in
                            path_titles p p ++ (if (level_at p =? 0)%nat then [] else [title_at p]).
Proof.
  cbn [path_titles]. destruct (parent_index_spec (S k)) as [Hp _]; [lia|].
  by rewrite path_titles_fuel by lia.
Qed.

Lemma kids_S p n : (0 < n)%nat → kids p (S n) = kids p n ++ (if decide (parent_index n = p) then [n] else []).
Proof.
  intros Hn. unfold kids. replace (S n - 1)%nat with (S (n - 1)) by lia. rewrite seq_S, filter_app.
  replace (1 + (n - 1))%nat with n by lia. done.
Qed.

(** The stack of open nodes, innermost first: between two of them there are only
    nodes below the inner one's level. *)
Fixpoint chain (level n : nat) (stack : list (nat * nat)) : Prop :=
  match stack with
  | [] => False
  | (l, k) :: rest =>
    (k < n)%nat ∧ l = level_at k ∧ (∀ m, (k < m < n)%nat → (level <= level_at m)%nat)
    ∧ match rest with [] => k = O | _ => chain l k rest end
  end.

Lemma pop_chain level n stack :
  chain level n stack →
  chain level n (pop_nodes level stack)
  ∧ ∃ rest, pop_nodes level stack = (level_at (parent_below level n), parent_below level n) :: rest.
Proof.
  induction stack as [|[l k] rest IH]; [done|]. intros Hchain. pose proof Hchain as (Hk & Hl & Hbetween & Hrest).
  destruct rest as [|[l2 k2] rest].
  - cbn [pop_nodes]. split; [done|]. exists []. rewrite (parent_below_is level n k); [by subst l|done|done|by right].
  - cbn [pop_nodes]. destruct (Nat.leb_spec level l) as [Hle|Hgt].
    + apply IH. destruct Hrest as (Hk2 & Hl2 & Hbetween2 & Hrest2). split_and!; [lia|done| |done].
      intros m Hm. destruct (decide (m < k)%nat); [specialize (Hbetween2 m ltac:(lia)); lia|].
      destruct (decide (m = k)) as [->|]; [lia|]. apply Hbetween. lia.
    + split; [done|]. eexists. rewrite (parent_below_is level n k); [by subst l|done|done|left; lia].
Qed.
End Tree.

(** ** The index builds that tree *)
Section IndexTree.
Context `{UUIDPackage} `{UUIDHash} `{UnicodeTables} `{TextPackage} `{LetterTables} `{Goldmark} `{YAML}.
Context (canonical : bytes) (prefix : nat) (documentRevisionID rootNodeID : string) (headings : list marked).

(** The stable identity of node [k], from the front matter or the marker, and the
    identity of its revision. *)
Definition name_of (k : nat) : string :=
  match k with O => rootNodeID | S i => from_option marked_id "" (headings !! i) end.
Definition ident (k : nat) : string := node_id documentRevisionID (name_of k).

(** What the index promises of node [k] once the nodes before [n] exist. *)
Record tree_node (n k : nat) (node : NodeRevision) : Prop := {
  node_identity : NodeRevision_ID node = ident k;
  node_name : NodeRevision_NodeID node = name_of k;
  node_document : NodeRevision_DocumentRevisionID node = documentRevisionID;
  node_level : NodeRevision_HeadingLevel node = level_at headings k;
  node_title : NodeRevision_Title node = title_at headings k;
  node_parent : NodeRevision_ParentNodeRevisionID node
                = match k with O => None | S _ => Some (ident (parent_index headings k)) end;
  node_sibling : NodeRevision_SiblingIndex node
                 = match k with O => O | S _ => length (kids headings (parent_index headings k) k) end;
  node_ancestors : NodeRevision_AncestorTitles node = path_titles headings k k;
  node_children : NodeRevision_Children node = ident <$> kids headings k n;
}.

(** The ranges of the node of a heading. *)
Definition node_ranges (i : nat) (m : marked) (node : NodeRevision) : Prop :=
  let h := marked_heading m in
  let later := drop (S i) headings in
  let next := match later with m' :: _ => (prefix + marked_start m')%nat | [] => length canonical end in
  NodeRevision_HeadingRange node = rangeFor canonical (prefix + heading_start h) (prefix + heading_end h)
  ∧ NodeRevision_LocalBodyRange node = rangeFor canonical (prefix + heading_end h) next
  ∧ NodeRevision_SectionRange node
    = rangeFor canonical (prefix + marked_start m) (section_end canonical prefix (marked_level m) later)
  ∧ NodeRevision_SemanticLocalBodyHash node
    = sha256Hex (visibleMarkdown (slice canonical (prefix + heading_end h) next))
  ∧ (prefix + heading_end h <= next <= length canonical)%nat.

(** The ranges of the root: no heading, the text before the first marker, and the
    whole body. *)
Definition root_ranges (node : NodeRevision) : Prop :=
  let first := match headings with m :: _ => (prefix + marked_start m)%nat | [] => length canonical end in
  NodeRevision_HeadingRange node = rangeFor canonical prefix prefix
  ∧ NodeRevision_LocalBodyRange node = rangeFor canonical prefix first
  ∧ NodeRevision_SectionRange node = rangeFor canonical prefix (length canonical)
  ∧ NodeRevision_SemanticLocalBodyHash node = sha256Hex (visibleMarkdown (slice canonical prefix first))
  ∧ (prefix <= first <= length canonical)%nat.

Record indexed (n : nat) (st : indexing) : Prop := {
  indexed_length : length (indexing_nodes st) = n;
  indexed_chain : ∀ level, chain headings level n (indexing_stack st);
  indexed_counts : ∀ p, default O (indexing_counts st !! p) = length (kids headings p n);
  indexed_nodes : ∀ k node, indexing_nodes st !! k = Some node → tree_node n k node;
  indexed_ranges : ∀ i m node, headings !! i = Some m → indexing_nodes st !! S i = Some node → node_ranges i m node;
  indexed_root : ∀ node, indexing_nodes st !! O = Some node → root_ranges node;
}.

Lemma tree_node_child n k node p :
  (0 < n)%nat → parent_index headings n = p → tree_node n k node →
  tree_node (S n) k (if decide (k = p) then add_child (ident n) node else node).
Proof.
  intros Hn Hp [F1 F2 F3 F4 F5 F6 F7 F8 F9]. case_decide as Hk.
  - constructor; try done. cbn [add_child NodeRevision_Children]. rewrite F9, kids_S, decide_True by (congruence || done). by rewrite fmap_app.
  - constructor; try done. rewrite F9, kids_S, decide_False by (congruence || done). by rewrite app_nil_r.
Qed.

Lemma kids_past k n : (n <= S k)%nat → kids headings k n = [].
Proof.
  intros Hn. destruct (kids headings k n) as [|j rest] eqn:Hk; [done|].
  assert (j ∈ kids headings k n) as Hj by (rewrite Hk; apply list_elem_of_here).
  apply list_elem_of_filter in Hj as [Hp Hj]. apply elem_of_seq in Hj.
  destruct (parent_index_spec headings j) as [Hlt _]; lia.
Qed.

Lemma index_heading_indexed n st m later st' :
  indexed (S n) st → headings !! n = Some m → drop (S n) headings = later →
  index_heading canonical prefix documentRevisionID st m later = Ok st' → indexed (S (S n)) st'.
Proof.
  intros [Hlen Hchain Hcounts Hnodes Hranges Hroot] Hm Hlater. unfold index_heading. cbv zeta.
  assert (level_at headings (S n) = marked_level m) as Hlevel by (cbn; by rewrite Hm).
  fold (marked_level m). rewrite <- Hlevel.
  destruct (pop_chain headings (level_at headings (S n)) (S n) (indexing_stack st) (Hchain _)) as (Hpop & rest & Hstack).
  fold (parent_index headings (S n)) in Hstack. set (p := parent_index headings (S n)) in *.
  set (stack := pop_nodes _ _) in *. rewrite Hstack.
  intros Hrun. apply bind_Ok in Hrun as (local & Hlocal & [= <-]).
  apply guard_Ok in Hlocal as [Hbounds [= <-]]. apply orb_false_iff in Hbounds as [Hb1%Nat.ltb_ge Hb2%Nat.ltb_ge].
  assert (p < S n)%nat as Hp by (apply parent_index_spec; lia).
  destruct (lookup_lt_is_Some_2 (indexing_nodes st) p) as [parent Hparent]; [lia|].
  rewrite (nth_lookup_Some _ _ _ _ Hparent). pose proof (Hnodes _ _ Hparent) as Hpn.
  assert (Hnew : ∀ node, alter (add_child (ident (S n))) p (indexing_nodes st ++ [node]) !! S n = Some node).
  { intros node. rewrite list_lookup_alter_ne by lia. by rewrite <- Hlen, list_lookup_middle. }
  assert (node_id documentRevisionID (marked_id m) = ident (S n)) as Hid by (unfold ident, name_of; by rewrite Hm).
  constructor; cbn [indexing_nodes indexing_stack indexing_counts].
  - rewrite length_alter, length_app, Hlen. cbn. lia.
  - intros level. rewrite Hlen, <- Hstack. split_and!; [lia|done|lia|].
    rewrite Hstack in Hpop |- *. exact Hpop.
  - intros k. rewrite kids_S by lia. fold p. rewrite length_app. case_decide as Hpk.
    + rewrite <- Hpk, lookup_insert_eq. cbn [default from_option id length]. rewrite Hcounts. lia.
    + rewrite lookup_insert_ne by done. rewrite Hcounts. cbn [length]. lia.
  - intros k node Hk. rewrite Hid in Hk. destruct (decide (k = S n)) as [->|Hne].
    + rewrite Hnew in Hk. injection Hk as <-. constructor; cbn [NodeRevision_ID NodeRevision_NodeID NodeRevision_DocumentRevisionID
        NodeRevision_HeadingLevel NodeRevision_Title NodeRevision_ParentNodeRevisionID NodeRevision_SiblingIndex
        NodeRevision_AncestorTitles NodeRevision_Children]; try done.
      * unfold name_of. by rewrite Hm.
      * cbn. by rewrite Hm.
      * by rewrite (node_identity _ _ _ Hpn).
      * by rewrite path_titles_step, (node_ancestors _ _ _ Hpn), (node_level _ _ _ Hpn), (node_title _ _ _ Hpn).
      * by rewrite kids_past.
    + assert (k < S n)%nat as Hlt.
      { apply lookup_lt_Some in Hk. rewrite length_alter, length_app, Hlen in Hk. cbn in Hk. lia. }
      assert (∃ old, indexing_nodes st !! k = Some old ∧ node = if decide (k = p) then add_child (ident (S n)) old else old)
        as (old & Hold & ->).
      { destruct (decide (k = p)) as [->|Hkp].
        - rewrite list_lookup_alter_eq, lookup_app_l in Hk by lia. destruct (indexing_nodes st !! p) as [old|]; [|done].
          injection Hk as <-. by exists old.
        - rewrite list_lookup_alter_ne, lookup_app_l in Hk by lia. by exists node. }
      apply tree_node_child; [lia|done|]. by apply Hnodes.
  - intros i mi node Hmi Hk. rewrite Hid in Hk. destruct (decide (i = n)) as [->|Hne].
    + rewrite Hnew in Hk. injection Hk as <-. assert (mi = m) as -> by congruence.
      unfold node_ranges. cbv zeta. rewrite Hlater, <- Hlevel. done.
    + assert (i < n)%nat as Hlt.
      { apply lookup_lt_Some in Hk. rewrite length_alter, length_app, Hlen in Hk. cbn in Hk. lia. }
      destruct (decide (S i = p)) as [Heq|Hkp].
      * rewrite Heq, list_lookup_alter_eq, lookup_app_l in Hk by lia.
        destruct (indexing_nodes st !! p) as [old|] eqn:Hold; [|done]. injection Hk as <-. rewrite <- Heq in Hold.
        exact (Hranges i mi old Hmi Hold).
      * rewrite list_lookup_alter_ne, lookup_app_l in Hk by lia. exact (Hranges i mi node Hmi Hk).
  - intros node Hk. destruct (decide (O = p)) as [Heq|Hkp].
    + rewrite <- Heq, list_lookup_alter_eq, lookup_app_l in Hk by lia.
      destruct (indexing_nodes st !! O) as [old|] eqn:Hold; [|done]. injection Hk as <-. exact (Hroot old eq_refl).
    + rewrite list_lookup_alter_ne, lookup_app_l in Hk by lia. exact (Hroot node Hk).
Qed.

Lemma index_headings_indexed n st later st' :
  indexed (S n) st → drop n headings = later → (n <= length headings)%nat →
  index_headings canonical prefix documentRevisionID st later = Ok st' → indexed (S (length headings)) st'.
Proof.
  revert n st. induction later as [|m later IH]; intros n st Hst Hdrop Hn Hrun.
  - injection Hrun as <-. replace (length headings) with n; [done|].
    apply (f_equal length) in Hdrop. rewrite length_drop in Hdrop. cbn in Hdrop. lia.
  - cbn [index_headings] in Hrun. apply bind_Ok in Hrun as (st1 & Hone & Hrun).
    assert (headings !! n = Some m) as Hm by (by rewrite <- (Nat.add_0_r n), <- lookup_drop, Hdrop).
    assert (drop (S n) headings = later) as Hlater.
    { replace (S n) with (n + 1)%nat by lia. by rewrite <- drop_drop, Hdrop. }
    apply (IH (S n) st1); [by eapply index_heading_indexed|done| |done].
    apply lookup_lt_Some in Hm. lia.
Qed.
End IndexTree.

(** ** Sections *)
Section Sections.
Context `{UUIDPackage} `{UUIDHash} `{UnicodeTables} `{TextPackage} `{LetterTables} `{Goldmark} `{YAML}.
Context (canonical : bytes) (prefix : nat) (documentRevisionID rootNodeID : string) (headings : list marked).

Lemma index_nodes_root nodes :
  index_nodes canonical prefix documentRevisionID rootNodeID headings = Ok nodes →
  ∃ local first, first = match headings with m :: _ => (prefix + marked_start m)%nat | [] => length canonical end
    ∧ (prefix <= first <= length canonical)%nat
    ∧ indexed canonical prefix documentRevisionID rootNodeID headings 1
        (mkIndexing [root_node canonical prefix first documentRevisionID rootNodeID local] [(O, O)] ∅)
    ∧ ∃ st, index_headings canonical prefix documentRevisionID
              (mkIndexing [root_node canonical prefix first documentRevisionID rootNodeID local] [(O, O)] ∅) headings = Ok st
            ∧ nodes = indexing_nodes st.
Proof.
  unfold index_nodes. intros Hrun. apply bind_Ok in Hrun as (local & Hlocal & Hrun).
  apply bind_Ok in Hrun as (st & Hst & [= <-]). apply guard_Ok in Hlocal as [Hb [= <-]].
  apply orb_false_iff in Hb as [Hb1%Nat.ltb_ge Hb2%Nat.ltb_ge].
  eexists _, _. split_and!; [reflexivity|exact Hb1|exact Hb2| |by exists st].
  constructor; cbn [indexing_nodes indexing_stack indexing_counts].
  - done.
  - intros level. split_and!; [lia|done|lia|done].
  - intros p. by rewrite lookup_empty.
  - intros [|k] node Hk; [injection Hk as <-|done]. by constructor.
  - done.
  - intros node [= <-]. done.
Qed.

Lemma index_nodes_indexed nodes :
  index_nodes canonical prefix documentRevisionID rootNodeID headings = Ok nodes →
  ∃ st, nodes = indexing_nodes st ∧ indexed canonical prefix documentRevisionID rootNodeID headings (S (length headings)) st.
Proof.
  intros Hrun. destruct (index_nodes_root nodes Hrun) as (local & first & _ & _ & Hroot & st & Hst & ->).
  exists st. split; [done|]. eapply (index_headings_indexed _ _ _ _ _ 0); [exact Hroot|done|lia|exact Hst].
Qed.

(** The section of the root is the whole body. *)
Lemma index_headings_root st later st' node :
  index_headings canonical prefix documentRevisionID st later = Ok st' →
  indexing_nodes st !! O = Some node →
  ∃ node', indexing_nodes st' !! O = Some node' ∧ NodeRevision_SectionRange node' = NodeRevision_SectionRange node.
Proof.
  revert st node. induction later as [|m later IH]; intros st node Hrun Hnode; [injection Hrun as <-; by exists node|].
  cbn [index_headings] in Hrun. apply bind_Ok in Hrun as (st1 & Hone & Hrun).
  assert (∃ node1, indexing_nodes st1 !! O = Some node1 ∧ NodeRevision_SectionRange node1 = NodeRevision_SectionRange node)
    as (node1 & Hnode1 & Heq).
  { unfold index_heading in Hone. cbv zeta in Hone. apply bind_Ok in Hone as (local & _ & [= <-]). cbn [indexing_nodes].
    match goal with |- context [alter _ ?i _] => set (p := i) end. rewrite list_lookup_alter.
    assert (0 < length (indexing_nodes st))%nat by (by apply lookup_lt_Some in Hnode).
    case_decide as Hp; [rewrite Hp|]; rewrite (lookup_app_l (indexing_nodes st)), Hnode by done; by eexists. }
  destruct (IH _ _ Hrun Hnode1) as (node' & ? & ?). exists node'. split; [done|]. congruence.
Qed.

Lemma filter_first {A} (P : A → bool) (l : list A) :
  match filter (fun x => P x = true) l with
  | x :: _ => ∃ j, l !! j = Some x ∧ P x = true ∧ ∀ k y, (k < j)%nat → l !! k = Some y → P y = false
  | [] => ∀ k y, l !! k = Some y → P y = false
  end.
Proof.
  induction l as [|x l IH]; [done|]. rewrite filter_cons. case_decide as Hx.
  - exists O. split_and!; [done|done|lia].
  - apply not_true_is_false in Hx. destruct (filter (fun x => P x = true) l) as [|y rest].
    + intros [|k] z Hz; [by injection Hz as <-|by eapply IH].
    + destruct IH as (j & Hj & Hy & Hall). exists (S j). split_and!; [done|done|].
      intros [|k] z Hk Hz; [by injection Hz as <-|eapply Hall; [|done]; lia].
Qed.

Lemma section_end_spec i level :
  (∃ j m, headings !! j = Some m ∧ (i < j)%nat ∧ (marked_level m <= level)%nat
     ∧ (∀ k, (i < k < j)%nat → (level < level_at headings (S k))%nat)
     ∧ section_end canonical prefix level (drop (S i) headings) = (prefix + marked_start m)%nat)
  ∨ ((∀ k m, (i < k)%nat → headings !! k = Some m → (level < marked_level m)%nat)
     ∧ section_end canonical prefix level (drop (S i) headings) = length canonical).
Proof.
  unfold section_end. pose proof (filter_first (at_most level) (drop (S i) headings)) as Hfirst.
  destruct (filter (fun m => at_most level m = true) (drop (S i) headings)) as [|m rest].
  - right. split; [|done]. intros k m Hk Hm.
    assert (drop (S i) headings !! (k - S i)%nat = Some m) as Hd by (rewrite lookup_drop; by replace (S i + (k - S i))%nat with k by lia).
    apply Hfirst in Hd. by apply Nat.leb_gt in Hd.
  - left. destruct Hfirst as (j & Hj & Hlev & Hall). rewrite lookup_drop in Hj. exists (S i + j)%nat, m.
    split_and!; [done|lia|by apply Nat.leb_le| |done].
    intros k Hk. cbn. assert (∃ mk, headings !! k = Some mk) as [mk Hmk].
    { apply lookup_lt_is_Some. apply lookup_lt_Some in Hj. lia. }
    rewrite Hmk. cbn. assert (drop (S i) headings !! (k - S i)%nat = Some mk) as Hd
      by (rewrite lookup_drop; by replace (S i + (k - S i))%nat with k by lia).
    apply Hall in Hd; [|lia]. by apply Nat.leb_gt in Hd.
Qed.

Section Nesting.
Context (nodes : list NodeRevision).
Hypothesis index_ok : index_nodes canonical prefix documentRevisionID rootNodeID headings = Ok nodes.
(** The parser gives a marker before the end of its heading. *)
Hypothesis markers_first : Forall (fun m => marked_start m <= heading_end (marked_heading m))%nat headings.

Lemma heading_node i m :
  headings !! i = Some m → ∃ node, nodes !! S i = Some node ∧ node_ranges canonical prefix headings i m node.
Proof.
  intros Hm. destruct (index_nodes_indexed nodes index_ok) as (st & -> & [Hlen _ _ _ Hranges _]).
  destruct (lookup_lt_is_Some_2 (indexing_nodes st) (S i)) as [node Hnode].
  { apply lookup_lt_Some in Hm. lia. }
  exists node. split; [done|]. by apply Hranges.
Qed.

Lemma next_marker i m m' :
  headings !! i = Some m → headings !! S i = Some m' →
  (marked_start m <= marked_start m')%nat ∧ (prefix + marked_start m' <= length canonical)%nat.
Proof.
  intros Hm Hm'. destruct (heading_node i m Hm) as (node & _ & _ & _ & _ & _ & Hb).
  assert (drop (S i) headings = m' :: drop (S (S i)) headings) as Hd by (by apply drop_S).
  rewrite Hd in Hb. rewrite Forall_lookup in markers_first. specialize (markers_first i m Hm). lia.
Qed.

Lemma first_marker m : headings !! O = Some m → (prefix + marked_start m <= length canonical)%nat.
Proof.
  intros Hm. destruct (index_nodes_root nodes index_ok) as (local & first & Hf & Hb & _).
  destruct headings as [|m0 rest]; [done|]. injection Hm as ->. lia.
Qed.

Lemma markers_increase i j mi mj :
  (i <= j)%nat → headings !! i = Some mi → headings !! j = Some mj →
  (marked_start mi <= marked_start mj)%nat ∧ (prefix + marked_start mj <= length canonical)%nat.
Proof.
  intros Hij Hi. revert mj. induction Hij as [|j Hij IH]; intros mj Hj.
  - assert (mj = mi) as -> by congruence. split; [done|].
    destruct i as [|i]; [by apply first_marker|]. destruct (lookup_lt_is_Some_2 headings i) as [m Hm].
    { apply lookup_lt_Some in Hi. lia. }
    by apply (next_marker i m).
  - destruct (lookup_lt_is_Some_2 headings j) as [m Hm]; [apply lookup_lt_Some in Hj; lia|].
    destruct (IH m Hm). destruct (next_marker j m mj Hm Hj). lia.
Qed.

Lemma section_end_bound i level : (section_end canonical prefix level (drop (S i) headings) <= length canonical)%nat.
Proof.
  destruct (section_end_spec i level) as [(j & m & Hj & _ & _ & _ & ->)|[_ ->]]; [|done].
  by apply (markers_increase j j m m).
Qed.

Lemma section_end_above i m :
  headings !! i = Some m →
  (prefix + marked_start m <= section_end canonical prefix (marked_level m) (drop (S i) headings))%nat.
Proof.
  intros Hi. destruct (section_end_spec i (marked_level m)) as [(j & mj & Hj & Hij & _ & _ & ->)|[_ ->]].
  - destruct (markers_increase i j m mj); [lia|done|done|]. lia.
  - by apply (markers_increase i i m m).
Qed.

(** The section of a child ends where the section of its parent ends or before. *)
Lemma section_end_nested i p mi mp :
  headings !! i = Some mi → headings !! p = Some mp → parent_index headings (S i) = S p →
  (section_end canonical prefix (marked_level mi) (drop (S i) headings)
   <= section_end canonical prefix (marked_level mp) (drop (S p) headings))%nat.
Proof.
  intros Hi Hp Hparent. destruct (parent_index_spec headings (S i)) as (Hlt & Hlev & Hbetween); [lia|].
  rewrite Hparent in Hlt, Hlev, Hbetween. cbn [level_at] in Hlev, Hbetween. rewrite Hi, Hp in *. cbn [from_option] in *.
  destruct Hlev as [?|Hlev]; [done|].
  destruct (section_end_spec p (marked_level mp)) as [(j & mj & Hj & Hpj & Hle & _ & ->)|[_ ->]]; [|apply section_end_bound].
  assert (i < j)%nat as Hij.
  { destruct (decide (j <= i)%nat) as [Hji|?]; [|lia]. destruct (decide (j = i)) as [->|Hne].
    - assert (mj = mi) as -> by congruence. lia.
    - specialize (Hbetween (S j) ltac:(lia)). cbn in Hbetween. rewrite Hj in Hbetween. cbn in Hbetween. lia. }
  destruct (section_end_spec i (marked_level mi)) as [(j' & mj' & Hj' & Hij' & Hle' & Hno & ->)|[Hno _]].
  - assert (j' <= j)%nat as Hjj'.
    { destruct (decide (j' <= j)%nat); [done|]. specialize (Hno j ltac:(lia)). cbn in Hno. rewrite Hj in Hno. cbn in Hno. lia. }
    destruct (markers_increase j' j mj' mj Hjj' Hj' Hj). lia.
  - specialize (Hno j mj Hij Hj). lia.
Qed.
End Nesting.
End Sections.

(** ** Properties *)
Section Properties.
Context `{UUIDPackage} `{UUIDHash} `{UnicodeTables} `{TextPackage} `{LetterTables} `{Goldmark} `{YAML}.


(** Sections nest: when every marker stands before the end of its heading, the
    section of a node lies within the section of its parent, up to the root, whose
    section is the whole body. *)
Theorem sections_nest canonical prefix documentRevisionID rootNodeID headings nodes :
  Forall (fun m => marked_start m <= heading_end (marked_heading m))%nat headings →
  index_nodes canonical prefix documentRevisionID rootNodeID headings = Ok nodes →
  ∀ i child parent, nodes !! S i = Some child → nodes !! parent_index headings (S i) = Some parent →
  (SourceRange_Start (NodeRevision_SectionRange parent) <= SourceRange_Start (NodeRevision_SectionRange child))%nat
  ∧ (SourceRange_End (NodeRevision_SectionRange child) <= SourceRange_End (NodeRevision_SectionRange parent))%nat.
Proof.
  intros Hfirst Hrun i child parent Hchild Hparent.
  assert (∃ mi, headings !! i = Some mi) as [mi Hi].
  { apply lookup_lt_is_Some. destruct (index_nodes_indexed _ _ _ _ _ _ Hrun) as (st & -> & [Hlen _ _ _ _]).
    apply lookup_lt_Some in Hchild. lia. }
  destruct (heading_node _ _ _ _ _ _ Hrun i mi Hi) as (node & Hnode & _ & _ & Hs & _).
  assert (node = child) as -> by congruence. rewrite Hs. clear Hs Hnode.
  destruct (markers_increase _ _ _ _ _ _ Hrun Hfirst i i mi mi (le_n i) Hi Hi) as [_ Hbi].
  pose proof (section_end_bound _ _ _ _ _ _ Hrun Hfirst i (marked_level mi)) as Hei.
  pose proof (section_end_above _ _ _ _ _ _ Hrun Hfirst i mi Hi) as Hai.
  unfold rangeFor. cbn [SourceRange_Start SourceRange_End].
  destruct (parent_index headings (S i)) as [|p] eqn:Hp.
  - destruct (index_nodes_root _ _ _ _ _ _ Hrun) as (local & first & _ & Hb & _ & st & Hst & ->).
    destruct (index_headings_root _ _ _ _ _ _ _ Hst eq_refl) as (root & Hroot & Heq).
    assert (root = parent) as <- by congruence. rewrite Heq. cbn. lia.
  - destruct (parent_index_spec headings (S i)) as (Hlt & _); [lia|]. rewrite Hp in Hlt.
    assert (∃ mp, headings !! p = Some mp) as [mp Hmp].
    { apply lookup_lt_is_Some. apply lookup_lt_Some in Hi. lia. }
    destruct (heading_node _ _ _ _ _ _ Hrun p mp Hmp) as (node & Hnode & _ & _ & Hs & _).
    assert (node = parent) as -> by congruence. rewrite Hs. cbn [rangeFor SourceRange_Start SourceRange_End].
    pose proof (section_end_nested _ _ _ _ _ _ Hrun Hfirst i p mi mp Hi Hmp Hp) as Hnest.
    destruct (markers_increase _ _ _ _ _ _ Hrun Hfirst p i mp mi) as [Hle _]; [lia|done|done|].
    unfold rangeFor. cbn. lia.
Qed.
End Properties.

(** ** A small document, with line-by-line parsers *)
Module Samples.
#[export] Instance sample_uuid : UUIDPackage := fun s => if str_len s =? 36 then Some s else None.
#[export] Instance sample_hash : UUIDHash := fun namespace data => SHA256 (namespace +:+ data).
#[export] Instance sample_text : TextPackage := {| norm_NFC := id; norm_NFKC := id; cases_Fold := id |}.
#[export] Instance sample_letters : LetterTables :=
  {| letter_rune r := in_range 65 r 90 || in_range 97 r 122; digit_rune := digit; cjk_rune _ := false |}.
#[export] Instance sample_tables : UnicodeTables := ascii_tables.

(** The lines of a text with their offsets and without their line feed. *)
Fixpoint offset_lines (offset : nat) (lines : list bytes) : list (nat * bytes) :=
  match lines with
  | [] => []
  | l :: lines => (offset, trim_last LF l) :: offset_lines (offset + length l) lines
  end.

Definition sample_block (line : nat * bytes) : list Block :=
  let '(offset, l) := line in
  let title := trim_left [ascii_of_byte 35] l in
  let level := (length l - length title)%nat in
  let content := trim_left [ascii_of_byte 32] title in
  if (0 <? level)%nat then
    [Heading level (if is_nil content then [] else [((offset + length l - length content)%nat, (offset + length l)%nat)]) (str content)]
  else if has_prefix (to_bytes "<!--") l then [HTMLBlock (str l) [(offset, (offset + length l)%nat)] None]
  else [OtherBlock].

#[export] Instance sample_markdown : Goldmark :=
  {| goldmark_blocks source := offset_lines 0 (split_after source) ≫= sample_block;
     goldmark_walk source := [TextPiece source] |}.

(** [key: value] lines. *)
Definition yaml_line (i : nat) (line : bytes) : list YamlNode :=
  match index_byte (ascii_of_byte 58) line with
  | Some k => [mkYamlNode ScalarNode false (Z.of_nat i + 1) (str (take k line));
               mkYamlNode ScalarNode false (Z.of_nat i + 1) (trim_space (str (drop (S k) line)))]
  | None => []
  end.
#[export] Instance sample_yaml : YAML := fun source =>
  let content := concat (imap yaml_line (split_after source)) in
  Some (if is_nil content then None else Some (mkYamlRoot MappingNode false content)).

Definition lines (l : list string) : bytes := l ≫= fun s => to_bytes s ++ [LF].
Definition doc_id : string := "00000000-0000-4000-8000-00000000000a".
Definition root_id : string := "00000000-0000-4000-8000-00000000000b".
Definition node_ids : list string :=
  ["00000000-0000-4000-8000-000000000001"; "00000000-0000-4000-8000-000000000002"; "00000000-0000-4000-8000-000000000003"].

Definition inspected : result error InspectedDocument :=
  Inspect (lines ["---"; "title: sets"; "---"; "# Sets"; "body"; "## Unions"; "text"; "# Maps"]).

Definition materialized : result error DocumentRevision :=
  document ← inspected; Materialize document doc_id root_id node_ids.

Definition node_outline (n : NodeRevision) : string * nat * nat * list string * nat :=
  (NodeRevision_NodeID n, NodeRevision_HeadingLevel n, NodeRevision_SiblingIndex n,
   NodeRevision_AncestorTitles n, length (NodeRevision_Children n)).

Example materialized_outline :
  (d ← materialized; Ok (map node_outline (DocumentRevision_Nodes d)))
  = Ok [(root_id, 0%nat, 0%nat, [], 2%nat);
        ("00000000-0000-4000-8000-000000000001", 1%nat, 0%nat, [], 1%nat);
        ("00000000-0000-4000-8000-000000000002", 2%nat, 0%nat, ["Sets"], 0%nat);
        ("00000000-0000-4000-8000-000000000003", 1%nat, 1%nat, [], 0%nat)].
Proof. vm_compute. reflexivity. Qed.

(** A document with an empty heading is inspected, with the empty heading left out,
    but it cannot be materialised: the index finds a heading without a marker. *)
Example empty_heading :
  let document := lines ["#"; "# Sets"] in
  (i ← Inspect document; Ok (map DraftNode_Title (Inspected_DraftNodes i))) = Ok ["Sets"]
  ∧ (i ← Inspect document; Materialize i doc_id root_id (take 1 node_ids)) = Err invalid_marker.
Proof. vm_compute. by split. Qed.

(** Its markers are counted with the empty heading, so that the identity of the
    next heading is lost. *)
Example empty_heading_identity :
  let document := lines ["#"; "<!-- edu-agent-node:v1 {" +:+ quote +:+ "id" +:+ quote +:+ ":" +:+ quote +:+
                              "00000000-0000-4000-8000-000000000001" +:+ quote +:+ "} -->"; "# Sets"] in
  (i ← Inspect document; Ok (map DraftNode_ExplicitNodeID (Inspected_DraftNodes i))) = Ok [EmptyString].
Proof. vm_compute. reflexivity. Qed.

Definition sample_headings : list marked :=
  [mkMarked 0 "a" (mkHeadingBlock 3 5 1 "A"); mkMarked 7 "b" (mkHeadingBlock 9 12 2 "B")].
End Samples.

#[local] Existing Instances Samples.sample_uuid Samples.sample_hash Samples.sample_text Samples.sample_letters
  Samples.sample_tables Samples.sample_markdown Samples.sample_yaml.



Lemma sample_sections :
  ∃ nodes child parent, index_nodes (replicate 20 LF) 0 "d" "r" Samples.sample_headings = Ok nodes
    ∧ nodes !! 2%nat = Some child ∧ nodes !! 1%nat = Some parent.
Proof.
  assert (match index_nodes (replicate 20 LF) 0 "d" "r" Samples.sample_headings with
          | Ok nodes => length nodes | Err _ => 0%nat end = 3%nat) as Hrun by (vm_compute; reflexivity).
  destruct (index_nodes _ _ _ _ _) as [[|n0 [|parent [|child nodes]]]|]; try discriminate Hrun.
  by eexists _, child, parent.
Qed.

Lemma sections_nest_witness :
  parent_index Samples.sample_headings 2 = 1%nat
  ∧ ∃ nodes, index_nodes (replicate 20 LF) 0 "d" "r" Samples.sample_headings = Ok nodes
    ∧ ∃ child parent, nodes !! 2%nat = Some child ∧ nodes !! 1%nat = Some parent
      ∧ (SourceRange_End (NodeRevision_SectionRange child) <= SourceRange_End (NodeRevision_SectionRange parent))%nat.
Proof.
  split; [reflexivity|]. destruct sample_sections as (nodes & child & parent & Hrun & Hc & Hp).
  exists nodes. split; [exact Hrun|]. exists child, parent. split; [exact Hc|]. split; [exact Hp|].
  apply (sections_nest (replicate 20 LF) 0 "d" "r" Samples.sample_headings nodes) with (i := 1%nat); [|exact Hrun|exact Hc|exact Hp].
  repeat constructor; cbn; lia.
Defined.
