(* ===== verification/Retrieval.v ===== *)
(** * Retrieval

    [server/internal/knowledge/retrieval.go]: the lexical scores of documents and
    nodes, the validation of the answers of a selector, and the breadth-first
    traversal of [Retrieve] under its limits. The store and the selector are
    interfaces of the program: the records [KnowledgeStore] and [Selector]. *)
From S2P Require Import Prelude GoStd Packages LearningSpace Bytes Identity Canonical.

Definition defaultDocumentShortlist : nat := 8.
Definition defaultFallbackChoices : nat := 3.
Definition defaultMaxDepth : Z := 8.
Definition defaultCandidatesLayer : Z := 20.
Definition defaultMaxHits : Z := 10.
Definition defaultTotalCandidates : Z := 200.

Definition RetrieverVersion : string := "retriever-v1".
Definition SelectorVersion : string := "selector-v1".
Definition QueryContextVersion : string := "query-context-v1".

(** ** Data *)
Record SnapshotDocument := mkSnapshotDocument {
  SnapshotDocument_SelectedRange : option SourceRange;
  SnapshotDocument_Path : string;
  SnapshotDocument_Revision : DocumentRevision;
}.

Record KnowledgeRevision := mkKnowledgeRevision {
  KnowledgeRevision_ID : string;
  KnowledgeRevision_Redacted : bool;
  KnowledgeRevision_Documents : list SnapshotDocument;
}.

Record NodeArtifact := mkNodeArtifact {
  NodeArtifact_ID : string;
  NodeArtifact_NodeRevisionID : string;
  NodeArtifact_Kind : string;
  NodeArtifact_InputHash : string;
  NodeArtifact_Content : string;
  NodeArtifact_Status : string;
  NodeArtifact_CreatedAt : time;
}.

Record RetrievalLimits := mkRetrievalLimits {
  MaxDepth : Z;
  CandidatesPerLayer : Z;
  MaxHits : Z;
  TotalCandidates : Z;
}.

Record RetrievalCommand := mkRetrievalCommand {
  RetrievalCommand_ScopeSnapshotID : option string;
  RetrievalCommand_Query : string;
  RetrievalCommand_KnowledgeRevisionID : option string;
  RetrievalCommand_QueryContextSchemaVersion : string;
  RetrievalCommand_Context : gmap string any;
  RetrievalCommand_Limits : RetrievalLimits;
}.

Record Candidate := mkCandidate {
  Candidate_Ordinal : nat;
  Candidate_NodeRevisionID : string;
  Candidate_Score : Z;
  Candidate_Title : string;
  Candidate_TitleSHA256 : string;
  Candidate_SummaryArtifactID : string;
  Candidate_HasChildren : bool;
  Candidate_LocalBodyScore : Z;
}.

Record Decision := mkDecision {
  Decision_NodeRevisionID : string;
  Decision_Action : string;
}.
#[export] Instance Decision_eq_dec : EqDecision Decision.
Proof. solve_decision. Defined.

Record SelectorRequest := mkSelectorRequest {
  Request_KnowledgeRevisionID : string;
  Request_Query : string;
  Request_QueryContextVersion : string;
  Request_Context : gmap string any;
  Request_ParentNodeRevisionID : string;
  Request_Candidates : list Candidate;
  Request_SummarySnapshot : list NodeArtifact;
  Request_CandidateSetHash : string;
  Request_RemainingBudget : Z;
  Request_ArtifactFailureReason : string;
}.

Record SelectorResponse := mkSelectorResponse {
  Response_KnowledgeRevisionID : string;
  Response_CandidateSetHash : string;
  Response_Decisions : list Decision;
}.

(** An error of a selector: [errors.As] finds a [SelectorFailure] in it or not. *)
Inductive SelectorError : Type :=
| SelectorFailure (Reason : string) (Truncated : bool)
| UpstreamError.

(** The answers of the selector to the successive layers of one retrieval. *)
Definition Selector : Type := nat → SelectorRequest → result SelectorError SelectorResponse.

Record RetrievalTrace := mkRetrievalTrace {
  Trace_Index : nat;
  Trace_Depth : nat;
  Trace_ParentNodeRevisionID : string;
  Trace_Candidates : list Candidate;
  Trace_Decisions : list Decision;
  Trace_CandidateSetHash : string;
  Trace_ReasonCode : string;
  Trace_Degraded : bool;
  Trace_Truncated : bool;
}.

Record RetrievalHit := mkRetrievalHit {
  Hit_DocumentID : string;
  Hit_DocumentRevisionID : string;
  Hit_NodeID : string;
  Hit_NodeRevisionID : string;
  Hit_Path : string;
  Hit_HeadingRange : SourceRange;
  Hit_LocalBodyRange : SourceRange;
  Hit_SectionRange : SourceRange;
  Hit_CanonicalSlice : bytes;
  Hit_SliceSHA256 : string;
  Hit_TraceIndex : nat;
  Hit_Depth : nat;
  Hit_Provenance : string;
}.

Record RetrievalResult := mkRetrievalResult {
  Result_ScopeSnapshotID : option string;
  Result_KnowledgeRevisionID : string;
  Result_RetrieverVersion : string;
  Result_SelectorVersion : string;
  Result_QueryContextVersion : string;
  Result_SummarySnapshot : list string;
  Result_DocumentShortlist : list string;
  Result_Trace : list RetrievalTrace;
  Result_Hits : list RetrievalHit;
  Result_Degraded : bool;
  Result_Truncated : bool;
}.

Record retrievalDocument := mkRetrievalDocument {
  document_path : string;
  document_revision : DocumentRevision;
  document_score : Z;
}.

Record queueItem := mkQueueItem {
  item_document : retrievalDocument;
  item_parent : NodeRevision;
  item_depth : nat;
  item_origin : option nat; (** [None] is the index -1 *)
}.

(** The store of the service; the optional interfaces are options. *)
Record KnowledgeStore := mkKnowledgeStore {
  store_Head : result error (option KnowledgeRevision);
  store_Revision : string → result error KnowledgeRevision;
  store_ReadyNodeArtifacts : string → result error (list NodeArtifact);
  store_PreferredDocuments : option (string → result error (gmap string bool));
  store_ReadScope : option (string → result error unit);
}.

(** ** Limits *)
Definition bounded (value maximum : Z) (truncated : bool) : Z * bool :=
  if value <=? 0 then (maximum, truncated)
  else if maximum <? value then (maximum, true)
  else (value, truncated).

Definition normalizeRetrievalLimits (input : RetrievalLimits) : RetrievalLimits * bool :=
  let '(maxDepth, truncated) := bounded (MaxDepth input) defaultMaxDepth false in
  let '(perLayer, truncated) := bounded (CandidatesPerLayer input) defaultCandidatesLayer truncated in
  let '(maxHits, truncated) := bounded (MaxHits input) defaultMaxHits truncated in
  let '(total, truncated) := bounded (TotalCandidates input) defaultTotalCandidates truncated in
  (mkRetrievalLimits maxDepth perLayer maxHits total, truncated).

(** [intString] *)
Fixpoint int_digits (fuel : nat) (value : Z) (buffer : string) : string :=
  match fuel with
  | O => buffer
  | S fuel =>
    if value <=? 0 then buffer
    else int_digits fuel (value / 10) (String (ascii_of_byte (48 + value mod 10)) buffer)
  end.
Definition intString (value : Z) : string :=
  if value =? 0 then "0"
  else if value <? 0 then "-" +:+ int_digits 24 (- value) "" else int_digits 24 value "".

(** ** Scores *)

(** A Go map from the nodes of a list: the last one of an identity stays. *)
Definition nodes_by_id (nodes : list NodeRevision) : gmap string NodeRevision :=
  foldl (fun m n => <[NodeRevision_ID n := n]> m) ∅ nodes.

Definition childrenOf (document : DocumentRevision) (parent : NodeRevision) : list NodeRevision :=
  let byID := nodes_by_id (DocumentRevision_Nodes document) in
  omap (fun id => byID !! id) (NodeRevision_Children parent).

(** [canonical[start:end]] where the range is valid, and nothing elsewhere. *)
Definition range_slice (canonical : bytes) (r : SourceRange) : bytes :=
  if (SourceRange_End r <=? length canonical)%nat && (SourceRange_Start r <=? SourceRange_End r)%nat
  then slice canonical (SourceRange_Start r) (SourceRange_End r) else [].

(** The strict orders of the two [sort.Slice] calls: by falling score, then by
    identity. *)
Definition score_less {A} (score : A → Z) (id : A → string) (a b : A) : bool :=
  if negb (score a =? score b) then score b <? score a else str_ltb (id a) (id b).

Section Scores.
Context `{UUIDPackage} `{UUIDHash} `{UnicodeTables} `{TextPackage} `{LetterTables} `{Goldmark} `{YAML}.

Definition fieldScore (queryTokens : list string) (field : string) : Z :=
  let fieldSet : gset string := list_to_set (retrievalTokens (truncateUTF8 field 2048)) in
  let matches := length (filter (fun token => token ∈ fieldSet) queryTokens) in
  if is_nil queryTokens then 0 else Z.quot (1000000 * Z.of_nat matches) (Z.of_nat (length queryTokens)).

Definition scoreField (queryTokens : list string) (field : string) : Z :=
  fieldScore queryTokens (truncateUTF8 field 2048).

Definition canonicalUserBody (canonical : bytes) : bytes :=
  match (f ← parseFrontMatter canonical; stripIdentityMarkers f.2) with
  | Ok clean => clean.1
  | Err _ => []
  end.

(** [titles.WriteString(title); titles.WriteByte(' ')] for each title *)
Definition spaced_titles (titles : list string) : string := join "" ((fun t => t +:+ " ") <$> titles).

Definition scoreDocument (queryTokens : list string) (document : SnapshotDocument) : result error retrievalDocument :=
  let revision := SnapshotDocument_Revision document in
  let titles := spaced_titles (NodeRevision_Title <$> filter (fun n => NodeRevision_HeadingLevel n ≠ O) (DocumentRevision_Nodes revision)) in
  excerpt ← match SnapshotDocument_SelectedRange document with
            | Some r => checked_slice (DocumentRevision_CanonicalMarkdown revision) (SourceRange_Start r) (SourceRange_End r)
            | None => Ok (canonicalUserBody (DocumentRevision_CanonicalMarkdown revision))
            end;
  Ok (mkRetrievalDocument (SnapshotDocument_Path document) revision
        (4 * scoreField queryTokens (SnapshotDocument_Path document) + 3 * scoreField queryTokens titles
         + scoreField queryTokens (str excerpt))).

Fixpoint score_documents (queryTokens : list string) (input : list SnapshotDocument) : result error (list retrievalDocument) :=
  match input with
  | [] => Ok []
  | document :: input =>
    scored ← scoreDocument queryTokens document;
    rest ← score_documents queryTokens input;
    Ok (scored :: rest)
  end.

Definition document_less : retrievalDocument → retrievalDocument → bool :=
  score_less document_score (fun d => DocumentRevision_ID (document_revision d)).

Definition scoreDocuments (input : list SnapshotDocument) (queryTokens : list string) : result error (list retrievalDocument) :=
  scored ← score_documents queryTokens input;
  Ok (sort_by document_less scored).

Definition score_node (document : DocumentRevision) (queryTokens : list string) (artifacts : gmap string NodeArtifact)
    (node : NodeRevision) : Candidate :=
  let byID := nodes_by_id (DocumentRevision_Nodes document) in
  let childTitles := spaced_titles ((fun id => from_option NodeRevision_Title "" (byID !! id)) <$> NodeRevision_Children node) in
  let local := truncateUTF8 (str (range_slice (DocumentRevision_CanonicalMarkdown document) (NodeRevision_LocalBodyRange node))) 2048 in
  let localScore := scoreField queryTokens local in
  let score := 4 * scoreField queryTokens (NodeRevision_Title node)
               + 2 * scoreField queryTokens (join " " (NodeRevision_AncestorTitles node))
               + scoreField queryTokens childTitles + localScore in
  mkCandidate 0 (NodeRevision_ID node) score (NodeRevision_Title node) (SHA256 (NodeRevision_Title node))
    (from_option NodeArtifact_ID "" (artifacts !! NodeRevision_ID node)) (negb (is_nil (NodeRevision_Children node))) localScore.

Definition set_Ordinal (i : nat) (c : Candidate) : Candidate :=
  mkCandidate i (Candidate_NodeRevisionID c) (Candidate_Score c) (Candidate_Title c) (Candidate_TitleSHA256 c)
    (Candidate_SummaryArtifactID c) (Candidate_HasChildren c) (Candidate_LocalBodyScore c).

Definition candidate_less : Candidate → Candidate → bool := score_less Candidate_Score Candidate_NodeRevisionID.

Definition scoreNodes (document : DocumentRevision) (nodes : list NodeRevision) (queryTokens : list string)
    (artifacts : gmap string NodeArtifact) : list Candidate :=
  imap set_Ordinal (sort_by candidate_less (score_node document queryTokens artifacts <$> nodes)).

(** ** Summaries *)
Definition hex_string (s : string) : bool := forallb hex_byte (bytes_of s) && Nat.even (String.length s).

Definition newer_artifact (artifact current : NodeArtifact) : bool :=
  time_after (NodeArtifact_CreatedAt artifact) (NodeArtifact_CreatedAt current)
  || ((NodeArtifact_CreatedAt artifact =? NodeArtifact_CreatedAt current)
      && str_ltb (NodeArtifact_ID current) (NodeArtifact_ID artifact)).

(** One artifact: an error is the reason for which all artifacts are given up. *)
Definition pin_artifact (ownedNodes : gset string) (selected : gmap string NodeArtifact) (artifact : NodeArtifact)
  : result string (gmap string NodeArtifact) :=
  let node := NodeArtifact_NodeRevisionID artifact in
  _ ← fail_if (negb (bool_decide (node ∈ ownedNodes))) "selector_cross_revision_artifact";
  _ ← fail_if (negb (validUUID (NodeArtifact_ID artifact)) || negb (bool_decide (NodeArtifact_Kind artifact = "summary"))
               || negb (bool_decide (NodeArtifact_Status artifact = "ready")) || negb (hex_string (NodeArtifact_InputHash artifact))
               || negb (String.length (NodeArtifact_InputHash artifact) =? 64)%nat) "selector_stale_artifact";
  Ok (match selected !! node with
      | Some current => if newer_artifact artifact current then <[node := artifact]> selected else selected
      | None => <[node := artifact]> selected
      end).

Definition pinSummaryArtifacts (revision : KnowledgeRevision) (artifacts : list NodeArtifact)
  : gmap string NodeArtifact * list string * string :=
  let ownedNodes : gset string :=
    list_to_set (d ← KnowledgeRevision_Documents revision; NodeRevision_ID <$> DocumentRevision_Nodes (SnapshotDocument_Revision d)) in
  match fold_result (pin_artifact ownedNodes) ∅ artifacts with
  | Err reason => (∅, [], reason)
  | Ok selected =>
    (selected, omap (fun node => NodeArtifact_ID <$> selected !! node) (sort_strings ((map_to_list selected).*1)), "")
  end.
End Scores.

Definition summariesForCandidates (candidates : list Candidate) (artifacts : gmap string NodeArtifact) : list NodeArtifact :=
  omap (fun c => artifacts !! Candidate_NodeRevisionID c) candidates.

(** ** The candidate set *)
Definition candidate_line (c : Candidate) : string :=
  let summary := if decide (Candidate_SummaryArtifactID c = "") then "-" else Candidate_SummaryArtifactID c in
  join "|" [intString (Z.of_nat (Candidate_Ordinal c)); Candidate_NodeRevisionID c; intString (Candidate_Score c);
            Candidate_TitleSHA256 c; summary] +:+ newline.

Definition CandidateSetHash (revisionID parentNodeRevisionID : string) (candidates : list Candidate) : string :=
  SHA256 ("candidate-set-v1" +:+ newline +:+ revisionID +:+ newline +:+ parentNodeRevisionID +:+ newline
          +:+ join "" (candidate_line <$> candidates)).

(** ** Decisions of a layer *)
Definition lexical_action (c : Candidate) : string :=
  if Candidate_HasChildren c then (if 0 <? Candidate_LocalBodyScore c then "select_expand" else "expand") else "select".

Definition lexicalDecisions (candidates : list Candidate) : list Decision :=
  let positive := take defaultFallbackChoices (filter (fun c => (0 <? Candidate_Score c) = true) candidates) in
  let positive := if is_nil positive then take 1 candidates else positive in
  (fun c => mkDecision (Candidate_NodeRevisionID c) (lexical_action c)) <$> positive.

(** The position of a candidate in the map of positions: the last one with the
    identity. *)
Fixpoint position_from (i : nat) (candidates : list Candidate) (id : string) : option (nat * Candidate) :=
  match candidates with
  | [] => None
  | c :: candidates =>
    match position_from (S i) candidates id with
    | Some p => Some p
    | None => if decide (Candidate_NodeRevisionID c = id) then Some (i, c) else None
    end
  end.
Definition position_of : list Candidate → string → option (nat * Candidate) := position_from 0.

(** The validation of the decisions of an answer; an error is the reason of the
    fallback. [last] is the position of the previous decision plus one, and the
    increasing positions make the set [seen] of the code redundant: a duplicate
    is at a position already passed. *)
Fixpoint check_decisions (candidates : list Candidate) (frozen : string → bool) (seen : gset string) (last : nat)
    (decisions : list Decision) : result string unit :=
  match decisions with
  | [] => Ok tt
  | d :: decisions =>
    let id := Decision_NodeRevisionID d in
    match position_of candidates id with
    | None => Err (if frozen id then "selector_wrong_parent" else "selector_unknown_candidate")
    | Some (position, candidate) =>
      _ ← fail_if (bool_decide (id ∈ seen) || (position <? last)%nat) "selector_schema_error";
      _ ← fail_if (if decide (Decision_Action d = "select") then false
                   else if bool_decide (Decision_Action d = "expand") || bool_decide (Decision_Action d = "select_expand")
                   then negb (Candidate_HasChildren candidate) else true) "selector_schema_error";
      check_decisions candidates frozen ({[id]} ∪ seen) (S position) decisions
    end
  end.

Record layer := mkLayer {
  layer_decisions : list Decision;
  layer_degraded : bool;
  layer_reason : string;
  layer_truncated : bool;
}.

Definition selectLayer (selector : option Selector) (call : nat) (request : SelectorRequest)
    (allNodes : gmap string NodeRevision) : layer :=
  let fallback reason truncated := mkLayer (lexicalDecisions (Request_Candidates request)) true reason truncated in
  if negb (bool_decide (Request_ArtifactFailureReason request = "")) then fallback (Request_ArtifactFailureReason request) false
  else
    match selector with
    | None => fallback "selector_not_configured" false
    | Some select =>
      match select call request with
      | Err (SelectorFailure reason truncated) => fallback reason truncated
      | Err UpstreamError => fallback "selector_upstream_error" false
      | Ok response =>
        if negb (bool_decide (Response_KnowledgeRevisionID response = Request_KnowledgeRevisionID request))
        then fallback "selector_cross_revision" false
        else if negb (bool_decide (Response_CandidateSetHash response = Request_CandidateSetHash request))
        then fallback "selector_stale_response" false
        else if (defaultFallbackChoices <? length (Response_Decisions response))%nat then fallback "selector_over_budget" true
        else
          match check_decisions (Request_Candidates request) (fun id => bool_decide (is_Some (allNodes !! id))) ∅ 0
                  (Response_Decisions response) with
          | Err reason => fallback reason false
          | Ok _ => mkLayer (Response_Decisions response) false "" false
          end
      end
    end.

(** ** The traversal *)
Definition mark_truncated (t : RetrievalTrace) : RetrievalTrace :=
  mkRetrievalTrace (Trace_Index t) (Trace_Depth t) (Trace_ParentNodeRevisionID t) (Trace_Candidates t) (Trace_Decisions t)
    (Trace_CandidateSetHash t) (Trace_ReasonCode t) (Trace_Degraded t) true.

(** The part of the result the traversal changes, with its local variables. *)
Record traversal := mkTraversal {
  queue : list queueItem;
  totalCandidates : Z;
  hitSeen : gset string;
  traces : list RetrievalTrace;
  hits : list RetrievalHit;
  degraded : bool;
  truncated : bool;
}.

Definition set_queue (q : list queueItem) (st : traversal) : traversal :=
  mkTraversal q (totalCandidates st) (hitSeen st) (traces st) (hits st) (degraded st) (truncated st).

Definition markTraceTruncated (preferred : option nat) (st : traversal) : traversal :=
  let index := match preferred with
               | Some i => if (i <? length (traces st))%nat then i else (length (traces st) - 1)%nat
               | None => (length (traces st) - 1)%nat
               end in
  mkTraversal (queue st) (totalCandidates st) (hitSeen st) (alter mark_truncated index (traces st)) (hits st) (degraded st) true.

Definition makeHit (document : retrievalDocument) (node : NodeRevision) (traceIndex depth : nat) : RetrievalHit :=
  let revision := document_revision document in
  let s := range_slice (DocumentRevision_CanonicalMarkdown revision) (NodeRevision_SectionRange node) in
  mkRetrievalHit (DocumentRevision_DocumentID revision) (DocumentRevision_ID revision) (NodeRevision_NodeID node)
    (NodeRevision_ID node) (document_path document) (NodeRevision_HeadingRange node) (NodeRevision_LocalBodyRange node)
    (NodeRevision_SectionRange node) s (SHA256 (str s)) traceIndex depth "canonical_markdown".

Definition hit_less (a b : RetrievalHit) : bool :=
  if negb (Hit_TraceIndex a =? Hit_TraceIndex b)%nat then (Hit_TraceIndex a <? Hit_TraceIndex b)%nat
  else if negb (Hit_Depth a =? Hit_Depth b)%nat then (Hit_Depth a <? Hit_Depth b)%nat
  else str_ltb (Hit_NodeRevisionID a) (Hit_NodeRevisionID b).

(** The zero value of a map lookup that fails. *)
Definition zero_node : NodeRevision :=
  mkNodeRevision "" "" "" None 0 0 "" [] (mkSourceRange 0 0 0 0) (mkSourceRange 0 0 0 0) (mkSourceRange 0 0 0 0) "" [].

Section Traversal.
Context `{UUIDPackage} `{UUIDHash} `{UnicodeTables} `{TextPackage} `{LetterTables} `{Goldmark} `{YAML}.
(** What [Retrieve] has fixed before its loop. *)
Context (selector : option Selector) (revision : KnowledgeRevision) (command : RetrievalCommand) (contextVersion : string)
  (limits : RetrievalLimits) (queryTokens : list string) (artifactByNode : gmap string NodeArtifact)
  (artifactFailureReason : string) (allNodes : gmap string NodeRevision).

(** The decision of every candidate, empty where the layer has none. *)
Definition full_decisions (candidates : list Candidate) (decisions : list Decision) : list Decision :=
  let selected : gmap string string :=
    foldl (fun m d => <[Decision_NodeRevisionID d := Decision_Action d]> m) ∅ decisions in
  (fun c => mkDecision (Candidate_NodeRevisionID c) (default "" (selected !! Candidate_NodeRevisionID c))) <$> candidates.

Definition selects (action : string) : bool := bool_decide (action ∈ ["select"; "select_expand"]).
Definition expands (action : string) : bool := bool_decide (action ∈ ["expand"; "select_expand"]).

(** One decision: a hit of a document with a score, and the next layer. *)
Definition take_decision (item : queueItem) (candidates : list Candidate) (traceIndex : nat) (st : traversal) (d : Decision)
  : traversal :=
  let id := Decision_NodeRevisionID d in
  let node := default zero_node (allNodes !! id) in
  let st :=
    if selects (Decision_Action d) && (0 <? document_score (item_document item))
       && negb (bool_decide (NodeRevision_ID node ∈ hitSeen st))
    then mkTraversal (queue st) (totalCandidates st) ({[NodeRevision_ID node]} ∪ hitSeen st) (traces st)
           (hits st ++ [makeHit (item_document item) node traceIndex (item_depth item)]) (degraded st) (truncated st)
    else st in
  if expands (Decision_Action d) && from_option (fun p => Candidate_HasChildren p.2) false (position_of candidates id)
  then set_queue (queue st ++ [mkQueueItem (item_document item) node (S (item_depth item)) (Some traceIndex)]) st
  else st.

(** The limits of a layer: the candidates that are left, and whether some are cut. *)
Definition cut_layer (remaining : Z) (candidates : list Candidate) : list Candidate * bool :=
  let capped := take (Z.to_nat (CandidatesPerLayer limits)) candidates in
  let cut := take (Z.to_nat remaining) capped in
  (cut, (CandidatesPerLayer limits <? Z.of_nat (length candidates)) || (remaining <? Z.of_nat (length capped))).

Definition layer_request (item : queueItem) (candidates : list Candidate) (total : Z) : SelectorRequest :=
  let parent := NodeRevision_ID (item_parent item) in
  mkSelectorRequest (KnowledgeRevision_ID revision) (RetrievalCommand_Query command) contextVersion
    (RetrievalCommand_Context command) parent candidates (summariesForCandidates candidates artifactByNode)
    (CandidateSetHash (KnowledgeRevision_ID revision) parent candidates) (TotalCandidates limits - total) artifactFailureReason.

(** The layer of the children of one item, with the candidates that are left. *)
Definition visit_layer (item : queueItem) (candidates : list Candidate) (cut : bool) (st : traversal) : traversal :=
  let total := totalCandidates st + Z.of_nat (length candidates) in
  let request := layer_request item candidates total in
  let traceIndex := length (traces st) in
  let l := selectLayer selector traceIndex request allNodes in
  let trace := mkRetrievalTrace traceIndex (item_depth item) (NodeRevision_ID (item_parent item)) candidates
                 (full_decisions candidates (layer_decisions l)) (Request_CandidateSetHash request) (layer_reason l)
                 (layer_degraded l) (cut || layer_truncated l) in
  let st := mkTraversal (queue st) total (hitSeen st) (traces st ++ [trace]) (hits st) (degraded st || layer_degraded l)
              (truncated st || cut || layer_truncated l) in
  foldl (take_decision item candidates traceIndex) st (layer_decisions l).

(** The end of an iteration: the hits in order, and whether they are enough. *)
Definition settle_hits (traceIndex : nat) (st : traversal) : traversal * bool :=
  let sorted := sort_by hit_less (hits st) in
  let with_hits hits st := mkTraversal (queue st) (totalCandidates st) (hitSeen st) (traces st) hits (degraded st) (truncated st) in
  if MaxHits limits <=? Z.of_nat (length sorted) then
    let st := if (MaxHits limits <? Z.of_nat (length sorted)) || negb (is_nil (queue st))
              then markTraceTruncated (Some traceIndex) st else st in
    (with_hits (take (Z.to_nat (MaxHits limits)) sorted) st, true)
  else (with_hits sorted st, false).

(** One iteration of the loop on an item taken from the queue; whether to break. *)
Definition visit (item : queueItem) (st : traversal) : traversal * bool :=
  if MaxDepth limits <=? Z.of_nat (item_depth item) then (markTraceTruncated (item_origin item) st, false)
  else
    let revision := document_revision (item_document item) in
    let children := childrenOf revision (item_parent item) in
    if is_nil children then (st, false)
    else
      let candidates := scoreNodes revision children queryTokens artifactByNode in
      let remaining := TotalCandidates limits - totalCandidates st in
      if remaining <=? 0 then (markTraceTruncated (item_origin item) st, true)
      else
        let '(candidates, cut) := cut_layer remaining candidates in
        let traceIndex := length (traces st) in
        settle_hits traceIndex (visit_layer item candidates cut st).

(** [None] when the fuel does not suffice. *)
Fixpoint traverse (fuel : nat) (st : traversal) : option traversal :=
  match queue st with
  | [] => Some st
  | item :: rest =>
    match fuel with
    | O => None
    | S fuel =>
      let '(st, stop) := visit item (set_queue rest st) in
      if stop then Some st else traverse fuel st
    end
  end.
End Traversal.

(** ** [Retrieve] *)
Section Retrieve.
Context `{UUIDPackage} `{UUIDHash} `{UnicodeTables} `{TextPackage} `{LetterTables} `{Goldmark} `{YAML}.
Context (store : KnowledgeStore) (selector : option Selector).

(** The context of the call: its collection and its learning space. *)
Record call_context := mkCallContext {
  ctx_collection : option string;
  ctx_scope : option string;
}.

Definition DefaultCollectionID : string := "00000000-0000-4000-8000-000000000002".
Definition CollectionID (ctx : call_context) : string := default DefaultCollectionID (ctx_collection ctx).

Definition module_unavailable : error := ScopeError "learning_space_module_unavailable".

Definition checkScopeAdapter (ctx : call_context) : result error unit :=
  if bool_decide (is_Some (store_ReadScope store)) then Ok tt
  else
    _ ← fail_if (negb (bool_decide (CollectionID ctx = DefaultCollectionID))) (KnowledgeError CodeNotFound);
    match RequireLegacyModule (ctx_scope ctx) with Ok _ => Ok tt | Err (SpaceError code) => Err (ScopeError code) end.

Definition ReadScope (id : string) : result error unit :=
  match store_ReadScope store with Some read => read id | None => Err module_unavailable end.

(** The revision a command names; a scope snapshot is read as a revision. *)
Definition named_revision (command : RetrievalCommand) : result error (option string) :=
  match RetrievalCommand_ScopeSnapshotID command with
  | None => Ok (RetrievalCommand_KnowledgeRevisionID command)
  | Some scope =>
    _ ← fail_if (bool_decide (is_Some (RetrievalCommand_KnowledgeRevisionID command))) (KnowledgeError CodeInvalidRequest);
    _ ← ReadScope scope;
    Ok (Some scope)
  end.

Definition load_revision (id : option string) : result error KnowledgeRevision :=
  match id with
  | None =>
    head ← store_Head store;
    match head with Some revision => Ok revision | None => Err (KnowledgeError CodeNotFound) end
  | Some id =>
    let id := to_lower (trim_space id) in
    _ ← fail_if (negb (validUUID id)) (KnowledgeError CodeInvalidRequest);
    store_Revision store id
  end.

(** The documents the store prefers come first. *)
Definition prefer_documents (revision : KnowledgeRevision) (documents : list retrievalDocument)
  : result error (list retrievalDocument) :=
  match store_PreferredDocuments store with
  | None => Ok documents
  | Some PreferredDocuments =>
    preferred ← PreferredDocuments (KnowledgeRevision_ID revision);
    let is_preferred d := default false (preferred !! DocumentRevision_ID (document_revision d)) in
    Ok (sort_by (fun a b => is_preferred a && negb (is_preferred b)) documents)
  end.

Definition initial_queue (documents : list retrievalDocument) : list queueItem :=
  omap (fun d => (fun root => mkQueueItem d root 0 None) <$> head (DocumentRevision_Nodes (document_revision d))) documents.

(** What the loop starts from. *)
Record prepared := mkPrepared {
  prepared_revision : KnowledgeRevision;
  prepared_contextVersion : string;
  prepared_limits : RetrievalLimits;
  prepared_tokens : list string;
  prepared_artifacts : gmap string NodeArtifact;
  prepared_snapshot : list string;
  prepared_failure : string;
  prepared_documents : list retrievalDocument;
  prepared_truncated : bool;
}.

Definition prepare (ctx : call_context) (command : RetrievalCommand) : result error prepared :=
  _ ← checkScopeAdapter ctx;
  id ← named_revision command;
  let queryTokens := retrievalTokens (RetrievalCommand_Query command) in
  _ ← fail_if (is_nil queryTokens) (KnowledgeError CodeInvalidRequest);
  let contextVersion := if decide (RetrievalCommand_QueryContextSchemaVersion command = "") then QueryContextVersion
                        else RetrievalCommand_QueryContextSchemaVersion command in
  _ ← fail_if (negb (bool_decide (contextVersion = QueryContextVersion))) (KnowledgeError CodeInvalidRequest);
  let '(limits, initiallyTruncated) := normalizeRetrievalLimits (RetrievalCommand_Limits command) in
  revision ← load_revision id;
  _ ← fail_if (KnowledgeRevision_Redacted revision) (KnowledgeError CodeContentRedacted);
  artifacts ← store_ReadyNodeArtifacts store (KnowledgeRevision_ID revision);
  let '(artifactByNode, summarySnapshot, failure) := pinSummaryArtifacts revision artifacts in
  scored ← scoreDocuments (KnowledgeRevision_Documents revision) queryTokens;
  preferred ← prefer_documents revision scored;
  Ok (mkPrepared revision contextVersion limits queryTokens artifactByNode summarySnapshot failure
        (take defaultDocumentShortlist preferred) initiallyTruncated).

Definition all_nodes (documents : list retrievalDocument) : gmap string NodeRevision :=
  nodes_by_id (d ← documents; DocumentRevision_Nodes (document_revision d)).

(** Enough for the loop: every layer spends candidates and adds at most three
    items for each candidate it spends. *)
Definition traversal_fuel (documents : list retrievalDocument) (limits : RetrievalLimits) : nat :=
  length documents + 4 * Z.to_nat (TotalCandidates limits).

Definition start (p : prepared) : traversal :=
  mkTraversal (initial_queue (prepared_documents p)) 0 ∅ [] [] false (prepared_truncated p).

Definition run_traversal (command : RetrievalCommand) (p : prepared) : option traversal :=
  let documents := prepared_documents p in
  traverse selector (prepared_revision p) command (prepared_contextVersion p) (prepared_limits p) (prepared_tokens p)
    (prepared_artifacts p) (prepared_failure p) (all_nodes documents) (traversal_fuel documents (prepared_limits p)) (start p).

Definition result_of (command : RetrievalCommand) (p : prepared) (st : traversal) : RetrievalResult :=
  mkRetrievalResult (RetrievalCommand_ScopeSnapshotID command) (KnowledgeRevision_ID (prepared_revision p))
    RetrieverVersion SelectorVersion (prepared_contextVersion p) (prepared_snapshot p)
    (document_path <$> prepared_documents p) (traces st) (hits st) (degraded st) (truncated st).

(** [None] stands for a loop that does not end. *)
Definition Retrieve (ctx : call_context) (command : RetrievalCommand) : option (result error RetrievalResult) :=
  match prepare ctx command with
  | Err e => Some (Err e)
  | Ok p => (fun st => Ok (result_of command p st)) <$> run_traversal command p
  end.
End Retrieve.

(** ** Lemmas on the pieces *)
Lemma bounded_ok value maximum b : 1 <= maximum → 1 <= (bounded value maximum b).1 <= maximum.
Proof. intros Hm. unfold bounded. destruct (Z.leb_spec value 0), (Z.ltb_spec maximum value); cbn; lia. Qed.

(** The limit that holds for a request: the one asked for, where it is one of the
    allowed, and the largest otherwise. *)
Definition allowed (requested maximum : Z) : Z :=
  if decide (1 <= requested <= maximum) then requested else maximum.

Lemma bounded_allowed value maximum b : 1 <= maximum → (bounded value maximum b).1 = allowed value maximum.
Proof.
  intros Hm. unfold bounded, allowed.
  destruct (Z.leb_spec value 0), (Z.ltb_spec maximum value); case_decide; cbn; lia.
Qed.

Lemma normalizeRetrievalLimits_allowed input :
  (normalizeRetrievalLimits input).1
  = mkRetrievalLimits (allowed (MaxDepth input) 8) (allowed (CandidatesPerLayer input) 20)
      (allowed (MaxHits input) 10) (allowed (TotalCandidates input) 200).
Proof.
  unfold normalizeRetrievalLimits.
  pose proof (bounded_allowed (MaxDepth input) defaultMaxDepth false ltac:(done)).
  destruct (bounded (MaxDepth input) _ _) as [a b1].
  pose proof (bounded_allowed (CandidatesPerLayer input) defaultCandidatesLayer b1 ltac:(done)).
  destruct (bounded (CandidatesPerLayer input) _ _) as [b b2].
  pose proof (bounded_allowed (MaxHits input) defaultMaxHits b2 ltac:(done)).
  destruct (bounded (MaxHits input) _ _) as [c b3].
  pose proof (bounded_allowed (TotalCandidates input) defaultTotalCandidates b3 ltac:(done)).
  destruct (bounded (TotalCandidates input) _ _) as [d b4]. cbn in *. by subst.
Qed.

Record limits_ok (l : RetrievalLimits) : Prop := {
  depth_ok : 1 <= MaxDepth l <= defaultMaxDepth;
  layer_limit_ok : 1 <= CandidatesPerLayer l <= defaultCandidatesLayer;
  hits_ok : 1 <= MaxHits l <= defaultMaxHits;
  total_ok : 1 <= TotalCandidates l <= defaultTotalCandidates;
}.

Lemma normalizeRetrievalLimits_ok input : limits_ok (normalizeRetrievalLimits input).1.
Proof.
  unfold normalizeRetrievalLimits.
  pose proof (bounded_ok (MaxDepth input) defaultMaxDepth false ltac:(done)).
  destruct (bounded (MaxDepth input) _ _) as [a b1].
  pose proof (bounded_ok (CandidatesPerLayer input) defaultCandidatesLayer b1 ltac:(done)).
  destruct (bounded (CandidatesPerLayer input) _ _) as [b b2].
  pose proof (bounded_ok (MaxHits input) defaultMaxHits b2 ltac:(done)).
  destruct (bounded (MaxHits input) _ _) as [c b3].
  pose proof (bounded_ok (TotalCandidates input) defaultTotalCandidates b3 ltac:(done)).
  destruct (bounded (TotalCandidates input) _ _) as [d b4]. by constructor.
Qed.

Lemma nodes_by_id_lookup nodes id n :
  nodes_by_id nodes !! id = Some n → n ∈ nodes ∧ NodeRevision_ID n = id.
Proof.
  unfold nodes_by_id. induction nodes as [|m nodes IH] using rev_ind; [by cbn; rewrite lookup_empty|].
  rewrite foldl_app. cbn. destruct (decide (NodeRevision_ID m = id)) as [<-|Hne].
  - rewrite lookup_insert_eq. intros [= <-]. set_solver.
  - rewrite lookup_insert_ne by done. intros H. apply IH in H as [H1 H2]. set_solver.
Qed.

Lemma nodes_by_id_is_Some nodes n : n ∈ nodes → is_Some (nodes_by_id nodes !! NodeRevision_ID n).
Proof.
  unfold nodes_by_id. induction nodes as [|m nodes IH] using rev_ind; [set_solver|].
  rewrite foldl_app. cbn. intros Hn. destruct (decide (NodeRevision_ID m = NodeRevision_ID n)) as [->|Hne].
  - rewrite lookup_insert_eq. by eexists.
  - rewrite lookup_insert_ne by done. apply IH. set_solver.
Qed.

Lemma childrenOf_elem document parent n :
  n ∈ childrenOf document parent →
  n ∈ DocumentRevision_Nodes document ∧ nodes_by_id (DocumentRevision_Nodes document) !! NodeRevision_ID n = Some n.
Proof.
  unfold childrenOf. intros (id & _ & Hid)%list_elem_of_omap.
  pose proof (nodes_by_id_lookup _ _ _ Hid) as [Hn Hids]. by rewrite Hids.
Qed.

(** *** Decisions of a layer *)

(** What a decision may do with a candidate. *)
Definition action_ok (c : Candidate) (action : string) : Prop :=
  action = "select" ∨ (expands action = true ∧ Candidate_HasChildren c = true).

Definition decides (candidates : list Candidate) (d : Decision) : Prop :=
  ∃ c, c ∈ candidates ∧ Candidate_NodeRevisionID c = Decision_NodeRevisionID d ∧ action_ok c (Decision_Action d).

Lemma position_from_spec i candidates id p c :
  position_from i candidates id = Some (p, c) →
  (i <= p)%nat ∧ candidates !! (p - i)%nat = Some c ∧ Candidate_NodeRevisionID c = id.
Proof.
  revert i. induction candidates as [|c' candidates IH]; intros i; [done|]. cbn [position_from].
  destruct (position_from (S i) candidates id) as [q|] eqn:Hq.
  - intros [= ->]. apply IH in Hq as (Hi & Hl & Hc). split_and!; [lia| |done].
    by replace (p - i)%nat with (S (p - S i)) by lia.
  - case_decide; [|done]. intros [= <- <-]. by rewrite Nat.sub_diag.
Qed.

Lemma position_of_spec candidates id p c :
  position_of candidates id = Some (p, c) → candidates !! p = Some c ∧ Candidate_NodeRevisionID c = id.
Proof. intros (_ & Hl & Hc)%position_from_spec. by rewrite Nat.sub_0_r in Hl. Qed.

Lemma position_from_is_Some i candidates c :
  c ∈ candidates → is_Some (position_from i candidates (Candidate_NodeRevisionID c)).
Proof.
  revert i. induction candidates as [|c' candidates IH]; intros i Hc; [set_solver|]. cbn [position_from].
  destruct (position_from (S i) candidates (Candidate_NodeRevisionID c)) eqn:Hq; [by eexists|].
  apply elem_of_cons in Hc as [->|Hc]; [rewrite decide_True by done; by eexists|].
  destruct (IH (S i) Hc). congruence.
Qed.

Lemma check_decisions_ok candidates frozen seen last decisions :
  check_decisions candidates frozen seen last decisions = Ok tt →
  (Decision_NodeRevisionID <$> decisions) `sublist_of` (Candidate_NodeRevisionID <$> drop last candidates)
  ∧ Forall (decides candidates) decisions
  ∧ NoDup (Decision_NodeRevisionID <$> decisions) ∧ (∀ d, d ∈ decisions → Decision_NodeRevisionID d ∉ seen).
Proof.
  revert seen last. induction decisions as [|d decisions IH]; intros seen last; cbn [check_decisions].
  { intros _. split_and!; [apply sublist_nil_l|constructor|constructor|set_solver]. }
  destruct (position_of candidates (Decision_NodeRevisionID d)) as [[p c]|] eqn:Hp; [|done].
  apply position_of_spec in Hp as [Hp Hc]. intros [Hlast [Hact Hrest]%guard_Ok]%guard_Ok.
  apply orb_false_iff in Hlast as [Hseen Hlast%Nat.ltb_ge]. apply bool_decide_eq_false in Hseen.
  apply IH in Hrest as (Hsub & Hall & Hnodup & Hfresh). split_and!.
  - rewrite fmap_cons, <- Hc. etrans; [apply sublist_skip, Hsub|].
    rewrite <- fmap_cons, <- (drop_S _ _ _ Hp). replace p with (last + (p - last))%nat by lia.
    rewrite <- drop_drop, fmap_drop. apply sublist_drop.
  - constructor; [|done]. exists c. split; [by eapply list_elem_of_lookup_2|]. split; [done|].
    unfold action_ok, expands. case_decide as Hsel; [by left|]. right.
    destruct (bool_decide (Decision_Action d = "expand") || _) eqn:He; [|done]. split; [|by destruct (Candidate_HasChildren c)].
    apply bool_decide_eq_true. apply orb_true_iff in He as [He|He]; apply bool_decide_eq_true in He; rewrite He; set_solver.
  - cbn. constructor; [|done]. intros (d' & Hd' & Hin)%list_elem_of_fmap. specialize (Hfresh d' Hin). set_solver.
  - intros d' [->|Hd']%elem_of_cons; [done|]. specialize (Hfresh d' Hd'). set_solver.
Qed.

Lemma lexical_positive candidates :
  ∃ positive, positive `sublist_of` candidates ∧ (length positive <= defaultFallbackChoices)%nat
    ∧ (candidates ≠ [] → positive ≠ [])
    ∧ lexicalDecisions candidates = (fun c => mkDecision (Candidate_NodeRevisionID c) (lexical_action c)) <$> positive.
Proof.
  unfold lexicalDecisions. set (p := take _ _). destruct (is_nil p) eqn:Hp.
  - exists (take 1 candidates). split_and!; [apply sublist_take|rewrite length_take; unfold defaultFallbackChoices; lia| |done].
    by destruct candidates.
  - exists p. apply is_nil_false in Hp. split_and!; [|apply length_take_le_l || (unfold p; rewrite length_take; lia)|done|done].
    unfold p. etrans; [apply sublist_take|apply sublist_filter].
Qed.

Lemma lexical_action_ok c : action_ok c (lexical_action c).
Proof.
  unfold lexical_action, action_ok. destruct (Candidate_HasChildren c) eqn:Hc; [|by left]. right. by destruct (_ <? _).
Qed.

Lemma lexicalDecisions_ok candidates :
  (Decision_NodeRevisionID <$> lexicalDecisions candidates) `sublist_of` (Candidate_NodeRevisionID <$> candidates)
  ∧ (length (lexicalDecisions candidates) <= defaultFallbackChoices)%nat
  ∧ Forall (decides candidates) (lexicalDecisions candidates)
  ∧ (candidates ≠ [] → lexicalDecisions candidates ≠ []).
Proof.
  destruct (lexical_positive candidates) as (positive & Hsub & Hlen & Hne & ->). rewrite length_fmap, <- list_fmap_compose.
  split_and!; [by apply fmap_sublist|done| |].
  - apply Forall_fmap, Forall_forall. intros c Hc. exists c. split; [by eapply elem_of_sublist|].
    split; [done|apply lexical_action_ok].
  - intros H. by specialize (Hne H); destruct positive.
Qed.

(** Candidates of one identity are the same node. *)
Definition consistent (candidates : list Candidate) : Prop :=
  ∀ c1 c2, c1 ∈ candidates → c2 ∈ candidates → Candidate_NodeRevisionID c1 = Candidate_NodeRevisionID c2 →
  Candidate_HasChildren c1 = Candidate_HasChildren c2 ∧ Candidate_LocalBodyScore c1 = Candidate_LocalBodyScore c2.

Lemma selectLayer_cases selector call request allNodes :
  let l := selectLayer selector call request allNodes in
  (layer_degraded l = true ∧ layer_decisions l = lexicalDecisions (Request_Candidates request))
  ∨ (layer_degraded l = false ∧ layer_reason l = "" ∧ layer_truncated l = false
     ∧ ∃ select response, selector = Some select ∧ select call request = Ok response
       ∧ Response_KnowledgeRevisionID response = Request_KnowledgeRevisionID request
       ∧ Response_CandidateSetHash response = Request_CandidateSetHash request
       ∧ (length (Response_Decisions response) <= defaultFallbackChoices)%nat
       ∧ layer_decisions l = Response_Decisions response
       ∧ check_decisions (Request_Candidates request) (fun id => bool_decide (is_Some (allNodes !! id))) ∅ 0
           (Response_Decisions response) = Ok tt).
Proof.
  unfold selectLayer. cbv zeta. destruct (bool_decide (Request_ArtifactFailureReason request = "")); [|by left].
  destruct selector as [select|]; [|by left]. cbn [negb].
  destruct (select call request) as [response|[reason t|]] eqn:Hs; [|by left..].
  destruct (bool_decide (Response_KnowledgeRevisionID response = _)) eqn:Hr; [|by left].
  destruct (bool_decide (Response_CandidateSetHash response = _)) eqn:Hh; [|by left]. cbn [negb].
  destruct (Nat.ltb_spec defaultFallbackChoices (length (Response_Decisions response))) as [|Hlen]; [by left|].
  destruct (check_decisions _ _ _ _ _) as [[]|reason] eqn:Hc; [|by left]. right. bool_prop.
  split_and!; [done..|]. by exists select, response.
Qed.

Lemma selectLayer_decides selector call request allNodes :
  let candidates := Request_Candidates request in
  let decisions := layer_decisions (selectLayer selector call request allNodes) in
  (length decisions <= defaultFallbackChoices)%nat
  ∧ (Decision_NodeRevisionID <$> decisions) `sublist_of` (Candidate_NodeRevisionID <$> candidates)
  ∧ Forall (decides candidates) decisions.
Proof.
  destruct (selectLayer_cases selector call request allNodes)
    as [[_ Hd]|(_ & _ & _ & select & response & _ & _ & _ & _ & Hlen & Hd & Hc)]; cbv zeta; rewrite Hd.
  - destruct (lexicalDecisions_ok (Request_Candidates request)) as (H1 & H2 & H3 & _). done.
  - apply check_decisions_ok in Hc as (H1 & H2 & _). by rewrite drop_0 in H1.
Qed.

(** Two decisions on one identity agree. *)
Lemma selectLayer_functional selector call request allNodes d1 d2 :
  let decisions := layer_decisions (selectLayer selector call request allNodes) in
  consistent (Request_Candidates request) →
  d1 ∈ decisions → d2 ∈ decisions → Decision_NodeRevisionID d1 = Decision_NodeRevisionID d2 → d1 = d2.
Proof.
  cbv zeta. intros Hcons Hd1 Hd2 Heq.
  destruct (selectLayer_cases selector call request allNodes)
    as [[_ Hd]|(_ & _ & _ & select & response & _ & _ & _ & _ & Hlen & Hd & Hc)]; rewrite Hd in Hd1, Hd2.
  - destruct (lexical_positive (Request_Candidates request)) as (positive & Hsub & _ & _ & Hlex).
    rewrite Hlex in Hd1, Hd2. apply list_elem_of_fmap in Hd1 as (c1 & -> & Hc1). apply list_elem_of_fmap in Hd2 as (c2 & -> & Hc2).
    cbn in Heq |- *. destruct (Hcons c1 c2) as [E1 E2]; [by eapply elem_of_sublist..|done|].
    unfold lexical_action. by rewrite Heq, E1, E2.
  - apply check_decisions_ok in Hc as (_ & _ & Hnodup & _). clear -Hd1 Hd2 Heq Hnodup.
    apply list_elem_of_lookup in Hd1 as [i Hi]. apply list_elem_of_lookup in Hd2 as [j Hj].
    assert (i = j) as ->.
    { apply (proj1 (NoDup_alt _) Hnodup i j (Decision_NodeRevisionID d1)); rewrite list_lookup_fmap; [by rewrite Hi|].
      by rewrite Hj, Heq. }
    congruence.
Qed.

Lemma full_decisions_elem candidates decisions d :
  (∀ d1 d2, d1 ∈ decisions → d2 ∈ decisions → Decision_NodeRevisionID d1 = Decision_NodeRevisionID d2 → d1 = d2) →
  Forall (decides candidates) decisions →
  Decision_Action d ≠ "" → d ∈ full_decisions candidates decisions ↔ d ∈ decisions.
Proof.
  intros Hfun Hdec Hd. unfold full_decisions.
  assert (∀ id action, foldl (fun m d => <[Decision_NodeRevisionID d := Decision_Action d]> m) (∅ : gmap string string) decisions
                         !! id = Some action ↔ mkDecision id action ∈ decisions) as Hsel.
  { clear Hdec Hd. induction decisions as [|d' decisions IH] using rev_ind; intros id action.
    { cbn. rewrite lookup_empty. set_solver. }
    rewrite foldl_app. cbn. specialize (IH ltac:(intros; apply Hfun; set_solver)).
    destruct (decide (Decision_NodeRevisionID d' = id)) as [<-|Hne].
    - rewrite lookup_insert_eq. split; [intros [= <-]; destruct d'; set_solver|].
      intros Hin. assert (mkDecision (Decision_NodeRevisionID d') action = d') as Heq; [apply Hfun; set_solver|].
      by rewrite <- Heq at 1.
    - rewrite lookup_insert_ne, IH by done. rewrite elem_of_app, list_elem_of_singleton. split; [by left|].
      intros [Hin|<-]; [done|]. by destruct Hne. }
  rewrite list_elem_of_fmap. split.
  - intros (c & -> & Hc). cbn in Hd |- *. set (m := foldl _ _ _) in *. destruct (m !! Candidate_NodeRevisionID c) as [a|] eqn:Ha.
    + by apply Hsel.
    + by cbn in Hd.
  - intros Hin. rewrite Forall_forall in Hdec. destruct (Hdec d Hin) as (c & Hc & Hid & _). exists c. split; [|done].
    rewrite Hid. destruct d as [id action]. cbn in *. pose proof (proj2 (Hsel id action) Hin) as Hs. by rewrite Hs.
Qed.

(** *** The state of the traversal *)
Section Invariant.
Context `{UUIDPackage} `{UUIDHash} `{UnicodeTables} `{TextPackage} `{LetterTables} `{Goldmark} `{YAML}.
Context (selector : option Selector) (revision : KnowledgeRevision) (command : RetrievalCommand) (contextVersion : string)
  (limits : RetrievalLimits) (queryTokens : list string) (artifactByNode : gmap string NodeArtifact)
  (artifactFailureReason : string) (documents : list retrievalDocument).
Hypothesis Hlimits : limits_ok limits.

#[local] Abbreviation allNodes := (all_nodes documents).
#[local] Abbreviation visit := (visit selector revision command contextVersion limits queryTokens artifactByNode artifactFailureReason allNodes).
#[local] Abbreviation traverse := (traverse selector revision command contextVersion limits queryTokens artifactByNode artifactFailureReason allNodes).
#[local] Abbreviation visit_layer := (visit_layer selector revision command contextVersion limits artifactByNode artifactFailureReason allNodes).
#[local] Abbreviation hit_ids := (fmap Hit_NodeRevisionID).

Definition decided_node (d : Decision) : NodeRevision := default zero_node (allNodes !! Decision_NodeRevisionID d).
Definition child_item (item : queueItem) (traceIndex : nat) (d : Decision) : queueItem :=
  mkQueueItem (item_document item) (decided_node d) (S (item_depth item)) (Some traceIndex).
Definition opens (candidates : list Candidate) (d : Decision) : bool :=
  expands (Decision_Action d) && from_option (fun p => Candidate_HasChildren p.2) false (position_of candidates (Decision_NodeRevisionID d)).
Definition chosen (item : queueItem) (d : Decision) : Prop :=
  selects (Decision_Action d) = true ∧ 0 < document_score (item_document item).

Lemma take_decisions_frame item candidates ti ds st :
  let st' := foldl (take_decision allNodes item candidates ti) st ds in
  traces st' = traces st ∧ totalCandidates st' = totalCandidates st ∧ truncated st' = truncated st
  ∧ degraded st' = degraded st
  ∧ queue st' = queue st ++ (child_item item ti <$> filter (fun d => opens candidates d = true) ds).
Proof.
  cbv zeta. revert st. induction ds as [|d ds IH]; intros st; [cbn; by rewrite app_nil_r|]. cbn [foldl].
  destruct (IH (take_decision allNodes item candidates ti st d)) as (E1 & E2 & E3 & E4 & E5). rewrite E1, E2, E3, E4, E5.
  rewrite filter_cons. unfold take_decision, opens, set_queue.
  destruct (selects (Decision_Action d) && _ && _); destruct (expands (Decision_Action d) && _) eqn:Ho;
    rewrite ?decide_True, ?decide_False by congruence; cbn; rewrite <- ?app_assoc; done.
Qed.

Lemma take_decisions_hits item candidates ti ds st :
  let st' := foldl (take_decision allNodes item candidates ti) st ds in
  ∃ new, hits st' = hits st ++ new
    ∧ hitSeen st' = hitSeen st ∪ list_to_set (hit_ids new)
    ∧ NoDup (hit_ids new) ∧ (∀ h, h ∈ new → Hit_NodeRevisionID h ∉ hitSeen st)
    ∧ (∀ h, h ∈ new → ∃ d, d ∈ ds ∧ chosen item d ∧ h = makeHit (item_document item) (decided_node d) ti (item_depth item))
    ∧ (∀ d, d ∈ ds → chosen item d → NodeRevision_ID (decided_node d) ∈ hitSeen st').
Proof.
  cbv zeta. revert st. induction ds as [|d ds IH]; intros st.
  { exists []. cbn. rewrite app_nil_r. split_and!; [done|set_solver|constructor|set_solver..]. }
  cbn [foldl]. destruct (IH (take_decision allNodes item candidates ti st d)) as (new & E1 & E2 & E3 & E4 & E5 & E6).
  rewrite E1, E2. set (st1 := take_decision _ _ _ _ st d) in *.
  assert ((hits st1 = hits st ∧ hitSeen st1 = hitSeen st ∧ (chosen item d → NodeRevision_ID (decided_node d) ∈ hitSeen st))
    ∨ (chosen item d ∧ NodeRevision_ID (decided_node d) ∉ hitSeen st
       ∧ hits st1 = hits st ++ [makeHit (item_document item) (decided_node d) ti (item_depth item)]
       ∧ hitSeen st1 = {[NodeRevision_ID (decided_node d)]} ∪ hitSeen st)) as Hst1.
  { unfold st1, take_decision, chosen, decided_node, set_queue. set (node := default zero_node _).
    destruct (selects (Decision_Action d)) eqn:Hs; cbn [andb].
    2: { left. destruct (expands _ && _); cbn; split_and!; naive_solver. }
    destruct (Z.ltb_spec 0 (document_score (item_document item))) as [Hpos|Hpos]; cbn [andb].
    2: { left. destruct (expands _ && _); cbn; split_and!; try done; intros [_ ?]; lia. }
    destruct (bool_decide (NodeRevision_ID node ∈ hitSeen st)) eqn:Hseen; bool_prop; cbn [negb].
    - left. destruct (expands _ && _); cbn; split_and!; done.
    - right. destruct (expands _ && _); cbn; split_and!; done. }
  destruct Hst1 as [(F1 & F2 & F3)|(Hch & Hfresh & F1 & F2)]; rewrite F1, F2 in *.
  - exists new. split_and!; [done..|intros h Hh; destruct (E5 h Hh) as (d' & ? & ?); exists d'; set_solver|].
    intros d' [->|Hd']%elem_of_cons Hc; [specialize (F3 Hc); set_solver|]. rewrite <- E2. by apply E6.
  - exists (makeHit (item_document item) (decided_node d) ti (item_depth item) :: new). cbn [fmap list_fmap].
    split_and!.
    + by rewrite <- app_assoc.
    + cbn. set_solver.
    + constructor; [|done]. intros (h & Hid & Hh)%list_elem_of_fmap. apply (E4 h Hh). cbn in Hid. set_solver.
    + intros h [->|Hh]%elem_of_cons; [done|]. specialize (E4 h Hh). set_solver.
    + intros h [->|Hh]%elem_of_cons; [exists d; set_solver|]. destruct (E5 h Hh) as (d' & ? & ?). exists d'. set_solver.
    + intros d' [->|Hd']%elem_of_cons Hc; [set_solver|]. rewrite <- E2. by apply E6.
Qed.

(** *** Candidates *)
Lemma scoreNodes_elem document nodes c :
  c ∈ scoreNodes document nodes queryTokens artifactByNode →
  ∃ node i, node ∈ nodes ∧ c = set_Ordinal i (score_node document queryTokens artifactByNode node).
Proof.
  unfold scoreNodes. intros Hc. apply list_elem_of_lookup in Hc as [i Hi]. rewrite list_lookup_imap in Hi.
  destruct (sort_by _ _ !! i) as [c'|] eqn:Hc'; [|done]. injection Hi as <-.
  apply list_elem_of_lookup_2 in Hc'. rewrite elem_of_sort_by in Hc'. apply list_elem_of_fmap in Hc' as (node & -> & Hn).
  by exists node, i.
Qed.

Lemma length_scoreNodes document nodes : length (scoreNodes document nodes queryTokens artifactByNode) = length nodes.
Proof. unfold scoreNodes. by rewrite length_imap, length_sort_by, length_fmap. Qed.

(** The candidates of a layer come from the children of the parent. *)
Record layer_candidates (item : queueItem) (candidates : list Candidate) : Prop := {
  candidates_consistent : consistent candidates;
  candidates_nodes : ∀ c, c ∈ candidates →
    ∃ node, node ∈ childrenOf (document_revision (item_document item)) (item_parent item)
      ∧ Candidate_NodeRevisionID c = NodeRevision_ID node
      ∧ Candidate_HasChildren c = negb (is_nil (NodeRevision_Children node));
}.

Lemma cut_candidates item remaining cut full :
  cut_layer limits remaining (scoreNodes (document_revision (item_document item))
    (childrenOf (document_revision (item_document item)) (item_parent item)) queryTokens artifactByNode) = (cut, full) →
  layer_candidates item cut.
Proof.
  unfold cut_layer. intros [= <- _]. set (candidates := scoreNodes _ _ _ _).
  assert (∀ c, c ∈ take (Z.to_nat remaining) (take (Z.to_nat (CandidatesPerLayer limits)) candidates) → c ∈ candidates) as Hsub.
  { intros c Hc. eapply elem_of_sublist; [exact Hc|]. etrans; apply sublist_take. }
  constructor.
  - intros c1 c2 (n1 & i1 & A1 & ->)%Hsub%scoreNodes_elem (n2 & i2 & A2 & ->)%Hsub%scoreNodes_elem Heq. cbn in Heq.
    apply childrenOf_elem in A1 as [_ A1], A2 as [_ A2]. rewrite Heq in A1. by simplify_eq.
  - intros c (n & i & Hn & ->)%Hsub%scoreNodes_elem. by exists n.
Qed.

Lemma cut_layer_length remaining candidates cut full :
  0 < remaining → candidates ≠ [] → cut_layer limits remaining candidates = (cut, full) →
  1 <= Z.of_nat (length cut) <= CandidatesPerLayer limits ∧ Z.of_nat (length cut) <= remaining.
Proof.
  intros Hr Hne [= <- _]. rewrite !length_take. destruct Hlimits as [_ Hl _ _].
  destruct candidates; [done|]. cbn [length]. lia.
Qed.

(** A layer that is not cut has all its candidates. *)
Lemma cut_layer_whole remaining candidates cut :
  cut_layer limits remaining candidates = (cut, false) → cut = candidates.
Proof.
  unfold cut_layer. intros [= <- [Hl%Z.ltb_ge Hr%Z.ltb_ge]%orb_false_iff].
  rewrite (take_ge candidates) in Hr |- * by lia. rewrite take_ge; [done|lia].
Qed.

(** *** The invariant of the loop *)

(** The layer [t] shows the children of [n] in the document [d], all of them. *)
Definition layer_of (t : RetrievalTrace) (d : retrievalDocument) (n : NodeRevision) : Prop :=
  Trace_ParentNodeRevisionID t = NodeRevision_ID n
  ∧ Trace_Candidates t
    = scoreNodes (document_revision d) (childrenOf (document_revision d) n) queryTokens artifactByNode.

(** The layer below [n] is in the trace, or there is none. *)
Definition visited (trace : list RetrievalTrace) (d : retrievalDocument) (n : NodeRevision) : Prop :=
  childrenOf (document_revision d) n = [] ∨ ∃ t, t ∈ trace ∧ layer_of t d n.

(** It is still to come: [q] is what the queue holds. *)
Definition pending (q : list queueItem) (trace : list RetrievalTrace) (d : retrievalDocument) (n : NodeRevision) : Prop :=
  visited trace d n ∨ ∃ item, item ∈ q ∧ item_document item = d ∧ item_parent item = n.

(** Every decision of a layer is carried out, in the document of the layer. *)
Definition explored (q : list queueItem) (st : traversal) (t : RetrievalTrace) : Prop :=
  ∃ d n, d ∈ documents ∧ layer_of t d n ∧ ∀ dec, dec ∈ Trace_Decisions t →
    (expands (Decision_Action dec) = true →
       ∃ node, allNodes !! Decision_NodeRevisionID dec = Some node ∧ pending q (traces st) d node)
    ∧ (selects (Decision_Action dec) = true → 0 < document_score d →
       Decision_NodeRevisionID dec ∈ hit_ids (hits st)).

Record trace_ok (i : nat) (t : RetrievalTrace) : Prop := {
  trace_index : Trace_Index t = i;
  trace_depth : Z.of_nat (Trace_Depth t) < MaxDepth limits;
  trace_width : 1 <= Z.of_nat (length (Trace_Candidates t)) <= CandidatesPerLayer limits;
  trace_hash : Trace_CandidateSetHash t
               = CandidateSetHash (KnowledgeRevision_ID revision) (Trace_ParentNodeRevisionID t) (Trace_Candidates t);
  trace_decisions : Decision_NodeRevisionID <$> Trace_Decisions t = Candidate_NodeRevisionID <$> Trace_Candidates t;
}.

(** A hit is the section of a node that a decision of its layer selects, in a
    document of the shortlist with a positive score that has the node. *)
Definition hit_ok (trace : list RetrievalTrace) (h : RetrievalHit) : Prop :=
  ∃ t d node dec, trace !! Hit_TraceIndex h = Some t ∧ Trace_Depth t = Hit_Depth h
    ∧ d ∈ documents ∧ 0 < document_score d
    ∧ dec ∈ Trace_Decisions t ∧ Decision_NodeRevisionID dec = Hit_NodeRevisionID h ∧ selects (Decision_Action dec) = true
    ∧ allNodes !! Hit_NodeRevisionID h = Some node ∧ h = makeHit d node (Hit_TraceIndex h) (Hit_Depth h)
    ∧ Hit_NodeRevisionID h ∈ NodeRevision_ID <$> DocumentRevision_Nodes (document_revision d).

Definition spent (trace : list RetrievalTrace) : nat := sum_list ((fun t => length (Trace_Candidates t)) <$> trace).

Record inv (q : list queueItem) (st : traversal) : Prop := {
  inv_documents : ∀ item, item ∈ q → item_document item ∈ documents;
  inv_total : Z.of_nat (spent (traces st)) = totalCandidates st ∧ totalCandidates st <= TotalCandidates limits;
  inv_traces : ∀ i t, traces st !! i = Some t → trace_ok i t;
  inv_hits : ∀ h, h ∈ hits st → hit_ok (traces st) h;
  inv_distinct : NoDup (hit_ids (hits st));
  inv_seen : ∀ h, h ∈ hits st → Hit_NodeRevisionID h ∈ hitSeen st;
  inv_kept : truncated st = false → ∀ id, id ∈ hitSeen st → id ∈ hit_ids (hits st);
  inv_explored : truncated st = false → ∀ t, t ∈ traces st → explored q st t;
  inv_roots : truncated st = false → ∀ d root, d ∈ documents → head (DocumentRevision_Nodes (document_revision d)) = Some root →
              pending q (traces st) d root;
}.

(** Marking a layer as truncated keeps what the invariant says of it. *)
Lemma alter_trace_ok (index : nat) (trace : list RetrievalTrace) (i : nat) t :
  (∀ i t, trace !! i = Some t → trace_ok i t) → alter mark_truncated index trace !! i = Some t → trace_ok i t.
Proof.
  intros Hall Ht. destruct (decide (index = i)) as [->|Hne].
  - rewrite list_lookup_alter_eq in Ht. destruct (trace !! i) as [t'|] eqn:Ht'; [|done]. injection Ht as <-.
    destruct (Hall i t' Ht') as [? ? ? ? ?]. by constructor.
  - rewrite list_lookup_alter_ne in Ht by done. by apply Hall.
Qed.

Lemma alter_hit_ok (index : nat) (trace : list RetrievalTrace) h : hit_ok trace h → hit_ok (alter mark_truncated index trace) h.
Proof.
  intros (t & d & node & dec & Ht & Hd & Hrest).
  destruct (decide (index = Hit_TraceIndex h)) as [->|Hne].
  - exists (mark_truncated t), d, node, dec. rewrite list_lookup_alter_eq, Ht. by split.
  - exists t, d, node, dec. rewrite list_lookup_alter_ne by done. by split.
Qed.

Lemma spent_alter (index : nat) (trace : list RetrievalTrace) : spent (alter mark_truncated index trace) = spent trace.
Proof.
  unfold spent. f_equal. apply list_eq. intros i. rewrite !list_lookup_fmap.
  destruct (decide (index = i)) as [->|Hne]; [rewrite list_lookup_alter_eq|by rewrite list_lookup_alter_ne].
  by destruct (trace !! i).
Qed.

Lemma markTraceTruncated_inv preferred q q' st :
  inv q st → (∀ item, item ∈ q' → item_document item ∈ documents) → inv q' (markTraceTruncated preferred st).
Proof.
  intros [I1 I2 I3 I4 I5 I6 I7 I8 I9] Hq. unfold markTraceTruncated. set (index := match preferred with Some _ => _ | None => _ end).
  constructor; cbn [traces hits truncated hitSeen totalCandidates queue]; try done.
  - by rewrite spent_alter.
  - intros i t. by apply alter_trace_ok.
  - intros h Hh. by apply alter_hit_ok, I4.
Qed.

(** An item whose layer is visited leaves the queue. *)
Lemma inv_pop item q st :
  inv (item :: q) st → visited (traces st) (item_document item) (item_parent item) → inv q st.
Proof.
  intros [I1 I2 I3 I4 I5 I6 I7 I8 I9] Hv.
  assert (∀ d n, pending (item :: q) (traces st) d n → pending q (traces st) d n) as Hpend.
  { intros d n [Hn|(i & [->|Hi]%elem_of_cons & <- & <-)]; [by left|by left|right; by exists i]. }
  constructor; [set_solver|done..| |].
  - intros Ht t Hin. destruct (I8 Ht t Hin) as (d & n & Hd & Hof & Hall). exists d, n. split; [done|]. split; [done|]. intros dec Hdec.
    destruct (Hall dec Hdec) as [He Hs]. split; [|done]. intros Hex. destruct (He Hex) as (node & ? & ?). exists node. auto.
  - intros Ht d root Hd Hroot. auto.
Qed.

Lemma sort_hits_elem (l : list RetrievalHit) h : h ∈ sort_by hit_less l ↔ h ∈ l.
Proof. apply elem_of_sort_by. Qed.

(** The hits may be put in order, and cut when the result is marked. *)
Lemma inv_hits_permuted q st new :
  inv q st → (∃ rest, new ++ rest ≡ₚ hits st ∧ (truncated st = false → rest = [])) →
  inv q (mkTraversal (queue st) (totalCandidates st) (hitSeen st) (traces st) new (degraded st) (truncated st)).
Proof.
  intros [I1 I2 I3 I4 I5 I6 I7 I8 I9] (rest & Hp & Hrest).
  assert (∀ h, h ∈ new → h ∈ hits st) as Hin by (intros h Hh; rewrite <- Hp; set_solver).
  assert (truncated st = false → ∀ id, id ∈ hit_ids (hits st) → id ∈ hit_ids new) as Hids.
  { intros Ht id (h & -> & Hh)%list_elem_of_fmap. specialize (Hrest Ht) as ->. rewrite app_nil_r in Hp.
    apply list_elem_of_fmap. exists h. by rewrite Hp. }
  constructor; cbn [traces hits truncated hitSeen totalCandidates queue]; try done.
  - auto.
  - rewrite <- Hp, fmap_app in I5. by apply NoDup_app in I5 as [? _].
  - auto.
  - auto.
  - intros Ht t Hin'. destruct (I8 Ht t Hin') as (d & n & Hd & Hof & Hall). exists d, n. split; [done|]. split; [done|]. intros dec Hdec.
    destruct (Hall dec Hdec) as [He Hs]. split; [done|]. cbn. auto.
Qed.

(** *** One layer *)
Lemma decided_node_spec item candidates d :
  item_document item ∈ documents → layer_candidates item candidates → decides candidates d →
  allNodes !! Decision_NodeRevisionID d = Some (decided_node d) ∧ NodeRevision_ID (decided_node d) = Decision_NodeRevisionID d.
Proof.
  intros Hdoc [_ Hnodes] (c & Hc & Hid & _). destruct (Hnodes c Hc) as (n & [Hn _]%childrenOf_elem & Hcn & _).
  unfold decided_node. rewrite <- Hid, Hcn.
  destruct (nodes_by_id_is_Some (d ← documents; DocumentRevision_Nodes (document_revision d)) n) as [m Hm].
  { apply list_elem_of_bind. by exists (item_document item). }
  unfold all_nodes. rewrite Hm. split; [done|]. by apply nodes_by_id_lookup in Hm as [_ ?].
Qed.

Lemma decided_node_owned item candidates d :
  layer_candidates item candidates → decides candidates d →
  Decision_NodeRevisionID d ∈ NodeRevision_ID <$> DocumentRevision_Nodes (document_revision (item_document item)).
Proof.
  intros [_ Hnodes] (c & Hc & Hid & _). destruct (Hnodes c Hc) as (n & [Hn _]%childrenOf_elem & Hcn & _).
  rewrite <- Hid, Hcn. by apply list_elem_of_fmap_2.
Qed.

Lemma opens_expanding item candidates d :
  layer_candidates item candidates → decides candidates d → expands (Decision_Action d) = true → opens candidates d = true.
Proof.
  intros [Hcons _] (c & Hc & Hid & Hact) Hexp. unfold opens. rewrite Hexp. cbn [andb].
  destruct (position_from_is_Some 0 candidates c Hc) as [[p c'] Hp]. rewrite Hid in Hp. fold (position_of candidates (Decision_NodeRevisionID d)) in Hp.
  rewrite Hp. apply position_of_spec in Hp as [Hp Hc']. cbn.
  destruct (Hcons c c') as [<- _]; [done|by eapply list_elem_of_lookup_2|congruence|].
  destruct Hact as [Hsel|[_ ?]]; [|done]. rewrite Hsel in Hexp. by vm_compute in Hexp.
Qed.

Section Layer.
Context (item : queueItem) (candidates : list Candidate) (cut : bool) (st : traversal).
Hypothesis Hinv : inv (item :: queue st) st.
Hypothesis Hcands : layer_candidates item candidates.
Hypothesis Hdepth : Z.of_nat (item_depth item) < MaxDepth limits.
Hypothesis Hwidth : 1 <= Z.of_nat (length candidates) <= CandidatesPerLayer limits.
Hypothesis Hleft : Z.of_nat (length candidates) <= TotalCandidates limits - totalCandidates st.
Hypothesis Hwhole : cut = false → candidates
  = scoreNodes (document_revision (item_document item))
      (childrenOf (document_revision (item_document item)) (item_parent item)) queryTokens artifactByNode.

#[local] Abbreviation request :=
  (layer_request revision command contextVersion limits artifactByNode artifactFailureReason item candidates
     (totalCandidates st + Z.of_nat (length candidates))).
#[local] Abbreviation chosen_layer := (selectLayer selector (length (traces st)) request allNodes).
#[local] Abbreviation decisions := (layer_decisions chosen_layer).

Definition new_trace : RetrievalTrace :=
  mkRetrievalTrace (length (traces st)) (item_depth item) (NodeRevision_ID (item_parent item)) candidates
    (full_decisions candidates decisions) (Request_CandidateSetHash request) (layer_reason chosen_layer)
    (layer_degraded chosen_layer) (cut || layer_truncated chosen_layer).

Lemma decisions_ok :
  (length decisions <= 3)%nat ∧ Forall (decides candidates) decisions
  ∧ ∀ d, Decision_Action d ≠ "" → d ∈ full_decisions candidates decisions ↔ d ∈ decisions.
Proof using Hcands.
  destruct (selectLayer_decides selector (length (traces st)) request allNodes) as (Hlen & _ & Hall).
  split_and!; [done..|]. intros d Hd. apply full_decisions_elem; [|done..].
  intros d1 d2. apply selectLayer_functional, (candidates_consistent _ _ Hcands).
Qed.

Lemma expands_action action : expands action = true → action ≠ "".
Proof. intros Ha ->. by vm_compute in Ha. Qed.
Lemma selects_action action : selects action = true → action ≠ "".
Proof. intros Ha ->. by vm_compute in Ha. Qed.

(** What one layer changes. *)
Lemma visit_layer_frame :
  let st' := visit_layer item candidates cut st in
  traces st' = traces st ++ [new_trace]
  ∧ totalCandidates st' = totalCandidates st + Z.of_nat (length candidates)
  ∧ truncated st' = truncated st || cut || layer_truncated chosen_layer
  ∧ queue st' = queue st ++ (child_item item (length (traces st)) <$> filter (fun d => opens candidates d = true) decisions).
Proof.
  unfold Retrieval.visit_layer. cbv zeta.
  destruct (take_decisions_frame item candidates (length (traces st)) decisions
              (mkTraversal (queue st) (totalCandidates st + Z.of_nat (length candidates)) (hitSeen st) (traces st ++ [new_trace])
                 (hits st) (degraded st || layer_degraded chosen_layer) (truncated st || cut || layer_truncated chosen_layer)))
    as (E1 & E2 & E3 & _ & E5).
  split_and!; [exact E1|exact E2|exact E3|exact E5].
Qed.

Lemma visit_layer_hits :
  let st' := visit_layer item candidates cut st in
  ∃ new, hits st' = hits st ++ new
    ∧ hitSeen st' = hitSeen st ∪ list_to_set (hit_ids new)
    ∧ NoDup (hit_ids new) ∧ (∀ h, h ∈ new → Hit_NodeRevisionID h ∉ hitSeen st)
    ∧ (∀ h, h ∈ new → ∃ d, d ∈ decisions ∧ chosen item d
         ∧ h = makeHit (item_document item) (decided_node d) (length (traces st)) (item_depth item))
    ∧ (∀ d, d ∈ decisions → chosen item d → NodeRevision_ID (decided_node d) ∈ hitSeen st').
Proof.
  unfold Retrieval.visit_layer. cbv zeta. apply (take_decisions_hits item candidates (length (traces st)) decisions
    (mkTraversal (queue st) (totalCandidates st + Z.of_nat (length candidates)) (hitSeen st) (traces st ++ [new_trace])
       (hits st) (degraded st || layer_degraded chosen_layer) (truncated st || cut || layer_truncated chosen_layer))).
Qed.

Lemma new_trace_ok : trace_ok (length (traces st)) new_trace.
Proof using Hdepth Hwidth.
  constructor; cbn; try done. unfold full_decisions. by rewrite <- list_fmap_compose.
Qed.

Lemma pending_layer d n q' :
  cut = false → (∀ i, i ∈ queue st → i ∈ q') →
  pending (item :: queue st) (traces st) d n → pending q' (traces st ++ [new_trace]) d n.
Proof.
  intros Hcut Hq [[Hn|(t & Ht & Hp)]|(i & [->|Hi]%elem_of_cons & <- & <-)].
  - by left; left.
  - left; right. exists t. split; [set_solver|done].
  - left; right. exists new_trace. split; [set_solver|]. split; [done|]. by apply Hwhole.
  - right. exists i. auto.
Qed.

Lemma visit_layer_inv :
  let st' := visit_layer item candidates cut st in
  inv (queue st') st' ∧ (length (queue st') <= length (queue st) + 3)%nat.
Proof using Type*.
  cbv zeta. destruct visit_layer_frame as (E1 & E2 & E3 & E4). destruct visit_layer_hits as (new & F1 & F2 & F3 & F4 & F5 & F6).
  destruct decisions_ok as (Hthree & Hdec & Hfull). rewrite Forall_forall in Hdec.
  destruct Hinv as [I1 I2 I3 I4 I5 I6 I7 I8 I9]. assert (item_document item ∈ documents) as Hdoc by set_solver.
  set (st' := visit_layer item candidates cut st) in *. set (q' := queue st') in *.
  assert (∀ i, i ∈ queue st → i ∈ q') as Hq by (rewrite E4; set_solver).
  assert (truncated st' = false → ∀ id, id ∈ hitSeen st' → id ∈ hit_ids (hits st')) as Hkept.
  { rewrite E3, F1, F2. intros [[Ht _]%orb_false_iff _]%orb_false_iff id [Hid|Hid]%elem_of_union; rewrite fmap_app; [|set_solver].
    specialize (I7 Ht id Hid). set_solver. }
  split; [constructor|].
  - rewrite E4. intros i [Hi|Hi]%elem_of_app; [set_solver|]. by apply list_elem_of_fmap in Hi as (d & -> & _).
  - rewrite E1, E2. unfold spent. rewrite fmap_app, sum_list_with_app. fold (spent (traces st)). cbn. lia.
  - rewrite E1. intros i t [Ht|[Hlt Ht]]%lookup_app_Some; [by apply I3|].
    apply list_lookup_singleton_Some in Ht as [Hi <-]. replace i with (length (traces st)) by lia. apply new_trace_ok.
  - rewrite E1, F1. intros h [Hh|Hh]%elem_of_app.
    + destruct (I4 h Hh) as (t & d & node & dec & Ht & Hrest). exists t, d, node, dec. split; [by apply lookup_app_l_Some|done].
    + destruct (F5 h Hh) as (d & Hd & [Hsel Hpos] & ->). cbn.
      destruct (decided_node_spec item candidates d Hdoc Hcands (Hdec d Hd)) as [Hn Hid].
      exists new_trace, (item_document item), (decided_node d), d. cbn. rewrite Hid.
      split_and!; try done; [by apply list_lookup_middle|by apply Hfull; [apply selects_action|]|].
      by apply (decided_node_owned item candidates d Hcands), Hdec.
  - rewrite F1, fmap_app. apply NoDup_app. split_and!; [done| |done].
    intros id (h & -> & Hh)%list_elem_of_fmap (h' & Heq & Hh')%list_elem_of_fmap. apply (F4 h' Hh'). rewrite <- Heq. auto.
  - rewrite F1, F2. intros h [Hh|Hh]%elem_of_app; [specialize (I6 h Hh); set_solver|].
    apply elem_of_union_r, elem_of_list_to_set, list_elem_of_fmap. by exists h.
  - done.
  - intros Ht. pose proof (Hkept Ht) as Hk. rewrite E3 in Ht. apply orb_false_iff in Ht as [[Ht Hcut]%orb_false_iff _].
    rewrite E1. intros t [Hin|Hin%list_elem_of_singleton]%elem_of_app; unfold explored; rewrite E1; [|subst t].
    + destruct (I8 Ht t Hin) as (d & n & Hd & Hof & Hall). exists d, n. split; [done|]. split; [done|].
      intros dec Hd'. destruct (Hall dec Hd') as [He Hs]. split.
      * intros Hex. destruct (He Hex) as (node & Hn & Hp). exists node. split; [done|]. by apply pending_layer.
      * intros Hsel Hpos. rewrite F1, fmap_app. specialize (Hs Hsel Hpos). set_solver.
    + exists (item_document item), (item_parent item). split; [done|]. split; [split; [done|by apply Hwhole]|].
      cbn. intros dec Hd'. split.
      * intros Hex. apply Hfull in Hd'; [|by apply expands_action].
        destruct (decided_node_spec item candidates dec Hdoc Hcands (Hdec dec Hd')) as [Hn Hid].
        exists (decided_node dec). split; [done|]. right. exists (child_item item (length (traces st)) dec). split; [|done].
        rewrite E4. apply elem_of_app. right. apply list_elem_of_fmap. exists dec. split; [done|]. apply list_elem_of_filter.
        split; [|done]. eapply opens_expanding; eauto.
      * intros Hsel Hpos. apply Hfull in Hd'; [|by apply selects_action].
        destruct (decided_node_spec item candidates dec Hdoc Hcands (Hdec dec Hd')) as [Hn Hid].
        rewrite <- Hid. apply Hk, F6; done.
  - intros Ht. rewrite E3 in Ht. apply orb_false_iff in Ht as [[Ht Hcut]%orb_false_iff _]. rewrite E1. intros d root Hd Hroot.
    apply pending_layer; auto.
  - rewrite E4, length_app, length_fmap. pose proof (length_filter (fun d => opens candidates d = true) decisions). lia.
Qed.
End Layer.

(** *** The loop *)
Definition hits_fit (st : traversal) : Prop := Z.of_nat (length (hits st)) <= MaxHits limits.

(** What the loop stops with. *)
Definition settled (st : traversal) : Prop := truncated st = true ∨ queue st = [].

Lemma settle_hits_inv ti st st' stop :
  inv (queue st) st → settle_hits limits ti st = (st', stop) →
  inv (queue st') st' ∧ hits_fit st' ∧ queue st' = queue st ∧ totalCandidates st' = totalCandidates st
  ∧ (stop = true → settled st').
Proof.
  intros Hinv. unfold settle_hits. set (sorted := sort_by hit_less (hits st)).
  assert (sorted ≡ₚ hits st) as Hp by apply sort_by_Permutation.
  destruct (Z.leb_spec (MaxHits limits) (Z.of_nat (length sorted))) as [Hmany|Hfew].
  - destruct ((MaxHits limits <? Z.of_nat (length sorted)) || negb (is_nil (queue st))) eqn:Hmark; intros [= <- <-].
    + split_and!; [|unfold hits_fit; cbn [hits]; rewrite length_take; destruct Hlimits; lia|done|done|by left].
      apply (inv_hits_permuted (queue st) (markTraceTruncated (Some ti) st)).
      * eapply markTraceTruncated_inv; [done|apply Hinv].
      * exists (drop (Z.to_nat (MaxHits limits)) sorted). split; [by rewrite take_drop|done].
    + apply orb_false_iff in Hmark as [Hlen%Z.ltb_ge Hnil]. apply negb_false_iff, is_nil_true in Hnil.
      rewrite take_ge by lia.
      split_and!; [|unfold hits_fit; cbn [hits]; lia|done|done|by right].
      apply inv_hits_permuted; [done|]. exists []. by rewrite app_nil_r.
  - intros [= <- <-]. split_and!; [|unfold hits_fit; cbn [hits]; lia|done..].
    apply inv_hits_permuted; [done|]. exists []. by rewrite app_nil_r.
Qed.

(** One iteration keeps the invariant, and either stops or comes closer to the end. *)
Lemma visit_inv item rest st st' stop :
  inv (item :: rest) st → hits_fit st → visit item (set_queue rest st) = (st', stop) →
  inv (queue st') st' ∧ hits_fit st'
  ∧ if stop then settled st'
    else Z.of_nat (length (queue st')) + 4 * (TotalCandidates limits - totalCandidates st')
         < Z.of_nat (S (length rest)) + 4 * (TotalCandidates limits - totalCandidates st).
Proof.
  intros Hinv Hfit. unfold Retrieval.visit. set (st0 := set_queue rest st).
  assert (inv (item :: queue st0) st0) as Hinv0 by (destruct Hinv; by constructor).
  destruct (Z.leb_spec (MaxDepth limits) (Z.of_nat (item_depth item))) as [|Hdepth].
  { intros [= <- <-]. split_and!; [|done|cbn; lia]. eapply markTraceTruncated_inv; [done|].
    intros i Hi. apply (inv_documents _ _ Hinv). set_solver. }
  destruct (is_nil (childrenOf _ _)) eqn:Hnil.
  { intros [= <- <-]. split_and!; [|done|cbn; lia]. apply (inv_pop item); [done|]. left. by apply is_nil_true. }
  destruct (Z.leb_spec (TotalCandidates limits - totalCandidates st0) 0) as [|Hremaining].
  { intros [= <- <-]. split_and!; [|done|by left]. eapply markTraceTruncated_inv; [done|].
    intros i Hi. apply (inv_documents _ _ Hinv). set_solver. }
  destruct (cut_layer _ _ _) as [candidates cut] eqn:Hcut. intros Hsettle.
  pose proof (cut_candidates _ _ _ _ Hcut) as Hcands.
  assert (cut = false → candidates = _) as Hwhole by (intros ->; by apply cut_layer_whole in Hcut).
  apply cut_layer_length in Hcut as [Hwidth Hleft]; [|lia|].
  2: { apply is_nil_false in Hnil. intros Hs. apply (f_equal length) in Hs. rewrite length_scoreNodes in Hs.
       by destruct (childrenOf _ _). }
  destruct (visit_layer_inv item candidates cut st0 Hinv0 Hcands Hdepth Hwidth Hleft Hwhole) as [Hnew Hlen].
  destruct (visit_layer_frame item candidates cut st0) as (_ & Htotal & _ & _).
  apply settle_hits_inv in Hsettle as (H1' & H2' & Hq & Ht & Hstop); [|done]. split_and!; [done..|].
  destruct stop; [by apply Hstop|]. rewrite Hq, Ht, Htotal. cbn [queue totalCandidates st0 set_queue] in *. lia.
Qed.

Lemma traverse_spec fuel st :
  inv (queue st) st → hits_fit st →
  Z.of_nat (length (queue st)) + 4 * (TotalCandidates limits - totalCandidates st) <= Z.of_nat fuel →
  ∃ st', traverse fuel st = Some st' ∧ inv (queue st') st' ∧ hits_fit st' ∧ settled st'.
Proof.
  revert st. induction fuel as [|fuel IH]; intros st Hinv Hfit Hfuel.
  - destruct (queue st) as [|item rest] eqn:Hq.
    + exists st. cbn. rewrite Hq. split_and!; [done..|by right].
    + destruct Hinv as [_ [_ Ht] _ _ _ _ _ _ _]. cbn in Hfuel. lia.
  - cbn [Retrieval.traverse]. destruct (queue st) as [|item rest] eqn:Hq.
    { exists st. rewrite Hq. split_and!; [done..|by right]. }
    destruct (visit item (set_queue rest st)) as [st1 stop] eqn:Hvisit.
    destruct (visit_inv _ _ _ _ _ Hinv Hfit Hvisit) as (Hinv1 & Hfit1 & Hend). destruct stop; [by exists st1|].
    apply IH; [done..|]. cbn [length] in Hfuel. lia.
Qed.
End Invariant.

(** ** The whole retrieval *)
Section RetrieveFacts.
Context `{UUIDPackage} `{UUIDHash} `{UnicodeTables} `{TextPackage} `{LetterTables} `{Goldmark} `{YAML}.
Context (store : KnowledgeStore) (selector : option Selector).

Lemma prefer_documents_elem revision documents preferred d :
  prefer_documents store revision documents = Ok preferred → d ∈ preferred → d ∈ documents.
Proof.
  unfold prefer_documents. destruct (store_PreferredDocuments store) as [prefer|]; [|by intros [= <-]].
  intros (m & _ & [= <-])%bind_Ok. by rewrite elem_of_sort_by.
Qed.

Lemma scoreDocuments_elem input tokens scored d :
  scoreDocuments input tokens = Ok scored → d ∈ scored →
  ∃ sd, sd ∈ input ∧ document_revision d = SnapshotDocument_Revision sd ∧ document_path d = SnapshotDocument_Path sd.
Proof.
  unfold scoreDocuments. intros (l & Hl & [= <-])%bind_Ok. rewrite elem_of_sort_by. revert l Hl.
  induction input as [|sd input IH]; intros l Hl Hd; cbn [score_documents] in Hl.
  - injection Hl as <-. set_solver.
  - apply bind_Ok in Hl as (s & Hs & (rest & Hrest & [= <-])%bind_Ok). apply elem_of_cons in Hd as [->|Hd].
    + apply bind_Ok in Hs as (excerpt & _ & [= <-]). exists sd. set_solver.
    + destruct (IH rest Hrest Hd) as (sd' & ? & ?). exists sd'. set_solver.
Qed.

(** What the loop starts from: the limits of the command, and the first documents
    of the revision. *)
Lemma prepare_spec ctx command p :
  prepare store ctx command = Ok p →
  prepared_limits p = (normalizeRetrievalLimits (RetrievalCommand_Limits command)).1
  ∧ (length (prepared_documents p) <= defaultDocumentShortlist)%nat
  ∧ (∃ id, named_revision store command = Ok id ∧ load_revision store id = Ok (prepared_revision p))
  ∧ KnowledgeRevision_Redacted (prepared_revision p) = false
  ∧ ∀ d, d ∈ prepared_documents p → ∃ sd, sd ∈ KnowledgeRevision_Documents (prepared_revision p)
      ∧ document_revision d = SnapshotDocument_Revision sd ∧ document_path d = SnapshotDocument_Path sd.
Proof.
  unfold prepare. intros (? & _ & Hrun)%bind_Ok. apply bind_Ok in Hrun as (id & Hid & Hrun).
  apply guard_Ok in Hrun as [_ Hrun]. apply guard_Ok in Hrun as [_ Hrun].
  destruct (normalizeRetrievalLimits (RetrievalCommand_Limits command)) as [limits t] eqn:Hl.
  apply bind_Ok in Hrun as (revision & Hrev & [Hred Hrun]%guard_Ok). apply bind_Ok in Hrun as (artifacts & _ & Hrun).
  destruct (pinSummaryArtifacts _ _) as [[a b] c].
  apply bind_Ok in Hrun as (scored & Hscored & Hrun). apply bind_Ok in Hrun as (preferred & Hpref & [= <-]). cbn.
  split_and!; [done|rewrite length_take; unfold defaultDocumentShortlist; lia|by exists id|done|].
  intros d Hd. eapply scoreDocuments_elem; [exact Hscored|]. eapply prefer_documents_elem; [exact Hpref|].
  eapply elem_of_sublist; [exact Hd|apply sublist_take].
Qed.

Lemma start_inv p :
  limits_ok (prepared_limits p) → inv (prepared_revision p) (prepared_limits p) (prepared_tokens p) (prepared_artifacts p) (prepared_documents p)
    (initial_queue (prepared_documents p)) (start p).
Proof.
  intros Hl. constructor; cbn; try set_solver.
  - intros item (d & Hd & Hi)%list_elem_of_omap. destruct (head _) as [root|]; [|done]. by injection Hi as <-.
  - split; [done|]. destruct Hl. lia.
  - constructor.
  - intros _ d root Hd Hroot. right. exists (mkQueueItem d root 0 None). split; [|done].
    apply list_elem_of_omap. exists d. split; [done|]. by rewrite Hroot.
Qed.

Lemma length_initial_queue documents : (length (initial_queue documents) <= length documents)%nat.
Proof.
  unfold initial_queue. induction documents as [|d documents IH]; [done|]. simpl in *.
  unfold omap in IH |- *. simpl. destruct (head _); simpl; lia.
Qed.

Lemma run_traversal_spec command p :
  limits_ok (prepared_limits p) →
  ∃ st, run_traversal selector command p = Some st
    ∧ inv (prepared_revision p) (prepared_limits p) (prepared_tokens p) (prepared_artifacts p) (prepared_documents p) (queue st) st
    ∧ hits_fit (prepared_limits p) st ∧ settled st.
Proof.
  intros Hl. apply traverse_spec; [done|by apply start_inv|unfold hits_fit; cbn; destruct Hl; lia|].
  unfold traversal_fuel. cbn. pose proof (length_initial_queue (prepared_documents p)). destruct Hl. lia.
Qed.
End RetrieveFacts.

(** ** Properties *)
Section Properties.
Context `{UUIDPackage} `{UUIDHash} `{UnicodeTables} `{TextPackage} `{LetterTables} `{Goldmark} `{YAML}.
Context (store : KnowledgeStore) (selector : option Selector).

Lemma Retrieve_Ok ctx command r :
  Retrieve store selector ctx command = Some (Ok r) →
  ∃ p st, prepare store ctx command = Ok p ∧ run_traversal selector command p = Some st ∧ r = result_of command p st
    ∧ limits_ok (prepared_limits p)
    ∧ inv (prepared_revision p) (prepared_limits p) (prepared_tokens p) (prepared_artifacts p) (prepared_documents p) (queue st) st
    ∧ hits_fit (prepared_limits p) st ∧ settled st.
Proof.
  unfold Retrieve. destruct (prepare store ctx command) as [p|e] eqn:Hp; [|done].
  assert (limits_ok (prepared_limits p)) as Hl.
  { destruct (prepare_spec store ctx command p Hp) as (-> & _). apply normalizeRetrievalLimits_ok. }
  destruct (run_traversal_spec selector command p Hl) as (st & Hst & Hinv & Hfit & Hset). rewrite Hst.
  intros [= <-]. by exists p, st.
Qed.

(** C38. The retrieval always returns: whatever the store, the selector and the
    command, the loop of [Retrieve] ends within the fuel of four times the
    candidate budget. *)
Theorem Retrieve_returns ctx command : ∃ answer, Retrieve store selector ctx command = Some answer.
Proof.
  unfold Retrieve. destruct (prepare store ctx command) as [p|e] eqn:Hp; [|by eexists].
  destruct (run_traversal_spec selector command p) as (st & -> & _); [|by eexists].
  destruct (prepare_spec store ctx command p Hp) as (-> & _). apply normalizeRetrievalLimits_ok.
Qed.

(** C37. The limits of a retrieval are those of the request: a limit from 1 up to
    the largest allowed (8 levels, 20 candidates of a layer, 10 hits, 200 candidates
    in all) holds as it is requested, and the largest holds otherwise. The result
    stays within them, in the hits, the depth and width of every layer and the
    candidates of all layers together, with at most eight documents. *)
Theorem Retrieve_bounds ctx command r :
  Retrieve store selector ctx command = Some (Ok r) →
  let requested := RetrievalCommand_Limits command in
  let allowed value maximum := if decide (1 <= value <= maximum) then value else maximum in
  (length (Result_DocumentShortlist r) <= 8)%nat
  ∧ Z.of_nat (length (Result_Hits r)) <= allowed (MaxHits requested) 10
  ∧ Z.of_nat (sum_list ((fun t => length (Trace_Candidates t)) <$> Result_Trace r))
    <= allowed (TotalCandidates requested) 200
  ∧ ∀ i t, Result_Trace r !! i = Some t →
      Trace_Index t = i ∧ Z.of_nat (Trace_Depth t) < allowed (MaxDepth requested) 8
      ∧ 1 <= Z.of_nat (length (Trace_Candidates t)) <= allowed (CandidatesPerLayer requested) 20
      ∧ Trace_CandidateSetHash t
        = CandidateSetHash (Result_KnowledgeRevisionID r) (Trace_ParentNodeRevisionID t) (Trace_Candidates t).
Proof.
  intros (p & st & Hp & _ & -> & Hl & Hinv & Hfit & _)%Retrieve_Ok.
  destruct (prepare_spec store ctx command p Hp) as (Hlimits & Hshort & _).
  rewrite normalizeRetrievalLimits_allowed in Hlimits. cbv zeta.
  destruct Hinv as [_ [Hs Ht] Htr _ _ _ _ _ _]. unfold hits_fit in Hfit. rewrite Hlimits in Hfit, Ht. cbn in Hfit, Ht |- *.
  rewrite length_fmap. split_and!; [exact Hshort|exact Hfit|by etrans; [apply Z.eq_le_incl, Hs|]|].
  intros i t Hi. destruct (Htr i t Hi) as [? Hd Hw ? _]. rewrite Hlimits in Hd, Hw. done.
Qed.

(** C32. Every hit is sourced: it is the section of a node of the revision the
    command reads, which is not redacted. Its document is one of the shortlist and
    has a node of that identifier; the identity, the heading, body and section
    ranges it reports are those of the node, its slice is the section of the node in
    the canonical text of the document, and the hash is that of the slice. When node
    revision identifiers name one node in the revision, the node is one of that
    document. A decision of the layer it names selects it, and no node is a hit
    twice. *)
Theorem hits_are_sourced ctx command r :
  Retrieve store selector ctx command = Some (Ok r) →
  NoDup (Hit_NodeRevisionID <$> Result_Hits r)
  ∧ ∃ id revision, named_revision store command = Ok id ∧ load_revision store id = Ok revision
    ∧ KnowledgeRevision_Redacted revision = false ∧ Result_KnowledgeRevisionID r = KnowledgeRevision_ID revision
    ∧ let owns sd n := sd ∈ KnowledgeRevision_Documents revision
                       ∧ n ∈ DocumentRevision_Nodes (SnapshotDocument_Revision sd) in
      ∀ h, h ∈ Result_Hits r →
        (∃ sd node, sd ∈ KnowledgeRevision_Documents revision ∧ SnapshotDocument_Path sd = Hit_Path h
           ∧ Hit_Path h ∈ Result_DocumentShortlist r
           ∧ Hit_DocumentID h = DocumentRevision_DocumentID (SnapshotDocument_Revision sd)
           ∧ Hit_DocumentRevisionID h = DocumentRevision_ID (SnapshotDocument_Revision sd)
           ∧ (∃ owner, owns owner node) ∧ (∃ node', owns sd node' ∧ NodeRevision_ID node' = NodeRevision_ID node)
           ∧ ((∀ sd1 sd2 n1 n2, owns sd1 n1 → owns sd2 n2 → NodeRevision_ID n1 = NodeRevision_ID n2 → n1 = n2) →
              owns sd node)
           ∧ Hit_NodeRevisionID h = NodeRevision_ID node ∧ Hit_NodeID h = NodeRevision_NodeID node
           ∧ Hit_HeadingRange h = NodeRevision_HeadingRange node
           ∧ Hit_LocalBodyRange h = NodeRevision_LocalBodyRange node
           ∧ Hit_SectionRange h = NodeRevision_SectionRange node
           ∧ Hit_CanonicalSlice h
             = range_slice (DocumentRevision_CanonicalMarkdown (SnapshotDocument_Revision sd))
                 (NodeRevision_SectionRange node))
        ∧ Hit_SliceSHA256 h = SHA256 (str (Hit_CanonicalSlice h))
        ∧ ∃ t dec, Result_Trace r !! Hit_TraceIndex h = Some t ∧ Trace_Depth t = Hit_Depth h
            ∧ dec ∈ Trace_Decisions t ∧ Decision_NodeRevisionID dec = Hit_NodeRevisionID h
            ∧ (Decision_Action dec = "select" ∨ Decision_Action dec = "select_expand").
Proof.
  intros (p & st & Hp & _ & -> & Hl & Hinv & _)%Retrieve_Ok.
  destruct (prepare_spec store ctx command p Hp) as (_ & _ & (id & Hid & Hload) & Hred & Hdocs).
  destruct Hinv as [_ _ _ Hhits Hnodup _ _ _ _]. split; [exact Hnodup|]. exists id, (prepared_revision p).
  split_and!; [done..|]. intros owns h Hh.
  destruct (Hhits h Hh) as (t & d & node & dec & Ht & Hdepth & Hd & _ & Hdec & Hdid & Hsel & Hnode & Hmake & Hown).
  destruct (Hdocs d Hd) as (sd & Hsd & Hrev & Hpath).
  assert (Hit_NodeRevisionID h = NodeRevision_ID node) as Hhid by by rewrite Hmake.
  assert (∃ owner, owns owner node) as Howner.
  { apply nodes_by_id_lookup in Hnode as [(d' & Hn & Hd')%list_elem_of_bind _].
    destruct (Hdocs d' Hd') as (sd' & Hsd' & Hrev' & _). exists sd'. split; [done|]. by rewrite <- Hrev'. }
  apply list_elem_of_fmap in Hown as (node' & Hid' & Hnode'). rewrite Hrev in Hnode'.
  split_and!.
  - exists sd, node. split_and!; [done|by rewrite Hmake| |by rewrite Hmake, <- Hrev|by rewrite Hmake, <- Hrev
      |done| | |done|by rewrite Hmake|by rewrite Hmake|by rewrite Hmake|by rewrite Hmake|by rewrite Hmake, <- Hrev].
    + rewrite Hmake. cbn. by apply list_elem_of_fmap_2.
    + exists node'. split; [done|]. congruence.
    + intros Hunique. destruct Howner as [owner Ho]. rewrite (Hunique owner sd node node'); [done..|]. congruence.
  - by rewrite Hmake.
  - exists t, dec. split_and!; [done..|]. unfold selects in Hsel. bool_prop. set_solver.
Qed.

(** C33. A result that is not marked as truncated is complete: every document of the
    shortlist has its root layer in the trace, and every layer of the trace shows all
    the children of a node in its document, scored there; every node a decision of
    the layer expands has its layer for that document in the trace, unless it has no
    children, and every node a decision selects is a hit when that document has a
    score. *)
Theorem untruncated_is_complete ctx command r :
  Retrieve store selector ctx command = Some (Ok r) → Result_Truncated r = false →
  ∃ p, prepare store ctx command = Ok p ∧ Result_DocumentShortlist r = document_path <$> prepared_documents p
  ∧ let shows t d n :=
      Trace_ParentNodeRevisionID t = NodeRevision_ID n
      ∧ Trace_Candidates t = scoreNodes (document_revision d) (childrenOf (document_revision d) n)
                               (prepared_tokens p) (prepared_artifacts p) in
    let visited d n := childrenOf (document_revision d) n = [] ∨ ∃ t, t ∈ Result_Trace r ∧ shows t d n in
  (∀ d root, d ∈ prepared_documents p → head (DocumentRevision_Nodes (document_revision d)) = Some root →
     visited d root)
  ∧ ∀ t, t ∈ Result_Trace r → ∃ d n, d ∈ prepared_documents p ∧ shows t d n ∧ ∀ dec, dec ∈ Trace_Decisions t →
      (Decision_Action dec ∈ ["expand"; "select_expand"] →
         ∃ node, all_nodes (prepared_documents p) !! Decision_NodeRevisionID dec = Some node ∧ visited d node)
      ∧ (Decision_Action dec ∈ ["select"; "select_expand"] → 0 < document_score d →
         Decision_NodeRevisionID dec ∈ Hit_NodeRevisionID <$> Result_Hits r).
Proof.
  intros (p & st & Hp & _ & -> & Hl & Hinv & _ & Hset)%Retrieve_Ok Ht. cbn in Ht.
  destruct Hset as [Htr|Hq]; [congruence|]. rewrite Hq in Hinv. destruct Hinv as [_ _ _ _ _ _ _ Hexp Hroots].
  assert (∀ d n, pending (prepared_tokens p) (prepared_artifacts p) [] (traces st) d n →
            visited (prepared_tokens p) (prepared_artifacts p) (traces st) d n) as Hpend.
  { intros d n [?|(i & Hi & _)]; [done|set_solver]. }
  exists p. split; [done|]. split; [done|]. cbv zeta. split; [intros d root Hd Hroot; by apply Hpend, Hroots|].
  intros t Hin. destruct (Hexp Ht t Hin) as (d & n & Hd & Hof & Hall). exists d, n. split; [done|]. split; [exact Hof|].
  intros dec Hdec. destruct (Hall dec Hdec) as [He Hs]. split.
  - intros Ha. destruct He as (node & ? & Hv); [by apply bool_decide_eq_true|]. exists node. split; [done|]. by apply Hpend.
  - intros Ha. apply Hs. by apply bool_decide_eq_true.
Qed.
End Properties.

(** C36. The selector is not trusted: whatever it answers, the decisions of a layer are
    at most three, in the order of the candidates, only about candidates, and expand
    only nodes with children. They are its own only when the answer is for this
    revision and this set of candidates; otherwise they are the lexical ones, which
    are not empty when there are candidates. *)
Theorem selectLayer_validates selector call request allNodes :
  let candidates := Request_Candidates request in
  let l := selectLayer selector call request allNodes in
  (length (layer_decisions l) <= 3)%nat
  ∧ (Decision_NodeRevisionID <$> layer_decisions l) `sublist_of` (Candidate_NodeRevisionID <$> candidates)
  ∧ Forall (decides candidates) (layer_decisions l)
  ∧ if layer_degraded l
    then layer_decisions l = lexicalDecisions candidates ∧ (candidates ≠ [] → layer_decisions l ≠ [])
    else layer_reason l = "" ∧ ∃ select response, selector = Some select ∧ select call request = Ok response
           ∧ Response_KnowledgeRevisionID response = Request_KnowledgeRevisionID request
           ∧ Response_CandidateSetHash response = Request_CandidateSetHash request
           ∧ layer_decisions l = Response_Decisions response.
Proof.
  cbv zeta. destruct (selectLayer_decides selector call request allNodes) as (H1 & H2 & H3). split_and!; [done..|].
  destruct (selectLayer_cases selector call request allNodes) as [[-> Hd]|(-> & Hr & _ & select & response & ? & ? & ? & ? & _ & ? & _)].
  - split; [done|]. rewrite Hd. apply lexicalDecisions_ok.
  - split; [done|]. by exists select, response.
Qed.

(** ** A concrete retrieval *)
#[local] Existing Instances Samples.sample_uuid Samples.sample_hash Samples.sample_text Samples.sample_letters
  Samples.sample_tables Samples.sample_markdown Samples.sample_yaml.

Module Shelf.
(** The head of the shelf is the materialised document of Canonical.v. *)
Definition shelf : KnowledgeRevision :=
  mkKnowledgeRevision "rev" false
    match Samples.materialized with Ok d => [mkSnapshotDocument None "sets.md" d] | Err _ => [] end.
Definition shelf_store : KnowledgeStore :=
  mkKnowledgeStore (Ok (Some shelf)) (fun _ => Err (KnowledgeError CodeNotFound)) (fun _ => Ok []) None None.
Definition ask_for (query : string) (limits : RetrievalLimits) : RetrievalCommand :=
  mkRetrievalCommand None query None "" ∅ limits.
Definition here : call_context := mkCallContext None None.
Definition no_limits : RetrievalLimits := mkRetrievalLimits 0 0 0 0.

Definition ask (limits : RetrievalLimits) : option (result error RetrievalResult) :=
  Retrieve shelf_store None here (ask_for "Unions" limits).

(** The texts of the hits, the actions of the layers, and the mark. *)
Definition outline (answer : option (result error RetrievalResult)) : option (list string * list (list string) * bool) :=
  match answer with
  | Some (Ok r) => Some ((fun h => str (Hit_CanonicalSlice h)) <$> Result_Hits r,
                         (fun t => Decision_Action <$> Trace_Decisions t) <$> Result_Trace r, Result_Truncated r)
  | _ => None
  end.

Lemma outline_Some answer o : outline answer = Some o → ∃ r, answer = Some (Ok r) ∧ outline (Some (Ok r)) = Some o.
Proof. destruct answer as [[r|e]|]; [|discriminate..]. by exists r. Qed.

(** Without a selector the traversal goes down to the section the query names. *)
Example finds_unions :
  outline (ask no_limits)
  = Some (["<!-- edu-agent-node:v1 {" +:+ quote +:+ "id" +:+ quote +:+ ":" +:+ quote
           +:+ "00000000-0000-4000-8000-000000000002" +:+ quote +:+ "} -->" +:+ newline +:+ "## Unions" +:+ newline
           +:+ "text" +:+ newline],
          [["expand"; ""]; ["select"]], false).
Proof. vm_compute. reflexivity. Qed.

(** One layer deep, the result has no hit and says that it is cut. *)
Example shallow_search : outline (ask (mkRetrievalLimits 1 100 1 0)) = Some ([], [["expand"; ""]], true).
Proof. vm_compute. reflexivity. Qed.
End Shelf.

Lemma Retrieve_bounds_witness :
  ∃ r, Shelf.ask (mkRetrievalLimits 1 100 1 0) = Some (Ok r) ∧ Result_Truncated r = true
    ∧ Z.of_nat (length (Result_Hits r)) <= 1 ∧ Z.of_nat (sum_list ((fun t => length (Trace_Candidates t)) <$> Result_Trace r)) <= 200.
Proof.
  destruct (Shelf.outline_Some _ _ Shelf.shallow_search) as (r & Hrun & Ho).
  exists r. split; [exact Hrun|]. split; [by injection Ho|].
  destruct (Retrieve_bounds Shelf.shelf_store None Shelf.here _ r Hrun) as (_ & Hhits & Hspent & _). by split.
Defined.

Lemma hits_are_sourced_witness :
  ∃ r h, Shelf.ask Shelf.no_limits = Some (Ok r)
    ∧ Result_Hits r = [h] ∧ Hit_SliceSHA256 h = SHA256 (str (Hit_CanonicalSlice h)).
Proof.
  destruct (Shelf.outline_Some _ _ Shelf.finds_unions) as (r & Hrun & Ho).
  destruct (Result_Hits r) as [|h [|h' hits]] eqn:Hh; cbn in Ho; rewrite Hh in Ho; [discriminate Ho| |discriminate Ho].
  exists r, h. split; [exact Hrun|]. split; [exact Hh|].
  destruct (hits_are_sourced Shelf.shelf_store None Shelf.here _ r Hrun) as (_ & id & revision & _ & _ & _ & _ & Hall).
  apply Hall. rewrite Hh. apply list_elem_of_here.
Defined.

Lemma untruncated_is_complete_witness :
  ∃ r p, Shelf.ask Shelf.no_limits = Some (Ok r) ∧ Result_Truncated r = false
    ∧ prepare Shelf.shelf_store Shelf.here (Shelf.ask_for "Unions" Shelf.no_limits) = Ok p
    ∧ ∀ d root, d ∈ prepared_documents p → head (DocumentRevision_Nodes (document_revision d)) = Some root →
        childrenOf (document_revision d) root = []
        ∨ ∃ t, t ∈ Result_Trace r ∧ Trace_ParentNodeRevisionID t = NodeRevision_ID root
            ∧ Trace_Candidates t = scoreNodes (document_revision d) (childrenOf (document_revision d) root)
                                     (prepared_tokens p) (prepared_artifacts p).
Proof.
  destruct (Shelf.outline_Some _ _ Shelf.finds_unions) as (r & Hrun & Ho).
  assert (Result_Truncated r = false) as Htr by (by injection Ho).
  destruct (untruncated_is_complete Shelf.shelf_store None Shelf.here _ r Hrun Htr) as (p & Hp & _ & Hroots & _).
  exists r, p. split_and!; [exact Hrun|exact Htr|exact Hp|exact Hroots].
Defined.
