(* ===== verification/PatchMatch.v ===== *)
(** * Locating a patch hunk in a file

    [clients/cli-go/internal/workspace/complete_diff.go] (the index of a file's
    lines) and [patch_match.go]: a hunk is placed where its old side occurs among
    the lines of the original, found by the Knuth-Morris-Pratt search; it must
    occur exactly once. Bytes and strings are both [list ascii] here. *)
From S2P Require Import Prelude GoStd Bytes.

(** ** Errors and contexts *)
Inductive error : Type :=
| OperationError (code message : string)
| ContextDone.

Definition CodeInvalidPatch : string := "invalid_patch".
Definition CodeReplacementMissing : string := "replacement_missing".
Definition CodeReplacementNotUnique : string := "replacement_not_unique".
Definition operationFailure (code message : string) : error := OperationError code message.
Definition invalidPatch (message : string) : error := operationFailure CodeInvalidPatch message.

(** A context stays cancelled once it is: what a computation sees of it is how many
    more times [ctx.Err()] returns nil. *)
Definition Cancellable (A : Type) : Type := nat → result error A * nat.
#[export] Instance Cancellable_ret : MRet Cancellable := fun A a n => (Ok a, n).
#[export] Instance Cancellable_bind : MBind Cancellable := fun A B k c n =>
  match c n with (Ok a, n) => k a n | (Err e, n) => (Err e, n) end.

(** [if err := ctx.Err(); err != nil { return err }] *)
Definition ctx_err : Cancellable unit := fun n => match n with O => (Err ContextDone, O) | S n => (Ok tt, n) end.
Definition fail {A} (err : error) : Cancellable A := fun n => (Err err, n).

(** ** The lines of a file *)
Record completeDiffLines := mkLines {
  lines_raw : bytes;
  lines_starts : list nat;
}.

Definition completeDiffChunk : Z := 32 * 2 ^ 10.

(** The loop over the bytes, from index [i] of [len]. *)
Fixpoint index_loop (i len : nat) (starts : list nat) (raw : bytes) : Cancellable (list nat) :=
  match raw with
  | [] => mret starts
  | b :: raw =>
    _ ← (if Z.of_nat i mod completeDiffChunk =? 0 then ctx_err else mret tt);
    index_loop (S i) len (if bool_decide (b = LF) && (S i <? len)%nat then starts ++ [S i] else starts) raw
  end.

Definition indexCompleteDiffLines (raw : bytes) : Cancellable completeDiffLines :=
  starts ← index_loop 0 (length raw) [0%nat] raw;
  let starts := if is_nil raw then starts else starts ++ [length raw] in
  _ ← ctx_err;
  mret (mkLines raw starts).

Definition line_count (l : completeDiffLines) : nat := length (lines_starts l) - 1.
Definition line (l : completeDiffLines) (i : nat) : bytes :=
  let start := nth i (lines_starts l) 0%nat in
  take (nth (S i) (lines_starts l) 0%nat - start) (drop start (lines_raw l)).

Definition patchLogicalLine (raw : bytes) : bytes :=
  if ends_with LF raw then trim_last CR (trim_last LF raw) else raw.

(** ** Hunks *)
Record patchHunk := mkHunk {
  hunk_lines : list bytes;
  hunk_eof : bool;
}.

(** [line[0]] and [line[1:]]; [parsePatch] makes no empty hunk line. *)
Definition marker (l : bytes) : ascii := hd zero l.
Definition is_marker (c : ascii) (l : bytes) : bool := bool_decide (marker l = c).
Definition space : ascii := " ".
Definition plus : ascii := "+".
Definition minus : ascii := "-".

Definition old_lines (hunk : patchHunk) : list bytes :=
  tl <$> filter (fun l => is_marker plus l = false) (hunk_lines hunk).

(** ** Knuth-Morris-Pratt *)
Section KMP.
Context {A : Type} `{EqDecision A}.
Implicit Types (old : list A) (c : A).

(** [for j > 0 && c != old[j] { j = prefix[j-1] }]; [j] decreases, so [j] turns are
    enough. *)
Fixpoint fall (fuel : nat) (prefix : list nat) old c (j : nat) : nat :=
  match fuel with
  | O => j
  | S fuel =>
    if (0 <? j)%nat && negb (bool_decide (old !! j = Some c)) then fall fuel prefix old c (nth (j - 1) prefix 0%nat)
    else j
  end.

(** [if c == old[j] { j++ }] after it. *)
Definition advance (prefix : list nat) old c (j : nat) : nat :=
  let j := fall j prefix old c j in
  if bool_decide (old !! j = Some c) then S j else j.

(** [n] turns of the loop that fills the table, from index [i]. *)
Fixpoint prefix_loop (n i j : nat) old (prefix : list nat) : list nat :=
  match n, old !! i with
  | S n, Some c =>
    let j := advance prefix old c j in
    prefix_loop n (S i) j old (<[i:=j]> prefix)
  | _, _ => prefix
  end.

Definition prefix_table old : list nat :=
  prefix_loop (length old - 1) 1 0 old (replicate (length old) 0%nat).
End KMP.

(** The loop over the [n] lines from index [i], with the match found so far. *)
Fixpoint search_loop (n i j : nat) (found : option nat) (prefix : list nat) (old : list bytes) (l : completeDiffLines)
  : Cancellable (option nat) :=
  match n with
  | O => mret found
  | S n =>
    _ ← ctx_err;
    let j := advance prefix old (patchLogicalLine (line l i)) j in
    if (j =? length old)%nat then
      match found with
      | Some _ => fail (operationFailure CodeReplacementNotUnique "补丁旧行上下文在原文中不唯一")
      | None => search_loop n (S i) (nth (j - 1) prefix 0%nat) (Some (i + 1 - length old)%nat) prefix old l
      end
    else search_loop n (S i) j found prefix old l
  end.

(** The comparison of an end-of-file hunk with the last lines. *)
Fixpoint eof_loop (i : nat) (old : list bytes) (l : completeDiffLines) : Cancellable bool :=
  match old with
  | [] => mret true
  | want :: old =>
    _ ← ctx_err;
    if decide (patchLogicalLine (line l i) = want) then eof_loop (S i) old l else mret false
  end.

Definition matchPatchHunk (l : completeDiffLines) (hunk : patchHunk) : Cancellable (nat * nat) :=
  let old := old_lines hunk in
  if is_nil old then
    if hunk_eof hunk then mret (line_count l, line_count l)
    else fail (invalidPatch "纯插入 hunk 必须有原文上下文或明确 End of File")
  else if hunk_eof hunk then
    let missing := operationFailure CodeReplacementMissing "补丁 EOF 上下文与原文末尾不精确匹配" in
    if (length old <=? line_count l)%nat then
      let start := (line_count l - length old)%nat in
      matched ← eof_loop start old l;
      if matched : bool then mret (start, line_count l) else fail missing
    else fail missing
  else
    found ← search_loop (line_count l) 0 0 None (prefix_table old) old l;
    match found with
    | None => fail (operationFailure CodeReplacementMissing "补丁旧行上下文在原文中不存在")
    | Some found => mret (found, found + length old)%nat
    end.

(** ** Bytes at the end *)
(** ** The search is correct *)
Section KmpFacts.
Context {A : Type} `{EqDecision A}.
Implicit Types (p u : list A) (c : A) (prefix : list nat).

(** [k] elements of the pattern are matched at the end of [u]. *)
Definition matched p u (k : nat) : Prop := take k p `suffix_of` u.

(** [j] is the state of the automaton after [u]. *)
Definition longest p u (j : nat) : Prop :=
  (j < length p)%nat ∧ matched p u j ∧ ∀ k, (k < length p)%nat → matched p u k → (k <= j)%nat.

Definition table_ok p prefix (n : nat) : Prop :=
  ∀ j, (0 < j <= n)%nat → longest p (drop 1 (take j p)) (nth (j - 1) prefix 0%nat).

Lemma matched_snoc p u c k :
  (k < length p)%nat → matched p (u ++ [c]) (S k) ↔ matched p u k ∧ p !! k = Some c.
Proof.
  intros Hk. destruct (lookup_lt_is_Some_2 p k Hk) as [x Hx]. unfold matched.
  rewrite (take_S_r _ _ _ Hx), Hx. split.
  - intros Hs. pose proof (suffix_snoc_inv_1 _ _ _ _ Hs) as <-. split; [by eapply suffix_snoc_inv_2|done].
  - intros [Hm [= ->]]. by apply suffix_snoc_alt.
Qed.

(** Of two matches, the shorter ends the longer. *)
Lemma matched_shorter p u j k :
  (k < j <= length p)%nat → matched p u j → matched p u k → matched p (drop 1 (take j p)) k.
Proof.
  unfold matched. intros Hkj [v1 H1] [v2 H2]. assert (Hlen : (length v1 + j = length v2 + k)%nat).
  { apply (f_equal length) in H1, H2. rewrite length_app, length_take in H1, H2. lia. }
  exists (take (j - 1 - k) (drop (S (length v1)) v2)).
  rewrite H2 in H1. apply (f_equal (drop (S (length v1)))) in H1.
  rewrite (drop_app_ge v1) in H1 by lia. replace (S (length v1) - length v1)%nat with 1%nat in H1 by lia.
  rewrite <- H1, drop_app. replace (S (length v1) - length v2)%nat with 0%nat by lia. rewrite drop_0. f_equal.
  rewrite take_ge; [done|]. rewrite length_drop. lia.
Qed.

Lemma matched_longer p u j k :
  matched p u j → matched p (drop 1 (take j p)) k → matched p u k.
Proof.
  unfold matched. intros Hj Hk. transitivity (drop 1 (take j p)); [done|].
  transitivity (take j p); [apply suffix_drop|done].
Qed.

Lemma matched_length p u k : (k <= length p)%nat → matched p u k → (k <= length u)%nat.
Proof. intros Hk Hm. apply suffix_length in Hm. rewrite length_take in Hm. lia. Qed.

Lemma longest_border_lt p j k : (0 < j <= length p)%nat → longest p (drop 1 (take j p)) k → (k < j)%nat.
Proof.
  intros Hj (Hk & Hm & _). apply matched_length in Hm; [|lia]. rewrite length_drop, length_take in Hm. lia.
Qed.

Lemma fall_spec p prefix u c fuel j :
  (j <= fuel)%nat → (j < length p)%nat → matched p u j → table_ok p prefix j →
  let r := fall fuel prefix p c j in
  (r <= j)%nat ∧ matched p u r ∧ (p !! r = Some c ∨ r = 0%nat)
  ∧ ∀ k, (k <= j)%nat → matched p u k → p !! k = Some c → (k <= r)%nat.
Proof.
  revert j. induction fuel as [|fuel IH]; intros j Hfuel Hj Hm Htable; cbn [fall].
  { assert (j = 0%nat) as -> by lia. split; [done|]. split; [done|]. split; [by right|]. intros k Hk _ _. exact Hk. }
  destruct (0 <? j)%nat eqn:Hpos; cbn [andb].
  2:{ apply Nat.ltb_ge in Hpos. assert (j = 0%nat) as -> by lia. split; [done|]. split; [done|]. split; [by right|]. intros k Hk _ _. exact Hk. }
  apply Nat.ltb_lt in Hpos. case_bool_decide as Hc; cbn [negb]; [split; [done|]; split; [done|]; split; [by left|done]|].
  pose proof (Htable j ltac:(lia)) as Hb. set (j' := nth (j - 1) prefix 0%nat) in *.
  pose proof (longest_border_lt p j j' ltac:(lia) Hb) as Hlt. destruct Hb as (Hj' & Hmj' & Hmax).
  destruct (IH j' ltac:(lia) Hj' (matched_longer _ _ _ _ Hm Hmj')) as (Hle & Hmr & Hr & Hbest).
  { intros i Hi. apply Htable. lia. }
  split; [lia|]. split; [done|]. split; [done|]. intros k Hk Hmk Hck. apply Hbest; [|done..].
  assert (k ≠ j) by congruence. apply Hmax; [lia|]. apply (matched_shorter _ u); [lia|done..].
Qed.

Lemma advance_spec p prefix u c j :
  longest p u j → table_ok p prefix j →
  let j' := advance prefix p c j in
  (j' <= length p)%nat ∧ matched p (u ++ [c]) j' ∧ ∀ k, (k <= length p)%nat → matched p (u ++ [c]) k → (k <= j')%nat.
Proof.
  intros (Hj & Hm & Hmax) Htable. unfold advance.
  destruct (fall_spec p prefix u c j j ltac:(lia) Hj Hm Htable) as (Hle & Hmr & Hr & Hbest).
  set (r := fall j prefix p c j) in *. clearbody r.
  assert (Hcand : ∀ k, (k <= length p)%nat → matched p (u ++ [c]) k → (k <= if bool_decide (p !! r = Some c) then S r else r)%nat).
  { intros k Hk Hmk. destruct k as [|k]; [case_bool_decide; lia|]. apply matched_snoc in Hmk as [Hmk Hck]; [|lia].
    pose proof (Hbest k (Hmax k ltac:(lia) Hmk) Hmk Hck). case_bool_decide as Hrc; [lia|].
    destruct Hr as [? | ->]; [done|]. assert (k = 0%nat) as -> by lia. done. }
  case_bool_decide as Hrc; (split; [lia|]); (split; [|exact Hcand]).
  - by apply matched_snoc; [lia|].
  - destruct Hr as [? | ->]; [done|]. apply suffix_nil.
Qed.

Lemma longest_strict p u j :
  (j < length p)%nat → matched p u j → (∀ k, (k <= length p)%nat → matched p u k → (k <= j)%nat) → longest p u j.
Proof. intros Hj Hm Hmax. split; [done|]. split; [done|]. intros k Hk. apply Hmax. lia. Qed.

Lemma prefix_loop_ok n i j p prefix :
  (n + i = length p)%nat → (0 < i)%nat → length prefix = length p →
  longest p (drop 1 (take i p)) j → table_ok p prefix i →
  table_ok p (prefix_loop n i j p prefix) (length p).
Proof.
  revert i j prefix. induction n as [|n IH]; intros i j prefix Hlen Hi Hprefix Hj Htable; cbn [prefix_loop].
  { by replace (length p) with i by lia. }
  destruct (lookup_lt_is_Some_2 p i ltac:(lia)) as [c Hc]. rewrite Hc.
  pose proof (longest_border_lt p i j ltac:(lia) Hj) as Hji.
  destruct (advance_spec p prefix _ c j Hj) as (Hle & Hm & Hmax); [intros k Hk; apply Htable; lia|].
  set (j' := advance prefix p c j) in *. clearbody j'.
  assert (Hsnoc : drop 1 (take i p) ++ [c] = drop 1 (take (S i) p)).
  { rewrite (take_S_r _ _ _ Hc), drop_app_le; [done|]. rewrite length_take. lia. }
  rewrite Hsnoc in Hm, Hmax.
  assert (Hj' : longest p (drop 1 (take (S i) p)) j').
  { apply longest_strict; [|done..]. apply matched_length in Hm; [|done].
    rewrite length_drop, length_take in Hm. lia. }
  apply IH; [lia|lia|by rewrite length_insert|done|].
  intros k Hk. destruct (decide (k = S i)) as [->|Hne].
  - replace (S i - 1)%nat with i by lia. rewrite (nth_lookup_Some _ _ _ j'); [done|].
    apply list_lookup_insert_eq. lia.
  - rewrite nth_lookup, list_lookup_insert_ne by lia. rewrite <- nth_lookup. apply Htable. lia.
Qed.

Lemma prefix_table_ok p : (0 < length p)%nat → table_ok p (prefix_table p) (length p).
Proof.
  intros Hp. unfold prefix_table. assert (Hnil : drop 1 (take 1 p) = []) by (by destruct p).
  assert (H0 : longest p (drop 1 (take 1 p)) 0).
  { split; [done|]. split; [apply suffix_nil|]. intros k Hk Hm. apply matched_length in Hm; [|lia].
    rewrite Hnil in Hm. exact Hm. }
  apply prefix_loop_ok; [lia|lia|apply length_replicate|done|].
  intros j Hj. assert (j = 1%nat) as -> by lia. by destruct p.
Qed.

(** The pattern occurs at position [s]. *)
Definition occurs p u (s : nat) : Prop := take (length p) (drop s u) = p.

Lemma occurs_bound p u s : (0 < length p)%nat → occurs p u s → (s + length p <= length u)%nat.
Proof. intros Hp Ho. apply (f_equal length) in Ho. rewrite length_take, length_drop in Ho. lia. Qed.

(** A complete match at the end of what was read is an occurrence. *)
Lemma matched_occurs p u i :
  (i <= length u)%nat →
  matched p (take i u) (length p) ↔ (length p <= i)%nat ∧ occurs p u (i - length p).
Proof.
  intros Hi. unfold matched, occurs. rewrite firstn_all. split.
  - intros [v Hv]. assert (Hl : (length v + length p = i)%nat).
    { apply (f_equal length) in Hv. rewrite length_app, length_take in Hv. lia. }
    split; [lia|]. replace (i - length p)%nat with (length v) by lia.
    apply (f_equal (drop (length v))) in Hv. rewrite drop_app_length in Hv.
    rewrite <- Hv at 2. rewrite skipn_firstn_comm. f_equal. lia.
  - intros [Hl Ho]. exists (take (i - length p) u). rewrite <- Ho at 2.
    rewrite <- (take_drop (i - length p) (take i u)) at 1. rewrite take_take, Nat.min_l by lia. f_equal.
    rewrite skipn_firstn_comm. f_equal. lia.
Qed.
End KmpFacts.

(** ** The lines of a file *)

(** The bytes up to and including each line feed, and what follows the last. *)
Fixpoint segments (raw : bytes) : list bytes :=
  match raw with
  | [] => []
  | b :: raw =>
    if bool_decide (b = LF) then [b] :: segments raw
    else match segments raw with [] => [[b]] | s :: ss => (b :: s) :: ss end
  end.

Fixpoint offsets (start : nat) (ss : list bytes) : list nat :=
  start :: match ss with [] => [] | s :: ss => offsets (start + length s) ss end.

Lemma concat_segments raw : concat (segments raw) = raw.
Proof.
  induction raw as [|b raw IH]; [done|]. cbn [segments]. case_bool_decide; cbn; [by rewrite IH|].
  destruct (segments raw) as [|s ss]; cbn in *; by rewrite <- IH.
Qed.

Lemma segments_nil raw : segments raw = [] → raw = [].
Proof. intros H. by rewrite <- (concat_segments raw), H. Qed.

Lemma length_offsets start ss : length (offsets start ss) = S (length ss).
Proof. revert start. induction ss as [|s ss IH]; intros start; [done|]. cbn. by rewrite IH. Qed.

Lemma nth_offsets start ss i :
  (i <= length ss)%nat → nth i (offsets start ss) 0%nat = (start + length (concat (take i ss)))%nat.
Proof.
  revert start i. induction ss as [|s ss IH]; intros start i Hi.
  - cbn in Hi. assert (i = 0%nat) as -> by lia. cbn. lia.
  - destruct i as [|i]; [cbn; lia|]. cbn [offsets nth take concat]. rewrite IH by (cbn in Hi; lia).
    rewrite length_app. lia.
Qed.

Lemma last_offset start ss : last (offsets start ss) = Some (start + length (concat ss))%nat.
Proof.
  revert start. induction ss as [|s ss IH]; intros start; cbn; [by rewrite Nat.add_0_r|].
  rewrite length_app, Nat.add_assoc, <- IH. by destruct ss.
Qed.

Lemma index_loop_spec i len starts raw n starts' n' :
  (i + length raw = len)%nat →
  index_loop i len starts raw n = (Ok starts', n') →
  starts' ++ (if is_nil raw then [] else [len]) = starts ++ tl (offsets i (segments raw)).
Proof.
  revert i starts n. induction raw as [|b raw IH]; intros i starts n Hlen Hrun.
  { injection Hrun as <- <-. done. }
  cbn [index_loop] in Hrun. unfold mbind, Cancellable_bind in Hrun.
  destruct ((if _ =? 0 then ctx_err else mret tt) n) as [[[]|e] n1]; [|done].
  apply IH in Hrun; [|cbn in Hlen; lia]. cbn [is_nil segments].
  destruct (raw) as [|b' raw']; [cbn in Hlen; rewrite (proj2 (Nat.ltb_ge _ _)) in Hrun by lia; rewrite andb_false_r in Hrun;
    rewrite app_nil_r in Hrun; cbn in Hrun; rewrite app_nil_r in Hrun; subst starts'; case_bool_decide; cbn; do 2 f_equal; lia|].
  cbn [length] in Hlen. rewrite (proj2 (Nat.ltb_lt _ _)), andb_true_r in Hrun by lia. cbn [is_nil] in Hrun.
  rewrite Hrun. case_bool_decide as Hb.
  - rewrite <- app_assoc. cbn [offsets tl length app]. rewrite Nat.add_1_r. f_equal.
    destruct (segments (b' :: raw')); reflexivity.
  - destruct (segments (b' :: raw')) as [|s ss] eqn:Hs; [by apply segments_nil in Hs|].
    cbn [offsets tl length]. do 2 f_equal. lia.
Qed.

(** Indexing finds the segments. *)
Lemma index_spec raw n l n' :
  indexCompleteDiffLines raw n = (Ok l, n') → l = mkLines raw (offsets 0 (segments raw)).
Proof.
  unfold indexCompleteDiffLines, mbind, Cancellable_bind. intros Hrun.
  destruct (index_loop 0 (length raw) [0%nat] raw n) as [[starts|e] n1] eqn:Hloop; [|done].
  apply index_loop_spec in Hloop; [|done]. destruct (ctx_err n1) as [[[]|e] n2]; [|done].
  injection Hrun as <- _. f_equal.
  assert (Hstarts : (if is_nil raw then starts else starts ++ [length raw]) = [0%nat] ++ tl (offsets 0 (segments raw))).
  { rewrite <- Hloop. destruct (is_nil raw); [by rewrite app_nil_r|done]. }
  rewrite Hstarts. by destruct (segments raw).
Qed.

Definition lines_of (raw : bytes) : completeDiffLines := mkLines raw (offsets 0 (segments raw)).

Lemma line_count_of raw : line_count (lines_of raw) = length (segments raw).
Proof. unfold line_count. cbn. rewrite length_offsets. lia. Qed.

Lemma line_of raw i : (i < length (segments raw))%nat → line (lines_of raw) i = nth i (segments raw) [].
Proof.
  intros Hi. unfold line. cbn. rewrite !nth_offsets by lia. cbn.
  destruct (lookup_lt_is_Some_2 _ _ Hi) as [s Hs]. rewrite (nth_lookup_Some _ _ _ _ Hs).
  rewrite (take_S_r _ _ _ Hs), concat_app, length_app. cbn. rewrite app_nil_r.
  replace (length (concat (take i (segments raw))) + length s - length (concat (take i (segments raw))))%nat
    with (length s) by lia.
  rewrite <- (concat_segments raw) at 2. rewrite <- (take_drop_middle _ _ _ Hs) at 2.
  by rewrite concat_app, drop_app_length, concat_cons, take_app_length.
Qed.

(** The file as the search sees it. *)
Definition logical_lines (raw : bytes) : list bytes := patchLogicalLine <$> segments raw.

Lemma logical_line raw i :
  (i < length (segments raw))%nat → logical_lines raw !! i = Some (patchLogicalLine (line (lines_of raw) i)).
Proof.
  intros Hi. unfold logical_lines. destruct (lookup_lt_is_Some_2 _ _ Hi) as [s Hs].
  by rewrite list_lookup_fmap, Hs, line_of, (nth_lookup_Some _ _ _ _ Hs).
Qed.

(** ** Placing a hunk *)

(** What is known of the occurrences that end within the first [i] lines. *)
Definition found_ok (p u : list bytes) (i : nat) (found : option nat) : Prop :=
  match found with
  | None => ∀ s, (s + length p <= i)%nat → ¬ occurs p u s
  | Some s => (s + length p <= i)%nat ∧ occurs p u s ∧ ∀ s', (s' + length p <= i)%nat → occurs p u s' → s' = s
  end.

Definition twice (p u : list bytes) : Prop := ∃ s s', s ≠ s' ∧ occurs p u s ∧ occurs p u s'.

(** How the search may end, over [n] lines and with [k] checks of the context left. *)
Definition search_result (p u : list bytes) (n k : nat) (res : result error (option nat)) : Prop :=
  match res with
  | Ok found => (n <= k)%nat ∧ found_ok p u (length u) found
  | Err ContextDone => (k < n)%nat
  | Err (OperationError code _) => code = CodeReplacementNotUnique ∧ twice p u
  end.

Lemma search_result_S p u n k res : search_result p u n k res → search_result p u (S n) (S k) res.
Proof. destruct res as [found|[code message|]]; cbn; [intros [? ?]; split; [lia|done]|done|lia]. Qed.

Lemma search_loop_spec raw p n i j found k :
  let u := logical_lines raw in
  (n + i = length (segments raw))%nat → (0 < length p)%nat →
  longest p (take i u) j → found_ok p u i found →
  search_result p u n k (search_loop n i j found (prefix_table p) p (lines_of raw) k).1.
Proof.
  intros u Hn Hp. assert (Hu : length u = length (segments raw)) by (unfold u, logical_lines; by rewrite length_fmap).
  pose proof (prefix_table_ok p Hp) as Htable. revert i j found k Hn.
  induction n as [|n IH]; intros i j found k Hn Hj Hfound; cbn [search_loop].
  { cbn. replace (length u) with i by lia. split; [lia|done]. }
  unfold mbind, Cancellable_bind, ctx_err. destruct k as [|k]; [cbn [fst search_result]; lia|].
  pose proof (logical_line raw i ltac:(lia)) as Hline. fold u in Hline.
  set (c := patchLogicalLine (line (lines_of raw) i)) in *. clearbody c.
  destruct (advance_spec p (prefix_table p) _ c j Hj) as (Hle & Hm & Hmax).
  { destruct Hj as (Hj & _). intros j1 Hj1. apply Htable. lia. }
  rewrite <- (take_S_r _ _ _ Hline) in Hm, Hmax. set (j' := advance (prefix_table p) p c j) in *. clearbody j'.
  assert (Hnext : ∀ s, (s + length p <= S i)%nat → occurs p u s →
            (s + length p <= i)%nat ∨ s = (S i - length p)%nat ∧ j' = length p).
  { intros s Hs Ho. destruct (decide (s + length p = S i)%nat) as [Heq|]; [right|left; lia].
    split; [lia|]. assert (Hfull : matched p (take (S i) u) (length p)).
    { apply matched_occurs; [lia|]. split; [lia|]. by replace (S i - length p)%nat with s by lia. }
    pose proof (Hmax _ (le_n _) Hfull). lia. }
  destruct (Nat.eqb_spec j' (length p)) as [->|Hne].
  - pose proof Hm as Hocc. apply matched_occurs in Hocc as [Hmi Hocc]; [|lia].
    destruct found as [s|].
    + destruct Hfound as (Hs & Hos & _). split; [done|]. exists s, (S i - length p)%nat.
      split; [lia|]. split; [done|exact Hocc].
    + replace (i + 1 - length p)%nat with (S i - length p)%nat by lia. apply search_result_S, IH; [lia| |].
      * destruct (Htable (length p) ltac:(lia)) as (Hb & Hmb & Hbmax). rewrite firstn_all in Hmb, Hbmax.
        assert (Hfull : matched p (take (S i) u) (length p)) by done. split; [done|]. split.
        -- apply (matched_longer p _ (length p)); [done|]. by rewrite firstn_all.
        -- intros k' Hk' Hmk. apply Hbmax; [done|].
           pose proof (matched_shorter p _ (length p) k' ltac:(lia) Hfull Hmk) as Hsh. by rewrite firstn_all in Hsh.
      * split; [lia|]. split; [exact Hocc|]. intros s' Hs' Ho'.
        destruct (Hnext s' Hs' Ho') as [Hold|[-> _]]; [|done]. by destruct (Hfound s' Hold).
  - apply search_result_S, IH; [lia| |].
    + apply longest_strict; [lia|done|done].
    + assert (Hold : ∀ s, (s + length p <= S i)%nat → occurs p u s → (s + length p <= i)%nat).
      { intros s Hs Ho. by destruct (Hnext s Hs Ho) as [|[_ ?]]. }
      destruct found as [s|]; cbn in Hfound |- *.
      * destruct Hfound as (Hs & Hos & Huniq). split; [lia|]. split; [done|]. intros s' Hs' Ho'. auto.
      * intros s Hs Ho. by apply (Hfound s (Hold s Hs Ho)).
Qed.

Lemma eof_loop_spec raw i old k :
  (i + length old <= length (segments raw))%nat →
  match (eof_loop i old (lines_of raw) k).1 with
  | Ok matched => matched = bool_decide (take (length old) (drop i (logical_lines raw)) = old)
  | Err err => err = ContextDone ∧ (k < length old)%nat
  end.
Proof.
  revert i k. induction old as [|want old IH]; intros i k Hi; [done|]. cbn [eof_loop length] in *.
  unfold mbind, Cancellable_bind, ctx_err. destruct k as [|k]; [split; [done|lia]|].
  rewrite (drop_S _ _ _ (logical_line raw i ltac:(lia))). cbn [take].
  case_decide as Hw.
  - specialize (IH (S i) k ltac:(lia)). destruct (eof_loop (S i) old (lines_of raw) k) as [[m|e] k']; cbn in *.
    + subst m. apply bool_decide_ext. rewrite Hw. split; [by intros ->|by intros [= ->]].
    + destruct IH as [-> ?]. split; [done|lia].
  - cbn. symmetry. apply bool_decide_eq_false. intros Heq. by injection Heq as Hw' _.
Qed.

(** Where a hunk goes, and why it may go nowhere, with [k] checks of the context
    left. *)
Definition placement (raw : bytes) (hunk : patchHunk) (k : nat) (res : result error (nat * nat)) : Prop :=
  let old := old_lines hunk in
  let u := logical_lines raw in
  match res with
  | Ok (start, stop) =>
      stop = (start + length old)%nat ∧ occurs old u start ∧ (stop <= length u)%nat
      ∧ (hunk_eof hunk = true → stop = length u)
      ∧ (hunk_eof hunk = false → old ≠ [] ∧ ∀ s, occurs old u s → s = start)
  | Err ContextDone => (k < length u)%nat
  | Err (OperationError code _) =>
      code = CodeReplacementMissing ∧ old ≠ []
        ∧ (if hunk_eof hunk then ∀ s, (s + length old)%nat = length u → ¬ occurs old u s else ∀ s, ¬ occurs old u s)
      ∨ code = CodeReplacementNotUnique ∧ hunk_eof hunk = false ∧ twice old u
      ∨ code = CodeInvalidPatch ∧ hunk_eof hunk = false ∧ old = []
  end.

Lemma matchPatchHunk_placement raw hunk k : placement raw hunk k (matchPatchHunk (lines_of raw) hunk k).1.
Proof.
  unfold placement. set (old := old_lines hunk). set (u := logical_lines raw). assert (Hu : length u = length (segments raw)) by (unfold u, logical_lines; by rewrite length_fmap).
  unfold matchPatchHunk. fold old. rewrite line_count_of, <- Hu. destruct (is_nil old) eqn:Hnil.
  { apply is_nil_true in Hnil. destruct (hunk_eof hunk); cbn.
    - rewrite Hnil. cbn. rewrite Nat.add_0_r. split; [done|]. split; [by unfold occurs|]. split; [lia|done].
    - right. right. done. }
  apply is_nil_false in Hnil. assert (Hp : (0 < length old)%nat) by (destruct old; [done|cbn; lia]).
  destruct (hunk_eof hunk) eqn:Heof.
  - destruct (Nat.leb_spec (length old) (length u)) as [Hle|Hgt].
    + pose proof (eof_loop_spec raw (length u - length old) old k ltac:(lia)) as Hloop.
      unfold mbind, Cancellable_bind.
      destruct (eof_loop (length u - length old) old (lines_of raw) k) as [[m|e] k']; cbn [fst] in Hloop |- *.
      * fold u in Hloop. subst m. case_bool_decide as Ho; cbn.
        -- split; [lia|]. split; [done|]. split; [lia|done].
        -- left. split; [done|]. split; [done|]. intros s Hs Hos. apply Ho.
           by replace (length u - length old)%nat with s by lia.
      * destruct Hloop as [-> Hk]. lia.
    + cbn. left. split; [done|]. split; [done|]. intros s Hs. lia.
  - assert (H0 : longest old (take 0 u) 0).
    { split; [done|]. split; [apply suffix_nil|]. intros j Hj Hm. by apply matched_length in Hm; [|lia]. }
    assert (Hf : found_ok old u 0 None) by (intros s Hs; lia).
    pose proof (search_loop_spec raw old (length u) 0 0 None k ltac:(lia) Hp H0 Hf) as Hsearch. fold u in Hsearch.
    unfold mbind, Cancellable_bind.
    destruct (search_loop _ _ _ _ _ _ _ k) as [[[s|]|[code message|]] k']; cbn [fst search_result] in Hsearch |- *.
    + destruct Hsearch as (_ & Hs & Hos & Huniq). cbn. split; [done|]. split; [done|].
      split; [by apply occurs_bound|]. split; [done|]. intros _. split; [done|]. intros s' Hos'. apply Huniq; [|done]. by apply occurs_bound.
    + destruct Hsearch as (_ & Hnone). cbn. left. split; [done|]. split; [done|]. intros s Hos.
      apply (Hnone s); [by apply occurs_bound|done].
    + right. left. destruct Hsearch as [-> Htwice]. done.
    + done.
Qed.

(** C18. A hunk is placed exactly where its old side is: a hunk that is not anchored
    to the end of the file goes to the one place where its old lines occur, is
    refused as missing when there is none and as ambiguous when there are two; a
    hunk anchored to the end goes to the last lines, which must be its old lines.
    The search is linear but finds what a comparison at every line would find, line
    feeds and a carriage return before them aside. Only a cancelled context cuts it
    short, and never when it lasts for one check per line. *)
Theorem matchPatchHunk_unique (raw : bytes) (hunk : patchHunk) (k : nat) :
  let old := old_lines hunk in
  let u := logical_lines raw in
  match (matchPatchHunk (lines_of raw) hunk k).1 with
  | Ok (start, stop) =>
      stop = (start + length old)%nat ∧ occurs old u start ∧ (stop <= length u)%nat
      ∧ (hunk_eof hunk = true → stop = length u)
      ∧ (hunk_eof hunk = false → old ≠ [] ∧ ∀ s, occurs old u s → s = start)
  | Err ContextDone => (k < length u)%nat
  | Err (OperationError code _) =>
      code = CodeReplacementMissing ∧ old ≠ []
        ∧ (if hunk_eof hunk then ∀ s, (s + length old)%nat = length u → ¬ occurs old u s else ∀ s, ¬ occurs old u s)
      ∨ code = CodeReplacementNotUnique ∧ hunk_eof hunk = false ∧ twice old u
      ∨ code = CodeInvalidPatch ∧ hunk_eof hunk = false ∧ old = []
  end.
Proof. exact (matchPatchHunk_placement raw hunk k). Qed.
