(* ===== verification/PatchParse.v ===== *)
(** * The patch language

    [clients/cli-go/internal/workspace/patch_parse.go] and the path rules of
    [path.go]: the parser of patches, and the check that the files of a patch are
    distinct paths inside the workspace with the versions they replace. The Unicode
    tables the path rules consult are parameters, as in GoStd. *)
From S2P Require Import Prelude GoStd Bytes PatchMatch.

Record patchFile := mkFile {
  file_action : string;
  file_path : bytes;
  file_added : list bytes;
  file_hunks : list patchHunk;
}.

Definition MaxPatchFiles : nat := 16.

(** ** Lines *)

(** The lines for which a loop goes on, and the rest. *)
Fixpoint span {A} (f : A → bool) (l : list A) : list A * list A :=
  match l with
  | [] => ([], [])
  | x :: l' => if f x then let (taken, rest) := span f l' in (x :: taken, rest) else ([], l)
  end.

(** ** The parser *)
Definition begin_line : bytes := to_bytes "*** Begin Patch".
Definition end_line : bytes := to_bytes "*** End Patch".
Definition hunk_line : bytes := to_bytes "@@".
Definition eof_line : bytes := to_bytes "*** End of File".
Definition no_newline_line : bytes := to_bytes "\ No newline at end of file".
Definition action_prefix (action : string) : bytes := to_bytes ("*** " +:+ action +:+ " File: ").

Fixpoint parse_header (actions : list string) (l : bytes) : option (string * bytes) :=
  match actions with
  | [] => None
  | action :: actions =>
    match cut_prefix (action_prefix action) l with
    | Some path => Some (action, path)
    | None => parse_header actions l
    end
  end.

Definition added_line (l : bytes) : bool := has_prefix [plus] l.
Definition body_line (l : bytes) : bool :=
  match l with [] => false | b :: _ => bool_decide (b ∈ [space; plus; minus]) end.
Definition changes (l : bytes) : bool := negb (is_marker space l).

(** The hunks of an update; [n] bounds the number of lines left. *)
Fixpoint parse_hunks (n : nat) (rest : list bytes) : result error (list patchHunk * list bytes) :=
  match n, rest with
  | S n, l :: rest' =>
    if has_prefix hunk_line l then
      _ ← fail_if (negb (bool_decide (l = hunk_line))) (invalidPatch "只支持裸 @@，不支持附加行号或模糊定位语法");
      let (lines, rest) := span body_line rest' in
      let (eof, rest) := match rest with
                         | l :: rest' => if decide (l = eof_line) then (true, rest') else (false, rest)
                         | [] => (false, rest)
                         end in
      _ ← fail_if (negb (existsb changes lines)) (invalidPatch "每个 hunk 必须包含新增或删除正文");
      _ ← fail_if (eof && match rest with l :: _ => has_prefix hunk_line l | [] => false end)
            (invalidPatch "EOF hunk 必须是该文件最后一个 hunk");
      '(hunks, rest) ← parse_hunks n rest;
      Ok (mkHunk lines eof :: hunks, rest)
    else Ok ([], rest)
  | _, _ => Ok ([], rest)
  end.

(** The content of a file, after its header. *)
Definition parse_content (action : string) (path : bytes) (rest : list bytes) : result error (patchFile * list bytes) :=
  if decide (action = "Add") then
    let (added, rest) := span added_line rest in Ok (mkFile action path (tl <$> added) [], rest)
  else if decide (action = "Update") then
    '(hunks, rest) ← parse_hunks (length rest) rest;
    _ ← fail_if (is_nil hunks) (invalidPatch "Update File 至少需要一个裸 @@ hunk");
    Ok (mkFile action path [] hunks, rest)
  else Ok (mkFile action path [] [], rest).

(** The files among the lines between the first and the last, [count] of them before. *)
Fixpoint parse_files (n count : nat) (rest : list bytes) : result error (list patchFile) :=
  match n, rest with
  | S n, l :: rest =>
    match parse_header ["Add"; "Update"; "Delete"] l with
    | None => Err (invalidPatch "只支持 Add/Update/Delete File；不支持 Move to、二进制或 Git 指令")
    | Some (action, path) =>
      '(file, rest) ← parse_content action path rest;
      _ ← fail_if (match rest with l :: _ => bool_decide (l = no_newline_line) | [] => false end)
            (invalidPatch "输入不支持 No newline 标记；更新自动保留原文件的末尾换行约定");
      _ ← fail_if (MaxPatchFiles <? S count)%nat (invalidPatch "每个补丁最多包含 16 个文件");
      files ← parse_files n (S count) rest;
      Ok (file :: files)
    end
  | _, _ => Ok []
  end.

Definition parsePatch (text : bytes) : result error (list patchFile) :=
  let text := replace_crlf text in
  _ ← fail_if (bool_decide (CR ∈ text)) (invalidPatch "补丁只支持 LF 或 CRLF 行分隔符");
  let lines := split_at LF (trim_last LF text) in
  _ ← fail_if ((length lines <? 3)%nat || negb (bool_decide (head lines = Some begin_line))
               || negb (bool_decide (last lines = Some end_line)))
        (invalidPatch "补丁必须由 Begin Patch / End Patch 完整包围，不能附带其他指令");
  let middle := removelast (tl lines) in
  parse_files (length middle) 0 middle.

(** ** The grammar *)
Definition print_hunk (h : patchHunk) : list bytes :=
  hunk_line :: hunk_lines h ++ (if hunk_eof h then [eof_line] else []).

Definition print_file (f : patchFile) : list bytes :=
  (action_prefix (file_action f) ++ file_path f)
    :: (cons plus <$> file_added f) ++ concat (print_hunk <$> file_hunks f).

Definition unlines (ls : list bytes) : bytes := concat ((fun l => l ++ [LF]) <$> ls).

Definition print_patch (files : list patchFile) : bytes :=
  unlines (begin_line :: concat (print_file <$> files) ++ [end_line]).

(** A hunk changes something, and only the last may be anchored to the end. *)
Definition hunk_ok (h : patchHunk) : Prop :=
  Forall (fun l => body_line l = true) (hunk_lines h) ∧ existsb changes (hunk_lines h) = true.

Fixpoint hunks_ok (hs : list patchHunk) : Prop :=
  match hs with
  | [] => True
  | h :: hs => hunk_ok h ∧ (hunk_eof h = true → hs = []) ∧ hunks_ok hs
  end.

Definition shape_ok (f : patchFile) : Prop :=
  match file_action f with
  | "Add" => file_hunks f = []
  | "Update" => file_added f = [] ∧ file_hunks f ≠ [] ∧ hunks_ok (file_hunks f)
  | "Delete" => file_added f = [] ∧ file_hunks f = []
  | _ => False
  end.

Definition plain (l : bytes) : Prop := LF ∉ l ∧ CR ∉ l.
Definition file_ok (f : patchFile) : Prop := shape_ok f ∧ Forall plain (print_file f).

(** ** Soundness: what is accepted is in the grammar *)
Lemma span_spec {A} (f : A → bool) l taken rest :
  span f l = (taken, rest) → l = taken ++ rest ∧ Forall (fun x => f x = true) taken.
Proof.
  revert taken rest. induction l as [|x l IH]; cbn; intros taken rest; [intros [= <- <-]; by split|].
  destruct (f x) eqn:Hx; [|intros [= <- <-]; by split].
  destruct (span f l) as [t r] eqn:Hspan. intros [= <- <-]. destruct (IH _ _ eq_refl) as [-> Ht].
  split; [done|by constructor].
Qed.

Lemma parse_header_Some actions l action path :
  parse_header actions l = Some (action, path) → action ∈ actions ∧ l = action_prefix action ++ path.
Proof.
  induction actions as [|a actions IH]; cbn; [done|].
  destruct (cut_prefix (action_prefix a) l) as [p|] eqn:Hcut.
  - intros [= <- <-]. apply cut_prefix_Some in Hcut. split; [by left|done].
  - intros H. apply IH in H as [? ?]. split; [by right|done].
Qed.

Lemma parse_hunks_nohunk n l rest : has_prefix hunk_line l = false → parse_hunks n (l :: rest) = Ok ([], l :: rest).
Proof. intros H. destruct n; cbn [parse_hunks]; [done|by rewrite H]. Qed.

Lemma parse_hunks_nil n : parse_hunks n [] = Ok ([], []).
Proof. by destruct n. Qed.

Lemma parse_hunks_sound n rest hunks rest' :
  parse_hunks n rest = Ok (hunks, rest') → rest = concat (print_hunk <$> hunks) ++ rest' ∧ hunks_ok hunks.
Proof.
  revert rest hunks rest'. induction n as [|n IH]; intros rest hunks rest'; cbn [parse_hunks]; [by intros [= <- <-]|].
  destruct rest as [|l rest]; [by intros [= <- <-]|]. destruct (has_prefix hunk_line l); [|by intros [= <- <-]].
  rewrite guard_Ok, negb_false_iff, bool_decide_eq_true. intros [-> Hrun].
  destruct (span body_line rest) as [lines rest1] eqn:Hspan. apply span_spec in Hspan as [-> Hbody].
  assert (∃ eof rest2, (match rest1 with l :: r => if decide (l = eof_line) then (true, r) else (false, rest1) | [] => (false, rest1) end)
            = (eof, rest2) ∧ rest1 = (if eof then [eof_line] else []) ++ rest2) as (eof & rest2 & Heq & Hrest1).
  { destruct rest1 as [|l r]; [by exists false, []|]. case_decide as Hl; [exists true, r|exists false, (l :: r)]; by subst. }
  rewrite Heq in Hrun. rewrite !guard_Ok in Hrun. destruct Hrun as (Hch & Hnext & Hrun). apply negb_false_iff in Hch.
  apply bind_Ok in Hrun as ([hunks1 rest3] & Hrec & Hrun). injection Hrun as <- <-.
  pose proof (IH _ _ _ Hrec) as [Hrest2 Hok]. split.
  - rewrite Hrest1, Hrest2, fmap_cons, concat_cons. unfold print_hunk at 2. cbn [hunk_lines hunk_eof].
    rewrite <- !app_assoc. cbn [app]. by rewrite <- !app_assoc.
  - split; [by split|]. split; [|done]. intros Heof. cbn in Heof. subst eof. cbn [andb] in Hnext.
    destruct rest2 as [|l r]; [rewrite parse_hunks_nil in Hrec|rewrite parse_hunks_nohunk in Hrec by done]; by injection Hrec.
Qed.

Lemma added_lines ls : Forall (fun l => added_line l = true) ls → cons plus <$> (tl <$> ls) = ls.
Proof.
  induction 1 as [|l ls Hl _ IH]; [done|]. rewrite !fmap_cons, IH. f_equal. unfold added_line, has_prefix in Hl.
  destruct (cut_prefix [plus] l) as [r|] eqn:Hcut; [|done]. by apply cut_prefix_Some in Hcut as ->.
Qed.

Lemma parse_content_sound action path rest f rest' :
  action ∈ ["Add"; "Update"; "Delete"] → parse_content action path rest = Ok (f, rest') →
  (action_prefix action ++ path) :: rest = print_file f ++ rest' ∧ shape_ok f.
Proof.
  intros Ha. unfold parse_content. case_decide as Hadd; [|case_decide as Hupd].
  - subst action. destruct (span added_line rest) as [added rest1] eqn:Hspan. intros [= <- <-].
    apply span_spec in Hspan as [-> Hall]. unfold print_file. cbn [file_action file_path file_added file_hunks].
    rewrite added_lines by done. cbn. rewrite app_nil_r. done.
  - subst action. rewrite bind_Ok. intros ([hunks rest1] & Hhunks & Hrun). apply guard_Ok in Hrun as [Hne [= <- <-]].
    apply is_nil_false in Hne. apply parse_hunks_sound in Hhunks as [-> Hok]. done.
  - intros [= <- <-]. apply elem_of_cons in Ha as [?|Ha]; [done|]. apply elem_of_cons in Ha as [?|Ha]; [done|].
    apply list_elem_of_singleton in Ha as ->. done.
Qed.

Lemma parse_files_sound n count rest files :
  (length rest <= n)%nat → (count <= MaxPatchFiles)%nat → parse_files n count rest = Ok files →
  rest = concat (print_file <$> files) ∧ Forall shape_ok files ∧ (count + length files <= MaxPatchFiles)%nat.
Proof.
  revert count rest files. induction n as [|n IH]; intros count rest files Hn Hc; cbn [parse_files].
  { destruct rest; [|cbn in Hn; lia]. intros [= <-]. split; [done|]. split; [constructor|]. cbn. lia. }
  destruct rest as [|l rest]; [intros [= <-]; split; [done|]; split; [constructor|]; cbn; lia|].
  destruct (parse_header _ l) as [[action path]|] eqn:Hhead; [|done]. apply parse_header_Some in Hhead as [Ha ->].
  rewrite bind_Ok. intros ([f rest1] & Hcontent & Hrun). rewrite !guard_Ok in Hrun. destruct Hrun as (_ & Hmax & Hrun).
  apply Nat.ltb_ge in Hmax. apply bind_Ok in Hrun as (files1 & Hrec & [= <-]).
  apply parse_content_sound in Hcontent as [Hprint Hshape]; [|done].
  assert (Hlen : (length rest1 <= n)%nat).
  { apply (f_equal length) in Hprint. rewrite length_app in Hprint. unfold print_file in Hprint. cbn in Hprint, Hn. lia. }
  destruct (IH _ _ _ Hlen Hmax Hrec) as (-> & Hall & Hcount). rewrite fmap_cons, concat_cons. cbn [length].
  split; [done|]. split; [by constructor|]. lia.
Qed.

(** ** Completeness: the grammar is accepted *)

(** What may follow a file: nothing or a header. *)
Definition stops (rest : list bytes) : Prop :=
  match rest with
  | [] => True
  | l :: _ => ∃ action path, action ∈ ["Add"; "Update"; "Delete"] ∧ l = action_prefix action ++ path
  end.

Lemma header_line action path :
  action ∈ ["Add"; "Update"; "Delete"] →
  let l := action_prefix action ++ path in
  parse_header ["Add"; "Update"; "Delete"] l = Some (action, path)
  ∧ body_line l = false ∧ has_prefix hunk_line l = false ∧ l ≠ eof_line ∧ l ≠ no_newline_line ∧ added_line l = false.
Proof.
  rewrite !elem_of_cons, elem_of_nil. intros [->|[->|[->|[]]]]; repeat split; try done;
    unfold parse_header, cut_prefix; repeat (case_decide as Hd; [|try done]); try discriminate Hd; by rewrite ?drop_app_length.
Qed.

Lemma span_app {A} (f : A → bool) taken rest :
  Forall (fun x => f x = true) taken → match rest with x :: _ => f x = false | [] => True end →
  span f (taken ++ rest) = (taken, rest).
Proof.
  intros Ht Hr. induction Ht as [|x taken Hx _ IH]; cbn [app span].
  - destruct rest as [|x rest]; cbn; [done|by rewrite Hr].
  - by rewrite Hx, IH.
Qed.

Lemma stops_line rest : stops rest →
  match rest with l :: _ => body_line l = false ∧ has_prefix hunk_line l = false ∧ l ≠ eof_line | [] => True end.
Proof. destruct rest as [|l rest]; [done|]. intros (a & p & Ha & ->). destruct (header_line a p Ha) as (_ & ? & ? & ? & _). done. Qed.

Lemma parse_hunks_complete n hunks rest :
  hunks_ok hunks → stops rest → (length (concat (print_hunk <$> hunks)) <= n)%nat →
  parse_hunks n (concat (print_hunk <$> hunks) ++ rest) = Ok (hunks, rest).
Proof.
  intros Hok Hstop. apply stops_line in Hstop. revert n. induction hunks as [|h hunks IH]; intros n Hn.
  { cbn. destruct rest as [|l rest]; [apply parse_hunks_nil|]. destruct Hstop as (_ & Hnh & _). by apply parse_hunks_nohunk. }
  destruct Hok as ([Hbody Hch] & Heof & Hok). destruct n as [|n]; [cbn in Hn; lia|].
  rewrite fmap_cons, concat_cons, length_app in Hn. unfold print_hunk at 1 in Hn. cbn [length] in Hn. rewrite length_app in Hn.
  specialize (IH Hok n ltac:(lia)). rewrite fmap_cons, concat_cons, <- app_assoc.
  set (more := concat (print_hunk <$> hunks) ++ rest) in *.
  assert (Hmore : match more with l :: _ => body_line l = false ∧ l ≠ eof_line | [] => True end).
  { unfold more. destruct hunks as [|h' hunks']; [|done]. cbn. destruct rest; [done|]. by destruct Hstop as (? & ? & ?). }
  assert (Hspan : span body_line (hunk_lines h ++ (if hunk_eof h then [eof_line] else []) ++ more)
            = (hunk_lines h, (if hunk_eof h then [eof_line] else []) ++ more)).
  { apply span_app; [done|]. destruct (hunk_eof h); [done|]. cbn. destruct more; [done|by destruct Hmore]. }
  unfold print_hunk. cbn [app parse_hunks]. change (has_prefix hunk_line hunk_line) with true. cbv iota.
  rewrite bool_decide_eq_true_2 by done. cbn [negb fail_if mbind result_bind].
  rewrite <- app_assoc, Hspan. destruct h as [lines eof]. cbn [hunk_lines hunk_eof] in *.
  assert (Hnext : eof && match more with l :: _ => has_prefix hunk_line l | [] => false end = false).
  { destruct eof; [|done]. unfold more. rewrite (Heof eq_refl). cbn. destruct rest; [done|]. by destruct Hstop as (_ & ? & _). }
  assert (Hsplit : match (if eof then [eof_line] else []) ++ more with
                   | l :: r => if decide (l = eof_line) then (true, r) else (false, (if eof then [eof_line] else []) ++ more)
                   | [] => (false, (if eof then [eof_line] else []) ++ more)
                   end = (eof, more)).
  { destruct eof; cbn [app]; [by rewrite decide_True|]. destruct more as [|l r]; [done|].
    rewrite decide_False; [done|]. by destruct Hmore. }
  rewrite Hsplit. cbv iota beta. rewrite Hch. cbn [negb fail_if mbind result_bind]. rewrite Hnext.
  cbn [fail_if mbind result_bind]. by rewrite IH.
Qed.

Lemma parse_content_complete f rest :
  shape_ok f → stops rest →
  parse_content (file_action f) (file_path f) (tl (print_file f) ++ rest) = Ok (f, rest)
  ∧ file_action f ∈ ["Add"; "Update"; "Delete"].
Proof.
  destruct f as [action path added hunks]. unfold shape_ok, parse_content, print_file.
  cbn [file_action file_path file_added file_hunks tl]. intros Hshape Hstop.
  assert (action ∈ ["Add"; "Update"; "Delete"]) as Ha.
  { repeat match goal with H : match ?s with _ => _ end |- _ => destruct s end; try done; set_solver. }
  split; [|done]. case_decide as Hadd; [|case_decide as Hupd].
  - subst action. cbn in Hshape. subst hunks. cbn [fmap list_fmap concat]. rewrite app_nil_r.
    rewrite span_app.
    + do 2 f_equal. rewrite <- list_fmap_compose. by rewrite list_fmap_id.
    + apply Forall_fmap. apply Forall_forall. intros x _. reflexivity.
    + destruct rest as [|l rest]; [done|]. destruct Hstop as (a & p & Hap & ->). by apply header_line.
  - subst action. cbn in Hshape. destruct Hshape as (-> & Hne & Hok). cbn [fmap list_fmap app].
    rewrite parse_hunks_complete; [|done|done|rewrite length_app; lia].
    cbn [mbind result_bind]. by destruct hunks.
  - apply elem_of_cons in Ha as [?|Ha]; [done|]. apply elem_of_cons in Ha as [?|Ha]; [done|].
    apply list_elem_of_singleton in Ha as ->. cbn in Hshape. by destruct Hshape as [-> ->].
Qed.

Lemma print_file_cons f : print_file f = (action_prefix (file_action f) ++ file_path f) :: tl (print_file f).
Proof. done. Qed.

Lemma stops_files files : Forall shape_ok files → stops (concat (print_file <$> files)).
Proof.
  destruct 1 as [|f files Hf _]; [done|]. rewrite fmap_cons, concat_cons, print_file_cons. cbn [app stops].
  exists (file_action f), (file_path f). split; [|done]. by destruct (parse_content_complete f [] Hf I) as [_ ?].
Qed.

Lemma parse_files_complete n count files :
  Forall shape_ok files → (length (concat (print_file <$> files)) <= n)%nat → (count + length files <= MaxPatchFiles)%nat →
  parse_files n count (concat (print_file <$> files)) = Ok files.
Proof.
  intros Hall. revert n count. induction Hall as [|f files Hf Hfiles IH]; intros n count Hn Hc; [by destruct n|].
  rewrite fmap_cons, concat_cons, print_file_cons in Hn |- *. cbn [app length] in Hn |- *. rewrite length_app in Hn.
  destruct n as [|n]; [lia|]. cbn [parse_files]. cbn [length] in Hc.
  pose proof (stops_files files Hfiles) as Hstop. destruct (parse_content_complete f _ Hf Hstop) as [Hcontent Ha].
  destruct (header_line (file_action f) (file_path f) Ha) as (-> & _). rewrite Hcontent.
  cbn [mbind result_bind].
  assert (match concat (print_file <$> files) with l :: _ => bool_decide (l = no_newline_line) | [] => false end = false) as ->.
  { destruct (concat (print_file <$> files)) as [|l r]; [done|]. destruct Hstop as (a & p & Hap & ->).
    apply bool_decide_eq_false_2. by apply header_line. }
  cbn [fail_if mbind result_bind]. rewrite (proj2 (Nat.ltb_ge _ _)) by lia. cbn [fail_if mbind result_bind].
  by rewrite IH by lia.
Qed.

(** ** Lines and text *)
Lemma split_at_plain l : LF ∉ l → split_at LF l = [l].
Proof.
  induction l as [|b l IH]; intros Hl; [done|]. apply not_elem_of_cons in Hl as [Hb Hl]. cbn [split_at].
  by rewrite bool_decide_eq_false_2, IH by done.
Qed.

Lemma split_at_cons l text : LF ∉ l → split_at LF (l ++ LF :: text) = l :: split_at LF text.
Proof.
  induction l as [|b l IH]; intros Hl; cbn [app split_at]; [by rewrite bool_decide_eq_true_2|].
  apply not_elem_of_cons in Hl as [Hb Hl]. by rewrite bool_decide_eq_false_2, IH by done.
Qed.

Lemma split_unlines ls l :
  Forall (fun l => LF ∉ l) ls → LF ∉ l → split_at LF (trim_last LF (unlines (ls ++ [l]))) = ls ++ [l].
Proof.
  intros Hls Hl. assert (Htrim : trim_last LF (unlines (ls ++ [l])) = unlines ls ++ l).
  { unfold unlines. rewrite fmap_app, concat_app. cbn. rewrite app_nil_r, app_assoc. apply trim_last_snoc. }
  rewrite Htrim. clear Htrim. induction Hls as [|x ls Hx _ IH]; [by apply split_at_plain|].
  unfold unlines. rewrite fmap_cons, concat_cons. rewrite <- !app_assoc. cbn [app].
  rewrite split_at_cons by done. f_equal. exact IH.
Qed.

Lemma unlines_split text : unlines (split_at LF text) = text ++ [LF].
Proof.
  induction text as [|b text IH]; [done|]. cbn [split_at]. case_bool_decide as Hb.
  - subst b. unfold unlines in *. rewrite fmap_cons, concat_cons, IH. done.
  - destruct (split_at LF text) as [|l ls] eqn:Hs; [by destruct text|]. unfold unlines in *.
    rewrite fmap_cons, concat_cons in *. cbn [app]. by rewrite IH.
Qed.

Lemma unlines_elem c ls : c ∈ unlines ls → c = LF ∨ ∃ l, l ∈ ls ∧ c ∈ l.
Proof.
  unfold unlines. rewrite list_elem_of_In, in_concat. intros (x & Hx & Hc). apply list_elem_of_In in Hx, Hc.
  apply list_elem_of_fmap in Hx as (l & -> & Hl). apply elem_of_app in Hc as [Hc|Hc]; [right; by exists l|].
  left. by apply list_elem_of_singleton in Hc.
Qed.

Lemma middle_lines ls : head ls = Some begin_line → last ls = Some end_line → (1 < length ls)%nat →
  ls = begin_line :: removelast (tl ls) ++ [end_line].
Proof.
  destruct ls as [|l ls]; [done|]. cbn [head tl length]. intros [= ->] Hlast Hlen.
  destruct ls as [|l' ls'] eqn:Heq; [cbn in Hlen; lia|]. rewrite <- Heq in *. f_equal.
  assert (Hl : last ls = Some end_line) by (subst ls; exact Hlast). apply last_Some in Hl as [ls1 ->].
  by rewrite removelast_last.
Qed.

Lemma printed_lines files f l : f ∈ files → l ∈ print_file f → l ∈ concat (print_file <$> files).
Proof.
  intros Hf Hl. rewrite list_elem_of_In, in_concat. exists (print_file f). rewrite <- !list_elem_of_In.
  split; [by apply list_elem_of_fmap_2|done].
Qed.

Lemma print_plain files : Forall file_ok files → Forall plain (concat (print_file <$> files)).
Proof.
  induction 1 as [|f files [_ Hf] _ IH]; [constructor|]. rewrite fmap_cons, concat_cons. by apply Forall_app.
Qed.

Lemma parsePatch_complete files :
  (0 < length files <= MaxPatchFiles)%nat → Forall file_ok files → parsePatch (print_patch files) = Ok files.
Proof.
  intros Hlen Hok. pose proof (print_plain files Hok) as Hplain.
  assert (Hall : Forall plain (begin_line :: concat (print_file <$> files))).
  { constructor; [|done]. split; refine (bool_decide_unpack _ _); vm_compute; exact I. }
  assert (Hend : plain end_line) by (split; refine (bool_decide_unpack _ _); vm_compute; exact I).
  assert (Hcr : CR ∉ print_patch files).
  { intros [?|(l & Hl & Hc)]%unlines_elem; [done|]. rewrite app_comm_cons in Hl.
    assert (Hp : plain l) by (apply elem_of_app in Hl as [Hl|Hl]; [exact (proj1 (Forall_forall _ _) Hall l Hl)|by apply list_elem_of_singleton in Hl as ->]).
    destruct Hp as [_ Hp]. by apply Hp. }
  unfold parsePatch. rewrite replace_crlf_plain by exact Hcr.
  rewrite (bool_decide_eq_false_2 (CR ∈ print_patch files)) by exact Hcr.
  cbn [fail_if mbind result_bind]. unfold print_patch. rewrite app_comm_cons, split_unlines.
  2:{ eapply Forall_impl; [exact Hall|]. by intros l [? _]. }
  2:{ apply Hend. }
  assert (Hne : (0 < length (concat (print_file <$> files)))%nat).
  { destruct files as [|f files]; [cbn in Hlen; lia|]. rewrite fmap_cons, concat_cons, print_file_cons, length_app. cbn. lia. }
  rewrite length_app. cbn [length]. rewrite (proj2 (Nat.ltb_ge _ _)) by lia. rewrite last_snoc. cbn [app head].
  rewrite !bool_decide_eq_true_2 by done. cbn [negb orb fail_if mbind result_bind tl].
  rewrite removelast_last. apply parse_files_complete; [|done|cbn; lia].
  eapply Forall_impl; [exact Hok|]. by intros f [? _].
Qed.

Lemma parsePatch_sound text files :
  parsePatch text = Ok files →
  (0 < length files <= MaxPatchFiles)%nat ∧ Forall file_ok files
  ∧ (replace_crlf text = print_patch files ∨ replace_crlf text ++ [LF] = print_patch files).
Proof.
  unfold parsePatch. rewrite !guard_Ok. intros (Hcr & Hframe & Hparse).
  apply bool_decide_eq_false in Hcr. set (t := replace_crlf text) in *. set (ls := split_at LF (trim_last LF t)) in *.
  apply orb_false_iff in Hframe as [Hframe Hlast]. apply orb_false_iff in Hframe as [Hlen Hhead].
  apply Nat.ltb_ge in Hlen. apply negb_false_iff, bool_decide_eq_true in Hhead, Hlast.
  pose proof (middle_lines ls Hhead Hlast ltac:(lia)) as Hls. set (middle := removelast (tl ls)) in *.
  apply parse_files_sound in Hparse as (Hmiddle & Hshape & Hcount); [|done|unfold MaxPatchFiles; lia].
  rewrite Hmiddle in Hls. assert (Hunlines : unlines ls = print_patch files) by (by rewrite Hls).
  unfold ls in Hunlines. rewrite unlines_split in Hunlines.
  assert (Hplain : ∀ l, l ∈ ls → plain l).
  { intros l Hl. split; intros Hc.
    - by apply (split_at_elem LF _ l Hl) in Hc as [_ ?].
    - apply (split_at_elem CR _ l Hl) in Hc as [Hc _]. apply Hcr. revert Hc. unfold trim_last.
      destruct (ends_with LF t) eqn:He; [|done]. apply bool_decide_eq_true, last_Some in He as [t' Ht].
      rewrite Ht, removelast_last. intros Hc. apply elem_of_app. by left. }
  split; [|split].
  + destruct files as [|f files]; [|cbn in Hcount |- *; lia]. rewrite Hls in Hlen. cbn in Hlen. lia.
  + apply Forall_forall. intros f Hf. split; [by eapply Forall_forall in Hshape|]. apply Forall_forall. intros l Hl.
    apply Hplain. rewrite Hls. right. apply elem_of_app. left. by eapply printed_lines.
  + unfold trim_last in Hunlines. destruct (ends_with LF t) eqn:He; [left|by right].
    apply bool_decide_eq_true, last_Some in He as [t' Ht]. rewrite Ht, removelast_last in Hunlines. by rewrite Ht.
Qed.

(** C19. The parser is the exact inverse of printing: every patch of one to sixteen
    well-formed files is read back from its printed form, and whatever text is
    accepted is, up to CRLF line endings and the final line feed, the printed form of
    the files that were read, which are well-formed: additions carry only lines,
    deletions nothing, updates at least one hunk, every hunk changes something, and
    only the last hunk of a file may be anchored to its end. *)
Theorem parsePatch_inverse :
  (∀ files, (0 < length files <= MaxPatchFiles)%nat → Forall file_ok files → parsePatch (print_patch files) = Ok files)
  ∧ (∀ text files, parsePatch text = Ok files →
       (0 < length files <= MaxPatchFiles)%nat ∧ Forall file_ok files
       ∧ (replace_crlf text = print_patch files ∨ replace_crlf text ++ [LF] = print_patch files)).
Proof. split; [exact parsePatch_complete|exact parsePatch_sound]. Qed.

(** ** Paths *)

(** [unicode.ToUpper] and the category Cf. *)
Class PathTables := { upper_rune : Z → Z; is_format : Z → bool }.

Definition CodeInvalidPath : string := "invalid_path".
Definition CodePathOutsideWorkspace : string := "path_outside_workspace".
Definition CodePatchPathConflict : string := "patch_path_conflict".
Definition CodeInvalidArguments : string := "invalid_arguments".
Definition argumentError (message : string) : error :=
  operationFailure CodeInvalidArguments ("invalid workspace tool arguments: " +:+ message).

Definition maxModelPathBytes : nat := Z.to_nat 4096.
Definition maxModelPathRunes : Z := 1024.
Definition maxModelPathComponents : nat := 64.

Definition windowsReservedNames : list string :=
  ["CON"; "PRN"; "AUX"; "NUL"; "COM1"; "COM2"; "COM3"; "COM4"; "COM5"; "COM6"; "COM7"; "COM8"; "COM9";
   "LPT1"; "LPT2"; "LPT3"; "LPT4"; "LPT5"; "LPT6"; "LPT7"; "LPT8"; "LPT9"].

Definition slash : ascii := "/".
Definition backslash : ascii := ascii_of_byte 92.
Definition dot : ascii := ".".

(** [unicode.IsControl] *)
Definition is_control (r : Z) : bool := in_range 0 r 31 || in_range 127 r 159.

Section Paths.
Context `{UnicodeTables, PathTables}.

(** [strings.ToUpper] *)
Definition to_upper (s : string) : string :=
  string_of_bytes (concat ((fun p => encode_rune (upper_rune p.1)) <$> runes s)).

Definition ascii_letter (b : ascii) : bool := in_range 97 (byte_of b) 122 || in_range 65 (byte_of b) 90.

Definition looksLikeWindowsAbsolutePath (value : bytes) : bool :=
  (match value with b :: c :: _ => ascii_letter b && bool_decide (c = ":"%char) | _ => false end)
  || (let lower := to_bytes (to_lower (str value)) in
      existsb (fun p => has_prefix p lower)
        [[slash; slash; "?"%char; slash]; [slash; slash; dot; slash];
         [backslash; backslash; "?"%char; backslash; backslash]; [backslash; backslash; dot; backslash; backslash]]).

(** The bytes of [strings.ContainsAny]; 34 is the double quote. *)
Definition forbidden_bytes : list ascii := ascii_of_byte 34 :: to_bytes ":<>|?*".

Definition base_name (component : bytes) : bytes := hd [] (split_at dot component).

Definition invalidPathComponent (component : bytes) : bool :=
  ends_with dot component || ends_with space component || existsb (fun b => bool_decide (b ∈ forbidden_bytes)) component
  || bool_decide (to_upper (str (base_name component)) ∈ windowsReservedNames)
  || existsb (fun p => (p.1 =? 0) || (p.1 =? byte_of slash) || is_control p.1 || is_format p.1) (runes (str component)).

Definition check_component (component : bytes) : result error unit :=
  _ ← fail_if (bool_decide (component = [dot; dot]))
        (operationFailure CodePathOutsideWorkspace "workspace path cannot escape its root");
  fail_if (is_nil component || bool_decide (component = [dot]) || invalidPathComponent component)
    (operationFailure CodeInvalidPath "workspace path contains an invalid component").

(** [strings.Join] with a slash. *)
Fixpoint join_path (components : list bytes) : bytes :=
  match components with
  | [] => []
  | [c] => c
  | c :: cs => c ++ slash :: join_path cs
  end.

Definition normalizeModelPath (value : bytes) (allowRoot : bool) : result error bytes :=
  _ ← fail_if (negb (valid_utf8 (str value)) || is_nil value || (maxModelPathBytes <? length value)%nat
               || (maxModelPathRunes <? rune_count (str value)))
        (operationFailure CodeInvalidPath "workspace path is invalid");
  if decide (value = [dot]) then
    if allowRoot then Ok value else Err (operationFailure CodeInvalidPath "workspace file path cannot be root")
  else
    _ ← fail_if (has_prefix [slash] value || has_prefix [backslash] value || looksLikeWindowsAbsolutePath value)
          (operationFailure CodePathOutsideWorkspace "workspace path must be relative");
    _ ← fail_if (bool_decide (backslash ∈ value))
          (operationFailure CodeInvalidPath "workspace path must use slash separators");
    let components := split_at slash value in
    _ ← fail_if (maxModelPathComponents <? length components)%nat
          (operationFailure CodeInvalidPath "workspace path has too many components");
    _ ← each check_component components;
    Ok (join_path components).

(** The first component that differs decides. *)
Fixpoint conflict_loop (xs ys : list bytes) : bool :=
  match xs, ys with
  | a :: xs, b :: ys =>
    if negb (equal_fold (str a) (str b)) then false
    else if negb (bool_decide (a = b)) then true
    else conflict_loop xs ys
  | _, _ => true
  end.

Definition patchPathsConflict (a b : bytes) : bool := conflict_loop (split_at slash a) (split_at slash b).

Definition hash_prefix : bytes := to_bytes "sha256:".
Definition validContentHash (value : bytes) : bool :=
  (length value =? length hash_prefix + 64)%nat && bool_decide (take (length hash_prefix) value = hash_prefix)
  && forallb (fun p => in_range 48 p.1 57 || in_range 97 p.1 102) (runes (str (drop (length hash_prefix) value))).

Definition set_path (path : bytes) (f : patchFile) : patchFile :=
  mkFile (file_action f) path (file_added f) (file_hunks f).
Definition is_add (f : patchFile) : bool := bool_decide (file_action f = "Add").

(** An iteration of the loop: the files done, and how many exist already. *)
Definition validate_file (hashes : gmap bytes bytes) (acc : list patchFile * nat) (f : patchFile)
  : result error (list patchFile * nat) :=
  let '(done, existing) := acc in
  path ← normalizeModelPath (file_path f) false;
  _ ← fail_if (existsb (fun g => patchPathsConflict path (file_path g)) done)
        (operationFailure CodePatchPathConflict "补丁路径重复、大小写别名或祖先/后代冲突");
  if is_add f then
    _ ← fail_if (bool_decide (is_Some (hashes !! path))) (argumentError "新增文件不得提供旧 hash");
    Ok (done ++ [set_path path f], existing)
  else
    _ ← fail_if (match hashes !! path with Some hash => negb (validContentHash hash) | None => true end)
          (argumentError "每个修改或删除文件都必须提供规范路径对应的完整 hash");
    Ok (done ++ [set_path path f], S existing).

Definition validatePatchPaths (files : list patchFile) (hashes : gmap bytes bytes) : result error (list patchFile) :=
  '(files, existing) ← fold_result (validate_file hashes) ([], 0%nat) files;
  _ ← fail_if (negb (size hashes =? existing)%nat) (argumentError "expected_hashes 不得包含多余或非规范路径键");
  Ok files.

(** ** What the path rules ensure *)

(** A path that stays inside the root, component by component. *)
Definition inside (path : bytes) : Prop :=
  Forall (fun c => c ≠ [] ∧ c ≠ [dot] ∧ c ≠ [dot; dot]) (split_at slash path) ∧ backslash ∉ path.

(** The components of a path on a file system that ignores case. *)
Definition folded (path : bytes) : list (list Z) :=
  (fun c => (fun p => fold_rune p.1) <$> runes (str c)) <$> split_at slash path.

Lemma join_split_at value : join_path (split_at slash value) = value.
Proof.
  induction value as [|b value IH]; [done|]. cbn [split_at]. case_bool_decide as Hb.
  - subst b. destruct (split_at slash value) as [|l ls] eqn:Hs; [|cbn; by f_equal].
    destruct value; [done|]. cbn in Hs. case_bool_decide; [done|]. by destruct (split_at slash value).
  - destruct (split_at slash value) as [|l ls]; [by cbn in IH; subst value|].
    cbn in IH |- *. destruct ls; cbn; by f_equal.
Qed.

Lemma normalizeModelPath_Ok value path :
  normalizeModelPath value false = Ok path → path = value ∧ inside value.
Proof.
  unfold normalizeModelPath. rewrite guard_Ok. intros [_ Hrun]. case_decide; [done|].
  rewrite !guard_Ok in Hrun. destruct Hrun as (_ & Hback & _ & Hrun). apply bind_Ok in Hrun as ([] & Hall & [= <-]).
  rewrite join_split_at. split; [done|]. split; [|by apply bool_decide_eq_false in Hback].
  apply each_Ok in Hall. eapply Forall_impl; [exact Hall|]. intros c Hc. unfold check_component in Hc.
  apply guard_Ok in Hc as [Hdd Hc]. apply fail_if_Ok in Hc. apply bool_decide_eq_false in Hdd.
  apply orb_false_iff in Hc as [Hc _]. apply orb_false_iff in Hc as [Hnil Hd]. apply is_nil_false in Hnil.
  apply bool_decide_eq_false in Hd. done.
Qed.

Definition fold_component (c : bytes) : list Z := (fun p => fold_rune p.1) <$> runes (str c).

Lemma conflict_loop_false xs ys :
  conflict_loop xs ys = false →
  ¬ (fold_component <$> xs) `prefix_of` (fold_component <$> ys) ∧ ¬ (fold_component <$> ys) `prefix_of` (fold_component <$> xs).
Proof.
  revert ys. induction xs as [|a xs IH]; intros ys; [done|]. destruct ys as [|b ys]; [done|].
  cbn [conflict_loop]. destruct (equal_fold (str a) (str b)) eqn:Hab; cbn [negb].
  - case_bool_decide as Heq; cbn [negb]; [|done]. subst b. intros Hrec. destruct (IH ys Hrec) as [H1 H2].
    rewrite !fmap_cons. split; intros Hp%prefix_cons_inv_2; auto.
  - intros _. apply bool_decide_eq_false in Hab. rewrite !fmap_cons.
    split; intros Hp%prefix_cons_inv_1; apply Hab; [exact Hp|symmetry; exact Hp].
Qed.

(** Two files of a patch do not touch: neither path is the other or above it, even
    where case does not count. *)
Definition apart (f g : patchFile) : Prop :=
  ¬ folded (file_path f) `prefix_of` folded (file_path g) ∧ ¬ folded (file_path g) `prefix_of` folded (file_path f).

Definition existing_paths (files : list patchFile) : list bytes := file_path <$> filter (fun f => is_add f = false) files.

(** What is known after some files: they are inside, apart and have their hashes. *)
Record files_ok (hashes : gmap bytes bytes) (files : list patchFile) (existing : nat) : Prop := mk_files_ok {
  files_inside : Forall (fun f => inside (file_path f)) files;
  files_apart : ForallOrdPairs apart files;
  files_added : Forall (fun f => is_add f = true → hashes !! file_path f = None) files;
  files_hashed : Forall (fun p => ∃ hash, hashes !! p = Some hash ∧ validContentHash hash = true) (existing_paths files);
  files_existing : existing = length (existing_paths files);
}.

Lemma apart_snoc files f :
  ForallOrdPairs apart files → Forall (fun g => apart g f) files → ForallOrdPairs apart (files ++ [f]).
Proof.
  induction 1 as [|g files Hg _ IH]; intros Hf; cbn; [by repeat constructor|].
  apply Forall_cons in Hf as [Hgf Hf]. constructor; [|by apply IH]. apply Forall_app. split; [done|by constructor].
Qed.

Lemma validate_file_ok hashes done_ existing f acc :
  files_ok hashes done_ existing → validate_file hashes (done_, existing) f = Ok acc →
  acc.1 = done_ ++ [f] ∧ files_ok hashes acc.1 acc.2.
Proof.
  intros [Hin Hap Hadd Hhash Hex]. unfold validate_file. rewrite bind_Ok. intros (path & Hpath & Hrun).
  apply normalizeModelPath_Ok in Hpath as [-> Hinside]. apply guard_Ok in Hrun as [Hconf Hrun].
  assert (Hset : set_path (file_path f) f = f) by (by destruct f). rewrite Hset in Hrun.
  assert (Hnew : Forall (fun g => apart g f) done_).
  { apply Forall_forall. intros g Hg. assert (Hc : patchPathsConflict (file_path f) (file_path g) = false).
    { apply not_true_iff_false. intros Hc. apply not_true_iff_false in Hconf. apply Hconf, existsb_exists.
      exists g. split; [by apply list_elem_of_In|done]. }
    apply conflict_loop_false in Hc as [H1 H2]. split; [exact H2|exact H1]. }
  destruct (is_add f) eqn:Ha; apply guard_Ok in Hrun as [Hguard [= <-]]; (split; [done|]); cbn [fst snd].
  - apply bool_decide_eq_false, eq_None_not_Some in Hguard. split.
    + apply Forall_app. split; [done|by constructor].
    + by apply apart_snoc.
    + apply Forall_app. split; [done|by constructor].
    + unfold existing_paths. rewrite filter_app, filter_cons_False, filter_nil, app_nil_r by (by rewrite Ha). done.
    + unfold existing_paths. rewrite filter_app, filter_cons_False, filter_nil, app_nil_r by (by rewrite Ha). done.
  - split.
    + apply Forall_app. split; [done|by constructor].
    + by apply apart_snoc.
    + apply Forall_app. split; [done|]. constructor; [by rewrite Ha|done].
    + unfold existing_paths. rewrite filter_app, filter_cons_True, filter_nil, fmap_app by done.
      apply Forall_app. split; [done|]. constructor; [|done]. destruct (hashes !! file_path f) as [h|] eqn:Hh; [|done].
      exists h. split; [done|by apply negb_false_iff].
    + unfold existing_paths. rewrite filter_app, filter_cons_True, filter_nil, fmap_app, length_app by done.
      cbn. unfold existing_paths in Hex. lia.
Qed.

Lemma validate_files_ok hashes done_ existing l acc :
  files_ok hashes done_ existing → fold_result (validate_file hashes) (done_, existing) l = Ok acc →
  acc.1 = done_ ++ l ∧ files_ok hashes acc.1 acc.2.
Proof.
  revert done_ existing. induction l as [|f l IH]; intros done_ existing Hok; cbn [fold_result].
  { intros [= <-]. by rewrite app_nil_r. }
  rewrite bind_Ok. intros ([done1 existing1] & Hstep & Hrun). apply validate_file_ok in Hstep as [Hdone Hok1]; [|done].
  cbn [fst snd] in *. destruct (IH _ _ Hok1 Hrun) as [-> Hok2]. split; [|done]. by rewrite Hdone, <- app_assoc.
Qed.

Lemma existing_paths_NoDup files : ForallOrdPairs apart files → NoDup (existing_paths files).
Proof.
  unfold existing_paths. induction 1 as [|f files Hf _ IH]; [constructor|]. rewrite filter_cons.
  case_decide; [|done]. rewrite fmap_cons. constructor; [|done]. intros (g & Hg & Hin)%list_elem_of_fmap.
  apply list_elem_of_filter in Hin as [_ Hin]. eapply Forall_forall in Hf; [|exact Hin].
  destruct Hf as [Hf _]. apply Hf. by rewrite Hg.
Qed.
End Paths.

(** C25. A patch that passes the path check cannot reach outside the workspace and
    cannot interfere with itself: every path stays inside the root component by
    component, no path equals or lies above another even where case does not count,
    and the versions supplied are, with their format checked, exactly those of the
    files to be changed or deleted, none for a file to be added. *)
Theorem validatePatchPaths_safe `{UnicodeTables, PathTables} (files checked : list patchFile) (hashes : gmap bytes bytes)
    (Hcheck : validatePatchPaths files hashes = Ok checked) :
  checked = files
  ∧ Forall (fun f => inside (file_path f)) files
  ∧ (∀ i j f g, i ≠ j → files !! i = Some f → files !! j = Some g → ¬ folded (file_path f) `prefix_of` folded (file_path g))
  ∧ dom hashes = list_to_set (existing_paths files)
  ∧ (∀ path hash, hashes !! path = Some hash → validContentHash hash = true)
  ∧ Forall (fun f => is_add f = true → hashes !! file_path f = None) files.
Proof.
  unfold validatePatchPaths in Hcheck. apply bind_Ok in Hcheck as ([files1 existing] & Hfold & Hcheck).
  apply guard_Ok in Hcheck as [Hsize [= <-]]. apply negb_false_iff, Nat.eqb_eq in Hsize.
  apply validate_files_ok in Hfold as [Hfiles [Hin Hap Hadd Hhash Hex]]; [|by repeat constructor].
  cbn [fst snd app] in *. subst files1.
  assert (Hdom : dom hashes = list_to_set (existing_paths files)).
  { symmetry. apply set_subseteq_size_eq.
    - intros p Hp. apply elem_of_list_to_set in Hp. eapply Forall_forall in Hhash as (h & Hh & _); [|exact Hp].
      by eapply elem_of_dom_2.
    - rewrite size_list_to_set by (by apply existing_paths_NoDup). rewrite size_dom. lia. }
  split; [done|]. split; [done|]. split; [|split; [done|split; [|done]]].
  - clear -Hap. induction Hap as [|f0 files Hf _ IH]; intros i j f g Hij Hi Hj; [done|].
    destruct i as [|i], j as [|j]; cbn in Hi, Hj; [done| | |by apply (IH i j f g); [intros ->| |]].
    + injection Hi as ->. eapply Forall_lookup_1 in Hf; [|exact Hj]. apply Hf.
    + injection Hj as ->. eapply Forall_lookup_1 in Hf; [|exact Hi]. apply Hf.
  - intros path hash Hlk. assert (Hp : path ∈ existing_paths files).
    { apply elem_of_dom_2 in Hlk as Hd. rewrite Hdom in Hd. by apply elem_of_list_to_set in Hd. }
    eapply Forall_forall in Hhash as (h & Hh & Hv); [|exact Hp].
    rewrite Hh in Hlk. by injection Hlk as <-.
Qed.

(** ** A patch *)
Module Samples.
Definition ascii_paths : PathTables :=
  {| upper_rune := fun r => if in_range 97 r 122 then r - 32 else r; is_format := fun _ => false |}.

Definition sample_lines : list string :=
  ["*** Begin Patch"; "*** Add File: notes/new.md"; "+# New"; "+"; "*** Update File: notes/old.md"; "@@"; " intro";
   "-old"; "+new"; "*** End of File"; "*** Delete File: notes/gone.md"; "*** End Patch"].

Definition sample_files : list patchFile :=
  [mkFile "Add" (to_bytes "notes/new.md") [to_bytes "# New"; []] [];
   mkFile "Update" (to_bytes "notes/old.md") [] [mkHunk [to_bytes " intro"; to_bytes "-old"; to_bytes "+new"] true];
   mkFile "Delete" (to_bytes "notes/gone.md") [] []].

Definition version : bytes := to_bytes "sha256:" ++ repeat "a"%char 64.
Definition sample_hashes : gmap bytes bytes :=
  {[to_bytes "notes/old.md" := version; to_bytes "notes/gone.md" := version]}.

Example sample_parsed : parsePatch (unlines (to_bytes <$> sample_lines)) = Ok sample_files.
Proof. vm_compute. reflexivity. Qed.

Lemma sample_checked :
  @validatePatchPaths ascii_tables ascii_paths sample_files sample_hashes = Ok sample_files.
Proof. vm_compute. reflexivity. Qed.

(** Differently cased directories are refused. *)
Example sample_alias :
  @patchPathsConflict ascii_tables (to_bytes "Notes/a.md") (to_bytes "notes/b.md") = true.
Proof. vm_compute. reflexivity. Qed.
End Samples.

Import Samples.

Lemma parsePatch_inverse_witness :
  parsePatch (unlines (to_bytes <$> sample_lines)) = Ok sample_files ∧ Forall file_ok sample_files.
Proof.
  split; [exact sample_parsed|]. exact (proj1 (proj2 (proj2 parsePatch_inverse _ _ sample_parsed))).
Defined.

Lemma validatePatchPaths_safe_witness :
  Forall (fun f => inside (file_path f)) sample_files ∧ dom sample_hashes = list_to_set (existing_paths sample_files).
Proof.
  destruct (@validatePatchPaths_safe ascii_tables ascii_paths _ _ _ sample_checked) as (_ & Hin & _ & Hdom & _).
  split; [exact Hin|exact Hdom].
Defined.
