(* ===== verification/PatchApply.v ===== *)
(** * Applying a patch to a file

    [clients/cli-go/internal/workspace/patch_candidate.go]: every hunk is located in
    the original, the replaced byte ranges are checked to be in order, and the
    candidate is assembled from the untouched bytes and the hunks' new sides, with
    the line endings of the original. Byte counts are unbounded integers; the code
    subtracts before it compares, so they never leave [int64]. *)
From S2P Require Import Prelude GoStd Bytes PatchMatch PatchParse.

Definition CodeFileTooLarge : string := "file_too_large".
Definition CodeReplacementOverlap : string := "replacement_overlap".
Definition CodeNoChanges : string := "no_changes".

(** ** The original *)
Definition utf8BOM : bytes := [ascii_of_byte 239; ascii_of_byte 187; ascii_of_byte 191].

Definition has_bom (raw : bytes) : bool := bool_decide (take 3 raw = utf8BOM).
Definition bom_length (raw : bytes) : nat := if has_bom raw then 3 else 0.

(** [strings.Count] of CRLF and of LF. *)
Fixpoint count_crlf (text : bytes) : Z :=
  match text with
  | b :: (c :: _) as rest => (if bool_decide (b = CR) && bool_decide (c = LF) then 1 else 0) + count_crlf rest
  | _ => 0
  end.
Definition count_lf (text : bytes) : Z := Z.of_nat (length (filter (eq LF) text)).

Definition dominantNewline (data : bytes) : bytes :=
  let text := drop (bom_length data) data in
  let crlf := count_crlf text in
  let lf := count_lf text - crlf in
  if lf <? crlf then [CR; LF] else [LF].

(** ** The new side of a hunk *)
Definition patchCandidateTooLarge : error := operationFailure CodeFileTooLarge "补丁候选超过处理字节上限".

Definition len (text : bytes) : Z := Z.of_nat (length text).

Definition write (limit : Z) (s out : bytes) : Cancellable bytes :=
  _ ← ctx_err;
  if limit - len out <? len s then fail patchCandidateTooLarge else mret (out ++ s).

(** The index of the last line that is not deleted, from index [i]. *)
Fixpoint last_output (i : Z) (best : Z) (lines : list bytes) : Z :=
  match lines with
  | [] => best
  | l :: lines => last_output (i + 1) (if is_marker minus l then best else i) lines
  end.

Section HunkText.
Context (l : completeDiffLines) (start stop : nat) (newline : bytes) (missingLF : bool) (limit : Z) (lastOutput : Z).

Definition write_added (i : Z) (text out : bytes) : Cancellable bytes :=
  out ← (if (negb (is_nil out) && negb (ends_with LF out)) || (is_nil out && (start =? line_count l)%nat && missingLF)
         then write limit newline out else mret out);
  out ← write limit text out;
  if missingLF && (stop =? line_count l)%nat && (i =? lastOutput) then mret out else write limit newline out.

Fixpoint text_loop (i : Z) (oldAt : nat) (out : bytes) (lines : list bytes) : Cancellable bytes :=
  match lines with
  | [] => mret out
  | h :: lines =>
    _ ← ctx_err;
    if is_marker minus h then text_loop (i + 1) (S oldAt) out lines
    else if is_marker space h then
      out ← write limit (line l oldAt) out;
      text_loop (i + 1) (S oldAt) out lines
    else if is_marker plus h then
      out ← write_added i (tl h) out;
      text_loop (i + 1) oldAt out lines
    else text_loop (i + 1) oldAt out lines
  end.
End HunkText.

Definition patchHunkText (l : completeDiffLines) (hunk : patchHunk) (start stop : nat) (newline : bytes)
    (missingLF : bool) (limit : Z) : Cancellable bytes :=
  text_loop l start stop newline missingLF limit (last_output 0 (-1) (hunk_lines hunk)) 0 start [] (hunk_lines hunk).

(** ** The candidate *)
Record replacementRange := mkRange {
  range_start : nat;
  range_end : nat;
  range_text : bytes;
}.

Definition overlaps (ranges : list replacementRange) (start : nat) : bool :=
  match last ranges with
  | None => false
  | Some prior => (start <? range_end prior)%nat || (start <=? range_start prior)%nat
  end.

Section Candidate.
Context (raw : bytes) (l : completeDiffLines) (newline : bytes) (missingLF : bool) (limit : Z).

Fixpoint range_loop (ranges : list replacementRange) (hunks : list patchHunk) : Cancellable (list replacementRange) :=
  match hunks with
  | [] => mret ranges
  | hunk :: hunks =>
    _ ← ctx_err;
    '(start, stop) ← matchPatchHunk l hunk;
    let first := (bom_length raw + nth start (lines_starts l) 0)%nat in
    let last := (bom_length raw + nth stop (lines_starts l) 0)%nat in
    if overlaps ranges first then
      fail (operationFailure CodeReplacementOverlap "补丁 hunk 在同一原文中重叠、重复或乱序")
    else
      text ← patchHunkText l hunk start stop newline missingLF limit;
      range_loop (ranges ++ [mkRange first last text]) hunks
  end.

(** The budget: all replaced bytes are subtracted before any text is added. *)
Fixpoint grow (size : Z) (ranges : list replacementRange) : Cancellable Z :=
  match ranges with
  | [] => mret size
  | r :: ranges =>
    if limit - size <? len (range_text r) then fail patchCandidateTooLarge else grow (size + len (range_text r)) ranges
  end.

Definition kept_size (ranges : list replacementRange) : Z :=
  foldl (fun size r => size - (Z.of_nat (range_end r) - Z.of_nat (range_start r))) (len raw) ranges.

Fixpoint assemble (candidate : bytes) (previousEnd : nat) (ranges : list replacementRange) : Cancellable bytes :=
  match ranges with
  | [] => mret (candidate ++ drop previousEnd raw)
  | r :: ranges =>
    _ ← ctx_err;
    assemble (candidate ++ take (range_start r - previousEnd) (drop previousEnd raw) ++ range_text r) (range_end r) ranges
  end.
End Candidate.

Definition buildPatchCandidate (raw : bytes) (hunks : list patchHunk) (limit : Z)
  : Cancellable (bytes * list replacementRange) :=
  let bom := bom_length raw in
  l ← indexCompleteDiffLines (drop bom raw);
  let missingLF := (bom <? length raw)%nat && negb (ends_with LF raw) in
  ranges ← range_loop raw l (dominantNewline raw) missingLF limit [] hunks;
  let size := kept_size raw ranges in
  if limit <? size then fail patchCandidateTooLarge
  else
    _ ← grow limit size ranges;
    candidate ← assemble raw [] 0 ranges;
    if decide (candidate = raw) then fail (operationFailure CodeNoChanges "补丁没有实际文本变化")
    else
      _ ← ctx_err;
      mret (candidate, ranges).

(** ** Line-shaped pieces *)

(** One line with its line feed. *)
Definition line_shaped (b : bytes) : Prop := ∃ x, b = x ++ [LF] ∧ LF ∉ x.

(** The file is empty or ends with a line feed. *)
Definition terminated (text : bytes) : Prop := text = [] ∨ last text = Some LF.

Lemma segments_shaped_app b rest : line_shaped b → segments (b ++ rest) = b :: segments rest.
Proof.
  intros (x & -> & Hx). induction x as [|a x IH]; cbn [app segments].
  - by rewrite bool_decide_eq_true_2.
  - rewrite bool_decide_eq_false_2 by (intros ->; apply Hx; left).
    rewrite IH by (intros Hin; apply Hx; by right). done.
Qed.

Lemma segments_concat bs : Forall line_shaped bs → segments (concat bs) = bs.
Proof. induction 1 as [|b bs Hb _ IH]; [done|]. cbn. by rewrite segments_shaped_app, IH. Qed.

Lemma terminated_segments text : terminated text → Forall line_shaped (segments text).
Proof.
  intros Ht. induction text as [|a text IH]; [constructor|]. cbn [segments].
  assert (Ht' : terminated text).
  { destruct Ht as [?|Hl]; [done|]. destruct text; [by left|by right]. }
  specialize (IH Ht'). case_bool_decide as Ha.
  - subst a. constructor; [|done]. exists []. split; [done|]. apply not_elem_of_nil.
  - destruct (segments text) as [|s ss] eqn:Hs.
    + apply segments_nil in Hs as ->. destruct Ht as [?|[= ->]]; done.
    + apply Forall_cons in IH as [(x & -> & Hx) Hss]. constructor; [|done]. exists (a :: x). split; [done|].
      rewrite not_elem_of_cons. auto.
Qed.

Lemma ends_with_shaped out b : line_shaped b → ends_with LF (out ++ b) = true.
Proof. intros (x & -> & _). unfold ends_with. rewrite app_assoc, last_snoc. by apply bool_decide_eq_true_2. Qed.

Lemma segments_length_pos text s : s ∈ segments text → (0 < length s)%nat.
Proof.
  revert s. induction text as [|a text IH]; cbn [segments]; intros s Hs; [by apply not_elem_of_nil in Hs|].
  case_bool_decide; [apply elem_of_cons in Hs as [->|Hs]; [cbn; lia|by apply IH]|].
  destruct (segments text) as [|s' ss]; [apply list_elem_of_singleton in Hs as ->; cbn; lia|].
  apply elem_of_cons in Hs as [->|Hs]; [cbn; lia|]. apply IH. by right.
Qed.

(** Positions in bytes are ordered as positions in lines. *)
Definition offset (ss : list bytes) (i : nat) : nat := length (concat (take i ss)).

Lemma offset_add ss i j : (i <= j)%nat → offset ss j = (offset ss i + length (concat (take (j - i) (drop i ss))))%nat.
Proof.
  intros Hij. unfold offset. rewrite <- (take_drop i (take j ss)), concat_app, length_app, take_take, Nat.min_l by lia.
  by rewrite skipn_firstn_comm.
Qed.

Lemma offset_lt text i j : (i < j <= length (segments text))%nat → (offset (segments text) i < offset (segments text) j)%nat.
Proof.
  intros Hij. rewrite (offset_add _ i j) by lia. destruct (lookup_lt_is_Some_2 (segments text) i ltac:(lia)) as [s Hs].
  rewrite (drop_S _ _ _ Hs). destruct (j - i)%nat as [|d] eqn:Hd; [lia|]. cbn. rewrite length_app.
  pose proof (segments_length_pos text s (list_elem_of_lookup_2 _ _ _ Hs)). lia.
Qed.

Lemma offset_le_inv text i j :
  (i <= length (segments text))%nat → (j <= length (segments text))%nat →
  (offset (segments text) i <= offset (segments text) j)%nat → (i <= j)%nat.
Proof. intros Hi Hj Ho. destruct (decide (i <= j)%nat); [done|]. pose proof (offset_lt text j i ltac:(lia)). lia. Qed.

(** ** What a patch means *)

(** Replace the blocks [start, stop) of a list, from position [at] on. *)
Fixpoint splice {A} (pos : nat) (u : list A) (blocks : list (nat * nat * list A)) : list A :=
  match blocks with
  | [] => drop pos u
  | (start, stop, new) :: blocks => take (start - pos) (drop pos u) ++ new ++ splice stop u blocks
  end.

Definition new_lines (hunk : patchHunk) : list bytes :=
  tl <$> filter (fun l => is_marker minus l = false) (hunk_lines hunk).

(** The lines a hunk writes: its context as it was, its added lines with a newline. *)
Fixpoint hunk_block (ss : list bytes) (newline : bytes) (at_ : nat) (lines : list bytes) : list bytes :=
  match lines with
  | [] => []
  | h :: lines =>
    if is_marker minus h then hunk_block ss newline (S at_) lines
    else if is_marker space h then nth at_ ss [] :: hunk_block ss newline (S at_) lines
    else (tl h ++ newline) :: hunk_block ss newline at_ lines
  end.

(** What [parsePatch] guarantees of hunk lines. *)
Definition clean_line (h : bytes) : Prop :=
  (marker h = space ∨ marker h = plus ∨ marker h = minus) ∧ LF ∉ tl h ∧ CR ∉ tl h.
#[export] Instance clean_line_dec h : Decision (clean_line h).
Proof. unfold clean_line. apply _. Defined.
Definition clean (hunk : patchHunk) : Prop := Forall clean_line (hunk_lines hunk).
#[export] Instance clean_dec hunk : Decision (clean hunk).
Proof. unfold clean. apply _. Defined.

(** Where a hunk goes. *)
Definition placed (u : list bytes) (hunk : patchHunk) (place : nat * nat) : Prop :=
  let '(start, stop) := place in
  stop = (start + length (old_lines hunk))%nat ∧ occurs (old_lines hunk) u start ∧ (stop <= length u)%nat
  ∧ (hunk_eof hunk = true → stop = length u)
  ∧ (hunk_eof hunk = false → ∀ s, occurs (old_lines hunk) u s → s = start).

Fixpoint in_order (pos : nat) (places : list (nat * nat)) : Prop :=
  match places with
  | [] => True
  | (start, stop) :: places => (pos <= start <= stop)%nat ∧ in_order stop places
  end.

Lemma bind_run {A B} (c : Cancellable A) (k : A → Cancellable B) n b n' :
  (c ≫= k) n = (Ok b, n') → ∃ a n1, c n = (Ok a, n1) ∧ k a n1 = (Ok b, n').
Proof. unfold mbind, Cancellable_bind. destruct (c n) as [[a|e] n1]; [by eauto|done]. Qed.

Lemma newline_cases raw : dominantNewline raw = [LF] ∨ dominantNewline raw = [CR; LF].
Proof. unfold dominantNewline. destruct (_ <? _); auto. Qed.

Lemma added_shaped newline x : newline = [LF] ∨ newline = [CR; LF] → LF ∉ x → line_shaped (x ++ newline).
Proof.
  intros [-> | ->] Hx; [by exists x|]. exists (x ++ [CR]). rewrite <- app_assoc. split; [done|].
  rewrite elem_of_app, list_elem_of_singleton. by intros [?|?].
Qed.

Lemma added_logical newline x :
  newline = [LF] ∨ newline = [CR; LF] → CR ∉ x → patchLogicalLine (x ++ newline) = x.
Proof.
  intros Hnl Hx. assert (Hlast : last x ≠ Some CR) by (intros Hl; by apply Hx, last_Some_elem_of).
  unfold patchLogicalLine, ends_with. destruct Hnl as [-> | ->].
  - rewrite last_snoc, bool_decide_eq_true_2, trim_last_snoc by done. by apply trim_last_other.
  - change [CR; LF] with ([CR] ++ [LF]). rewrite app_assoc, last_snoc, bool_decide_eq_true_2, trim_last_snoc by done.
    apply trim_last_snoc.
Qed.

(** ** The steps *)
Section Steps.
Context (body : bytes) (Hterm : terminated body).
Context (newline : bytes) (Hnl : newline = [LF] ∨ newline = [CR; LF]).
Let ss := segments body.
Let u := logical_lines body.

Local Definition olds (lines : list bytes) : list bytes := tl <$> filter (fun h => is_marker plus h = false) lines.
Local Definition news (lines : list bytes) : list bytes := tl <$> filter (fun h => is_marker minus h = false) lines.

Lemma length_u : length u = length ss.
Proof. unfold u, logical_lines. by rewrite length_fmap. Qed.

(** The cases of a clean line. *)
Lemma clean_cases h : clean_line h →
  (is_marker minus h = true ∧ is_marker plus h = false)
  ∨ (is_marker minus h = false ∧ is_marker space h = true ∧ is_marker plus h = false)
  ∨ (is_marker minus h = false ∧ is_marker space h = false ∧ is_marker plus h = true).
Proof. intros (Hm & _). unfold is_marker. destruct Hm as [-> | [-> | ->]]; cbn; auto. Qed.

Lemma olds_cons h lines : olds (h :: lines) = if is_marker plus h then olds lines else tl h :: olds lines.
Proof. unfold olds. rewrite filter_cons. case_decide as Hd; [by rewrite Hd|]. by destruct (is_marker plus h). Qed.

Lemma news_cons h lines : news (h :: lines) = if is_marker minus h then news lines else tl h :: news lines.
Proof. unfold news. rewrite filter_cons. case_decide as Hd; [by rewrite Hd|]. by destruct (is_marker minus h). Qed.

Lemma hunk_block_shaped pos lines :
  Forall clean_line lines → (pos + length (olds lines) <= length ss)%nat →
  Forall line_shaped (hunk_block ss newline pos lines).
Proof.
  intros Hclean. revert pos. induction Hclean as [|h lines Hh _ IH]; intros pos Hpos; [constructor|].
  cbn [hunk_block]. rewrite olds_cons in Hpos.
  destruct (clean_cases h Hh) as [[Hm Hp]|[(Hm & Hs & Hp)|(Hm & Hs & Hp)]]; rewrite Hm, ?Hs; rewrite Hp in Hpos; cbn in Hpos.
  - apply IH. lia.
  - constructor; [|apply IH; lia]. destruct (lookup_lt_is_Some_2 ss pos ltac:(lia)) as [s Hlk].
    rewrite (nth_lookup_Some _ _ _ _ Hlk). pose proof (terminated_segments body Hterm) as Hall.
    by eapply Forall_lookup_1.
  - constructor; [|apply IH; lia]. destruct Hh as (_ & Hlf & _). by apply added_shaped.
Qed.

Lemma hunk_block_logical pos lines :
  Forall clean_line lines → take (length (olds lines)) (drop pos u) = olds lines →
  patchLogicalLine <$> hunk_block ss newline pos lines = news lines.
Proof.
  intros Hclean. revert pos. induction Hclean as [|h lines Hh _ IH]; intros pos Hpos; [done|].
  cbn [hunk_block]. rewrite olds_cons in Hpos. rewrite news_cons.
  assert (Hold : is_marker plus h = false → patchLogicalLine (nth pos ss []) = tl h
                 ∧ take (length (olds lines)) (drop (S pos) u) = olds lines).
  { intros Hp. rewrite Hp in Hpos. cbn [length] in Hpos.
    destruct (lt_dec pos (length u)) as [Hlt|Hge]; [|rewrite drop_ge in Hpos by lia; done].
    assert (Hu : u !! pos = Some (patchLogicalLine (nth pos ss []))).
    { unfold u, logical_lines. rewrite list_lookup_fmap. fold ss. rewrite length_u in Hlt.
      destruct (lookup_lt_is_Some_2 ss pos Hlt) as [s Hs]. by rewrite Hs, (nth_lookup_Some _ _ _ _ Hs). }
    rewrite (drop_S _ _ _ Hu) in Hpos. cbn [take] in Hpos. by injection Hpos. }
  destruct (clean_cases h Hh) as [[Hm Hp]|[(Hm & Hs & Hp)|(Hm & Hs & Hp)]]; rewrite Hm, ?Hs.
  - by apply IH, Hold.
  - destruct (Hold Hp) as [Hl Hr]. rewrite fmap_cons, Hl. f_equal. by apply IH.
  - rewrite Hp in Hpos. rewrite fmap_cons, added_logical; [|done|by destruct Hh as (_ & _ & ?)].
    f_equal. by apply IH.
Qed.

Definition closed (out : bytes) : Prop := is_nil out = true ∨ ends_with LF out = true.

Lemma write_run limit s out n out' n' : write limit s out n = (Ok out', n') → out' = out ++ s ∧ len out' <= limit.
Proof.
  unfold write. intros (_ & n1 & _ & Hrun)%bind_run. destruct (Z.ltb_spec (limit - len out) (len s)) as [|Hle]; [done|].
  injection Hrun as <- _. split; [done|]. unfold len in *. rewrite length_app. lia.
Qed.

Lemma write_added_run limit start stop last i text out n out' n' :
  closed out → write_added (lines_of body) start stop newline false limit last i text out n = (Ok out', n') →
  out' = out ++ text ++ newline.
Proof.
  intros Hout. unfold write_added. rewrite andb_false_r, orb_false_r. cbn [andb].
  assert (negb (is_nil out) && negb (ends_with LF out) = false) as -> by (destruct Hout as [-> | ->]; [done|apply andb_false_r]).
  intros (out1 & n1 & [= <- <-] & (out2 & n2 & [-> _]%write_run & [-> _]%write_run)%bind_run)%bind_run.
  by rewrite app_assoc.
Qed.

Lemma text_loop_run limit start stop last i pos out lines n text n' :
  Forall clean_line lines → closed out → (pos + length (olds lines) <= length ss)%nat →
  text_loop (lines_of body) start stop newline false limit last i pos out lines n = (Ok text, n') →
  text = out ++ concat (hunk_block ss newline pos lines).
Proof.
  intros Hclean. revert i pos out n. induction Hclean as [|h lines Hh Hlines IH]; intros i pos out n Hout Hpos Hrun.
  { injection Hrun as <- _. cbn. by rewrite app_nil_r. }
  cbn [text_loop] in Hrun. apply bind_run in Hrun as (_ & n1 & _ & Hrun). cbn [hunk_block].
  pose proof (hunk_block_shaped pos [h] ltac:(by apply Forall_singleton)) as Hshape. cbn [hunk_block] in Hshape.
  rewrite olds_cons in Hpos, Hshape. change (olds []) with (@nil bytes) in Hshape.
  destruct (clean_cases h Hh) as [[Hm Hp]|[(Hm & Hs & Hp)|(Hm & Hs & Hp)]];
    rewrite Hm in Hrun, Hshape |- *; rewrite Hp in Hpos, Hshape; cbn [length] in Hpos, Hshape.
  - eapply IH; [done| |exact Hrun]. lia.
  - rewrite Hs in Hrun, Hshape |- *. apply bind_run in Hrun as (out1 & n2 & [-> _]%write_run & Hrun).
    rewrite line_of in Hrun by (unfold ss in Hpos; lia). fold ss in Hrun.
    apply IH in Hrun; [| |lia].
    + rewrite Hrun, <- app_assoc. done.
    + right. apply ends_with_shaped. specialize (Hshape ltac:(lia)). by apply Forall_cons in Hshape as [? _].
  - rewrite Hs, Hp in Hrun. rewrite Hs in Hshape |- *.
    apply bind_run in Hrun as (out1 & n2 & ->%write_added_run & Hrun); [|done].
    apply IH in Hrun; [| |lia].
    + rewrite Hrun, <- !app_assoc. cbn. by rewrite <- app_assoc.
    + right. apply ends_with_shaped. specialize (Hshape ltac:(lia)). by apply Forall_cons in Hshape as [? _].
Qed.
End Steps.

(** ** The whole candidate *)
Definition map_block {A B} (f : A → B) (b : nat * nat * list A) : nat * nat * list B := (b.1, f <$> b.2).

Lemma fmap_splice {A B} (f : A → B) pos (u : list A) (blocks : list (nat * nat * list A)) :
  f <$> splice pos u blocks = splice pos (f <$> u) (map_block f <$> blocks).
Proof.
  revert pos. induction blocks as [|[[s e] new] blocks IH]; intros pos; cbn [splice fmap list_fmap].
  - by rewrite fmap_drop.
  - by rewrite !fmap_app, fmap_take, fmap_drop, IH.
Qed.

Lemma Forall_splice {A} (P : A → Prop) pos (u : list A) (blocks : list (nat * nat * list A)) :
  Forall P u → Forall (fun b => Forall P b.2) blocks → Forall P (splice pos u blocks).
Proof.
  intros Hu Hb. revert pos. induction Hb as [|[[s e] new] blocks Hnew _ IH]; intros pos; cbn [splice].
  - by apply Forall_drop.
  - apply Forall_app. split; [by apply Forall_take, Forall_drop|]. apply Forall_app. split; [exact Hnew|apply IH].
Qed.

Lemma grow_run limit size ranges n size' n' :
  size <= limit → grow limit size ranges n = (Ok size', n') →
  size + foldr (fun r total => len (range_text r) + total) 0 ranges <= limit.
Proof.
  revert size. induction ranges as [|r ranges IH]; intros size Hsize Hrun; cbn [foldr]; [lia|].
  cbn [grow] in Hrun. destruct (Z.ltb_spec (limit - size) (len (range_text r))); [done|].
  specialize (IH (size + len (range_text r)) ltac:(lia) Hrun). lia.
Qed.
Section Whole.
Context (raw : bytes).
Let bom := bom_length raw.
Let body := drop bom raw.
Let ss := segments body.
Let u := logical_lines body.
Let newline := dominantNewline raw.
Context (Hterm : terminated body).

Definition block_of (hunk : patchHunk) (place : nat * nat) : nat * nat * list bytes :=
  (place.1, place.2, hunk_block ss newline place.1 (hunk_lines hunk)).
Definition range_of (b : nat * nat * list bytes) : replacementRange :=
  mkRange (bom + offset ss b.1.1) (bom + offset ss b.1.2) (concat b.2).

Lemma placed_shaped hunk place :
  clean hunk → placed u hunk place → Forall line_shaped (block_of hunk place).2.
Proof.
  intros Hclean Hp. destruct place as [s e]. destruct Hp as (He & _ & Hle & _). cbn.
  apply (hunk_block_shaped body Hterm newline (newline_cases raw)); [done|].
  unfold u, logical_lines in Hle. rewrite length_fmap in Hle. fold ss in Hle |- *. unfold old_lines in He. unfold olds. lia.
Qed.

Lemma placed_logical hunk place :
  clean hunk → placed u hunk place → patchLogicalLine <$> (block_of hunk place).2 = new_lines hunk.
Proof.
  intros Hclean Hp. destruct place as [s e]. destruct Hp as (_ & Ho & _).
  by apply (hunk_block_logical body newline (newline_cases raw)).
Qed.

Lemma placement_placed hunk k s e : placement body hunk k (Ok (s, e)) → placed u hunk (s, e).
Proof.
  intros (He & Ho & Hle & Heof & Huniq). split; [done|]. split; [done|]. split; [done|]. split; [done|].
  intros H. by apply Huniq.
Qed.

Lemma nth_starts i : (i <= length ss)%nat → nth i (lines_starts (lines_of body)) 0%nat = offset ss i.
Proof. intros Hi. cbn. rewrite nth_offsets by done. done. Qed.

Lemma missing_false : (bom <? length raw)%nat && negb (ends_with LF raw) = false.
Proof.
  destruct (Nat.ltb_spec bom (length raw)) as [Hlt|]; [|done]. cbn [andb].
  destruct Hterm as [Hnil|Hlast].
  - apply (f_equal length) in Hnil. unfold body in Hnil. rewrite length_drop in Hnil. cbn in Hnil. lia.
  - unfold ends_with. rewrite bool_decide_eq_true_2; [done|]. rewrite <- (take_drop bom raw), last_app. fold body.
    by rewrite Hlast.
Qed.

(** What is known of the ranges collected so far: they end at line [pos]. *)
Definition collected (ranges : list replacementRange) (pos : nat) : Prop :=
  (pos <= length ss)%nat
  ∧ (ranges = [] ∧ pos = 0%nat ∨ ∃ prior, last ranges = Some prior ∧ range_end prior = (bom + offset ss pos)%nat).

Lemma range_loop_run limit ranges hunks pos n ranges' n' :
  Forall clean hunks → collected ranges pos →
  range_loop raw (lines_of body) newline false limit ranges hunks n = (Ok ranges', n') →
  ∃ places, Forall2 (placed u) hunks places ∧ in_order pos places
    ∧ ranges' = ranges ++ (range_of <$> zip_with block_of hunks places).
Proof.
  intros Hclean. revert ranges pos n. induction Hclean as [|hunk hunks Hh _ IH]; intros ranges pos n Hcol Hrun.
  { injection Hrun as <- _. exists []. rewrite app_nil_r. split; [constructor|done]. }
  cbn [range_loop] in Hrun. apply bind_run in Hrun as (_ & n1 & _ & Hrun).
  apply bind_run in Hrun as ([s e] & n2 & Hmatch & Hrun).
  pose proof (matchPatchHunk_placement body hunk n1) as Hplace. rewrite Hmatch in Hplace. cbn [fst] in Hplace.
  apply placement_placed in Hplace as Hplaced. pose proof Hplaced as (He & _ & Hle & _).
  assert (Hss : length u = length ss) by (unfold u, logical_lines; by rewrite length_fmap).
  fold bom in Hrun. rewrite !nth_starts in Hrun by lia.
  destruct (overlaps ranges (bom + offset ss s)) eqn:Hover; [done|].
  apply bind_run in Hrun as (text & n3 & Htext & Hrun).
  apply (text_loop_run body Hterm newline (newline_cases raw)) in Htext; [|done|by left|].
  2:{ unfold old_lines in He. unfold olds. fold ss. lia. }
  assert (Hpos : (pos <= s)%nat).
  { destruct Hcol as (Hpos & [[-> ->]|(prior & Hlast & Hend)]); [lia|]. unfold overlaps in Hover. rewrite Hlast in Hover.
    apply orb_false_iff in Hover as [Hover _]. apply Nat.ltb_ge in Hover.
    apply (offset_le_inv body); fold ss; [lia|lia|]. lia. }
  assert (Hcol' : collected (ranges ++ [mkRange (bom + offset ss s) (bom + offset ss e) text]) e).
  { split; [lia|]. right. eexists. split; [apply last_snoc|done]. }
  destruct (IH _ e _ Hcol' Hrun) as (places & Hplaces & Horder & ->).
  exists ((s, e) :: places). split; [by constructor|]. split; [split; [lia|done]|].
  rewrite <- app_assoc. cbn. unfold range_of at 2. cbn. by rewrite Htext.
Qed.

Lemma assemble_run blocks pos candidate n c n' :
  in_order pos (fst <$> blocks) → Forall (fun b => (b.1.2 <= length ss)%nat) blocks → (pos <= length ss)%nat →
  assemble raw candidate (bom + offset ss pos) (range_of <$> blocks) n = (Ok c, n') →
  c = candidate ++ concat (splice pos ss blocks).
Proof.
  assert (Hdrop : ∀ i, drop (bom + offset ss i) raw = concat (drop i ss)).
  { intros i. rewrite <- drop_drop. fold body. rewrite <- (concat_segments body) at 1. fold ss.
    unfold offset.
    rewrite <- (take_drop i ss) at 2. by rewrite concat_app, drop_app_length. }
  revert pos candidate n. induction blocks as [|[[s e] new] blocks IH]; intros pos candidate n Horder Hbound Hpos Hrun.
  { injection Hrun as <- _. by rewrite Hdrop. }
  cbn in Horder. destruct Horder as [[Hs He] Horder]. apply Forall_cons in Hbound as [Hb Hbound]. cbn in Hb.
  cbn [fmap list_fmap assemble] in Hrun. apply bind_run in Hrun as (_ & n1 & _ & Hrun).
  apply IH in Hrun; [|done|done|done]. rewrite Hrun. cbn [range_of range_start range_text splice fst snd].
  rewrite Hdrop, (offset_add ss pos s) by lia. rewrite !concat_app, <- !app_assoc. do 2 f_equal.
  replace (bom + (offset ss pos + length (concat (take (s - pos) (drop pos ss)))) - (bom + offset ss pos))%nat
    with (length (concat (take (s - pos) (drop pos ss)))) by lia.
  rewrite <- (take_drop (s - pos) (drop pos ss)) at 2. by rewrite concat_app, take_app_length.
Qed.

(** The byte order mark comes before the first range. *)
Lemma assemble_bom candidate blocks n :
  assemble raw candidate 0 (range_of <$> blocks) n
  = assemble raw (candidate ++ take bom raw) (bom + offset ss 0) (range_of <$> blocks) n.
Proof.
  change (offset ss 0) with 0%nat. rewrite Nat.add_0_r.
  destruct blocks as [|b blocks]; cbn [fmap list_fmap assemble].
  - by rewrite <- app_assoc, take_drop.
  - unfold mbind, Cancellable_bind. destruct (ctx_err n) as [[[]|e] n1]; [|done]. f_equal.
    rewrite <- !app_assoc, drop_0, Nat.sub_0_r. f_equal. cbn [range_of range_start].
    rewrite <- (take_drop bom (take (bom + offset ss b.1.1) raw)), take_take, Nat.min_l, skipn_firstn_comm by lia.
    by rewrite <- app_assoc.
Qed.
(** The bytes a list of blocks adds. *)
Fixpoint growth (blocks : list (nat * nat * list bytes)) : Z :=
  match blocks with
  | [] => 0
  | b :: blocks => len (concat b.2) - (Z.of_nat (offset ss b.1.2) - Z.of_nat (offset ss b.1.1)) + growth blocks
  end.

Lemma len_drop i : len (concat (drop i ss)) = len (concat ss) - Z.of_nat (offset ss i).
Proof. unfold len, offset. rewrite <- (take_drop i ss) at 2. rewrite concat_app, length_app. lia. Qed.

Lemma len_splice blocks pos :
  in_order pos (fst <$> blocks) → len (concat (splice pos ss blocks)) = len (concat (drop pos ss)) + growth blocks.
Proof.
  revert pos. induction blocks as [|[[s e] new] blocks IH]; intros pos Horder; cbn [splice growth]; [lia|].
  cbn in Horder. destruct Horder as [[Hs He] Horder]. specialize (IH e Horder). rewrite len_drop in IH |- *.
  pose proof (offset_add ss pos s ltac:(lia)) as Hadd.
  unfold len in *. rewrite !concat_app, !length_app in *. cbn [fst snd]. lia.
Qed.

Lemma kept_size_run blocks size :
  foldl (fun size r => size - (Z.of_nat (range_end r) - Z.of_nat (range_start r))) size (range_of <$> blocks)
  + foldr (fun r total => len (range_text r) + total) 0 (range_of <$> blocks) = size + growth blocks.
Proof.
  revert size. induction blocks as [|b blocks IH]; intros size; cbn [fmap list_fmap foldl foldr growth]; [lia|].
  specialize (IH (size - (Z.of_nat (range_end (range_of b)) - Z.of_nat (range_start (range_of b))))).
  cbn [range_of range_end range_start range_text] in *. lia.
Qed.

End Whole.

Lemma blocks_places raw hunks places :
  length hunks = length places → fst <$> zip_with (block_of raw) hunks places = places.
Proof.
  revert places. induction hunks as [|h hunks IH]; intros [|[s e] places] Hlen; cbn in *; [done..|].
  injection Hlen as Hlen. by rewrite IH.
Qed.

(** The candidate as blocks. *)
Lemma candidate_blocks raw hunks limit k k' candidate ranges :
  Forall clean hunks → terminated (drop (bom_length raw) raw) →
  buildPatchCandidate raw hunks limit k = (Ok (candidate, ranges), k') →
  let u := logical_lines (drop (bom_length raw) raw) in
  let ss := segments (drop (bom_length raw) raw) in
  ∃ places, Forall2 (placed u) hunks places ∧ in_order 0 places
    ∧ candidate = take (bom_length raw) raw ++ concat (splice 0 ss (zip_with (block_of raw) hunks places))
    ∧ candidate ≠ raw ∧ len raw + growth raw (zip_with (block_of raw) hunks places) <= limit.
Proof.
  intros Hclean Hterm Hrun u ss. unfold buildPatchCandidate in Hrun. cbv zeta in Hrun.
  rewrite (missing_false raw Hterm) in Hrun. apply bind_run in Hrun as (l & n1 & Hl%index_spec & Hrun). subst l.
  apply bind_run in Hrun as (ranges1 & n2 & Hranges & Hrun).
  apply (range_loop_run raw Hterm limit [] hunks 0) in Hranges as (places & Hplaces & Horder & ->);
    [|done|by split; [lia|left]].
  cbn [app] in Hrun. set (blocks := zip_with (block_of raw) hunks places) in *.
  destruct (Z.ltb_spec limit (kept_size raw (range_of raw <$> blocks))) as [|Hkept]; [done|].
  apply bind_run in Hrun as (size & n3 & Hgrow & Hrun). apply bind_run in Hrun as (c & n4 & Hasm & Hrun).
  case_decide as Hne; [done|]. apply bind_run in Hrun as (_ & n5 & _ & [= -> _ _]).
  pose proof (Forall2_length _ _ _ Hplaces) as Hlen.
  assert (Hfst : fst <$> blocks = places) by (by apply blocks_places).
  assert (Hbound : Forall (fun b => (b.1.2 <= length ss)%nat) blocks).
  { apply (proj1 (Forall_fmap (fst : nat * nat * list bytes → nat * nat) (fun p => (p.2 <= length ss)%nat) blocks)). rewrite Hfst.
    eapply Forall2_Forall_r; [exact Hplaces|]. apply Forall_forall. intros hunk _ [s e] (_ & _ & Hle & _).
    unfold logical_lines in Hle. by rewrite length_fmap in Hle. }
  rewrite assemble_bom in Hasm. apply assemble_run in Hasm; [|by rewrite Hfst|done|lia].
  exists places. split; [done|]. split; [done|]. split; [exact Hasm|]. split; [done|].
  apply (grow_run _ _ _ _ _ _ Hkept) in Hgrow. pose proof (kept_size_run raw blocks (len raw)) as Hsize.
  unfold kept_size in Hgrow. fold blocks. lia.
Qed.

Lemma take_bom raw rest : take (bom_length raw) (take (bom_length raw) raw ++ rest) = take (bom_length raw) raw
  ∧ drop (bom_length raw) (take (bom_length raw) raw ++ rest) = rest.
Proof.
  assert (Hlen : length (take (bom_length raw) raw) = bom_length raw).
  { unfold bom_length, has_bom. case_bool_decide as Hb; [by rewrite Hb|done]. }
  split; [by rewrite take_app_le, take_take, Nat.min_id by lia|]. rewrite drop_app_ge, Hlen, Nat.sub_diag by lia. done.
Qed.

(** The parser makes clean hunks. *)
Lemma file_ok_clean f : file_ok f → Forall clean (file_hunks f).
Proof.
  intros [Hshape Hplain]. assert (Hok : hunks_ok (file_hunks f)).
  { unfold shape_ok in Hshape. repeat match type of Hshape with match ?s with _ => _ end => destruct s end;
      try done; first [by rewrite Hshape|destruct Hshape as (_ & _ & ?); done|destruct Hshape as (_ & ->); done]. }
  assert (Hprint : ∀ h, h ∈ file_hunks f → Forall plain (hunk_lines h)).
  { intros h Hh. apply Forall_forall. intros l Hl. apply (proj1 (Forall_forall _ _) Hplain). unfold print_file.
    right. apply elem_of_app. right. rewrite list_elem_of_In, in_concat. exists (print_hunk h).
    rewrite <- !list_elem_of_In. split; [by apply list_elem_of_fmap_2|]. unfold print_hunk. right. apply elem_of_app. by left. }
  clear Hshape Hplain. induction (file_hunks f) as [|h hs IH]; [constructor|].
  destruct Hok as ((Hbody & _) & _ & Hok). constructor; [|apply IH; [done|intros h' Hh'; apply Hprint; by right]].
  assert (Hall : Forall plain (hunk_lines h)) by (apply Hprint; by left).
  apply Forall_forall. intros l Hl. eapply Forall_forall in Hbody; [|exact Hl]. eapply Forall_forall in Hall; [|exact Hl].
  destruct l as [|b l]; [done|]. apply bool_decide_eq_true in Hbody. destruct Hall as [Hlf Hcr].
  apply not_elem_of_cons in Hlf as [_ Hlf], Hcr as [_ Hcr]. split; [|by split].
  unfold marker. cbn. rewrite !elem_of_cons, elem_of_nil in Hbody. naive_solver.
Qed.

(** C12. Applying the hunks of a parsed patch to a file whose last line is terminated
    does what they say: each goes to its place in the original (the only occurrence
    of its old side, or the end of the file), the places are disjoint and in order,
    the candidate's lines are the original's with each place replaced by the new side
    of its hunk, every line outside the hunks and every context line keeps its bytes,
    line ending included, the byte order mark stays, and the candidate differs from
    the original and is within the limit. *)
Theorem buildPatchCandidate_applies (text raw : bytes) (files : list patchFile) (file : patchFile) (limit : Z)
    (k k' : nat) (candidate : bytes) (ranges : list replacementRange)
    (Hparse : parsePatch text = Ok files) (Hfile : file ∈ files)
    (Hterm : terminated (drop (bom_length raw) raw))
    (Hrun : buildPatchCandidate raw (file_hunks file) limit k = (Ok (candidate, ranges), k')) :
  let hunks := file_hunks file in
  let body := drop (bom_length raw) raw in
  ∃ places, Forall2 (placed (logical_lines body)) hunks places ∧ in_order 0 places
    ∧ take (bom_length raw) candidate = take (bom_length raw) raw
    ∧ segments (drop (bom_length raw) candidate)
      = splice 0 (segments body) (zip_with (fun hunk place =>
          (place, hunk_block (segments body) (dominantNewline raw) place.1 (hunk_lines hunk))) hunks places)
    ∧ logical_lines (drop (bom_length raw) candidate)
      = splice 0 (logical_lines body) (zip_with (fun hunk place => (place, new_lines hunk)) hunks places)
    ∧ candidate ≠ raw ∧ len candidate <= limit.
Proof.
  intros hunks body. apply parsePatch_sound in Hparse as (_ & Hok & _).
  assert (Hclean : Forall clean hunks) by (apply file_ok_clean; by eapply Forall_forall in Hok).
  destruct (candidate_blocks _ _ _ _ _ _ _ Hclean Hterm Hrun) as (places & Hplaces & Horder & -> & Hne & Hlimit).
  fold body in Hplaces, Hlimit |- *. set (ss := segments body) in *. set (blocks := zip_with (block_of raw) hunks places) in *.
  exists places. split; [done|]. split; [done|].
  destruct (take_bom raw (concat (splice 0 ss blocks))) as [Htake Hdrop]. split; [exact Htake|].
  rewrite Hdrop.
  assert (Hshaped : Forall line_shaped (splice 0 ss blocks)).
  { apply Forall_splice; [by apply terminated_segments|]. apply Forall_forall. intros b Hb.
    apply elem_of_lookup_zip_with in Hb as (i & hunk & place & -> & Hh & Hp).
    apply placed_shaped; [done|by eapply Forall_lookup_1|by eapply Forall2_lookup_lr]. }
  assert (Hlogical : logical_lines (concat (splice 0 ss blocks))
            = splice 0 (logical_lines body) (zip_with (fun hunk place => (place, new_lines hunk)) hunks places)).
  { unfold logical_lines. rewrite segments_concat, fmap_splice by done. f_equal. clear -Hplaces Hclean.
    unfold blocks. clear blocks. induction Hplaces as [|hunk place hunks places Hp _ IH]; [done|].
    apply Forall_cons in Hclean as [Hh Hclean]. cbn [zip_with fmap list_fmap]. f_equal; [|by apply IH].
    unfold map_block. rewrite (placed_logical raw hunk place Hh Hp). by destruct place. }
  split; [|split; [exact Hlogical|split; [exact Hne|]]].
  - rewrite segments_concat by done. f_equal. unfold blocks. apply zip_with_ext; [|done|done]. by intros hunk [s e].
  - unfold len in *. rewrite length_app.
    pose proof (len_splice raw blocks 0) as Hsplice. unfold len in Hsplice. fold body ss in Hsplice.
    rewrite drop_0 in Hsplice. unfold ss in Hsplice at 2. rewrite concat_segments in Hsplice.
    pose proof (f_equal length (take_drop (bom_length raw) raw)) as Hraw. rewrite length_app in Hraw. fold body in Hraw.
    specialize (Hsplice ltac:(by unfold blocks; rewrite blocks_places by (by eapply Forall2_length))). lia.
Qed.

(** ** Applied patches *)
Module Samples.
Definition hunk_of (eof : bool) (lines : list string) : patchHunk := mkHunk (to_bytes <$> lines) eof.
Definition text_of (lines : list string) : bytes := concat ((fun l => to_bytes l ++ [LF]) <$> lines).

(** A file of five lines; one hunk replaces the second, one adds at the end. *)
Definition sample_file : bytes := text_of ["alpha"; "beta"; "gamma"; "beta"; "delta"].
Definition sample_hunks : list patchHunk :=
  [hunk_of false [" alpha"; "-beta"; "+BETA"; "+and more"; " gamma"]; hunk_of true [" delta"; "+epsilon"]].
Definition sample_patch : patchFile := mkFile "Update" (to_bytes "greek.md") [] sample_hunks.

Example sample_applied :
  (buildPatchCandidate sample_file sample_hunks 1000 100%nat).1 ≫= (fun out => Ok out.1)
  = Ok (text_of ["alpha"; "BETA"; "and more"; "gamma"; "beta"; "delta"; "epsilon"]).
Proof. vm_compute. reflexivity. Qed.

(** [beta] alone would be ambiguous. *)
Example sample_ambiguous :
  (matchPatchHunk (lines_of sample_file) (hunk_of false ["-beta"]) 100%nat).1
  = Err (operationFailure CodeReplacementNotUnique "补丁旧行上下文在原文中不唯一").
Proof. vm_compute. reflexivity. Qed.

(** On a file without a final line feed two corner cases differ from what the hunks
    say. Deleting the last line in one hunk and adding at the end of the file in the
    next writes the separator twice, which leaves an empty line; *)
Definition unterminated : bytes := text_of ["a"] ++ to_bytes "b".

Example eof_after_deletion :
  (buildPatchCandidate unterminated [hunk_of false ["-b"]; hunk_of true ["+y"]] 1000 100%nat).1 ≫= (fun out => Ok out.1)
  = Ok (text_of ["a"; ""] ++ to_bytes "y").
Proof. vm_compute. reflexivity. Qed.

(** and an empty line added at the end only terminates the line before it. *)
Example empty_last_line :
  (buildPatchCandidate unterminated [hunk_of false [" b"; "+"]] 1000 100%nat).1 ≫= (fun out => Ok out.1)
  = Ok (text_of ["a"; "b"]).
Proof. vm_compute. reflexivity. Qed.

Lemma sample_parse : parsePatch (print_patch [sample_patch]) = Ok [sample_patch].
Proof. vm_compute. reflexivity. Qed.

Lemma sample_candidate : ∃ candidate ranges k', buildPatchCandidate sample_file sample_hunks 1000 100%nat = (Ok (candidate, ranges), k').
Proof. eexists _, _, _. vm_compute. reflexivity. Qed.
End Samples.

Import Samples.

Lemma buildPatchCandidate_applies_witness :
  ∃ candidate ranges k' places, buildPatchCandidate sample_file sample_hunks 1000 100%nat = (Ok (candidate, ranges), k')
    ∧ Forall2 (placed (logical_lines sample_file)) sample_hunks places
    ∧ logical_lines candidate
      = splice 0 (logical_lines sample_file) (zip_with (fun hunk place => (place, new_lines hunk)) sample_hunks places).
Proof.
  destruct sample_candidate as (candidate & ranges & k' & Hrun).
  assert (Hterm : terminated (drop (bom_length sample_file) sample_file)) by (right; vm_compute; reflexivity).
  destruct (buildPatchCandidate_applies _ _ _ _ _ _ _ _ _ sample_parse (list_elem_of_here _ _) Hterm Hrun) as (places & Hp & _ & _ & _ & Hl & _).
  exists candidate, ranges, k', places. split; [exact Hrun|]. split; [exact Hp|exact Hl].
Defined.
