(* ===== verification/Companion.v ===== *)
(** * The companion broker

    [packages/agentcore/companion]: the in-memory channel between a browser and a
    native companion. A browser creates a pairing, the native side attaches with the
    pairing code, the browser authorizes what may be done, operations are queued and
    handed out to authenticated, strictly increasing polls, and receipts come back.
    Every method holds the broker's mutex from beginning to end, so an execution is a
    sequence of calls. A call reads one instant of the clock; the secrets that
    crypto/rand yields are arguments; the decoding of a poll's body is the parameter
    [decode_exchange]. *)
From stdpp Require Import pretty.
From S2P Require Import Prelude GoStd.

(** ** Protocol (protocol.go) *)
Definition MaxPayload : Z := 128 * 2 ^ 10.
Definition Lease : duration := 45 * second.

Inductive error : Type :=
| ErrDenied
| ErrConflict
| ErrLimit.

Record Device := mkDevice {
  Device_ID : string;
  Device_Host : string;
  Device_User : string;
  Device_OS : string;
  Device_Workspace : string;
}.

Record Grant := mkGrant {
  Grant_Generation : Z;
  Grant_Space : string;
  Grant_Conversation : string;
  Grant_Files : bool;
  Grant_Shell : bool;
  Grant_Model : bool;
  Grant_Destination : string;
}.

Record Operation := mkOperation {
  Operation_ID : string;
  Operation_Run : string;
  Operation_Tool : string;
  Operation_Arguments : string;
}.

Record Receipt := mkReceipt {
  Receipt_Task : string;
  Receipt_TaskRun : string;
  Receipt_ID : string;
  Receipt_Device : string;
  Receipt_Conversation : string;
  Receipt_Run : string;
  Receipt_State : string;
  Receipt_Value : string;
  Receipt_Error : string;
}.

Record View := mkView {
  View_ID : string;
  View_State : string;
  View_Device : Device;
  View_Grant : option Grant;
  View_Receipts : list Receipt;
}.

Record Pair := mkPair { Pair_ID : string; Pair_Code : string; Pair_Secret : string }.
Record Attach := mkAttach { Attach_ID : string; Attach_Code : string; Attach_Device : Device }.
Record Channel := mkChannel { Channel_Token : string }.
Record Exchange := mkExchange { Exchange_Receipt : option Receipt }.
Record Delivery := mkDelivery { Delivery_Grant : option Grant; Delivery_Operation : option Operation }.

#[export] Instance Grant_eq_dec : EqDecision Grant.
Proof. solve_decision. Defined.

(** [strconv.FormatUint(sequence, 10)] is [pretty]. *)
Definition MAC (token origin id : string) (sequence : N) (body : string) : string :=
  let newline := String (ascii_of_byte 10) "" in
  hex_encode (hmac_sha256 token (origin +:+ newline +:+ id +:+ newline +:+ pretty sequence +:+ newline +:+ body)).

Definition Allowed (g : Grant) (tool : string) (model : bool) : bool :=
  if model && negb (Grant_Model g) then false
  else if bool_decide (tool ∈ ["list"; "read"; "stat"; "prepare_write"; "prepare_edit"]) then Grant_Files g
  else if bool_decide (tool ∈ ["commit"; "discard"]) then Grant_Files g && negb model
  else if bool_decide (tool ∈ ["shell"; "task"]) then Grant_Shell g
  else false.

(** ** State (broker.go) *)
Record record := mkRecord {
  record_receipt : Receipt;
  record_digest : list Z;
}.

Record connection := mkConnection {
  conn_owner : string;
  conn_browserDevice : string;
  conn_secret : string;
  conn_code : string;
  conn_token : string;
  conn_view : View;
  conn_created : time;
  conn_browserAt : time;
  conn_nativeAt : time;
  conn_sequence : N;
  conn_revoked : bool;
  conn_queue : option Operation;
  conn_records : gmap string record;
  conn_order : list string;
  conn_bytes : Z;
}.

Record Broker := mkBroker {
  broker_origin : string;
  broker_connections : gmap string connection;
}.

(** Assignments to a field. *)
Definition set_Receipt_State (v : string) (r : Receipt) : Receipt :=
  mkReceipt (Receipt_Task r) (Receipt_TaskRun r) (Receipt_ID r) (Receipt_Device r) (Receipt_Conversation r) (Receipt_Run r) v (Receipt_Value r) (Receipt_Error r).
Definition set_Receipt_Value (v : string) (r : Receipt) : Receipt :=
  mkReceipt (Receipt_Task r) (Receipt_TaskRun r) (Receipt_ID r) (Receipt_Device r) (Receipt_Conversation r) (Receipt_Run r) (Receipt_State r) v (Receipt_Error r).
Definition set_Receipt_Error (v : string) (r : Receipt) : Receipt :=
  mkReceipt (Receipt_Task r) (Receipt_TaskRun r) (Receipt_ID r) (Receipt_Device r) (Receipt_Conversation r) (Receipt_Run r) (Receipt_State r) (Receipt_Value r) v.
Definition set_View_State (v : string) (r : View) : View :=
  mkView (View_ID r) v (View_Device r) (View_Grant r) (View_Receipts r).
Definition set_View_Device (v : Device) (r : View) : View :=
  mkView (View_ID r) (View_State r) v (View_Grant r) (View_Receipts r).
Definition set_View_Grant (v : option Grant) (r : View) : View :=
  mkView (View_ID r) (View_State r) (View_Device r) v (View_Receipts r).
Definition set_View_Receipts (v : list Receipt) (r : View) : View :=
  mkView (View_ID r) (View_State r) (View_Device r) (View_Grant r) v.
Definition set_record_receipt (v : Receipt) (r : record) : record :=
  mkRecord v (record_digest r).
Definition set_conn_code (v : string) (r : connection) : connection :=
  mkConnection (conn_owner r) (conn_browserDevice r) (conn_secret r) v (conn_token r) (conn_view r) (conn_created r) (conn_browserAt r) (conn_nativeAt r) (conn_sequence r) (conn_revoked r) (conn_queue r) (conn_records r) (conn_order r) (conn_bytes r).
Definition set_conn_token (v : string) (r : connection) : connection :=
  mkConnection (conn_owner r) (conn_browserDevice r) (conn_secret r) (conn_code r) v (conn_view r) (conn_created r) (conn_browserAt r) (conn_nativeAt r) (conn_sequence r) (conn_revoked r) (conn_queue r) (conn_records r) (conn_order r) (conn_bytes r).
Definition set_conn_view (v : View) (r : connection) : connection :=
  mkConnection (conn_owner r) (conn_browserDevice r) (conn_secret r) (conn_code r) (conn_token r) v (conn_created r) (conn_browserAt r) (conn_nativeAt r) (conn_sequence r) (conn_revoked r) (conn_queue r) (conn_records r) (conn_order r) (conn_bytes r).
Definition set_conn_browserAt (v : time) (r : connection) : connection :=
  mkConnection (conn_owner r) (conn_browserDevice r) (conn_secret r) (conn_code r) (conn_token r) (conn_view r) (conn_created r) v (conn_nativeAt r) (conn_sequence r) (conn_revoked r) (conn_queue r) (conn_records r) (conn_order r) (conn_bytes r).
Definition set_conn_nativeAt (v : time) (r : connection) : connection :=
  mkConnection (conn_owner r) (conn_browserDevice r) (conn_secret r) (conn_code r) (conn_token r) (conn_view r) (conn_created r) (conn_browserAt r) v (conn_sequence r) (conn_revoked r) (conn_queue r) (conn_records r) (conn_order r) (conn_bytes r).
Definition set_conn_sequence (v : N) (r : connection) : connection :=
  mkConnection (conn_owner r) (conn_browserDevice r) (conn_secret r) (conn_code r) (conn_token r) (conn_view r) (conn_created r) (conn_browserAt r) (conn_nativeAt r) v (conn_revoked r) (conn_queue r) (conn_records r) (conn_order r) (conn_bytes r).
Definition set_conn_revoked (v : bool) (r : connection) : connection :=
  mkConnection (conn_owner r) (conn_browserDevice r) (conn_secret r) (conn_code r) (conn_token r) (conn_view r) (conn_created r) (conn_browserAt r) (conn_nativeAt r) (conn_sequence r) v (conn_queue r) (conn_records r) (conn_order r) (conn_bytes r).
Definition set_conn_queue (v : option Operation) (r : connection) : connection :=
  mkConnection (conn_owner r) (conn_browserDevice r) (conn_secret r) (conn_code r) (conn_token r) (conn_view r) (conn_created r) (conn_browserAt r) (conn_nativeAt r) (conn_sequence r) (conn_revoked r) v (conn_records r) (conn_order r) (conn_bytes r).
Definition set_conn_records (v : gmap string record) (r : connection) : connection :=
  mkConnection (conn_owner r) (conn_browserDevice r) (conn_secret r) (conn_code r) (conn_token r) (conn_view r) (conn_created r) (conn_browserAt r) (conn_nativeAt r) (conn_sequence r) (conn_revoked r) (conn_queue r) v (conn_order r) (conn_bytes r).
Definition set_conn_order (v : list string) (r : connection) : connection :=
  mkConnection (conn_owner r) (conn_browserDevice r) (conn_secret r) (conn_code r) (conn_token r) (conn_view r) (conn_created r) (conn_browserAt r) (conn_nativeAt r) (conn_sequence r) (conn_revoked r) (conn_queue r) (conn_records r) v (conn_bytes r).
Definition set_conn_bytes (v : Z) (r : connection) : connection :=
  mkConnection (conn_owner r) (conn_browserDevice r) (conn_secret r) (conn_code r) (conn_token r) (conn_view r) (conn_created r) (conn_browserAt r) (conn_nativeAt r) (conn_sequence r) (conn_revoked r) (conn_queue r) (conn_records r) (conn_order r) v.
Definition set_broker_connections (v : gmap string connection) (b : Broker) : Broker := mkBroker (broker_origin b) v.

Definition conn_state (c : connection) : string := View_State (conn_view c).
Definition conn_grant (c : connection) : option Grant := View_Grant (conn_view c).

Definition update_connection (id : string) (c : connection) (b : Broker) : Broker :=
  set_broker_connections (<[id := c]> (broker_connections b)) b.

(** ** Pairing *)
Definition New (origin : string) : Broker := mkBroker origin ∅.

Definition no_device : Device := mkDevice "" "" "" "" "".

Definition Create (now : time) (id code secret : string) (owner browserDevice : string) (b : Broker)
  : Broker * result error Pair :=
  let connections := filter (fun p => (5 * minute <? time_sub now (conn_browserAt p.2)) = false) (broker_connections b) in
  let b := set_broker_connections connections b in
  if bool_decide (owner = "") || bool_decide (browserDevice = "") then (b, Err ErrDenied)
  else if (16 <=? size connections)%nat then (b, Err ErrLimit)
  else
    let c := mkConnection owner browserDevice secret code "" (mkView id "pairing" no_device None []) now now time_zero
               0 false None ∅ [] 0 in
    (update_connection id c b, Ok (mkPair id code secret)).

Definition attach_denied (now : time) (a : Attach) (c : connection) : bool :=
  let device := Attach_Device a in
  conn_revoked c || bool_decide (conn_code c = "") || negb (bool_decide (Attach_Code a = conn_code c))
  || (5 * minute <? time_sub now (conn_created c))
  || bool_decide (Device_ID device = "") || bool_decide (Device_Host device = "") || bool_decide (Device_User device = "")
  || bool_decide (Device_Workspace device = "")
  || negb (bool_decide (Device_OS device ∈ ["linux"; "darwin"])).

Definition device_too_long (device : Device) : bool :=
  (104 <? str_len (Device_ID device)) || (256 <? str_len (Device_Host device)) || (256 <? str_len (Device_User device))
  || (4096 <? str_len (Device_Workspace device)).

Definition attach (now : time) (token : string) (a : Attach) (b : Broker) : Broker * result error Channel :=
  match broker_connections b !! Attach_ID a with
  | None => (b, Err ErrDenied)
  | Some c =>
    if attach_denied now a c then (b, Err ErrDenied)
    else if device_too_long (Attach_Device a) then (b, Err ErrDenied)
    else
      let view := set_View_State "awaiting_authorization" (set_View_Device (Attach_Device a) (conn_view c)) in
      let c := set_conn_view view (set_conn_nativeAt now (set_conn_token token (set_conn_code "" c))) in
      (update_connection (Attach_ID a) c b, Ok (mkChannel token))
  end.

(** ** Authorization *)
Definition revoke_receipt (r : Receipt) : Receipt :=
  let r := set_Receipt_Value "" r in
  if decide (Receipt_State r = "queued") then set_Receipt_State "not_executed" r
  else if decide (Receipt_State r = "dispatched") then set_Receipt_State "unknown" r
  else r.

Definition revoke_record (r : record) : record := set_record_receipt (revoke_receipt (record_receipt r)) r.

Definition revoke (c : connection) : connection :=
  let c := set_conn_view (set_View_State "revoked" (conn_view c)) (set_conn_queue None (set_conn_revoked true c)) in
  set_conn_records (revoke_record <$> conn_records c) c.

(** [browser]: the caller's connection, revoked when its lease ran out. *)
Definition browser (now : time) (owner id secret : string) (b : Broker) : Broker * result error connection :=
  match broker_connections b !! id with
  | None => (b, Err ErrDenied)
  | Some c =>
    if negb (bool_decide (conn_owner c = owner)) || negb (bool_decide (conn_secret c = secret)) then (b, Err ErrDenied)
    else if bool_decide (is_Some (conn_grant c)) && (Lease <? time_sub now (conn_browserAt c)) then
      (update_connection id (revoke c) b, Ok (revoke c))
    else (b, Ok c)
  end.

Definition Verify (id : string) (sequence : N) (mac body : string) (b : Broker) : bool :=
  match broker_connections b !! id with
  | None => false
  | Some c =>
    negb (conn_revoked c) && negb (bool_decide (conn_token c = "")) && (conn_sequence c <? sequence)%N
    && bool_decide (mac = MAC (conn_token c) (broker_origin b) id sequence body)
  end.

Definition Revoke (now : time) (owner id secret : string) (b : Broker) : Broker * result error unit :=
  match browser now owner id secret b with
  | (b, Err err) => (b, Err err)
  | (b, Ok c) => (update_connection id (revoke c) b, Ok tt)
  end.

Definition grant_denied (now : time) (device : string) (g : Grant) (c : connection) : bool :=
  conn_revoked c || bool_decide (conn_token c = "") || negb (bool_decide (Device_ID (View_Device (conn_view c)) = device))
  || bool_decide (is_Some (conn_grant c)) || bool_decide (Grant_Space g = "") || bool_decide (Grant_Conversation g = "")
  || (negb (Grant_Files g) && negb (Grant_Shell g)) || (Grant_Model g && bool_decide (Grant_Destination g = ""))
  || (Lease <? time_sub now (conn_nativeAt c)).

(** A live connection of the same browser device for the same conversation. *)
Definition same_conversation (c : connection) (g : Grant) (other : connection) : bool :=
  negb (conn_revoked other) && bool_decide (conn_browserDevice other = conn_browserDevice c)
  && match conn_grant other with
     | Some g' => bool_decide (Grant_Conversation g' = Grant_Conversation g)
     | None => false
     end.

Definition Authorize (now : time) (owner id secret device : string) (g : Grant) (b : Broker) : Broker * result error unit :=
  match browser now owner id secret b with
  | (b, Err err) => (b, Err err)
  | (b, Ok c) =>
    if grant_denied now device g c then (b, Err ErrDenied)
    else if existsb (fun p => same_conversation c g p.2) (map_to_list (broker_connections b)) then (b, Err ErrConflict)
    else
      let view := set_View_State "connected" (set_View_Grant (Some g) (conn_view c)) in
      (update_connection id (set_conn_view view (set_conn_browserAt now c)) b, Ok tt)
  end.

Definition view_receipt (state : string) (c : connection) (id : string) : option Receipt :=
  r ← conn_records c !! id;
  let r := record_receipt r in
  Some (if bool_decide (Receipt_State r = "dispatched") && bool_decide (state = "disconnected")
        then set_Receipt_State "unknown" r else r).

Definition view (now : time) (owner id secret : string) (b : Broker) : Broker * result error View :=
  match browser now owner id secret b with
  | (b, Err err) => (b, Err err)
  | (b, Ok c) =>
    let c := if conn_revoked c then c else set_conn_browserAt now c in
    let v := conn_view c in
    let v := if negb (conn_revoked c) && negb (bool_decide (conn_token c = "")) && (5 * second <? time_sub now (conn_nativeAt c))
             then set_View_State "disconnected" v else v in
    let recent := drop (length (conn_order c) - 20) (conn_order c) in
    (update_connection id c b, Ok (set_View_Receipts (omap (view_receipt (View_State v) c) recent) v))
  end.

(** ** Operations *)

(** The digest of [json.Marshal(op)]. *)
Definition operation_json (op : Operation) : string :=
  "{" +:+ json_field "id" (json_string (Operation_ID op)) +:+ "," +:+ json_field "run" (json_string (Operation_Run op))
  +:+ "," +:+ json_field "tool" (json_string (Operation_Tool op)) +:+ ","
  +:+ json_field "arguments" (json_raw (Operation_Arguments op)) +:+ "}".
Definition operation_digest (op : Operation) : list Z := sha256_bytes (bytes_of (operation_json op)).

Definition submit_denied (now : time) (op : Operation) (model : bool) (c : connection) : bool :=
  match conn_grant c with
  | None => true
  | Some g =>
    conn_revoked c || (Lease <? time_sub now (conn_browserAt c)) || (Lease <? time_sub now (conn_nativeAt c))
    || negb (Allowed g (Operation_Tool op) model)
  end.

Definition operation_invalid (op : Operation) : bool :=
  (str_len (Operation_ID op) <? 1) || (160 <? str_len (Operation_ID op)) || (160 <? str_len (Operation_Run op))
  || (MaxPayload / 2 <? str_len (Operation_Arguments op)) || negb (json_valid (Operation_Arguments op)).

Definition queued_receipt (op : Operation) (c : connection) : Receipt :=
  mkReceipt "" "" (Operation_ID op) (Device_ID (View_Device (conn_view c)))
    (match conn_grant c with Some g => Grant_Conversation g | None => "" end) (Operation_Run op) "queued" "" "".

(** [submit] on a connection. *)
Definition submit (now : time) (op : Operation) (model : bool) (c : connection) : connection * result error Receipt :=
  if submit_denied now op model c then (c, Err ErrDenied)
  else if operation_invalid op then (c, Err ErrDenied)
  else
    let digest := operation_digest op in
    match conn_records c !! Operation_ID op with
    | Some r => if negb (bool_decide (record_digest r = digest)) then (c, Err ErrConflict) else (c, Ok (record_receipt r))
    | None =>
      if bool_decide (is_Some (conn_queue c)) || (1024 <=? size (conn_records c))%nat || (8 * 2 ^ 20 <=? conn_bytes c) then
        (c, Err ErrLimit)
      else
        let r := queued_receipt op c in
        let c := set_conn_records (<[Operation_ID op := mkRecord r digest]> (conn_records c)) c in
        let c := set_conn_order (conn_order c ++ [Operation_ID op]) c in
        (set_conn_queue (Some op) c, Ok r)
    end.

Definition Submit (now : time) (owner id secret : string) (op : Operation) (b : Broker) : Broker * result error Receipt :=
  match browser now owner id secret b with
  | (b, Err err) => (b, Err err)
  | (b, Ok c) => let (c, res) := submit now op false c in (update_connection id c b, res)
  end.

Definition find_receipt (operation : string) (c : connection) : result error Receipt :=
  match conn_records c !! operation with None => Err ErrDenied | Some r => Ok (record_receipt r) end.

Definition receipt (now : time) (owner id secret operation : string) (b : Broker) : Broker * result error Receipt :=
  match browser now owner id secret b with
  | (b, Err err) => (b, Err err)
  | (b, Ok c) => (b, find_receipt operation c)
  end.

(** ** Polls of the native side *)
Section Exchange.
Context (decode_exchange : string → option Exchange).

Definition receipt_denied (r : Receipt) (c : connection) : bool :=
  match conn_records c !! Receipt_ID r, conn_grant c with
  | Some known, Some g =>
    let known := record_receipt known in
    negb (bool_decide (Receipt_State known ∈ ["dispatched"; "completed"]))
    || negb (bool_decide (Receipt_Device r = Device_ID (View_Device (conn_view c))))
    || negb (bool_decide (Receipt_Conversation r = Grant_Conversation g))
    || negb (bool_decide (Receipt_Run r = Receipt_Run known)) || negb (bool_decide (Receipt_State r = "completed"))
    || (MaxPayload / 2 <? str_len (Receipt_Value r))
  | _, _ => true
  end.

(** The first receipt of an operation is kept, later ones are ignored. *)
Definition store_receipt (r : Receipt) (c : connection) : connection :=
  match conn_records c !! Receipt_ID r with
  | None => c
  | Some known =>
    if decide (Receipt_State (record_receipt known) = "completed") then c
    else if 8 * 2 ^ 20 <? conn_bytes c + str_len (Receipt_Value r) then
      let limited := set_Receipt_Error "receipt_storage_limit" (set_Receipt_State "unknown" (record_receipt known)) in
      set_conn_records (<[Receipt_ID r := set_record_receipt limited known]> (conn_records c)) c
    else
      set_conn_bytes (conn_bytes c + str_len (Receipt_Value r))
        (set_conn_records (<[Receipt_ID r := set_record_receipt r known]> (conn_records c)) c)
  end.

Definition mark_dispatched (r : record) : record :=
  set_record_receipt (set_Receipt_State "dispatched" (record_receipt r)) r.

(** The queued operation is taken: it is marked before it is handed out. *)
Definition dispatch (now : time) (c : connection) : connection * Delivery :=
  let c := set_conn_nativeAt now c in
  match conn_queue c with
  | None => (c, mkDelivery (conn_grant c) None)
  | Some op =>
    (set_conn_queue None (set_conn_records (alter mark_dispatched (Operation_ID op) (conn_records c)) c),
     mkDelivery (conn_grant c) (Some op))
  end.

Definition exchange (now : time) (id : string) (sequence : N) (mac body : string) (b : Broker)
  : Broker * result error Delivery :=
  match broker_connections b !! id with
  | None => (b, Err ErrDenied)
  | Some c =>
    if bool_decide (conn_token c = "") || (sequence <=? conn_sequence c)%N
       || negb (bool_decide (mac = MAC (conn_token c) (broker_origin b) id sequence body)) then (b, Err ErrDenied)
    else
      let c := set_conn_sequence sequence c in
      if conn_revoked c || (Lease <? time_sub now (conn_browserAt c)) then (update_connection id (revoke c) b, Err ErrDenied)
      else
        match decode_exchange body with
        | None => (update_connection id c b, Err ErrDenied)
        | Some e =>
          if match Exchange_Receipt e with Some r => receipt_denied r c | None => false end then
            (update_connection id c b, Err ErrDenied)
          else
            let c := match Exchange_Receipt e with Some r => store_receipt r c | None => c end in
            let (c, d) := dispatch now c in
            (update_connection id c b, Ok d)
        end
  end.
End Exchange.

(** ** The model's side *)
Definition model_match (now : time) (owner device conversation destination : string) (c : connection) : bool :=
  match conn_grant c with
  | None => false
  | Some g =>
    negb (conn_revoked c) && Grant_Model g && bool_decide (conn_owner c = owner)
    && bool_decide (conn_browserDevice c = device) && bool_decide (Grant_Conversation g = conversation)
    && bool_decide (Grant_Destination g = destination)
    && (time_sub now (conn_browserAt c) <? Lease) && (time_sub now (conn_nativeAt c) <? Lease)
  end.

Definition ModelConnection (now : time) (owner device conversation destination : string) (b : Broker) : string :=
  match filter (fun p => model_match now owner device conversation destination p.2 = true) (map_to_list (broker_connections b)) with
  | (id, _) :: _ => id
  | [] => ""
  end.

Definition ModelSubmit (now : time) (id owner device conversation destination : string) (op : Operation) (b : Broker)
  : Broker * result error Receipt :=
  match broker_connections b !! id with
  | None => (b, Err ErrDenied)
  | Some c =>
    match conn_grant c with
    | None => (b, Err ErrDenied)
    | Some g =>
      if negb (bool_decide (conn_owner c = owner)) || negb (bool_decide (conn_browserDevice c = device))
         || negb (bool_decide (Grant_Conversation g = conversation)) || negb (bool_decide (Grant_Destination g = destination))
      then (b, Err ErrDenied)
      else let (c, res) := submit now op true c in (update_connection id c b, res)
    end
  end.

Definition ModelReceipt (now : time) (id operation : string) (b : Broker) : result error Receipt :=
  match broker_connections b !! id with
  | None => Err ErrDenied
  | Some c => if conn_revoked c || (Lease <? time_sub now (conn_browserAt c)) then Err ErrDenied else find_receipt operation c
  end.

Definition Principal (id : string) (b : Broker) : result error (string * string * option Grant) :=
  match broker_connections b !! id with
  | None => Err ErrDenied
  | Some c => if conn_revoked c then Err ErrDenied else Ok (conn_owner c, conn_browserDevice c, conn_grant c)
  end.

Definition RevokeChannel (id : string) (b : Broker) : Broker :=
  match broker_connections b !! id with None => b | Some c => update_connection id (revoke c) b end.

(** ** Calls on a broker *)
Inductive Request : Type :=
| ReqCreate (id code secret owner browserDevice : string)
| ReqAttach (token : string) (a : Attach)
| ReqRevoke (owner id secret : string)
| ReqAuthorize (owner id secret device : string) (g : Grant)
| ReqView (owner id secret : string)
| ReqSubmit (owner id secret : string) (op : Operation)
| ReqReceipt (owner id secret operation : string)
| ReqExchange (id : string) (sequence : N) (mac body : string)
| ReqModelSubmit (id owner device conversation destination : string) (op : Operation)
| ReqRevokeChannel (id : string).

Section Execution.
Context (decode_exchange : string → option Exchange).

(** The broker after a call, and the operation it handed out on which connection. *)
Definition perform (now : time) (req : Request) (b : Broker) : Broker * option (string * Operation) :=
  match req with
  | ReqCreate id code secret owner browserDevice => ((Create now id code secret owner browserDevice b).1, None)
  | ReqAttach token a => ((attach now token a b).1, None)
  | ReqRevoke owner id secret => ((Revoke now owner id secret b).1, None)
  | ReqAuthorize owner id secret device g => ((Authorize now owner id secret device g b).1, None)
  | ReqView owner id secret => ((view now owner id secret b).1, None)
  | ReqSubmit owner id secret op => ((Submit now owner id secret op b).1, None)
  | ReqReceipt owner id secret operation => ((receipt now owner id secret operation b).1, None)
  | ReqExchange id sequence mac body =>
    let (b, res) := exchange decode_exchange now id sequence mac body b in
    (b, match res with Ok d => op ← Delivery_Operation d; Some (id, op) | Err _ => None end)
  | ReqModelSubmit id owner device conversation destination op =>
    ((ModelSubmit now id owner device conversation destination op b).1, None)
  | ReqRevokeChannel id => (RevokeChannel id b, None)
  end.

(** ** How a connection changes *)

(** A poll that was let through. *)
Definition poll (now : time) (sequence : N) (r : option Receipt) (c : connection) : connection * Delivery :=
  dispatch now (match r with Some r => store_receipt r (set_conn_sequence sequence c) | None => set_conn_sequence sequence c end).

Inductive conn_step (now : time) : connection → connection → Prop :=
| cs_revoke c : conn_step now c (revoke c)
| cs_attach c token view :
  View_Grant view = conn_grant c →
  conn_step now c (set_conn_view view (set_conn_nativeAt now (set_conn_token token (set_conn_code "" c))))
| cs_touch c : conn_revoked c = false → conn_step now c (set_conn_browserAt now c)
| cs_submit c op model : conn_step now c (submit now op model c).1
| cs_sequence c sequence : (conn_sequence c < sequence)%N → conn_step now c (set_conn_sequence sequence c)
| cs_poll c sequence r :
  (conn_sequence c < sequence)%N → conn_revoked c = false → time_sub now (conn_browserAt c) <= Lease →
  match r with Some r => receipt_denied r (set_conn_sequence sequence c) = false | None => True end →
  conn_step now c (poll now sequence r c).1.

Definition authorized (now : time) (g : Grant) (c : connection) : connection :=
  set_conn_view (set_View_State "connected" (set_View_Grant (Some g) (conn_view c))) (set_conn_browserAt now c).

Definition fresh_connection (now : time) (id code secret owner browserDevice : string) : connection :=
  mkConnection owner browserDevice secret code "" (mkView id "pairing" no_device None []) now now time_zero 0 false None ∅ [] 0.

(** The identifier a call may give to a new pairing. *)
Definition created (req : Request) : gset string := match req with ReqCreate id _ _ _ _ => {[id]} | _ => ∅ end.

(** The connections after a call that may create those of [made]. *)
Inductive change (now : time) (made : gset string) (m : gmap string connection) : option (string * Operation) → gmap string connection → Prop :=
| ch_same : change now made m None m
| ch_expire P `{∀ p, Decision (P p)} : change now made m None (filter P m)
| ch_create P `{∀ p, Decision (P p)} id code secret owner browserDevice :
  id ∈ made →
  change now made m None (<[id := fresh_connection now id code secret owner browserDevice]> (filter P m))
| ch_step id c c' : m !! id = Some c → rtc (conn_step now) c c' → change now made m None (<[id := c']> m)
| ch_authorize id c c1 g :
  m !! id = Some c → c1 = c ∨ c1 = revoke c → conn_revoked c1 = false → conn_grant c1 = None →
  (∀ j other, <[id := c1]> m !! j = Some other → same_conversation c1 g other = false) →
  change now made m None (<[id := authorized now g c1]> m)
| ch_poll id c sequence r op :
  m !! id = Some c → conn_step now c (poll now sequence r c).1 → conn_revoked c = false →
  time_sub now (conn_browserAt c) <= Lease → (conn_sequence c < sequence)%N → conn_queue c = Some op →
  change now made m (Some (id, op)) (<[id := (poll now sequence r c).1]> m).

Lemma browser_change now owner id secret b b' res :
  browser now owner id secret b = (b', res) →
  match res with
  | Err _ => b' = b
  | Ok c1 => broker_origin b' = broker_origin b ∧ ∃ c, broker_connections b !! id = Some c ∧ (c1 = c ∨ c1 = revoke c)
             ∧ broker_connections b' = <[id := c1]> (broker_connections b)
  end.
Proof.
  unfold browser. destruct (broker_connections b !! id) as [c|] eqn:Hc; [|by intros [= <- <-]].
  destruct (_ || _); [by intros [= <- <-]|]. destruct (_ && _); intros [= <- <-].
  - split; [done|]. exists c. split; [done|]. split; [by right|done].
  - split; [done|]. exists c. split; [done|]. split; [by left|]. by rewrite insert_id.
Qed.

Lemma maybe_revoked now c c1 : c1 = c ∨ c1 = revoke c → rtc (conn_step now) c c1.
Proof. intros [-> | ->]; [done|]. apply rtc_once, cs_revoke. Qed.

(** A step after [browser]. *)
Lemma browser_step now made m id c c1 c2 :
  m !! id = Some c → c1 = c ∨ c1 = revoke c → rtc (conn_step now) c1 c2 →
  change now made m None (<[id := c2]> (<[id := c1]> m)).
Proof.
  intros Hc H1 H2. rewrite insert_insert_eq. eapply ch_step; [done|]. etrans; [by apply maybe_revoked|done].
Qed.

Lemma exchange_change now made id sequence mac body b :
  change now made (broker_connections b) (perform now (ReqExchange id sequence mac body) b).2
    (broker_connections (perform now (ReqExchange id sequence mac body) b).1).
Proof.
  cbn [perform]. unfold exchange. destruct (broker_connections b !! id) as [c|] eqn:Hc; [|apply ch_same].
  destruct (_ || negb _) eqn:Hauth; [apply ch_same|].
  apply orb_false_iff in Hauth as [Hauth _]. apply orb_false_iff in Hauth as [_ Hseq]. apply N.leb_gt in Hseq.
  destruct (conn_revoked (set_conn_sequence sequence c) || _) eqn:Hlive.
  { cbn. eapply ch_step; [done|]. eapply rtc_l; [by apply cs_sequence|]. apply rtc_once, cs_revoke. }
  apply orb_false_iff in Hlive as [Hrev Hlease]. apply Z.ltb_ge in Hlease. cbn in Hrev, Hlease.
  assert (Hseqstep : change now made (broker_connections b) None (<[id := set_conn_sequence sequence c]> (broker_connections b))).
  { eapply ch_step; [done|]. by apply rtc_once, cs_sequence. }
  destruct (decode_exchange body) as [e|]; [|exact Hseqstep].
  destruct (match Exchange_Receipt e with Some r => _ | None => false end) eqn:Hdenied; [exact Hseqstep|].
  assert (Hpoll : conn_step now c (poll now sequence (Exchange_Receipt e) c).1).
  { apply cs_poll; [done..|]. by destruct (Exchange_Receipt e). }
  unfold poll in Hpoll. destruct (dispatch now _) as [c' d] eqn:Hdispatch. cbn [fst snd update_connection set_broker_connections broker_connections].
  pose proof Hdispatch as Hd. unfold dispatch in Hd.
  set (c0 := match Exchange_Receipt e with Some r => store_receipt r (set_conn_sequence sequence c) | None => set_conn_sequence sequence c end) in *.
  assert (Hq : conn_queue c0 = conn_queue c).
  { unfold c0. destruct (Exchange_Receipt e) as [r|]; [|done]. unfold store_receipt. by repeat case_match. }
  cbn in Hd. rewrite Hq in Hd. destruct (conn_queue c) as [op|] eqn:Hqueue; injection Hd as Hc' <-; cbn.
  - assert (c' = (poll now sequence (Exchange_Receipt e) c).1) as -> by (unfold poll; fold c0; by rewrite Hdispatch).
    apply ch_poll; try done.
  - eapply ch_step; [done|]. by apply rtc_once.
Qed.

Lemma submit_change now made m id c op model :
  m !! id = Some c → change now made m None (<[id := (submit now op model c).1]> m).
Proof. intros Hc. eapply ch_step; [done|]. apply rtc_once, cs_submit. Qed.

Lemma perform_change now req b :
  change now (created req) (broker_connections b) (perform now req b).2 (broker_connections (perform now req b).1).
Proof.
  destruct req as [id code secret owner dev|token a|owner id secret|owner id secret device g|owner id secret
    |owner id secret op|owner id secret operation|id sequence mac body|id owner device conv dest op|id].
  - cbn. unfold Create. cbv zeta. destruct (_ || _); [apply ch_expire|]. destruct (16 <=? _)%nat; [apply ch_expire|]. apply ch_create. set_solver.
  - cbn. unfold attach. destruct (broker_connections b !! Attach_ID a) as [c|] eqn:Hc; [|apply ch_same].
    destruct (attach_denied _ _ _); [apply ch_same|]. destruct (device_too_long _); [apply ch_same|].
    cbn. eapply ch_step; [done|]. by apply rtc_once, cs_attach.
  - cbn. unfold Revoke. destruct (browser now owner id secret b) as [b' [c|err]] eqn:Hb; apply browser_change in Hb.
    + destruct Hb as (_ & c0 & Hc & H1 & Hm). cbn. rewrite Hm. eapply browser_step; [done|done|]. apply rtc_once, cs_revoke.
    + subst b'. apply ch_same.
  - cbn. unfold Authorize. destruct (browser now owner id secret b) as [b' [c|err]] eqn:Hb; apply browser_change in Hb; [|subst b'; apply ch_same].
    destruct Hb as (_ & c0 & Hc & H1 & Hm).
    assert (Hsame : change now ∅ (broker_connections b) None (broker_connections b')).
    { rewrite Hm. eapply ch_step; [done|]. by apply maybe_revoked. }
    destruct (grant_denied now device g c) eqn:Hdenied; [exact Hsame|].
    destruct (existsb _ _) eqn:Hconf; [exact Hsame|]. cbn. rewrite Hm, insert_insert_eq.
    unfold grant_denied in Hdenied. rewrite !orb_false_iff in Hdenied. destruct_and? Hdenied.
    eapply ch_authorize; [done|done|done| |].
    + match goal with H : bool_decide (is_Some (conn_grant c)) = false |- _ => apply bool_decide_eq_false, eq_None_not_Some in H; exact H end.
    + intros j other Hj. apply not_true_iff_false. intros Hs. apply not_true_iff_false in Hconf. apply Hconf, existsb_exists.
      exists (j, other). split; [|done]. apply list_elem_of_In, elem_of_map_to_list. by rewrite Hm.
  - cbn. unfold view. destruct (browser now owner id secret b) as [b' [c|err]] eqn:Hb; apply browser_change in Hb; [|subst b'; apply ch_same].
    destruct Hb as (_ & c0 & Hc & H1 & Hm). cbv zeta. cbn [fst update_connection set_broker_connections broker_connections].
    rewrite Hm. eapply browser_step; [done|done|]. destruct (conn_revoked c) eqn:Hr; [done|]. by apply rtc_once, cs_touch.
  - cbn. unfold Submit. destruct (browser now owner id secret b) as [b' [c|err]] eqn:Hb; apply browser_change in Hb; [|subst b'; apply ch_same].
    destruct Hb as (_ & c0 & Hc & H1 & Hm). destruct (submit now op false c) as [c2 res] eqn:Hs. cbn. rewrite Hm.
    eapply browser_step; [done|done|]. apply rtc_once. replace c2 with (submit now op false c).1 by (by rewrite Hs). apply cs_submit.
  - cbn. unfold receipt. destruct (browser now owner id secret b) as [b' [c|err]] eqn:Hb; apply browser_change in Hb; [|subst b'; apply ch_same].
    destruct Hb as (_ & c0 & Hc & H1 & Hm). cbn. rewrite Hm. eapply ch_step; [done|]. by apply maybe_revoked.
  - apply exchange_change.
  - cbn. unfold ModelSubmit. destruct (broker_connections b !! id) as [c|] eqn:Hc; [|apply ch_same].
    destruct (conn_grant c) as [g|]; [|apply ch_same]. destruct (_ || _); [apply ch_same|].
    destruct (submit now op true c) as [c2 res] eqn:Hs. cbn. replace c2 with (submit now op true c).1 by (by rewrite Hs).
    by apply submit_change.
  - cbn. unfold RevokeChannel. destruct (broker_connections b !! id) as [c|] eqn:Hc; [|apply ch_same].
    cbn. eapply ch_step; [done|]. apply rtc_once, cs_revoke.
Qed.
End Execution.

(** ** What holds of every connection *)
Definition receipt_state (r : record) : string := Receipt_State (record_receipt r).

(** What happens to a receipt: handed out, then settled, or dropped unexecuted. *)
Inductive receipt_move : string → string → Prop :=
| move_dispatch : receipt_move "queued" "dispatched"
| move_drop : receipt_move "queued" "not_executed"
| move_complete : receipt_move "dispatched" "completed"
| move_lose : receipt_move "dispatched" "unknown".

(** A queued operation is covered by the grant of a live connection and has its
    receipt, not yet handed out. *)
Definition conn_ok (c : connection) : Prop :=
  ∀ op, conn_queue c = Some op → conn_revoked c = false
    ∧ (∃ g, conn_grant c = Some g ∧ Allowed g (Operation_Tool op) false = true)
    ∧ ∃ r, conn_records c !! Operation_ID op = Some r ∧ receipt_state r = "queued".

(** No receipt is lost, and each goes only forward. *)
Definition receipts_advance (c c' : connection) : Prop :=
  ∀ id r, conn_records c !! id = Some r →
    ∃ r', conn_records c' !! id = Some r' ∧ record_digest r' = record_digest r
      ∧ rtc receipt_move (receipt_state r) (receipt_state r').

#[export] Instance receipts_advance_preorder : PreOrder receipts_advance.
Proof.
  split.
  - intros c id r Hr. by exists r.
  - intros c1 c2 c3 H12 H23 id r Hr. destruct (H12 id r Hr) as (r2 & Hr2 & Hd2 & Hm2).
    destruct (H23 id r2 Hr2) as (r3 & Hr3 & Hd3 & Hm3). exists r3. split; [done|]. split; [congruence|by etrans].
Qed.

Lemma Allowed_weaken g tool model : Allowed g tool model = true → Allowed g tool false = true.
Proof.
  unfold Allowed. destruct model; [|done]. cbn [andb]. destruct (negb (Grant_Model g)); [done|].
  destruct (bool_decide _); [done|]. destruct (bool_decide _); [|done]. by rewrite andb_false_r.
Qed.

Lemma receipts_advance_same c c' : conn_records c' = conn_records c → receipts_advance c c'.
Proof. intros Heq id r Hr. exists r. by rewrite Heq. Qed.

Lemma revoke_advance c : receipts_advance c (revoke c).
Proof.
  intros id r Hr. exists (revoke_record r). cbn. rewrite lookup_fmap, Hr. split; [done|]. split; [done|].
  unfold receipt_state, revoke_record, revoke_receipt. cbn. case_decide as Hq; cbn in Hq |- *.
  - rewrite Hq. apply rtc_once, move_drop.
  - case_decide as Hd; cbn in Hd |- *; [rewrite Hd; apply rtc_once, move_lose|done].
Qed.

(** Inserting at a known identifier moves one receipt. *)
Lemma insert_advance c c' id r r' :
  conn_records c !! id = Some r → conn_records c' = <[id := r']> (conn_records c) →
  record_digest r' = record_digest r → rtc receipt_move (receipt_state r) (receipt_state r') → receipts_advance c c'.
Proof.
  intros Hr Heq Hd Hm j r0 Hj. rewrite Heq. destruct (decide (j = id)) as [->|Hne].
  - rewrite Hr in Hj. injection Hj as <-. exists r'. by rewrite lookup_insert_eq.
  - exists r0. by rewrite lookup_insert_ne.
Qed.

Lemma submit_ok now op model c : conn_ok c → conn_ok (submit now op model c).1 ∧ receipts_advance c (submit now op model c).1.
Proof.
  intros Hok. unfold submit. destruct (submit_denied now op model c) eqn:Hd; [done|].
  destruct (operation_invalid op); [done|]. cbv zeta.
  destruct (conn_records c !! Operation_ID op) as [r|] eqn:Hr; [by destruct (negb _)|].
  destruct (_ || _); [done|]. cbn [fst]. unfold submit_denied in Hd.
  destruct (conn_grant c) as [g|] eqn:Hg; [|done]. rewrite !orb_false_iff in Hd.
  destruct Hd as [[[Hrev _] _] Hallow]. apply negb_false_iff, Allowed_weaken in Hallow. split.
  - intros op' [= <-]. cbn. split; [done|]. split; [by exists g|].
    eexists. rewrite lookup_insert_eq. by split.
  - intros id r0 Hr0. exists r0. cbn. by rewrite lookup_insert_ne by congruence.
Qed.

Lemma store_receipt_fields r c :
  conn_queue (store_receipt r c) = conn_queue c ∧ conn_revoked (store_receipt r c) = conn_revoked c
  ∧ conn_view (store_receipt r c) = conn_view c ∧ conn_browserDevice (store_receipt r c) = conn_browserDevice c
  ∧ conn_sequence (store_receipt r c) = conn_sequence c ∧ conn_token (store_receipt r c) = conn_token c.
Proof. unfold store_receipt. destruct (conn_records c !! _); [|done]. case_decide; [done|]. by destruct (_ <? _). Qed.

Lemma store_receipt_ok r c : conn_ok c → receipt_denied r c = false → conn_ok (store_receipt r c) ∧ receipts_advance c (store_receipt r c).
Proof.
  intros Hok Hden. unfold receipt_denied in Hden.
  destruct (conn_records c !! Receipt_ID r) as [known|] eqn:Hk; [|done]. destruct (conn_grant c) as [g|]; [|done].
  cbv zeta in Hden. rewrite !orb_false_iff in Hden. destruct Hden as [[[[[Hst _] _] _] Hcomp] _].
  apply negb_false_iff, bool_decide_eq_true in Hst, Hcomp.
  assert (Hmove : ∀ c' r', conn_queue c' = conn_queue c → conn_revoked c' = conn_revoked c → conn_view c' = conn_view c →
    conn_records c' = <[Receipt_ID r := r']> (conn_records c) → record_digest r' = record_digest known →
    rtc receipt_move (receipt_state known) (receipt_state r') → conn_ok c' ∧ receipts_advance c c').
  { intros c' r' Hq Hrv Hv Hrec Hd Hm. split; [|by eapply insert_advance].
    intros op Hop. rewrite Hq in Hop. destruct (Hok op Hop) as (Hl & Hg & r0 & Hr0 & Hs0).
    rewrite Hrv. unfold conn_grant. rewrite Hv, Hrec. split; [done|]. split; [done|]. exists r0.
    rewrite lookup_insert_ne; [done|]. intros Heq. rewrite <- Heq, Hk in Hr0. injection Hr0 as <-.
    unfold receipt_state in Hs0. rewrite Hs0 in Hst. set_solver. }
  unfold store_receipt. rewrite Hk. case_decide as Hdone; [done|].
  assert (receipt_state known = "dispatched") as Hdisp by (unfold receipt_state; set_solver).
  destruct (_ <? _); eapply Hmove; try done; rewrite Hdisp; unfold receipt_state; cbn.
  - apply rtc_once, move_lose.
  - rewrite Hcomp. apply rtc_once, move_complete.
Qed.

Lemma alter_Some {A} (f : A → A) (m : gmap string A) i x : m !! i = Some x → alter f i m = <[i := f x]> m.
Proof.
  intros Hx. apply map_eq. intros j. destruct (decide (i = j)) as [<-|Hne].
  - by rewrite lookup_alter_eq, Hx, lookup_insert_eq.
  - by rewrite lookup_alter_ne, lookup_insert_ne.
Qed.

Lemma dispatch_ok now c : conn_ok c → conn_ok (dispatch now c).1 ∧ receipts_advance c (dispatch now c).1.
Proof.
  intros Hok. unfold dispatch. cbn. destruct (conn_queue c) as [op|] eqn:Hq; cbn.
  - split; [done|]. destruct (Hok op Hq) as (_ & _ & r & Hr & Hs).
    eapply (insert_advance _ _ _ r); [done|by apply alter_Some|reflexivity|].
    rewrite Hs. apply rtc_once, move_dispatch.
  - split; [|by apply receipts_advance_same]. intros op Hop. cbn in Hop. congruence.
Qed.

Lemma conn_step_ok now c c' : conn_ok c → conn_step now c c' → conn_ok c' ∧ receipts_advance c c'.
Proof.
  intros Hok Hstep. destruct Hstep as [c|c token view Hview|c Hr|c op model|c sequence Hs|c sequence r Hs Hr Hl Hd].
  - split; [done|apply revoke_advance].
  - split; [|by apply receipts_advance_same]. intros op Hop. cbn in Hop. destruct (Hok op Hop) as (? & Hg & ?).
    split; [done|]. split; [|done]. unfold conn_grant. cbn. by rewrite Hview.
  - split; [|by apply receipts_advance_same]. intros op Hop. exact (Hok op Hop).
  - by apply submit_ok.
  - split; [|by apply receipts_advance_same]. intros op Hop. exact (Hok op Hop).
  - unfold poll. assert (Hok1 : conn_ok (set_conn_sequence sequence c)) by (intros op Hop; exact (Hok op Hop)).
    assert (H1 : receipts_advance c (set_conn_sequence sequence c)) by (by apply receipts_advance_same).
    destruct r as [r|].
    + destruct (store_receipt_ok r _ Hok1 Hd) as [Hok2 H2]. destruct (dispatch_ok now _ Hok2) as [Hok3 H3].
      split; [done|]. by do 2 etrans.
    + destruct (dispatch_ok now _ Hok1) as [Hok3 H3]. split; [done|by etrans].
Qed.

Lemma conn_steps_ok now c c' : conn_ok c → rtc (conn_step now) c c' → conn_ok c' ∧ receipts_advance c c'.
Proof.
  intros Hok Hsteps. induction Hsteps as [c|c1 c2 c3 H12 _ IH]; [done|].
  destruct (conn_step_ok _ _ _ Hok H12) as [Hok2 Ha]. destruct (IH Hok2) as [Hok3 Hb]. split; [done|by etrans].
Qed.

(** The conversation a live connection serves, with its browser device. *)
Definition live_key (c : connection) : option (string * string) :=
  if conn_revoked c then None
  else match conn_grant c with Some g => Some (conn_browserDevice c, Grant_Conversation g) | None => None end.

Lemma conn_step_live now c c' : conn_step now c c' → live_key c' = live_key c ∨ live_key c' = None.
Proof.
  intros Hstep. destruct Hstep as [c|c token view Hview|c Hr|c op model|c sequence Hs|c sequence r Hs Hr Hl Hd].
  - by right.
  - left. unfold live_key, conn_grant. cbn. by rewrite Hview.
  - by left.
  - left. unfold submit. destruct (submit_denied _ _ _ _); [done|]. destruct (operation_invalid _); [done|]. cbv zeta.
    destruct (conn_records c !! _); [by destruct (negb _)|]. by destruct (_ || _).
  - by left.
  - left. unfold poll, dispatch. set (c0 := match r with Some r => _ | None => _ end).
    assert (Hc0 : live_key c0 = live_key c).
    { unfold c0. destruct r as [r|]; [|done]. destruct (store_receipt_fields r (set_conn_sequence sequence c)) as (_ & Hrev & Hv & Hb & _).
      unfold live_key, conn_grant. by rewrite Hrev, Hv, Hb. }
    cbn. by destruct (conn_queue c0).
Qed.

Lemma conn_steps_live now c c' : rtc (conn_step now) c c' → live_key c' = live_key c ∨ live_key c' = None.
Proof.
  induction 1 as [c|c1 c2 c3 H12 _ IH]; [by left|]. apply conn_step_live in H12 as [<-|H2]; [done|].
  right. by destruct IH as [->|].
Qed.

(** ** Executions *)
Section Theorems.
Context (decode_exchange : string → option Exchange) (origin : string).

(** The broker, the identifiers ever given to a pairing, and the operations handed
    out, each with its connection. *)
Record Run := mkRun {
  run_broker : Broker;
  run_used : gset string;
  run_log : list (string * string);
}.

Definition handed_out (out : option (string * Operation)) : list (string * string) :=
  match out with Some (id, op) => [(id, Operation_ID op)] | None => [] end.

(** A pairing gets a random identifier: one never given before. *)
Inductive run_step : Run → Run → Prop :=
| run_call now req y b out :
  created req ## run_used y →
  perform decode_exchange now req (run_broker y) = (b, out) →
  run_step y (mkRun b (run_used y ∪ created req) (run_log y ++ handed_out out)).

Definition start : Run := mkRun (New origin) ∅ [].
Definition reachable (y : Run) : Prop := rtc run_step start y.

Definition given (c : connection) (id : string) : Prop :=
  ∃ r, conn_records c !! id = Some r ∧ receipt_state r ∈ ["dispatched"; "completed"; "unknown"].

Record run_ok (y : Run) : Prop := mk_run_ok {
  ok_conns : ∀ id c, broker_connections (run_broker y) !! id = Some c → conn_ok c;
  ok_used : ∀ id, is_Some (broker_connections (run_broker y) !! id) → id ∈ run_used y;
  ok_log : ∀ id oid, (id, oid) ∈ run_log y → id ∈ run_used y
             ∧ ∀ c, broker_connections (run_broker y) !! id = Some c → given c oid;
  ok_once : NoDup (run_log y);
  ok_live : ∀ i j ci cj k, i ≠ j → broker_connections (run_broker y) !! i = Some ci →
              broker_connections (run_broker y) !! j = Some cj → live_key ci = Some k → live_key cj ≠ Some k;
}.

Lemma given_advance c c' id : given c id → receipts_advance c c' → given c' id.
Proof.
  intros (r & Hr & Hs) Hadv. destruct (Hadv id r Hr) as (r' & Hr' & _ & Hm). exists r'. split; [done|].
  revert Hs. induction Hm as [s|s1 s2 s3 H12 _ IH]; [done|]. intros Hs. apply IH. destruct H12; set_solver.
Qed.

(** How the connections of a reachable broker change. *)
Lemma change_ok now made m out m' :
  (∀ id c, m !! id = Some c → conn_ok c) → change now made m out m' →
  (∀ id c', m' !! id = Some c' → conn_ok c' ∧
     ((∃ c, m !! id = Some c ∧ receipts_advance c c') ∨ id ∈ made ∧ conn_records c' = ∅)).
Proof.
  intros Hok Hch.
  assert (Hstep : ∀ i c c', m !! i = Some c → rtc (conn_step now) c c' → ∀ id c2, <[i := c']> m !! id = Some c2 →
    conn_ok c2 ∧ ((∃ c, m !! id = Some c ∧ receipts_advance c c2) ∨ id ∈ made ∧ conn_records c2 = ∅)).
  { intros i c c' Hc Hs id c2. rewrite lookup_insert_Some. intros [[<- <-]|[_ Hc2]].
    - destruct (conn_steps_ok now c c' (Hok i c Hc) Hs). split; [done|]. left. by exists c.
    - split; [by eapply Hok|]. left. by exists c2. }
  destruct Hch as [|P HP|P HP id code secret owner dev Hmade|id c c' Hc Hs|id c c1 g Hc H1 Hr Hg Hother|id c sequence r op Hc Hs Hr Hl Hq Hop];
    intros i c2 Hi.
  - split; [by eapply Hok|]. left. by exists c2.
  - apply map_lookup_filter_Some in Hi as [Hi _]. split; [by eapply Hok|]. left. by exists c2.
  - apply lookup_insert_Some in Hi as [[<- <-]|[_ Hi]].
    + split; [done|]. by right.
    + apply map_lookup_filter_Some in Hi as [Hi _]. split; [by eapply Hok|]. left. by exists c2.
  - by eapply Hstep.
  - apply lookup_insert_Some in Hi as [[<- <-]|[_ Hi]]; [|split; [by eapply Hok|]; left; by exists c2].
    assert (Hsteps : rtc (conn_step now) c c1) by (by apply maybe_revoked).
    destruct (conn_steps_ok now c c1 (Hok id c Hc) Hsteps) as [Hok1 Hadv]. split; [|left; by exists c].
    intros op' Hop'. destruct (Hok1 op' Hop') as (_ & (g' & Hg' & _) & _). congruence.
  - apply (Hstep id c _ Hc (rtc_once _ _ Hs) i c2 Hi).
Qed.

Lemma same_conversation_live c g other k :
  same_conversation c g other = false → k = (conn_browserDevice c, Grant_Conversation g) → live_key other ≠ Some k.
Proof.
  intros Hs -> Hlive. unfold live_key in Hlive. unfold same_conversation in Hs. destruct (conn_revoked other); [done|].
  destruct (conn_grant other) as [g'|]; [|done]. injection Hlive as Hd Hc. cbn [negb andb] in Hs.
  rewrite !bool_decide_eq_true_2 in Hs by done. done.
Qed.

(** Connections never share a conversation. *)
Lemma change_live now made m out m' :
  (∀ i j ci cj k, i ≠ j → m !! i = Some ci → m !! j = Some cj → live_key ci = Some k → live_key cj ≠ Some k) →
  change now made m out m' →
  ∀ i j ci cj k, i ≠ j → m' !! i = Some ci → m' !! j = Some cj → live_key ci = Some k → live_key cj ≠ Some k.
Proof.
  intros Hlive Hch.
  (* every connection keeps its key or loses it, except one with a new key nobody has *)
  assert (∃ fresh : option (string * (string * string)), ∀ i c', m' !! i = Some c' →
      live_key c' = None ∨ (∃ c, m !! i = Some c ∧ live_key c' = live_key c) ∨
      (∃ k, fresh = Some (i, k) ∧ live_key c' = Some k ∧ ∀ j cj, i ≠ j → m' !! j = Some cj → live_key cj ≠ Some k)) as [fresh Hold].
  { destruct Hch as [|P HP|P HP id code secret owner dev Hmade|id c c' Hc Hs|id c c1 g Hc H1 Hr Hg Hother|id c sequence r op Hc Hs Hr Hl Hq Hop].
    - exists None. intros i c' Hi. right. left. by exists c'.
    - exists None. intros i c' [Hi _]%map_lookup_filter_Some. right. left. by exists c'.
    - exists None. intros i c' [[<- <-]|[_ [Hi _]%map_lookup_filter_Some]]%lookup_insert_Some; [by left|]. right. left. by exists c'.
    - exists None. intros i c2 [[<- <-]|[_ Hi]]%lookup_insert_Some; [|right; left; by exists c2].
      destruct (conn_steps_live now c c' Hs) as [Heq| ->]; [right; left; by exists c|by left].
    - exists (Some (id, (conn_browserDevice c1, Grant_Conversation g))).
      intros i c2 [[<- <-]|[_ Hi]]%lookup_insert_Some; [|right; left; by exists c2]. right. right.
      exists (conn_browserDevice c1, Grant_Conversation g). split; [done|]. split.
      + unfold live_key, authorized, conn_grant. cbn. by rewrite Hr.
      + intros j cj Hne Hj. rewrite lookup_insert_ne in Hj by done. eapply same_conversation_live; [|done].
        apply (Hother j). by rewrite lookup_insert_ne.
    - exists None. intros i c2 [[<- <-]|[_ Hi]]%lookup_insert_Some; [|right; left; by exists c2].
      destruct (conn_step_live now _ _ Hs) as [Heq| ->]; [right; left; by exists c|by left]. }
  intros i j ci cj k Hij Hi Hj Hki Hkj.
  destruct (Hold i ci Hi) as [?|[(c & Hc & Hkc)|(k1 & Hf1 & Hk1 & Hn1)]]; [congruence| |].
  - destruct (Hold j cj Hj) as [?|[(c2 & Hc2 & Hkc2)|(k2 & Hf2 & Hk2 & Hn2)]]; [congruence| |].
    + rewrite Hki in Hkc. rewrite Hkj in Hkc2. by apply (Hlive i j c c2 k).
    + assert (k2 = k) as -> by congruence. by apply (Hn2 i ci (not_eq_sym Hij) Hi).
  - assert (k1 = k) as -> by congruence. by apply (Hn1 j cj Hij Hj).
Qed.

Lemma dispatch_given now sequence r c op :
  conn_ok c → conn_queue c = Some op → given (poll now sequence r c).1 (Operation_ID op).
Proof.
  intros Hok Hq. destruct (Hok op Hq) as (_ & _ & rec & Hrec & Hs).
  unfold poll, dispatch. set (c0 := match r with Some r => _ | None => _ end).
  assert (Hq0 : conn_queue c0 = Some op).
  { unfold c0. destruct r as [r|]; [|done]. by rewrite (proj1 (store_receipt_fields r _)). }
  assert (H0 : is_Some (conn_records c0 !! Operation_ID op)).
  { unfold c0. destruct r as [r|]; [|by exists rec]. unfold store_receipt. cbn.
    destruct (conn_records c !! Receipt_ID r); [|by exists rec]. case_decide; [by exists rec|].
    destruct (_ <? _); cbn; apply lookup_insert_is_Some; destruct (decide (Receipt_ID r = Operation_ID op)); eauto. }
  destruct H0 as [r0 Hr0]. exists (mark_dispatched r0). cbn. rewrite Hq0. cbn. split.
  - rewrite (alter_Some _ _ _ _ Hr0). apply lookup_insert_eq.
  - left.
Qed.

Lemma change_out now made m out m' id op :
  (∀ id c, m !! id = Some c → conn_ok c) → change now made m out m' → out = Some (id, op) →
  ∃ c c', m !! id = Some c ∧ conn_queue c = Some op ∧ m' !! id = Some c' ∧ given c' (Operation_ID op).
Proof.
  intros Hok Hch Hout. destruct Hch as [|P HP|P HP i code secret owner dev Hmade|i c c' Hc Hs|i c c1 g Hc H1 Hr Hg Hother
    |i c sequence r op' Hc Hs Hr Hl Hq Hop]; try done.
  injection Hout as -> ->. exists c, (poll now sequence r c).1. split; [done|]. split; [done|].
  split; [apply lookup_insert_eq|]. apply dispatch_given; [by eapply Hok|done].
Qed.

(** A queued operation has not been handed out. *)
Lemma queued_not_given c op : conn_ok c → conn_queue c = Some op → ¬ given c (Operation_ID op).
Proof.
  intros Hok Hq (r & Hr & Hs). destruct (Hok op Hq) as (_ & _ & r' & Hr' & Hs'). rewrite Hr in Hr'. injection Hr' as <-.
  rewrite Hs' in Hs. set_solver.
Qed.

Lemma run_step_ok y y' : run_ok y → run_step y y' → run_ok y'.
Proof.
  intros [Hconns Hused Hlog Honce Hlive] Hstep. destruct Hstep as [now req y b out Hfresh Hperf].
  pose proof (perform_change decode_exchange now req (run_broker y)) as Hch. rewrite Hperf in Hch. cbn [fst snd] in Hch.
  pose proof (change_ok now _ _ _ _ Hconns Hch) as Hnew.
  split; cbn [run_broker run_used run_log].
  - intros id c Hc. by apply (Hnew id c Hc).
  - intros id [c Hc]. destruct (Hnew id c Hc) as (_ & [(c0 & Hc0 & _)|[Hmade _]]); [|set_solver].
    apply elem_of_union_l, Hused. by exists c0.
  - intros id oid. rewrite elem_of_app. intros [Hin|Hin].
    + destruct (Hlog id oid Hin) as [Hu Hg]. split; [set_solver|]. intros c Hc.
      destruct (Hnew id c Hc) as (_ & [(c0 & Hc0 & Hadv)|[Hmade _]]); [|set_solver].
      by apply (given_advance c0); [apply Hg|].
    + destruct out as [[i op]|]; [|by apply elem_of_nil in Hin]. apply list_elem_of_singleton in Hin. injection Hin as -> ->.
      destruct (change_out _ _ _ _ _ i op Hconns Hch eq_refl) as (c & c' & Hc & _ & Hc' & Hg).
      split; [apply elem_of_union_l, Hused; by exists c|]. intros c2 Hc2. congruence.
  - apply NoDup_app. split; [done|]. destruct out as [[i op]|]; [|split; [set_solver|constructor]].
    split; [|apply NoDup_singleton]. intros [id oid] Hin Hin2. apply list_elem_of_singleton in Hin2. injection Hin2 as -> ->.
    destruct (change_out _ _ _ _ _ i op Hconns Hch eq_refl) as (c & c' & Hc & Hq & _).
    destruct (Hlog _ _ Hin) as [_ Hg]. by apply (queued_not_given c op (Hconns _ _ Hc) Hq), Hg.
  - by apply (change_live now _ _ _ _ Hlive Hch).
Qed.

Lemma start_ok : run_ok start.
Proof. split; cbn; try (intros *; rewrite lookup_empty); try done; try constructor; set_solver. Qed.

Lemma reachable_run_ok y : reachable y → run_ok y.
Proof.
  unfold reachable. generalize start_ok. generalize start. intros y0 Hok Hsteps.
  induction Hsteps as [|y1 y2 y3 H12 _ IH]; [done|]. apply IH. by eapply run_step_ok.
Qed.

(** A poll that hands out an operation passed every check. *)
Lemma exchange_delivers now id0 sequence mac body b b' id op :
  perform decode_exchange now (ReqExchange id0 sequence mac body) b = (b', Some (id, op)) →
  id0 = id ∧ ∃ c c0, broker_connections b !! id = Some c ∧ conn_token c ≠ "" ∧ (conn_sequence c < sequence)%N
    ∧ mac = MAC (conn_token c) (broker_origin b) id sequence body
    ∧ conn_revoked c = false ∧ time_sub now (conn_browserAt c) <= Lease
    ∧ conn_queue c = Some op ∧ conn_queue c0 = Some op ∧ conn_sequence c0 = sequence
    ∧ b' = update_connection id (dispatch now c0).1 b.
Proof.
  cbn [perform]. unfold exchange. destruct (broker_connections b !! id0) as [c|] eqn:Hc; [|done].
  destruct (_ || negb _) eqn:Hauth; [done|].
  apply orb_false_iff in Hauth as [Hauth Hmac]. apply orb_false_iff in Hauth as [Htoken Hseq]. apply N.leb_gt in Hseq.
  apply negb_false_iff, bool_decide_eq_true in Hmac. apply bool_decide_eq_false in Htoken.
  destruct (conn_revoked (set_conn_sequence sequence c) || _) eqn:Hlive; [done|].
  apply orb_false_iff in Hlive as [Hrev Hlease]. apply Z.ltb_ge in Hlease.
  destruct (decode_exchange body) as [e|]; [|done].
  destruct (match Exchange_Receipt e with Some r => _ | None => false end); [done|].
  set (c0 := match Exchange_Receipt e with Some r => store_receipt r (set_conn_sequence sequence c) | None => set_conn_sequence sequence c end).
  assert (Hc0 : conn_queue c0 = conn_queue c ∧ conn_sequence c0 = sequence).
  { unfold c0. destruct (Exchange_Receipt e) as [r|]; [|done].
    by destruct (store_receipt_fields r (set_conn_sequence sequence c)) as (-> & _ & _ & _ & -> & _). }
  destruct (dispatch now c0) as [c' d] eqn:Hd. intros Hout. injection Hout as <- Hout.
  destruct (Delivery_Operation d) as [op'|] eqn:Hop; [|done]. injection Hout as -> ->.
  assert (Hq : conn_queue c0 = Some op).
  { unfold dispatch in Hd. cbn in Hd. destruct (conn_queue c0) as [op0|]; injection Hd as _ <-; cbn in Hop; congruence. }
  split; [done|]. exists c, c0. destruct Hc0 as [Hq0 Hs0]. rewrite Hd. repeat (split; [done|]). by rewrite <- Hq0.
Qed.

Lemma exchange_replay now id c sequence mac body b :
  broker_connections b !! id = Some c → (sequence <= conn_sequence c)%N →
  perform decode_exchange now (ReqExchange id sequence mac body) b = (b, None).
Proof.
  intros Hc Hs. cbn [perform]. unfold exchange. rewrite Hc. apply N.leb_le in Hs. rewrite Hs, orb_true_r. done.
Qed.

(** C11. Whatever the browser, the model and the native side do, in any order and at
    any time, with lost answers and repeated or forged calls, no operation is handed
    to the native side twice. *)
Theorem deliveries_at_most_once (y : Run) (Hreach : reachable y) : NoDup (run_log y).
Proof. apply reachable_run_ok in Hreach as []. done. Qed.

(** Receipts are never lost while their connection exists and only advance: from
    queued to dispatched or, dropped, to not executed, from dispatched to completed
    or, at a revocation or for want of room, to unknown; a completed or unknown
    operation never changes back, and the digest that identifies it never changes. *)
Theorem receipts_only_advance (y : Run) (now : time) (req : Request) (b : Broker) (out : option (string * Operation))
    (id : string) (c c' : connection)
    (Hreach : reachable y) (Hfresh : created req ## run_used y)
    (Hperf : perform decode_exchange now req (run_broker y) = (b, out))
    (Hbefore : broker_connections (run_broker y) !! id = Some c) (Hafter : broker_connections b !! id = Some c') :
  receipts_advance c c'.
Proof.
  apply reachable_run_ok in Hreach as [Hconns Hused _ _ _].
  pose proof (perform_change decode_exchange now req (run_broker y)) as Hch. rewrite Hperf in Hch. cbn [fst snd] in Hch.
  destruct (change_ok now _ _ _ _ Hconns Hch id c' Hafter) as (_ & [(c0 & Hc0 & Hadv)|[Hmade _]]).
  - rewrite Hbefore in Hc0. by injection Hc0 as <-.
  - assert (id ∈ run_used y) by (apply Hused; by exists c). set_solver.
Qed.

(** C21. An operation is only ever handed out to a poll that proves knowledge of the
    channel's token with a sequence number above all earlier ones, on a connection
    that was not revoked and whose browser lease is running, under a grant that
    allows the tool; and afterwards no poll with that or a smaller sequence number
    has any effect. *)
Theorem delivery_is_authorized (y : Run) (now : time) (req : Request) (b : Broker) (id : string) (op : Operation)
    (Hreach : reachable y)
    (Hperf : perform decode_exchange now req (run_broker y) = (b, Some (id, op))) :
  ∃ sequence mac body c g, req = ReqExchange id sequence mac body
    ∧ broker_connections (run_broker y) !! id = Some c
    ∧ conn_token c ≠ "" ∧ (conn_sequence c < sequence)%N
    ∧ mac = MAC (conn_token c) (broker_origin (run_broker y)) id sequence body
    ∧ conn_revoked c = false ∧ time_sub now (conn_browserAt c) <= Lease
    ∧ conn_grant c = Some g ∧ Allowed g (Operation_Tool op) false = true
    ∧ ∀ now' sequence' mac' body', (sequence' <= sequence)%N →
        perform decode_exchange now' (ReqExchange id sequence' mac' body') b = (b, None).
Proof.
  apply reachable_run_ok in Hreach as [Hconns _ _ _ _].
  destruct req as [| | | | | | |id0 sequence mac body| |]; try by inversion Hperf.
  apply exchange_delivers in Hperf as (-> & c & c0 & Hc & Htoken & Hseq & Hmac & Hrev & Hlease & Hq & Hq0 & Hs0 & ->).
  destruct (Hconns id c Hc op Hq) as (_ & (g & Hg & Hallow) & _).
  exists sequence, mac, body, c, g. repeat (split; [done|]). intros now' sequence' mac' body' Hle.
  apply exchange_replay with (c := (dispatch now c0).1); [apply lookup_insert_eq|].
  unfold dispatch. cbn. rewrite Hq0. cbn. by rewrite Hs0.
Qed.

(** Two live connections never serve the same conversation of a browser device:
    a second device is refused until the first authorization is revoked. *)
Theorem one_device_per_conversation (y : Run) (i j : string) (ci cj : connection) (k : string * string)
    (Hreach : reachable y) (Hij : i ≠ j)
    (Hi : broker_connections (run_broker y) !! i = Some ci) (Hj : broker_connections (run_broker y) !! j = Some cj)
    (Hlive : live_key ci = Some k) :
  live_key cj ≠ Some k.
Proof. apply reachable_run_ok in Hreach as [_ _ _ _ Hok]. by apply (Hok i j ci cj k). Qed.
End Theorems.

(** ** An execution *)
Module Samples.
(** Polls without a receipt have the body [{}]; the body [done] carries one. *)
Definition sample_receipt : Receipt := mkReceipt "" "" "op-1" "laptop" "chat" "run-1" "completed" "42" "".
Definition decode (body : string) : option Exchange :=
  if decide (body = "{}") then Some (mkExchange None)
  else if decide (body = "done") then Some (mkExchange (Some sample_receipt)) else None.

Definition origin : string := "https://edu.example".
Definition laptop : Device := mkDevice "laptop" "host" "user" "linux" "/home/user/work".
Definition files_grant : Grant := mkGrant 1 "space" "chat" true false false "".
Definition read_op : Operation := mkOperation "op-1" "run-1" "read" "{}".

(** Pairing, authorization, one operation, the poll that takes it, a replay of that
    poll, a poll that brings the receipt, and a late revocation. *)
Definition calls : list (time * Request) :=
  [(0, ReqCreate "c1" "code" "secret" "owner" "browser"); (second, ReqAttach "token" (mkAttach "c1" "code" laptop));
   (2 * second, ReqAuthorize "owner" "c1" "secret" "laptop" files_grant);
   (3 * second, ReqSubmit "owner" "c1" "secret" read_op);
   (4 * second, ReqExchange "c1" 1 (MAC "token" origin "c1" 1 "{}") "{}");
   (5 * second, ReqExchange "c1" 1 (MAC "token" origin "c1" 1 "{}") "{}");
   (6 * second, ReqExchange "c1" 2 (MAC "token" origin "c1" 2 "done") "done")].

Definition call_once (y : Run) (call : time * Request) : option Run :=
  if decide (created call.2 ## run_used y) then
    let (b, out) := perform decode call.1 call.2 (run_broker y) in
    Some (mkRun b (run_used y ∪ created call.2) (run_log y ++ handed_out out))
  else None.

Fixpoint execute (y : Run) (l : list (time * Request)) : option Run :=
  match l with [] => Some y | call :: l => y ← call_once y call; execute y l end.

Lemma execute_steps l y y' : execute y l = Some y' → rtc (run_step decode) y y'.
Proof.
  revert y. induction l as [|[now req] l IH]; intros y; cbn [execute]; [by intros [= <-]|].
  intros (y1 & H1 & H2)%bind_Some. eapply rtc_l; [|by apply IH]. unfold call_once in H1. cbn [fst snd] in H1.
  case_decide as Hd; [|done].
  destruct (perform decode now req (run_broker y)) as [b out] eqn:Hp. injection H1 as <-. by apply run_call with now.
Qed.

Definition run_after (n : nat) : Run := default (start origin) (execute (start origin) (take n calls)).

Lemma reachable_after n : is_Some (execute (start origin) (take n calls)) → reachable decode origin (run_after n).
Proof. intros [y Hy]. unfold run_after. rewrite Hy. by apply execute_steps in Hy. Qed.

Definition connection_after (n : nat) : option connection := broker_connections (run_broker (run_after n)) !! "c1".

(** The log and the state of the receipt after all calls. *)
Example all_calls :
  (run_log (run_after 7), (fun c => receipt_state <$> conn_records c !! "op-1") <$> connection_after 7)
  = ([("c1", "op-1")], Some (Some "completed")).
Proof. vm_compute. reflexivity. Qed.

Lemma sample_run_reachable n : (n <= 7)%nat → reachable decode origin (run_after n).
Proof.
  intros Hn. apply reachable_after. apply (bool_decide_unpack (is_Some _)).
  do 8 (destruct n as [|n]; [vm_compute; reflexivity|]). lia.
Qed.
End Samples.

Import Samples.

Lemma deliveries_at_most_once_witness : NoDup (run_log (run_after 7)) ∧ run_log (run_after 7) = [("c1", "op-1")].
Proof.
  split; [apply (deliveries_at_most_once decode origin); apply sample_run_reachable; lia|vm_compute; reflexivity].
Defined.

Lemma receipts_only_advance_witness :
  ∃ c c', connection_after 4 = Some c ∧ connection_after 5 = Some c' ∧ receipts_advance c c'.
Proof.
  set (y := run_after 4). set (p := perform decode (4 * second) (ReqExchange "c1" 1 (MAC "token" origin "c1" 1 "{}") "{}") (run_broker y)).
  assert (∃ c, broker_connections (run_broker y) !! "c1" = Some c) as [c Hc] by (eexists; vm_compute; reflexivity).
  assert (∃ c', broker_connections p.1 !! "c1" = Some c') as [c' Hc'] by (eexists; vm_compute; reflexivity).
  exists c, c'. split; [exact Hc|]. split.
  - transitivity (broker_connections p.1 !! "c1"); [vm_compute; reflexivity|exact Hc'].
  - apply (receipts_only_advance decode origin y (4 * second) (ReqExchange "c1" 1 (MAC "token" origin "c1" 1 "{}") "{}") p.1 p.2 "c1");
      [apply sample_run_reachable; lia|apply disjoint_empty_l|apply surjective_pairing|exact Hc|exact Hc'].
Defined.

Lemma delivery_is_authorized_witness :
  ∃ c g, broker_connections (run_broker (run_after 4)) !! "c1" = Some c ∧ conn_grant c = Some g
    ∧ Allowed g "read" false = true.
Proof.
  set (y := run_after 4). set (req := ReqExchange "c1" 1 (MAC "token" origin "c1" 1 "{}") "{}").
  assert (Hout : (perform decode (4 * second) req (run_broker y)).2 = Some ("c1", read_op)) by (vm_compute; reflexivity).
  assert (Hperf : perform decode (4 * second) req (run_broker y) = ((perform decode (4 * second) req (run_broker y)).1, Some ("c1", read_op)))
    by (rewrite <- Hout; apply surjective_pairing).
  destruct (delivery_is_authorized decode origin y (4 * second) req _ "c1" read_op (sample_run_reachable 4 ltac:(lia)) Hperf)
    as (_ & _ & _ & c & g & _ & Hc & _ & _ & _ & _ & _ & Hg & Hallow & _).
  exists c, g. split; [exact Hc|]. split; [exact Hg|exact Hallow].
Defined.

Lemma one_device_per_conversation_witness :
  ∃ y ci cj k, reachable decode origin y ∧ live_key ci = Some k ∧ broker_connections (run_broker y) !! "c1" = Some ci
    ∧ broker_connections (run_broker y) !! "c2" = Some cj ∧ live_key cj ≠ Some k.
Proof.
  set (more := calls ++ [(7 * second, ReqCreate "c2" "code2" "secret2" "owner" "browser")]).
  assert (Hex : is_Some (execute (start origin) more)) by (apply (bool_decide_unpack (is_Some _)); vm_compute; reflexivity).
  destruct (execute (start origin) more) as [y|] eqn:Hy; [|by destruct Hex].
  assert (Hreach : reachable decode origin y) by (apply execute_steps in Hy; exact Hy).
  assert (Hi : ∃ ci, broker_connections (run_broker y) !! "c1" = Some ci ∧ live_key ci = Some ("browser", "chat")).
  { assert (Hv : (c ← (y ← execute (start origin) more; broker_connections (run_broker y) !! "c1"); live_key c) = Some ("browser", "chat"))
      by (vm_compute; reflexivity).
    rewrite Hy in Hv. apply bind_Some in Hv as (ci & Hci & Hk). exists ci. split; [exact Hci|exact Hk]. }
  assert (Hj : ∃ cj, broker_connections (run_broker y) !! "c2" = Some cj).
  { assert (Hv : is_Some (y ← execute (start origin) more; broker_connections (run_broker y) !! "c2"))
      by (apply (bool_decide_unpack (is_Some _)); vm_compute; reflexivity).
    rewrite Hy in Hv. destruct Hv as [cj Hcj]. by exists cj. }
  destruct Hi as (ci & Hci & Hk), Hj as (cj & Hcj). exists y, ci, cj, ("browser", "chat").
  split; [exact Hreach|]. split; [exact Hk|]. split; [exact Hci|]. split; [exact Hcj|].
  apply (one_device_per_conversation decode origin y "c1" "c2" ci cj _ Hreach ltac:(done) Hci Hcj Hk).
Defined.
