(* ===== verification/Permits.v ===== *)
(** * Permits of readers

    [server/internal/privacy/permit.go]: while a response that contains a learner's
    data is assembled, it holds a permit for the owners of the data; an erasure
    closes the owners and waits until their permits are released, and no response may
    be written after that. The manager is shared by concurrent calls: what a call
    does under the mutex is one step, and between its steps other calls run. The
    write gates are channels of one token, taken one by one, and held without the
    mutex; the write of a response takes any time.

    [step] is one event of the system: a new call, a step of a call in progress, or the
    cancellation of a context. The barrier, deadlock freedom and the absence of lost
    wake-ups are invariants of every interleaving. *)
From S2P Require Import Prelude GoStd Privacy.

(** Why a context is done: cancelled when the permit is released ([cancel(nil)]), by
    [CloseAndDrain], or from outside. *)
Inductive cause : Type :=
| Canceled
| BarrierCommitting
| OutsideCause (n : Z).

(** What a call returns. Where the code names one of several closed owners in its
    error, it is the first in the iteration of a map: [ReadGateClosed] has them all. *)
Inductive outcome : Type :=
| Done
| Failed (e : error)
| ReadGateClosed (owners : gset OwnerKind)
| ContextDone (c : cause)
| ResponseGateFailed.

(** A gate is in [writeGates] when its token is in the channel; [changed] counts how
    often the channel was closed and replaced; [responseGate] tells whether the
    manager was given one. *)
Record ReadPermitManager := mkReadPermitManager {
  nextID : Z;
  closed : gset OwnerKind;
  generation : gmap OwnerKind Z;
  active : gmap Z (gset OwnerKind);
  writeGates : gset OwnerKind;
  changed : nat;
  responseGate : bool;
}.

Definition NewReadPermitManager (responseGate : bool) : ReadPermitManager :=
  mkReadPermitManager 0 ∅ (list_to_map ((fun owner => (owner, 1)) <$> AllOwners)) ∅ (list_to_set AllOwners) 0 responseGate.

Definition orderedOwnerKinds (owners : gset OwnerKind) : list OwnerKind := filter (fun owner => owner ∈ owners) AllOwners.
Definition normalizeOwners (owners : list OwnerKind) : gset OwnerKind := list_to_set (filter (fun owner => OwnerKind_Valid owner = true) owners).
Definition intersects (left right : gset OwnerKind) : bool := bool_decide (left ∩ right ≠ ∅).
Definition hasActive (active : gmap Z (gset OwnerKind)) (owners : gset OwnerKind) : bool :=
  existsb (fun permit => intersects permit.2 owners) (map_to_list active).

(** ** Critical sections of the mutex *)
Definition set_gates (gates : gset OwnerKind) (m : ReadPermitManager) : ReadPermitManager :=
  mkReadPermitManager (nextID m) (closed m) (generation m) (active m) gates (changed m) (responseGate m).

(** [Acquire], after its arguments were checked: the identifier is a [uint64]. *)
Definition acquire (m : ReadPermitManager) (owners : gset OwnerKind) : result outcome (Z * ReadPermitManager) :=
  if intersects owners (closed m) then Err (ReadGateClosed (owners ∩ closed m))
  else
    let id := (nextID m + 1) mod 2 ^ 64 in
    Ok (id, mkReadPermitManager id (closed m) (generation m) (<[id := owners]> (active m)) (writeGates m) (changed m) (responseGate m)).

Definition check_owners (owners : list OwnerKind) : result outcome (gset OwnerKind) :=
  _ ← fail_if (negb (forallb OwnerKind_Valid owners)) (Failed (invalid "invalid_read_owner"));
  _ ← fail_if (is_nil owners) (Failed (invalid "read_owner_required"));
  Ok (list_to_set owners).

(** [release]: whether the permit was active, and the manager afterwards. *)
Definition release (m : ReadPermitManager) (id : Z) : bool * ReadPermitManager :=
  match active m !! id with
  | Some _ =>
    (true, mkReadPermitManager (nextID m) (closed m) (generation m) (delete id (active m)) (writeGates m) (S (changed m)) (responseGate m))
  | None => (false, m)
  end.

(** [CloseAndDrain]: close, and the permits to cancel. *)
Definition mark_closed (m : ReadPermitManager) (target : Z) (owners : gset OwnerKind) : ReadPermitManager :=
  mkReadPermitManager (nextID m) (closed m ∪ owners) (gset_to_gmap target owners ∪ generation m) (active m) (writeGates m) (changed m) (responseGate m).
Definition to_cancel (m : ReadPermitManager) (owners : gset OwnerKind) : gset Z :=
  dom (filter (fun permit => intersects permit.2 owners = true) (active m)).

(** The owners a loop over [owners] reopens, with the generation it sets. *)
Definition reopen (m : ReadPermitManager) (target : Z) (owners : gset OwnerKind) : ReadPermitManager :=
  mkReadPermitManager (nextID m) (closed m ∖ owners) (gset_to_gmap target owners ∪ generation m) (active m) (writeGates m) (changed m) (responseGate m).

Definition generation_of (m : ReadPermitManager) (owner : OwnerKind) : Z := default 0 (generation m !! owner).

Definition abort_close (m : ReadPermitManager) (closedGeneration restoreGeneration : Z) (owners : gset OwnerKind) : ReadPermitManager :=
  reopen m restoreGeneration (filter (fun owner => owner ∈ closed m ∧ generation_of m owner = closedGeneration) owners).

Definition open (m : ReadPermitManager) (target : Z) (owners : gset OwnerKind) : ReadPermitManager :=
  reopen m target (filter (fun owner => generation_of m owner <= target) owners).

Definition Closed (m : ReadPermitManager) (owner : OwnerKind) : bool * Z := (bool_decide (owner ∈ closed m), generation_of m owner).

(** ** Calls in progress *)
Inductive call : Type :=
| CallCommit (id : Z)
| CallClose (target : Z) (owners : gset OwnerKind)
| CallAbort (closedGeneration restoreGeneration : Z) (owners : gset OwnerKind)
| CallOpen (target : Z) (owners : gset OwnerKind).

(** What follows when the gates were put back. *)
Inductive next : Type :=
| ThenReturn (o : outcome)
| ThenDrain (owners : gset OwnerKind)
| ThenGate (id : Z) (o : outcome).

(** Where a call stands. Gates are held from the latest acquired to the first. *)
Inductive position : Type :=
| Lookup (id : Z)
| AtGate (id : Z) (owners : gset OwnerKind)
| Locking (c : call) (todo held : list OwnerKind)
| Locked (c : call) (held : list OwnerKind)
| Writing (id : Z) (held : list OwnerKind)
| Unlocking (held : list OwnerKind) (n : next)
| LeavingGate (id : Z) (o : outcome)
| Draining (owners : gset OwnerKind)
| Waiting (owners : gset OwnerKind) (channel : nat)
| Returned (o : outcome).

Record thread := mkThread { at_ : position; context : option cause }.

(** [causes] has the contexts of permits that are done; [once] the permits whose
    [Release] ran. [granted] records the owners of every permit that was issued, and
    [issued] their number: no code depends on these two. *)
Record state := mkState {
  manager : ReadPermitManager;
  causes : gmap Z cause;
  once : gset Z;
  threads : gmap nat thread;
  granted : gmap Z (gset OwnerKind);
  issued : Z;
}.

Definition initial (responseGate : bool) : state := mkState (NewReadPermitManager responseGate) ∅ ∅ ∅ ∅ 0.

(** A context keeps its first cause. *)
Definition cancel (ids : gset Z) (c : cause) (causes : gmap Z cause) : gmap Z cause := causes ∪ gset_to_gmap c ids.

(** ** Steps *)
Definition set_manager (m : ReadPermitManager) (s : state) : state :=
  mkState m (causes s) (once s) (threads s) (granted s) (issued s).
Definition set_causes (cs : gmap Z cause) (s : state) : state :=
  mkState (manager s) cs (once s) (threads s) (granted s) (issued s).
Definition put (t : nat) (th : thread) (p : position) (s : state) : state :=
  mkState (manager s) (causes s) (once s) (<[t := mkThread p (context th)]> (threads s)) (granted s) (issued s).

(** [context.Cause(permitContext)], if there is one, else [o]. *)
Definition cause_or (s : state) (id : Z) (o : outcome) : outcome := from_option ContextDone o (causes s !! id).

Definition permit_inactive : outcome := Failed (Error CodeContentRedacted "read_permit_inactive").

Definition call_owners (s : state) (c : call) : gset OwnerKind :=
  match c with
  | CallCommit id => default ∅ (active (manager s) !! id)
  | CallClose _ owners | CallAbort _ _ owners | CallOpen _ owners => owners
  end.

(** The context [lockWriteGates] watches: [AbortClose] and [Open] pass the background. *)
Definition call_context (s : state) (th : thread) (c : call) : option cause :=
  match c with
  | CallCommit id => causes s !! id
  | CallClose _ _ => context th
  | CallAbort _ _ _ | CallOpen _ _ => None
  end.

(** What follows the closure [commit]: its result goes through the response gate, if
    there is one. *)
Definition after_commit (s : state) (id : Z) (o : outcome) : next :=
  if responseGate (manager s) then ThenGate id o else ThenReturn o.

Definition after_lock_failed (s : state) (c : call) (o : cause) : next :=
  match c with CallCommit id => after_commit s id (ContextDone o) | _ => ThenReturn (ContextDone o) end.

(** A call that holds its gates takes the mutex: [commit] checks the permit again, the
    others change the manager. *)
Definition critical (s : state) (t : nat) (th : thread) (c : call) (held : list OwnerKind) : state :=
  let m := manager s in
  match c with
  | CallCommit id =>
    match active m !! id with
    | None => put t th (Unlocking held (after_commit s id (cause_or s id permit_inactive))) s
    | Some owners =>
      match causes s !! id with
      | Some c => put t th (Unlocking held (after_commit s id (ContextDone c))) s
      | None =>
        if intersects owners (closed m) then put t th (Unlocking held (after_commit s id (ReadGateClosed (owners ∩ closed m)))) s
        else put t th (Writing id held) s
      end
    end
  | CallClose target owners =>
    put t th (Unlocking held (ThenDrain owners))
      (set_causes (cancel (to_cancel m owners) BarrierCommitting (causes s)) (set_manager (mark_closed m target owners) s))
  | CallAbort closedGeneration restoreGeneration owners =>
    put t th (Unlocking held (ThenReturn Done)) (set_manager (abort_close m closedGeneration restoreGeneration owners) s)
  | CallOpen target owners => put t th (Unlocking held (ThenReturn Done)) (set_manager (open m target owners) s)
  end.

(** How a step goes on: [SeeDone], the context of the call is done where it is
    watched; [Refuse], the response gate fails. *)
Inductive choice : Type := Proceed | SeeDone | Refuse.

Definition thread_step (s : state) (t : nat) (th : thread) (ch : choice) : option state :=
  let m := manager s in
  match at_ th, ch with
  | Lookup id, Proceed =>
    match active m !! id with
    | None => Some (put t th (Returned (cause_or s id permit_inactive)) s)
    | Some owners =>
      Some (put t th (if responseGate m then AtGate id owners else Locking (CallCommit id) (orderedOwnerKinds owners) []) s)
    end
  | AtGate id owners, Proceed => Some (put t th (Locking (CallCommit id) (orderedOwnerKinds owners) []) s)
  | AtGate id _, Refuse => Some (put t th (Returned (cause_or s id ResponseGateFailed)) s)
  | Locking c [] held, Proceed => Some (put t th (Locked c held) s)
  | Locking c (owner :: todo) held, Proceed =>
    if bool_decide (owner ∈ writeGates m)
    then Some (put t th (Locking c todo (owner :: held)) (set_manager (set_gates (writeGates m ∖ {[owner]}) m) s))
    else None
  | Locking c (_ :: _) held, SeeDone => o ← call_context s th c; Some (put t th (Unlocking held (after_lock_failed s c o)) s)
  | Locked c held, Proceed => Some (critical s t th c held)
  | Writing id held, Proceed => Some (put t th (Unlocking held (after_commit s id Done)) s)
  | Unlocking (owner :: held) n, Proceed =>
    if bool_decide (owner ∈ writeGates m) then None
    else Some (put t th (Unlocking held n) (set_manager (set_gates (writeGates m ∪ {[owner]}) m) s))
  | Unlocking [] (ThenReturn o), Proceed => Some (put t th (Returned o) s)
  | Unlocking [] (ThenDrain owners), Proceed => Some (put t th (Draining owners) s)
  | Unlocking [] (ThenGate id o), Proceed => Some (put t th (LeavingGate id o) s)
  | LeavingGate id o, Proceed => Some (put t th (Returned (match o with Done => Done | o => cause_or s id o end)) s)
  | LeavingGate id _, Refuse => Some (put t th (Returned (cause_or s id ResponseGateFailed)) s)
  | Draining owners, Proceed =>
    Some (put t th (if hasActive (active m) owners then Waiting owners (changed m) else Returned Done) s)
  | Waiting owners channel, Proceed => if (channel <? changed m)%nat then Some (put t th (Draining owners) s) else None
  | Waiting owners _, SeeDone => c ← context th; Some (put t th (Returned (ContextDone c)) s)
  | _, _ => None
  end.

(** A call starts; [CloseAndDrain] checks its arguments. *)
Definition start (j : call) : position :=
  match j with
  | CallCommit id => Lookup id
  | CallClose target owners =>
    if bool_decide (owners = ∅) || (target <? 2) then Returned (Failed (invalid "invalid_read_drain"))
    else Locking j (orderedOwnerKinds owners) []
  | CallAbort _ _ owners | CallOpen _ owners => Locking j (orderedOwnerKinds owners) []
  end.

Definition normalize_call (j : call) : call :=
  match j with
  | CallCommit id => CallCommit id
  | CallClose target owners => CallClose target (normalizeOwners (elements owners))
  | CallAbort g r owners => CallAbort g r (normalizeOwners (elements owners))
  | CallOpen target owners => CallOpen target (normalizeOwners (elements owners))
  end.

(** A response is committed with a permit that was issued. *)
Definition possible (s : state) (j : call) : bool :=
  match j with CallCommit id => bool_decide (is_Some (granted s !! id)) | _ => true end.

Inductive event : Type :=
| Acquire (owners : list OwnerKind)
| Release (id : Z)
| CancelPermit (id : Z) (c : cause)
| CancelCall (t : nat) (c : cause)
| Begin (t : nat) (j : call)
| Step (t : nat) (ch : choice).

Definition step (e : event) (s : state) : option state :=
  let m := manager s in
  match e with
  | Acquire owners =>
    match owners ← check_owners owners; acquire m owners with
    | Ok (id, m') => Some (mkState m' (delete id (causes s)) (once s ∖ {[id]}) (threads s) (<[id := default ∅ (active m' !! id)]> (granted s)) (issued s + 1))
    | Err _ => Some s
    end
  | Release id =>
    if bool_decide (id ∈ once s ∨ granted s !! id = None) then Some s
    else
      let '(found, m') := release m id in
      Some (mkState m' (if found then cancel {[id]} Canceled (causes s) else causes s) (once s ∪ {[id]}) (threads s) (granted s) (issued s))
  | CancelPermit id c => if bool_decide (granted s !! id = None) then None else Some (set_causes (cancel {[id]} c (causes s)) s)
  | CancelCall t c =>
    th ← threads s !! t;
    Some (mkState m (causes s) (once s) (<[t := mkThread (at_ th) (Some (default c (context th)))]> (threads s)) (granted s) (issued s))
  | Begin t j =>
    if bool_decide (threads s !! t = None) && possible s j
    then Some (mkState m (causes s) (once s) (<[t := mkThread (start (normalize_call j)) None]> (threads s)) (granted s) (issued s))
    else None
  | Step t ch => th ← threads s !! t; thread_step s t th ch
  end.

Inductive reachable (g : bool) : state → Prop :=
| reachable_initial : reachable g (initial g)
| reachable_step s e s' : reachable g s → step e s = Some s' → reachable g s'.

(** ** The invariant *)

(** *** Gates *)
Definition held (p : position) : list OwnerKind :=
  match p with Locking _ _ held | Locked _ held | Writing _ held | Unlocking held _ => held | _ => [] end.
Definition holding (ths : gmap nat thread) (t : nat) : list OwnerKind := from_option (held ∘ at_) [] (ths !! t).

(** Every gate is free or held by one call, once. *)
Record gates_ok (gates : gset OwnerKind) (h : nat → list OwnerKind) : Prop := {
  gates_nodup t : NoDup (h t);
  gates_taken t owner : owner ∈ h t → owner ∉ gates ∧ owner ∈ AllOwners;
  gates_exclusive t1 t2 owner : owner ∈ h t1 → owner ∈ h t2 → t1 = t2;
  gates_accounted owner : owner ∈ AllOwners → owner ∈ gates ∨ ∃ t, owner ∈ h t;
}.

Lemma gates_same gates h h' : (∀ t, h' t = h t) → gates_ok gates h → gates_ok gates h'.
Proof.
  intros Hsame [H1 H2 H3 H4]. split; intros *; rewrite ?Hsame; eauto.
  intros Ho. destruct (H4 owner Ho) as [|[t Ht]]; [by left|right; exists t; by rewrite Hsame].
Qed.

Lemma gates_take gates h h' t owner :
  owner ∈ gates → owner ∈ AllOwners → h' t = owner :: h t → (∀ t', t' ≠ t → h' t' = h t') →
  gates_ok gates h → gates_ok (gates ∖ {[owner]}) h'.
Proof.
  intros Hfree Hall Hnew Hother [H1 H2 H3 H4].
  assert (∀ t' o, o ∈ h' t' → (t' = t ∧ o = owner) ∨ o ∈ h t') as Hcases.
  { intros t' o. destruct (decide (t' = t)) as [->|Hne]; [rewrite Hnew, elem_of_cons; tauto|rewrite Hother by done; tauto]. }
  assert (∀ t', owner ∉ h t') as Hnobody by (intros t' Ht'; by destruct (H2 t' owner Ht')).
  split.
  - intros t'. destruct (decide (t' = t)) as [->|Hne]; [rewrite Hnew; by constructor|by rewrite Hother].
  - intros t' o [[-> ->]|Ho]%Hcases; [split; [set_solver|done]|]. destruct (H2 t' o Ho). split; [set_solver|done].
  - intros t1 t2 o [[E1 E1']|Ho1]%Hcases [[E2 E2']|Ho2]%Hcases; subst; [done|by destruct (Hnobody t2)|by destruct (Hnobody t1)|by apply (H3 t1 t2 o)].
  - intros o Ho. destruct (decide (o = owner)) as [->|Hne]; [right; exists t; rewrite Hnew; set_solver|].
    destruct (H4 o Ho) as [|[t' Ht']]; [left; set_solver|right; exists t'].
    destruct (decide (t' = t)) as [->|]; [rewrite Hnew; set_solver|by rewrite Hother].
Qed.

Lemma gates_put gates h h' t owner l :
  h t = owner :: l → h' t = l → (∀ t', t' ≠ t → h' t' = h t') → gates_ok gates h → gates_ok (gates ∪ {[owner]}) h'.
Proof.
  intros Hold Hnew Hother [H1 H2 H3 H4].
  assert (∀ t' o, o ∈ h' t' → o ∈ h t' ∧ o ≠ owner) as Hcases.
  { intros t' o Ho. destruct (decide (t' = t)) as [->|Hne].
    - rewrite Hnew in Ho. specialize (H1 t). rewrite Hold in *. apply NoDup_cons in H1 as [Hnot _]. split; [set_solver|naive_solver].
    - rewrite Hother in Ho by done. split; [done|]. intros ->. destruct Hne. apply (H3 t' t owner); [done|]. rewrite Hold. set_solver. }
  split.
  - intros t'. destruct (decide (t' = t)) as [->|Hne]; [|by rewrite Hother]. rewrite Hnew. specialize (H1 t). rewrite Hold in H1. by apply NoDup_cons in H1 as [_ ?].
  - intros t' o [Ho Hne]%Hcases. destruct (H2 t' o Ho). split; [set_solver|done].
  - intros t1 t2 o [Ho1 _]%Hcases [Ho2 _]%Hcases. by apply (H3 t1 t2 o).
  - intros o Ho. destruct (decide (o = owner)) as [->|Hne]; [left; set_solver|].
    destruct (H4 o Ho) as [|[t' Ht']]; [left; set_solver|right; exists t'].
    destruct (decide (t' = t)) as [->|]; [rewrite Hold in Ht'; rewrite Hnew; set_solver|by rewrite Hother].
Qed.

(** *** Positions *)
Definition lock_owners (gr : gmap Z (gset OwnerKind)) (c : call) : gset OwnerKind :=
  match c with
  | CallCommit id => default ∅ (gr !! id)
  | CallClose _ owners | CallAbort _ _ owners | CallOpen _ owners => owners
  end.

Definition position_ok (m : ReadPermitManager) (gr : gmap Z (gset OwnerKind)) (p : position) : Prop :=
  match p with
  | AtGate id owners => gr !! id = Some owners
  | Locking c todo held =>
    reverse held ++ todo = orderedOwnerKinds (lock_owners gr c) ∧ lock_owners gr c ⊆ list_to_set AllOwners
    ∧ match c with CallCommit id => is_Some (gr !! id) | _ => True end
  | Locked c held =>
    reverse held = orderedOwnerKinds (lock_owners gr c) ∧ lock_owners gr c ⊆ list_to_set AllOwners
    ∧ match c with CallCommit id => is_Some (gr !! id) | _ => True end
  | Writing id held =>
    (∃ owners, gr !! id = Some owners ∧ reverse held = orderedOwnerKinds owners) ∧ ∀ owner, owner ∈ held → owner ∉ closed m
  | Waiting owners channel => (channel <= changed m)%nat ∧ (channel = changed m → hasActive (active m) owners = true)
  | Lookup _ | Unlocking _ _ | LeavingGate _ _ | Draining _ | Returned _ => True
  end.

(** *** Permits *)
Record permits_ok (s : state) : Prop := {
  permits_granted id owners : active (manager s) !! id = Some owners → granted s !! id = Some owners;
  permits_valid id owners : granted s !! id = Some owners → owners ⊆ list_to_set AllOwners;
  permits_fresh : nextID (manager s) = issued s ∧ 0 <= issued s;
  permits_range id owners : granted s !! id = Some owners → 1 <= id <= issued s;
  (** A reader of a closed owner was told. *)
  permits_cancelled id owners : active (manager s) !! id = Some owners → intersects owners (closed (manager s)) = true → is_Some (causes s !! id);
}.

Record inv (s : state) : Prop := {
  inv_gates : gates_ok (writeGates (manager s)) (holding (threads s));
  inv_positions t th : threads s !! t = Some th → position_ok (manager s) (granted s) (at_ th);
  inv_permits : permits_ok s;
}.

Lemma elem_of_ordered owner owners : owners ⊆ list_to_set AllOwners → owner ∈ orderedOwnerKinds owners ↔ owner ∈ owners.
Proof. intros Hsub. unfold orderedOwnerKinds. rewrite list_elem_of_filter. set_solver. Qed.

Lemma ordered_valid owner owners : owner ∈ orderedOwnerKinds owners → owner ∈ AllOwners.
Proof. unfold orderedOwnerKinds. rewrite list_elem_of_filter. tauto. Qed.

Lemma holding_insert ths t p ctx t' : holding (<[t := mkThread p ctx]> ths) t' = if decide (t' = t) then held p else holding ths t'.
Proof.
  unfold holding. destruct (decide (t' = t)) as [->|Hne]; [by rewrite lookup_insert_eq|by rewrite lookup_insert_ne].
Qed.

Lemma intersects_true left right : intersects left right = true ↔ ∃ owner, owner ∈ left ∧ owner ∈ right.
Proof.
  unfold intersects. rewrite bool_decide_eq_true. split.
  - intros [owner Ho]%set_choose_L. exists owner. set_solver.
  - intros (owner & H1 & H2). set_solver.
Qed.

Lemma hasActive_true act owners : hasActive act owners = true ↔ ∃ id permit, act !! id = Some permit ∧ intersects permit owners = true.
Proof.
  unfold hasActive. rewrite existsb_exists. split.
  - intros ([id permit] & Hin%list_elem_of_In%elem_of_map_to_list & Hi). by exists id, permit.
  - intros (id & permit & Hin & Hi). exists (id, permit). split; [by apply list_elem_of_In, elem_of_map_to_list|done].
Qed.

(** ** The invariant is preserved *)
Lemma inv_put s t th p m' cs' :
  inv s → threads s !! t = Some th →
  active m' = active (manager s) → nextID m' = nextID (manager s) → changed m' = changed (manager s) →
  (∀ id, is_Some (causes s !! id) → is_Some (cs' !! id)) →
  gates_ok (writeGates m') (holding (<[t := mkThread p (context th)]> (threads s))) →
  position_ok m' (granted s) p →
  (∀ t' owner, t' ≠ t → owner ∈ holding (threads s) t' → owner ∈ closed m' → owner ∈ closed (manager s)) →
  (∀ id owners, active (manager s) !! id = Some owners → intersects owners (closed m') = true →
     intersects owners (closed (manager s)) = true ∨ is_Some (cs' !! id)) →
  inv (put t th p (set_causes cs' (set_manager m' s))).
Proof.
  intros [Hg Hpos [P1 P2 P3 P4 P5]] Ht Hact Hnext Hch Hcs Hgates Hp Hclosed Hcancel. split; cbn.
  - exact Hgates.
  - intros t' th'. destruct (decide (t' = t)) as [->|Hne]; [rewrite lookup_insert_eq; by intros [= <-]|].
    rewrite lookup_insert_ne by done. intros Ht'. pose proof (Hpos t' th' Ht') as Hok.
    assert (∀ owner, owner ∈ held (at_ th') → owner ∈ closed m' → owner ∈ closed (manager s)) as Hth.
    { intros owner Ho. apply (Hclosed t' owner Hne). unfold holding. by rewrite Ht'. }
    destruct (at_ th'); cbn [position_ok held] in *; rewrite ?Hact, ?Hch; [done..| |done|done|done|done|done].
    destruct Hok as [Hids Ho]. split; [done|]. intros owner Hin Hcl. by apply (Ho owner Hin), Hth.
  - split; cbn; rewrite ?Hact, ?Hnext; try done. intros id owners Hid Hi.
    destruct (Hcancel id owners Hid Hi) as [Hi'|]; [|done]. apply Hcs. by apply (P5 id owners).
Qed.

(** A call moves on and touches nothing shared. *)
Lemma inv_move s t th p :
  inv s → threads s !! t = Some th → held p = held (at_ th) → position_ok (manager s) (granted s) p → inv (put t th p s).
Proof.
  intros Hinv Ht Hheld Hp. assert (put t th p s = put t th p (set_causes (causes s) (set_manager (manager s) s))) as -> by by destruct s.
  apply inv_put; try done; [|tauto].
  eapply gates_same; [|apply Hinv]. intros t'. rewrite holding_insert. destruct (decide (t' = t)) as [->|]; [|done].
  unfold holding. by rewrite Ht.
Qed.

Lemma reverse_cons_app {A} (x : A) l k : reverse (x :: l) ++ k = reverse l ++ x :: k.
Proof. rewrite reverse_cons. by rewrite <- app_assoc. Qed.

(** A call that changes which owners are closed, while it holds their gates. *)
Lemma inv_change s t th held_ n m' cs' :
  inv s → threads s !! t = Some th → held (at_ th) = held_ →
  active m' = active (manager s) → nextID m' = nextID (manager s) → changed m' = changed (manager s) →
  writeGates m' = writeGates (manager s) →
  (∀ id, is_Some (causes s !! id) → is_Some (cs' !! id)) →
  (∀ owner, owner ∈ closed m' → owner ∈ closed (manager s) ∨ owner ∈ held_) →
  (∀ id owners, active (manager s) !! id = Some owners → intersects owners (closed m') = true →
     intersects owners (closed (manager s)) = true ∨ is_Some (cs' !! id)) →
  inv (put t th (Unlocking held_ n) (set_causes cs' (set_manager m' s))).
Proof.
  intros Hinv Ht Hheld Hact Hnext Hch Hgates Hcs Hclosed Hcancel. apply inv_put; try done.
  - rewrite Hgates. eapply gates_same; [|apply Hinv]. intros t'. rewrite holding_insert. destruct (decide (t' = t)) as [->|]; [|done].
    unfold holding. by rewrite Ht.
  - intros t' owner Hne Ho Hcl. destruct (Hclosed owner Hcl) as [|Hin]; [done|]. destruct Hne.
    apply (gates_exclusive _ _ (inv_gates s Hinv) t' t owner Ho). unfold holding. rewrite Ht. cbn. by rewrite Hheld.
Qed.

Lemma cancel_Some ids c causes id : is_Some (cancel ids c causes !! id) ↔ is_Some (causes !! id) ∨ id ∈ ids.
Proof.
  unfold cancel. rewrite lookup_union_is_Some. by rewrite <- (elem_of_dom (gset_to_gmap c ids)), dom_gset_to_gmap.
Qed.

Lemma inv_critical s t th c held_ :
  inv s → threads s !! t = Some th → at_ th = Locked c held_ → inv (critical s t th c held_).
Proof.
  intros Hinv Ht Hat. pose proof (inv_positions s Hinv t th Ht) as Hok. rewrite Hat in Hok. destruct Hok as (Hrev & Hvalid & Hid).
  assert (∀ owner, owner ∈ held_ ↔ owner ∈ lock_owners (granted s) c) as Hheld.
  { intros owner. by rewrite <- (elem_of_ordered owner _ Hvalid), <- Hrev, elem_of_reverse. }
  assert (∀ n, inv (put t th (Unlocking held_ n) s)) as Hunlock.
  { intros n. apply inv_move; [done|done|by rewrite Hat|done]. }
  destruct c as [id|target owners|cg rg owners|target owners]; cbn [critical].
  - destruct (active (manager s) !! id) as [owners|] eqn:Hact; [|apply Hunlock].
    destruct (causes s !! id); [apply Hunlock|]. destruct (intersects owners _) eqn:Hi; [apply Hunlock|].
    pose proof (permits_granted s (inv_permits s Hinv) id owners Hact) as Hgr.
    apply inv_move; [done|done|by rewrite Hat|]. cbn in *. rewrite Hgr in *. cbn in *. split; [by exists owners|].
    intros owner Ho%Hheld Hcl. destruct (not_true_iff_false (intersects owners (closed (manager s)))) as [_ Hnot].
    apply Hnot; [done|]. apply intersects_true. by exists owner.
  - apply inv_change; try done; [by rewrite Hat|..].
    + intros i Hi. apply cancel_Some. by left.
    + intros owner [|Ho]%elem_of_union; [by left|right]. by apply Hheld.
    + intros i permit Hact (owner & Ho & [Hcl|Hown]%elem_of_union)%intersects_true; [left; apply intersects_true; by exists owner|right].
      apply cancel_Some. right. unfold to_cancel. apply elem_of_dom. exists permit. apply map_lookup_filter_Some. split; [done|].
      apply intersects_true. by exists owner.
  - change (put t th (Unlocking held_ (ThenReturn Done)) (set_manager ?m s)) with
      (put t th (Unlocking held_ (ThenReturn Done)) (set_causes (causes s) (set_manager m s))).
    apply inv_change; try done; [by rewrite Hat|..].
    + cbn. set_solver.
    + cbn. intros i permit Hact (owner & Ho & [Hcl _]%elem_of_difference)%intersects_true. left. apply intersects_true. by exists owner.
  - change (put t th (Unlocking held_ (ThenReturn Done)) (set_manager ?m s)) with
      (put t th (Unlocking held_ (ThenReturn Done)) (set_causes (causes s) (set_manager m s))).
    apply inv_change; try done; [by rewrite Hat|..].
    + cbn. set_solver.
    + cbn. intros i permit Hact (owner & Ho & [Hcl _]%elem_of_difference)%intersects_true. left. apply intersects_true. by exists owner.
Qed.

Lemma inv_take s t th c owner todo held_ :
  inv s → threads s !! t = Some th → at_ th = Locking c (owner :: todo) held_ → owner ∈ writeGates (manager s) →
  inv (put t th (Locking c todo (owner :: held_)) (set_manager (set_gates (writeGates (manager s) ∖ {[owner]}) (manager s)) s)).
Proof.
  intros Hinv Ht Hat Hfree. pose proof (inv_positions s Hinv t th Ht) as Hok. rewrite Hat in Hok. destruct Hok as (Hrev & Hvalid & Hid).
  change (put t th ?p (set_manager ?m s)) with (put t th p (set_causes (causes s) (set_manager m s))).
  apply inv_put; try done; [|by split; [rewrite reverse_cons_app|]|tauto].
  eapply (gates_take _ (holding (threads s)) _ t owner); [done| | |intros t' Hne; rewrite holding_insert; by rewrite decide_False|apply Hinv].
  - apply (ordered_valid owner (lock_owners (granted s) c)). rewrite <- Hrev. set_solver.
  - rewrite holding_insert, decide_True by done. unfold holding. rewrite Ht. cbn. by rewrite Hat.
Qed.

Lemma inv_put_back s t th owner held_ n :
  inv s → threads s !! t = Some th → at_ th = Unlocking (owner :: held_) n →
  inv (put t th (Unlocking held_ n) (set_manager (set_gates (writeGates (manager s) ∪ {[owner]}) (manager s)) s)).
Proof.
  intros Hinv Ht Hat. change (put t th ?p (set_manager ?m s)) with (put t th p (set_causes (causes s) (set_manager m s))).
  apply inv_put; try done; [|tauto].
  eapply (gates_put _ (holding (threads s)) _ t owner held_); [| |intros t' Hne; rewrite holding_insert; by rewrite decide_False|apply Hinv].
  - unfold holding. rewrite Ht. cbn. by rewrite Hat.
  - by rewrite holding_insert, decide_True.
Qed.

Lemma inv_thread_step s t th ch s' :
  inv s → threads s !! t = Some th → thread_step s t th ch = Some s' → inv s'.
Proof.
  intros Hinv Ht Hstep. pose proof (inv_positions s Hinv t th Ht) as Hok. pose proof (inv_permits s Hinv) as Hperm.
  assert (∀ p, held p = held (at_ th) → position_ok (manager s) (granted s) p → inv (put t th p s)) as Hmove by by intros; apply inv_move.
  assert (∀ c id owners, c = CallCommit id → granted s !! id = Some owners → position_ok (manager s) (granted s) (Locking c (orderedOwnerKinds owners) [])) as Hlock.
  { intros c id owners -> Hgr. cbn. rewrite Hgr. cbn. split_and!; [done|by apply (permits_valid s Hperm id)|by eexists]. }
  unfold thread_step in Hstep. destruct (at_ th) as [id|id owners|c todo held_|c held_|id held_|held_ n|id o|owners|owners channel|o] eqn:Hat;
    destruct ch; cbn [held] in *; try done.
  - destruct (active (manager s) !! id) as [owners|] eqn:Hact; injection Hstep as <-; [|by apply Hmove].
    apply (permits_granted s Hperm) in Hact. destruct (responseGate _); by apply Hmove; [|eauto].
  - injection Hstep as <-. apply Hmove; [done|]. by eauto.
  - injection Hstep as <-. by apply Hmove.
  - destruct todo as [|owner todo].
    + injection Hstep as <-. apply Hmove; [done|]. destruct Hok as [Hrev ?]. rewrite app_nil_r in Hrev. by split.
    + destruct (bool_decide (owner ∈ writeGates (manager s))) eqn:Hfree; [|done]. injection Hstep as <-. apply bool_decide_eq_true in Hfree.
      by apply inv_take.
  - destruct todo as [|owner todo]; [done|]. destruct (call_context s th c); [|done]. injection Hstep as <-. by apply Hmove.
  - destruct todo; done.
  - injection Hstep as <-. by apply inv_critical.
  - injection Hstep as <-. by apply Hmove.
  - destruct held_ as [|owner held_].
    + destruct n; injection Hstep as <-; by apply Hmove.
    + destruct (bool_decide (owner ∈ writeGates (manager s))); [done|]. injection Hstep as <-. by apply inv_put_back.
  - destruct held_; [by destruct n|done].
  - destruct held_; [by destruct n|done].
  - injection Hstep as <-. by apply Hmove.
  - injection Hstep as <-. by apply Hmove.
  - injection Hstep as <-. destruct (hasActive _ _) eqn:Ha; by apply Hmove.
  - destruct (channel <? changed (manager s))%nat; [|done]. injection Hstep as <-. by apply Hmove.
  - destruct (context th); [|done]. injection Hstep as <-. by apply Hmove.
Qed.

Lemma normalizeOwners_valid owners : normalizeOwners owners ⊆ list_to_set AllOwners.
Proof.
  intros owner. unfold normalizeOwners. rewrite !elem_of_list_to_set, list_elem_of_filter. intros [Hv _]. by apply OwnerKind_Valid_spec.
Qed.

Lemma check_owners_Ok owners set : check_owners owners = Ok set → set ⊆ list_to_set AllOwners ∧ set = list_to_set owners ∧ owners ≠ [].
Proof.
  unfold check_owners. intros (_ & Hall%fail_if_Ok & (_ & Hne%fail_if_Ok & [= <-])%bind_Ok)%bind_Ok. apply negb_false_iff in Hall.
  split_and!; [|done|by apply is_nil_false]. intros owner. rewrite !elem_of_list_to_set. intros Ho%list_elem_of_In.
  rewrite forallb_forall in Hall. by apply OwnerKind_Valid_spec, Hall.
Qed.

Lemma start_position_ok s j : held (start (normalize_call j)) = [] ∧ position_ok (manager s) (granted s) (start (normalize_call j)).
Proof.
  destruct j as [id|target owners|cg rg owners|target owners]; cbn; try done.
  - destruct (_ || _); cbn; [done|]. split_and!; [done|done|apply normalizeOwners_valid|done].
  - split_and!; [done|done|apply normalizeOwners_valid|done].
  - split_and!; [done|done|apply normalizeOwners_valid|done].
Qed.

(** A change outside of the calls: gates and closed owners stay. *)
Lemma inv_outside s s' :
  inv s → threads s' = threads s → writeGates (manager s') = writeGates (manager s) → closed (manager s') = closed (manager s) →
  (∀ id owners, granted s !! id = Some owners → granted s' !! id = Some owners) →
  (∀ owners channel, position_ok (manager s) (granted s) (Waiting owners channel) → position_ok (manager s') (granted s') (Waiting owners channel)) →
  permits_ok s' → inv s'.
Proof.
  intros [Hg Hpos _] Hths Hgates Hclosed Hgr Hwait Hperm. split; [by rewrite Hgates, Hths| |done].
  intros t th Ht. rewrite Hths in Ht. specialize (Hpos t th Ht).
  assert (∀ c todo held_, reverse held_ ++ todo = orderedOwnerKinds (lock_owners (granted s) c)
    → lock_owners (granted s) c ⊆ list_to_set AllOwners → match c with CallCommit id => is_Some (granted s !! id) | _ => True end
    → reverse held_ ++ todo = orderedOwnerKinds (lock_owners (granted s') c)
      ∧ lock_owners (granted s') c ⊆ list_to_set AllOwners ∧ match c with CallCommit id => is_Some (granted s' !! id) | _ => True end) as Hlock.
  { intros c todo held_ H1 H2 H3. destruct c as [id| | |]; cbn in *; try done. destruct H3 as [owners Hid].
    rewrite Hid in H1, H2. rewrite (Hgr id owners Hid). split_and!; [done|done|by eexists]. }
  destruct (at_ th) as [id|id owners|c todo held_|c held_|id held_|held_ n|id o|owners|owners channel|o]; try done.
  - by apply Hgr.
  - destruct Hpos as (H1 & H2 & H3). by apply Hlock.
  - destruct Hpos as (H1 & H2 & H3). destruct (Hlock c [] held_) as (H1' & H2' & H3'); rewrite ?app_nil_r in *; done.
  - destruct Hpos as [(owners & Hid & Hrev) Ho]. split; [exists owners; split; [by apply Hgr|done]|]. by rewrite Hclosed.
  - by apply Hwait.
Qed.

Lemma inv_acquire s owners set m' id :
  inv s → check_owners owners = Ok set → acquire (manager s) set = Ok (id, m') → issued s + 1 < 2 ^ 64 →
  inv (mkState m' (delete id (causes s)) (once s ∖ {[id]}) (threads s) (<[id := default ∅ (active m' !! id)]> (granted s)) (issued s + 1)).
Proof.
  intros Hinv [Hvalid _]%check_owners_Ok Hacq Hbound. pose proof (inv_permits s Hinv) as [P1 P2 [P3 P3'] P4 P5].
  unfold acquire in Hacq. destruct (intersects set (closed (manager s))) eqn:Hopen; [done|].
  assert ((nextID (manager s) + 1) mod 2 ^ 64 = issued s + 1) as Hid by (rewrite P3; apply Z.mod_small; lia).
  injection Hacq as <- <-. rewrite Hid. cbn [active]. rewrite lookup_insert_eq. cbn [default].
  assert (∀ i owners, granted s !! i = Some owners → i ≠ issued s + 1) as Hfresh by (intros i o Hi ->; apply P4 in Hi; lia).
  apply (inv_outside s); cbn; try done.
  - intros i o Hi. rewrite lookup_insert_ne; [done|]. symmetry. by eapply Hfresh.
  - intros waited channel [Hle Hwait]. split; [done|]. intros (i & permit & Hi & Hint)%Hwait%hasActive_true. apply hasActive_true.
    exists i, permit. split; [|done]. rewrite lookup_insert_ne; [done|]. symmetry. by eapply Hfresh, P1.
  - split; cbn; [| |split; [done|lia]| |].
    + intros i o. destruct (decide (i = issued s + 1)) as [->|Hne]; [by rewrite !lookup_insert_eq|]. rewrite !lookup_insert_ne by done. apply P1.
    + intros i o. destruct (decide (i = issued s + 1)) as [->|Hne]; [rewrite lookup_insert_eq; by intros [= <-]|]. rewrite lookup_insert_ne by done. apply P2.
    + intros i o. destruct (decide (i = issued s + 1)) as [->|Hne]; [lia|]. rewrite lookup_insert_ne by done. intros Hi%P4. lia.
    + intros i o. destruct (decide (i = issued s + 1)) as [->|Hne].
      * rewrite lookup_insert_eq. intros [= <-]. by rewrite Hopen.
      * rewrite lookup_insert_ne, lookup_delete_ne by done. apply P5.
Qed.

Lemma inv_release s id m' found :
  inv s → release (manager s) id = (found, m') →
  inv (mkState m' (if found then cancel {[id]} Canceled (causes s) else causes s) (once s ∪ {[id]}) (threads s) (granted s) (issued s)).
Proof.
  intros Hinv Hrel. pose proof (inv_permits s Hinv) as [P1 P2 P3 P4 P5]. unfold release in Hrel.
  destruct (active (manager s) !! id) as [o|] eqn:Hact; injection Hrel as <- <-; apply (inv_outside s); cbn; try done.
  - intros owners channel [Hle _]. split; [lia|]. lia.
  - split; cbn; try done.
    + intros i owners [_ Hi]%lookup_delete_Some. by apply P1.
    + intros i owners [_ Hi]%lookup_delete_Some Hint. apply cancel_Some. left. by apply (P5 i owners).
Qed.

Lemma critical_issued s t th c held_ : issued (critical s t th c held_) = issued s.
Proof. unfold critical. repeat case_match; done. Qed.

Lemma step_issued s e s' : step e s = Some s' → issued s <= issued s'.
Proof.
  destruct e as [owners|id|id c|t c|t j|t ch]; cbn [step].
  - destruct (owners ← _; _) as [[id m']|]; intros [= <-]; cbn; lia.
  - destruct (bool_decide _); [by intros [= <-]|]. destruct (release _ _). by intros [= <-].
  - destruct (bool_decide _); [done|]. by intros [= <-].
  - destruct (threads s !! t); [|done]. by intros [= <-].
  - destruct (bool_decide _ && _); [|done]. by intros [= <-].
  - destruct (threads s !! t) as [th|]; [|done]. cbn [mbind option_bind].
    unfold thread_step. destruct (at_ th) as [| |c [|? ?]| | |[|? ?] n| | | |], ch; try done; cbn [from_option mbind option_bind];
      repeat (case_match; try done); intros Heq; simplify_option_eq; rewrite ?critical_issued; done.
Qed.

Lemma inv_step s e s' : inv s → step e s = Some s' → issued s' < 2 ^ 64 → inv s'.
Proof.
  intros Hinv. destruct e as [owners|id|id c|t c|t j|t ch]; cbn [step].
  - destruct (owners ← check_owners owners; acquire (manager s) owners) as [[id m']|] eqn:Hacq; intros [= <-] Hb; [|done].
    apply bind_Ok in Hacq as (set & Hset & Hacq). by eapply inv_acquire.
  - destruct (bool_decide _); [by intros [= <-]|]. destruct (release _ _) as [found m'] eqn:Hrel. intros [= <-] _. by apply inv_release.
  - destruct (bool_decide _); [done|]. intros [= <-] _. pose proof (inv_permits s Hinv) as [P1 P2 P3 P4 P5].
    apply (inv_outside s); try done. split; try assumption.
    intros i owners Hi Hint. apply cancel_Some. left. by apply (P5 i owners).
  - destruct (threads s !! t) as [th|] eqn:Ht; [|done]. intros [= <-] _. destruct Hinv as [Hg Hpos [P1 P2 P3 P4 P5]]. split; cbn; [| |by split].
    + eapply gates_same; [|exact Hg]. intros t'. rewrite holding_insert. destruct (decide (t' = t)) as [->|]; [|done].
      unfold holding. by rewrite Ht.
    + intros t' th'. destruct (decide (t' = t)) as [->|]; [rewrite lookup_insert_eq; intros [= <-]; exact (Hpos t th Ht)|].
      rewrite lookup_insert_ne by done. apply Hpos.
  - destruct (bool_decide (threads s !! t = None)) eqn:Hfree; [|done]. apply bool_decide_eq_true in Hfree. cbn [andb].
    destruct (possible s j); [|done]. intros [= <-] _. destruct (start_position_ok s j) as [Hheld Hok].
    destruct Hinv as [Hg Hpos [P1 P2 P3 P4 P5]]. split; cbn; [| |by split].
    + eapply gates_same; [|exact Hg]. intros t'. rewrite holding_insert. destruct (decide (t' = t)) as [->|]; [|done].
      unfold holding. by rewrite Hfree.
    + intros t' th'. destruct (decide (t' = t)) as [->|]; [rewrite lookup_insert_eq; by intros [= <-]|].
      rewrite lookup_insert_ne by done. apply Hpos.
  - destruct (threads s !! t) as [th|] eqn:Ht; [|done]. intros Hstep _. by eapply inv_thread_step.
Qed.

Lemma inv_initial g : inv (initial g).
Proof.
  split.
  - assert (∀ t, holding (threads (initial g)) t = []) as Hnone by done. split; intros *; rewrite ?Hnone; try by intros ?%not_elem_of_nil.
    + constructor.
    + intros Ho. left. by apply elem_of_list_to_set.
  - intros t th Ht. by destruct (lookup_empty_Some t th Ht).
  - split; [| |done| |]; intros id owners Hid; by destruct (lookup_empty_Some id owners Hid).
Qed.

Lemma reachable_inv g s : reachable g s → issued s < 2 ^ 64 → inv s.
Proof.
  induction 1 as [|s e s' _ IH Hstep]; intros Hb; [apply inv_initial|].
  pose proof (step_issued s e s' Hstep). eapply inv_step; [apply IH; lia|done|done].
Qed.




Lemma writing_open s t th id held_ :
  inv s → threads s !! t = Some th → at_ th = Writing id held_ →
  ∃ owners, granted s !! id = Some owners ∧ ∀ owner, owner ∈ owners → owner ∉ closed (manager s) ∧ owner ∉ writeGates (manager s).
Proof.
  intros Hinv Ht Hat. pose proof (inv_positions s Hinv t th Ht) as Hok. rewrite Hat in Hok. destruct Hok as [(owners & Hgr & Hrev) Hopen].
  exists owners. split; [done|]. intros owner Ho. assert (owner ∈ held_) as Hheld.
  { rewrite <- elem_of_reverse, Hrev. apply elem_of_ordered; [|done]. by apply (permits_valid s (inv_permits s Hinv) id). }
  split; [by apply Hopen|]. apply (gates_taken _ _ (inv_gates s Hinv) t owner). unfold holding. rewrite Ht. cbn. by rewrite Hat.
Qed.







(** A response is only written while every owner of its permit is open and its
    write gate is held; and a reader of a closed owner has a cancelled context. *)
Theorem writes_are_open g s :
  reachable g s → issued s < 2 ^ 64 →
  (∀ t th id held_, threads s !! t = Some th → at_ th = Writing id held_ →
     ∃ owners, granted s !! id = Some owners ∧ ∀ owner, owner ∈ owners → owner ∉ closed (manager s) ∧ owner ∉ writeGates (manager s))
  ∧ ∀ id owners, active (manager s) !! id = Some owners → intersects owners (closed (manager s)) = true → is_Some (causes s !! id).
Proof.
  intros Hr Hb. pose proof (reachable_inv g s Hr Hb) as Hinv. split.
  - intros t th id held_. by apply writing_open.
  - apply (permits_cancelled s (inv_permits s Hinv)).
Qed.

(** ** Progress *)
Definition rank (owner : OwnerKind) : nat := match list_find (eq owner) AllOwners with Some (index, _) => index | None => length AllOwners end.

Lemma owners_ranked : StronglySorted (fun a b => (rank a < rank b)%nat) AllOwners.
Proof. unfold AllOwners. repeat (constructor; [|repeat (constructor; [cbv; lia|]); constructor]). constructor. Qed.

Lemma rank_bound owner : owner ∈ AllOwners → (rank owner < 6)%nat.
Proof.
  intros Ho. unfold AllOwners in Ho. rewrite !elem_of_cons in Ho.
  destruct Ho as [->|[->|[->|[->|[->|[->|Ho]]]]]]; [cbv; lia..|by apply not_elem_of_nil in Ho].
Qed.

(** Gates are taken in the order of [AllOwners]. *)
Lemma locking_order s t th c todo held_ owner1 owner2 :
  inv s → threads s !! t = Some th → at_ th = Locking c todo held_ → owner1 ∈ held_ → owner2 ∈ todo → (rank owner1 < rank owner2)%nat.
Proof.
  intros Hinv Ht Hat H1 H2. pose proof (inv_positions s Hinv t th Ht) as Hok. rewrite Hat in Hok. destruct Hok as [Hrev _].
  assert (StronglySorted (fun a b => (rank a < rank b)%nat) (reverse held_ ++ todo)) as Hsorted.
  { rewrite Hrev. unfold orderedOwnerKinds. apply StronglySorted_filter, owners_ranked. }
  apply (StronglySorted_app_1_elem_of (fun a b => (rank a < rank b)%nat) (reverse held_) todo); [done|by apply elem_of_reverse|done].
Qed.

Definition enabled (s : state) : Prop := ∃ t, is_Some (step (Step t Proceed) s).

Lemma enabled_intro s t th : threads s !! t = Some th → is_Some (thread_step s t th Proceed) → enabled s.
Proof. intros Ht Hstep. exists t. cbn. by rewrite Ht. Qed.

(** A call that waits for a gate waits for a call that can go on, or for one that
    waits for a later gate. *)
Lemma locking_enabled s : inv s → ∀ n t th c owner todo held_,
  threads s !! t = Some th → at_ th = Locking c (owner :: todo) held_ → (6 - rank owner <= n)%nat → enabled s.
Proof.
  intros Hinv n. induction n as [|n IH]; intros t th c owner todo held_ Ht Hat Hn;
    pose proof (inv_positions s Hinv t th Ht) as Hok; rewrite Hat in Hok; destruct Hok as [Hrev _].
  - assert (owner ∈ AllOwners) as Hall%rank_bound; [|lia].
    apply (ordered_valid owner (lock_owners (granted s) c)). rewrite <- Hrev. set_solver.
  - assert (owner ∈ AllOwners) as Hall by (apply (ordered_valid owner (lock_owners (granted s) c)); rewrite <- Hrev; set_solver).
    destruct (decide (owner ∈ writeGates (manager s))) as [Hfree|Htaken].
    { apply (enabled_intro s t th Ht). unfold thread_step. rewrite Hat. cbn. rewrite bool_decide_true by done. by eexists. }
    destruct (gates_accounted _ _ (inv_gates s Hinv) owner Hall) as [|[t' Hheld]]; [done|].
    unfold holding in Hheld. destruct (threads s !! t') as [th'|] eqn:Ht'; cbn in Hheld; [|by apply not_elem_of_nil in Hheld].
    destruct (at_ th') as [id|id owners|c' [|owner' todo'] h|c' h|id h|h n'|id o|owners|owners channel|o] eqn:Hat'; cbn in Hheld;
      try by apply not_elem_of_nil in Hheld.
    + apply (enabled_intro s t' th' Ht'). unfold thread_step. rewrite Hat'. by eexists.
    + eapply (IH t' th' c' owner' todo' h); [done|done|]. pose proof (locking_order s t' th' c' (owner' :: todo') h owner owner' Hinv Ht' Hat' Hheld ltac:(set_solver)).
      lia.
    + apply (enabled_intro s t' th' Ht'). unfold thread_step. rewrite Hat'. by eexists.
    + apply (enabled_intro s t' th' Ht'). unfold thread_step. rewrite Hat'. by eexists.
    + apply (enabled_intro s t' th' Ht'). unfold thread_step. rewrite Hat'. destruct h as [|o h]; [by apply not_elem_of_nil in Hheld|].
      rewrite bool_decide_false; [by eexists|]. apply (gates_taken _ _ (inv_gates s Hinv) t'). unfold holding. rewrite Ht'. cbn. rewrite Hat'. cbn. set_solver.
Qed.

(** A call that returned, or that waits for readers whose permits are active. *)
Definition resting (s : state) (p : position) : Prop :=
  match p with
  | Returned _ => True
  | Waiting owners channel => channel = changed (manager s) ∧ hasActive (active (manager s)) owners = true
  | _ => False
  end.

#[export] Instance resting_dec s p : Decision (resting s p).
Proof. destruct p; cbn; apply _. Defined.

Lemma thread_enabled s t th : inv s → threads s !! t = Some th → ¬ resting s (at_ th) → enabled s.
Proof.
  intros Hinv Ht Hrest. pose proof (inv_positions s Hinv t th Ht) as Hok.
  destruct (at_ th) as [id|id owners|c [|owner todo] h|c h|id h|[|owner h] n|id o|owners|owners channel|o] eqn:Hat; cbn in Hrest, Hok; try done.
  all: try (apply (enabled_intro s t th Ht); unfold thread_step; rewrite Hat; by eexists).
  - apply (enabled_intro s t th Ht). unfold thread_step. rewrite Hat. cbn zeta. destruct (active (manager s) !! id); by eexists.
  - eapply (locking_enabled s Hinv _ t th c owner todo h); done.
  - apply (enabled_intro s t th Ht). unfold thread_step. rewrite Hat. destruct n; by eexists.
  - apply (enabled_intro s t th Ht). unfold thread_step. rewrite Hat. cbn zeta. rewrite bool_decide_false; [by eexists|].
    apply (gates_taken _ _ (inv_gates s Hinv) t). unfold holding. rewrite Ht. cbn. rewrite Hat. cbn. set_solver.
  - destruct Hok as [Hle Hwait]. apply (enabled_intro s t th Ht). unfold thread_step. rewrite Hat. cbn zeta.
    destruct (Nat.ltb_spec channel (changed (manager s))) as [|Hge]; [by eexists|]. destruct Hrest.
    assert (channel = changed (manager s)) as -> by lia. split; [done|]. by apply Hwait.
Qed.

(** Calls do not block each other. In every state, a call can go on, unless each has
    returned or waits in [CloseAndDrain] for a permit that is still active: gates are
    never awaited in a circle, and the release of the last permit wakes the waiting call. *)
Theorem calls_do_not_deadlock g s :
  reachable g s → issued s < 2 ^ 64 → enabled s ∨ ∀ t th, threads s !! t = Some th → resting s (at_ th).
Proof.
  intros Hr Hb. pose proof (reachable_inv g s Hr Hb) as Hinv.
  destruct (decide (map_Forall (fun _ th => resting s (at_ th)) (threads s))) as [Hall|Hnot]; [right; exact Hall|left].
  apply map_not_Forall in Hnot as (t & th & Ht & Hrest); [by eapply thread_enabled|apply _].
Qed.

(** *** Owners are opened again only on purpose *)
Lemma thread_step_closed s t th ch s' owner :
  thread_step s t th ch = Some s' → owner ∈ closed (manager s) → owner ∉ closed (manager s') →
  ∃ held_, (∃ target owners, at_ th = Locked (CallOpen target owners) held_ ∧ owner ∈ owners ∧ generation_of (manager s) owner <= target)
    ∨ (∃ closedGeneration restore owners, at_ th = Locked (CallAbort closedGeneration restore owners) held_ ∧ owner ∈ owners
         ∧ generation_of (manager s) owner = closedGeneration).
Proof.
  intros Hstep Hin Hout. unfold thread_step in Hstep.
  destruct (at_ th) as [| |c [|? ?]|c h| |[|? ?] n| | | |] eqn:Hat, ch; try done; cbn [from_option mbind option_bind] in Hstep;
    try (repeat (case_match; try done); simplify_option_eq; by destruct Hout).
  injection Hstep as <-. exists h. destruct c as [id|target owners|cg rg owners|target owners]; cbn in Hout.
  - repeat case_match; by destruct Hout.
  - set_solver.
  - right. exists cg, rg, owners. apply not_elem_of_difference in Hout as [|Hout]; [done|]. apply elem_of_filter in Hout as [[_ ?] ?]. done.
  - left. exists target, owners. apply not_elem_of_difference in Hout as [|Hout]; [done|]. apply elem_of_filter in Hout as [? ?]. done.
Qed.

(** A closed owner is opened again only by an [Open] for its generation or a later
    one, or by an [AbortClose] of the very close. *)
Theorem reopening_is_deliberate e s s' owner :
  step e s = Some s' → owner ∈ closed (manager s) → owner ∉ closed (manager s') →
  ∃ t ch th held_, e = Step t ch ∧ threads s !! t = Some th
    ∧ ((∃ target owners, at_ th = Locked (CallOpen target owners) held_ ∧ owner ∈ owners ∧ generation_of (manager s) owner <= target)
       ∨ (∃ closedGeneration restore owners, at_ th = Locked (CallAbort closedGeneration restore owners) held_ ∧ owner ∈ owners
            ∧ generation_of (manager s) owner = closedGeneration)).
Proof.
  intros Hstep Hin Hout. destruct e as [owners|i|i c|t c|t j|t ch]; cbn [step] in Hstep.
  - destruct (owners ← _; _) as [[i m']|] eqn:Hacq; injection Hstep as <-; [|by destruct Hout]. destruct Hout. cbn [manager].
    apply bind_Ok in Hacq as (set & _ & Hacq). unfold acquire in Hacq. destruct (intersects set _); [done|]. by injection Hacq as _ <-.
  - destruct (bool_decide _); [injection Hstep as <-; by destruct Hout|]. unfold release in Hstep.
    destruct (active (manager s) !! i); injection Hstep as <-; by destruct Hout.
  - destruct (bool_decide _); [done|]. injection Hstep as <-. by destruct Hout.
  - destruct (threads s !! t); [|done]. injection Hstep as <-. by destruct Hout.
  - destruct (bool_decide _ && _); [|done]. injection Hstep as <-. by destruct Hout.
  - destruct (threads s !! t) as [th|] eqn:Ht; [|done]. destruct (thread_step_closed s t th ch s' owner Hstep Hin Hout) as [h Hcase].
    by exists t, ch, th, h.
Qed.

(** ** Witnesses *)
Fixpoint run (es : list event) (s : state) : option state :=
  match es with
  | [] => Some s
  | e :: es => s' ← step e s; run es s'
  end.

Lemma permit_run_reachable g es s s' : run es s = Some s' → reachable g s → reachable g s'.
Proof.
  revert s. induction es as [|e es IH]; intros s; cbn; [by intros [= ->]|].
  destruct (step e s) as [s1|] eqn:Hs; [|done]. intros Hrun Hr. apply (IH s1 Hrun). by eapply reachable_step.
Qed.

Module Samples.
Definition memory : gset OwnerKind := {[OwnerMemory]}.

(** A reader of the memory and an erasure that closes it. *)
Definition closing : list event := [Acquire [OwnerMemory]; Begin 0 (CallClose 2 memory)] ++ replicate 5 (Step 0 Proceed).
Definition drained : list event := closing ++ [Step 0 Proceed; Release 1; Step 0 Proceed].

Definition after (es : list event) : state := default (initial false) (run es (initial false)).

Lemma after_reachable es : is_Some (run es (initial false)) → reachable false (after es).
Proof. intros [s Hs]. unfold after. rewrite Hs. apply (permit_run_reachable false es (initial false)); [done|constructor]. Qed.

(** A response that is written while an erasure waits for the gate. *)
Definition writing : list event :=
  [Acquire [OwnerMemory; OwnerLearning]; Begin 0 (CallCommit 1)] ++ replicate 5 (Step 0 Proceed) ++ [Begin 1 (CallClose 2 memory)].

Example writer : at_ <$> threads (after writing) !! 0%nat = Some (Writing 1 [OwnerMemory; OwnerLearning]).
Proof. vm_compute. reflexivity. Qed.
Example closer_blocked : step (Step 1 Proceed) (after writing) = None.
Proof. vm_compute. reflexivity. Qed.
Example waits_for_reader : at_ <$> threads (after (closing ++ [Step 0 Proceed])) !! 0%nat = Some (Waiting memory 0).
Proof. vm_compute. reflexivity. Qed.
Example no_new_reader : active (manager (after (drained ++ [Acquire [OwnerMemory]]))) = ∅.
Proof. vm_compute. reflexivity. Qed.
Example read_again : (size (active (manager (after (drained ++ [Step 0 Proceed; Begin 1 (CallOpen 2 memory)] ++ replicate 5 (Step 1 Proceed)
  ++ [Acquire [OwnerMemory]])))) = 1)%nat.
Proof. vm_compute. reflexivity. Qed.
End Samples.


Lemma writes_are_open_witness : ∃ owners, granted (Samples.after Samples.writing) !! 1 = Some owners
  ∧ ∀ owner, owner ∈ owners → owner ∉ closed (manager (Samples.after Samples.writing)) ∧ owner ∉ writeGates (manager (Samples.after Samples.writing)).
Proof.
  refine (proj1 (writes_are_open false (Samples.after Samples.writing) _ _) 0%nat (mkThread (Writing 1 [OwnerMemory; OwnerLearning]) None) 1 _ _ eq_refl).
  - apply Samples.after_reachable. vm_compute. by eexists.
  - vm_compute. reflexivity.
  - vm_compute. reflexivity.
Defined.

Lemma calls_do_not_deadlock_witness :
  enabled (Samples.after Samples.writing) ∨ ∀ t th, threads (Samples.after Samples.writing) !! t = Some th → resting (Samples.after Samples.writing) (at_ th).
Proof.
  apply (calls_do_not_deadlock false).
  - apply Samples.after_reachable. vm_compute. by eexists.
  - vm_compute. reflexivity.
Defined.

Lemma reopening_is_deliberate_witness :
  ∃ t ch th held_, Step 1 Proceed = Step t ch ∧ threads (Samples.after (Samples.drained ++ [Begin 1 (CallOpen 2 Samples.memory); Step 1 Proceed; Step 1 Proceed])) !! t = Some th
    ∧ ((∃ target owners, at_ th = Locked (CallOpen target owners) held_ ∧ OwnerMemory ∈ owners
          ∧ generation_of (manager (Samples.after (Samples.drained ++ [Begin 1 (CallOpen 2 Samples.memory); Step 1 Proceed; Step 1 Proceed]))) OwnerMemory <= target)
       ∨ (∃ closedGeneration restore owners, at_ th = Locked (CallAbort closedGeneration restore owners) held_ ∧ OwnerMemory ∈ owners
          ∧ generation_of (manager (Samples.after (Samples.drained ++ [Begin 1 (CallOpen 2 Samples.memory); Step 1 Proceed; Step 1 Proceed]))) OwnerMemory = closedGeneration)).
Proof.
  apply (reopening_is_deliberate _ _ (Samples.after (Samples.drained ++ [Begin 1 (CallOpen 2 Samples.memory); Step 1 Proceed; Step 1 Proceed; Step 1 Proceed]))).
  - vm_compute. reflexivity.
  - apply (bool_decide_unpack _). vm_compute. exact I.
  - apply (bool_decide_unpack _). vm_compute. exact I.
Defined.
