(* ===== verification/ErasureGrants.v ===== *)
(** * Grants that authorise an erasure

    [server/internal/privacy/grant.go] issues a secret token for a device, once, and
    checks a token; [server/internal/privacy/postgresstore/grant.go] keeps the grants
    in PostgreSQL. A transaction locks the row of the device, so that the calls for
    one device happen one after the other: each call is one step on the table, at a
    reading of the clock of the database. The constraints are those of
    [migrations/000004_memory_bridge.sql]; its trigger forbids updates that no call
    makes. A failure of the database is [Fault]: the transaction was rolled back, or
    it was committed and the answer lost. *)
From S2P Require Import Prelude GoStd Packages Utf8 Jcs Encoding Privacy.

Definition DefaultErasureGrantTTL : duration := 10 * minute.
Definition DefaultErasureGrantMaxAttempts : Z := 5.
Definition erasureGrantBytes : nat := 32.

Record ErasureGrant := mkErasureGrant {
  ErasureGrant_ID : string;
  ErasureGrant_DeviceID : string;
  ErasureGrant_TokenHash : text;
  ErasureGrant_CreatedAt : time;
  ErasureGrant_ExpiresAt : time;
  ErasureGrant_MaxAttempts : Z;
  ErasureGrant_CreatedBy : string;
}.

Record ErasureGrantCreate := mkErasureGrantCreate {
  Create_ID : string;
  Create_DeviceID : string;
  Create_TokenHash : text;
  Create_TTL : duration;
  Create_MaxAttempts : Z;
  Create_CreatedBy : string;
}.

Record ErasureGrantAuthorization := mkErasureGrantAuthorization {
  Authorization_DeviceID : string;
  Authorization_CandidateHash : text;
  Authorization_Canonical : bool;
}.

Record ErasureGrantService := mkErasureGrantService { Service_ttl : duration; Service_maxAttempts : Z }.

Record IssuedErasureGrant := mkIssuedErasureGrant {
  Issued_Token : string;
  Issued_DeviceID : string;
  Issued_ExpiresAt : time;
}.

(** [store] is given, and [options.Random] is the argument of [Issue]. *)
Definition NewErasureGrantService (TTL : duration) (MaxAttempts : Z) : result error ErasureGrantService :=
  let TTL := if TTL =? 0 then DefaultErasureGrantTTL else TTL in
  let MaxAttempts := if MaxAttempts =? 0 then DefaultErasureGrantMaxAttempts else MaxAttempts in
  _ ← fail_if ((TTL <? 0) || (MaxAttempts <? 0)) (ErrorOther "privacy erasure grant TTL and attempt budget must be positive");
  Ok (mkErasureGrantService TTL MaxAttempts).

Definition erasureGrantCandidate (token : string) : text * bool :=
  let invalid := sha256_bytes (bytes_of ("privacy-erasure-grant-invalid-v1" +:+ String (ascii_of_byte 0) "" +:+ token)) in
  match base64_DecodeString token with
  | Some decoded =>
    if (length decoded =? erasureGrantBytes)%nat && bool_decide (base64_EncodeToString decoded = token) then (sha256_bytes decoded, true) else (invalid, false)
  | None => (invalid, false)
  end.

Definition NewErasureGrantAuthorization (deviceID token : string) : ErasureGrantAuthorization :=
  let '(candidateHash, canonical) := erasureGrantCandidate token in
  mkErasureGrantAuthorization deviceID candidateHash canonical.

(** ** The tables *)
Record row := mkRow {
  id : string;
  device_id : string;
  token_hash : text;
  created_at : time;
  expires_at : time;
  consumed_at : option time;
  attempts : Z;
  max_attempts : Z;
  created_by : string;
}.

(** Of a device, [revoked_at] is used. *)
Record database := mkDatabase { devices : gmap string (option time); grants : list row }.

Definition with_consumed (at_ : time) (r : row) : row :=
  mkRow (id r) (device_id r) (token_hash r) (created_at r) (expires_at r) (Some at_) (attempts r) (max_attempts r) (created_by r).
Definition with_attempts (n : Z) (r : row) : row :=
  mkRow (id r) (device_id r) (token_hash r) (created_at r) (expires_at r) (consumed_at r) n (max_attempts r) (created_by r).

(** The constraints of a row; [attempts] and [max_attempts] are 32-bit integers. *)
Definition row_ok (r : row) : bool :=
  (length (token_hash r) =? 32)%nat && (created_at r <? expires_at r) && (0 <=? attempts r) && (0 <? max_attempts r) && (max_attempts r <? 2 ^ 31)
  && (attempts r <=? max_attempts r) && in_range 1 (rune_count (created_by r)) 200
  && match consumed_at r with None => true | Some c => (created_at r <=? c) && (c <=? expires_at r) end.

(** [id] is a primary key and [token_hash] is unique. *)
Definition unique_in (r : row) (rows : list row) : bool :=
  forallb (fun r' => negb (bool_decide (id r' = id r)) && negb (bool_decide (token_hash r' = token_hash r))) rows.

(** A time is stored in microseconds. *)
Definition timestamptz (t : time) : time := t / 1000 * 1000.

Definition update (f : row → row) (rows : list row) : result error (list row) :=
  let rows' := f <$> rows in
  _ ← fail_if (negb (forallb row_ok rows')) ErrErasureGrantStoreUnavailable;
  Ok rows'.

(** The rows the consuming update touches: [command.RowsAffected()]. *)
Definition affected (r : row) (rows : list row) : nat := length (filter (fun r' => id r' = id r ∧ consumed_at r' = None) rows).

(** [created_at DESC, id DESC] *)
Definition later (a b : row) : bool := (created_at b <? created_at a) || ((created_at a =? created_at b) && str_ltb (id b) (id a)).
Definition latest (deviceID : string) (rows : list row) : option row := head (sort_by later (filter (fun r => device_id r = deviceID) rows)).

(** Unconsumed, unexpired, with attempts left. *)
Definition live (now : time) (r : row) : bool :=
  bool_decide (consumed_at r = None) && (now <? expires_at r) && (attempts r <? max_attempts r).

Section Grants.
Context `{UUIDPackage}.
(** [uuid.NewRandomFromReader] on the bytes that are left. *)
Context (uuid_NewRandomFromReader : text → option string).

Definition CanonicalUUID (value : string) : bool := bool_decide (uuid_Parse value = Some value).

Definition valid_creator (s : string) : bool :=
  bool_decide (trim_space s = s) && negb (bool_decide (s = "")) && valid_utf8 s && (rune_count s <=? 200).

Definition ErasureGrantCreate_Validate (r : ErasureGrantCreate) : result error unit :=
  fail_if (negb (CanonicalUUID (Create_ID r)) || negb (CanonicalUUID (Create_DeviceID r)) || (Create_TTL r <=? 0) || (Create_MaxAttempts r <=? 0)
           || negb (valid_creator (Create_CreatedBy r))) (invalid "invalid_erasure_grant_create").

Definition ErasureGrantAuthorization_Validate (r : ErasureGrantAuthorization) : result error unit :=
  fail_if (negb (CanonicalUUID (Authorization_DeviceID r))) (invalid "invalid_erasure_grant_device").

(** ** The store *)
Definition ReplaceErasureGrant (now : time) (db : database) (request : ErasureGrantCreate) : result error (ErasureGrant * database) :=
  _ ← fail_if (is_Err (ErasureGrantCreate_Validate request)) ErrErasureGrantStoreUnavailable;
  match devices db !! Create_DeviceID request with
  | None | Some (Some _) => Err ErrErasureGrantDeviceUnavailable
  | Some None =>
    rows ← update (fun r => if bool_decide (device_id r = Create_DeviceID request) && live now r then with_consumed now r else r) (grants db);
    let expiresAt := time_add now (Create_TTL request) in
    let r := mkRow (Create_ID request) (Create_DeviceID request) (Create_TokenHash request) now (timestamptz expiresAt) None 0
               (Create_MaxAttempts request) (Create_CreatedBy request) in
    _ ← fail_if (negb (row_ok r && unique_in r rows)) ErrErasureGrantStoreUnavailable;
    Ok (mkErasureGrant (Create_ID request) (Create_DeviceID request) (Create_TokenHash request) now expiresAt
          (Create_MaxAttempts request) (Create_CreatedBy request),
        mkDatabase (devices db) (rows ++ [r]))
  end.

(** [consumeErasureGrantTx] in its transaction: a failed attempt is counted. *)
Definition consumeErasureGrantTx (now : time) (db : database) (request : ErasureGrantAuthorization) : result error unit * database :=
  match devices db !! Authorization_DeviceID request with
  | None => (Err ErrErasureGrantInvalid, db)
  | Some revokedAt =>
    match latest (Authorization_DeviceID request) (grants db) with
    | None => (Err ErrErasureGrantInvalid, db)
    | Some r =>
      let matches := bool_decide (token_hash r = Authorization_CandidateHash request) in
      let valid := Authorization_Canonical request && matches && bool_decide (consumed_at r = None) && bool_decide (revokedAt = None)
                   && time_before now (expires_at r) && (attempts r <? max_attempts r) in
      if valid then
        if negb (affected r (grants db) =? 1)%nat then (Err ErrErasureGrantStoreUnavailable, db)
        else match update (fun r' => if bool_decide (id r' = id r) && bool_decide (consumed_at r' = None) then with_consumed now r' else r') (grants db) with
        | Ok rows => (Ok tt, mkDatabase (devices db) rows)
        | Err e => (Err e, db)
        end
      else
        match update (fun r' => if bool_decide (id r' = id r) then with_attempts (Z.min (attempts r' + 1) (max_attempts r')) r' else r') (grants db) with
        | Ok rows => (Err ErrErasureGrantInvalid, mkDatabase (devices db) rows)
        | Err e => (Err e, db)
        end
    end
  end.

Definition ConsumeErasureGrant (now : time) (db : database) (request : ErasureGrantAuthorization) : result error unit * database :=
  if is_Err (ErasureGrantAuthorization_Validate request) then (Err ErrErasureGrantInvalid, db) else consumeErasureGrantTx now db request.

(** ** The service *)
Definition Issue (s : ErasureGrantService) (random : text) (now : time) (db : database) (deviceID createdBy : string)
    : result error IssuedErasureGrant * database :=
  if negb (CanonicalUUID deviceID) || negb (valid_creator createdBy) then (Err (invalid "invalid_erasure_grant_issue"), db)
  else if (length random <? erasureGrantBytes)%nat then (Err (ErrorOther "generate privacy erasure grant failed"), db)
  else
    let secret := take erasureGrantBytes random in
    match uuid_NewRandomFromReader (drop erasureGrantBytes random) with
    | None => (Err (ErrorOther "generate privacy erasure grant identity failed"), db)
    | Some id =>
      let hash := sha256_bytes secret in
      match ReplaceErasureGrant now db (mkErasureGrantCreate id deviceID hash (Service_ttl s) (Service_maxAttempts s) createdBy) with
      | Err e => (Err e, db)
      | Ok (grant, db) =>
        if negb (bool_decide (ErasureGrant_ID grant = id)) || negb (bool_decide (ErasureGrant_DeviceID grant = deviceID))
           || negb (bool_decide (ErasureGrant_TokenHash grant = hash)) || negb (time_after (ErasureGrant_ExpiresAt grant) (ErasureGrant_CreatedAt grant))
        then (Err ErrErasureGrantStoreUnavailable, db)
        else (Ok (mkIssuedErasureGrant (base64_EncodeToString secret) deviceID (ErasureGrant_ExpiresAt grant)), db)
      end
    end.

Definition Consume (now : time) (db : database) (deviceID token : string) : result error unit * database :=
  let authorization := NewErasureGrantAuthorization deviceID token in
  if is_Err (ErasureGrantAuthorization_Validate authorization) then (Err ErrErasureGrantInvalid, db)
  else ConsumeErasureGrant now db authorization.

(** ** Histories *)
Inductive step : Type :=
| IssueStep (s : ErasureGrantService) (random : text) (deviceID createdBy : string)
| ConsumeStep (deviceID token : string)
| RegisterDevice (deviceID : string)
| RevokeDevice (deviceID : string).

(** A step at a time, and whether its answer or the whole step is lost to a failure. *)
Inductive fault : Type := NoFault | RolledBack | AnswerLost.

(** [authorised] lists the grants whose consumption was reported, the latest first. *)
Record history := mkHistory { db : database; clock : time; authorised : list string }.

Definition set_revoked (deviceID : string) (revoked : option time) (db : database) : database :=
  mkDatabase (<[deviceID := revoked]> (devices db)) (grants db).

Definition take_step (e : step) (now : time) (f : fault) (h : history) : history :=
  match e with
  | IssueStep s random deviceID createdBy =>
    let '(_, db') := Issue s random now (db h) deviceID createdBy in
    mkHistory (match f with RolledBack => db h | _ => db' end) now (authorised h)
  | ConsumeStep deviceID token =>
    let '(answer, db') := Consume now (db h) deviceID token in
    let consumed := match answer, latest deviceID (grants (db h)) with Ok _, Some r => [id r] | _, _ => [] end in
    mkHistory (match f with RolledBack => db h | _ => db' end) now (match f with NoFault => consumed ++ authorised h | _ => authorised h end)
  | RegisterDevice deviceID =>
    mkHistory (match devices (db h) !! deviceID with None => set_revoked deviceID None (db h) | Some _ => db h end) now (authorised h)
  | RevokeDevice deviceID =>
    mkHistory (match devices (db h) !! deviceID with Some None => set_revoked deviceID (Some now) (db h) | _ => db h end) now (authorised h)
  end.

(** The clock of the database does not go back. *)
Inductive reachable_history : history → Prop :=
| history_begin : reachable_history (mkHistory (mkDatabase ∅ []) 0 [])
| history_go h e now f : reachable_history h → clock h <= now → reachable_history (take_step e now f h).
End Grants.

(** ** Properties *)

(** *** The latest grant of a device *)
Lemma later_true a b : later a b = true ↔ created_at b < created_at a ∨ (created_at a = created_at b ∧ str_ltb (id b) (id a) = true).
Proof. unfold later. by rewrite orb_true_iff, Z.ltb_lt, andb_true_iff, Z.eqb_eq. Qed.

Lemma later_false a b : later a b = false ↔ created_at a < created_at b ∨ (created_at a = created_at b ∧ str_ltb (id b) (id a) = false).
Proof.
  rewrite <- not_true_iff_false, later_true, <- not_true_iff_false. split; [|intros [?|[? ?]] [?|[? ?]]; [lia..|done]].
  intros Hnot. destruct (Z.lt_trichotomy (created_at a) (created_at b)) as [|[|]]; tauto.
Qed.

Lemma later_asym a b : later a b = true → later b a = false.
Proof. rewrite later_true, later_false. intros [H|[H1 H2]]; [left; lia|right]. split; [done|]. by apply str_ltb_asym. Qed.

Lemma later_le_trans a b c : le_by later a b → le_by later b c → le_by later a c.
Proof.
  unfold le_by. rewrite !later_false. intros [H1|[H1 H2]] [H3|[H3 H4]]; [left; lia..|right]. split; [lia|].
  by eapply str_ltb_le_trans.
Qed.

Lemma later_total a b : id a ≠ id b → later a b = false → later b a = true.
Proof.
  rewrite later_true, later_false. intros Hid [H1|[H1 H2]]; [left; lia|right]. split; [done|].
  destruct (str_ltb (id a) (id b)) eqn:Hlt; [done|]. destruct Hid. by apply str_ltb_antisym.
Qed.

Definition ids (rows : list row) : list string := id <$> rows.

Lemma same_row rows r1 r2 : NoDup (ids rows) → r1 ∈ rows → r2 ∈ rows → id r1 = id r2 → r1 = r2.
Proof.
  intros Hnd [n1 H1]%list_elem_of_lookup [n2 H2]%list_elem_of_lookup Hid. assert (n1 = n2) as ->; [|naive_solver].
  apply (NoDup_lookup (ids rows) n1 n2 (id r1)); [done|..]; unfold ids; rewrite list_lookup_fmap, ?H1, ?H2; cbn; congruence.
Qed.

Lemma latest_spec d rows r : NoDup (ids rows) →
  latest d rows = Some r ↔ r ∈ rows ∧ device_id r = d ∧ ∀ r', r' ∈ rows → device_id r' = d → r' = r ∨ later r r' = true.
Proof.
  intros Hnd. unfold latest. set (l := sort_by later (filter (fun r => device_id r = d) rows)).
  assert (∀ r', r' ∈ l ↔ r' ∈ rows ∧ device_id r' = d) as Hin.
  { intros r'. unfold l. rewrite elem_of_sort_by, list_elem_of_filter. tauto. }
  assert (StronglySorted (le_by later) l) as Hsorted by (apply sort_by_sorted; [apply later_le_trans|apply later_asym]).
  assert (∀ r0 l0, l = r0 :: l0 → ∀ r', r' ∈ rows → device_id r' = d → r' = r0 ∨ later r0 r' = true) as Hhead.
  { intros r0 l0 Hl r' Hr' Hd. assert (r' ∈ l) as Hl' by by apply Hin. assert (r0 ∈ l) as Hl0 by (rewrite Hl; set_solver).
    rewrite Hl in Hsorted, Hl'. apply StronglySorted_inv in Hsorted as [_ Hall]. rewrite Forall_forall in Hall.
    apply elem_of_cons in Hl' as [->|Hl']; [by left|]. apply Hin in Hl0 as [Hr0 _].
    destruct (decide (id r' = id r0)) as [Heq|Hne]; [left; by eapply same_row|right]. apply later_total; [done|]. by apply Hall. }
  split.
  - destruct l as [|r0 l0] eqn:Hl; [done|]. intros [= ->]. destruct (proj1 (Hin r)); [set_solver|].
    split_and!; [done|done|]. by eapply Hhead.
  - intros (Hr & Hd & Hmax). destruct l as [|r0 l0] eqn:Hl; [by destruct (not_elem_of_nil r); apply Hin|]. cbn. f_equal.
    destruct (proj1 (Hin r0)) as [Hr0 Hd0]; [set_solver|].
    destruct (Hhead r0 l0 eq_refl r Hr Hd) as [|H1]; [done|]. destruct (Hmax r0 Hr0 Hd0) as [|H2]; [done|].
    apply later_asym in H1. congruence.
Qed.

(** An update keeps who a row is. *)
Definition keeps (f : row → row) : Prop := ∀ r, id (f r) = id r ∧ device_id (f r) = device_id r ∧ created_at (f r) = created_at r.

Lemma ids_update f rows : keeps f → ids (f <$> rows) = ids rows.
Proof. intros Hf. unfold ids. rewrite <- list_fmap_compose. apply list_fmap_ext. intros i r _. apply (Hf r). Qed.

Lemma latest_update f d rows r : keeps f → NoDup (ids rows) → latest d rows = Some r → latest d (f <$> rows) = Some (f r).
Proof.
  intros Hf Hnd (Hr & Hd & Hmax)%latest_spec; [|done]. apply latest_spec; [by rewrite ids_update|].
  destruct (Hf r) as (F1 & F2 & F3). split_and!; [by apply list_elem_of_fmap_2|by rewrite F2|].
  intros r' (r0 & -> & Hr0)%list_elem_of_fmap Hd0. destruct (Hf r0) as (E1 & E2 & E3). rewrite E2 in Hd0.
  destruct (Hmax r0 Hr0 Hd0) as [->|Hlater]; [by left|right]. unfold later in *. by rewrite E1, E3, F1, F3.
Qed.

Lemma keeps_consumed (c : row → bool) now : keeps (fun r => if c r then with_consumed now r else r).
Proof. intros r. by destruct (c r). Qed.
Lemma keeps_attempts (c : row → bool) (n : row → Z) : keeps (fun r => if c r then with_attempts (n r) r else r).
Proof. intros r. by destruct (c r). Qed.

Lemma update_Ok f rows rows' : update f rows = Ok rows' ↔ rows' = f <$> rows ∧ Forall (fun r => row_ok (f r) = true) rows.
Proof.
  unfold update. cbv zeta. split.
  - intros (_ & Hok%fail_if_Ok & [= <-])%bind_Ok. split; [done|]. apply negb_false_iff in Hok. rewrite forallb_forall in Hok.
    apply Forall_forall. intros r Hr. apply Hok, list_elem_of_In. by apply list_elem_of_fmap_2.
  - intros [-> Hok]. assert (forallb row_ok (f <$> rows) = true) as ->; [|done]. apply forallb_forall.
    intros r (r0 & -> & Hr0)%list_elem_of_In%list_elem_of_fmap. rewrite Forall_forall in Hok. by apply Hok.
Qed.

(** *** What a step does to the table *)
Section Facts.
Context `{UUIDPackage}.

(** Rows are consumed and counted, never revived. *)
Definition ages (now : time) (f : row → row) : Prop :=
  keeps f ∧ ∀ r, (live now (f r) = true → live now r = true) ∧ (consumed_at r ≠ None → consumed_at (f r) ≠ None).

Lemma ages_id now : ages now (fun r => r).
Proof. by repeat split. Qed.

Lemma live_true now r : live now r = true ↔ consumed_at r = None ∧ now < expires_at r ∧ attempts r < max_attempts r.
Proof. unfold live. rewrite !andb_true_iff, bool_decide_eq_true, !Z.ltb_lt. tauto. Qed.

Lemma ages_consumed (c : row → bool) now : (∀ r, c r = true → consumed_at r = None) → ages now (fun r => if c r then with_consumed now r else r).
Proof.
  intros Hc. split; [apply keeps_consumed|]. intros r. destruct (c r) eqn:Hr; [|done]. rewrite !live_true. cbn. split; [by intros [? _]|].
  by rewrite (Hc r Hr).
Qed.

Lemma ages_attempts (c : row → bool) now :
  ages now (fun r => if c r then with_attempts (Z.min (attempts r + 1) (max_attempts r)) r else r).
Proof.
  split; [apply (keeps_attempts c (fun r => Z.min (attempts r + 1) (max_attempts r)))|]. intros r. destruct (c r); [|done]. rewrite !live_true. cbn. split; [|done].
  intros (? & ? & ?). split_and!; [done|done|lia].
Qed.

(** What the check of a token found. *)
Record grant_found (now : time) (db : database) (d token : string) (r : row) : Prop := {
  found_latest : latest d (grants db) = Some r;
  found_device : devices db !! d = Some None;
  found_live : live now r = true;
  found_secret : ∃ secret, base64_DecodeString token = Some secret ∧ base64_EncodeToString secret = token
                   ∧ length secret = erasureGrantBytes ∧ token_hash r = sha256_bytes secret;
}.

Definition consume_row (now : time) (r r' : row) : row :=
  if bool_decide (id r' = id r) && bool_decide (consumed_at r' = None) then with_consumed now r' else r'.

Lemma candidate_canonical token hash : erasureGrantCandidate token = (hash, true) ↔
  ∃ secret, base64_DecodeString token = Some secret ∧ base64_EncodeToString secret = token ∧ length secret = erasureGrantBytes ∧ hash = sha256_bytes secret.
Proof.
  unfold erasureGrantCandidate. cbv zeta. destruct (base64_DecodeString token) as [secret|]; [|split; [done|naive_solver]].
  destruct ((length secret =? erasureGrantBytes)%nat && bool_decide (base64_EncodeToString secret = token)) eqn:Hc.
  - apply andb_true_iff in Hc as [Hlen%Nat.eqb_eq Henc%bool_decide_eq_true]. split; [intros [= <-]; eauto 10|].
    by intros (secret' & [= <-] & _ & _ & ->).
  - split; [done|]. intros (secret' & [= <-] & Henc & Hlen & ->). by rewrite Hlen, Nat.eqb_refl, bool_decide_true in Hc.
Qed.

Lemma Consume_Ok now db d token db' : Consume now db d token = (Ok tt, db') →
  ∃ r, grant_found now db d token r ∧ db' = mkDatabase (devices db) (consume_row now r <$> grants db)
    ∧ Forall (fun r => row_ok r = true) (grants db').
Proof.
  unfold Consume, ConsumeErasureGrant, NewErasureGrantAuthorization. destruct (erasureGrantCandidate token) as [hash canonical] eqn:Hcand.
  cbv zeta. destruct (is_Err _); [done|]. unfold consumeErasureGrantTx. cbn [Authorization_DeviceID Authorization_Canonical Authorization_CandidateHash].
  destruct (devices db !! d) as [revoked|] eqn:Hd; [|done]. destruct (latest d (grants db)) as [r|] eqn:Hr; [|done]. cbv zeta.
  destruct (canonical && _ && _ && _ && _ && _) eqn:Hvalid.
  2: { destruct (update _ _); by intros [=]. }
  rewrite !andb_true_iff, !bool_decide_eq_true in Hvalid. destruct Hvalid as [[[[[-> Hhash] Hcons] ->] Hexp] Hatt].
  destruct (negb (affected _ _ =? 1)%nat); [done|].
  fold (consume_row now r). destruct (update (consume_row now r) (grants db)) as [rows|] eqn:Hup; intros [= <-]. exists r.
  apply update_Ok in Hup as [-> Hok]. split_and!; [|done|by apply Forall_fmap]. split; [done|done| |].
  - apply live_true. apply Z.ltb_lt in Hexp, Hatt. done.
  - apply candidate_canonical in Hcand as (secret & ? & ? & ? & ->). eauto 10.
Qed.

(** A token that is refused is counted against the latest grant, or nothing changes. *)
Lemma Consume_refused now db d token e db' : Consume now db d token = (Err e, db') →
  db' = db ∨ ∃ r, latest d (grants db) = Some r ∧ e = ErrErasureGrantInvalid ∧
    db' = mkDatabase (devices db) ((fun r' => if bool_decide (id r' = id r) then with_attempts (Z.min (attempts r' + 1) (max_attempts r')) r' else r') <$> grants db)
    ∧ Forall (fun r => row_ok r = true) (grants db').
Proof.
  unfold Consume, ConsumeErasureGrant, NewErasureGrantAuthorization. destruct (erasureGrantCandidate token) as [hash canonical].
  cbv zeta. destruct (is_Err _); [intros [= <- <-]; by left|]. unfold consumeErasureGrantTx. cbn [Authorization_DeviceID Authorization_Canonical Authorization_CandidateHash].
  destruct (devices db !! d) as [revoked|]; [|intros [= <- <-]; by left]. destruct (latest d (grants db)) as [r|] eqn:Hr; [|intros [= <- <-]; by left]. cbv zeta.
  destruct (canonical && _ && _ && _ && _ && _).
  - destruct (negb (affected _ _ =? 1)%nat); [|destruct (update _ _)]; intros [= <- <-]; by left.
  - destruct (update _ _) as [rows|] eqn:Hup; intros [= <- <-]; [right|by left]. exists r. apply update_Ok in Hup as [-> Hok].
    split_and!; [done..|]. by apply Forall_fmap.
Qed.

(** *** Tokens *)
(** A token is accepted only for a device that is not revoked, when it encodes the
    secret whose hash the latest grant of the device keeps, before the grant expires,
    within its attempts and once: the grant is consumed. *)
Theorem accepted_token_has_grant now db d token db' :
  Consume now db d token = (Ok tt, db') →
  ∃ r, grant_found now db d token r ∧ (NoDup (ids (grants db)) → latest d (grants db') = Some (with_consumed now r)).
Proof.
  intros (r & Hfound & -> & _)%Consume_Ok. exists r. split; [done|]. intros Hnd. cbn [grants].
  rewrite (latest_update (consume_row now r) d (grants db) r); [|apply keeps_consumed|done|apply Hfound].
  f_equal. pose proof (found_live _ _ _ _ _ Hfound) as Hl. apply live_true in Hl as (Hc & _). unfold consume_row. by rewrite !bool_decide_true.
Qed.

Lemma row_ok_consumed now r : row_ok r = true → created_at r <= now → now <= expires_at r → row_ok (with_consumed now r) = true.
Proof.
  unfold row_ok. rewrite !andb_true_iff. cbn. intros [Hrest _] Hc1 Hc2. split; [exact Hrest|]. rewrite !andb_true_iff, !Z.leb_le. done.
Qed.

Lemma affected_one rows r : NoDup (ids rows) → r ∈ rows → consumed_at r = None → affected r rows = 1%nat.
Proof.
  intros Hnd (before & after & ->)%list_elem_of_split Hc. unfold affected, ids in *. rewrite fmap_app, fmap_cons in Hnd.
  apply NoDup_app in Hnd as (_ & Hbefore & [Hafter _]%NoDup_cons).
  assert (∀ others, (∀ r', r' ∈ others → id r' ≠ id r) → filter (fun r' => id r' = id r ∧ consumed_at r' = None) others = []) as Hnone.
  { intros others Hothers. destruct (filter _ others) as [|r' l] eqn:Hf; [done|]. assert (r' ∈ r' :: l) as Hin by (by apply elem_of_cons; left). rewrite <- Hf in Hin. apply list_elem_of_filter in Hin as [[Hid _] Hr']. by destruct (Hothers r' Hr'). }
  rewrite filter_app, filter_cons_True by done. rewrite (Hnone before), (Hnone after); [done|..].
  - intros r' Hr' Hid. apply Hafter. rewrite <- Hid. by apply list_elem_of_fmap_2.
  - intros r' Hr' Hid. apply (Hbefore (id r)); [rewrite <- Hid; by apply list_elem_of_fmap_2|by apply elem_of_cons; left].
Qed.

Lemma Consume_found now db d token r :
  CanonicalUUID d = true → Forall (fun r => row_ok r = true) (grants db) → NoDup (ids (grants db)) → created_at r <= now →
  grant_found now db d token r → Consume now db d token = (Ok tt, mkDatabase (devices db) (consume_row now r <$> grants db)).
Proof.
  intros Hd Hrows Hnd Hcreated [Hlatest Hdev Hlive (secret & Hdec & Henc & Hlen & Hhash)].
  assert (erasureGrantCandidate token = (token_hash r, true)) as Hcand by (apply candidate_canonical; exists secret; done).
  unfold Consume, NewErasureGrantAuthorization. rewrite Hcand. cbv zeta. unfold ConsumeErasureGrant, ErasureGrantAuthorization_Validate.
  cbn [Authorization_DeviceID]. rewrite Hd. cbn [negb fail_if is_Err].
  unfold consumeErasureGrantTx. cbn [Authorization_DeviceID Authorization_Canonical Authorization_CandidateHash]. rewrite Hdev, Hlatest. cbv zeta.
  apply live_true in Hlive as (Hc & Hexp & Hatt). rewrite !bool_decide_true by done. unfold time_before.
  rewrite (proj2 (Z.ltb_lt _ _) Hexp), (proj2 (Z.ltb_lt _ _) Hatt). cbn [andb]. fold (consume_row now r).
  apply latest_spec in Hlatest as (Hr & _ & _); [|done]. rewrite affected_one by done. cbn [Nat.eqb negb].
  rewrite (proj2 (update_Ok (consume_row now r) (grants db) (consume_row now r <$> grants db))); [done|]. split; [done|]. rewrite Forall_forall in Hrows |- *.
  intros r' Hr'. unfold consume_row. destruct (bool_decide (id r' = id r)) eqn:Hid; [|by apply Hrows]. apply bool_decide_eq_true in Hid.
  rewrite (same_row (grants db) r' r Hnd Hr' Hr Hid). rewrite bool_decide_true by done. cbn [andb]. apply row_ok_consumed; [by apply Hrows|done|lia].
Qed.

Definition count_row (r r' : row) : row :=
  if bool_decide (id r' = id r) then with_attempts (Z.min (attempts r' + 1) (max_attempts r')) r' else r'.

Record table_ok (db : database) : Prop := {
  table_ids : NoDup (ids (grants db));
  table_rows : Forall (fun r => row_ok r = true) (grants db);
}.

Lemma row_ok_counted r : row_ok r = true → row_ok (with_attempts (Z.min (attempts r + 1) (max_attempts r)) r) = true.
Proof. unfold row_ok. rewrite !andb_true_iff. cbn. rewrite !Z.leb_le, !Z.ltb_lt. intros ([[[[[[? ?] ?] ?] ?] ?] ?] & ?). split_and!; try done; lia. Qed.

(** A token refused as invalid is counted. *)
Lemma Consume_counts now db d token r db' :
  table_ok db → CanonicalUUID d = true → is_Some (devices db !! d) → latest d (grants db) = Some r →
  Consume now db d token = (Err ErrErasureGrantInvalid, db') → db' = mkDatabase (devices db) (count_row r <$> grants db).
Proof.
  intros [Hnd Hrows] Hd [revoked Hdev] Hlatest. unfold Consume, NewErasureGrantAuthorization. destruct (erasureGrantCandidate token) as [hash canonical].
  cbv zeta. unfold ConsumeErasureGrant, ErasureGrantAuthorization_Validate. cbn [Authorization_DeviceID]. rewrite Hd. cbn [negb fail_if is_Err].
  unfold consumeErasureGrantTx. cbn [Authorization_DeviceID Authorization_Canonical Authorization_CandidateHash]. rewrite Hdev, Hlatest. cbv zeta.
  destruct (canonical && _ && _ && _ && _ && _).
  - destruct (negb (affected _ _ =? 1)%nat); [by intros [=]|]. unfold update. cbv zeta. destruct (forallb _ _); by intros [=].
  - fold (count_row r). rewrite (proj2 (update_Ok (count_row r) (grants db) (count_row r <$> grants db))); [by intros [= <-]|]. split; [done|].
    eapply Forall_impl; [exact Hrows|]. cbv beta. intros r' Hr'. unfold count_row. destruct (bool_decide _); [by apply row_ok_counted|done].
Qed.

Lemma ages_count now r : ages now (count_row r).
Proof. apply (ages_attempts (fun r' => bool_decide (id r' = id r))). Qed.

(** [n] tokens were tried for the device, and refused as invalid. *)
Inductive refused (d : string) : database → nat → database → Prop :=
| refused_none db : refused d db 0 db
| refused_one now token db db1 n db2 :
    Consume now db d token = (Err ErrErasureGrantInvalid, db1) → refused d db1 n db2 → refused d db (S n) db2.

(** Guessing is bounded: when the attempts of a grant are used up by tokens that
    were refused, no token is accepted for the device. *)
Theorem guesses_are_bounded db d r n db' :
  table_ok db → CanonicalUUID d = true → is_Some (devices db !! d) → latest d (grants db) = Some r →
  refused d db n db' → max_attempts r - attempts r <= Z.of_nat n →
  ∀ now token, (Consume now db' d token).1 ≠ Ok tt.
Proof.
  intros Htable Hd Hdev Hlatest Hrefused. revert r Htable Hdev Hlatest. induction Hrefused as [db|now token db db1 n db2 Hc _ IH]; intros r [Hnd Hrows] Hdev Hlatest Hn.
  - intros now token Hok. destruct (Consume now db d token) as [answer db'] eqn:Hc. cbn in Hok. subst answer.
    apply Consume_Ok in Hc as (r' & [Hlatest' _ Hlive _] & _). rewrite Hlatest in Hlatest'. injection Hlatest' as <-. apply live_true in Hlive as (_ & _ & ?). lia.
  - rewrite (Consume_counts now db d token r db1) in IH by done.
    pose proof (proj1 (latest_spec d (grants db) r Hnd) Hlatest) as (Hr & _ & _). rewrite Forall_forall in Hrows.
    apply (IH (count_row r r)); cbn [grants devices]; [split; cbn [grants]| |apply latest_update; [apply (ages_count 0)|done|done]|].
    + rewrite ids_update; [done|apply (ages_count 0)].
    + apply Forall_fmap, Forall_forall. intros r' Hr'. unfold compose, count_row. destruct (bool_decide _); [apply row_ok_counted|]; by apply Hrows.
    + done.
    + pose proof (Hrows r Hr) as Hrow. unfold count_row. rewrite bool_decide_true by done. cbn. rewrite Nat2Z.inj_succ in Hn. lia.
Qed.
End Facts.

Section Histories.
Context `{UUIDPackage} (uuid_NewRandomFromReader : text → option string).

Definition revoke_row (d : string) (now : time) (r : row) : row :=
  if bool_decide (device_id r = d) && live now r then with_consumed now r else r.

(** An issued token is recorded as a new row, and the device's other grants are over. *)
Lemma Issue_table s random now db d by_ answer db' : Issue uuid_NewRandomFromReader s random now db d by_ = (answer, db') →
  (db' = db ∧ is_Err answer = true)
  ∨ ∃ r, db' = mkDatabase (devices db) ((revoke_row d now <$> grants db) ++ [r])
      ∧ device_id r = d ∧ created_at r = now ∧ expires_at r = timestamptz (time_add now (Service_ttl s))
      ∧ consumed_at r = None ∧ attempts r = 0 ∧ token_hash r = sha256_bytes (take erasureGrantBytes random)
      ∧ (erasureGrantBytes <= length random)%nat ∧ devices db !! d = Some None ∧ CanonicalUUID d = true
      ∧ id r ∉ ids (grants db) ∧ Forall (fun r => row_ok r = true) (grants db')
      ∧ ∀ issued, answer = Ok issued → Issued_Token issued = base64_EncodeToString (take erasureGrantBytes random).
Proof.
  unfold Issue. destruct (negb (CanonicalUUID d) || _) eqn:Hargs; [intros [= <- <-]; by left|].
  apply orb_false_iff in Hargs as [Hd%negb_false_iff _]. destruct (Nat.ltb_spec (length random) erasureGrantBytes) as [|Hlen]; [intros [= <- <-]; by left|].
  cbv zeta. destruct (uuid_NewRandomFromReader _) as [i|]; [|intros [= <- <-]; by left].
  unfold ReplaceErasureGrant. destruct (fail_if _ _) as [[]|]; [|intros [= <- <-]; by left]. cbn [Create_DeviceID Create_ID Create_TokenHash Create_TTL Create_MaxAttempts Create_CreatedBy].
  rewrite bind_eq_Ok. destruct (devices db !! d) as [[revoked|]|] eqn:Hdev; [intros [= <- <-]; by left| |intros [= <- <-]; by left].
  fold (revoke_row d now). destruct (update (revoke_row d now) (grants db)) as [rows|] eqn:Hup; [|intros [= <- <-]; by left].
  rewrite bind_eq_Ok. cbv zeta. apply update_Ok in Hup as [-> Hok].
  set (r := mkRow i d _ now _ None 0 _ by_). destruct (row_ok r && unique_in r (revoke_row d now <$> grants db)) eqn:Hnew; cbn [negb fail_if]; [|intros [= <- <-]; by left].
  rewrite bind_eq_Ok. apply andb_true_iff in Hnew as [Hrow Huniq]. intros Heq. right. exists r.
  assert (db' = mkDatabase (devices db) ((revoke_row d now <$> grants db) ++ [r])) as ->.
  { destruct (_ || _ || _ || _); by injection Heq as _ <-. }
  split_and!; try done.
  - rewrite <- (ids_update (revoke_row d now)) by (apply (keeps_consumed (fun r => bool_decide (device_id r = d) && live now r))).
    unfold unique_in in Huniq. rewrite forallb_forall in Huniq. intros (r' & Hid & Hr'%list_elem_of_In)%list_elem_of_fmap. specialize (Huniq r' Hr').
    apply andb_true_iff in Huniq as [Hne%negb_true_iff%bool_decide_eq_false _]. by destruct Hne.
  - cbn [grants]. apply Forall_app. split; [by apply Forall_fmap|]. by constructor.
  - intros issued Hans. rewrite Hans in Heq. destruct (_ || _ || _ || _); by simplify_eq.
Qed.

(** *** Histories *)
Record history_ok (h : history) : Prop := {
  ok_ids : NoDup (ids (grants (db h)));
  ok_rows : Forall (fun r => row_ok r = true) (grants (db h));
  ok_created : Forall (fun r => created_at r <= clock h) (grants (db h));
  ok_live r1 r2 : r1 ∈ grants (db h) → r2 ∈ grants (db h) → device_id r1 = device_id r2 → live (clock h) r1 = true → live (clock h) r2 = true → r1 = r2;
  ok_distinct : NoDup (authorised h);
  ok_authorised i : i ∈ authorised h → ∃ r, r ∈ grants (db h) ∧ id r = i ∧ consumed_at r ≠ None;
}.

Lemma live_earlier now now' r : now <= now' → live now' r = true → live now r = true.
Proof. rewrite !live_true. intros Hle (? & ? & ?). split_and!; [done|lia|done]. Qed.

(** A step that only ages rows, and reports grants that are consumed. *)
Lemma history_ages h now f devs auth :
  history_ok h → clock h <= now → ages now f → Forall (fun r => row_ok r = true) (f <$> grants (db h)) →
  NoDup auth → (∀ i, i ∈ auth → i ∈ authorised h ∨ ∃ r, r ∈ grants (db h) ∧ id r = i ∧ consumed_at (f r) ≠ None) →
  history_ok (mkHistory (mkDatabase devs (f <$> grants (db h))) now auth).
Proof.
  intros [H1 H2 H3 H4 H5 H6] Hle [Hkeeps Hf] Hok Hnd Hauth. split; cbn.
  - by rewrite ids_update.
  - done.
  - apply Forall_fmap. eapply Forall_impl; [exact H3|]. cbn. intros r Hr. destruct (Hkeeps r) as (_ & _ & ->). lia.
  - intros r1' r2' (r1 & -> & Hr1)%list_elem_of_fmap (r2 & -> & Hr2)%list_elem_of_fmap Hd Hl1 Hl2.
    destruct (Hkeeps r1) as (_ & E1 & _), (Hkeeps r2) as (_ & E2 & _). rewrite E1, E2 in Hd. f_equal.
    apply H4; [done..| |]; (eapply live_earlier; [exact Hle|]); by apply Hf.
  - done.
  - intros i Hi. destruct (Hauth i Hi) as [Hold|(r & Hr & Hid & Hc)].
    + destruct (H6 i Hold) as (r & Hr & Hid & Hc). exists (f r). split_and!; [by apply list_elem_of_fmap_2|by rewrite (proj1 (Hkeeps r))|by apply Hf].
    + exists (f r). split_and!; [by apply list_elem_of_fmap_2|by rewrite (proj1 (Hkeeps r))|done].
Qed.

Lemma history_same h now devs :
  history_ok h → clock h <= now → history_ok (mkHistory (mkDatabase devs (grants (db h))) now (authorised h)).
Proof.
  intros Hh Hle. rewrite <- (list_fmap_id (grants (db h))). apply (history_ages h now (fun r => r)); [done|done|apply ages_id| |apply Hh|by left].
  rewrite list_fmap_id. apply Hh.
Qed.

Lemma history_db h now db' :
  history_ok h → clock h <= now → db' = db h → history_ok (mkHistory db' now (authorised h)).
Proof. intros Hh Hle ->. pose proof (history_same h now (devices (db h)) Hh Hle) as Hok. by destruct (db h). Qed.

Lemma revoke_row_dead d now r : device_id r = d → live now (revoke_row d now r) = false.
Proof.
  intros Hd. unfold revoke_row. rewrite bool_decide_true by done. cbn [andb]. destruct (live now r) eqn:Hl; [|done].
  apply not_true_iff_false. rewrite live_true. by intros [? _].
Qed.

Lemma ages_revoke d now : ages now (revoke_row d now).
Proof.
  apply (ages_consumed (fun r => bool_decide (device_id r = d) && live now r)). intros r [_ Hl]%andb_true_iff. by apply live_true in Hl as [? _].
Qed.

Lemma history_issue h s random now d by_ answer db' :
  history_ok h → clock h <= now → Issue uuid_NewRandomFromReader s random now (db h) d by_ = (answer, db') →
  history_ok (mkHistory db' now (authorised h)).
Proof.
  intros Hh Hle Hissue. destruct (Issue_table _ _ _ _ _ _ _ _ Hissue) as [[Hsame _]|(r & -> & Hd & Hcreated & _ & Hcons & _ & _ & _ & _ & _ & Hfresh & Hrows & _)].
  { by apply history_db. }
  cbn [grants] in Hrows. apply Forall_app in Hrows as [Hrows Hrow].
  pose proof (history_ages h now (revoke_row d now) (devices (db h)) (authorised h) Hh Hle (ages_revoke d now) Hrows (ok_distinct h Hh) ltac:(by left)) as [H1 H2 H3 H4 H5 H6].
  cbn [db grants clock authorised] in *. split; cbn [db grants clock authorised].
  - unfold ids. rewrite fmap_app. apply NoDup_app. split_and!; [done| |apply NoDup_singleton].
    change (id <$> (revoke_row d now <$> grants (db h))) with (ids (revoke_row d now <$> grants (db h))).
    rewrite ids_update by apply ages_revoke. intros i Hi ->%list_elem_of_singleton. done.
  - apply Forall_app. by split.
  - apply Forall_app. split; [done|]. constructor; [lia|constructor].
  - assert (∀ r', r' ∈ revoke_row d now <$> grants (db h) → device_id r' = d → live now r' = true → False) as Hdead.
    { intros r' (r0 & -> & _)%list_elem_of_fmap Hd' Hl. destruct (ages_revoke d now) as [Hkeeps _]. destruct (Hkeeps r0) as (_ & E & _).
      rewrite E in Hd'. by rewrite revoke_row_dead in Hl. }
    intros r1 r2 [Hr1|Hr1%list_elem_of_singleton]%elem_of_app [Hr2|Hr2%list_elem_of_singleton]%elem_of_app Hdd Hl1 Hl2; subst; [by apply H4| | |done].
    + by destruct (Hdead r1).
    + by destruct (Hdead r2).
  - done.
  - intros i Hi. destruct (H6 i Hi) as (r' & Hr' & ?). exists r'. split; [|done]. apply elem_of_app. by left.
Qed.

Lemma history_consume h now d token f :
  history_ok h → clock h <= now → history_ok (take_step uuid_NewRandomFromReader (ConsumeStep d token) now f h).
Proof.
  intros Hh Hle. cbn [take_step]. destruct (Consume now (db h) d token) as [[[]|e] db'] eqn:Hc.
  - apply Consume_Ok in Hc as (r & [Hlatest Hdev Hlive _] & -> & Hrows). rewrite Hlatest.
    pose proof (proj1 (latest_spec d (grants (db h)) r (ok_ids h Hh)) Hlatest) as (Hr & Hd & _).
    assert (ages now (consume_row now r)) as Hages by (apply ages_consumed; by intros r' [_ ?%bool_decide_eq_true]%andb_true_iff).
    cbn [grants] in Hrows. apply live_true in Hlive as (Hcons & _ & _).
    destruct f; cbn [app].
    + apply history_ages; try done.
      * constructor; [|apply Hh]. intros Hin. destruct (ok_authorised h Hh (id r) Hin) as (r' & Hr' & Hid & Hne).
        by rewrite (same_row (grants (db h)) r' r (ok_ids h Hh) Hr' Hr Hid) in Hne.
      * intros i [->|Hi]%elem_of_cons; [right|by left]. exists r. split_and!; [done|done|]. unfold consume_row.
        by rewrite !bool_decide_true by done.
    + by apply history_db.
    + apply history_ages; try done; [apply Hh|by left].
  - assert (match f with NoFault => [] ++ authorised h | _ => authorised h end = authorised h) as -> by by destruct f.
    destruct (Consume_refused _ _ _ _ _ _ Hc) as [->|(r & _ & _ & -> & Hrows)].
    { destruct f; by apply history_db. }
    destruct f; [|by apply history_db|];
      (apply history_ages; [done|done|apply (ages_attempts (fun r' => bool_decide (id r' = id r)))|done|apply Hh|by left]).
Qed.

Lemma reachable_history_ok h : reachable_history uuid_NewRandomFromReader h → history_ok h.
Proof.
  induction 1 as [|h e now f _ IH Hle]; [|].
  { split; cbn; [apply NoDup_nil_2|done|done|by intros ? ? ?%not_elem_of_nil|apply NoDup_nil_2|by intros ? ?%not_elem_of_nil]. }
  destruct e as [s random d by_|d token|d|d]; [|by apply history_consume| |]; cbn [take_step].
  - destruct (Issue _ _ _ _ _ _ _) as [answer db'] eqn:Hissue. destruct f; [by eapply history_issue|by apply history_db|by eapply history_issue].
  - destruct (devices (db h) !! d); [by apply history_db|by apply history_same].
  - destruct (devices (db h) !! d) as [[?|]|]; [by apply history_db|by apply history_same|by apply history_db].
Qed.

(** *** Theorems *)
(** C7. A grant authorises at most one erasure, in any history of calls, failures and
    revocations; and a device has at most one grant that can still be used. *)
Theorem grants_authorise_once h :
  reachable_history uuid_NewRandomFromReader h →
  NoDup (authorised h)
  ∧ (∀ i, i ∈ authorised h → ∃ r, r ∈ grants (db h) ∧ id r = i ∧ consumed_at r ≠ None)
  ∧ ∀ r1 r2, r1 ∈ grants (db h) → r2 ∈ grants (db h) → device_id r1 = device_id r2 →
      live (clock h) r1 = true → live (clock h) r2 = true → r1 = r2.
Proof. intros [_ _ _ H4 H5 H6]%reachable_history_ok. done. Qed.

(** A token that was issued is accepted until it expires, and then no token is. *)
Theorem issued_token_is_accepted h s random now d by_ issued db' now' :
  reachable_history uuid_NewRandomFromReader h → clock h < now → Forall byte_ok random →
  Issue uuid_NewRandomFromReader s random now (db h) d by_ = (Ok issued, db') →
  now <= now' < timestamptz (time_add now (Service_ttl s)) →
  ∃ db'', Consume now' db' d (Issued_Token issued) = (Ok tt, db'')
    ∧ ∀ now'' token, (Consume now'' db'' d token).1 ≠ Ok tt.
Proof.
  intros Hh%reachable_history_ok Hnow Hbytes Hissue [Hle Hexp].
  pose proof (history_issue h s random now d by_ _ _ Hh ltac:(lia) Hissue) as Hh'.
  destruct (Issue_table _ _ _ _ _ _ _ _ Hissue) as [[_ ?]|(r & -> & Hd & Hcreated & Hexpires & Hcons & Hatt & Hhash & Hlen & Hdev & Hcanon & _ & Hrows & Htoken)]; [done|].
  specialize (Htoken issued eq_refl). set (rows := (revoke_row d now <$> grants (db h)) ++ [r]) in *.
  pose proof (ok_ids _ Hh') as Hnd. cbn [db grants] in Hnd.
  assert (r ∈ rows) as Hr by (apply elem_of_app; right; by apply list_elem_of_singleton).
  assert (latest d rows = Some r) as Hlatest.
  { apply latest_spec; [done|]. split_and!; [done|done|]. intros r' [(r0 & -> & Hr0)%list_elem_of_fmap|Hr'%list_elem_of_singleton]%elem_of_app Hd'; [right|by left].
    apply later_true. left. pose proof (ok_created h Hh) as Hall. rewrite Forall_forall in Hall. specialize (Hall r0 Hr0). destruct (ages_revoke d now) as [Hkeeps _].
    destruct (Hkeeps r0) as (_ & _ & ->). lia. }
  assert (row_ok r = true) as Hrow by (cbn in Hrows; rewrite Forall_forall in Hrows; by apply Hrows).
  assert (0 < max_attempts r) as Hmax.
  { unfold row_ok in Hrow. rewrite !andb_true_iff in Hrow. destruct Hrow as [[[[[_ Hm] _] _] _] _]. by apply Z.ltb_lt in Hm. }
  assert (grant_found now' (mkDatabase (devices (db h)) rows) d (Issued_Token issued) r) as Hfound.
  { split; [done|done|apply live_true; split_and!; [done|lia|lia]|].
    assert (Forall byte_ok (take erasureGrantBytes random)) as Hok by by apply Forall_take.
    exists (take erasureGrantBytes random). rewrite Htoken. split_and!; [|done| |done].
    - unfold base64_DecodeString, base64_EncodeToString. rewrite bytes_of_string by by apply ascii_bytes_ok, base64_ascii. by apply base64_roundtrip.
    - rewrite length_take. lia. }
  eexists. split; [apply (Consume_found now' _ d _ r); [done|done|done|lia|done]|].
  intros now'' token Hagain. destruct (Consume now'' _ d token) as [answer db3] eqn:Hc. cbn in Hagain. subst answer.
  apply Consume_Ok in Hc as (r' & [Hlatest' _ Hlive' _] & _). cbn [grants] in Hlatest'.
  rewrite (latest_update _ d rows r) in Hlatest'; [|apply keeps_consumed|done|done]. injection Hlatest' as <-.
  apply live_true in Hlive' as [Hnone _]. unfold consume_row in Hnone. by rewrite !bool_decide_true in Hnone.
Qed.

End Histories.

(** ** Witnesses *)
Module Samples.
#[export] Instance sample_uuid : UUIDPackage := fun s => if str_len s =? 36 then Some s else None.

Definition device : string := "00000000-0000-4000-8000-0000000000aa".
(** An identifier that depends on the first random byte. *)
Definition new_uuid (l : text) : option string :=
  match l with b :: _ => Some ("00000000-0000-4000-8000-00000000000" +:+ String (hex_digit (b mod 16)) "") | [] => None end.

Definition random (b : Z) : text := replicate 32 b ++ [b].
Definition token (b : Z) : string := base64_EncodeToString (replicate 32 b).
Definition service : ErasureGrantService := mkErasureGrantService DefaultErasureGrantTTL DefaultErasureGrantMaxAttempts.
Definition minutes (n : Z) : time := n * minute.

Definition run (steps : list (step * time * fault)) : history :=
  foldl (fun h e => take_step new_uuid e.1.1 e.1.2 e.2 h) (mkHistory (mkDatabase ∅ []) 0 []) steps.

Definition issued_twice : list (step * time * fault) := [
  (RegisterDevice device, minutes 1, NoFault);
  (IssueStep service (random 7) device "operator", minutes 2, NoFault);
  (IssueStep service (random 9) device "operator", minutes 3, NoFault)].

Lemma grant_run_reachable steps : StronglySorted Z.le (0 :: ((fun e : step * time * fault => e.1.2) <$> steps)) → reachable_history new_uuid (run steps).
Proof.
  unfold run. intros Hsorted. assert (∀ steps h, reachable_history new_uuid h → StronglySorted Z.le (clock h :: ((fun e : step * time * fault => e.1.2) <$> steps)) →
    reachable_history new_uuid (foldl (fun h e => take_step new_uuid e.1.1 e.1.2 e.2 h) h steps)) as Hrun; [|by apply Hrun; [constructor|]].
  clear. intros steps. induction steps as [|[[e now] f] steps IH]; intros h Hh Hs; [done|]. cbn in *.
  apply StronglySorted_inv in Hs as [Hs Hall]. apply Forall_cons in Hall as [Hle _]. apply IH; [by constructor|].
  assert (clock (take_step new_uuid e now f h) = now) as ->; [|done].
  unfold take_step. repeat case_match; done.
Qed.

Example old_token_refused : (Consume (minutes 4) (db (run issued_twice)) device (token 7)).1 = Err ErrErasureGrantInvalid.
Proof. vm_compute. reflexivity. Qed.
Example new_token_accepted : authorised (run (issued_twice ++ [(ConsumeStep device (token 9), minutes 4, NoFault); (ConsumeStep device (token 9), minutes 4, NoFault)]))
  = ["00000000-0000-4000-8000-000000000009"].
Proof. vm_compute. reflexivity. Qed.
Example expired_token : (Consume (minutes 14) (db (run issued_twice)) device (token 9)).1 = Err ErrErasureGrantInvalid.
Proof. vm_compute. reflexivity. Qed.

Fixpoint ascending (prev : Z) (l : list Z) : bool := match l with [] => true | z :: l => (prev <=? z) && ascending z l end.

Lemma ascending_sorted prev l : ascending prev l = true → StronglySorted Z.le (prev :: l).
Proof.
  revert prev. induction l as [|z l IH]; intros prev; [repeat constructor|]. intros [Hle%Z.leb_le Hl]%andb_true_iff.
  specialize (IH z Hl). constructor; [done|]. constructor; [done|]. apply StronglySorted_inv in IH as [_ Hall].
  eapply Forall_impl; [exact Hall|]. cbn. lia.
Qed.
End Samples.
#[local] Existing Instance Samples.sample_uuid.

Lemma grants_authorise_once_witness : NoDup (authorised (Samples.run (Samples.issued_twice ++ [(ConsumeStep Samples.device (Samples.token 9), Samples.minutes 4, NoFault)]))).
Proof. refine (proj1 (grants_authorise_once Samples.new_uuid _ _)). apply Samples.grant_run_reachable, Samples.ascending_sorted. vm_compute. reflexivity. Defined.

Lemma accepted_token_has_grant_witness :
  ∃ r, grant_found (Samples.minutes 4) (db (Samples.run Samples.issued_twice)) Samples.device (Samples.token 9) r.
Proof.
  destruct (accepted_token_has_grant (Samples.minutes 4) (db (Samples.run Samples.issued_twice)) Samples.device (Samples.token 9)
    (Consume (Samples.minutes 4) (db (Samples.run Samples.issued_twice)) Samples.device (Samples.token 9)).2) as (r & Hr & _);
    [vm_compute; reflexivity|]. by exists r.
Defined.

Lemma issued_token_is_accepted_witness :
  ∃ db'', Consume (Samples.minutes 4) (db (Samples.run Samples.issued_twice)) Samples.device (Samples.token 9) = (Ok tt, db'')
    ∧ ∀ now'' token, (Consume now'' db'' Samples.device token).1 ≠ Ok tt.
Proof.
  apply (issued_token_is_accepted Samples.new_uuid (Samples.run (take 2 Samples.issued_twice)) Samples.service (Samples.random 9) (Samples.minutes 3)
    Samples.device "operator" (mkIssuedErasureGrant (Samples.token 9) Samples.device (Samples.minutes 13))).
  - apply Samples.grant_run_reachable, Samples.ascending_sorted. vm_compute. reflexivity.
  - vm_compute. reflexivity.
  - unfold Samples.random. apply Forall_app. split; [apply Forall_replicate; unfold byte_ok; lia|]. repeat constructor; lia.
  - vm_compute. reflexivity.
  - split; [by vm_compute|by vm_compute].
Defined.

Lemma guesses_are_bounded_witness :
  (Consume (Samples.minutes 4) (foldl (fun db _ => (Consume (Samples.minutes 4) db Samples.device "guess").2) (db (Samples.run Samples.issued_twice)) (seq 0 5))
     Samples.device (Samples.token 9)).1 ≠ Ok tt.
Proof.
  refine (guesses_are_bounded (db (Samples.run Samples.issued_twice)) Samples.device
    (default (mkRow "" "" [] 0 0 None 0 0 "") (latest Samples.device (grants (db (Samples.run Samples.issued_twice))))) 5 _ _ _ _ _ _ _ (Samples.minutes 4) (Samples.token 9)).
  - split; [apply (bool_decide_unpack _); vm_compute; exact I|apply Forall_forall; intros r Hr%list_elem_of_In; revert r Hr; apply forallb_forall; vm_compute; reflexivity].
  - vm_compute. reflexivity.
  - vm_compute. by eexists.
  - vm_compute. reflexivity.
  - do 5 (eapply (refused_one _ (Samples.minutes 4) "guess"); [vm_compute; reflexivity|]). vm_compute. constructor.
  - vm_compute. discriminate.
Defined.
