(* ===== verification/SignerChain.v ===== *)
(** * The signer of offline packs and its manifest chain

    [server/internal/learning/offline_protocol.go]: signed envelopes, the manifests that
    list the keys of a server, the chain of manifests a server is configured with, and
    the signer. Every manifest but the first is signed with the key that was active in
    the one before it, and names its digest; the last one has the key of the server.

    [crypto/ed25519] is the class [Ed25519]. [normalizeOfflineOrigin], which is about
    [net/url], is an argument. A [time.Time] that was read from JSON is its instant and
    whether its location is UTC, which [!=] looks at. *)
From stdpp Require Import pretty.
From S2P Require Import Prelude GoStd Utf8 Json Jcs GoTime Encoding LearningDomain Offline.
#[local] Open Scope Z_scope.

(** ** Package crypto/ed25519

    A private key is its seed and the public key. *)
Class Ed25519 := {
  ed25519_Sign : text → text → text;
  ed25519_Verify : text → text → text → bool;
}.
Definition ed25519_Public (privateKey : text) : text := drop 32 privateKey.

(** ** Data *)
Definition OfflineAuthorizationDomain : string := "edu-agent-offline-authorization-v1" +:+ string_of_bytes [10].
Definition OfflinePackDomain : string := "edu-agent-offline-pack-v1" +:+ string_of_bytes [10].
Definition OfflinePrepareResponseDomain : string := "edu-agent-offline-prepare-response-v1" +:+ string_of_bytes [10].
Definition OfflineSignerManifestDomain : string := "edu-agent-signer-manifest-v1" +:+ string_of_bytes [10].

Record OfflineSignedEnvelope := mkOfflineSignedEnvelope { Envelope_Payload : text; Envelope_SignerKeyID : string; Envelope_Signature : string }.

Record Stamp := mkStamp { instant : time; utc : bool }.
#[export] Instance Stamp_eq_dec : EqDecision Stamp.
Proof. solve_decision. Defined.
Definition no_stamp : Stamp := mkStamp time_zero true.

Record OfflineSignerKeyV1 := mkOfflineSignerKeyV1 {
  Key_KeyID : string;
  Key_PublicKey : string;
  Key_Fingerprint : string;
  Key_NotBefore : Stamp;
  Key_NotAfter : Stamp;
  Key_StatusEffectiveAt : Stamp;
  Key_Status : string;
}.

Record OfflineSignerManifestPayloadV1 := mkOfflineSignerManifestPayloadV1 {
  Manifest_ProtocolVersion : Z;
  Manifest_ManifestRevision : string;
  Manifest_Issuer : string;
  Manifest_ServerBaseURL : string;
  Manifest_PreviousDigest : string;
  Manifest_IssuedAt : Stamp;
  Manifest_Keys : list OfflineSignerKeyV1;
}.

Record Ed25519OfflineSigner := mkEd25519OfflineSigner {
  keyID : string;
  origin : string;
  privateKey : text;
  manifests : list OfflineSignedEnvelope;
  manifestPayload : list OfflineSignerManifestPayloadV1;
  manifestDigests : list string;
}.

(** ** Reading slices

    An element is read over what the slice held there before: [current] is the elements
    that were written so far, and the length of the slice over them. *)
Section Slices.
Context {A : Type} (zero : A) (read : A → text * json → option A).

Fixpoint read_elements (before : list A) (items : list (text * json)) : option (list A) :=
  match items with
  | [] => Some before
  | v :: items =>
    let '(a, before) := match before with a :: before => (a, before) | [] => (zero, []) end in
    a ← read a v; elements ← read_elements before items; Some (a :: elements)
  end.

Definition read_slice_field (current : list A * option nat) (v : text * json) : option (list A * option nat) :=
  match v.2 with
  | Null => Some ([], None)
  | Arr [] => Some ([], Some 0%nat)
  | Arr items => elements ← read_elements current.1 items; Some (elements, Some (length items))
  | _ => None
  end.

Definition slice_of (current : list A * option nat) : list A := match current.2 with Some n => take n current.1 | None => [] end.
End Slices.

(** ** Reading manifests *)
Definition read_stamp_field (current : Stamp) (v : text * json) : option Stamp :=
  match v.2 with
  | Null => Some current
  | _ => t ← unmarshal_time v.1; Some (mkStamp (GoTime_instant t) (bool_decide (last (removelast v.1) = Some 90)))
  end.

Definition key_fields : list string := ["key_id"; "public_key"; "fingerprint"; "not_before"; "not_after"; "status_effective_at"; "status"].
Definition no_key : OfflineSignerKeyV1 := mkOfflineSignerKeyV1 "" "" "" no_stamp no_stamp no_stamp "".

Definition read_key (k : OfflineSignerKeyV1) (v : text * json) : option OfflineSignerKeyV1 :=
  match v.2 with
  | Null => Some k
  | Obj ms =>
    _ ← option_guard (known_fields key_fields ms);
    key_id ← read_field read_string_field (Key_KeyID k) "key_id" ms;
    public_key ← read_field read_string_field (Key_PublicKey k) "public_key" ms;
    fingerprint ← read_field read_string_field (Key_Fingerprint k) "fingerprint" ms;
    not_before ← read_field read_stamp_field (Key_NotBefore k) "not_before" ms;
    not_after ← read_field read_stamp_field (Key_NotAfter k) "not_after" ms;
    effective ← read_field read_stamp_field (Key_StatusEffectiveAt k) "status_effective_at" ms;
    status ← read_field read_string_field (Key_Status k) "status" ms;
    Some (mkOfflineSignerKeyV1 key_id public_key fingerprint not_before not_after effective status)
  | _ => None
  end.

Definition manifest_fields : list string :=
  ["protocol_version"; "manifest_revision"; "issuer"; "server_base_url"; "previous_manifest_digest"; "issued_at"; "keys"].

Definition read_manifest (v : json) : option OfflineSignerManifestPayloadV1 :=
  match v with
  | Null => Some (mkOfflineSignerManifestPayloadV1 0 "" "" "" "" no_stamp [])
  | Obj ms =>
    _ ← option_guard (known_fields manifest_fields ms);
    version ← read_field read_int_field 0 "protocol_version" ms;
    revision ← read_field read_string_field "" "manifest_revision" ms;
    issuer ← read_field read_string_field "" "issuer" ms;
    base_url ← read_field read_string_field "" "server_base_url" ms;
    previous ← read_field read_string_field "" "previous_manifest_digest" ms;
    issued_at ← read_field read_stamp_field no_stamp "issued_at" ms;
    keys ← read_field (read_slice_field no_key read_key) ([], None) "keys" ms;
    Some (mkOfflineSignerManifestPayloadV1 version revision issuer base_url previous issued_at (slice_of keys))
  | _ => None
  end.

Definition envelope_fields : list string := ["payload"; "signer_key_id"; "signature"].

Definition read_envelope (v : json) : option OfflineSignedEnvelope :=
  match v with
  | Null => Some (mkOfflineSignedEnvelope [] "" "")
  | Obj ms =>
    _ ← option_guard (known_fields envelope_fields ms);
    payload ← read_field read_raw_field [] "payload" ms;
    signer ← read_field read_string_field "" "signer_key_id" ms;
    signature ← read_field read_string_field "" "signature" ms;
    Some (mkOfflineSignedEnvelope payload signer signature)
  | _ => None
  end.

(** The one value of a text. *)
Definition single_value (l : text) : option json :=
  '((_, v), rest) ← json_first l; _ ← option_guard (is_nil (skip_space rest)); Some v.

(** The errors of decoding have no text here. *)
Definition decodeOfflineManifestEnvelope (raw : text) : result error (OfflineSignedEnvelope * OfflineSignerManifestPayloadV1) :=
  canonical ← or_error (CanonicalizeJCS raw) malformed;
  envelope ← some_or (v ← single_value canonical; read_envelope v) malformed;
  payloadCanonical ← or_error (CanonicalizeJCS (Envelope_Payload envelope)) malformed;
  payload ← some_or (v ← single_value payloadCanonical; read_manifest v) malformed;
  _ ← fail_if (bool_decide (Envelope_SignerKeyID envelope = "") || negb (validOfflineSignature (Envelope_Signature envelope)))
        (ErrorNew "invalid manifest envelope");
  Ok (mkOfflineSignedEnvelope payloadCanonical (Envelope_SignerKeyID envelope) (Envelope_Signature envelope), payload).

(** ** Validation *)
Definition signature_message (domain : string) (payload : text) : text := bytes_of domain ++ sha256_bytes payload.

Definition verifyOfflineManifestSignature `{Ed25519} (envelope : OfflineSignedEnvelope) (key : OfflineSignerKeyV1) : bool :=
  match base64_DecodeString (Key_PublicKey key), base64_DecodeString (Envelope_Signature envelope) with
  | Some publicKey, Some signature =>
    (length publicKey =? 32)%nat && (length signature =? 64)%nat
    && ed25519_Verify publicKey (signature_message OfflineSignerManifestDomain (Envelope_Payload envelope)) signature
  | _, _ => false
  end.

Definition offlineManifestKey (payload : OfflineSignerManifestPayloadV1) (key_id : string) : option OfflineSignerKeyV1 :=
  find (fun key => bool_decide (Key_KeyID key = key_id)) (Manifest_Keys payload).

Definition trimmed (s : string) : bool := bool_decide (trim_space s = s).

(** What is asked of a key, whatever its status. *)
Definition key_ok (key : OfflineSignerKeyV1) : bool :=
  negb (bool_decide (Key_KeyID key = "")) && negb (128 <? str_len (Key_KeyID key)) && trimmed (Key_KeyID key)
  && match base64_DecodeString (Key_PublicKey key), base64_DecodeString (Key_Fingerprint key) with
     | Some publicKey, Some fingerprint =>
       (length publicKey =? 32)%nat && bool_decide (base64_EncodeToString publicKey = Key_PublicKey key)
       && (length fingerprint =? 32)%nat && bool_decide (base64_EncodeToString fingerprint = Key_Fingerprint key)
       && bool_decide (fingerprint = sha256_bytes publicKey)
     | _, _ => false
     end
  && negb (time_is_zero (instant (Key_NotBefore key))) && time_after (instant (Key_NotAfter key)) (instant (Key_NotBefore key))
  && negb (time_before (instant (Key_StatusEffectiveAt key)) (instant (Key_NotBefore key)))
  && negb (time_after (instant (Key_StatusEffectiveAt key)) (instant (Key_NotAfter key))).

(** Whether the key is in force at an instant. *)
Definition key_covers (key : OfflineSignerKeyV1) (t : time) : bool :=
  negb (time_before t (instant (Key_NotBefore key))) && time_before t (instant (Key_NotAfter key))
  && negb (time_before t (instant (Key_StatusEffectiveAt key))).

(** A turn of the loop over the keys: the identifiers seen, and how many keys are active. *)
Definition check_key (issuedAt : time) (found : list string * Z) (key : OfflineSignerKeyV1) : result error (list string * Z) :=
  let '(seen, active) := found in
  _ ← fail_if (negb (key_ok key) || bool_decide (Key_KeyID key ∈ seen)) (ErrorNew "invalid manifest key");
  if bool_decide (Key_Status key = "active") then
    _ ← fail_if (negb (key_covers key issuedAt)) (ErrorNew "active manifest key is outside its validity window");
    Ok (Key_KeyID key :: seen, active + 1)
  else if bool_decide (Key_Status key ∈ ["verify_only"; "retired"]) then Ok (Key_KeyID key :: seen, active)
  else Err (ErrorNew "invalid manifest key status").

Definition validateOfflineManifestKeys (payload : OfflineSignerManifestPayloadV1) : result error unit :=
  let keys := Manifest_Keys payload in
  _ ← fail_if (time_is_zero (instant (Manifest_IssuedAt payload)) || is_nil keys || (16 <? length keys)%nat
               || negb (validOfflineDigest (Manifest_PreviousDigest payload))) (ErrorNew "invalid manifest payload");
  '(_, active) ← fold_result (check_key (instant (Manifest_IssuedAt payload))) ([], 0) keys;
  fail_if (negb (active =? 1)) (ErrorNew "manifest must contain exactly one active key").

(** ** The signer *)
Section Signer.
Context `{Ed25519}.

(** [Sign] of the value that [json.Marshal] wrote as [encoded]. *)
Definition Sign (s : Ed25519OfflineSigner) (domain : string) (encoded : option string) : result error OfflineSignedEnvelope :=
  _ ← fail_if (negb (length (privateKey s) =? 64)%nat || bool_decide (domain = "")) (err_code "offline_signer_unavailable");
  payload ← match encoded with Some encoded => or_error (CanonicalizeJCS (bytes_of encoded)) malformed | None => Err malformed end;
  let signature := ed25519_Sign (privateKey s) (signature_message domain payload) in
  Ok (mkOfflineSignedEnvelope payload (keyID s) (base64_EncodeToString signature)).

Definition with_manifest (envelope : OfflineSignedEnvelope) (payload : OfflineSignerManifestPayloadV1) (s : Ed25519OfflineSigner) : Ed25519OfflineSigner :=
  mkEd25519OfflineSigner (keyID s) (origin s) (privateKey s) (manifests s ++ [envelope]) (manifestPayload s ++ [payload])
    (manifestDigests s ++ [offlineBase64Digest (Envelope_Payload envelope)]).

Definition at_revision (index : nat) (what : string) : string := "offline signer manifest revision " +:+ pretty (S index) +:+ " " +:+ what.

Definition check_root (envelope : OfflineSignedEnvelope) (payload : OfflineSignerManifestPayloadV1) : result error unit :=
  _ ← fail_if (negb (bool_decide (Manifest_PreviousDigest payload = OfflineZeroDigest))) (ErrorNew "offline signer root previous digest is invalid");
  match offlineManifestKey payload (Envelope_SignerKeyID envelope) with
  | Some rootKey => fail_if (negb (bool_decide (Key_Status rootKey = "active")) || negb (verifyOfflineManifestSignature envelope rootKey))
                      (ErrorNew "offline signer root signature is invalid")
  | None => Err (ErrorNew "offline signer root signature is invalid")
  end.

(** A manifest against the one before it, and the digest of that. *)
Definition check_continuity (index : nat) (previous : OfflineSignerManifestPayloadV1) (digest : string)
    (envelope : OfflineSignedEnvelope) (payload : OfflineSignerManifestPayloadV1) : result error unit :=
  _ ← fail_if (negb (bool_decide (Manifest_PreviousDigest payload = digest))) (ErrorNew (at_revision index "previous digest is invalid"));
  match offlineManifestKey previous (Envelope_SignerKeyID envelope) with
  | Some previousKey =>
    fail_if (negb (bool_decide (Key_Status previousKey = "active")) || negb (key_covers previousKey (instant (Manifest_IssuedAt payload)))
             || negb (verifyOfflineManifestSignature envelope previousKey)) (ErrorNew (at_revision index "continuity signature is invalid"))
  | None => Err (ErrorNew (at_revision index "continuity signature is invalid"))
  end.

(** A turn of the loop; the manifest at [index - 1] is the last one there is. *)
Definition load_manifest (s : Ed25519OfflineSigner) (raw : text) : result error Ed25519OfflineSigner :=
  let index := length (manifests s) in
  match decodeOfflineManifestEnvelope raw with
  | Err err => Err (ErrorWrap (at_revision index "is invalid") err)
  | Ok (envelope, payload) =>
    _ ← fail_if (negb (bool_decide (uint63 (Manifest_ManifestRevision payload) = Some (Z.of_nat (S index))))
                 || negb (Manifest_ProtocolVersion payload =? 1) || negb (bool_decide (Manifest_Issuer payload = "edu-agent"))
                 || negb (bool_decide (Manifest_ServerBaseURL payload = origin s))) (ErrorNew (at_revision index "metadata is invalid"));
    _ ← match validateOfflineManifestKeys payload with Ok _ => Ok tt | Err err => Err (ErrorWrap (at_revision index "keys are invalid") err) end;
    _ ← match last (manifestPayload s), last (manifestDigests s) with
        | Some previous, Some digest => check_continuity index previous digest envelope payload
        | _, _ => check_root envelope payload
        end;
    Ok (with_manifest envelope payload s)
  end.

(** The signer has to hold the key that is active in the last manifest. *)
Definition check_active (s : Ed25519OfflineSigner) (issuedAt notAfter : Stamp) : result error unit :=
  let mismatch := ErrorNew "offline signer private key does not match the current active manifest key" in
  match current ← last (manifestPayload s); offlineManifestKey current (keyID s) with
  | Some active =>
    fail_if (negb (bool_decide (Key_Status active = "active")) || negb (bool_decide (Key_NotBefore active = issuedAt))
             || negb (bool_decide (Key_NotAfter active = notAfter))
             || negb (bool_decide (Key_PublicKey active = base64_EncodeToString (ed25519_Public (privateKey s))))) mismatch
  | None => Err mismatch
  end.

Definition loadManifestChain (s : Ed25519OfflineSigner) (configured : list text) (issuedAt notAfter : Stamp) : result error Ed25519OfflineSigner :=
  _ ← fail_if (16 <? length configured)%nat (ErrorNew "offline signer manifest chain is too long");
  s ← fold_result load_manifest s configured;
  _ ← check_active s issuedAt notAfter;
  Ok s.

(** *** [json.Marshal] of a manifest *)
Definition marshal_stamp (t : Stamp) : option string := MarshalTime (mkGoTime (instant t) 0).

Definition marshal_key (k : OfflineSignerKeyV1) : option string :=
  not_before ← marshal_stamp (Key_NotBefore k);
  not_after ← marshal_stamp (Key_NotAfter k);
  effective ← marshal_stamp (Key_StatusEffectiveAt k);
  Some (json_object [
    json_field "key_id" (json_string (Key_KeyID k));
    json_field "public_key" (json_string (Key_PublicKey k));
    json_field "fingerprint" (json_string (Key_Fingerprint k));
    json_field "not_before" not_before;
    json_field "not_after" not_after;
    json_field "status_effective_at" effective;
    json_field "status" (json_string (Key_Status k))]).

Definition marshal_manifest (p : OfflineSignerManifestPayloadV1) : option string :=
  issued_at ← marshal_stamp (Manifest_IssuedAt p);
  keys ← mapM marshal_key (Manifest_Keys p);
  Some (json_object [
    json_field "protocol_version" (pretty (Manifest_ProtocolVersion p));
    json_field "manifest_revision" (json_string (Manifest_ManifestRevision p));
    json_field "issuer" (json_string (Manifest_Issuer p));
    json_field "server_base_url" (json_string (Manifest_ServerBaseURL p));
    json_field "previous_manifest_digest" (json_string (Manifest_PreviousDigest p));
    json_field "issued_at" issued_at;
    json_field "keys" ("[" +:+ join "," keys +:+ "]")]).

Context (normalizeOfflineOrigin : string → option string).

(** [t.UTC().Truncate(time.Microsecond)] *)
Definition to_microsecond (t : time) : Stamp := mkStamp (t - t mod 1000) true.

(** The manifest of a server that is configured without a chain. *)
Definition root_manifest (s : Ed25519OfflineSigner) (issuedAt notAfter : Stamp) : OfflineSignerManifestPayloadV1 :=
  let publicKey := ed25519_Public (privateKey s) in
  mkOfflineSignerManifestPayloadV1 1 "1" "edu-agent" (origin s) OfflineZeroDigest issuedAt
    [mkOfflineSignerKeyV1 (keyID s) (base64_EncodeToString publicKey) (base64_EncodeToString (sha256_bytes publicKey)) issuedAt notAfter issuedAt "active"].

Definition NewEd25519OfflineSignerWithManifestChain (key_id : string) (private_key : text) (rawOrigin : string) (issued_at not_after : time)
    (configured : list text) : result error Ed25519OfflineSigner :=
  origin ← some_or (normalizeOfflineOrigin rawOrigin) (ErrorNew "offline server origin is invalid");
  _ ← fail_if (bool_decide (trim_space key_id = "") || (128 <? str_len key_id) || negb (trimmed key_id)) (ErrorNew "offline signer key ID is invalid");
  _ ← fail_if (negb (length private_key =? 64)%nat) (ErrorNew "offline signer private key must contain 64 bytes");
  let issuedAt := to_microsecond issued_at in
  let notAfter := to_microsecond not_after in
  _ ← fail_if (time_is_zero (instant issuedAt) || negb (time_after (instant notAfter) (instant issuedAt))) (ErrorNew "offline signer validity window is invalid");
  let s := mkEd25519OfflineSigner key_id origin private_key [] [] [] in
  if is_nil configured then
    let payload := root_manifest s issuedAt notAfter in
    manifest ← Sign s OfflineSignerManifestDomain (marshal_manifest payload);
    Ok (with_manifest manifest payload s)
  else loadManifestChain s configured issuedAt notAfter.

Definition NewEd25519OfflineSigner (key_id : string) (private_key : text) (rawOrigin : string) (issued_at not_after : time) : result error Ed25519OfflineSigner :=
  NewEd25519OfflineSignerWithManifestChain key_id private_key rawOrigin issued_at not_after [].
End Signer.

(** *** What others see of a signer *)
Definition ManifestRevision (s : Ed25519OfflineSigner) : Z := Z.of_nat (length (manifests s)).
Definition ManifestDigest (s : Ed25519OfflineSigner) : string := default "" (last (manifestDigests s)).
Definition no_envelope : OfflineSignedEnvelope := mkOfflineSignedEnvelope [] "" "".
Definition RootManifestEnvelope (s : Ed25519OfflineSigner) : OfflineSignedEnvelope := default no_envelope (head (manifests s)).
Definition ManifestEnvelope (s : Ed25519OfflineSigner) : OfflineSignedEnvelope := default no_envelope (last (manifests s)).

Definition manifest_conflict : error := err_reason "offline_prepare_unavailable" "signer_manifest_conflict".

(** The manifests after the one a client trusts. *)
Definition ManifestChain (s : Ed25519OfflineSigner) (revision : Z) (digest : string) : result error (list OfflineSignedEnvelope) :=
  _ ← fail_if ((ManifestRevision s <? revision) || negb (validOfflineDigest digest)) manifest_conflict;
  _ ← (if revision =? 0 then fail_if (negb (bool_decide (digest = OfflineZeroDigest))) manifest_conflict
       else fail_if (negb (bool_decide (manifestDigests s !! Z.to_nat (revision - 1) = Some digest))) manifest_conflict);
  Ok (drop (Z.to_nat revision) (manifests s)).

(** ** The chain of a signer *)
Section Chain.
Context `{Ed25519}.

(** An envelope carries a signature of the key over its payload in a domain. *)
Definition signed_with (publicKey : string) (domain : string) (envelope : OfflineSignedEnvelope) : Prop :=
  ∃ key signature, base64_DecodeString publicKey = Some key ∧ length key = 32%nat
    ∧ base64_DecodeString (Envelope_Signature envelope) = Some signature ∧ length signature = 64%nat
    ∧ ed25519_Verify key (signature_message domain (Envelope_Payload envelope)) signature = true.

Lemma verify_signed envelope key : verifyOfflineManifestSignature envelope key = true ↔ signed_with (Key_PublicKey key) OfflineSignerManifestDomain envelope.
Proof.
  unfold verifyOfflineManifestSignature, signed_with.
  destruct (base64_DecodeString (Key_PublicKey key)) as [pk|]; [|split; [done|by intros (? & ? & ? & _)]].
  destruct (base64_DecodeString (Envelope_Signature envelope)) as [sg|]; [|split; [done|by intros (? & ? & _ & _ & ? & _)]].
  rewrite !andb_true_iff, !Nat.eqb_eq. split; [intros [[??]?]; by exists pk, sg|intros (k & g & Hk & ? & Hg & ? & ?)]. injection Hk as ->. injection Hg as ->. done.
Qed.

(** The manifest at a position of the chain. *)
Record manifest_ok (origin : string) (index : nat) (e : OfflineSignedEnvelope) (p : OfflineSignerManifestPayloadV1) : Prop := {
  ok_revision : uint63 (Manifest_ManifestRevision p) = Some (Z.of_nat (S index));
  ok_version : Manifest_ProtocolVersion p = 1;
  ok_issuer : Manifest_Issuer p = "edu-agent";
  ok_origin : Manifest_ServerBaseURL p = origin;
  ok_keys : validateOfflineManifestKeys p = Ok tt;
  ok_signature : validOfflineSignature (Envelope_Signature e) = true;
}.

(** A manifest and the one after it. *)
Record linked (e0 : OfflineSignedEnvelope) (p0 : OfflineSignerManifestPayloadV1) (e : OfflineSignedEnvelope) (p : OfflineSignerManifestPayloadV1) : Prop := {
  linked_digest : Manifest_PreviousDigest p = offlineBase64Digest (Envelope_Payload e0);
  linked_key : ∃ key, offlineManifestKey p0 (Envelope_SignerKeyID e) = Some key ∧ Key_Status key = "active"
                 ∧ key_covers key (instant (Manifest_IssuedAt p)) = true ∧ signed_with (Key_PublicKey key) OfflineSignerManifestDomain e;
}.

Record root_ok (e : OfflineSignedEnvelope) (p : OfflineSignerManifestPayloadV1) : Prop := {
  root_digest : Manifest_PreviousDigest p = OfflineZeroDigest;
  root_key : ∃ key, offlineManifestKey p (Envelope_SignerKeyID e) = Some key ∧ Key_Status key = "active"
               ∧ signed_with (Key_PublicKey key) OfflineSignerManifestDomain e;
}.

Record chain_ok (s : Ed25519OfflineSigner) (chain : list (OfflineSignedEnvelope * OfflineSignerManifestPayloadV1)) : Prop := {
  chain_manifests : manifests s = chain.*1;
  chain_payloads : manifestPayload s = chain.*2;
  chain_digests : manifestDigests s = (fun e => offlineBase64Digest (Envelope_Payload e)) <$> chain.*1;
  chain_each : ∀ i e p, chain !! i = Some (e, p) → manifest_ok (origin s) i e p;
  chain_root : ∀ e p, head chain = Some (e, p) → root_ok e p;
  chain_links : ∀ i e0 p0 e p, chain !! i = Some (e0, p0) → chain !! S i = Some (e, p) → linked e0 p0 e p;
}.

Lemma check_root_Ok e p : check_root e p = Ok tt ↔ root_ok e p.
Proof.
  unfold check_root. rewrite guard_Ok, negb_false_iff, bool_decide_eq_true. split.
  - intros [Hd Hk]. destruct (offlineManifestKey _ _) as [key|] eqn:Hkey; [|done]. apply fail_if_Ok, orb_false_iff in Hk as [H1 H2]. bool_prop.
    split; [done|]. exists key. by rewrite <- verify_signed.
  - intros [Hd (key & Hkey & Hs & Hv%verify_signed)]. split; [done|]. by rewrite Hkey, Hs, Hv.
Qed.

Lemma check_continuity_Ok index p0 e0 e p : check_continuity index p0 (offlineBase64Digest (Envelope_Payload e0)) e p = Ok tt ↔ linked e0 p0 e p.
Proof.
  unfold check_continuity. rewrite guard_Ok, negb_false_iff, bool_decide_eq_true. split.
  - intros [Hd Hk]. destruct (offlineManifestKey _ _) as [key|] eqn:Hkey; [|done]. apply fail_if_Ok, orb_false_iff in Hk as [[H1 H2]%orb_false_iff H3]. bool_prop.
    split; [done|]. exists key. by rewrite <- verify_signed.
  - intros [Hd (key & Hkey & Hs & Hc & Hv%verify_signed)]. split; [done|]. by rewrite Hkey, Hs, Hc, Hv.
Qed.

Lemma decoded_signature raw e p : decodeOfflineManifestEnvelope raw = Ok (e, p) → validOfflineSignature (Envelope_Signature e) = true.
Proof.
  unfold decodeOfflineManifestEnvelope. intros (canonical & _ & (e1 & _ & (payload & _ & (p1 & _ & [Hs [= <- <-]]%guard_Ok)%bind_Ok)%bind_Ok)%bind_Ok)%bind_Ok.
  apply orb_false_iff in Hs as [_ Hs%negb_false_iff]. exact Hs.
Qed.

Lemma last_snoc_inv {A} (l : list A) x : last l = Some x → ∃ l', l = l' ++ [x].
Proof. intros [l' ->]%last_Some. by exists l'. Qed.

(** Another manifest at the end of the chain. *)
Lemma chain_ok_snoc s chain e p :
  chain_ok s chain → manifest_ok (origin s) (length chain) e p →
  match last chain with Some (e0, p0) => linked e0 p0 e p | None => root_ok e p end →
  chain_ok (with_manifest e p s) (chain ++ [(e, p)]).
Proof.
  intros [Hm Hp Hd Heach Hroot Hlinks] Hok Hlast. split; cbn [with_manifest manifests manifestPayload manifestDigests origin].
  - by rewrite Hm, fmap_app.
  - by rewrite Hp, fmap_app.
  - by rewrite Hd, !fmap_app.
  - intros i e1 p1 [Hi|[Hi Hx]]%lookup_app_Some; [by apply Heach|]. apply list_lookup_singleton_Some in Hx as [Hi0 [= <- <-]].
    assert (i = length chain) as -> by lia. done.
  - intros e1 p1. destruct chain as [|[e2 p2] chain]; cbn; [intros [= <- <-]; done|]. apply Hroot.
  - intros i e0 p0 e1 p1 H0 H1. apply lookup_app_Some in H1 as [H1|[Hlen H1]].
    + apply lookup_app_Some in H0 as [H0|[Hi _]]; [by eapply Hlinks|]. apply lookup_lt_Some in H1. lia.
    + apply list_lookup_singleton_Some in H1 as [Hi [= <- <-]]. assert (length chain = S i) as Hl by lia.
      rewrite lookup_app_l in H0 by lia. rewrite last_lookup, Hl in Hlast. cbn [pred] in Hlast. by rewrite H0 in Hlast.
Qed.

Lemma load_manifest_ok s chain raw s' : chain_ok s chain → load_manifest s raw = Ok s' → ∃ chain', chain_ok s' chain' ∧ keyID s' = keyID s ∧ origin s' = origin s ∧ privateKey s' = privateKey s.
Proof.
  intros Hchain. unfold load_manifest. destruct (decodeOfflineManifestEnvelope raw) as [[e p]|] eqn:Hdec; [|done].
  intros [Hmeta ([] & Hkeys & ([] & Hlink & [= <-])%bind_Ok)%bind_Ok]%guard_Ok. exists (chain ++ [(e, p)]). split; [|done].
  apply orb_false_iff in Hmeta as [[[H1 H2]%orb_false_iff H3]%orb_false_iff H4]. bool_prop.
  destruct (validateOfflineManifestKeys p) as [[]|] eqn:Hvalid; [|done].
  assert (length (manifests s) = length chain) as Hlen by (rewrite (chain_manifests _ _ Hchain); apply length_fmap). rewrite Hlen in *.
  apply chain_ok_snoc; [done|split; try done; by eapply decoded_signature|].
  rewrite (chain_payloads _ _ Hchain), (chain_digests _ _ Hchain), !fmap_last in Hlink. destruct (last chain) as [[e0 p0]|]; cbn [fmap option_fmap option_map fst snd] in Hlink.
  - by apply check_continuity_Ok in Hlink.
  - by apply check_root_Ok in Hlink.
Qed.

Lemma chain_ok_nil key_id origin private_key : chain_ok (mkEd25519OfflineSigner key_id origin private_key [] [] []) [].
Proof. split; done. Qed.

Lemma load_manifests_ok configured s s' chain : chain_ok s chain → fold_result load_manifest s configured = Ok s' →
  ∃ chain', chain_ok s' chain' ∧ keyID s' = keyID s ∧ origin s' = origin s ∧ privateKey s' = privateKey s.
Proof.
  revert s chain. induction configured as [|raw configured IH]; intros s chain Hchain; cbn [fold_result]; [intros [= <-]; by exists chain|].
  intros (s1 & (chain1 & Hchain1 & <- & <- & <-)%(load_manifest_ok _ _ _ _ Hchain) & H2)%bind_Ok. by apply (IH s1 chain1).
Qed.
End Chain.

(** ** What a signer signs *)
Section Signing.
Context `{Ed25519}.

(** What is relied on of a pair of keys. *)
Record key_pair (k : text) : Prop := {
  pair_bytes : Forall byte_ok k;
  pair_verifies : ∀ m, ed25519_Verify (ed25519_Public k) m (ed25519_Sign k m) = true;
  pair_size : ∀ m, length (ed25519_Sign k m) = 64%nat;
  pair_signature : ∀ m, Forall byte_ok (ed25519_Sign k m);
}.

Lemma base64_string_roundtrip l : Forall byte_ok l → base64_DecodeString (base64_EncodeToString l) = Some l.
Proof.
  intros Hl. unfold base64_DecodeString, base64_EncodeToString. rewrite bytes_of_string by by apply ascii_bytes_ok, base64_ascii. by apply base64_roundtrip.
Qed.

Lemma public_length k : length k = 64%nat → length (ed25519_Public k) = 32%nat.
Proof. intros Hk. unfold ed25519_Public. rewrite length_drop. lia. Qed.

Lemma public_bytes k : Forall byte_ok k → Forall byte_ok (ed25519_Public k).
Proof. apply Forall_drop. Qed.

Lemma Sign_signed s domain encoded envelope : key_pair (privateKey s) → Sign s domain encoded = Ok envelope →
  Envelope_SignerKeyID envelope = keyID s ∧ validOfflineSignature (Envelope_Signature envelope) = true
  ∧ signed_with (base64_EncodeToString (ed25519_Public (privateKey s))) domain envelope.
Proof.
  intros [Hbytes Hverify Hsize Hsig]. unfold Sign. intros [Hguard (payload & _ & [= <-])%bind_Ok]%guard_Ok.
  apply orb_false_iff in Hguard as [Hlen%negb_false_iff%Nat.eqb_eq _]. cbn [Envelope_SignerKeyID Envelope_Signature Envelope_Payload].
  set (signature := ed25519_Sign _ _). split_and!; [done| |].
  - unfold validOfflineSignature. rewrite base64_string_roundtrip by apply Hsig. unfold signature. by rewrite Hsize, bool_decide_eq_true_2.
  - exists (ed25519_Public (privateKey s)), signature. cbn [Envelope_Payload Envelope_Signature]. rewrite !base64_string_roundtrip by (apply Hsig || by apply public_bytes).
    split_and!; [done|by apply public_length|done|apply Hsize|apply Hverify].
Qed.

Lemma trim_empty : trim_space "" = "".
Proof. reflexivity. Qed.

(** The manifest that a server without a chain makes for itself. *)
Lemma root_manifest_valid s issuedAt notAfter : Forall byte_ok (privateKey s) → length (privateKey s) = 64%nat →
  keyID s ≠ "" → str_len (keyID s) <= 128 → trimmed (keyID s) = true → time_is_zero (instant issuedAt) = false → instant issuedAt < instant notAfter →
  validateOfflineManifestKeys (root_manifest s issuedAt notAfter) = Ok tt.
Proof.
  intros Hbytes Hlen Hid Hsize Htrim Hzero Hwindow. set (pk := ed25519_Public (privateKey s)).
  assert (Forall byte_ok pk) as Hpk by by apply public_bytes. assert (length pk = 32%nat) as Hpl by by apply public_length.
  assert (key_ok (mkOfflineSignerKeyV1 (keyID s) (base64_EncodeToString pk) (base64_EncodeToString (sha256_bytes pk)) issuedAt notAfter issuedAt "active") = true) as Hok.
  { unfold key_ok. cbn [Key_KeyID Key_PublicKey Key_Fingerprint Key_NotBefore Key_NotAfter Key_StatusEffectiveAt].
    rewrite !base64_string_roundtrip, Hpl, sha256_length, Htrim, Hzero by (done || apply sha256_bytes_ok).
    rewrite (bool_decide_eq_false_2 (keyID s = "")), !bool_decide_eq_true_2 by done. unfold time_after, time_before.
    rewrite (proj2 (Z.ltb_ge 128 _)), (proj2 (Z.ltb_lt _ _) Hwindow), Z.ltb_irrefl, (proj2 (Z.ltb_ge _ _)) by lia. done. }
  unfold validateOfflineManifestKeys, root_manifest. fold pk. cbn [Manifest_Keys Manifest_IssuedAt Manifest_PreviousDigest]. rewrite Hzero.
  change (validOfflineDigest OfflineZeroDigest) with true || replace (validOfflineDigest OfflineZeroDigest) with true by (by vm_compute).
  cbn [is_nil length Nat.ltb Nat.leb orb negb fail_if fold_result check_key]. rewrite bind_eq_Ok, Hok. cbn [Key_KeyID Key_Status]. rewrite (bool_decide_eq_false_2 (keyID s ∈ [])) by set_solver.
  cbn [negb orb fail_if]. rewrite bind_eq_Ok, (bool_decide_eq_true_2 ("active" = "active")) by done. unfold key_covers, time_before. cbn [Key_NotBefore Key_NotAfter Key_StatusEffectiveAt].
  rewrite Z.ltb_irrefl, (proj2 (Z.ltb_lt _ _) Hwindow). reflexivity.
Qed.

Context (normalizeOfflineOrigin : string → option string).

(** The key of the signer is active in its last manifest. *)
Definition holds_active (s : Ed25519OfflineSigner) (chain : list (OfflineSignedEnvelope * OfflineSignerManifestPayloadV1)) : Prop :=
  ∃ e p key, last chain = Some (e, p) ∧ offlineManifestKey p (keyID s) = Some key ∧ Key_Status key = "active"
    ∧ Key_PublicKey key = base64_EncodeToString (ed25519_Public (privateKey s)).

Lemma loadManifestChain_ok s configured issuedAt notAfter s' : chain_ok s [] → loadManifestChain s configured issuedAt notAfter = Ok s' →
  ∃ chain, chain_ok s' chain ∧ holds_active s' chain ∧ privateKey s' = privateKey s.
Proof.
  intros Hchain. unfold loadManifestChain. intros [_ (s1 & (chain & Hok & Hid & Horigin & Hkey)%(load_manifests_ok _ _ _ _ Hchain) & ([] & Hactive & [= <-])%bind_Ok)%bind_Ok]%guard_Ok.
  exists chain. split_and!; [done| |done]. unfold check_active in Hactive. rewrite (chain_payloads _ _ Hok), fmap_last in Hactive.
  destruct (last chain) as [[e p]|] eqn:Hlast; [|done]. cbn in Hactive. destruct (offlineManifestKey p (keyID s1)) as [key|] eqn:Hfind; [|done].
  apply fail_if_Ok, orb_false_iff in Hactive as [[[H1 _]%orb_false_iff _]%orb_false_iff H4]. bool_prop. by exists e, p, key.
Qed.

Lemma NewSigner_chain key_id private_key rawOrigin issued_at not_after configured s : key_pair private_key →
  NewEd25519OfflineSignerWithManifestChain normalizeOfflineOrigin key_id private_key rawOrigin issued_at not_after configured = Ok s →
  ∃ chain, chain_ok s chain ∧ holds_active s chain ∧ privateKey s = private_key.
Proof.
  intros Hpair. unfold NewEd25519OfflineSignerWithManifestChain.
  intros (origin & _ & [Hid [Hlen%negb_false_iff%Nat.eqb_eq [Hwindow Hs]%guard_Ok]%guard_Ok]%guard_Ok)%bind_Ok.
  set (issuedAt := to_microsecond issued_at) in *. set (notAfter := to_microsecond not_after) in *. set (s0 := mkEd25519OfflineSigner key_id origin private_key [] [] []) in *.
  destruct (is_nil configured); [|by apply loadManifestChain_ok in Hs; [|apply chain_ok_nil]].
  apply orb_false_iff in Hid as [[Hne Hsize]%orb_false_iff Htrim%negb_false_iff]. apply orb_false_iff in Hwindow as [Hzero Hafter%negb_false_iff].
  assert (validateOfflineManifestKeys (root_manifest s0 issuedAt notAfter) = Ok tt) as Hkeys.
  { apply root_manifest_valid; cbn [s0 privateKey keyID]; [by destruct Hpair|done| |lia|done|done|by apply Z.ltb_lt]. intros ->. discriminate Hne. }
  apply bind_Ok in Hs as (manifest & Hsign & [= <-]). apply (Sign_signed s0) in Hsign as (Hsigner & Hsig & Hsigned); [|done].
  assert (offlineManifestKey (root_manifest s0 issuedAt notAfter) key_id = Some (mkOfflineSignerKeyV1 key_id (base64_EncodeToString (ed25519_Public private_key))
    (base64_EncodeToString (sha256_bytes (ed25519_Public private_key))) issuedAt notAfter issuedAt "active")) as Hkey.
  { unfold offlineManifestKey. cbn. by rewrite bool_decide_eq_true_2. }
  exists [(manifest, root_manifest s0 issuedAt notAfter)]. split_and!; [|by eexists _, _, _|done].
  apply (chain_ok_snoc s0 []); [apply chain_ok_nil|by split|]. cbn [last]. split; [done|]. rewrite Hsigner. by eexists.
Qed.

(** A signer that was made is sound. Its manifests form a chain: the first is a root
    that its own active key signed, each later one names the digest of the one before it
    and is signed with the key that was active there, and every one lists valid keys of
    which one is active. What the signer signs, in any domain, is signed with the key
    that is active in the last manifest, so that whoever follows the chain can verify
    it. *)
Theorem signer_is_sound key_id private_key rawOrigin issued_at not_after configured s : key_pair private_key →
  NewEd25519OfflineSignerWithManifestChain normalizeOfflineOrigin key_id private_key rawOrigin issued_at not_after configured = Ok s →
  ∃ chain, chain_ok s chain ∧ ∃ e p key, last chain = Some (e, p) ∧ offlineManifestKey p (keyID s) = Some key ∧ Key_Status key = "active"
    ∧ ∀ domain encoded envelope, Sign s domain encoded = Ok envelope →
        Envelope_SignerKeyID envelope = keyID s ∧ signed_with (Key_PublicKey key) domain envelope.
Proof.
  intros Hpair (chain & Hchain & (e & p & key & Hlast & Hkey & Hstatus & Hpublic) & Hprivate)%NewSigner_chain; [|done].
  exists chain. split; [done|]. exists e, p, key. split_and!; [done..|]. intros domain encoded envelope (Hid & _ & Hsigned)%Sign_signed; [|by rewrite Hprivate].
  by rewrite Hpublic.
Qed.
End Signing.

Module Samples.
(** Signatures that anyone can make, but that verify. *)
Definition toy_signature (publicKey message : text) : text := sha256_bytes (publicKey ++ message) ++ sha256_bytes (message ++ publicKey).
Definition toy : Ed25519 := {|
  ed25519_Sign := fun privateKey message => toy_signature (ed25519_Public privateKey) message;
  ed25519_Verify := fun publicKey message signature => bool_decide (signature = toy_signature publicKey message);
|}.
#[local] Existing Instance toy.

Lemma toy_pair k : forallb (fun b => (0 <=? b) && (b <? 256)) k = true → key_pair k.
Proof.
  intros Hk. split.
  - apply Forall_forall. intros b Hb. rewrite forallb_forall in Hk. apply list_elem_of_In in Hb. specialize (Hk b Hb). unfold byte_ok. bool_prop. lia.
  - intros m. by apply bool_decide_eq_true_2.
  - intros m. change (length (toy_signature (ed25519_Public k) m) = 64%nat). unfold toy_signature. by rewrite length_app, !sha256_length.
  - intros m. change (Forall byte_ok (toy_signature (ed25519_Public k) m)). unfold toy_signature. apply Forall_app; split; apply sha256_bytes_ok.
Qed.

Definition old_key : text := replicate 32 1 ++ replicate 32 2.
Definition new_key : text := replicate 32 3 ++ replicate 32 4.
Definition noon : time := 1700049600 * second.
Definition day : duration := 24 * hour.
Definition normalize (raw : string) : option string := Some (raw +:+ "/").
Definition address : string := "https://edu.example".

Definition no_signer : Ed25519OfflineSigner := mkEd25519OfflineSigner "" "" [] [] [] [].
Definition ok_or {E A} (a : A) (r : result E A) : A := match r with Ok a => a | Err _ => a end.

(** A server without a chain. *)
Definition first_signer : Ed25519OfflineSigner := Eval vm_compute in ok_or no_signer (NewEd25519OfflineSigner normalize "key-1" old_key address noon (noon + 10 * day)).

(** It moves to a new key: the next manifest, signed with the old key, lists both keys, or,
    without [old], the new one only. *)
Definition public_of (k : text) : string := base64_EncodeToString (ed25519_Public k).
Definition print_of (k : text) : string := base64_EncodeToString (sha256_bytes (ed25519_Public k)).
Definition retiring : OfflineSignerKeyV1 :=
  mkOfflineSignerKeyV1 "key-1" (public_of old_key) (print_of old_key) (mkStamp noon true) (mkStamp (noon + 10 * day) true) (mkStamp (noon + day) true) "verify_only".
Definition coming : OfflineSignerKeyV1 :=
  mkOfflineSignerKeyV1 "key-2" (public_of new_key) (print_of new_key) (mkStamp (noon + day) true) (mkStamp (noon + 11 * day) true) (mkStamp (noon + day) true) "active".
Definition second_manifest (old : bool) : OfflineSignerManifestPayloadV1 :=
  mkOfflineSignerManifestPayloadV1 1 "2" "edu-agent" (address +:+ "/") (ManifestDigest first_signer) (mkStamp (noon + day) true)
    (if old then [retiring; coming] else [coming]).
Definition sign_second (old : bool) : OfflineSignedEnvelope :=
  ok_or no_envelope (Sign first_signer OfflineSignerManifestDomain (marshal_manifest (second_manifest old))).
Definition second_envelope : OfflineSignedEnvelope := Eval vm_compute in sign_second true.
Definition dropped_envelope : OfflineSignedEnvelope := Eval vm_compute in sign_second false.

Definition envelope_text (e : OfflineSignedEnvelope) : text := bytes_of (json_object [
  json_field "payload" (string_of_bytes (Envelope_Payload e)); json_field "signer_key_id" (json_string (Envelope_SignerKeyID e));
  json_field "signature" (json_string (Envelope_Signature e))]).
Definition configured (next : OfflineSignedEnvelope) : list text := envelope_text <$> [RootManifestEnvelope first_signer; next].

Definition make_second (next : OfflineSignedEnvelope) : result error Ed25519OfflineSigner :=
  NewEd25519OfflineSignerWithManifestChain normalize "key-2" new_key address (noon + day) (noon + 11 * day) (configured next).
Definition second_signer : Ed25519OfflineSigner := Eval vm_compute in ok_or no_signer (make_second second_envelope).

Example broken_chain : is_Err (NewEd25519OfflineSignerWithManifestChain normalize "key-2" new_key address (noon + day) (noon + 11 * day)
  [envelope_text second_envelope]) = true.
Proof. vm_compute. reflexivity. Qed.
Example chain_after_root : ManifestChain second_signer 1 (ManifestDigest first_signer) = Ok [second_envelope].
Proof. vm_compute. reflexivity. Qed.
(** The server also takes a chain whose manifest drops the key that signed it. *)
Example dropped_is_made : is_Err (make_second dropped_envelope) = false.
Proof. vm_compute. reflexivity. Qed.
End Samples.

Lemma signer_is_sound_witness :
  NewEd25519OfflineSignerWithManifestChain (H := Samples.toy) Samples.normalize "key-2" Samples.new_key Samples.address (Samples.noon + Samples.day) (Samples.noon + 11 * Samples.day)
    (Samples.configured Samples.second_envelope) = Ok Samples.second_signer ∧
  ∃ chain, chain_ok (H := Samples.toy) Samples.second_signer chain ∧ ∃ e p key, last chain = Some (e, p)
    ∧ offlineManifestKey p (keyID Samples.second_signer) = Some key ∧ Key_Status key = "active"
    ∧ ∀ domain encoded envelope, Sign (H := Samples.toy) Samples.second_signer domain encoded = Ok envelope →
        Envelope_SignerKeyID envelope = keyID Samples.second_signer ∧ signed_with (H := Samples.toy) (Key_PublicKey key) domain envelope.
Proof.
  split; [vm_compute; reflexivity|].
  apply (signer_is_sound (H := Samples.toy) Samples.normalize "key-2" Samples.new_key Samples.address (Samples.noon + Samples.day) (Samples.noon + 11 * Samples.day)
    (Samples.configured Samples.second_envelope)); [apply Samples.toy_pair; vm_compute; reflexivity|vm_compute; reflexivity].
Defined.
