(* ===== verification/OfflineTrust.v ===== *)
(** * How a client trusts the packs of its server

    [clients/cli-go/internal/command/offline_verify.go] and the part of [offline.go] that
    accepts a prepared pack: the manifests a client trusts, how it follows the chain of
    its server from one to the next, and the verification of a pack. SignerChain.v is the
    side of the server.

    The structures of [internal/api] are those of [dto_offline.go]; an activity is only
    identified and hashed here, and is the class [Activities]. [config.ValidateServerURL],
    which is about [net/url], is an argument. *)
From stdpp Require Import pretty.
From S2P Require Import Prelude GoStd Utf8 Json Jcs GoTime Encoding Offline SignerChain.
From S2P Require ClientJcs.
#[local] Open Scope Z_scope.

(** ** Structures of the api *)

(** A slice, and the elements that were written under it. *)
Definition slice (A : Type) : Type := list A * option nat.

Record OfflineSignerKey := mkOfflineSignerKey {
  SignerKey_KeyID : string;
  SignerKey_PublicKey : string;
  SignerKey_Fingerprint : string;
  SignerKey_NotBefore : string;
  SignerKey_NotAfter : string;
  SignerKey_StatusEffectiveAt : string;
  SignerKey_Status : string;
}.

Record OfflineSignerManifestPayload := mkOfflineSignerManifestPayload {
  SignerManifest_ProtocolVersion : Z;
  SignerManifest_ManifestRevision : string;
  SignerManifest_Issuer : string;
  SignerManifest_ServerBaseURL : string;
  SignerManifest_PreviousManifestDigest : string;
  SignerManifest_IssuedAt : string;
  SignerManifest_Keys : slice OfflineSignerKey;
}.

(** The envelopes differ in their payloads. *)
Record SignedEnvelope (P : Type) := mkSignedEnvelope { Payload : P; SignerKeyID : string; Signature : string }.
Arguments mkSignedEnvelope {P}.
Arguments Payload {P}.
Arguments SignerKeyID {P}.
Arguments Signature {P}.
Definition OfflineSignerManifestEnvelope : Type := SignedEnvelope OfflineSignerManifestPayload.

Record OfflineAuthorizationPayload := mkOfflineAuthorizationPayload {
  Authorization_ProtocolVersion : Z;
  Authorization_Format : string;
  Authorization_Issuer : string;
  Authorization_SignerKeyID : string;
  Authorization_PackID : string;
  Authorization_DeviceID : string;
  Authorization_CredentialEpoch : string;
  Authorization_LearnerGeneration : string;
  Authorization_ServerOriginDigest : string;
  Authorization_OfflineActivityID : string;
  Authorization_ActivityRevision : string;
  Authorization_SubmissionID : string;
  Authorization_OperationID : string;
  Authorization_DeviceSequence : string;
  Authorization_ExpectedVersion : string;
  Authorization_ActivityPayloadDigest : string;
  Authorization_EligibleUntil : string;
  Authorization_ArchiveUntil : string;
}.

Class Activities := {
  OfflineActivity : Type;
  Activity_ActivityID : OfflineActivity → string;
  marshal_activity : OfflineActivity → string;
}.

Record OfflinePrepareResponseSignaturePayload := mkOfflinePrepareResponseSignaturePayload {
  Response_ProtocolVersion : Z;
  Response_OperationID : string;
  Response_RequestHash : string;
  Response_Replayed : bool;
  Response_PackDigest : string;
  Response_ManifestRevision : string;
  Response_ManifestDigest : string;
  Response_ResponseAt : string;
}.

Section Packs.
Context `{Activities}.

Record OfflinePackItem := mkOfflinePackItem {
  Item_Activity : OfflineActivity;
  Item_ActivityPayloadDigest : string;
  Item_Authorization : SignedEnvelope OfflineAuthorizationPayload;
}.

Record OfflinePackPayload := mkOfflinePackPayload {
  Pack_ProtocolVersion : Z;
  Pack_PackID : string;
  Pack_Revision : string;
  Pack_DeviceID : string;
  Pack_LearnerGeneration : string;
  Pack_ParentSessionID : string;
  Pack_IssuedAt : string;
  Pack_EligibleUntil : string;
  Pack_ArchiveUntil : string;
  Pack_Truncated : bool;
  Pack_TruncatedReason : string;
  Pack_Items : slice OfflinePackItem;
}.

Record OfflinePrepareResponse := mkOfflinePrepareResponse {
  Prepare_OperationID : string;
  Prepare_Replayed : bool;
  Prepare_Pack : SignedEnvelope OfflinePackPayload;
  Prepare_ManifestChain : list OfflineSignerManifestEnvelope;
  Prepare_ResponseSignature : SignedEnvelope OfflinePrepareResponseSignaturePayload;
}.
End Packs.

(** ** [json.Marshal] *)
Definition marshal_slice {A} (marshal : A → string) (s : slice A) : string :=
  match s.2 with Some n => "[" +:+ join "," (marshal <$> take n s.1) +:+ "]" | None => "null" end.

Definition marshal_bool (b : bool) : string := if b then "true" else "false".

Definition marshal_signer_key (k : OfflineSignerKey) : string := json_object [
  json_field "key_id" (json_string (SignerKey_KeyID k));
  json_field "public_key" (json_string (SignerKey_PublicKey k));
  json_field "fingerprint" (json_string (SignerKey_Fingerprint k));
  json_field "not_before" (json_string (SignerKey_NotBefore k));
  json_field "not_after" (json_string (SignerKey_NotAfter k));
  json_field "status_effective_at" (json_string (SignerKey_StatusEffectiveAt k));
  json_field "status" (json_string (SignerKey_Status k))].

Definition marshal_signer_manifest (p : OfflineSignerManifestPayload) : string := json_object [
  json_field "protocol_version" (pretty (SignerManifest_ProtocolVersion p));
  json_field "manifest_revision" (json_string (SignerManifest_ManifestRevision p));
  json_field "issuer" (json_string (SignerManifest_Issuer p));
  json_field "server_base_url" (json_string (SignerManifest_ServerBaseURL p));
  json_field "previous_manifest_digest" (json_string (SignerManifest_PreviousManifestDigest p));
  json_field "issued_at" (json_string (SignerManifest_IssuedAt p));
  json_field "keys" (marshal_slice marshal_signer_key (SignerManifest_Keys p))].

Definition marshal_signed {P} (marshal : P → string) (e : SignedEnvelope P) : string := json_object [
  json_field "payload" (marshal (Payload e));
  json_field "signer_key_id" (json_string (SignerKeyID e));
  json_field "signature" (json_string (Signature e))].

Definition marshal_authorization (p : OfflineAuthorizationPayload) : string := json_object [
  json_field "protocol_version" (pretty (Authorization_ProtocolVersion p));
  json_field "format" (json_string (Authorization_Format p));
  json_field "issuer" (json_string (Authorization_Issuer p));
  json_field "signer_key_id" (json_string (Authorization_SignerKeyID p));
  json_field "pack_id" (json_string (Authorization_PackID p));
  json_field "device_id" (json_string (Authorization_DeviceID p));
  json_field "credential_epoch" (json_string (Authorization_CredentialEpoch p));
  json_field "learner_generation" (json_string (Authorization_LearnerGeneration p));
  json_field "server_origin_digest" (json_string (Authorization_ServerOriginDigest p));
  json_field "offline_activity_id" (json_string (Authorization_OfflineActivityID p));
  json_field "activity_revision" (json_string (Authorization_ActivityRevision p));
  json_field "submission_id" (json_string (Authorization_SubmissionID p));
  json_field "operation_id" (json_string (Authorization_OperationID p));
  json_field "device_seq" (json_string (Authorization_DeviceSequence p));
  json_field "expected_version" (json_string (Authorization_ExpectedVersion p));
  json_field "activity_payload_digest" (json_string (Authorization_ActivityPayloadDigest p));
  json_field "eligible_until" (json_string (Authorization_EligibleUntil p));
  json_field "archive_until" (json_string (Authorization_ArchiveUntil p))].

Definition marshal_response (p : OfflinePrepareResponseSignaturePayload) : string := json_object [
  json_field "protocol_version" (pretty (Response_ProtocolVersion p));
  json_field "operation_id" (json_string (Response_OperationID p));
  json_field "request_hash" (json_string (Response_RequestHash p));
  json_field "replayed" (marshal_bool (Response_Replayed p));
  json_field "pack_digest" (json_string (Response_PackDigest p));
  json_field "manifest_revision" (json_string (Response_ManifestRevision p));
  json_field "manifest_digest" (json_string (Response_ManifestDigest p));
  json_field "response_at" (json_string (Response_ResponseAt p))].

(** [omitempty] *)
Definition unless_empty (name value : string) : list string := if bool_decide (value = "") then [] else [json_field name (json_string value)].
Definition unless_nil (name : string) (value : option Z) : list string := match value with Some n => [json_field name (pretty n)] | None => [] end.

Definition marshal_request (r : OfflinePrepareRequest) : string := json_object (
  unless_empty "session_id" (OfflinePrepareRequest_SessionID r) ++ [
  json_field "operation_id" (json_string (OfflinePrepareRequest_OperationID r));
  json_field "payload_schema_version" (pretty (OfflinePrepareRequest_PayloadSchemaVersion r));
  json_field "expected_session_version" (json_string (OfflinePrepareRequest_ExpectedSessionVersion r));
  json_field "trusted_manifest_revision" (json_string (OfflinePrepareRequest_TrustedManifestRevision r));
  json_field "trusted_manifest_digest" (json_string (OfflinePrepareRequest_TrustedManifestDigest r))]
  ++ unless_nil "requested_count" (OfflinePrepareRequest_RequestedCount r)
  ++ unless_nil "requested_ttl_seconds" (OfflinePrepareRequest_RequestedTTLSeconds r)).

Section MarshalPacks.
Context `{Activities}.

Definition marshal_item (i : OfflinePackItem) : string := json_object [
  json_field "activity" (marshal_activity (Item_Activity i));
  json_field "activity_payload_digest" (json_string (Item_ActivityPayloadDigest i));
  json_field "authorization" (marshal_signed marshal_authorization (Item_Authorization i))].

Definition marshal_pack (p : OfflinePackPayload) : string := json_object (
  [json_field "protocol_version" (pretty (Pack_ProtocolVersion p));
  json_field "pack_id" (json_string (Pack_PackID p));
  json_field "revision" (json_string (Pack_Revision p));
  json_field "device_id" (json_string (Pack_DeviceID p));
  json_field "learner_generation" (json_string (Pack_LearnerGeneration p));
  json_field "parent_session_id" (json_string (Pack_ParentSessionID p));
  json_field "issued_at" (json_string (Pack_IssuedAt p));
  json_field "eligible_until" (json_string (Pack_EligibleUntil p));
  json_field "archive_until" (json_string (Pack_ArchiveUntil p));
  json_field "truncated" (marshal_bool (Pack_Truncated p))]
  ++ unless_empty "truncated_reason" (Pack_TruncatedReason p)
  ++ [json_field "items" (marshal_slice marshal_item (Pack_Items p))]).
End MarshalPacks.

(** ** Reading a manifest

    A structure is read over what was there. *)
Definition no_signer_key : OfflineSignerKey := mkOfflineSignerKey "" "" "" "" "" "" "".

Definition read_signer_key (k : OfflineSignerKey) (v : text * json) : option OfflineSignerKey :=
  match v.2 with
  | Null => Some k
  | Obj ms =>
    _ ← option_guard (known_fields key_fields ms);
    key_id ← read_field read_string_field (SignerKey_KeyID k) "key_id" ms;
    public_key ← read_field read_string_field (SignerKey_PublicKey k) "public_key" ms;
    fingerprint ← read_field read_string_field (SignerKey_Fingerprint k) "fingerprint" ms;
    not_before ← read_field read_string_field (SignerKey_NotBefore k) "not_before" ms;
    not_after ← read_field read_string_field (SignerKey_NotAfter k) "not_after" ms;
    effective ← read_field read_string_field (SignerKey_StatusEffectiveAt k) "status_effective_at" ms;
    status ← read_field read_string_field (SignerKey_Status k) "status" ms;
    Some (mkOfflineSignerKey key_id public_key fingerprint not_before not_after effective status)
  | _ => None
  end.

Definition no_signer_manifest : OfflineSignerManifestPayload := mkOfflineSignerManifestPayload 0 "" "" "" "" "" ([], None).

Definition read_signer_manifest (p : OfflineSignerManifestPayload) (v : text * json) : option OfflineSignerManifestPayload :=
  match v.2 with
  | Null => Some p
  | Obj ms =>
    _ ← option_guard (known_fields manifest_fields ms);
    version ← read_field read_int_field (SignerManifest_ProtocolVersion p) "protocol_version" ms;
    revision ← read_field read_string_field (SignerManifest_ManifestRevision p) "manifest_revision" ms;
    issuer ← read_field read_string_field (SignerManifest_Issuer p) "issuer" ms;
    base_url ← read_field read_string_field (SignerManifest_ServerBaseURL p) "server_base_url" ms;
    previous ← read_field read_string_field (SignerManifest_PreviousManifestDigest p) "previous_manifest_digest" ms;
    issued_at ← read_field read_string_field (SignerManifest_IssuedAt p) "issued_at" ms;
    keys ← read_field (read_slice_field no_signer_key read_signer_key) (SignerManifest_Keys p) "keys" ms;
    Some (mkOfflineSignerManifestPayload version revision issuer base_url previous issued_at keys)
  | _ => None
  end.

(** [decodeClosedJSON] into an envelope *)
Definition decode_signed_manifest (l : text) : option OfflineSignerManifestEnvelope :=
  v ← single_value l;
  match v with
  | Null => Some (mkSignedEnvelope no_signer_manifest "" "")
  | Obj ms =>
    _ ← option_guard (known_fields envelope_fields ms);
    payload ← read_field read_signer_manifest no_signer_manifest "payload" ms;
    signer ← read_field read_string_field "" "signer_key_id" ms;
    signature ← read_field read_string_field "" "signature" ms;
    Some (mkSignedEnvelope payload signer signature)
  | _ => None
  end.

(** ** Trust *)

(** [errors.New]; an error of [canonicalJSON]. *)
Inductive trust_error : Type := TrustError (message : string) | NotCanonical (e : jcs_error).

Record Config := mkConfig {
  Config_ServerURL : string;
  Config_DeviceID : string;
  Config_AllowInsecureHTTP : bool;
  Config_Offline : option (string * text); (** the learner generation and the manifest of the pairing *)
}.

Record offlineTrustedKey := mkOfflineTrustedKey {
  trusted_keyID : string;
  publicKey : text;
  notBefore : time;
  notAfter : time;
  statusEffectiveAt : time;
  status : string;
}.

Record offlineTrustRoot := mkOfflineTrustRoot {
  canonicalEnvelope : text;
  envelope : OfflineSignerManifestEnvelope;
  payloadCanonical : text;
  manifestRevision : Z;
  manifestDigest : string;
  issuedAt : time;
  keys : gmap string offlineTrustedKey;
  activeKeyID : string;
}.

Definition canonicalJSON (encoded : string) : result trust_error text :=
  match ClientJcs.CanonicalizeJCS (bytes_of encoded) with Ok canonical => Ok canonical | Err e => Err (NotCanonical e) end.

Definition or_trust {E A} (c : result E A) (message : string) : result trust_error A := match c with Ok a => Ok a | Err _ => Err (TrustError message) end.
Definition some_trust {A} (c : option A) (message : string) : result trust_error A := match c with Some a => Ok a | None => Err (TrustError message) end.

(** Canonical UTC: what was read is written the same way. *)
Definition parseOfflineTime (value : string) : option time :=
  t ← parse_rfc3339 (bytes_of value);
  _ ← option_guard ((GoTime_offset t =? 0) && bool_decide (MarshalTime t = Some (json_string value)));
  Some (GoTime_instant t).

Definition parseOfflineUint63 (value : string) (positive : bool) : option Z :=
  let digits := bytes_of value in
  _ ← option_guard (negb (is_nil digits) && negb ((1 <? length digits)%nat && bool_decide (head digits = Some 48)));
  _ ← option_guard (forallb digit digits && (decimal digits <=? MaxUint63) && negb (positive && (decimal digits =? 0)));
  Some (decimal digits).

Definition key_statuses : list string := ["active"; "verify_only"; "retired"].

Definition decodeOfflineTrustedKey (value : OfflineSignerKey) : result trust_error offlineTrustedKey :=
  _ ← fail_if (bool_decide (SignerKey_KeyID value = "") || (128 <? str_len (SignerKey_KeyID value))) (TrustError "offline trust key ID is invalid");
  publicKey ← some_trust (base64_DecodeString (SignerKey_PublicKey value)) "offline trust public key is invalid";
  _ ← fail_if (negb (length publicKey =? 32)%nat || negb (bool_decide (base64_EncodeToString publicKey = SignerKey_PublicKey value)))
        (TrustError "offline trust public key is invalid");
  _ ← fail_if (negb (bool_decide (base64_EncodeToString (sha256_bytes publicKey) = SignerKey_Fingerprint value)))
        (TrustError "offline trust public key fingerprint does not match");
  notBefore ← some_trust (parseOfflineTime (SignerKey_NotBefore value)) "offline timestamp is not canonical UTC";
  notAfter ← some_trust (parseOfflineTime (SignerKey_NotAfter value)) "offline trust key validity window is invalid";
  _ ← fail_if (negb (time_after notAfter notBefore)) (TrustError "offline trust key validity window is invalid");
  effective ← some_trust (parseOfflineTime (SignerKey_StatusEffectiveAt value)) "offline trust key status time is invalid";
  _ ← fail_if (time_before effective notBefore || time_after effective notAfter) (TrustError "offline trust key status time is invalid");
  _ ← fail_if (negb (bool_decide (SignerKey_Status value ∈ key_statuses))) (TrustError "offline trust key status is invalid");
  Ok (mkOfflineTrustedKey (SignerKey_KeyID value) publicKey notBefore notAfter effective (SignerKey_Status value)).

Definition is_active (k : offlineTrustedKey) : bool := bool_decide (status k = "active").

Definition canSign (k : offlineTrustedKey) (at_ : time) : bool :=
  is_active k && negb (time_before at_ (notBefore k)) && time_before at_ (notAfter k) && negb (time_before at_ (statusEffectiveAt k)).

Definition canVerifyArtifact (k : offlineTrustedKey) (at_ : time) : bool :=
  if time_before at_ (notBefore k) || negb (time_before at_ (notAfter k)) then false
  else if is_active k then negb (time_before at_ (statusEffectiveAt k))
  else time_before at_ (statusEffectiveAt k).

(** A turn of the loop over the keys of a manifest. *)
Definition take_key (issuedAt : time) (found : gmap string offlineTrustedKey * string) (value : OfflineSignerKey)
    : result trust_error (gmap string offlineTrustedKey * string) :=
  let '(keys, active) := found in
  _ ← fail_if (bool_decide (is_Some (keys !! SignerKey_KeyID value))) (TrustError "offline trust checkpoint contains a duplicate key");
  key ← decodeOfflineTrustedKey value;
  if is_active key then
    _ ← fail_if (negb (bool_decide (active = "")) || time_before issuedAt (notBefore key) || negb (time_before issuedAt (notAfter key))
                 || time_before issuedAt (statusEffectiveAt key)) (TrustError "offline trust checkpoint active key is invalid");
    Ok (<[trusted_keyID key := key]> keys, trusted_keyID key)
  else Ok (<[trusted_keyID key := key]> keys, active).

Definition sameOfflineTrust (left right : offlineTrustRoot) : bool :=
  (manifestRevision left =? manifestRevision right) && bool_decide (manifestDigest left = manifestDigest right)
  && bool_decide (canonicalEnvelope left = canonicalEnvelope right).

Section Trust.
Context `{Ed25519} (ValidateServerURL : string → bool → option string).

Definition verifyOfflineSignature (domain : string) (payload : text) (signerKeyID encodedSignature trustedKeyID : string) (publicKey : text)
    : result trust_error unit :=
  _ ← fail_if (negb (bool_decide (signerKeyID = trustedKeyID))) (TrustError "offline signature uses an untrusted key");
  signature ← some_trust (base64_DecodeString encodedSignature) "offline signature encoding is invalid";
  _ ← fail_if (negb (length signature =? 64)%nat || negb (bool_decide (base64_EncodeToString signature = encodedSignature)))
        (TrustError "offline signature encoding is invalid");
  fail_if (negb (ed25519_Verify publicKey (signature_message domain payload) signature)) (TrustError "offline signature verification failed").

(** The metadata of a manifest: its revision and when it was issued. *)
Definition check_metadata (value : Config) (payload : OfflineSignerManifestPayload) : result trust_error (Z * time) :=
  let manifestOrigin := ValidateServerURL (SignerManifest_ServerBaseURL payload) (Config_AllowInsecureHTTP value) in
  match parseOfflineUint63 (SignerManifest_ManifestRevision payload) true, parseOfflineTime (SignerManifest_IssuedAt payload) with
  | Some revision, Some issuedAt =>
    let n := length (slice_of (SignerManifest_Keys payload)) in
    _ ← fail_if (negb (SignerManifest_ProtocolVersion payload =? 1) || negb (bool_decide (SignerManifest_Issuer payload = "edu-agent"))
                 || negb (bool_decide (manifestOrigin = Some (Config_ServerURL value)))
                 || negb (validOfflineDigest (SignerManifest_PreviousManifestDigest payload)) || (n =? 0)%nat || (16 <? n)%nat)
          (TrustError "offline trust checkpoint metadata is invalid");
    Ok (revision, issuedAt)
  | _, _ => Err (TrustError "offline trust checkpoint metadata is invalid")
  end.

(** A manifest that a client takes as the root of its trust. *)
Definition check_trust_root (revision : Z) (payload : OfflineSignerManifestPayload) (payloadBytes : text) (signature : string)
    (rootKey : offlineTrustedKey) (signer : string) : result trust_error unit :=
  _ ← fail_if (negb (revision =? 1) || negb (bool_decide (SignerManifest_PreviousManifestDigest payload = OfflineZeroDigest)) || negb (is_active rootKey))
        (TrustError "offline pairing trust is not a revision-1 root");
  verifyOfflineSignature OfflineSignerManifestDomain payloadBytes signer signature (trusted_keyID rootKey) (publicKey rootKey).

Definition loadOfflineTrustEnvelope (raw : text) (value : Config) (requireRoot : bool) : result trust_error offlineTrustRoot :=
  canonical ← or_trust (ClientJcs.CanonicalizeJCS raw) "offline trust checkpoint is not canonical JSON";
  envelope ← some_trust (decode_signed_manifest canonical) "offline trust checkpoint is not a closed manifest envelope";
  let payload := Payload envelope in
  payloadBytes ← canonicalJSON (marshal_signer_manifest payload);
  '(revision, issuedAt) ← check_metadata value payload;
  '(keys, activeKeyID) ← fold_result (take_key issuedAt) (∅, "") (slice_of (SignerManifest_Keys payload));
  _ ← fail_if (bool_decide (activeKeyID = "")) (TrustError "offline trust checkpoint has no active key");
  rootKey ← some_trust (keys !! SignerKeyID envelope) "offline manifest signer is absent from its key set";
  _ ← (if requireRoot then check_trust_root revision payload payloadBytes (Signature envelope) rootKey (SignerKeyID envelope) else Ok tt);
  Ok (mkOfflineTrustRoot canonical envelope payloadBytes revision (base64_EncodeToString (sha256_bytes payloadBytes)) issuedAt keys activeKeyID).

Definition loadOfflineTrust (value : Config) : result trust_error offlineTrustRoot :=
  match Config_Offline value with
  | None => Err (TrustError "paired server did not provide an offline trust root")
  | Some (_, manifest) => loadOfflineTrustEnvelope manifest value true
  end.

Definition loadOfflineTrustCheckpoint (raw : text) (value : Config) : result trust_error offlineTrustRoot := loadOfflineTrustEnvelope raw value false.

(** The next manifest of a chain, as a checkpoint. *)
Definition load_next (value : Config) (next : OfflineSignerManifestEnvelope) : result trust_error offlineTrustRoot :=
  nextBytes ← canonicalJSON (marshal_signed marshal_signer_manifest next); loadOfflineTrustEnvelope nextBytes value false.

Definition advance_once (value : Config) (current : offlineTrustRoot) (next : OfflineSignerManifestEnvelope) : result trust_error offlineTrustRoot :=
  next ← load_next value next;
  _ ← fail_if (negb (manifestRevision next =? manifestRevision current + 1)) (TrustError "offline signer manifest chain has a rollback or gap");
  _ ← fail_if (negb (bool_decide (SignerManifest_PreviousManifestDigest (Payload (envelope next)) = manifestDigest current)))
        (TrustError "offline signer manifest chain forks from the trusted checkpoint");
  _ ← fail_if (time_before (issuedAt next) (issuedAt current)) (TrustError "offline signer manifest time rolled back");
  let signer := SignerKeyID (envelope next) in
  signingKey ← some_trust (keys current !! signer) "offline signer manifest uses an unknown or inactive signer";
  _ ← fail_if (negb (is_active signingKey) || negb (canSign signingKey (issuedAt next))) (TrustError "offline signer manifest uses an unknown or inactive signer");
  _ ← verifyOfflineSignature OfflineSignerManifestDomain (payloadCanonical next) signer (Signature (envelope next)) (trusted_keyID signingKey) (publicKey signingKey);
  Ok next.

Definition advanceOfflineTrust (value : Config) (trust : offlineTrustRoot) (chain : list OfflineSignerManifestEnvelope) : result trust_error offlineTrustRoot :=
  fold_result (advance_once value) trust chain.

(** *** The replay of an older request *)

(** The manifests before the checkpoint, one after the other: the digest the next one has
    to name, and when the last one was issued. *)
Fixpoint replay_prefix (value : Config) (current : offlineTrustRoot) (requestRevision : Z) (index : nat) (prefix : list OfflineSignerManifestEnvelope)
    (expectedPrevious : string) (previousIssuedAt : time) : result trust_error unit :=
  match prefix with
  | [] => Ok tt
  | next :: prefix =>
    checkpoint ← load_next value next;
    _ ← fail_if (negb (manifestRevision checkpoint =? requestRevision + Z.of_nat index + 1)
                 || negb (bool_decide (SignerManifest_PreviousManifestDigest (Payload (envelope checkpoint)) = expectedPrevious)))
          (TrustError "offline signer manifest replay has a rollback, gap, or fork");
    _ ← fail_if (negb (index =? 0)%nat && time_before (issuedAt checkpoint) previousIssuedAt) (TrustError "offline signer manifest replay time rolled back");
    _ ← fail_if (is_nil prefix && negb (sameOfflineTrust checkpoint current)) (TrustError "offline signer manifest replay does not match the trusted checkpoint");
    replay_prefix value current requestRevision (S index) prefix (manifestDigest checkpoint) (issuedAt checkpoint)
  end.

Definition alignOfflinePrepareReplay (value : Config) (request : OfflinePrepareRequest) (current : offlineTrustRoot) (chain : list OfflineSignerManifestEnvelope)
    : result trust_error (list OfflineSignerManifestEnvelope) :=
  let invalid := TrustError "offline prepare intent trust checkpoint is invalid" in
  match parseOfflineUint63 (OfflinePrepareRequest_TrustedManifestRevision request) true with
  | None => Err invalid
  | Some requestRevision =>
    _ ← fail_if (negb (validOfflineDigest (OfflinePrepareRequest_TrustedManifestDigest request))) invalid;
    if requestRevision =? manifestRevision current then
      _ ← fail_if (negb (bool_decide (OfflinePrepareRequest_TrustedManifestDigest request = manifestDigest current)))
            (TrustError "offline prepare intent forks from the trusted checkpoint");
      Ok chain
    else
      _ ← fail_if (manifestRevision current <? requestRevision) (TrustError "offline prepare intent trust checkpoint is ahead of local trust");
      let prefixLength := manifestRevision current - requestRevision in
      _ ← fail_if (Z.of_nat (length chain) <? prefixLength) (TrustError "offline signer manifest replay does not reach the trusted checkpoint");
      let n := Z.to_nat prefixLength in
      _ ← replay_prefix value current requestRevision 0 (take n chain) (OfflinePrepareRequest_TrustedManifestDigest request) time_zero;
      Ok (drop n chain)
  end.

(** Whether the checkpoint is the base or stands in the chain. *)
Fixpoint offlineTrustOnVerifiedPath (value : Config) (checkpoint : offlineTrustRoot) (chain : list OfflineSignerManifestEnvelope) : result trust_error bool :=
  match chain with
  | [] => Ok false
  | next :: chain =>
    candidate ← load_next value next;
    if sameOfflineTrust candidate checkpoint then Ok true else offlineTrustOnVerifiedPath value checkpoint chain
  end.

Definition trust_on_path (value : Config) (base checkpoint : offlineTrustRoot) (chain : list OfflineSignerManifestEnvelope) : result trust_error bool :=
  if sameOfflineTrust base checkpoint then Ok true else offlineTrustOnVerifiedPath value checkpoint chain.

(** *** Packs *)
Context `{Activities}.

Definition digest_of (bytes : text) : string := base64_EncodeToString (sha256_bytes bytes).

(** The signature of the response binds the request, the pack and the trust. *)
Definition check_response (response : OfflinePrepareResponse) (request : OfflinePrepareRequest) (nextTrust : offlineTrustRoot)
    (requestBytes packBytes responsePayloadBytes : text) : result trust_error unit :=
  let signature := Prepare_ResponseSignature response in
  let payload := Payload signature in
  _ ← fail_if (negb (bool_decide (parseOfflineUint63 (Response_ManifestRevision payload) true = Some (manifestRevision nextTrust)))
        || negb (Response_ProtocolVersion payload =? 1)
        || negb (bool_decide (Response_OperationID payload = OfflinePrepareRequest_OperationID request))
        || negb (bool_decide (Response_RequestHash payload = digest_of requestBytes))
        || negb (Bool.eqb (Response_Replayed payload) (Prepare_Replayed response))
        || negb (bool_decide (Response_PackDigest payload = digest_of packBytes))
        || negb (bool_decide (Response_ManifestDigest payload = manifestDigest nextTrust)))
      (TrustError "offline prepare response signature payload does not bind the request, pack, and trust checkpoint");
  responseAt ← some_trust (parseOfflineTime (Response_ResponseAt payload)) "offline timestamp is not canonical UTC";
  let unknown := "offline prepare response uses an unknown or inactive signer" in
  responseKey ← some_trust (keys nextTrust !! SignerKeyID signature) unknown;
  _ ← fail_if (negb (bool_decide (trusted_keyID responseKey = activeKeyID nextTrust)) || negb (canSign responseKey responseAt)) (TrustError unknown);
  verifyOfflineSignature OfflinePrepareResponseDomain responsePayloadBytes (SignerKeyID signature) (Signature signature) (trusted_keyID responseKey) (publicKey responseKey).

(** The generation of the pairing, without which there is no trust to verify with. *)
Definition learner_generation (value : Config) : string := default "" (fst <$> Config_Offline value).

(** What an authorization of a pack has to say. *)
Definition authorization_bound (value : Config) (pack : OfflinePackPayload) (packSigner encodedOriginDigest : string) (item : OfflinePackItem) : bool :=
  let signed := Item_Authorization item in
  let authorization := Payload signed in
  (Authorization_ProtocolVersion authorization =? 1) && bool_decide (Authorization_Format authorization = "offline-authorization-v1")
  && bool_decide (Authorization_Issuer authorization = "edu-agent") && bool_decide (Authorization_SignerKeyID authorization = SignerKeyID signed)
  && bool_decide (SignerKeyID signed = packSigner) && bool_decide (Authorization_PackID authorization = Pack_PackID pack)
  && bool_decide (Authorization_DeviceID authorization = Config_DeviceID value) && bool_decide (Authorization_LearnerGeneration authorization = learner_generation value)
  && bool_decide (Authorization_ServerOriginDigest authorization = encodedOriginDigest)
  && bool_decide (Authorization_OfflineActivityID authorization = Activity_ActivityID (Item_Activity item))
  && bool_decide (Authorization_ActivityPayloadDigest authorization = Item_ActivityPayloadDigest item)
  && bool_decide (Authorization_EligibleUntil authorization = Pack_EligibleUntil pack)
  && bool_decide (Authorization_ArchiveUntil authorization = Pack_ArchiveUntil pack).

Definition check_item (value : Config) (nextTrust : offlineTrustRoot) (packIssuedAt : time) (pack : OfflinePackPayload)
    (packSigner encodedOriginDigest : string) (item : OfflinePackItem) : result trust_error unit :=
  activityBytes ← canonicalJSON (marshal_activity (Item_Activity item));
  _ ← fail_if (negb (bool_decide (Item_ActivityPayloadDigest item = digest_of activityBytes))) (TrustError "offline pack item activity digest does not match");
  let signed := Item_Authorization item in
  authorizationBytes ← canonicalJSON (marshal_authorization (Payload signed));
  authorizationKey ← some_trust (keys nextTrust !! SignerKeyID signed) "offline pack item uses an unknown signer";
  _ ← fail_if (negb (canVerifyArtifact authorizationKey packIssuedAt)) (TrustError "offline pack item uses an unknown signer");
  _ ← verifyOfflineSignature OfflineAuthorizationDomain authorizationBytes (SignerKeyID signed) (Signature signed)
        (trusted_keyID authorizationKey) (publicKey authorizationKey);
  fail_if (negb (authorization_bound value pack packSigner encodedOriginDigest item)) (TrustError "offline pack item authorization binding is invalid").

(** The pack as the client is bound to it. The messages about an item do not say which
    one it is. *)
Definition check_pack (value : Config) (request : OfflinePrepareRequest) (nextTrust : offlineTrustRoot)
    (signed : SignedEnvelope OfflinePackPayload) : result trust_error unit :=
  let pack := Payload signed in
  packIssuedAt ← some_trust (parseOfflineTime (Pack_IssuedAt pack)) "offline timestamp is not canonical UTC";
  let unknown := "offline pack uses an unknown, backdated, or expired signer" in
  packKey ← some_trust (keys nextTrust !! SignerKeyID signed) unknown;
  _ ← fail_if (negb (canVerifyArtifact packKey packIssuedAt)) (TrustError unknown);
  packPayloadBytes ← canonicalJSON (marshal_pack pack);
  _ ← verifyOfflineSignature OfflinePackDomain packPayloadBytes (SignerKeyID signed) (Signature signed) (trusted_keyID packKey) (publicKey packKey);
  _ ← fail_if (negb (bool_decide (OfflinePrepareRequest_SessionID request = "")) && negb (bool_decide (Pack_ParentSessionID pack = OfflinePrepareRequest_SessionID request)))
        (TrustError "离线包来源会话不匹配");
  let items := slice_of (Pack_Items pack) in
  _ ← fail_if (negb (Pack_ProtocolVersion pack =? 1) || negb (bool_decide (Pack_DeviceID pack = Config_DeviceID value))
               || negb (bool_decide (Pack_LearnerGeneration pack = learner_generation value)) || is_nil items || (20 <? length items)%nat)
        (TrustError "offline pack binding is invalid");
  let encodedOriginDigest := digest_of (bytes_of (SignerManifest_ServerBaseURL (Payload (envelope nextTrust)))) in
  each (check_item value nextTrust packIssuedAt pack (SignerKeyID signed) encodedOriginDigest) items.

Definition verifyPreparedPack (response : OfflinePrepareResponse) (request : OfflinePrepareRequest) (value : Config) (trust : offlineTrustRoot)
    : result trust_error (text * offlineTrustRoot) :=
  nextTrust ← advanceOfflineTrust value trust (Prepare_ManifestChain response);
  requestBytes ← canonicalJSON (marshal_request request);
  packBytes ← canonicalJSON (marshal_signed marshal_pack (Prepare_Pack response));
  responsePayloadBytes ← canonicalJSON (marshal_response (Payload (Prepare_ResponseSignature response)));
  _ ← check_response response request nextTrust requestBytes packBytes responsePayloadBytes;
  _ ← check_pack value request nextTrust (Prepare_Pack response);
  Ok (packBytes, nextTrust).

Definition with_chain (chain : list OfflineSignerManifestEnvelope) (response : OfflinePrepareResponse) : OfflinePrepareResponse :=
  mkOfflinePrepareResponse (Prepare_OperationID response) (Prepare_Replayed response) (Prepare_Pack response) chain (Prepare_ResponseSignature response).

Definition untrusted : trust_error := TrustError "the prepared offline pack failed trust verification".

(** How the command accepts what the server prepared: [intent] is the trust that the
    request was made with, if it was stored with it, and [trust] the one of now. *)
Definition accept_prepared (value : Config) (intent : option offlineTrustRoot) (trust : offlineTrustRoot)
    (request : OfflinePrepareRequest) (response : OfflinePrepareResponse) : result trust_error (text * offlineTrustRoot) :=
  '(base, chain) ← match intent with
                   | Some base => Ok (base, Prepare_ManifestChain response)
                   | None => chain ← or_trust (alignOfflinePrepareReplay value request trust (Prepare_ManifestChain response)) "the prepared offline pack failed trust verification"; Ok (trust, chain)
                   end;
  '(packBytes, nextTrust) ← match verifyPreparedPack (with_chain chain response) request value base with Ok r => Ok r | Err _ => Err untrusted end;
  covered ← match trust_on_path value base trust chain with Ok b => Ok b | Err _ => Err untrusted end;
  _ ← fail_if (negb covered) untrusted;
  Ok (packBytes, nextTrust).
End Trust.

(** ** The client follows the server *)
Section Following.
Context `{Ed25519} (ValidateServerURL : string → bool → option string).




(** A key of the server, as the client keeps it. *)
Definition trusted (k : OfflineSignerKeyV1) : offlineTrustedKey :=
  mkOfflineTrustedKey (Key_KeyID k) (default [] (base64_DecodeString (Key_PublicKey k))) (instant (Key_NotBefore k)) (instant (Key_NotAfter k))
    (instant (Key_StatusEffectiveAt k)) (Key_Status k).


(** The client stands at the manifest [p], the one at [index] of the chain. *)
Record checkpoint (index : nat) (e : OfflineSignedEnvelope) (p : OfflineSignerManifestPayloadV1) (t : offlineTrustRoot) : Prop := {
  at_revision_ : manifestRevision t = Z.of_nat (S index);
  at_digest : manifestDigest t = offlineBase64Digest (Envelope_Payload e);
  at_payload : payloadCanonical t = Envelope_Payload e;
  at_issued : issuedAt t = instant (Manifest_IssuedAt p);
  at_keys : ∀ id, keys t !! id = trusted <$> offlineManifestKey p id;
  at_active : ∀ id key, offlineManifestKey p id = Some key → Key_Status key = "active" → id = activeKeyID t;
}.





















End Following.

(** ** What the client accepts *)
Section Authentic.
Context `{Ed25519} `{Activities} (ValidateServerURL : string → bool → option string).

(** The keys of the server, and what was signed with them: the domain and the text. *)
Context (honest : text → Prop) (signed : text → string → text → Prop).

(** No signature of these keys is forged. *)
Definition unforgeable : Prop :=
  ∀ key m signature, honest key → ed25519_Verify key m signature = true → ∃ domain payload, signed key domain payload ∧ m = signature_message domain payload.

(** The server signed, in this domain, a text with the digest of this one. *)
Definition vouched (domain : string) (l : text) : Prop := ∃ key payload, honest key ∧ signed key domain payload ∧ sha256_bytes payload = sha256_bytes l.

Definition all_honest (t : offlineTrustRoot) : Prop := ∀ id k, keys t !! id = Some k → honest (publicKey k).

(** Domains are separated: the digest has a fixed size. *)
Lemma message_inj domain1 domain2 l1 l2 : signature_message domain1 l1 = signature_message domain2 l2 → domain1 = domain2 ∧ sha256_bytes l1 = sha256_bytes l2.
Proof. intros [Hd Hs]%app_inj_2; [|by rewrite !sha256_length]. split; [by apply bytes_of_inj|done]. Qed.

Lemma verified_vouched domain payload signer signature trusted key : unforgeable → honest key →
  verifyOfflineSignature domain payload signer signature trusted key = Ok tt → vouched domain payload.
Proof.
  intros Hunforgeable Hkey. unfold verifyOfflineSignature. intros [_ (sg & _ & [_ Hverify%fail_if_Ok%negb_false_iff]%guard_Ok)%bind_Ok]%guard_Ok.
  destruct (Hunforgeable key _ _ Hkey Hverify) as (domain' & payload' & Hsigned & [<- Hdigest]%message_inj). by exists key, payload'.
Qed.

Lemma some_trust_Ok {A} (o : option A) message a : some_trust o message = Ok a → o = Some a.
Proof. destruct o; [by intros [= ->]|done]. Qed.

(** A step to the next manifest: what it asks for. *)
Lemma advance_once_Ok value t c t' : unforgeable → all_honest t → advance_once ValidateServerURL value t c = Ok t' →
  load_next ValidateServerURL value c = Ok t' ∧ manifestRevision t' = manifestRevision t + 1 ∧ vouched OfflineSignerManifestDomain (payloadCanonical t').
Proof.
  intros Hunforgeable Hhonest. unfold advance_once. intros (next & Hload & [Hrev [_ [_ (key & Hkey%some_trust_Ok & [_ ([] & Hverify & [= <-])%bind_Ok]%guard_Ok)%bind_Ok]%guard_Ok]%guard_Ok]%guard_Ok)%bind_Ok.
  apply negb_false_iff, Z.eqb_eq in Hrev. split_and!; [done|done|]. apply verified_vouched in Hverify; [done..|]. by eapply Hhonest.
Qed.

(** Along a chain all keys stay keys of the server, and no revision is passed over. *)
Lemma advance_Ok value chain : ∀ t t', unforgeable →
  (∀ c r, c ∈ chain → load_next ValidateServerURL value c = Ok r → vouched OfflineSignerManifestDomain (payloadCanonical r) → all_honest r) →
  all_honest t → advanceOfflineTrust ValidateServerURL value t chain = Ok t' →
  all_honest t' ∧ manifestRevision t <= manifestRevision t'
  ∧ ∀ c r, c ∈ chain → load_next ValidateServerURL value c = Ok r → manifestRevision r <= manifestRevision t'.
Proof.
  induction chain as [|c chain IH]; intros t t' Hunforgeable Hmanifests Hhonest; unfold advanceOfflineTrust; cbn [fold_result].
  - intros [= <-]. split_and!; [done|lia|]. by intros c r Hc%elem_of_nil.
  - intros (t1 & (Hload & Hrev & Hvouched)%advance_once_Ok & Hadvance)%bind_Ok; [|done..].
    apply IH in Hadvance as (Hhonest' & Hle & Hrest); [|done|intros; eapply Hmanifests; [by right|done..]|by eapply Hmanifests; [left|..]].
    split_and!; [done|lia|]. intros c' r [->|Hc]%elem_of_cons Hr; [|by eapply Hrest]. rewrite Hload in Hr. by injection Hr as <-.
Qed.

Lemma on_path value checkpoint_ chain : offlineTrustOnVerifiedPath ValidateServerURL value checkpoint_ chain = Ok true →
  ∃ c r, c ∈ chain ∧ load_next ValidateServerURL value c = Ok r ∧ manifestRevision r = manifestRevision checkpoint_.
Proof.
  induction chain as [|c chain IH]; cbn [offlineTrustOnVerifiedPath]; [done|]. intros (r & Hr & Hsame)%bind_Ok. destruct (sameOfflineTrust r checkpoint_) eqn:Heq.
  - exists c, r. split_and!; [by left|done|]. unfold sameOfflineTrust in Heq. rewrite !andb_true_iff in Heq. destruct Heq as [[Heq _] _]. by apply Z.eqb_eq.
  - destruct (IH Hsame) as (c' & r' & ? & ? & ?). exists c', r'. split; [by right|done].
Qed.

(** An item of an accepted pack. *)
Record item_ok (value : Config) (next : offlineTrustRoot) (pack : SignedEnvelope OfflinePackPayload) (item : OfflinePackItem) : Prop := {
  item_vouched : ∃ l, canonicalJSON (marshal_authorization (Payload (Item_Authorization item))) = Ok l ∧ vouched OfflineAuthorizationDomain l;
  item_activity : ∃ l, canonicalJSON (marshal_activity (Item_Activity item)) = Ok l ∧ Item_ActivityPayloadDigest item = digest_of l
                    ∧ Authorization_ActivityPayloadDigest (Payload (Item_Authorization item)) = digest_of l;
  item_pack : Authorization_PackID (Payload (Item_Authorization item)) = Pack_PackID (Payload pack);
  item_device : Authorization_DeviceID (Payload (Item_Authorization item)) = Config_DeviceID value;
  item_origin : Authorization_ServerOriginDigest (Payload (Item_Authorization item)) = digest_of (bytes_of (SignerManifest_ServerBaseURL (Payload (envelope next))));
}.

(** An accepted pack. *)
Record pack_ok (value : Config) (request : OfflinePrepareRequest) (next : offlineTrustRoot) (pack : SignedEnvelope OfflinePackPayload) : Prop := {
  pack_vouched : ∃ l, canonicalJSON (marshal_pack (Payload pack)) = Ok l ∧ vouched OfflinePackDomain l;
  pack_device : Pack_DeviceID (Payload pack) = Config_DeviceID value;
  pack_generation : Pack_LearnerGeneration (Payload pack) = learner_generation value;
  pack_session : OfflinePrepareRequest_SessionID request = "" ∨ Pack_ParentSessionID (Payload pack) = OfflinePrepareRequest_SessionID request;
  pack_count : (1 <= length (slice_of (Pack_Items (Payload pack))) <= 20)%nat;
  pack_items : Forall (item_ok value next pack) (slice_of (Pack_Items (Payload pack)));
}.

Lemma check_item_Ok value next issued pack item : unforgeable → all_honest next →
  check_item value next issued (Payload pack) (SignerKeyID pack) (digest_of (bytes_of (SignerManifest_ServerBaseURL (Payload (envelope next))))) item = Ok tt →
  item_ok value next pack item.
Proof.
  intros Hunforgeable Hhonest. unfold check_item.
  intros (activity & Hactivity & [Hdigest%negb_false_iff%bool_decide_eq_true (authorization & Hauthorization & (key & Hkey%some_trust_Ok & [_ ([] & Hverify & Hbound%fail_if_Ok%negb_false_iff)%bind_Ok]%guard_Ok)%bind_Ok)%bind_Ok]%guard_Ok)%bind_Ok.
  unfold authorization_bound in Hbound. rewrite !andb_true_iff, !bool_decide_eq_true in Hbound. destruct Hbound as [[[[[[[[[[[[_ _] _] _] _] ?] ?] _] ?] _] Hactivity'] _] _].
  split; [|exists activity; split_and!; [done..|congruence]|done..]. exists authorization. split; [done|]. eapply verified_vouched; [done| |done]. by eapply Hhonest.
Qed.

Lemma check_pack_Ok value request next pack : unforgeable → all_honest next → check_pack value request next pack = Ok tt → pack_ok value request next pack.
Proof.
  intros Hunforgeable Hhonest. unfold check_pack.
  intros (issued & _ & (key & Hkey%some_trust_Ok & [_ (l & Hl & ([] & Hverify & [Hsession [Hbinding Hitems]%guard_Ok]%guard_Ok)%bind_Ok)%bind_Ok]%guard_Ok)%bind_Ok)%bind_Ok.
  rewrite !orb_false_iff in Hbinding. destruct Hbinding as [[[[_ Hdevice] Hgeneration] Hnil] Hmany]. bool_prop. apply Nat.ltb_ge in Hmany. split; try done.
  - exists l. split; [done|]. eapply verified_vouched; [done| |done]. by eapply Hhonest.
  - apply andb_false_iff in Hsession as [Hs|Hs]; bool_prop; [by left|by right].
  - destruct (slice_of _); [done|]. cbn in *. lia.
  - apply each_Ok in Hitems. eapply Forall_impl; [exact Hitems|]. intros item. by apply check_item_Ok.
Qed.

(** The answer binds the request and the pack. *)
Lemma check_response_Ok response request next requestBytes packBytes l : unforgeable → all_honest next →
  check_response response request next requestBytes packBytes l = Ok tt →
  vouched OfflinePrepareResponseDomain l ∧ Response_RequestHash (Payload (Prepare_ResponseSignature response)) = digest_of requestBytes
  ∧ Response_PackDigest (Payload (Prepare_ResponseSignature response)) = digest_of packBytes.
Proof.
  intros Hunforgeable Hhonest. unfold check_response.
  intros [Hbinding (issued & _ & (key & Hkey%some_trust_Ok & [_ Hverify]%guard_Ok)%bind_Ok)%bind_Ok]%guard_Ok.
  rewrite !orb_false_iff in Hbinding. destruct Hbinding as [[[[[[_ _] _] Hrequest] _] Hpack] _]. bool_prop. split_and!; [|done..].
  eapply verified_vouched; [done| |done]. by eapply Hhonest.
Qed.

(** The trust that a pack is verified with, and the manifests after it. *)
Definition verified_from (value : Config) (intent : option offlineTrustRoot) (trust : offlineTrustRoot) (request : OfflinePrepareRequest)
    (response : OfflinePrepareResponse) (base : offlineTrustRoot) (chain : list OfflineSignerManifestEnvelope) : Prop :=
  match intent with
  | Some t => base = t ∧ chain = Prepare_ManifestChain response
  | None => base = trust ∧ alignOfflinePrepareReplay ValidateServerURL value request trust (Prepare_ManifestChain response) = Ok chain
  end.

Lemma accept_prepared_Ok value intent trust request response r : accept_prepared ValidateServerURL value intent trust request response = Ok r →
  ∃ base chain, verified_from value intent trust request response base chain
    ∧ verifyPreparedPack ValidateServerURL (with_chain chain response) request value base = Ok r
    ∧ trust_on_path ValidateServerURL value base trust chain = Ok true.
Proof.
  unfold accept_prepared. intros ([base chain] & Hbase & ([packBytes next] & Hverify & (covered & Hpath & [Hcovered%negb_false_iff [= <-]]%guard_Ok)%bind_Ok)%bind_Ok)%bind_Ok.
  exists base, chain. split_and!.
  - unfold verified_from. destruct intent as [t|]; [by injection Hbase as <- <-|]. apply bind_Ok in Hbase as (chain' & Halign & [= <- <-]). split; [done|].
    by destruct (alignOfflinePrepareReplay _ _ _ _ _) as [chain''|]; [injection Halign as ->|].
  - by destruct (verifyPreparedPack _ _ _ _ _) as [[bytes t]|]; [injection Hverify as -> ->|].
  - destruct (trust_on_path _ _ _ _ _) as [b|]; [|done]. injection Hpath as ->. by rewrite Hcovered.
Qed.

Lemma verified_from_chain value intent trust request response base chain : verified_from value intent trust request response base chain →
  base = default trust intent ∧ ∀ c, c ∈ chain → c ∈ Prepare_ManifestChain response.
Proof.
  destruct intent as [t|]; cbn; [by intros [-> ->]|]. intros [-> Halign]. split; [done|]. unfold alignOfflinePrepareReplay in Halign.
  destruct (parseOfflineUint63 _ _) as [n|]; [|done]. apply guard_Ok in Halign as [_ Halign]. destruct (n =? _); [by apply guard_Ok in Halign as [_ [= <-]]|].
  apply guard_Ok in Halign as [_ [_ ([] & _ & [= <-])%bind_Ok]%guard_Ok]. intros c Hc. rewrite <- (take_drop (Z.to_nat (manifestRevision trust - n)) (Prepare_ManifestChain response)).
  apply elem_of_app. by right.
Qed.

(** C8. What a client accepts comes from its server. Take a server whose signatures are not
    forged, and whose manifests, those of the answer that it signed, list its keys only.
    If a client that trusts keys of the server accepts an answer, then the server signed
    the pack as a pack, every authorization of it as an authorization, and the answer
    as an answer to this very request with this very pack; the pack is for this device,
    generation and session, and every activity is the one that was authorized. The trust
    the client goes on with lists keys of the server only, and is no older than the trust
    it had. *)
Theorem accepted_pack_is_authentic value intent trust request response packBytes next : unforgeable →
  (∀ c r, c ∈ Prepare_ManifestChain response → load_next ValidateServerURL value c = Ok r → vouched OfflineSignerManifestDomain (payloadCanonical r) → all_honest r) →
  all_honest (default trust intent) → accept_prepared ValidateServerURL value intent trust request response = Ok (packBytes, next) →
  canonicalJSON (marshal_signed marshal_pack (Prepare_Pack response)) = Ok packBytes ∧ pack_ok value request next (Prepare_Pack response)
  ∧ (∃ l, canonicalJSON (marshal_response (Payload (Prepare_ResponseSignature response))) = Ok l ∧ vouched OfflinePrepareResponseDomain l)
  ∧ (∃ l, canonicalJSON (marshal_request request) = Ok l ∧ Response_RequestHash (Payload (Prepare_ResponseSignature response)) = digest_of l)
  ∧ Response_PackDigest (Payload (Prepare_ResponseSignature response)) = digest_of packBytes
  ∧ all_honest next ∧ manifestRevision trust <= manifestRevision next.
Proof.
  intros Hunforgeable Hmanifests Hhonest (base & chain & [-> Hsub]%verified_from_chain & Hverify & Hpath)%accept_prepared_Ok.
  unfold verifyPreparedPack in Hverify. apply bind_Ok in Hverify as (t & Hadvance & (requestBytes & Hrequest & (packBytes' & Hpack & (l & Hl & ([] & Hresponse & ([] & Hchecked & [= <- <-])%bind_Ok)%bind_Ok)%bind_Ok)%bind_Ok)%bind_Ok).
  cbn [with_chain Prepare_ManifestChain Prepare_Pack Prepare_ResponseSignature] in *.
  apply advance_Ok in Hadvance as (Hnext & Hle & Hall); [|done|intros c r Hc; apply Hmanifests, Hsub, Hc|done].
  apply check_response_Ok in Hresponse as (Hvouched & Hhash & Hdigest); [|done..]. cbn [with_chain Prepare_ResponseSignature] in *.
  split_and!; [done|by apply check_pack_Ok|by exists l|by exists requestBytes|done|done|].
  unfold trust_on_path in Hpath. destruct (sameOfflineTrust _ trust) eqn:Hsame.
  - unfold sameOfflineTrust in Hsame. rewrite !andb_true_iff, Z.eqb_eq in Hsame. lia.
  - apply on_path in Hpath as (c & r & Hc & Hr & <-). by eapply Hall.
Qed.
End Authentic.

Module Samples.
Import SignerChain.Samples.
#[local] Existing Instance toy.

(** What comes to the client for an envelope of the server. *)
Definition nothing : OfflineSignerManifestEnvelope := mkSignedEnvelope no_signer_manifest "" "".
Definition received (e : OfflineSignedEnvelope) : OfflineSignerManifestEnvelope :=
  default nothing (decode_signed_manifest (ok_or [] (ClientJcs.CanonicalizeJCS (envelope_text e)))).
Definition second_received : OfflineSignerManifestEnvelope := Eval vm_compute in received second_envelope.
Definition dropped_received : OfflineSignerManifestEnvelope := Eval vm_compute in received dropped_envelope.

Definition validate (url : string) (_ : bool) : option string := if bool_decide (url = address +:+ "/") then Some address else None.
Definition config : Config := mkConfig address "device-1" false (Some ("7", envelope_text (RootManifestEnvelope first_signer))).

Definition followed (chain : list OfflineSignerManifestEnvelope) : result trust_error (Z * string) :=
  root ← loadOfflineTrust validate config; t ← advanceOfflineTrust validate config root chain; Ok (manifestRevision t, activeKeyID t).

Example chain_followed : followed [second_received] = Ok (2, "key-2").
Proof. vm_compute. reflexivity. Qed.
(** The server takes and sends a manifest that drops the key that signed it
    ([SignerChain.Samples.dropped_is_made]); no client follows it. *)
Example dropped_is_refused : followed [dropped_received] = Err (TrustError "offline manifest signer is absent from its key set").
Proof. vm_compute. reflexivity. Qed.







End Samples.


(** The server of [Samples], and what it signs for one request. *)
Module Answers.
Import SignerChain.Samples Samples.

#[local] Instance activities : Activities := {|
  OfflineActivity := string;
  Activity_ActivityID := id;
  marshal_activity := fun a => json_object [json_field "activity_id" (json_string a)];
|}.

Definition canonical (encoded : string) : text := ok_or [] (canonicalJSON encoded).
Definition sealed {P} (domain : string) (marshal : P → string) (p : P) : SignedEnvelope P :=
  mkSignedEnvelope p "key-2" (base64_EncodeToString (toy_signature (ed25519_Public new_key) (signature_message domain (canonical (marshal p))))).

Definition request : OfflinePrepareRequest := mkOfflinePrepareRequest "" "operation-1" 1 "4" "1" (ManifestDigest first_signer) (Some 1) None.
Definition activity_digest : string := digest_of (canonical (marshal_activity "activity-1")).
Definition authorization : OfflineAuthorizationPayload := mkOfflineAuthorizationPayload 1 "offline-authorization-v1" "edu-agent" "key-2" "pack-1" "device-1" "1" "7"
  (digest_of (bytes_of (address +:+ "/"))) "activity-1" "1" "submission-1" "operation-2" "1" "0" activity_digest "2023-11-18T12:00:00Z" "2023-12-18T12:00:00Z".
Definition pack : OfflinePackPayload := mkOfflinePackPayload 1 "pack-1" "1" "device-1" "7" "session-1" "2023-11-16T12:00:00Z" "2023-11-18T12:00:00Z" "2023-12-18T12:00:00Z" false ""
  ([mkOfflinePackItem "activity-1" activity_digest (sealed OfflineAuthorizationDomain marshal_authorization authorization)], Some 1%nat).
Definition signed_pack : SignedEnvelope OfflinePackPayload := sealed OfflinePackDomain marshal_pack pack.
Definition answer : OfflinePrepareResponseSignaturePayload := mkOfflinePrepareResponseSignaturePayload 1 "operation-1" (digest_of (canonical (marshal_request request))) false
  (digest_of (canonical (marshal_signed marshal_pack signed_pack))) "2" (ManifestDigest second_signer) "2023-11-16T12:00:01Z".
Definition response : OfflinePrepareResponse := mkOfflinePrepareResponse "operation-1" false signed_pack [second_received] (sealed OfflinePrepareResponseDomain marshal_response answer).

(** All that the server ever signed. *)
Definition signed_texts : list (string * text) := Eval vm_compute in
  [(OfflineSignerManifestDomain, Envelope_Payload (RootManifestEnvelope first_signer)); (OfflineSignerManifestDomain, Envelope_Payload second_envelope);
   (OfflineAuthorizationDomain, canonical (marshal_authorization authorization));
   (OfflinePackDomain, canonical (marshal_pack pack)); (OfflinePrepareResponseDomain, canonical (marshal_response answer))].
Definition server_keys : list text := [ed25519_Public old_key; ed25519_Public new_key].

Definition honest (key : text) : Prop := key ∈ server_keys.
Definition signed (key : text) (domain : string) (l : text) : Prop := (domain, l) ∈ signed_texts.

Definition signed_messages : list text := Eval vm_compute in (fun x => signature_message x.1 x.2) <$> signed_texts.
Lemma messages_of_texts : signed_messages = (fun x => signature_message x.1 x.2) <$> signed_texts.
Proof. vm_compute. reflexivity. Qed.

(** Signatures of what the server signed, and no others. *)
Definition unforged : Ed25519 := {|
  ed25519_Sign := @ed25519_Sign toy;
  ed25519_Verify := fun key message signature =>
    bool_decide (message ∈ signed_messages) && @ed25519_Verify toy key message signature;
|}.

Lemma nothing_forged : unforgeable (H := unforged) honest signed.
Proof.
  intros key m signature _ [Hsome%bool_decide_eq_true _]%andb_true_iff. rewrite messages_of_texts in Hsome.
  apply list_elem_of_fmap in Hsome as ([domain l] & Hm & Hin). by exists domain, l.
Qed.

Definition no_trust : offlineTrustRoot := mkOfflineTrustRoot [] nothing [] 0 "" 0 ∅ "".
Definition root_trust : offlineTrustRoot := ok_or no_trust (loadOfflineTrust (H := unforged) validate config).

Example pack_accepted : ((fun r => (manifestRevision r.2, activeKeyID r.2)) <$> accept_prepared (H := unforged) validate config None root_trust request response) = Ok (2, "key-2").
Proof. vm_compute. reflexivity. Qed.
(** The same answer at another device. *)
Example other_device : accept_prepared (H := unforged) validate (mkConfig address "device-2" false (Config_Offline config)) None root_trust request response = Err untrusted.
Proof. vm_compute. reflexivity. Qed.

Definition server_keys_only (r : result trust_error offlineTrustRoot) : bool :=
  match r with Ok t => bool_decide (map_Forall (fun _ k => publicKey k ∈ server_keys) (keys t)) | Err _ => true end.

Lemma server_keys_honest r t : server_keys_only r = true → r = Ok t → all_honest honest t.
Proof. intros Hkeys ->. apply bool_decide_eq_true in Hkeys. exact Hkeys. Qed.

Lemma root_honest : all_honest honest root_trust.
Proof.
  assert (server_keys_only (Ok root_trust) = true) as Hkeys by (vm_compute; reflexivity). by apply (server_keys_honest (Ok root_trust)).
Qed.
End Answers.
#[local] Existing Instance Answers.activities.

Lemma accepted_pack_is_authentic_witness : ∃ packBytes next,
  accept_prepared (H := Answers.unforged) Samples.validate Samples.config None Answers.root_trust Answers.request Answers.response = Ok (packBytes, next)
  ∧ canonicalJSON (marshal_signed marshal_pack Answers.signed_pack) = Ok packBytes
  ∧ pack_ok Answers.honest Answers.signed Samples.config Answers.request next Answers.signed_pack
  ∧ (∃ l, canonicalJSON (marshal_response (Payload (Prepare_ResponseSignature Answers.response))) = Ok l ∧ vouched Answers.honest Answers.signed OfflinePrepareResponseDomain l)
  ∧ (∃ l, canonicalJSON (marshal_request Answers.request) = Ok l ∧ Response_RequestHash (Payload (Prepare_ResponseSignature Answers.response)) = digest_of l)
  ∧ Response_PackDigest (Payload (Prepare_ResponseSignature Answers.response)) = digest_of packBytes
  ∧ all_honest Answers.honest next ∧ manifestRevision Answers.root_trust <= manifestRevision next.
Proof.
  pose proof Answers.pack_accepted as Hok.
  destruct (accept_prepared (H := Answers.unforged) Samples.validate Samples.config None Answers.root_trust Answers.request Answers.response) as [[packBytes next]|e] eqn:Haccepted; [|discriminate Hok].
  exists packBytes, next. split; [reflexivity|].
  apply (accepted_pack_is_authentic (H := Answers.unforged) Samples.validate Answers.honest Answers.signed Samples.config None Answers.root_trust Answers.request Answers.response packBytes next).
  - apply Answers.nothing_forged.
  - intros c r Hc Hload _. apply list_elem_of_singleton in Hc as ->. eapply Answers.server_keys_honest; [|exact Hload]. vm_compute. reflexivity.
  - unfold default. cbn [from_option]. apply Answers.root_honest.
  - exact Haccepted.
Defined.
